(* ===== verification/_CoqProject ===== *)
-Q . S2P
Prelude.v
Inet.v
CList.v
DList.v
Utf8.v
Hash.v
Ip.v
Registry.v
Users.v
Backend.v
Perm.v
Codec.v
Crontab.v
Str.v
Config.v
ConfigProps.v
ConfigText.v
Commands.v
Session.v
SiteUser.v
SiteUserProps.v
SiteGroup.v
Path.v
PermFile.v
UsersFile.v
UsersFileProps.v
Vfs.v
Chdir.v
Login.v
LoginProps.v
Sections.v
FileOps.v
Posix.v
Transfer.v
TransferProps.v
FileOpsProps.v
Handlers.v
HandlersProps.v
Digests.v
DigestsProps.v
Crypt.v
Auth.v
Cache.v
Events.v
Vars.v
VarsProps.v
Listing.v
SiteFiles.v
Extensions.v
SiteAdmin.v
SiteFilesProps.v
SiteAdminProps.v
ListingProps.v
ExtensionsProps.v
