(* ===== verification/Prelude.v ===== *)
(** * A verification of the core of wzdftpd

    wzdftpd is a modular FTP server. Its core library (src/libwzd-core) keeps the
    users and groups, resolves the paths of clients, checks permissions, runs
    scheduled jobs; it rests on containers (src/libwzd-base), on authentication
    helpers (src/libwzd-auth) and on a backend that stores the users, here the
    plaintext one (src/backends/plaintext). This library models these parts as
    functions and states what they compute.

    ** How the parts fit together

    A request names a path. [checkpath_new] (wzd_vfs.c) glues it to the current
    directory of the client, [path_simplify] (wzd_dir.c) removes its dots, and the
    result is walked from the root of the user, through the links recorded in the
    permission files ([readPermFile], wzd_file.c) and the virtual directories;
    each directory entered is a right that [_checkFileForPerm] grants or not, from
    the owner, the group, the bits and the access list written in the permission
    file by [_setPerm]. Whether the user may run a command is decided by
    [perm_check_perm] (wzd_perm.c) from the user's name, groups and flags. Users
    and groups come from the backend (wzd_backend.c, libplaintext_main.c), which
    keeps them in the registries of wzd_user.c and wzd_group.c and writes them to
    the users file (libplaintext_file.c); their access lists are those of wzd_ip.c,
    their passwords those of libwzd-auth. Commands, triggers and users are indexed
    by the hash tables of hash.c, whose buckets are the lists of list.c.

    A client gets there through the login dialogue (wzd_login.c), and each of its
    lines through the command table (wzd_commands.c, wzd_protocol.c), whose
    permissions are checked before a handler runs. The handlers of FTP commands
    (wzd_ClientThread.c) resolve the name they are given and act on files through
    wzd_file.c, or start a transfer, which wzd_data.c carries on step by step while
    it counts credits. The SITE commands (wzd_site_user.c, wzd_site_group.c,
    wzd_site.c) cut their arguments with the growing strings of wzd_string.c and
    change users, groups, connected clients, permission files and the
    configuration. Hooks and external commands are called through wzd_events.c.

    Two states go through the handlers: [session] (in [Session]: the users, the
    groups, the connected clients, the line being read and what was answered), and
    [hstate] (in [FileOps]: a session, the transfer of the client, the file system
    and the calls made to it). The file system is a type with the operations of
    the class [FileSystem], so that theorems hold for every disk; [memfs], in
    [TransferProps], is one in memory for the examples.

    ** Files

    - [Prelude]: undefined behaviour as a value, machine integers, characters and
      C strings, buffers, sorted insertion, numbers; tactics and hints.
    - [Inet]: inet_ntop.c and inet_pton.c.
    - [CList]: list.c and stack.c, cells in a heap, related to functional lists by
      [list_rep].
    - [Hash]: hash.c; [HashKeys] is what a table needs of its keys, [chtbl_rep]
      the invariant of a table, [tbl_get] the finite map it stands for.
    - [Ip]: the access lists and the host parser of wzd_ip.c, the wildcard
      comparison of wzd_misc.c.
    - [Registry]: the arrays of wzd_user.c and wzd_group.c, written once over the
      class [Registered].
    - [Users]: the structures of users and groups, their registries, the flag
      field (user_flags_change) and the groups of a user (group_remove_user,
      group_list_users).
    - [Backend]: the accessors of wzd_backend.c against the class [LookupBackend],
      the plaintext backend that implements it, user_create and group_create.
    - [Perm]: wzd_perm.c: parsing, printing and checking command permissions.
    - [Codec]: wzd_crc32.c, wzd_base64.c, wzd_sha1_hash.c.
    - [Crontab]: wzd_crontab.c, against the class [Calendar] for the local time.
    - [Str]: the growing strings of wzd_string.c as buffers with a length and a
      capacity, strlcat; [denotes] relates them to lists of characters.
    - [Commands]: wzd_protocol.c, wzd_commands.c and the part of clientThreadProc
      that finds a command, checks its permission and runs it; [holds_commands]
      relates the table to a finite map.
    - [Session]: the state a command handler works on and its monad, the calls the
      handlers share, kill_child_new and kill_child_signal of wzd_misc.c.
    - [SiteUser], [SiteUserProps]: the handlers of wzd_site_user.c, and what they
      keep and change.
    - [SiteGroup]: the handlers of wzd_site_group.c.
    - [Path]: path_simplify and the splitting of paths, wzd_dir.c.
    - [PermFile]: the permission files and the checks and changes of wzd_file.c,
      read_token of wzd_misc.c, wzd_cache_gets of wzd_cache.c.
    - [Vfs]: wzd_vfs.c: virtual directories, checkpath_new, test_path.
    - [Chdir]: stripdir of wzd_vfs.c, do_chdir and do_cwd of wzd_ClientThread.c.
    - [Login], [LoginProps]: wzd_login.c, and who is let in.
    - [DList]: dlist.c, as [CList] does list.c.
    - [Utf8]: the check of wzd_utf8.c.
    - [Config], [ConfigProps], [ConfigText]: wzd_configfile.c; the operations as
      those of a finite map, the parser within its buffers, the text read back.
    - [UsersFile], [UsersFileProps]: libplaintext_file.c and its round trip.
    - [Sections]: wzd_section.c.
    - [FileOps], [FileOpsProps]: the operations of wzd_file.c on files and the
      class [FileSystem] they need; wzd_ratio.c.
    - [Transfer], [TransferProps]: wzd_data.c, and transfers run to their end.
    - [Handlers], [HandlersProps]: the handlers of FTP commands.
    - [Digests], [DigestsProps], [Crypt], [Auth]: the digests of libwzd-auth, DES,
      and the storing and checking of passwords (wzd_auth.c).
    - [Cache]: wzd_cache.c as it is configured.
    - [Events]: wzd_events.c and the hooks of wzd_mod.c.
    - [Vars], [VarsProps]: wzd_vars.c.
    - [Listing], [ListingProps]: the directories of wzd_dir.c, the lines and masks
      of wzd_list.c, the commands LIST, NLST, STAT, MLSD and MLST.
    - [Extensions], [ExtensionsProps]: XCRC, XMD5, MODA, EPSV and the commands that
      only reply.
    - [SiteFiles], [SiteFilesProps]: the commands of wzd_site.c on files, with the
      deprecated checkpath of wzd_vfs.c.
    - [SiteAdmin], [SiteAdminProps]: its commands on the server, and the buffer of
      the log (wzd_log.c).

    ** How the code is modelled

    A pointer into the heap is an address, [positive], and a heap a finite map;
    NULL is [None]. Where the code only walks a chain of structures, the chain is a
    list. An array of characters is the list of its bytes; a C string is the list
    of its bytes before the NUL. An access out of an array, a dereference of NULL
    or of a freed structure, and the use of an unset variable make the result
    [Crash]; errors the code returns are values. A theorem that gives [Val] as the
    result of a function therefore says also that it stays within its arrays.
    Integers are [Z], with their wrap-around written out. The results of
    [malloc] are arguments where the code tests them. Locks, logging and the
    release of memory are left out, except where releasing is the behaviour at
    stake ([list_destroy], [chtbl_remove], [backend_mod_user]).

    Loops that are not structural take fuel: the length of the text that is read,
    which each turn shortens ([strip_options], [simplify_loop], [scan_token], [add_entries],
    [read_lines], [replace_cookies], [match_tokens], [each_file]), the length of a
    list of jobs ([resched_loop]), the number of cells ([destroy_loop]), the length
    of a path whose parents are checked ([check_perm]), 1024 for the depth of a
    recursive deletion ([do_internal_wipe]), whose paths get longer within an array
    of 1024 characters. Running out of fuel is [Crash] or an incomplete result, so
    the theorems, which state the result, also show that the fuel is enough.

    ** What the theorems show

    - Login: whoever gets in is a registered user whose password was accepted and
      whom every limit allows ([login_authenticates]).
    - Commands: a line reaches its handler exactly when the permissions of the
      command allow it ([permission_enforced]); the table is a finite map.
    - Paths: [checkpath_new] only gives paths below the user's root, the targets of
      links or virtual directories ([checkpath_confined]); [path_simplify] computes
      the canonical path in place, [stripdir] the same one for ordinary names;
      [do_chdir] enters directories below these places only.
    - Permissions: the first entry that applies decides ([perm_check_first_match]);
      lines are parsed and printed faithfully; [_checkFileForPerm] decides as the
      access list, the bits of the class of the user and the default permissions
      say; permission files are read back as written; [_setPerm] changes one file
      and nothing else, and so does SITE CHMOD ([site_chmod_sets]).
    - Files and transfers: whatever name a client sends, the handlers answer and
      act only below its tree ([path_commands_confined]); a download delivers the
      file and ends, an upload is downloaded again as it was sent; a recursive
      deletion ends and removes what is below the directory ([wipe_removes]); PORT
      understands what PASV replies; XCRC of parts is XCRC of the whole
      ([xcrc_in_parts]).
    - Listings: NLST sends the visible names of a directory, its virtual
      directories and links, all of them and nothing else ([nlst_sends]); masks
      accept the names they should ([list_match_glob]).
    - Files of the server: the configuration and the users file are read back as
      they were written; the configuration is a finite map.
    - Passwords: what is stored is accepted again ([password_accepted]); digests do
      not depend on how the text is cut; DES decrypts what it encrypts.
    - Events: handlers run in order until one denies; arguments reach the program
      they are for ([command_line_roundtrip]).
    - Users and groups: the registries keep their invariant under every operation,
      lookups return what was registered, flags stay well formed, creation
      registers a new user under a free identifier, name lookups find the first
      match.
    - SITE commands: a group administrator changes no user of another group
      ([gadmin_confined]) and no group; who may set a password
      ([site_chpass_allowed]); deleting and restoring a user are inverse; giving
      credits moves them; the purge removes the users marked as deleted;
      permissions of commands change as those of a finite map
      ([site_perm_refines]); what of the log is shown ([showlog_shows]).
    - Strings: edits of the buffers are the edits of lists of characters, tokens
      and splits are those of the text.
    - Containers: lists and tables implement functional lists and finite maps, and
      sorted insertion sorts.
    - Encodings and jobs: the table-driven CRC-32 is the bitwise one and can be
      computed in parts; base64 decodes what it encodes; due jobs run in order and
      are put back sorted.
    - Variables: values set are read back, and the search for a shared variable
      returns exactly when its chain is empty or begins with it.
    - Defects, stated as theorems or examples at the input that shows them: a
      double free, dropped and dangling users, overruns of buffers, loops that do
      not end, paths that escape.

    ** What is not modelled

    Sockets, threads, TLS, shared libraries and the accept loop are
    operating-system services; the loop of the client thread only waits for them.
    The SITE commands that report the state of the process or reload it, the
    loading of the server's configuration (wzd_configloader.c) and the template
    files with their cookies, which a generated scanner replaces, are left out. The optional modules and the
    SQL backends are plug-ins and glue. Of the code outside this repository, the
    functions of the C library are modelled as far as they are used; the kinds of
    files on disk, the time zone, the name service, PAM and certificates are
    parameters. *)

From Stdlib Require Export ZArith Ascii String Sorted Relation_Definitions.
From stdpp Require Export base option numbers strings gmap list_basics list.

#[global] Open Scope Z_scope.
#[global] Open Scope list_scope.

(** ** Undefined behaviour as a value *)

(** [Crash] stands for a C execution whose behaviour is undefined: a null or
    dangling pointer is dereferenced, a buffer is accessed out of its bounds. *)
Inductive outcome (A : Type) : Type :=
  | Val (a : A)
  | Crash.
Arguments Val {_} _.
Arguments Crash {_}.

#[global] Instance outcome_mret : MRet outcome := @Val.
#[global] Instance outcome_mbind : MBind outcome := λ A B f m,
  match m with Val a => f a | Crash => Crash end.
#[global] Instance outcome_fmap : FMap outcome := λ A B f m,
  match m with Val a => Val (f a) | Crash => Crash end.

#[global] Instance Val_inj A : Inj (=) (=) (@Val A).
Proof. by intros ? ? [=]. Qed.

(** Reading through a pointer: absent means the access is undefined. *)
Definition deref {A} (o : option A) : outcome A :=
  match o with Some a => Val a | None => Crash end.

Lemma outcome_bind_Val {A B} (m : outcome A) (f : A → outcome B) b :
  (m ≫= f) = Val b ↔ ∃ a, m = Val a ∧ f a = Val b.
Proof. destruct m; simpl; naive_solver. Qed.

Lemma deref_Val {A} (o : option A) a : deref o = Val a ↔ o = Some a.
Proof. destruct o; simpl; naive_solver. Qed.

(** One step of an execution whose reads are known. *)
Ltac run := cbn [deref mbind outcome_mbind].
Tactic Notation "run" "in" hyp(H) := cbn [deref mbind outcome_mbind] in H.

(** [m ⇓ v]: the execution is defined and returns [v]. *)
Declare Scope c_scope.
Delimit Scope c_scope with C.
Notation "m ⇓ v" := (m = Val v) (at level 70, no associativity) : c_scope.
#[global] Open Scope c_scope.

Create HintDb cstr.

(** ** Machine integers *)

Definition u8 (z : Z) : Z := z mod 2 ^ 8.
Definition u32 (z : Z) : Z := z mod 2 ^ 32.
Definition u64 (z : Z) : Z := z mod 2 ^ 64.

Definition INT_MAX : Z := 2 ^ 31 - 1.
Definition UINT_MAX : Z := 2 ^ 32 - 1.

Definition is_byte (b : Z) : Prop := 0 ≤ b < 256.

Lemma u8_range z : 0 ≤ u8 z < 256.
Proof. unfold u8. pose proof (Z.mod_pos_bound z (2 ^ 8)). lia. Qed.
Lemma u32_range z : 0 ≤ u32 z < 2 ^ 32.
Proof. unfold u32. pose proof (Z.mod_pos_bound z (2 ^ 32)). lia. Qed.
Lemma u64_range z : 0 ≤ u64 z < 2 ^ 64.
Proof. unfold u64. pose proof (Z.mod_pos_bound z (2 ^ 64)). lia. Qed.
Lemma u32_small z : 0 ≤ z < 2 ^ 32 → u32 z = z.
Proof. intros. by apply Z.mod_small. Qed.
Lemma u64_small z : 0 ≤ z < 2 ^ 64 → u64 z = z.
Proof. intros. by apply Z.mod_small. Qed.

(** ** Characters and C strings *)

(** A [char] is a byte; a C string is the list of the bytes before its
    terminating NUL, a buffer is the list of all its bytes. *)
Definition code (c : ascii) : Z := Z.of_N (N_of_ascii c).
(** The value of a plain [char] promoted to [int] where [char] is signed. *)
Definition scode (c : ascii) : Z := if code c <? 128 then code c else code c - 256.
Definition NUL : ascii := "000"%char.
Definition TAB : ascii := "009"%char.
Definition LF : ascii := "010"%char.
Definition CR : ascii := "013"%char.
Definition chr (z : Z) : ascii := ascii_of_N (Z.to_N z).
Definition str (s : string) : list ascii := list_ascii_of_string s.

Definition between (lo hi : Z) (c : ascii) : bool := (lo <=? code c) && (code c <=? hi).

(** [ctype.h] in the C locale. *)
Definition isdigit : ascii → bool := between 48 57.
Definition isupper : ascii → bool := between 65 90.
Definition islower : ascii → bool := between 97 122.
Definition isalpha (c : ascii) : bool := isupper c || islower c.
Definition isalnum (c : ascii) : bool := isalpha c || isdigit c.
Definition isxdigit (c : ascii) : bool :=
  isdigit c || between 65 70 c || between 97 102 c.
Definition isspace (c : ascii) : bool := between 9 13 c || (code c =? 32).
Definition tolower (c : ascii) : ascii := if isupper c then chr (code c + 32) else c.

(** [string.h]: the C string held at the start of a buffer. *)
Fixpoint cstring (buf : list ascii) : list ascii :=
  match buf with
  | [] => []
  | c :: buf => if bool_decide (c = NUL) then [] else c :: cstring buf
  end.

(** [strcmp(a,b)==0] and [strcasecmp(a,b)==0]. *)
Definition streq (a b : list ascii) : bool := bool_decide (a = b).
Definition strcaseeq (a b : list ascii) : bool :=
  bool_decide (map tolower a = map tolower b).

(** [strcmp] as an ordering of [unsigned char] strings; C promises the sign of
    the result only, so the values are -1, 0 and 1. *)
Fixpoint strcmp (a b : list ascii) : Z :=
  match a, b with
  | [], [] => 0
  | [], _ :: _ => -1
  | _ :: _, [] => 1
  | x :: a, y :: b => if code x <? code y then -1 else if code y <? code x then 1 else strcmp a b
  end.

(** [strchr(s,c) != NULL]: the terminating NUL is part of the search. *)
Definition strchr (s : list ascii) (c : ascii) : bool :=
  bool_decide (c = NUL) || bool_decide (c ∈ s).

(** A C string holds no NUL. *)
Definition nul_free (s : list ascii) : Prop := NUL ∉ s.
#[global] Instance nul_free_dec s : Decision (nul_free s) := _.

Ltac solve_nul_free := unfold nul_free in *; set_solver.

Lemma nul_free_nil : nul_free [].
Proof. solve_nul_free. Qed.
Lemma nul_free_cons c s : c ≠ NUL → nul_free s → nul_free (c :: s).
Proof. solve_nul_free. Qed.
Lemma nul_free_app s t : nul_free s → nul_free t → nul_free (s ++ t).
Proof. solve_nul_free. Qed.

#[export] Hint Resolve nul_free_nil nul_free_cons nul_free_app : cstr.

Ltac all_chars := intros [[] [] [] [] [] [] [] []]; try (vm_compute; first [reflexivity | discriminate | done]).

Lemma code_range c : 0 ≤ code c < 256.
Proof. revert c. all_chars; split; vm_compute; congruence. Qed.

Lemma tolower_idemp c : tolower (tolower c) = tolower c.
Proof. revert c. all_chars. Qed.

Lemma code_inj c d : code c = code d → c = d.
Proof.
  unfold code. intros H%N2Z.inj.
  by rewrite <- (ascii_N_embedding c), H, ascii_N_embedding.
Qed.

Lemma streq_true a b : streq a b = true ↔ a = b.
Proof. unfold streq. by rewrite bool_decide_eq_true. Qed.
Lemma streq_false a b : streq a b = false ↔ a ≠ b.
Proof. unfold streq. by rewrite bool_decide_eq_false. Qed.
Lemma strcaseeq_refl a : strcaseeq a a = true.
Proof. by apply bool_decide_eq_true. Qed.
Lemma strcaseeq_sym a b : strcaseeq a b = strcaseeq b a.
Proof. unfold strcaseeq. apply bool_decide_ext. split; congruence. Qed.
Lemma strcaseeq_trans a b c :
  strcaseeq a b = true → strcaseeq b c = true → strcaseeq a c = true.
Proof. unfold strcaseeq. rewrite !bool_decide_eq_true. congruence. Qed.

Lemma cstring_nul_free buf : nul_free (cstring buf).
Proof.
  unfold nul_free. induction buf as [|c buf IH]; simpl; [set_solver|].
  case_bool_decide; set_solver.
Qed.

Lemma cstring_app_nul s rest : nul_free s → cstring (s ++ NUL :: rest) = s.
Proof.
  unfold nul_free. induction s as [|c s IH]; simpl; intros Hs; [done|].
  rewrite bool_decide_eq_false_2 by set_solver. f_equal. apply IH. set_solver.
Qed.

Lemma cstring_id s : nul_free s → cstring s = s.
Proof.
  unfold nul_free. induction s as [|c s IH]; simpl; intros Hs; [done|].
  rewrite bool_decide_eq_false_2 by set_solver. f_equal. apply IH. set_solver.
Qed.

Lemma strcmp_zero a b : strcmp a b = 0 ↔ a = b.
Proof.
  revert b. induction a as [|x a IH]; intros [|y b]; simpl; try done.
  destruct (Z.ltb_spec (code x) (code y)); [split; [done|intros [=]; subst; lia]|].
  destruct (Z.ltb_spec (code y) (code x)); [split; [done|intros [=]; subst; lia]|].
  rewrite IH. assert (x = y) as -> by (apply code_inj; lia). naive_solver.
Qed.

(** ** Lists *)

Lemma StronglySorted_mid {B} (R : B → B → Prop) l1 x l2 :
  StronglySorted R (l1 ++ x :: l2) ↔
  StronglySorted R (l1 ++ l2) ∧ Forall (λ y, R y x) l1 ∧ Forall (R x) l2.
Proof.
  induction l1 as [|y l1 IH]; simpl.
  - split; [intros [? ?]%StronglySorted_inv; naive_solver|]. intros (? & _ & ?). by constructor.
  - split.
    + intros [H1 H2]%StronglySorted_inv. apply IH in H1 as (? & ? & ?).
      rewrite Forall_app, Forall_cons in H2. destruct H2 as (? & ? & ?).
      split_and!; [constructor; [done|by apply Forall_app]|by constructor|done].
    + intros ([H1 H2]%StronglySorted_inv & [Hy H3]%Forall_cons & H4).
      constructor; [apply IH; naive_solver|]. rewrite Forall_app in H2 |- *.
      rewrite Forall_cons. naive_solver.
Qed.

Lemma find_mid_skip {B} (f : B → bool) l1 x l2 :
  f x = false → List.find f (l1 ++ x :: l2) = List.find f (l1 ++ l2).
Proof. intros Hx. induction l1 as [|y l1 IH]; simpl; [by rewrite Hx|]. by rewrite IH. Qed.

Lemma find_mid_hit {B} (f : B → bool) l1 x l2 :
  List.find f l1 = None → f x = true → List.find f (l1 ++ x :: l2) = Some x.
Proof.
  intros H1 Hx. induction l1 as [|y l1 IH]; simpl in *; [by rewrite Hx|].
  destruct (f y); [done|]. by apply IH.
Qed.

Lemma find_app_None {B} (f : B → bool) l1 l2 :
  List.find f l1 = None → List.find f l2 = None → List.find f (l1 ++ l2) = None.
Proof.
  intros H1 H2. induction l1 as [|y l1 IH]; simpl in *; [done|].
  destruct (f y); [done|]. by apply IH.
Qed.

(** ** Sorted insertion *)

(** Several lists of the program (list.c, hash.c, wzd_crontab.c, wzd_file.c)
    are kept sorted by the same loop: insert at the head when the head is
    [above] the new element, otherwise walk on from the head while the next
    element is [below] the new one. *)
Section insertion.
  Context {B : Type} (above below : B → B → bool).

Fixpoint ins_after (x : B) (ys : list B) : list B :=
  match ys with
  | [] => [x]
  | y :: ys => if below y x then y :: ins_after x ys else x :: y :: ys
  end.

Definition ins_sorted (x : B) (ys : list B) : list B :=
  match ys with
  | [] => [x]
  | y :: ys => if above y x then x :: y :: ys else y :: ins_after x ys
  end.

Lemma ins_after_perm x ys : ins_after x ys ≡ₚ x :: ys.
Proof.
  induction ys as [|y ys IH]; simpl; [done|]. destruct (below y x); [|done].
  rewrite IH. constructor.
Qed.

Lemma ins_sorted_perm x ys : ins_sorted x ys ≡ₚ x :: ys.
Proof.
  destruct ys as [|y ys]; simpl; [done|]. destruct (above y x); [done|].
  rewrite ins_after_perm. constructor.
Qed.

  (** On elements satisfying [P] the two tests decide the order [R]. *)
  Context (R : B → B → Prop) (P : B → Prop).
Definition insertion_order : Prop :=
  transitive B R ∧
  (∀ x y, P x → P y → if above y x then R x y else R y x) ∧
  (∀ x y, P x → P y → if below y x then R y x else R x y).

Lemma ins_after_sorted x ys :
  insertion_order → P x → Forall P ys → StronglySorted R ys → StronglySorted R (ins_after x ys).
Proof.
  intros (Htr & _ & Hb) Hx HP Hs. induction Hs as [|y ys Hs IH Hy]; simpl; [repeat constructor|].
  apply Forall_cons in HP as [Hpy HP]. specialize (Hb x y Hx Hpy) as Hxy.
  destruct (below y x).
  - constructor; [by apply IH|]. rewrite ins_after_perm. by constructor.
  - constructor; [by constructor|]. constructor; [done|].
    eapply Forall_impl; [done|]. eauto.
Qed.

Lemma ins_sorted_sorted x ys :
  insertion_order → P x → Forall P ys → StronglySorted R ys → StronglySorted R (ins_sorted x ys).
Proof.
  intros Ho Hx HP Hs. pose proof Ho as (Htr & Ha & _). destruct Hs as [|y ys Hs Hy]; simpl; [repeat constructor|].
  apply Forall_cons in HP as [Hpy HP]. specialize (Ha x y Hx Hpy).
  destruct (above y x).
  - constructor; [by constructor|]. constructor; [done|]. eapply Forall_impl; [done|]. eauto.
  - constructor; [by apply ins_after_sorted|]. rewrite ins_after_perm. by constructor.
Qed.
End insertion.

(** ** Numbers *)

Definition digit (c : ascii) : Z := code c - 48.

(** The value of a hexadecimal digit; 36 for the other characters. *)
Definition xdigit (c : ascii) : Z :=
  if isdigit c then code c - 48
  else if between 97 102 c then code c - 87
  else if between 65 70 c then code c - 55
  else 36.

(** [strtoul(s,&end,base)] on a 64-bit [unsigned long], for a base up to ten:
    the value and the rest of the string. White space and a sign are accepted
    before the digits; too large a value saturates; without any digit nothing is
    consumed. *)
Section number.
  Context (base : Z).

Definition isdigit_in (c : ascii) : bool := isdigit c && (digit c <? base).

Fixpoint digits_value_in (acc : Z) (s : list ascii) : Z * list ascii :=
  match s with
  | c :: s' => if isdigit_in c then digits_value_in (acc * base + digit c) s' else (acc, s)
  | [] => (acc, [])
  end.

Fixpoint skip_spaces (s : list ascii) : list ascii :=
  match s with c :: s' => if isspace c then skip_spaces s' else s | [] => [] end.

Definition ULONG_MAX : Z := 2 ^ 64 - 1.

Definition strtoul_in (s : list ascii) : Z * list ascii :=
  let s1 := skip_spaces s in
  let '(neg, s2) := match s1 with
                    | c :: s' => if bool_decide (c = "-"%char) then (true, s')
                                 else if bool_decide (c = "+"%char) then (false, s') else (false, s1)
                    | [] => (false, [])
                    end in
  match s2 with
  | c :: _ =>
    if isdigit_in c then
      let '(v, rest) := digits_value_in 0 s2 in
      (if ULONG_MAX <? v then ULONG_MAX else if neg : bool then u64 (- v) else v, rest)
    else (0, s)
  | [] => (0, s)
  end.

(** The digits of a number, as [printf] writes them; [n] bounds their number. *)
Fixpoint print_in (n : nat) (v : Z) (acc : list ascii) : list ascii :=
  match n with
  | O => acc
  | S n =>
    let acc := chr (48 + v mod base) :: acc in
    if v / base =? 0 then acc else print_in n (v / base) acc
  end.

End number.

(** *** Reading back what was written *)

Lemma digit_char base d : 2 ≤ base ≤ 10 → 0 ≤ d < base → isdigit_in base (chr (48 + d)) = true ∧ digit (chr (48 + d)) = d.
Proof.
  intros Hb Hd. assert (Hc : code (chr (48 + d)) = 48 + d).
  { unfold code, chr. rewrite N_ascii_embedding by lia. lia. }
  unfold isdigit_in, isdigit, between, digit. rewrite Hc. split; lia.
Qed.

Lemma digits_print base n v rest :
  2 ≤ base ≤ 10 → 0 ≤ v < base ^ Z.of_nat n →
  digits_value_in base 0 (print_in base n v rest) = digits_value_in base v rest.
Proof.
  intros Hb. revert v rest. induction n as [|n IH]; intros v rest Hv; [simpl in Hv; by replace v with 0 by lia|].
  cbn [print_in]. pose proof (Z.mod_pos_bound v base ltac:(lia)) as Hm. pose proof (Z.div_mod v base ltac:(lia)) as Hd.
  destruct (digit_char base (v mod base) Hb Hm) as [Hi Hg]. destruct (Z.eqb_spec (v / base) 0) as [Hz|Hz].
  - simpl. rewrite Hi, Hg. f_equal. lia.
  - rewrite IH; [simpl; rewrite Hi, Hg; f_equal; lia|].
    rewrite Nat2Z.inj_succ, Z.pow_succ_r in Hv by lia. split; [apply Z.div_pos; lia|apply Z.div_lt_upper_bound; lia].
Qed.

Lemma print_digits base n v rest :
  2 ≤ base ≤ 10 → ∃ s, print_in base n v rest = s ++ rest ∧ Forall (λ c, isdigit_in base c = true) s ∧
    (length s ≤ n)%nat ∧ (n ≠ O → s ≠ []).
Proof.
  intros Hb. revert v rest. induction n as [|n IH]; intros v rest; cbn [print_in]; [exists []; naive_solver|].
  destruct (digit_char base (v mod base) Hb) as [Hi _]; [by apply Z.mod_pos_bound; lia|].
  destruct (v / base =? 0).
  - exists [chr (48 + v mod base)]. split_and!; [done|by repeat constructor|simpl; lia|done].
  - destruct (IH (v / base) (chr (48 + v mod base) :: rest)) as (s & -> & Hs & Hl & _).
    exists (s ++ [chr (48 + v mod base)]). rewrite <- app_assoc, length_app, Forall_app. simpl.
    split_and!; [done|done|by constructor|lia|by destruct s].
Qed.

Lemma isdigit_in_facts base c :
  isdigit_in base c = true → isdigit c = true ∧ isspace c = false ∧ c ≠ "-"%char ∧ c ≠ "+"%char ∧ c ≠ NUL.
Proof.
  unfold isdigit_in. intros [H _]%andb_prop. split; [done|]. revert c H. all_chars.
Qed.

Lemma strtoul_print base n v :
  2 ≤ base ≤ 10 → n ≠ O → 0 ≤ v < base ^ Z.of_nat n → v ≤ ULONG_MAX →
  strtoul_in base (print_in base n v []) = (v, []).
Proof.
  intros Hb Hn Hv Hmax. pose proof (digits_print base n v [] Hb Hv) as Hd.
  destruct (print_digits base n v [] Hb) as (s & Hs & Hf & _ & Hne). rewrite Hs, app_nil_r in *.
  destruct s as [|c s]; [by destruct (Hne Hn)|]. apply Forall_cons in Hf as [Hc _].
  pose proof (isdigit_in_facts _ _ Hc) as (_ & Hsp & H1 & H2 & _).
  unfold strtoul_in. cbn [skip_spaces]. rewrite Hsp, !bool_decide_eq_false_2 by done.
  rewrite Hc, Hd. simpl. replace (ULONG_MAX <? v) with false by (symmetry; lia). done.
Qed.

Definition digits_value := digits_value_in 10.
Definition strtoul := strtoul_in 10.

(** [wzd_strncpy] (libwzd-core/wzd_debug.c) into a buffer: at most [n] bytes,
    the NUL included when it is reached; nothing is padded. *)
Definition wzd_strncpy (dst src : list ascii) (n : nat) : list ascii :=
  let copied := take n (src ++ [NUL]) in copied ++ drop (length copied) dst.

(** ** Buffers *)

(** The C string at the start of a buffer: reading on past the end of a buffer
    that holds no NUL is undefined. *)
Definition buf_str (buf : list ascii) : outcome (list ascii) :=
  if bool_decide (NUL ∈ buf) then Val (cstring buf) else Crash.

Definition buf_set (buf : list ascii) (i : Z) (c : ascii) : outcome (list ascii) :=
  if (0 <=? i) && (i <? Z.of_nat (length buf)) then Val (<[Z.to_nat i := c]> buf) else Crash.

(** [strncpy(dst,src,n)]: [n] bytes are written, NUL after the end of [src]. *)
Definition strncpy (dst src : list ascii) (n : nat) : list ascii :=
  take n (src ++ replicate n NUL) ++ drop n dst.

(** A string held in a zero-filled buffer of [n] bytes. *)
Definition padded (n : nat) (s : list ascii) : list ascii := s ++ replicate (n - length s) NUL.

Lemma length_padded n s : (length s ≤ n)%nat → length (padded n s) = n.
Proof. intros. unfold padded. rewrite length_app, length_replicate. lia. Qed.

Lemma buf_str_padded n s : nul_free s → (length s < n)%nat → buf_str (padded n s) = Val s.
Proof.
  intros Hs Hn. unfold buf_str, padded. destruct (n - length s)%nat as [|k] eqn:E; [lia|]. simpl.
  rewrite bool_decide_eq_true_2 by set_solver. by rewrite cstring_app_nul.
Qed.

Lemma buf_set_padded n s c :
  (length s < n)%nat → buf_set (padded n s) (Z.of_nat (length s)) c = Val (padded n (s ++ [c])).
Proof.
  intros Hn. unfold buf_set. rewrite length_padded by lia.
  replace ((0 <=? _) && _) with true by (symmetry; lia). rewrite Nat2Z.id. f_equal. unfold padded.
  rewrite length_app. simpl. destruct (n - length s)%nat as [|k] eqn:E; [lia|].
  replace (n - (length s + 1))%nat with k by lia.
  rewrite <- (Nat.add_0_r (length s)), insert_app_r. simpl. by rewrite <- app_assoc.
Qed.

Lemma buf_set_padded_nul n s i :
  (length s ≤ n)%nat → Z.of_nat (length s) ≤ i < Z.of_nat n → buf_set (padded n s) i NUL = Val (padded n s).
Proof.
  intros Hn Hi. unfold buf_set. rewrite length_padded by lia.
  replace ((0 <=? _) && _) with true by (symmetry; lia). f_equal. apply list_insert_id.
  unfold padded. rewrite lookup_app_r, lookup_replicate_2 by lia. done.
Qed.

Lemma strncpy_padded dst s n :
  length dst = n → (length s ≤ n)%nat → strncpy dst s n = padded n s.
Proof.
  intros Hd Hs. unfold strncpy, padded. rewrite drop_ge by lia. rewrite app_nil_r.
  rewrite take_app_ge by lia. rewrite take_replicate. do 2 f_equal. lia.
Qed.

(** Copying all but the last byte of a zero-filled buffer. *)
Lemma strncpy_padded_last s n :
  (0 < n)%nat → (length s < n)%nat → strncpy (replicate n NUL) s (n - 1) = padded n s.
Proof.
  intros Hn Hs. unfold strncpy, padded. rewrite drop_replicate, take_app_ge, take_replicate by lia.
  rewrite <- app_assoc, <- replicate_add. do 2 f_equal. lia.
Qed.

Lemma cstring_length_lt buf : NUL ∈ buf → (length (cstring buf) < length buf)%nat.
Proof.
  induction buf as [|c buf IH]; simpl; intros Hin; [set_solver|].
  case_bool_decide; simpl; [lia|]. apply le_n_S, IH. set_solver.
Qed.

(** [strcmp(buf,s)==0] ([f] the identity) or [strcasecmp(buf,s)==0] ([f] the
    lower case) of a buffer and a string: the buffer is read only as far as the
    comparison goes. *)
Fixpoint buf_eq (f : ascii → ascii) (buf s : list ascii) : outcome bool :=
  match buf with
  | [] => Crash
  | b :: buf =>
    if bool_decide (b = NUL) then Val (bool_decide (s = []))
    else match s with
         | [] => Val false
         | c :: s => if bool_decide (f b = f c) then buf_eq f buf s else Val false
         end
  end.

Lemma buf_eq_terminated f t rest s :
  nul_free t → buf_eq f (t ++ NUL :: rest) s = Val (bool_decide (map f t = map f s)).
Proof.
  unfold nul_free. revert s. induction t as [|b t IH]; intros s Ht; simpl.
  - destruct s; [done|]. by rewrite bool_decide_eq_false_2, bool_decide_eq_false_2 by done.
  - rewrite bool_decide_eq_false_2 by set_solver. destruct s as [|c s]; [by rewrite bool_decide_eq_false_2 by done|].
    simpl. case_bool_decide as Hbc.
    + rewrite IH by set_solver. f_equal. apply bool_decide_ext. split; [congruence|]. by intros [= _ ?].
    + rewrite bool_decide_eq_false_2; [done|]. intros [= ? _]. done.
Qed.

Lemma padded_nul n s : (length s < n)%nat → padded n s = s ++ NUL :: replicate (n - length s - 1) NUL.
Proof. intros. unfold padded. by destruct (n - length s)%nat as [|k] eqn:E; [lia|]; simpl; rewrite Nat.sub_0_r. Qed.

Lemma buf_set_app a y tl z : buf_set (a ++ y :: tl) (Z.of_nat (length a)) z = Val (a ++ z :: tl).
Proof.
  unfold buf_set. rewrite (proj2 (Z.leb_le _ _)) by lia.
  rewrite (proj2 (Z.ltb_lt _ _)) by (rewrite length_app; simpl; lia). cbn [andb].
  rewrite Nat2Z.id, <- (Nat.add_0_r (length a)), insert_app_r. done.
Qed.

(** ** Tokens *)

(** The delimiters [" \t\r\n"]. *)
Definition is_delim (c : ascii) : bool :=
  bool_decide (c = " "%char) || bool_decide (c = TAB) || bool_decide (c = CR) || bool_decide (c = LF).

(** [strtok_r] of a string: the token, and the string [*ptr] points to after it. *)
Fixpoint skip_while (p : ascii → bool) (s : list ascii) : list ascii :=
  match s with c :: s' => if p c then skip_while p s' else s | [] => [] end.

Fixpoint take_until (p : ascii → bool) (s : list ascii) : list ascii * list ascii :=
  match s with
  | [] => ([], [])
  | c :: s => if p c then ([], s) else let '(t, r) := take_until p s in (c :: t, r)
  end.

Definition strtok (p : ascii → bool) (s : list ascii) : option (list ascii) * list ascii :=
  match skip_while p s with
  | [] => (None, [])
  | s => let '(t, r) := take_until p s in (Some t, r)
  end.

Definition is_eol (c : ascii) : bool := bool_decide (c = CR) || bool_decide (c = LF).

(** [chop] (libwzd-core/wzd_misc.c): line ends at the end of the string are cut. *)
Definition chop (s : list ascii) : list ascii := reverse (skip_while is_eol (reverse s)).

Definition is_quote (c : ascii) : bool := bool_decide (c = "034"%char) || bool_decide (c = "'"%char).

(** [strpbrk]: the string from the first character of the set on. *)
Fixpoint strpbrk (p : ascii → bool) (s : list ascii) : option (list ascii) :=
  match s with [] => None | c :: s' => if p c then Some s else strpbrk p s' end.

Lemma take_until_app p t d rest :
  Forall (λ c, p c = false) t → p d = true → take_until p (t ++ d :: rest) = (t, rest).
Proof. intros Ht Hd. induction Ht as [|c t Hc Ht IH]; simpl; [by rewrite Hd|]. by rewrite Hc, IH. Qed.

Lemma strtok_app p pre t d rest :
  Forall (λ c, p c = true) pre → t ≠ [] → Forall (λ c, p c = false) t → p d = true →
  strtok p (pre ++ t ++ d :: rest) = (Some t, rest).
Proof.
  intros Hpre Hne Ht Hd. unfold strtok. assert (skip_while p (pre ++ t ++ d :: rest) = t ++ d :: rest) as ->.
  { induction Hpre as [|c pre Hc Hpre IH]; simpl; [|by rewrite Hc].
    destruct Ht as [|c t Hc Ht]; [done|]. simpl. by rewrite Hc. }
  destruct t as [|c t]; [done|]. cbn [app]. change (c :: t ++ d :: rest) with ((c :: t) ++ d :: rest).
  by rewrite take_until_app.
Qed.

(** Every string is white space, a token, the delimiter that ends it, and the
    rest. *)
Lemma strtok_split p s :
  match strtok p s with
  | (None, r) => r = [] ∧ Forall (λ c, p c = true) s
  | (Some t, r) => ∃ pre sep, s = pre ++ t ++ sep ++ r ∧ Forall (λ c, p c = true) pre ∧
      t ≠ [] ∧ Forall (λ c, p c = false) t ∧ ((sep = [] ∧ r = []) ∨ ∃ d, sep = [d] ∧ p d = true)
  end.
Proof.
  unfold strtok. assert (∃ pre, s = pre ++ skip_while p s ∧ Forall (λ c, p c = true) pre ∧
    match skip_while p s with [] => True | c :: _ => p c = false end) as (pre & Hs & Hpre & Hc).
  { induction s as [|c s (pre & IH & Hpre & Hc)]; simpl; [by exists []|]. destruct (p c) eqn:Hp; [|by exists []].
    exists (c :: pre). split_and!; [simpl; by f_equal|by constructor|done]. }
  destruct (skip_while p s) as [|c s1]; [by rewrite app_nil_r in Hs; subst|].
  assert (H : ∀ l t r, take_until p l = (t, r) → ∃ sep, l = t ++ sep ++ r ∧ Forall (λ c, p c = false) t ∧
    ((sep = [] ∧ r = []) ∨ ∃ d, sep = [d] ∧ p d = true)).
  { clear. induction l as [|c l IH]; intros t r Ht; simpl in Ht; [simplify_eq; exists []; naive_solver|].
    destruct (p c) eqn:Hp; [simplify_eq; exists [c]; naive_solver|].
    destruct (take_until p l) as [t' r'] eqn:E. simplify_eq. destruct (IH _ _ eq_refl) as (sep & -> & ? & ?).
    exists sep. split_and!; [done|by constructor|done]. }
  destruct (take_until p (c :: s1)) as [t r] eqn:E. destruct (H _ _ _ E) as (sep & Hl & Ht & Hsep).
  exists pre, sep. split_and!; [by rewrite Hs, Hl|done| |done|done].
  intros ->. simpl in E. rewrite Hc in E. by destruct (take_until p s1).
Qed.

Lemma strpbrk_app p t d rest :
  Forall (λ c, p c = false) t → p d = true → strpbrk p (t ++ d :: rest) = Some (d :: rest).
Proof. intros Ht Hd. induction Ht as [|c t Hc Ht IH]; simpl; [by rewrite Hd|by rewrite Hc]. Qed.

Lemma skip_spaces_pre pre c s :
  Forall (λ c, isspace c = true) pre → isspace c = false → skip_spaces (pre ++ c :: s) = c :: s.
Proof. intros Hpre Hc. induction Hpre as [|x pre Hx Hpre IH]; simpl; [by rewrite Hc|by rewrite Hx]. Qed.
