(* ===== verification/Inet.v ===== *)
(** * Addresses in text: libwzd-core/inet_ntop.c and libwzd-core/inet_pton.c

    An address is the list of its bytes, in network order. [inet_ntop] writes it
    and [inet_pton] reads it, for IPv4 and for IPv6 with its abbreviations. The
    work area of [inet_ntop6] has 46 bytes; the theorem on reading back also
    bounds the text by 45 characters. *)

From S2P Require Import Prelude.

Inductive net_family_t := WZD_INET_NONE | WZD_INET4 | WZD_INET6.

(** ** Writing *)

(** [%u] of a byte. *)
Definition decimal8 (v : Z) : list ascii := print_in 10 3 v [].

Definition hexchar (d : Z) : ascii := chr (if d <? 10 then 48 + d else 87 + d).

Fixpoint print_hex (n : nat) (v : Z) (acc : list ascii) : list ascii :=
  match n with
  | O => acc
  | S n =>
    let acc := hexchar (v mod 16) :: acc in
    if v / 16 =? 0 then acc else print_hex n (v / 16) acc
  end.

(** [%x] of an [unsigned int] *)
Definition hex (v : Z) : list ascii := print_hex 8 v [].

Definition DOT : ascii := "."%char.
Definition COLON : ascii := ":"%char.

Fixpoint join (sep : ascii) (l : list (list ascii)) : list ascii :=
  match l with [] => [] | [x] => x | x :: l => x ++ sep :: join sep l end.

Definition inet_ntop4 (src : list Z) (size : nat) : option (list ascii) :=
  let tmp := join DOT (map decimal8 (take 4 src)) in
  if (size <=? length tmp)%nat then None else Some tmp.

(** [words[i / 2] |= (src[i] << ((1 - (i % 2)) << 3))], for both bytes of a word. *)
Definition word (a b : Z) : Z := Z.lor (Z.shiftl a 8) b.

Fixpoint to_words (src : list Z) : list Z :=
  match src with
  | a :: b :: src => word a b :: to_words src
  | _ => []
  end.

(** [best] and [cur] with their base and length; a base of -1 is [None]. *)
Definition better (best cur : option (nat * nat)) : option (nat * nat) :=
  match cur, best with
  | None, _ => best
  | Some _, None => cur
  | Some (_, cl), Some (_, bl) => if (bl <? cl)%nat then cur else best
  end.

(** The loop over the words from the [i]-th on. *)
Fixpoint longest_run (ws : list Z) (i : nat) (best cur : option (nat * nat)) : option (nat * nat) :=
  match ws with
  | [] => better best cur
  | w :: ws =>
    if w =? 0 then
      longest_run ws (S i) best (match cur with None => Some (i, 1%nat) | Some (base, len) => Some (base, S len) end)
    else longest_run ws (S i) (better best cur) None
  end.

Definition best_run (ws : list Z) : option (nat * nat) :=
  match longest_run ws 0 None None with
  | Some (base, len) => if (len <? 2)%nat then None else Some (base, len)
  | None => None
  end.

(** The loop that writes the words from the [i]-th on; the last four bytes of the
    address are [quad]. *)
Fixpoint format6 (ws : list Z) (i : nat) (best : option (nat * nat)) (word5 : Z) (quad : list Z) : option (list ascii) :=
  match ws with
  | [] => Some []
  | w :: rest =>
    let inside := match best with Some (base, len) => (base <=? i)%nat && (i <? base + len)%nat | None => false end in
    if inside then
      let here := match best with Some (base, _) => if (i =? base)%nat then [COLON] else [] | None => [] end in
      tl ← format6 rest (S i) best word5 quad; Some (here ++ tl)
    else
      let sep := if (i =? 0)%nat then [] else [COLON] in
      let encapsulated :=
        match best with
        | Some (O, len) => (len =? 6)%nat || ((len =? 5)%nat && (word5 =? 65535))
        | _ => false
        end in
      if (i =? 6)%nat && encapsulated then q ← inet_ntop4 quad 46; Some (sep ++ q)
      else tl ← format6 rest (S i) best word5 quad; Some (sep ++ hex w ++ tl)
  end.

(** [tmp] has 46 bytes; the room left in it for the encapsulated address is more
    than it needs. *)
Definition inet_ntop6 (src : list Z) (size : nat) : option (list ascii) :=
  let words := to_words src in
  let best := best_run words in
  body ← format6 words 0 best (nth 5 words 0) (drop 12 src);
  let tmp := body ++ match best with Some (base, len) => if (base + len =? 8)%nat then [COLON] else [] | None => [] end in
  if (size <? S (length tmp))%nat then None else Some tmp.

Definition inet_ntop (af : net_family_t) (src : list Z) (size : nat) : option (list ascii) :=
  match af with WZD_INET4 => inet_ntop4 src size | WZD_INET6 => inet_ntop6 src size | WZD_INET_NONE => None end.

(** ** Reading *)

(** [tmp] holds the bytes before [tp], [cur] is [*tp]. *)
Fixpoint pton4_loop (src : list ascii) (saw_digit : bool) (octets : Z) (tmp : list Z) (cur : Z) : option (list Z) :=
  match src with
  | [] => if octets <? 4 then None else Some (tmp ++ [cur])
  | ch :: src =>
    if isdigit ch then
      let new := cur * 10 + digit ch in
      if 255 <? new then None else
      if saw_digit then pton4_loop src true octets tmp new else
      if 4 <? octets + 1 then None else pton4_loop src true (octets + 1) tmp new
    else if bool_decide (ch = DOT) && saw_digit then
      if octets =? 4 then None else pton4_loop src false octets (tmp ++ [cur]) 0
    else None
  end.

Definition inet_pton4 (src : list ascii) : option (list Z) := pton4_loop src false 0 [] 0.

(** The array, [tp], [colonp], [saw_xdigit] and [val]. *)
Record pton_state := mkPton {
  p_tmp : list Z;
  p_tp : nat;
  p_colonp : option nat;
  p_saw : bool;
  p_val : Z }.

(** The bytes [bs] are written at [tp]. *)
Definition put_bytes (bs : list Z) (s : pton_state) : pton_state :=
  mkPton (list_inserts (p_tp s) bs (p_tmp s)) (p_tp s + length bs) (p_colonp s) false 0.

Definition put_word (s : pton_state) : option pton_state :=
  if (16 <? p_tp s + 2)%nat then None
  else Some (put_bytes [Z.land (Z.shiftr (p_val s) 8) 255; Z.land (p_val s) 255] s).

Fixpoint pton6_loop (src curtok : list ascii) (s : pton_state) : option pton_state :=
  match src with
  | [] => Some s
  | ch :: src =>
    if xdigit ch <? 16 then
      let val := Z.lor (Z.shiftl (p_val s) 4) (xdigit ch) in
      if 65535 <? val then None
      else pton6_loop src curtok (mkPton (p_tmp s) (p_tp s) (p_colonp s) true val)
    else if bool_decide (ch = COLON) then
      if negb (p_saw s) then
        match p_colonp s with
        | Some _ => None
        | None => pton6_loop src src (mkPton (p_tmp s) (p_tp s) (Some (p_tp s)) (p_saw s) (p_val s))
        end
      else s ← put_word s; pton6_loop src src s
    else if bool_decide (ch = DOT) && (p_tp s + 4 <=? 16)%nat then
      q ← inet_pton4 curtok; Some (put_bytes q s)
    else None
  end.

(** The loop [for (i = 1; i <= n; i++)] that moves the bytes after the double
    colon to the end. *)
Fixpoint shift_bytes (k i : nat) (colonp n : nat) (tmp : list Z) : list Z :=
  match k with
  | O => tmp
  | S k =>
    shift_bytes k (S i) colonp n (<[(colonp + n - i)%nat := 0]> (<[(16 - i)%nat := nth (colonp + n - i) tmp 0]> tmp))
  end.

Definition inet_pton6 (src : list ascii) : option (list Z) :=
  start ← (match src with
           | c :: src' =>
             if bool_decide (c = COLON) then if bool_decide (head src' = Some COLON) then Some src' else None else Some src
           | [] => Some src
           end);
  s ← pton6_loop start start (mkPton (replicate 16 0) 0 None false 0);
  s ← (if p_saw s then put_word s else Some s);
  match p_colonp s with
  | Some c => let n := (p_tp s - c)%nat in Some (shift_bytes n 1 c n (p_tmp s))
  | None => if (p_tp s =? 16)%nat then Some (p_tmp s) else None
  end.

Definition inet_pton (af : net_family_t) (src : list ascii) : option (list Z) :=
  match af with WZD_INET4 => inet_pton4 src | WZD_INET6 => inet_pton6 src | WZD_INET_NONE => None end.

(** ** Reading back *)

Lemma lor_shift a d n : 0 ≤ n → 0 ≤ d < 2 ^ n → Z.lor (Z.shiftl a n) d = a * 2 ^ n + d.
Proof.
  intros Hn Hd. rewrite <- Z.add_nocarry_lor; [by rewrite Z.shiftl_mul_pow2|].
  apply Z.bits_inj'. intros i Hi. rewrite Z.land_spec, Z.bits_0, Z.shiftl_spec by done.
  destruct (decide (i < n)); [by rewrite (Z.testbit_neg_r a) by lia|].
  assert (Z.testbit d i = false) as ->; [|apply andb_false_r].
  apply Z.testbit_false; [done|]. pose proof (Z.pow_le_mono_r 2 n i). rewrite Z.div_small; [done|lia].
Qed.

(** *** Words *)

Lemma word_value a b : is_byte b → word a b = a * 256 + b.
Proof. intros Hb. apply (lor_shift a b 8); [done|exact Hb]. Qed.

Lemma word_range a b : is_byte a → is_byte b → 0 ≤ word a b < 65536.
Proof. unfold is_byte. intros. rewrite word_value by done. lia. Qed.

Lemma word_zero a b : is_byte a → is_byte b → word a b = 0 → a = 0 ∧ b = 0.
Proof. unfold is_byte. intros ? ?. rewrite word_value by done. lia. Qed.

Lemma word_high a b : is_byte a → is_byte b → Z.land (Z.shiftr (word a b) 8) 255 = a.
Proof.
  unfold is_byte. intros ? ?. rewrite word_value, Z.shiftr_div_pow2 by done. change 255 with (Z.ones 8).
  rewrite Z.land_ones by done. change (2 ^ 8) with 256. rewrite Z.div_add_l, Z.div_small, Z.mod_small; lia.
Qed.

Lemma word_low a b : is_byte a → is_byte b → Z.land (word a b) 255 = b.
Proof.
  unfold is_byte. intros ? ?. rewrite word_value by done. change 255 with (Z.ones 8). rewrite Z.land_ones by done.
  change (2 ^ 8) with 256. rewrite Z.add_comm, Z.mod_add, Z.mod_small; lia.
Qed.

(** *** Numbers in the text *)

Definition value (base : Z) (a : Z) (s : list ascii) : Z := foldl (λ a c, a * base + xdigit c) a s.

Lemma xdigit_hexchar d : 0 ≤ d < 16 → xdigit (hexchar d) = d.
Proof.
  intros Hd. assert (Forall (λ d, xdigit (hexchar d) = d) (seqZ 0 16)) as H by (apply (bool_decide_unpack _); by vm_compute).
  rewrite Forall_forall in H. apply H, elem_of_seqZ. lia.
Qed.

Lemma print_hex_spec n v rest :
  0 ≤ v < 16 ^ Z.of_nat n → n ≠ O → ∃ s, print_hex n v rest = s ++ rest ∧ s ≠ [] ∧ (length s ≤ n)%nat ∧
    Forall (λ c, 0 ≤ xdigit c < 16) s ∧ value 16 0 s = v.
Proof.
  revert v rest. induction n as [|n IH]; intros v rest Hv Hn; [done|]. cbn [print_hex].
  pose proof (Z.mod_pos_bound v 16 ltac:(lia)) as Hm. pose proof (Z.div_mod v 16 ltac:(lia)) as Hd.
  destruct (Z.eqb_spec (v / 16) 0) as [Hz|Hz].
  - exists [hexchar (v mod 16)]. cbn. rewrite xdigit_hexchar by done.
    split_and!; [done|done|lia|apply Forall_singleton; by rewrite xdigit_hexchar|lia].
  - rewrite Nat2Z.inj_succ, Z.pow_succ_r in Hv by lia.
    assert (Hq : 0 ≤ v / 16 < 16 ^ Z.of_nat n) by (split; [apply Z.div_pos; lia|apply Z.div_lt_upper_bound; lia]).
    destruct (IH (v / 16) (hexchar (v mod 16) :: rest) Hq) as (s & -> & _ & Hl & Hf & Hval); [destruct n; [simpl in Hq; lia|done]|].
    exists (s ++ [hexchar (v mod 16)]). rewrite <- app_assoc, length_app, Forall_app. unfold value in *. rewrite foldl_app, Hval. cbn.
    rewrite xdigit_hexchar by done. split_and!; [done|by destruct s|simpl; lia|done|apply Forall_singleton; by rewrite xdigit_hexchar|lia].
Qed.

Lemma hex_spec v : 0 ≤ v < 65536 → hex v ≠ [] ∧ (length (hex v) ≤ 4)%nat ∧ Forall (λ c, 0 ≤ xdigit c < 16) (hex v) ∧ value 16 0 (hex v) = v.
Proof.
  intros Hv. assert (Hh : hex v = print_hex 4 v []).
  { unfold hex. cbn [print_hex].
    destruct (Z.eqb_spec (v / 16) 0); [done|]. destruct (Z.eqb_spec (v / 16 / 16) 0); [done|].
    destruct (Z.eqb_spec (v / 16 / 16 / 16) 0); [done|]. destruct (Z.eqb_spec (v / 16 / 16 / 16 / 16) 0) as [|Hz]; [done|].
    destruct Hz. rewrite !Z.div_div by lia. by apply Z.div_small. }
  destruct (print_hex_spec 4 v []) as (s & Hs & Hr); [done|done|]. rewrite Hh, Hs, app_nil_r. exact Hr.
Qed.

Lemma value_mono base a s : 1 ≤ base → 0 ≤ a → Forall (λ c, 0 ≤ xdigit c) s → a ≤ value base a s.
Proof.
  intros Hb. revert a. induction s as [|c s IH]; intros a Ha Hs; [unfold value; simpl; lia|].
  apply Forall_cons in Hs as [Hc Hs]. etrans; [|apply (IH (a * base + xdigit c)); [nia|done]]. nia.
Qed.

(** Hexadecimal digits are accumulated in [val]. *)
Lemma pton6_digits s rest ct t p c saw a :
  Forall (λ c, 0 ≤ xdigit c < 16) s → 0 ≤ a → value 16 a s ≤ 65535 → s ≠ [] →
  pton6_loop (s ++ rest) ct (mkPton t p c saw a) = pton6_loop rest ct (mkPton t p c true (value 16 a s)).
Proof.
  revert a saw. induction s as [|ch s IH]; intros a saw Hs Ha Hv Hne; [done|].
  apply Forall_cons in Hs as [Hc Hs]. cbn [app pton6_loop p_val p_tmp p_tp p_colonp].
  replace (xdigit ch <? 16) with true by (symmetry; lia). rewrite (lor_shift a (xdigit ch) 4) by lia. change (2 ^ 4) with 16.
  assert (a * 16 + xdigit ch ≤ 65535).
  { etrans; [|exact Hv]. apply (value_mono 16 _ s); [lia|lia|]. eapply Forall_impl; [exact Hs|]. simpl. lia. }
  replace (65535 <? a * 16 + xdigit ch) with false by (symmetry; lia).
  destruct s as [|c2 s]; [done|]. by rewrite (IH (a * 16 + xdigit ch) true) by (done || lia).
Qed.

Lemma pton6_hex v rest ct t p c saw :
  0 ≤ v < 65536 → pton6_loop (hex v ++ rest) ct (mkPton t p c saw 0) = pton6_loop rest ct (mkPton t p c true v).
Proof.
  intros Hv. destruct (hex_spec v Hv) as (Hne & _ & Hf & Hval).
  rewrite pton6_digits by (done || lia). by rewrite Hval.
Qed.

(** *** IPv4 *)

Lemma xdigit_digit c : isdigit c = true → xdigit c = digit c ∧ 0 ≤ digit c < 10 ∧ c ≠ DOT.
Proof. revert c. all_chars. Qed.

Lemma value10_step a ch s : isdigit ch = true → Forall (λ c, isdigit c = true) s → 0 ≤ a →
  value 10 a (ch :: s) = value 10 (a * 10 + digit ch) s ∧ a * 10 + digit ch ≤ value 10 a (ch :: s).
Proof.
  intros Hc Hs Ha. destruct (xdigit_digit ch Hc) as (Hx & Hd & _). unfold value. cbn [foldl]. rewrite Hx. split; [done|].
  apply (value_mono 10 _ s); [lia|lia|]. eapply Forall_impl; [exact Hs|]. intros x Hxx. cbv beta.
  destruct (xdigit_digit x Hxx) as (-> & ? & _). lia.
Qed.

Lemma pton4_digits s rest oct tmp a :
  Forall (λ c, isdigit c = true) s → 0 ≤ a → value 10 a s ≤ 255 →
  pton4_loop (s ++ rest) true oct tmp a = pton4_loop rest true oct tmp (value 10 a s).
Proof.
  revert a. induction s as [|ch s IH]; intros a Hs Ha Hv; [done|].
  apply Forall_cons in Hs as [Hc Hs]. destruct (xdigit_digit ch Hc) as (_ & Hd & _).
  destruct (value10_step a ch s Hc Hs Ha) as [E Hle]. cbn [app pton4_loop]. rewrite Hc.
  replace (255 <? a * 10 + digit ch) with false by (symmetry; lia). rewrite IH, E by (done || lia). done.
Qed.

Lemma decimal8_spec v : is_byte v →
  decimal8 v ≠ [] ∧ (length (decimal8 v) ≤ 3)%nat ∧ Forall (λ c, isdigit c = true) (decimal8 v) ∧
  value 10 0 (decimal8 v) = v ∧ value 16 0 (decimal8 v) ≤ 65535.
Proof.
  intros Hv. assert (Forall (λ v, decimal8 v ≠ [] ∧ (length (decimal8 v) ≤ 3)%nat ∧ Forall (λ c, isdigit c = true) (decimal8 v) ∧
    value 10 0 (decimal8 v) = v ∧ value 16 0 (decimal8 v) ≤ 65535) (seqZ 0 256)) as H by (apply (bool_decide_unpack _); by vm_compute).
  rewrite Forall_forall in H. apply H, elem_of_seqZ. unfold is_byte in Hv. lia.
Qed.

Lemma pton4_byte v rest oct tmp :
  is_byte v → oct < 4 → pton4_loop (decimal8 v ++ rest) false oct tmp 0 = pton4_loop rest true (oct + 1) tmp v.
Proof.
  intros Hv Ho. destruct (decimal8_spec v Hv) as (Hne & _ & Hd & Hval & _). destruct (decimal8 v) as [|c s]; [done|].
  apply Forall_cons in Hd as [Hc Hs]. destruct (xdigit_digit c Hc) as (_ & Hdc & _). unfold is_byte in Hv.
  destruct (value10_step 0 c s Hc Hs ltac:(done)) as [E Hle]. cbn [app pton4_loop]. rewrite Hc.
  replace (255 <? 0 * 10 + digit c) with false by (symmetry; lia). replace (4 <? oct + 1) with false by (symmetry; lia).
  rewrite pton4_digits by (done || lia). by rewrite <- E, Hval.
Qed.

Lemma pton4_dot rest oct tmp v : oct < 4 → pton4_loop (DOT :: rest) true oct tmp v = pton4_loop rest false oct (tmp ++ [v]) 0.
Proof. intros Ho. cbn [pton4_loop]. replace (oct =? 4) with false by (symmetry; lia). done. Qed.

Definition quad_text (a b c d : Z) : list ascii := decimal8 a ++ DOT :: decimal8 b ++ DOT :: decimal8 c ++ DOT :: decimal8 d.

Lemma ntop4_text a b c d rest : join DOT (map decimal8 (take 4 (a :: b :: c :: d :: rest))) = quad_text a b c d.
Proof. unfold quad_text. simpl. done. Qed.

Lemma quad_text_length a b c d : is_byte a → is_byte b → is_byte c → is_byte d → (length (quad_text a b c d) ≤ 15)%nat.
Proof.
  intros Ha Hb Hc Hd. unfold quad_text. rewrite !length_app. cbn [length]. rewrite !length_app. cbn [length]. rewrite !length_app. cbn [length].
  destruct (decimal8_spec a Ha) as (_ & ? & _), (decimal8_spec b Hb) as (_ & ? & _), (decimal8_spec c Hc) as (_ & ? & _), (decimal8_spec d Hd) as (_ & ? & _).
  lia.
Qed.

Lemma pton4_quad a b c d : is_byte a → is_byte b → is_byte c → is_byte d → inet_pton4 (quad_text a b c d) = Some [a; b; c; d].
Proof.
  intros Ha Hb Hc Hd. unfold inet_pton4, quad_text.
  do 3 rewrite pton4_byte, pton4_dot by done. by rewrite <- (app_nil_r (decimal8 d)), pton4_byte.
Qed.

(** *** The run of zeros *)

Definition run_ok (ws : list Z) (r : option (nat * nat)) : Prop :=
  match r with
  | None => True
  | Some (base, len) => (1 ≤ len)%nat ∧ (base + len ≤ length ws)%nat ∧ ∀ j, (base ≤ j < base + len)%nat → ws !! j = Some 0
  end.

Lemma better_ok ws best cur : run_ok ws best → run_ok ws cur → run_ok ws (better best cur).
Proof. intros. unfold better. destruct cur as [[??]|], best as [[??]|]; try done. by destruct (_ <? _)%nat. Qed.

Lemma longest_run_ok pre ws best cur :
  run_ok (pre ++ ws) best → run_ok (pre ++ ws) cur → (∀ base len, cur = Some (base, len) → (base + len = length pre)%nat) →
  run_ok (pre ++ ws) (longest_run ws (length pre) best cur).
Proof.
  revert pre best cur. induction ws as [|w ws IH]; intros pre best cur Hb Hc Hend; cbn [longest_run]; [by apply better_ok|].
  rewrite (cons_middle w pre ws), app_assoc in *. replace (S (length pre)) with (length (pre ++ [w])) by (rewrite length_app; simpl; lia).
  assert (Hw : ((pre ++ [w]) ++ ws) !! length pre = Some w).
  { rewrite lookup_app_l by (rewrite length_app; simpl; lia). by rewrite lookup_app_r, Nat.sub_diag by lia. }
  destruct (Z.eqb_spec w 0) as [->|Hz].
  - apply IH; [done| |].
    + destruct cur as [[base len]|]; simpl in *.
      * destruct Hc as (H1 & H2 & H3). specialize (Hend _ _ eq_refl). split_and!; [lia|rewrite !length_app in *; simpl in *; lia|].
        intros j Hj. destruct (decide (j = length pre)) as [->|]; [done|]. apply H3. lia.
      * split_and!; [lia|rewrite !length_app; simpl; lia|]. intros j Hj. by replace j with (length pre) by lia.
    + intros base len. rewrite length_app. simpl. destruct cur as [[b l]|]; intros [= <- <-]; [|lia]. specialize (Hend _ _ eq_refl). lia.
  - apply IH; [by apply better_ok|done|done].
Qed.

Lemma best_run_ok ws base len : best_run ws = Some (base, len) → (2 ≤ len)%nat ∧ run_ok ws (Some (base, len)).
Proof.
  unfold best_run. pose proof (longest_run_ok [] ws None None I I ltac:(done)) as H. cbn [app length] in H.
  destruct (longest_run ws 0 None None) as [[b l]|]; [|done]. destruct (Nat.ltb_spec l 2); [done|]. by intros [= <- <-].
Qed.

(** *** Steps of the parser *)

Lemma pton6_colon_word a b rest ct t p c :
  is_byte a → is_byte b → (p ≤ 14)%nat →
  pton6_loop (COLON :: rest) ct (mkPton t p c true (word a b)) =
  pton6_loop rest rest (mkPton (list_inserts p [a; b] t) (p + 2) c false 0).
Proof.
  intros Ha Hb Hp. cbn [pton6_loop]. rewrite bool_decide_eq_true_2 by done. change (xdigit COLON <? 16) with false.
  cbv iota. cbn [p_saw negb]. unfold put_word. cbn [p_tp p_val]. replace (16 <? p + 2)%nat with false by (symmetry; apply Nat.ltb_ge; lia).
  rewrite word_high, word_low by done. done.
Qed.

Lemma pton6_colon_run rest ct t p v :
  pton6_loop (COLON :: rest) ct (mkPton t p None false v) = pton6_loop rest rest (mkPton t p (Some p) false v).
Proof. done. Qed.

(** The last word is pending when the text ends. *)
Lemma put_word_last a b t p c :
  is_byte a → is_byte b → (p ≤ 14)%nat →
  put_word (mkPton t p c true (word a b)) = Some (mkPton (list_inserts p [a; b] t) (p + 2) c false 0).
Proof.
  intros Ha Hb Hp. unfold put_word. cbn [p_tp p_val]. replace (16 <? p + 2)%nat with false by (symmetry; apply Nat.ltb_ge; lia).
  by rewrite word_high, word_low.
Qed.

Lemma hex_start v rest : 0 ≤ v < 65536 → ∃ c s, hex v ++ rest = c :: s ∧ c ≠ COLON.
Proof.
  intros Hv. destruct (hex_spec v Hv) as (Hne & _ & Hf & _). destruct (hex v) as [|c s]; [done|].
  apply Forall_cons in Hf as [Hc _]. exists c, (s ++ rest). split; [done|]. intros ->. change (xdigit COLON) with 36 in Hc. lia.
Qed.

(** The address encapsulated in the last words. *)
Lemma pton6_quad a b c d t p cp :
  is_byte a → is_byte b → is_byte c → is_byte d → (p ≤ 12)%nat →
  pton6_loop (quad_text a b c d) (quad_text a b c d) (mkPton t p cp false 0) =
  Some (mkPton (list_inserts p [a; b; c; d] t) (p + 4) cp false 0).
Proof.
  intros Ha Hb Hc Hd Hp. pose proof (pton4_quad a b c d Ha Hb Hc Hd) as Hq. revert Hq. generalize (quad_text a b c d) at 1 3.
  intros ct Hq. destruct (decimal8_spec a Ha) as (Hne & _ & Hda & _ & Hva). unfold quad_text.
  rewrite pton6_digits; [|eapply Forall_impl; [exact Hda|]; intros x Hx; cbv beta; destruct (xdigit_digit x Hx) as (-> & ? & _); lia|done|lia|done].
  cbn [pton6_loop]. change (xdigit DOT <? 16) with false. cbv iota. rewrite bool_decide_eq_false_2, bool_decide_eq_true_2 by done.
  cbn [p_tp]. replace (p + 4 <=? 16)%nat with true by (symmetry; apply Nat.leb_le; lia). cbn [andb]. rewrite Hq. done.
Qed.

Lemma hex_word_length a b : is_byte a → is_byte b → (length (hex (word a b)) ≤ 4)%nat.
Proof. intros. apply hex_spec, word_range; done. Qed.

Lemma ntop6_fits tmp src :
  (length tmp ≤ 45)%nat → inet_pton6 tmp = Some src →
  ∃ s, (if (46 <? S (length tmp))%nat then None else Some tmp) = Some s ∧ (length s ≤ 45)%nat ∧ inet_pton6 s = Some src.
Proof. intros Hl Hp. exists tmp. replace (46 <? S (length tmp))%nat with false by (symmetry; apply Nat.ltb_ge; lia). done. Qed.

Lemma ntop4_quad a b c d n :
  is_byte a → is_byte b → is_byte c → is_byte d → (16 ≤ n)%nat → inet_ntop4 [a; b; c; d] n = Some (quad_text a b c d).
Proof.
  intros Ha Hb Hc Hd Hn. unfold inet_ntop4. rewrite ntop4_text. pose proof (quad_text_length a b c d Ha Hb Hc Hd).
  by replace (n <=? length (quad_text a b c d))%nat with false by (symmetry; apply Nat.leb_gt; lia).
Qed.

(** What follows the loop of [inet_pton6]. *)
Definition pton6_end (s : pton_state) : option (list Z) :=
  s ← (if p_saw s then put_word s else Some s);
  match p_colonp s with
  | Some c => let n := (p_tp s - c)%nat in Some (shift_bytes n 1 c n (p_tmp s))
  | None => if (p_tp s =? 16)%nat then Some (p_tmp s) else None
  end.

Lemma pton6_start_hex v rest : 0 ≤ v < 65536 →
  inet_pton6 (hex v ++ rest) =
  pton6_loop (hex v ++ rest) (hex v ++ rest) (mkPton (replicate 16 0) 0 None false 0) ≫= pton6_end.
Proof. intros Hv. unfold inet_pton6. destruct (hex_start v rest Hv) as (c & s & -> & Hc). by rewrite bool_decide_eq_false_2. Qed.

Lemma pton6_start_run rest :
  inet_pton6 (COLON :: COLON :: rest) = pton6_loop rest rest (mkPton (replicate 16 0) 0 (Some 0%nat) false 0) ≫= pton6_end.
Proof. done. Qed.

Lemma pton6_end_word a b t p c :
  is_byte a → is_byte b → (p ≤ 14)%nat →
  pton6_end (mkPton t p c true (word a b)) = pton6_end (mkPton (list_inserts p [a; b] t) (p + 2) c false 0).
Proof. intros. unfold pton6_end at 1. cbn [p_saw]. by rewrite put_word_last. Qed.

Lemma pton6_hex_last v ct t p c saw :
  0 ≤ v < 65536 → pton6_loop (hex v) ct (mkPton t p c saw 0) = Some (mkPton t p c true v).
Proof. intros Hv. rewrite <- (app_nil_r (hex v)). by rewrite pton6_hex. Qed.

(** Runs the parser on a text made of words and colons. *)
Ltac pton_run :=
  repeat (rewrite <- app_assoc; cbn [app]); rewrite ?app_nil_r;
  first [rewrite pton6_start_run | rewrite pton6_start_hex by (apply word_range; done)];
  repeat first
  [ rewrite pton6_hex by (apply word_range; done)
  | rewrite pton6_hex_last by (apply word_range; done)
  | rewrite pton6_colon_word by (done || lia)
  | rewrite pton6_colon_run
  | rewrite pton6_quad by (done || lia) ];
  cbn [pton6_loop mbind option_bind];
  rewrite ?pton6_end_word by (done || lia);
  reflexivity.

Ltac text_length :=
  rewrite ?app_nil_r;
  repeat (rewrite length_app || cbn [length]);
  repeat match goal with
  | |- context [length (hex (word ?a ?b))] =>
    pose proof (hex_word_length a b ltac:(assumption) ltac:(assumption)); generalize dependent (length (hex (word a b))); intros
  | |- context [length (quad_text ?a ?b ?c ?d)] =>
    pose proof (quad_text_length a b c d ltac:(assumption) ltac:(assumption) ltac:(assumption) ltac:(assumption));
    generalize dependent (length (quad_text a b c d)); intros
  end; lia.

Ltac run_format :=
  match goal with |- context [format6 ?a ?b ?c ?d ?e] =>
    let t := eval cbn -[hex word inet_ntop4] in (format6 a b c d e) in change (format6 a b c d e) with t
  end; cbn -[hex word length Nat.ltb inet_ntop4].

Ltac show_address := apply ntop6_fits; [text_length|pton_run].

(** The bytes of a word of the run are zero. *)
Ltac zero_word Hz j :=
  try (let H := fresh in
       pose proof (Hz j ltac:(lia)) as H; cbn in H; injection H as H; apply word_zero in H as [-> ->]; [|assumption|assumption]).

Lemma inet6_roundtrip src :
  Forall is_byte src → length src = 16%nat →
  ∃ s, inet_ntop6 src 46 = Some s ∧ (length s ≤ 45)%nat ∧ inet_pton6 s = Some src.
Proof.
  intros Hb Hl. do 16 (destruct src as [|? src]; [done|]). destruct src; [|done]. clear Hl.
  repeat match goal with H : Forall _ (_ :: _) |- _ => apply Forall_cons in H as [? H] end. clear Hb.
  unfold inet_ntop6. cbn [to_words drop nth].
  pose proof (best_run_ok [word z z0; word z1 z2; word z3 z4; word z5 z6; word z7 z8; word z9 z10; word z11 z12; word z13 z14]) as Hrun.
  destruct (best_run _) as [[base len]|]; [specialize (Hrun base len eq_refl)|clear Hrun; run_format; show_address].
  destruct Hrun as (Hl & _ & Hle & Hz). cbn [length] in Hle.
  destruct base as [|[|[|[|[|[|[|base]]]]]]]; [..|lia].
  all: destruct len as [|[|[|[|[|[|[|[|[|len]]]]]]]]]; try lia.
  all: zero_word Hz 0%nat; zero_word Hz 1%nat; zero_word Hz 2%nat; zero_word Hz 3%nat; zero_word Hz 4%nat; zero_word Hz 5%nat;
    zero_word Hz 6%nat; zero_word Hz 7%nat; clear Hz.
  all: run_format.
  all: try (rewrite ntop4_quad by (done || lia); cbn -[hex word length Nat.ltb quad_text]).
  all: try (destruct (_ =? 65535); cbn -[hex word length Nat.ltb quad_text]).
  all: show_address.
Qed.

Definition INET_ADDRSTRLEN : nat := 16.
Definition INET6_ADDRSTRLEN : nat := 46.

(** C29. Every address, IPv4 or IPv6, is written within the buffer its callers
    give, and reading the text back gives the address: zero runs are abbreviated
    and encapsulated IPv4 addresses written in decimal without loss. *)
Theorem inet_roundtrip af src :
  af ≠ WZD_INET_NONE → Forall is_byte src → length src = (match af with WZD_INET6 => 16 | _ => 4 end)%nat →
  let size := match af with WZD_INET6 => INET6_ADDRSTRLEN | _ => INET_ADDRSTRLEN end in
  ∃ s, inet_ntop af src size = Some s ∧ (length s < size)%nat ∧ inet_pton af s = Some src.
Proof.
  intros Haf Hb Hl. destruct af; [done|..]; cbn [inet_ntop inet_pton]; cbv zeta iota.
  - do 4 (destruct src as [|? src]; [done|]). destruct src; [|done].
    repeat match goal with H : Forall _ (_ :: _) |- _ => apply Forall_cons in H as [? H] end.
    exists (quad_text z z0 z1 z2). rewrite ntop4_quad, pton4_quad by (done || unfold INET_ADDRSTRLEN; lia).
    pose proof (quad_text_length z z0 z1 z2). unfold INET_ADDRSTRLEN. split_and!; [done|naive_solver lia|done].
  - destruct (inet6_roundtrip src Hb Hl) as (s & Hs & Hls & Hp). exists s. unfold INET6_ADDRSTRLEN. split_and!; [done|lia|done].
Qed.

Lemma inet_roundtrip_witness :
  ∃ s, inet_ntop WZD_INET6 [32; 1; 13; 184; 0; 0; 0; 0; 0; 1; 0; 0; 0; 0; 0; 1] INET6_ADDRSTRLEN = Some s ∧
    (length s < 46)%nat ∧ inet_pton WZD_INET6 s = Some [32; 1; 13; 184; 0; 0; 0; 0; 0; 1; 0; 0; 0; 0; 0; 1].
Proof.
  apply (inet_roundtrip WZD_INET6); [done| |done]. apply (bool_decide_unpack _). by vm_compute.
Defined.

Example ntop_text : string_of_list_ascii <$> inet_ntop6 [32; 1; 13; 184; 0; 0; 0; 0; 0; 1; 0; 0; 0; 0; 0; 1] 46 = Some "2001:db8::1:0:0:1"%string.
Proof. by vm_compute. Qed.

(** A double colon in an address of eight words: the words after it are moved
    onto themselves and then cleared, where the comment of the function says that
    the double colon is ignored. *)
Example pton_full_address_cleared :
  inet_pton6 (str "1:2:3:4:5:6:7::8") = Some [0; 1; 0; 2; 0; 3; 0; 4; 0; 5; 0; 6; 0; 7; 0; 0].
Proof. by vm_compute. Qed.
