(* ===== verification/CList.v ===== *)
(** * Singly linked lists and stacks: libwzd-base/list.c, libwzd-base/stack.c

    The elements live in a heap, a finite map from addresses to [ListElmt]
    cells, so that the pointer surgery of the C code is what is modelled; the
    predicate [list_rep] relates a list descriptor and a heap to the functional
    list they represent, and every operation is shown to implement the
    corresponding operation on functional lists, leaving every cell of the
    heap outside the list alone. *)

From S2P Require Import Prelude.

Abbreviation addr := positive.

Section clist.
  (** What a non-null [void *data] points to. *)
  Context {A : Type}.

  (** A [void *data]: [None] is NULL. *)
  Abbreviation data_t := (option A).

Record ListElmt := mkElmt { e_data : data_t; e_next : option addr }.

Record List := mkList {
  l_size : Z;
  l_test : option (data_t → data_t → Z);
  l_destroy : bool;              (* list->destroy != NULL *)
  l_head : option addr;
  l_tail : option addr }.

  Abbreviation heap := (gmap addr ListElmt).

  (** Field assignments. *)
Definition with_size (l : List) n := mkList n (l_test l) (l_destroy l) (l_head l) (l_tail l).
Definition with_head (l : List) p := mkList (l_size l) (l_test l) (l_destroy l) p (l_tail l).
Definition with_tail (l : List) p := mkList (l_size l) (l_test l) (l_destroy l) (l_head l) p.
Definition with_test (l : List) t := mkList (l_size l) t (l_destroy l) (l_head l) (l_tail l).

Definition list_init (destroy : bool) : List := mkList 0 None destroy None None.

(** [memset(list,0,sizeof(List))] *)
Definition zero_list : List := mkList 0 None false None None.

  (** [new] is what [malloc] returns. The result is the return code, the
      heap and the list descriptor. *)
Definition list_ins_next (new : option addr) (h : heap) (l : List)
    (element : option addr) (data : data_t) : outcome (Z * heap * List) :=
  match new with
  | None => Val (-1, h, l)
  | Some n =>
    match element with
    | None =>
      let l1 := if l_size l =? 0 then with_tail l (Some n) else l in
      let h1 := <[n := mkElmt data (l_head l1)]> h in
      let l2 := with_head l1 (Some n) in
      Val (0, h1, with_size l2 (l_size l2 + 1))
    | Some e =>
      ee ← deref (h !! e);
      let l1 := if bool_decide (e_next ee = None) then with_tail l (Some n) else l in
      let h1 := <[n := mkElmt data (e_next ee)]> h in
      let h2 := <[e := mkElmt (e_data ee) (Some n)]> h1 in
      Val (0, h2, with_size l1 (l_size l1 + 1))
    end
  end.

  (** The third component is what [*data] is set to, when it is. *)
Definition list_rem_next (h : heap) (l : List) (element : option addr)
    : outcome (Z * heap * List * option data_t) :=
  if l_size l =? 0 then Val (-1, h, l, None) else
  match element with
  | None =>
    p ← deref (l_head l);
    old ← deref (h !! p);
    let l1 := with_head l (e_next old) in
    let l2 := if l_size l1 =? 1 then with_tail l1 None else l1 in
    Val (0, delete p h, with_size l2 (l_size l2 - 1), Some (e_data old))
  | Some e =>
    ee ← deref (h !! e);
    match e_next ee with
    | None => Val (-1, h, l, None)
    | Some p =>
      old ← deref (h !! p);
      let h1 := <[e := mkElmt (e_data ee) (e_next old)]> h in
      let l1 := if bool_decide (e_next old = None) then with_tail l (Some e) else l in
      Val (0, delete p h1, with_size l1 (l_size l1 - 1), Some (e_data old))
    end
  end.

  (** The predecessor search of [list_remove]; [fuel] bounds the number of
      cells visited. [None] in the result: the loop ran off the list. *)
Fixpoint find_pred (fuel : nat) (h : heap) (it : option addr) (element : addr)
    : outcome (option addr) :=
  match it with
  | None => Val None
  | Some i =>
    match fuel with
    | O => Crash
    | S fuel =>
      ie ← deref (h !! i);
      if bool_decide (e_next ie = Some element) then Val (Some i)
      else find_pred fuel h (e_next ie) element
    end
  end.

Definition list_remove (h : heap) (l : List) (element : option addr)
    : outcome (Z * heap * List * option data_t) :=
  if l_size l =? 0 then Val (-1, h, l, None) else
  match element with
  | None => Val (-1, h, l, None)
  | Some e =>
    if bool_decide (l_head l = Some e) then
      old ← deref (h !! e);
      let l1 := with_head l (e_next old) in
      let l2 := if l_size l1 =? 1 then with_tail l1 None else l1 in
      Val (0, delete e h, with_size l2 (l_size l2 - 1), Some (e_data old))
    else
      r ← find_pred (S (size h)) h (l_head l) e;
      match r with
      | Some it => list_rem_next h l (Some it)
      | None => (* free(NULL); list->size--; return 0; *)
        Val (0, h, with_size l (l_size l - 1), None)
      end
  end.

  (** Comparison of two [void*]: the value the pointer refers to stands for
      the pointer. *)
Definition data_eqb `{EqDecision A} (a b : data_t) : bool := bool_decide (a = b).

Fixpoint lookup_loop `{EqDecision A} (fuel : nat) (h : heap) (test : option (data_t → data_t → Z))
    (data : data_t) (it : option addr) : outcome (option addr) :=
  match it with
  | None => Val None
  | Some i =>
    match fuel with
    | O => Crash
    | S fuel =>
      ie ← deref (h !! i);
      let found := match test with
                   | Some t => t data (e_data ie) =? 0
                   | None => data_eqb data (e_data ie)
                   end in
      if found then Val (Some i) else lookup_loop fuel h test data (e_next ie)
    end
  end.

Definition list_lookup_node `{EqDecision A} (h : heap) (list : option List) (data : data_t)
    : outcome (option addr) :=
  match list with
  | None => Val None
  | Some l =>
    if l_size l =? 0 then Val None
    else lookup_loop (S (size h)) h (l_test l) data (l_head l)
  end.

  (** The [while] loop of [list_ins_sorted]: the last element after which
      [data] can be inserted. *)
Fixpoint sorted_pos (fuel : nat) (h : heap) (test : data_t → data_t → Z)
    (data : data_t) (element : addr) : outcome addr :=
  match fuel with
  | O => Crash
  | S fuel =>
    ee ← deref (h !! element);
    match e_next ee with
    | None => Val element
    | Some n =>
      ne ← deref (h !! n);
      if bool_decide (e_data ne ≠ None) && (test (e_data ne) data <? 0)
      then sorted_pos fuel h test data n
      else Val element
    end
  end.

Definition list_ins_sorted (new : option addr) (h : heap) (l : List) (data : data_t)
    : outcome (Z * heap * List) :=
  if l_size l =? 0 then list_ins_next new h l None data else
  element ← deref (l_head l);
  ee ← deref (h !! element);
  test ← deref (l_test l);
  if 0 <? test (e_data ee) data then list_ins_next new h l None data else
  pos ← sorted_pos (S (size h)) h test data element;
  list_ins_next new h l (Some pos) data.

  (** The result lists the data the destructor was called on, in order. *)
Fixpoint destroy_loop (fuel : nat) (h : heap) (l : List) (log : list data_t)
    : outcome (heap * List * list data_t) :=
  if 0 <? l_size l then
    match fuel with
    | O => Crash
    | S fuel =>
      '(ret, h1, l1, d) ← list_rem_next h l None;
      let log1 := if (ret =? 0) && l_destroy l1 then log ++ default [] ((λ x, [x]) <$> d) else log in
      destroy_loop fuel h1 l1 log1
    end
  else Val (h, l, log).

Definition list_destroy (h : heap) (l : option List) : outcome (heap * option List * list data_t) :=
  match l with
  | None => Val (h, None, [])
  | Some l =>
    '(h1, _, log) ← destroy_loop (Z.to_nat (l_size l)) h l [];
    Val (h1, Some zero_list, log)
  end.

Definition stack_push (new : option addr) (h : heap) (pile : List) (donnee : data_t) :=
  list_ins_next new h pile None donnee.

Definition stack_pop (h : heap) (pile : List) := list_rem_next h pile None.

(** ** Representation *)

(** The cells from [p] up to (excluding) [q] hold [xs], addresses and data. *)
Fixpoint lseg (h : heap) (p : option addr) (xs : list (addr * data_t)) (q : option addr) : Prop :=
  match xs with
  | [] => p = q
  | (a, d) :: xs => p = Some a ∧ ∃ nx, h !! a = Some (mkElmt d nx) ∧ lseg h nx xs q
  end.

Definition last_addr (xs : list (addr * data_t)) : option addr := fst <$> last xs.

(** The list [l] in the heap [h] is [xs]: the invariant of the structure. *)
Definition list_rep (h : heap) (l : List) (xs : list (addr * data_t)) : Prop :=
  lseg h (l_head l) xs None ∧ NoDup xs.*1 ∧
  l_size l = Z.of_nat (length xs) ∧ l_tail l = last_addr xs.

(** [h'] differs from [h] on the addresses [locs] only. *)
Definition changes_only (locs : list addr) (h h' : heap) : Prop :=
  ∀ a, a ∉ locs → h' !! a = h !! a.

Lemma lseg_app h p xs ys q :
  lseg h p (xs ++ ys) q ↔ ∃ r, lseg h p xs r ∧ lseg h r ys q.
Proof.
  revert p. induction xs as [|[a d] xs IH]; intros p; simpl.
  - naive_solver.
  - setoid_rewrite IH. naive_solver.
Qed.

Lemma lseg_ext h h' p xs q :
  (∀ a, a ∈ xs.*1 → h' !! a = h !! a) → lseg h p xs q → lseg h' p xs q.
Proof.
  revert p. induction xs as [|[a d] xs IH]; intros p Hext; simpl; [done|].
  intros [-> (nx & Ha & Hseg)]. split; [done|]. exists nx.
  rewrite Hext by (simpl; set_solver). split; [done|]. apply IH; [|done].
  intros b Hb. apply Hext. simpl. set_solver.
Qed.

Lemma lseg_in h p xs q a : lseg h p xs q → a ∈ xs.*1 → is_Some (h !! a).
Proof.
  revert p. induction xs as [|[b d] xs IH]; intros p; simpl; [set_solver|].
  intros [-> (nx & Hb & Hseg)] [->|Ha]%elem_of_cons; [eauto|]. by eapply IH.
Qed.

Lemma lseg_last h p xs a d q :
  lseg h p (xs ++ [(a, d)]) q ↔ lseg h p xs (Some a) ∧ h !! a = Some (mkElmt d q).
Proof. rewrite lseg_app. simpl. split; naive_solver. Qed.

(** A chain without repetition visits at most as many cells as the heap has. *)
Lemma lseg_length h p xs q : lseg h p xs q → NoDup xs.*1 → (length xs ≤ size h)%nat.
Proof.
  intros Hseg Hnd. rewrite <- (length_fmap fst xs), <- (size_list_to_set (C := gset addr)) by done.
  rewrite <- size_dom. apply subseteq_size. intros a Ha%elem_of_list_to_set.
  apply elem_of_dom. by eapply lseg_in.
Qed.

Lemma last_addr_snoc xs a d : last_addr (xs ++ [(a, d)]) = Some a.
Proof. unfold last_addr. by rewrite last_snoc. Qed.

Lemma last_addr_None xs : last_addr xs = None ↔ xs = [].
Proof. unfold last_addr. by rewrite fmap_None, last_None. Qed.

Lemma last_addr_app_cons xs a d ys :
  last_addr (xs ++ (a, d) :: ys) = match ys with [] => Some a | _ => last_addr ys end.
Proof.
  unfold last_addr. rewrite last_app. simpl. destruct ys; [done|].
  by destruct (last _) eqn:E; [|apply last_None in E].
Qed.

Lemma rep_size_0 h l xs : list_rep h l xs → (l_size l =? 0) = bool_decide (xs = []).
Proof.
  intros (_ & _ & -> & _). case_bool_decide as E; [by subst|].
  apply Z.eqb_neq. destruct xs; [done|]. simpl. lia.
Qed.

(** Updating the tail under a condition leaves the other fields alone. *)
Lemma if_tail_head (b : bool) l p : l_head (if b then with_tail l p else l) = l_head l.
Proof. by destruct b. Qed.
Lemma if_tail_size (b : bool) l p : l_size (if b then with_tail l p else l) = l_size l.
Proof. by destruct b. Qed.
Lemma if_tail_test (b : bool) l p : l_test (if b then with_tail l p else l) = l_test l.
Proof. by destruct b. Qed.
Lemma if_tail_destroy (b : bool) l p : l_destroy (if b then with_tail l p else l) = l_destroy l.
Proof. by destruct b. Qed.
Lemma if_tail_tail (b : bool) l p :
  l_tail (if b then with_tail l p else l) = if b then p else l_tail l.
Proof. by destruct b. Qed.
Create Rewrite HintDb clist.
#[local] Hint Rewrite if_tail_head if_tail_size if_tail_test if_tail_destroy if_tail_tail : clist.

Lemma NoDup_mid (xs ys : list (addr * data_t)) n d :
  n ∉ (xs ++ ys).*1 → NoDup (xs ++ ys).*1 → NoDup (xs ++ (n, d) :: ys).*1.
Proof.
  rewrite !fmap_app. simpl. rewrite <- Permutation_middle. intros. by apply NoDup_cons.
Qed.

(** Insertion after the last cell of [xs] (at the head when [xs] is empty). *)
Lemma list_ins_next_rep n h l xs ys d :
  list_rep h l (xs ++ ys) → h !! n = None →
  ∃ h' l', list_ins_next (Some n) h l (last_addr xs) d = Val (0, h', l') ∧
    list_rep h' l' (xs ++ (n, d) :: ys) ∧ changes_only (n :: xs.*1) h h' ∧
    l_test l' = l_test l ∧ l_destroy l' = l_destroy l.
Proof.
  intros Hrep Hn. pose proof (rep_size_0 _ _ _ Hrep) as Hsz.
  destruct Hrep as (Hseg & Hnd & Hlen & Htl).
  assert (Hfresh : n ∉ (xs ++ ys).*1).
  { intros Hin. eapply lseg_in in Hin as [? ?]; [|done]. congruence. }
  pose proof Hnd as Hnd'. rewrite fmap_app in Hnd. pose proof Hfresh as Hfresh'. rewrite fmap_app in Hfresh.
  destruct xs as [|[e de] xs' _] using rev_ind; simpl.
  - simpl in *. eexists _, _. split; [done|]. rewrite Hsz. autorewrite with clist.
    repeat split; simpl; autorewrite with clist; try done.
    + eexists. split; [by rewrite lookup_insert_eq|]. autorewrite with clist.
      eapply lseg_ext; [|done]. intros a Ha. rewrite lookup_insert_ne; set_solver.
    + by apply (NoDup_mid [] ys n d).
    + rewrite Hlen. simpl. lia.
    + change ((n, d) :: ys) with ([] ++ (n, d) :: ys). rewrite last_addr_app_cons, Htl.
      case_bool_decide; [by subst|by destruct ys].
    + intros a Ha. rewrite lookup_insert_ne; set_solver.
  - rewrite last_addr_snoc. rewrite lseg_app in Hseg. setoid_rewrite lseg_last in Hseg.
    destruct Hseg as (r & [Hseg He] & Hys).
    rewrite !fmap_app in Hnd, Hfresh. simpl in Hnd, Hfresh.
    simpl. rewrite He. simpl. eexists _, _. split; [done|].
    assert (e ≠ n) by set_solver. apply NoDup_app in Hnd as (Hnd1 & Hdis & Hnd2).
    apply NoDup_app in Hnd1 as (Hnd1 & Hdis1 & _).
    repeat split; simpl; autorewrite with clist; try done.
    + rewrite lseg_app. setoid_rewrite lseg_last. exists (Some n). repeat split.
      * eapply lseg_ext; [|done]. intros a Ha. rewrite !lookup_insert_ne; set_solver.
      * by rewrite lookup_insert_eq.
      * exists r. rewrite lookup_insert_ne, lookup_insert_eq by done. split; [done|].
        eapply lseg_ext; [|done]. intros a Ha. rewrite !lookup_insert_ne; set_solver.
    + by apply NoDup_mid.
    + rewrite Hlen, !length_app. simpl. lia.
    + rewrite last_addr_app_cons, Htl, <- (app_assoc xs'). simpl. rewrite last_addr_app_cons.
      destruct ys as [|[b db] ys]; simpl in Hys; case_bool_decide; naive_solver.
    + intros a Ha. rewrite fmap_app in Ha. simpl in Ha. rewrite !lookup_insert_ne; set_solver.
Qed.

Lemma NoDup_mid_inv (xs ys : list (addr * data_t)) n d :
  NoDup (xs ++ (n, d) :: ys).*1 → (n ∉ (xs ++ ys).*1) ∧ NoDup (xs ++ ys).*1.
Proof.
  rewrite !fmap_app. simpl. rewrite <- Permutation_middle. by rewrite NoDup_cons.
Qed.

(** Removal of the cell that follows the last cell of [xs]. *)
Lemma list_rem_next_rep h l xs a d ys :
  list_rep h l (xs ++ (a, d) :: ys) →
  ∃ h' l', list_rem_next h l (last_addr xs) = Val (0, h', l', Some d) ∧
    list_rep h' l' (xs ++ ys) ∧ h' !! a = None ∧ changes_only (a :: xs.*1) h h' ∧
    l_test l' = l_test l ∧ l_destroy l' = l_destroy l.
Proof.
  intros Hrep. pose proof (rep_size_0 _ _ _ Hrep) as Hsz.
  destruct Hrep as (Hseg & Hnd & Hlen & Htl).
  rewrite bool_decide_eq_false_2 in Hsz by (by destruct xs).
  apply NoDup_mid_inv in Hnd as [Ha Hnd]. unfold list_rem_next. rewrite Hsz.
  destruct xs as [|[e de] xs' _] using rev_ind; simpl.
  - destruct Hseg as [Hh (nx & Hnx & Hseg)]. rewrite Hh. simpl. rewrite Hnx. simpl.
    eexists _, _. split; [done|]. autorewrite with clist. simpl in *.
    repeat split; simpl; autorewrite with clist; try done.
    + eapply lseg_ext; [|done]. intros b Hb. rewrite lookup_delete_ne; set_solver.
    + rewrite Hlen. lia.
    + change ((a, d) :: ys) with ([] ++ (a, d) :: ys) in Htl. rewrite last_addr_app_cons in Htl.
      simpl. destruct ys as [|y ys]; simpl in *.
      * by rewrite Hlen.
      * rewrite Hlen. replace (_ =? 1) with false by (symmetry; apply Z.eqb_neq; lia). done.
    + by rewrite lookup_delete_eq.
    + intros b Hb. rewrite lookup_delete_ne; set_solver.
  - rewrite last_addr_snoc. rewrite lseg_app in Hseg. setoid_rewrite lseg_last in Hseg.
    destruct Hseg as (r & [Hseg He] & -> & nx & Hnx & Hys). simpl.
    rewrite He. simpl. rewrite Hnx. simpl. eexists _, _. split; [done|].
    rewrite !fmap_app in Ha. simpl in Ha. assert (e ≠ a) by set_solver.
    pose proof Hnd as Hnd'. rewrite <- app_assoc in Hnd'. simpl in Hnd'.
    apply NoDup_mid_inv in Hnd' as [He' _]. rewrite fmap_app in He'.
    repeat split; simpl; autorewrite with clist; try done.
    + rewrite lseg_app. setoid_rewrite lseg_last. exists nx. repeat split.
      * eapply lseg_ext; [|done]. intros b Hb.
        rewrite lookup_delete_ne, lookup_insert_ne; set_solver.
      * by rewrite lookup_delete_ne, lookup_insert_eq by done.
      * eapply lseg_ext; [|done]. intros b Hb.
        rewrite lookup_delete_ne, lookup_insert_ne; set_solver.
    + rewrite Hlen, !length_app. simpl. lia.
    + rewrite Htl, <- !app_assoc. simpl. rewrite !last_addr_app_cons.
      destruct ys as [|[b db] ys]; simpl in Hys; case_bool_decide; naive_solver.
    + by rewrite lookup_delete_eq.
    + intros b Hb. rewrite fmap_app in Hb. simpl in Hb.
      rewrite lookup_delete_ne, lookup_insert_ne; set_solver.
Qed.

(** Nothing follows the last cell: the error return changes nothing. *)
Lemma list_rem_next_last h l xs :
  list_rep h l xs → xs ≠ [] →
  list_rem_next h l (last_addr xs) = Val (-1, h, l, None).
Proof.
  intros Hrep Hne. pose proof (rep_size_0 _ _ _ Hrep) as Hsz.
  rewrite bool_decide_eq_false_2 in Hsz by done.
  destruct xs as [|[e de] xs' _] using rev_ind; [done|]. destruct Hrep as (Hseg & _).
  apply lseg_last in Hseg as [_ He]. unfold list_rem_next.
  by rewrite Hsz, last_addr_snoc, He.
Qed.

Lemma list_rem_next_empty h l p : list_rep h l [] → list_rem_next h l p = Val (-1, h, l, None).
Proof. intros (_ & _ & Hlen & _). unfold list_rem_next. by rewrite Hlen. Qed.

(** The search for the predecessor of [e]. *)
Lemma find_pred_found fuel h p xs b db e d ys :
  lseg h p (xs ++ (b, db) :: (e, d) :: ys) None → NoDup (xs ++ (b, db) :: (e, d) :: ys).*1 →
  (length xs < fuel)%nat → find_pred fuel h p e = Val (Some b).
Proof.
  revert fuel p. induction xs as [|[c dc] xs IH]; intros [|fuel] p; simpl; try lia.
  - intros [-> (nx & Hb & -> & _)] _ _. rewrite Hb. simpl. by rewrite bool_decide_eq_true_2.
  - intros [-> (nx & Hc & Hseg)] [Hni Hnd]%NoDup_cons Hf. rewrite Hc. simpl.
    rewrite bool_decide_eq_false_2; [apply IH; [done..|lia]|]. intros ->.
    destruct xs as [|[c' dc'] xs]; simpl in *; destruct Hseg as [[=] _]; subst; clear Hc.
    + apply NoDup_cons in Hnd as [Hnd _]. set_solver.
    + apply NoDup_cons in Hnd as [Hnd _]. rewrite fmap_app in Hnd. simpl in Hnd. set_solver.
Qed.

Lemma find_pred_absent fuel h p xs e :
  lseg h p xs None → e ∉ xs.*1 → (length xs < fuel)%nat → find_pred fuel h p e = Val None.
Proof.
  revert fuel p. induction xs as [|[c dc] xs IH]; intros [|fuel] p; simpl; try lia.
  - by intros ->.
  - intros [-> (nx & Hc & Hseg)] Hni Hf. rewrite Hc. simpl.
    rewrite bool_decide_eq_false_2; [apply IH; [done|set_solver|lia]|]. intros ->.
    destruct xs as [|[c' dc'] xs]; simpl in *; [done|]. destruct Hseg as [[=] _]. set_solver.
Qed.

Lemma list_remove_rep h l xs a d ys :
  list_rep h l (xs ++ (a, d) :: ys) →
  ∃ h' l', list_remove h l (Some a) = Val (0, h', l', Some d) ∧
    list_rep h' l' (xs ++ ys) ∧ h' !! a = None ∧ changes_only (a :: xs.*1) h h'.
Proof.
  intros Hrep. destruct (list_rem_next_rep _ _ _ _ _ _ Hrep) as (h' & l' & Hrem & Hrep' & Hd & Hc & _).
  exists h', l'. split; [|done]. pose proof (rep_size_0 _ _ _ Hrep) as Hsz.
  rewrite bool_decide_eq_false_2 in Hsz by (by destruct xs).
  unfold list_remove. unfold list_rem_next in Hrem. rewrite Hsz in *.
  destruct Hrep as (Hseg & Hnd & Hlen & _).
  destruct xs as [|[b db] xs' _] using rev_ind.
  - simpl in Hseg, Hrem. destruct Hseg as [Hh _]. rewrite Hh in Hrem |- *.
    by rewrite bool_decide_eq_true_2.
  - assert (Hf : find_pred (S (size h)) h (l_head l) a = Val (Some b)).
    { rewrite <- app_assoc in Hseg, Hnd. simpl in Hseg, Hnd.
      eapply find_pred_found; [done..|].
      eapply lseg_length in Hnd; [|done]. rewrite length_app in Hnd. simpl in Hnd. lia. }
    rewrite bool_decide_eq_false_2.
    + rewrite Hf. simpl. unfold list_rem_next. rewrite Hsz.
      by rewrite last_addr_snoc in Hrem.
    + intros Hh. rewrite Hh, <- app_assoc in Hseg. rewrite <- app_assoc in Hnd.
      destruct xs' as [|[c dc] xs']; simpl in Hseg, Hnd; destruct Hseg as [[=] _]; subst;
        apply NoDup_cons in Hnd as [Hnd _]; [set_solver|].
      rewrite fmap_app in Hnd. simpl in Hnd. set_solver.
Qed.

(** An element that is not in the list: nothing is unlinked, yet the size is
    decremented and success is returned. *)
Lemma list_remove_foreign h l xs a :
  list_rep h l xs → xs ≠ [] → a ∉ xs.*1 →
  list_remove h l (Some a) = Val (0, h, with_size l (l_size l - 1), None).
Proof.
  intros Hrep Hne Ha. pose proof (rep_size_0 _ _ _ Hrep) as Hsz.
  rewrite bool_decide_eq_false_2 in Hsz by done.
  unfold list_remove. rewrite Hsz. destruct Hrep as (Hseg & Hnd & _).
  rewrite bool_decide_eq_false_2.
  - erewrite find_pred_absent; [done..|]. pose proof (lseg_length _ _ _ _ Hseg Hnd). lia.
  - intros Hh. rewrite Hh in Hseg. destruct xs as [|[c dc] xs]; [done|].
    destruct Hseg as [[=] _]. set_solver.
Qed.

Lemma lseg_det h p xs ys : lseg h p xs None → lseg h p ys None → xs = ys.
Proof.
  revert p ys. induction xs as [|[a d] xs IH]; intros p [|[b e] ys]; simpl; naive_solver.
Qed.

Lemma list_rep_det h l xs ys : list_rep h l xs → list_rep h l ys → xs = ys.
Proof. intros [Hx _] [Hy _]. by eapply lseg_det. Qed.

(** *** Destruction *)

Lemma destroy_loop_rep h l xs log :
  list_rep h l xs →
  ∃ h' l', destroy_loop (length xs) h l log =
      Val (h', l', log ++ if l_destroy l then xs.*2 else []) ∧
    ∀ a, h' !! a = if bool_decide (a ∈ xs.*1) then None else h !! a.
Proof.
  revert h l log. induction xs as [|[a d] xs IH]; intros h l log Hrep.
  - destruct Hrep as (_ & _ & Hlen & _). simpl. rewrite Hlen. simpl.
    exists h, l. split; [by destruct (l_destroy l); rewrite app_nil_r|done].
  - assert (Hpos : (0 <? l_size l) = true).
    { destruct Hrep as (_ & _ & -> & _). apply Z.ltb_lt. simpl. lia. }
    destruct (list_rem_next_rep h l [] a d xs Hrep) as (h1 & l1 & Hrem & Hrep1 & Ha & Hch & _ & Hde).
    destruct (IH h1 l1 (if l_destroy l1 then log ++ [d] else log) Hrep1) as (h' & l' & Hloop & Hh').
    exists h', l'. cbn [length destroy_loop]. rewrite Hpos. change (last_addr []) with (@None addr) in Hrem.
    rewrite Hrem. simpl. split.
    + rewrite Hde in *. destruct (l_destroy l); simpl in *; rewrite Hloop; f_equal; f_equal.
      by rewrite <- app_assoc.
    + intros b. rewrite Hh'. destruct (decide (b = a)) as [->|Hne].
      * rewrite Ha. rewrite (bool_decide_eq_true_2 (a ∈ _ :: _)) by set_solver. by destruct (bool_decide _).
      * rewrite Hch by set_solver. simpl. repeat case_bool_decide; set_solver.
Qed.

(** *** Lookup *)

(** The functional reading of the test used by [list_lookup_node]. *)
Definition node_matches `{EqDecision A} (test : option (data_t → data_t → Z)) (data d : data_t) : bool :=
  match test with Some t => t data d =? 0 | None => data_eqb data d end.

Lemma lookup_loop_spec `{EqDecision A} fuel h p xs test data :
  lseg h p xs None → (length xs < fuel)%nat →
  lookup_loop fuel h test data p =
    Val (fst <$> List.find (λ x, node_matches test data x.2) xs).
Proof.
  revert fuel p. induction xs as [|[a d] xs IH]; intros [|fuel] p; simpl; try lia.
  - by intros ->.
  - intros [-> (nx & Ha & Hseg)] Hf. rewrite Ha. simpl.
    fold (node_matches test data d). destruct (node_matches test data d); [done|]. apply IH; [done|lia].
Qed.

(** *** Sorted insertion *)

(** The two tests of [list_ins_sorted]. *)
Definition test_above (t : data_t → data_t → Z) (y x : addr * data_t) : bool := 0 <? t y.2 x.2.
Definition test_below (t : data_t → data_t → Z) (y x : addr * data_t) : bool :=
  bool_decide (y.2 ≠ None) && (t y.2 x.2 <? 0).

Lemma sorted_pos_spec fuel h t e de n d xs :
  lseg h (Some e) ((e, de) :: xs) None → (length xs < fuel)%nat →
  ∃ ys zs, sorted_pos fuel h t d e = deref (last_addr ((e, de) :: ys)) ∧ xs = ys ++ zs ∧
    ins_after (test_below t) (n, d) xs = ys ++ (n, d) :: zs.
Proof.
  revert fuel e de. induction xs as [|[a da] xs IH]; intros [|fuel] e de; simpl; try lia.
  - intros [_ (nx & He & ->)] _. rewrite He. exists [], []. done.
  - intros [_ (nx & He & -> & nx' & Ha & Hseg)] Hf. rewrite He. simpl. rewrite Ha. simpl.
    unfold test_below at 1. simpl. destruct (bool_decide _ && _) eqn:E.
    + destruct (IH fuel a da) as (ys & zs & Hpos & -> & Hins).
      { simpl. eauto. } { lia. }
      exists ((a, da) :: ys), zs. rewrite Hpos, Hins. done.
    + exists [], ((a, da) :: xs). done.
Qed.

Lemma list_ins_sorted_rep n h l xs d t :
  list_rep h l xs → h !! n = None → l_test l = Some t →
  ∃ h' l', list_ins_sorted (Some n) h l d = Val (0, h', l') ∧
    list_rep h' l' (ins_sorted (test_above t) (test_below t) (n, d) xs) ∧ changes_only (n :: xs.*1) h h' ∧
    l_test l' = Some t.
Proof.
  intros Hrep Hn Ht. unfold list_ins_sorted. rewrite (rep_size_0 _ _ _ Hrep).
  assert (Hhead : ∃ h' l', list_ins_next (Some n) h l None d = Val (0, h', l') ∧
    list_rep h' l' ((n, d) :: xs) ∧ changes_only (n :: xs.*1) h h' ∧ l_test l' = Some t).
  { destruct (list_ins_next_rep n h l [] xs d Hrep Hn) as (h' & l' & ? & ? & Hc & Ht' & _).
    exists h', l'. rewrite Ht'. split_and!; try done. intros a Ha. apply Hc. set_solver. }
  case_bool_decide as E; [by subst|]. destruct xs as [|[a da] xs]; [done|].
  pose proof Hrep as (Hseg & Hnd & _). pose proof (lseg_length _ _ _ _ Hseg Hnd) as Hlen.
  pose proof Hseg as [Hh (nx & Ha & _)]. rewrite Hh. run. rewrite Ha, Ht.
  cbn [deref mbind outcome_mbind e_data ins_sorted]. unfold test_above. cbn [snd].
  destruct (0 <? t da d); [done|].
  rewrite Hh in Hseg. destruct (sorted_pos_spec (S (size h)) h t a da n d xs Hseg) as (ys & zs & Hpos & -> & Hins).
  { simpl in Hlen. lia. }
  rewrite Hpos, Hins.
  destruct (list_ins_next_rep n h l ((a, da) :: ys) zs d Hrep Hn) as (h' & l' & Hi & ? & Hc & Ht' & _).
  destruct (last_addr _) as [e|] eqn:Hl; [|by apply last_addr_None in Hl].
  exists h', l'. simpl. rewrite Ht'. split_and!; try done.
  intros b Hb. apply Hc. simpl in *. rewrite fmap_app in Hb. set_solver.
Qed.

End clist.

#[global] Arguments List _ : clear implicits.
#[global] Arguments ListElmt _ : clear implicits.

(** *** Sorted insertion keeps the order *)

Section sorted.
  Context {A : Type} (t : option A → option A → Z).
  (** [test] is a comparison function: its sign is antisymmetric and being
      not above is transitive. *)
Definition comparison : Prop :=
  (∀ x y, t x y < 0 ↔ 0 < t y x) ∧ (∀ x y z, t x y ≤ 0 → t y z ≤ 0 → t x z ≤ 0).

Definition sorted_by (xs : list (addr * option A)) : Prop :=
  StronglySorted (λ x y, t x.2 y.2 ≤ 0) xs.

Definition all_data (xs : list (addr * option A)) : Prop := Forall (λ x, x.2 ≠ None) xs.

Lemma comparison_insertion_order :
  comparison → insertion_order (test_above t) (test_below t) (λ x y, t x.2 y.2 ≤ 0) (λ x, x.2 ≠ None).
Proof.
  intros [Hsym Htr]. split_and!.
  - intros x y z. apply Htr.
  - intros x y _ _. unfold test_above. pose proof (Hsym x.2 y.2). destruct (Z.ltb_spec 0 (t y.2 x.2)); lia.
  - intros x y _ Hy. unfold test_below. rewrite bool_decide_eq_true_2 by done. simpl.
    pose proof (Hsym x.2 y.2). pose proof (Hsym y.2 x.2). destruct (Z.ltb_spec (t y.2 x.2) 0); lia.
Qed.
End sorted.

(** ** Correctness of list.c *)

(** [list_ins_next] implements insertion on functional lists: called with
    the address of an element of the list (NULL for the head), it returns 0,
    the list holds the new cell right after that element, size and tail are
    kept right, and no other cell of the heap is touched. *)
Theorem list_ins_next_refines {A} (n : addr) h (l : List A) xs ys d :
  list_rep h l (xs ++ ys) → h !! n = None →
  ∃ h' l', list_ins_next (Some n) h l (last_addr xs) d = Val (0, h', l') ∧
    list_rep h' l' (xs ++ (n, d) :: ys) ∧ changes_only (n :: xs.*1) h h'.
Proof.
  intros Hrep Hn. destruct (list_ins_next_rep n h l xs ys d Hrep Hn) as (h' & l' & ?).
  exists h', l'. naive_solver.
Qed.

(** [list_remove] of an element of the list unlinks exactly that element,
    hands out its data, frees its cell and leaves the rest of the list and of
    the heap as it was. *)
Theorem list_remove_refines {A} h (l : List A) xs a d ys :
  list_rep h l (xs ++ (a, d) :: ys) →
  ∃ h' l', list_remove h l (Some a) = Val (0, h', l', Some d) ∧
    list_rep h' l' (xs ++ ys) ∧ h' !! a = None ∧ changes_only (a :: xs.*1) h h'.
Proof. apply list_remove_rep. Qed.

(** [list_remove] of an element that is not in a non-empty list reports
    success, leaves every cell linked and yet decrements the size: the
    resulting descriptor represents no list at all. *)
Theorem list_remove_foreign_breaks_invariant {A} h (l : List A) xs a :
  list_rep h l xs → xs ≠ [] → a ∉ xs.*1 →
  ∃ l', list_remove h l (Some a) = Val (0, h, l', None) ∧ ¬ ∃ ys, list_rep h l' ys.
Proof.
  intros Hrep Hne Ha. exists (with_size l (l_size l - 1)).
  split; [by apply (list_remove_foreign h l xs)|]. intros [ys Hrep'].
  assert (xs = ys) as <-.
  { destruct Hrep as [Hx _], Hrep' as [Hy _]. by eapply lseg_det. }
  destruct Hrep as (_ & _ & Hl & _), Hrep' as (_ & _ & Hl' & _). simpl in Hl'. lia.
Qed.

(** [list_ins_sorted] with a comparison function keeps a sorted list
    sorted and adds exactly the new element. *)
Theorem list_ins_sorted_correct {A} (n : addr) h (l : List A) xs d t :
  list_rep h l xs → h !! n = None → l_test l = Some t → comparison t →
  d ≠ None → all_data xs → sorted_by t xs →
  ∃ h' l' zs, list_ins_sorted (Some n) h l d = Val (0, h', l') ∧
    list_rep h' l' zs ∧ zs ≡ₚ (n, d) :: xs ∧ sorted_by t zs.
Proof.
  intros Hrep Hn Ht Hc Hd Hall Hs.
  destruct (list_ins_sorted_rep n h l xs d t Hrep Hn Ht) as (h' & l' & ? & ? & _).
  exists h', l', (ins_sorted (test_above t) (test_below t) (n, d) xs). split_and!; [done..| |].
  - apply ins_sorted_perm.
  - by apply (ins_sorted_sorted _ _ _ (λ x, x.2 ≠ None)); [apply comparison_insertion_order|..].
Qed.

(** [list_destroy] empties the list: the destructor, when there is one,
    is called once on every element's data in list order, every cell of the
    list is freed and no other; the descriptor is zeroed. *)
Theorem list_destroy_frees_all {A} h (l : List A) xs :
  list_rep h l xs →
  ∃ h', list_destroy h (Some l) = Val (h', Some zero_list, if l_destroy l then xs.*2 else []) ∧
    ∀ a, h' !! a = if bool_decide (a ∈ xs.*1) then None else h !! a.
Proof.
  intros Hrep. destruct (destroy_loop_rep h l xs [] Hrep) as (h' & l' & Hloop & Hh').
  exists h'. split; [|done]. unfold list_destroy. destruct Hrep as (_ & _ & Hl & _).
  rewrite Hl, Nat2Z.id, Hloop. done.
Qed.

(** [stack_pop] undoes [stack_push]: it gives back the datum pushed, and
    the heap and the stack are those before the push. *)
Theorem stack_pop_push {A} (n : addr) h (l : List A) xs d :
  list_rep h l xs → h !! n = None →
  ∃ h' l', stack_push (Some n) h l d = Val (0, h', l') ∧
    stack_pop h' l' = Val (0, h, l, Some d).
Proof.
  intros Hrep Hn. pose proof (rep_size_0 _ _ _ Hrep) as Hsz.
  unfold stack_push, stack_pop, list_rem_next. simpl. rewrite Hsz.
  eexists _, _. split; [done|]. destruct Hrep as (_ & _ & Hl & Htl). destruct l as [sz te de hd tl].
  simpl in *. subst sz tl. rewrite !if_tail_size. simpl.
  replace (_ =? 0) with false by (symmetry; apply Z.eqb_neq; lia).
  rewrite lookup_insert_eq. simpl. rewrite delete_insert_id by done. rewrite if_tail_head. simpl.
  f_equal. f_equal. f_equal. unfold with_size, with_head, with_tail. simpl.
  case_bool_decide as E; subst; simpl; [done|].
  replace (_ =? 1) with false.
  - simpl. f_equal. lia.
  - symmetry. apply Z.eqb_neq. destruct xs; [done|]. simpl. lia.
Qed.

(** ** Witnesses: a list of two elements *)

Definition ex_cmp (a b : option nat) : Z := Z.of_nat (default 0%nat a) - Z.of_nat (default 0%nat b).
Definition ex_cells : list (addr * option nat) := [(1%positive, Some 10%nat); (2%positive, Some 20%nat)].
Definition ex_heap : gmap addr (ListElmt nat) :=
  <[1%positive := mkElmt (Some 10%nat) (Some 2%positive)]>
    (<[2%positive := mkElmt (Some 20%nat) None]> ∅).
Definition ex_list : List nat := mkList 2 (Some ex_cmp) true (Some 1%positive) (Some 2%positive).

Lemma ex_rep : list_rep ex_heap ex_list ex_cells.
Proof.
  split_and!; simpl; [|by apply (bool_decide_unpack _); vm_compute|done|done].
  split; [done|]. eexists. split; [done|]. split; [done|]. eexists. done.
Qed.

Lemma list_ins_next_refines_witness :
  ∃ h' l', list_ins_next (Some 3%positive) ex_heap ex_list (Some 1%positive) (Some 15%nat) = Val (0, h', l') ∧
    list_rep h' l' [(1%positive, Some 10%nat); (3%positive, Some 15%nat); (2%positive, Some 20%nat)] ∧
    changes_only [3%positive; 1%positive] ex_heap h'.
Proof.
  apply (list_ins_next_refines 3%positive ex_heap ex_list [(1%positive, Some 10%nat)] [(2%positive, Some 20%nat)]).
  - apply ex_rep.
  - reflexivity.
Defined.

Lemma list_remove_refines_witness :
  ∃ h' l', list_remove ex_heap ex_list (Some 2%positive) = Val (0, h', l', Some (Some 20%nat)) ∧
    list_rep h' l' [(1%positive, Some 10%nat)] ∧ h' !! 2%positive = None ∧
    changes_only [2%positive; 1%positive] ex_heap h'.
Proof.
  apply (list_remove_refines ex_heap ex_list [(1%positive, Some 10%nat)] 2%positive (Some 20%nat) []).
  apply ex_rep.
Defined.

Lemma list_remove_foreign_breaks_invariant_witness :
  ∃ l', list_remove ex_heap ex_list (Some 7%positive) = Val (0, ex_heap, l', None) ∧
    ¬ ∃ ys, list_rep ex_heap l' ys.
Proof.
  apply (list_remove_foreign_breaks_invariant ex_heap ex_list ex_cells 7%positive).
  - apply ex_rep.
  - discriminate.
  - apply (bool_decide_unpack _). vm_compute. exact I.
Defined.

Lemma list_ins_sorted_correct_witness :
  ∃ h' l' zs, list_ins_sorted (Some 3%positive) ex_heap ex_list (Some 15%nat) = Val (0, h', l') ∧
    list_rep h' l' zs ∧ zs ≡ₚ (3%positive, Some 15%nat) :: ex_cells ∧ sorted_by ex_cmp zs.
Proof.
  apply (list_ins_sorted_correct 3%positive ex_heap ex_list ex_cells (Some 15%nat) ex_cmp).
  - apply ex_rep.
  - reflexivity.
  - reflexivity.
  - split; unfold ex_cmp; intros; lia.
  - discriminate.
  - repeat constructor; discriminate.
  - repeat constructor; simpl; unfold ex_cmp; simpl; lia.
Defined.

Lemma list_destroy_frees_all_witness :
  ∃ h', list_destroy ex_heap (Some ex_list) = Val (h', Some zero_list, [Some 10%nat; Some 20%nat]) ∧
    ∀ a, h' !! a = if bool_decide (a ∈ [1%positive; 2%positive]) then None else ex_heap !! a.
Proof. apply (list_destroy_frees_all ex_heap ex_list ex_cells). apply ex_rep. Defined.

Lemma stack_pop_push_witness :
  ∃ h' l', stack_push (Some 3%positive) ex_heap ex_list (Some 5%nat) = Val (0, h', l') ∧
    stack_pop h' l' = Val (0, ex_heap, ex_list, Some (Some 5%nat)).
Proof.
  apply (stack_pop_push 3%positive ex_heap ex_list ex_cells).
  - apply ex_rep.
  - reflexivity.
Defined.
