(* ===== verification/DList.v ===== *)
(** * Doubly linked lists: libwzd-base/dlist.c

    As in [CList], the cells live in a heap and [dlist_rep] relates a descriptor
    and a heap to the functional list they represent. *)

From S2P Require Import Prelude CList.

Section dlist.
  Context {A : Type}.
  Abbreviation data_t := (option A).

Record DListElmt := mkDElmt { d_data : data_t; d_prev : option addr; d_next : option addr }.

Record DList := mkDList {
  dl_size : Z;
  dl_test : option (data_t → data_t → Z);
  dl_destroy : bool;
  dl_head : option addr;
  dl_tail : option addr }.

  Abbreviation heap := (gmap addr DListElmt).

Definition dlist_init (destroy : bool) : DList := mkDList 0 None destroy None None.

(** [e->next = p], [e->prev = p] *)
Definition set_next (h : heap) (e : addr) (p : option addr) : outcome heap :=
  c ← deref (h !! e); Val (<[e := mkDElmt (d_data c) (d_prev c) p]> h).
Definition set_prev (h : heap) (e : addr) (p : option addr) : outcome heap :=
  c ← deref (h !! e); Val (<[e := mkDElmt (d_data c) p (d_next c)]> h).

Definition with_ends (l : DList) (n : Z) (hd tl : option addr) : DList := mkDList n (dl_test l) (dl_destroy l) hd tl.

(** [new] is what [malloc] returns. *)
Definition dlist_ins_next (new : option addr) (h : heap) (l : DList) (element : option addr) (data : data_t)
    : outcome (Z * heap * DList) :=
  match element, new with
  | None, _ => if negb (dl_size l =? 0) then Val (-1, h, l) else
    match new with
    | None => Val (-1, h, l)
    | Some n => Val (0, <[n := mkDElmt data None None]> h, with_ends l (dl_size l + 1) (Some n) (Some n))
    end
  | Some _, None => Val (-1, h, l)
  | Some e, Some n =>
    if dl_size l =? 0 then Val (0, <[n := mkDElmt data None None]> h, with_ends l (dl_size l + 1) (Some n) (Some n)) else
    c ← deref (h !! e);
    let h := <[n := mkDElmt data (Some e) (d_next c)]> h in
    '(h, tl) ← (match d_next c with
                | None => Val (h, Some n)
                | Some x => h ← set_prev h x (Some n); Val (h, dl_tail l)
                end);
    h ← set_next h e (Some n);
    Val (0, h, with_ends l (dl_size l + 1) (dl_head l) tl)
  end.

Definition dlist_ins_prev (new : option addr) (h : heap) (l : DList) (element : option addr) (data : data_t)
    : outcome (Z * heap * DList) :=
  match element, new with
  | None, _ => if negb (dl_size l =? 0) then Val (-1, h, l) else
    match new with
    | None => Val (-1, h, l)
    | Some n => Val (0, <[n := mkDElmt data None None]> h, with_ends l (dl_size l + 1) (Some n) (Some n))
    end
  | Some _, None => Val (-1, h, l)
  | Some e, Some n =>
    if dl_size l =? 0 then Val (0, <[n := mkDElmt data None None]> h, with_ends l (dl_size l + 1) (Some n) (Some n)) else
    c ← deref (h !! e);
    let h := <[n := mkDElmt data (d_prev c) (Some e)]> h in
    '(h, hd) ← (match d_prev c with
                | None => Val (h, Some n)
                | Some x => h ← set_next h x (Some n); Val (h, dl_head l)
                end);
    h ← set_prev h e (Some n);
    Val (0, h, with_ends l (dl_size l + 1) hd (dl_tail l))
  end.

(** The last component is what [*data] is set to, when it is. *)
Definition dlist_remove (h : heap) (l : DList) (element : option addr) : outcome (Z * heap * DList * option data_t) :=
  match element with
  | None => Val (-1, h, l, None)
  | Some e =>
    if dl_size l =? 0 then Val (-1, h, l, None) else
    c ← deref (h !! e);
    '(h, hd, tl) ← (
      if bool_decide (dl_head l = Some e) then
        match d_next c with
        | None => Val (h, None, None)
        | Some x => h ← set_prev h x None; Val (h, Some x, dl_tail l)
        end
      else
        p ← deref (d_prev c);
        h ← set_next h p (d_next c);
        match d_next c with
        | None => Val (h, dl_head l, Some p)
        | Some x => h ← set_prev h x (Some p); Val (h, dl_head l, dl_tail l)
        end);
    Val (0, delete e h, with_ends l (dl_size l - 1) hd tl, Some (d_data c))
  end.

Fixpoint dlookup_loop (fuel : nat) (h : heap) (test : data_t → data_t → Z) (data : data_t) (it : option addr)
    : outcome (option addr) :=
  match it with
  | None => Val None
  | Some i =>
    match fuel with
    | O => Crash
    | S fuel =>
      c ← deref (h !! i);
      if test data (d_data c) =? 0 then Val (Some i) else dlookup_loop fuel h test data (d_next c)
    end
  end.

Definition dlist_lookup_node (h : heap) (list : option DList) (data : data_t) : outcome (option addr) :=
  match list with
  | None => Val None
  | Some l =>
    if dl_size l =? 0 then Val None else
    match dl_test l with
    | None => Val None
    | Some test => dlookup_loop (S (size h)) h test data (dl_head l)
    end
  end.

(** The result lists the data the destructor was called on, in order. *)
Fixpoint ddestroy_loop (fuel : nat) (h : heap) (l : DList) (log : list data_t) : outcome (heap * list data_t) :=
  if 0 <? dl_size l then
    match fuel with
    | O => Crash
    | S fuel =>
      '(ret, h, l, d) ← dlist_remove h l (dl_tail l);
      ddestroy_loop fuel h l (if (ret =? 0) && dl_destroy l then log ++ default [] ((λ x, [x]) <$> d) else log)
    end
  else Val (h, log).

Definition dlist_destroy (h : heap) (l : option DList) : outcome (heap * option DList * list data_t) :=
  match l with
  | None => Val (h, None, [])
  | Some l =>
    '(h, log) ← ddestroy_loop (Z.to_nat (dl_size l)) h l [];
    Val (h, Some (mkDList 0 None false None None), log)
  end.

(** ** Representation *)

Definition first_or (xs : list (addr * data_t)) (q : option addr) : option addr :=
  match xs with [] => q | (a, _) :: _ => Some a end.
Fixpoint last_or (p : option addr) (xs : list (addr * data_t)) : option addr :=
  match xs with [] => p | (a, _) :: xs => last_or (Some a) xs end.

(** The cells of [xs], between the cells [p] and [q]. *)
Fixpoint dseg (h : heap) (p : option addr) (xs : list (addr * data_t)) (q : option addr) : Prop :=
  match xs with
  | [] => True
  | (a, d) :: xs => h !! a = Some (mkDElmt d p (first_or xs q)) ∧ dseg h (Some a) xs q
  end.

Definition dlist_rep (h : heap) (l : DList) (xs : list (addr * data_t)) : Prop :=
  dseg h None xs None ∧ NoDup xs.*1 ∧ dl_size l = Z.of_nat (length xs) ∧
  dl_head l = first_or xs None ∧ dl_tail l = last_or None xs.

(** [h'] differs from [h] on the addresses [locs] only. *)
Definition touches_only (locs : list addr) (h h' : heap) : Prop := ∀ a, a ∉ locs → h' !! a = h !! a.

Lemma touches_only_app l1 l2 h1 h2 h3 : touches_only l1 h1 h2 → touches_only l2 h2 h3 → touches_only (l1 ++ l2) h1 h3.
Proof. intros H1 H2 a Ha. rewrite H2, H1; [done|set_solver..]. Qed.

Lemma first_or_app xs ys q : first_or (xs ++ ys) q = first_or xs (first_or ys q).
Proof. by destruct xs as [|[a d] xs]. Qed.
Lemma last_or_app p xs ys : last_or p (xs ++ ys) = last_or (last_or p xs) ys.
Proof. revert p. by induction xs as [|[a d] xs IH]; intros p; simpl. Qed.

Lemma dseg_app h p xs ys q :
  dseg h p (xs ++ ys) q ↔ dseg h p xs (first_or ys q) ∧ dseg h (last_or p xs) ys q.
Proof.
  revert p. induction xs as [|[a d] xs IH]; intros p; simpl; [tauto|]. rewrite IH, first_or_app. tauto.
Qed.

Lemma dseg_ext h h' p xs q : (∀ a, a ∈ xs.*1 → h' !! a = h !! a) → dseg h p xs q → dseg h' p xs q.
Proof.
  revert p. induction xs as [|[a d] xs IH]; intros p Hx; simpl; [done|]. intros [Ha Hs].
  split; [rewrite Hx; [done|simpl; set_solver]|]. apply IH; [|done]. intros b Hb. apply Hx. simpl. set_solver.
Qed.

Lemma dseg_in h p xs q a : dseg h p xs q → a ∈ xs.*1 → is_Some (h !! a).
Proof.
  revert p. induction xs as [|[b d] xs IH]; intros p; simpl; [set_solver|].
  intros [Hb Hs] [->|Ha]%elem_of_cons; [eauto|by eapply IH].
Qed.

(** Giving the last cell of a segment another successor, and the first another
    predecessor. *)
Lemma dseg_set_next h p xs q q' e :
  dseg h p xs q → NoDup xs.*1 → last_or None xs = Some e →
  ∃ h', set_next h e q' = Val h' ∧ dseg h' p xs q' ∧ touches_only [e] h h'.
Proof.
  intros Hs Hnd Hl. destruct xs as [|[e' d] xs _] using rev_ind; [done|]. rewrite last_or_app in Hl. simpl in Hl. injection Hl as ->.
  apply dseg_app in Hs as [Hs [He _]]. simpl in He. unfold set_next. rewrite He. run. eexists. split; [done|]. simpl.
  rewrite fmap_app in Hnd. apply NoDup_app in Hnd as (_ & Hdis & _). split.
  - apply dseg_app. simpl. rewrite lookup_insert_eq. split; [|done]. eapply dseg_ext; [|exact Hs].
    intros a Ha. apply lookup_insert_ne. intros <-. apply (Hdis _ Ha). simpl. set_solver.
  - intros a Ha. apply lookup_insert_ne. set_solver.
Qed.

Lemma dseg_set_prev h p p' xs q e :
  dseg h p xs q → NoDup xs.*1 → first_or xs None = Some e →
  ∃ h', set_prev h e p' = Val h' ∧ dseg h' p' xs q ∧ touches_only [e] h h'.
Proof.
  intros Hs Hnd Hf. destruct xs as [|[e' d] xs]; [done|]. injection Hf as ->. destruct Hs as [He Hs].
  unfold set_prev. rewrite He. run. eexists. split; [done|]. simpl. rewrite lookup_insert_eq. apply NoDup_cons in Hnd as [Hn _].
  split; [split; [done|]|].
  - eapply dseg_ext; [|exact Hs]. intros a Ha. apply lookup_insert_ne. set_solver.
  - intros a Ha. apply lookup_insert_ne. set_solver.
Qed.

Lemma last_or_some p xs : xs ≠ [] → last_or p xs = last_or None xs.
Proof. by destruct xs as [|[a d] xs]. Qed.
Lemma last_or_ne a xs : last_or (Some a) xs ≠ None.
Proof. revert a. induction xs as [|[b d] xs IH]; intros a; simpl; [done|apply IH]. Qed.
Lemma first_or_in xs q e : first_or xs q = Some e → e ∈ xs.*1 ∨ q = Some e ∧ xs = [].
Proof. destruct xs as [|[a d] xs]; simpl; [by right|]. intros [= ->]. left. set_solver. Qed.
Lemma last_or_in p xs e : last_or p xs = Some e → e ∈ xs.*1 ∨ p = Some e ∧ xs = [].
Proof.
  revert p. induction xs as [|[a d] xs IH]; intros p; simpl; [by right|]. intros [H|[[= ->] ->]]%IH; left; set_solver.
Qed.

(** A new cell between two segments. *)
Lemma dseg_link h n d xs ys :
  dseg h None (xs ++ ys) None → NoDup (xs ++ ys).*1 → h !! n = None →
  ∃ h1 h2 h3, h1 = <[n := mkDElmt d (last_or None xs) (first_or ys None)]> h ∧
    (match first_or ys None with Some x => set_prev h1 x (Some n) | None => Val h1 end) = Val h2 ∧
    (match last_or None xs with Some e => set_next h2 e (Some n) | None => Val h2 end) = Val h3 ∧
    dseg h3 None (xs ++ (n, d) :: ys) None ∧ touches_only (n :: (xs ++ ys).*1) h h3.
Proof.
  intros Hs Hnd Hn. assert (Hfresh : n ∉ (xs ++ ys).*1) by (intros Hi; destruct (dseg_in _ _ _ _ _ Hs Hi); congruence).
  apply dseg_app in Hs as [Hx Hy]. rewrite fmap_app in *. apply NoDup_app in Hnd as (Hnx & Hdis & Hny).
  set (h1 := <[n := mkDElmt d (last_or None xs) (first_or ys None)]> h).
  assert (Hx1 : dseg h1 None xs (first_or ys None)).
  { eapply dseg_ext; [|exact Hx]. intros a Ha. apply lookup_insert_ne. set_solver. }
  assert (Hy1 : dseg h1 (last_or None xs) ys None).
  { eapply dseg_ext; [|exact Hy]. intros a Ha. apply lookup_insert_ne. set_solver. }
  assert (H2 : ∃ h2, (match first_or ys None with Some x => set_prev h1 x (Some n) | None => Val h1 end) = Val h2 ∧
      dseg h2 (Some n) ys None ∧ touches_only ys.*1 h1 h2).
  { destruct ys as [|[x dx] ys]; [by exists h1|]. simpl first_or.
    destruct (dseg_set_prev h1 _ (Some n) _ _ x Hy1 Hny eq_refl) as (h2 & -> & ? & Ht). exists h2. split_and!; [done..|].
    intros a Ha. apply Ht. set_solver. }
  destruct H2 as (h2 & E2 & Hy2 & Ht2).
  assert (Hx2 : dseg h2 None xs (first_or ys None)).
  { eapply dseg_ext; [|exact Hx1]. intros a Ha. apply Ht2. intros Ha'. by apply (Hdis a). }
  assert (H3 : ∃ h3, (match last_or None xs with Some e => set_next h2 e (Some n) | None => Val h2 end) = Val h3 ∧
      dseg h3 None xs (Some n) ∧ touches_only xs.*1 h2 h3).
  { destruct (last_or None xs) as [e|] eqn:He.
    - destruct (dseg_set_next h2 _ _ _ (Some n) e Hx2 Hnx He) as (h3 & -> & ? & Ht). exists h3. split_and!; [done..|].
      apply last_or_in in He as [He|[? _]]; [|done]. intros a Ha. apply Ht. set_solver.
    - exists h2. split_and!; [done| |done]. destruct xs as [|[a da] xs]; [done|]. by apply last_or_ne in He. }
  destruct H3 as (h3 & E3 & Hx3 & Ht3). exists h1, h2, h3. split_and!; [done..| |].
  - apply dseg_app. simpl. split; [done|]. split.
    + rewrite Ht3, Ht2 by set_solver. unfold h1. by rewrite lookup_insert_eq.
    + eapply dseg_ext; [|exact Hy2]. intros a Ha. apply Ht3. intros Ha'. by apply (Hdis a).
  - intros a Ha. rewrite Ht3, Ht2 by set_solver. apply lookup_insert_ne. set_solver.
Qed.

(** The two links of distinct cells may be written in either order. *)
Lemma set_prev_next h x y p q h2 h3 :
  x ≠ y → set_prev h y q = Val h2 → set_next h2 x p = Val h3 →
  ∃ h2', set_next h x p = Val h2' ∧ set_prev h2' y q = Val h3.
Proof.
  unfold set_prev, set_next. intros Hne H1 H2. destruct (h !! y) as [cy|] eqn:Ey; [|done]. injection H1 as <-.
  rewrite lookup_insert_ne in H2 by done. destruct (h !! x) as [cx|] eqn:Ex; [|done]. injection H2 as <-.
  eexists. split; [done|]. rewrite lookup_insert_ne, Ey by done. run. f_equal. by apply insert_insert_ne.
Qed.

(** Closing the gap left by the cells between two segments. *)
Lemma dseg_unlink h xs q p ys :
  dseg h None xs q → dseg h p ys None → NoDup (xs ++ ys).*1 →
  ∃ h1 h2, (match last_or None xs with Some e => set_next h e (first_or ys None) | None => Val h end) = Val h1 ∧
    (match first_or ys None with Some x => set_prev h1 x (last_or None xs) | None => Val h1 end) = Val h2 ∧
    dseg h2 None (xs ++ ys) None ∧ touches_only (xs ++ ys).*1 h h2.
Proof.
  intros Hx Hy Hnd. rewrite fmap_app in *. apply NoDup_app in Hnd as (Hnx & Hdis & Hny).
  assert (H1 : ∃ h1, (match last_or None xs with Some e => set_next h e (first_or ys None) | None => Val h end) = Val h1 ∧
      dseg h1 None xs (first_or ys None) ∧ touches_only xs.*1 h h1).
  { destruct (last_or None xs) as [e|] eqn:He.
    - destruct (dseg_set_next h _ _ _ (first_or ys None) e Hx Hnx He) as (h1 & -> & ? & Ht). exists h1. split_and!; [done..|].
      apply last_or_in in He as [He|[? _]]; [|done]. intros a Ha. apply Ht. set_solver.
    - exists h. split_and!; [done| |done]. destruct xs as [|[a da] xs]; [done|]. by apply last_or_ne in He. }
  destruct H1 as (h1 & E1 & Hx1 & Ht1).
  assert (Hy1 : dseg h1 p ys None).
  { eapply dseg_ext; [|exact Hy]. intros a Ha. apply Ht1. intros Ha'. by apply (Hdis a). }
  assert (H2 : ∃ h2, (match first_or ys None with Some x => set_prev h1 x (last_or None xs) | None => Val h1 end) = Val h2 ∧
      dseg h2 (last_or None xs) ys None ∧ touches_only ys.*1 h1 h2).
  { destruct ys as [|[x dx] ys]; [by exists h1|]. simpl first_or.
    destruct (dseg_set_prev h1 _ (last_or None xs) _ _ x Hy1 Hny eq_refl) as (h2 & -> & ? & Ht). exists h2. split_and!; [done..|].
    intros a Ha. apply Ht. set_solver. }
  destruct H2 as (h2 & E2 & Hy2 & Ht2). exists h1, h2. split_and!; [done..| |].
  - apply dseg_app. split; [|done]. eapply dseg_ext; [|exact Hx1]. intros a Ha. apply Ht2. intros Ha'. by apply (Hdis a).
  - intros a Ha. rewrite Ht2, Ht1; [done|set_solver..].
Qed.

(** ** Operations *)

Lemma rep_empty h l xs : dlist_rep h l xs → (dl_size l =? 0) = bool_decide (xs = []).
Proof. intros (_ & _ & -> & _). destruct xs; [done|]. rewrite bool_decide_eq_false_2 by done. simpl. lia. Qed.

Lemma new_rep n d xs ys h h3 l :
  dlist_rep h l (xs ++ ys) → dseg h3 None (xs ++ (n, d) :: ys) None → h !! n = None →
  dlist_rep h3 (with_ends l (dl_size l + 1) (first_or (xs ++ (n, d) :: ys) None) (last_or None (xs ++ (n, d) :: ys))) (xs ++ (n, d) :: ys).
Proof.
  intros (Hs & Hnd & Hsz & _ & _) Hs3 Hn. split_and!; [done| | |done..].
  - rewrite !fmap_app in *. simpl. rewrite <- Permutation_middle. apply NoDup_cons. split; [|done].
    rewrite <- fmap_app. intros Hi. destruct (dseg_in _ _ _ _ _ Hs Hi). congruence.
  - simpl. rewrite Hsz, !length_app. simpl. lia.
Qed.

Lemma dlist_ins_next_rep n h l xs e de ys d :
  dlist_rep h l (xs ++ (e, de) :: ys) → h !! n = None →
  ∃ h' l', dlist_ins_next (Some n) h l (Some e) d = Val (0, h', l') ∧ dlist_rep h' l' (xs ++ (e, de) :: (n, d) :: ys) ∧
    touches_only (n :: (xs ++ (e, de) :: ys).*1) h h' ∧ dl_test l' = dl_test l ∧ dl_destroy l' = dl_destroy l.
Proof.
  intros Hrep Hn. pose proof (rep_empty _ _ _ Hrep) as Hz. rewrite bool_decide_eq_false_2 in Hz by (by destruct xs).
  pose proof Hrep as (Hs & Hnd & Hsz & Hhd & Htl).
  assert (Hx : xs ++ (e, de) :: ys = (xs ++ [(e, de)]) ++ ys) by (by rewrite <- app_assoc).
  rewrite Hx in Hrep, Hs, Hnd. destruct (dseg_link h n d _ ys Hs Hnd Hn) as (h1 & h2 & h3 & -> & E2 & E3 & Hs3 & Ht).
  rewrite last_or_app in E2, E3. cbn [last_or] in E2, E3. pose proof (new_rep n d _ ys h h3 l Hrep Hs3 Hn) as Hfin.
  assert (He : h !! e = Some (mkDElmt de (last_or None xs) (first_or ys None))).
  { rewrite <- Hx in Hs. apply dseg_app in Hs as [_ [He _]]. exact He. }
  exists h3, (with_ends l (dl_size l + 1) (dl_head l) (match first_or ys None with None => Some n | Some _ => dl_tail l end)). rewrite <- Hx in Ht. split_and!; [unfold dlist_ins_next; rewrite Hz, He; cbn [deref mbind outcome_mbind d_next]| |done..].
  - destruct ys as [|[x dx] ys]; cbn [first_or] in *.
    + injection E2 as <-. run. rewrite E3. run. reflexivity.
    + rewrite E2. run. rewrite E3. run. reflexivity.
  - rewrite <- app_assoc in Hfin. simpl in Hfin.
    replace (with_ends _ _ _ _) with (with_ends l (dl_size l + 1) (first_or (xs ++ (e, de) :: (n, d) :: ys) None) (last_or None (xs ++ (e, de) :: (n, d) :: ys))); [exact Hfin|].
    f_equal; [by rewrite Hhd, !first_or_app|]. destruct ys as [|[x dx] ys]; [by rewrite last_or_app|].
    rewrite Htl, !last_or_app. done.
Qed.

Lemma dlist_ins_prev_rep n h l xs e de ys d :
  dlist_rep h l (xs ++ (e, de) :: ys) → h !! n = None →
  ∃ h' l', dlist_ins_prev (Some n) h l (Some e) d = Val (0, h', l') ∧ dlist_rep h' l' (xs ++ (n, d) :: (e, de) :: ys) ∧
    touches_only (n :: (xs ++ (e, de) :: ys).*1) h h' ∧ dl_test l' = dl_test l ∧ dl_destroy l' = dl_destroy l.
Proof.
  intros Hrep Hn. pose proof (rep_empty _ _ _ Hrep) as Hz. rewrite bool_decide_eq_false_2 in Hz by (by destruct xs).
  pose proof Hrep as (Hs & Hnd & Hsz & Hhd & Htl).
  destruct (dseg_link h n d xs _ Hs Hnd Hn) as (h1 & h2 & h3 & -> & E2 & E3 & Hs3 & Ht). cbn [first_or] in E2, E3.
  pose proof (new_rep n d xs _ h h3 l Hrep Hs3 Hn) as Hfin.
  assert (He : h !! e = Some (mkDElmt de (last_or None xs) (first_or ys None))).
  { apply dseg_app in Hs as [_ [He _]]. exact He. }
  exists h3, (with_ends l (dl_size l + 1) (match last_or None xs with None => Some n | Some _ => dl_head l end) (dl_tail l)). split_and!; [unfold dlist_ins_prev; rewrite Hz, He; cbn [deref mbind outcome_mbind d_prev]| |done..].
  - destruct (last_or None xs) as [x|] eqn:Hx.
    + assert (x ≠ e) as Hne.
      { apply last_or_in in Hx as [Hx|[? _]]; [|done]. rewrite fmap_app in Hnd. apply NoDup_app in Hnd as (_ & Hdis & _).
        intros ->. apply (Hdis _ Hx). simpl. set_solver. }
      destruct (set_prev_next _ _ _ _ _ _ _ Hne E2 E3) as (h2' & -> & E3'). run. rewrite E3'. run. reflexivity.
    + injection E3 as <-. run. rewrite E2. run. reflexivity.
  - replace (with_ends _ _ _ _) with (with_ends l (dl_size l + 1) (first_or (xs ++ (n, d) :: (e, de) :: ys) None) (last_or None (xs ++ (n, d) :: (e, de) :: ys))); [exact Hfin|].
    f_equal; [|by rewrite Htl, !last_or_app]. destruct xs as [|[x dx] xs]; [done|]. simpl last_or.
    destruct (last_or (Some x) xs) eqn:Hl; [by rewrite Hhd|by apply last_or_ne in Hl].
Qed.

Lemma dlist_ins_empty n h l d element :
  dlist_rep h l [] →
  dlist_ins_next (Some n) h l element d = Val (0, <[n := mkDElmt d None None]> h, with_ends l 1 (Some n) (Some n)) ∧
  dlist_ins_prev (Some n) h l element d = Val (0, <[n := mkDElmt d None None]> h, with_ends l 1 (Some n) (Some n)) ∧
  dlist_rep (<[n := mkDElmt d None None]> h) (with_ends l 1 (Some n) (Some n)) [(n, d)].
Proof.
  intros (_ & _ & Hz & _). unfold dlist_ins_next, dlist_ins_prev. rewrite Hz. split_and!; [by destruct element..|].
  split_and!; simpl; [by rewrite lookup_insert_eq|apply NoDup_singleton|done..].
Qed.

Lemma dlist_remove_rep h l xs e de ys :
  dlist_rep h l (xs ++ (e, de) :: ys) →
  ∃ h' l', dlist_remove h l (Some e) = Val (0, h', l', Some de) ∧ dlist_rep h' l' (xs ++ ys) ∧
    h' !! e = None ∧ touches_only (xs ++ (e, de) :: ys).*1 h h' ∧ dl_test l' = dl_test l ∧ dl_destroy l' = dl_destroy l.
Proof.
  intros Hrep. pose proof (rep_empty _ _ _ Hrep) as Hz. rewrite bool_decide_eq_false_2 in Hz by (by destruct xs).
  destruct Hrep as (Hs & Hnd & Hsz & Hhd & Htl). apply dseg_app in Hs as [Hx [He Hy]].
  assert (Hnd' : NoDup (xs ++ ys).*1 ∧ e ∉ (xs ++ ys).*1).
  { rewrite !fmap_app in *. simpl in Hnd. rewrite <- Permutation_middle in Hnd. apply NoDup_cons in Hnd as [? ?]. done. }
  destruct Hnd' as [Hnd' Hfresh].
  destruct (dseg_unlink h xs _ _ ys Hx Hy Hnd') as (h1 & h2 & E1 & E2 & Hs2 & Ht).
  exists (delete e h2), (with_ends l (dl_size l - 1) (first_or (xs ++ ys) None) (last_or None (xs ++ ys))).
  split_and!; try done.
  - unfold dlist_remove. rewrite Hz, He. cbn [deref mbind outcome_mbind d_next d_prev d_data].
    destruct xs as [|[x dx] xs]; simpl in *.
    + rewrite Hhd, bool_decide_eq_true_2 by done. injection E1 as <-. destruct ys as [|[y dy] ys]; simpl in *.
      * by injection E2 as <-.
      * rewrite E2. run. by rewrite Htl.
    + rewrite Hhd, bool_decide_eq_false_2.
      2: { intros [= ->]. set_solver. }
      destruct (last_or (Some x) xs) as [p|] eqn:Hp; [|by apply last_or_ne in Hp]. run. rewrite E1. run.
      rewrite Htl, !last_or_app. destruct ys as [|[y dy] ys]; simpl in *; [injection E2 as <-; by rewrite Hp|rewrite E2; done].
  - split_and!; [| done | |done..].
    + eapply dseg_ext; [|exact Hs2]. intros a Ha. apply lookup_delete_ne. set_solver.
    + simpl. rewrite Hsz, !length_app. simpl. lia.
  - apply lookup_delete_eq.
  - intros a Ha. rewrite fmap_app in Ha. simpl in Ha. rewrite lookup_delete_ne by set_solver. apply Ht. rewrite fmap_app. set_solver.
Qed.

Lemma dseg_length h p xs q : dseg h p xs q → NoDup xs.*1 → (length xs ≤ size h)%nat.
Proof.
  intros Hs Hnd. rewrite <- size_dom, <- (length_fmap fst xs), <- (size_list_to_set (C := gset addr)) by done.
  apply subseteq_size. intros a Ha%elem_of_list_to_set. apply elem_of_dom. by eapply dseg_in.
Qed.

Lemma dlookup_loop_spec fuel h p xs test data :
  dseg h p xs None → (length xs < fuel)%nat →
  dlookup_loop fuel h test data (first_or xs None) =
    Val ((λ r, r.2.1) <$> list_find (λ x, test data x.2 = 0) xs).
Proof.
  revert p fuel. induction xs as [|[a d] xs IH]; intros p [|fuel]; simpl; [lia|done|lia|]. intros [Ha Hs] Hf.
  rewrite Ha. run. simpl. destruct (Z.eqb_spec (test data d) 0) as [E|E].
  - by rewrite decide_True.
  - rewrite decide_False by done. rewrite (IH (Some a)) by (done || lia). by destruct (list_find _ xs) as [[? ?]|].
Qed.

(** Destroying removes the tail again and again. *)
Lemma ddestroy_loop_rep h l xs log :
  dlist_rep h l xs →
  ∃ h', ddestroy_loop (length xs) h l log = Val (h', log ++ (if dl_destroy l then reverse xs.*2 else [])) ∧
    (∀ a, h' !! a = if bool_decide (a ∈ xs.*1) then None else h !! a).
Proof.
  revert h l log. induction xs as [|[e de] xs IH] using rev_ind; intros h l log Hrep.
  - exists h. destruct Hrep as (_ & _ & Hz & _). simpl. rewrite Hz. simpl. split; [|done].
    by destruct (dl_destroy l); rewrite app_nil_r.
  - destruct (dlist_remove_rep h l xs e de [] Hrep) as (h1 & l1 & E & Hrep1 & Hdel & Ht & _ & Hd). rewrite app_nil_r in Hrep1.
    destruct (IH h1 l1 (if dl_destroy l then log ++ [de] else log) Hrep1) as (h2 & E2 & Hh2).
    exists h2. destruct Hrep as (_ & _ & Hz & _ & Htl). rewrite length_app in *. cbn [length] in *. rewrite Nat.add_1_r in *.
    split.
    + cbn [ddestroy_loop]. rewrite Hz. replace (0 <? Z.of_nat (S (length xs))) with true by (symmetry; apply Z.ltb_lt; lia).
      rewrite Htl, last_or_app. cbn [last_or]. rewrite E. run. simpl. rewrite Hd, E2, Hd, fmap_app, reverse_app.
      destruct (dl_destroy l); simpl; by rewrite <- ?app_assoc.
    + intros a. rewrite Hh2, fmap_app. simpl. destruct (decide (a ∈ xs.*1)) as [Ha|Ha].
      * rewrite !bool_decide_eq_true_2; set_solver.
      * rewrite bool_decide_eq_false_2 by done. destruct (decide (a = e)) as [->|Hne].
        -- rewrite bool_decide_eq_true_2 by set_solver. done.
        -- rewrite bool_decide_eq_false_2 by set_solver. apply Ht. rewrite fmap_app. set_solver.
Qed.

(** ** Sequences of operations *)

(** A caller reaches a cell by walking from the head. *)
Fixpoint walk (i : nat) (h : heap) (p : option addr) : option addr :=
  match p with
  | None => None
  | Some a => match i with O => Some a | S i => c ← h !! a; walk i h (d_next c) end
  end.

Lemma walk_dseg i h p xs : dseg h p xs None → walk i h (first_or xs None) = xs.*1 !! i.
Proof.
  revert i p. induction xs as [|[a d] xs IH]; intros [|i] p; simpl; [done..|]. intros [Ha Hs]. rewrite Ha. simpl. by eapply IH.
Qed.

Inductive dlist_op :=
  | OpInsNext (i : nat) (d : data_t)
  | OpInsPrev (i : nat) (d : data_t)
  | OpRemove (i : nat)
  | OpRemoveFound (d : data_t).

(** One call, [malloc] returning an unused address: its return value and the data it handed back. *)
Definition dlist_do (o : dlist_op) (h : heap) (l : DList) : outcome ((Z * option data_t) * heap * DList) :=
  let n := Some (fresh (dom (D := gset addr) h)) in
  match o with
  | OpInsNext i d => '(r, h, l) ← dlist_ins_next n h l (walk i h (dl_head l)) d; Val ((r, None), h, l)
  | OpInsPrev i d => '(r, h, l) ← dlist_ins_prev n h l (walk i h (dl_head l)) d; Val ((r, None), h, l)
  | OpRemove i => '(r, h, l, d) ← dlist_remove h l (walk i h (dl_head l)); Val ((r, d), h, l)
  | OpRemoveFound d => e ← dlist_lookup_node h (Some l) d; '(r, h, l, d) ← dlist_remove h l e; Val ((r, d), h, l)
  end.

Fixpoint dlist_run (os : list dlist_op) (h : heap) (l : DList) : outcome (list (Z * option data_t) * heap * DList) :=
  match os with
  | [] => Val ([], h, l)
  | o :: os => '(r, h, l) ← dlist_do o h l; '(rs, h, l) ← dlist_run os h l; Val (r :: rs, h, l)
  end.

(** The same on functional lists. *)
Definition insert_at {B} (i : nat) (x : B) (xs : list B) : list B := take i xs ++ x :: drop i xs.
Definition remove_at (i : nat) (xs : list data_t) : (Z * option data_t) * list data_t :=
  match xs !! i with Some d => ((0, Some d), take i xs ++ drop (S i) xs) | None => ((-1, None), xs) end.

Definition spec_do (test : data_t → data_t → Z) (o : dlist_op) (xs : list data_t) : (Z * option data_t) * list data_t :=
  match o with
  | OpInsNext i d =>
    if bool_decide (xs = []) then ((0, None), [d])
    else if bool_decide (i < length xs)%nat then ((0, None), insert_at (S i) d xs) else ((-1, None), xs)
  | OpInsPrev i d =>
    if bool_decide (xs = []) then ((0, None), [d])
    else if bool_decide (i < length xs)%nat then ((0, None), insert_at i d xs) else ((-1, None), xs)
  | OpRemove i => remove_at i xs
  | OpRemoveFound d => match list_find (λ x, test d x = 0) xs with Some (i, _) => remove_at i xs | None => ((-1, None), xs) end
  end.

Fixpoint spec_run (test : data_t → data_t → Z) (os : list dlist_op) (xs : list data_t) : list (Z * option data_t) * list data_t :=
  match os with
  | [] => ([], xs)
  | o :: os => let '(r, xs) := spec_do test o xs in let '(rs, xs) := spec_run test os xs in (r :: rs, xs)
  end.

(** [h] holds the cells of the list [xs] and nothing else. *)
Definition dlist_own (test : data_t → data_t → Z) (destroy : bool) (h : heap) (l : DList) (xs : list (addr * data_t)) : Prop :=
  dlist_rep h l xs ∧ (∀ a, a ∉ xs.*1 → h !! a = None) ∧ dl_test l = Some test ∧ dl_destroy l = destroy.

Lemma walk_own test destroy h l xs i : dlist_own test destroy h l xs → walk i h (dl_head l) = xs.*1 !! i.
Proof. intros [(Hs & _ & _ & -> & _) _]. by eapply walk_dseg. Qed.

Lemma fresh_cell (h : heap) : h !! fresh (dom (D := gset addr) h) = None.
Proof. apply not_elem_of_dom, is_fresh. Qed.

Lemma split_fst (xs : list (addr * data_t)) i a :
  xs.*1 !! i = Some a → ∃ d, xs = take i xs ++ (a, d) :: drop (S i) xs ∧ (i < length xs)%nat.
Proof.
  rewrite list_lookup_fmap. destruct (xs !! i) as [[a' d]|] eqn:E; [|done]. intros [= ->]. exists d.
  split; [by rewrite take_drop_middle|by eapply lookup_lt_Some].
Qed.

Lemma insert_mid {B} (x y : B) us vs :
  insert_at (S (length us)) x (us ++ y :: vs) = us ++ y :: x :: vs ∧ insert_at (length us) x (us ++ y :: vs) = us ++ x :: y :: vs.
Proof.
  unfold insert_at. split; [|by rewrite take_app_length, drop_app_length].
  rewrite (cons_middle y us vs), <- Nat.add_1_r. replace (length us + 1)%nat with (length (us ++ [y])) by (rewrite length_app; done).
  rewrite (app_assoc us [y] vs), take_app_length, drop_app_length, <- app_assoc. done.
Qed.
Lemma remove_mid (x : data_t) us vs : remove_at (length us) (us ++ x :: vs) = ((0, Some x), us ++ vs).
Proof.
  unfold remove_at. rewrite list_lookup_middle by done. rewrite take_app_length. do 2 f_equal.
  rewrite (cons_middle x us vs), <- Nat.add_1_r. replace (length us + 1)%nat with (length (us ++ [x])) by (rewrite length_app; done).
  rewrite (app_assoc us [x] vs), drop_app_length. done.
Qed.

Lemma dlist_remove_own test destroy h l xs i :
  dlist_own test destroy h l xs →
  ∃ h' l' xs', (match dlist_remove h l (xs.*1 !! i) with Val (r, h, l, d) => Val ((r, d), h, l) | Crash => Crash end)
      = Val ((remove_at i xs.*2).1, h', l') ∧ dlist_own test destroy h' l' xs' ∧ xs'.*2 = (remove_at i xs.*2).2.
Proof.
  intros (Hrep & Hout & Ht & Hd). destruct (xs.*1 !! i) as [e|] eqn:E.
  - apply split_fst in E as (de & Hx & Hi). assert (Hl : length (take i xs).*2 = i) by (rewrite length_fmap, length_take; lia).
    revert Hrep Hout Hl. generalize (take i xs), (drop (S i) xs), Hx. intros us vs -> Hrep Hout Hl.
    destruct (dlist_remove_rep _ _ _ _ _ _ Hrep) as (h' & l' & -> & Hrep' & Hdel & Htch & Ht' & Hd').
    rewrite fmap_app. cbn [fmap list_fmap snd]. rewrite <- Hl, remove_mid. exists h', l', (us ++ vs).
    split_and!; [done| |by rewrite fmap_app]. split_and!; [done| |congruence..].
    intros a Ha. destruct (decide (a = e)) as [->|Hne]; [done|].
    assert (a ∉ (us ++ (e, de) :: vs).*1) as Ha' by (rewrite fmap_app in *; set_solver). by rewrite Htch, Hout.
  - exists h, l, xs. unfold remove_at. assert (xs.*2 !! i = None) as -> by (apply lookup_ge_None; apply lookup_ge_None in E; pose proof (length_fmap fst xs); pose proof (length_fmap snd xs); lia).
    split_and!; [done| |done]. by split_and!.
Qed.
Lemma dlist_ins_own (next : bool) test destroy h l xs i d :
  dlist_own test destroy h l xs →
  let ins := if next then dlist_ins_next else dlist_ins_prev in
  let o := if next then OpInsNext i d else OpInsPrev i d in
  ∃ h' l' xs', (match ins (Some (fresh (dom (D := gset addr) h))) h l (xs.*1 !! i) d with
                | Val (r, h, l) => Val ((r, None), h, l) | Crash => Crash end) = Val ((spec_do test o xs.*2).1, h', l') ∧
    dlist_own test destroy h' l' xs' ∧ xs'.*2 = (spec_do test o xs.*2).2.
Proof.
  intros (Hrep & Hout & Ht & Hd). set (n := fresh (dom (D := gset addr) h)). pose proof (fresh_cell h) as Hn. fold n in Hn.
  destruct (xs.*1 !! i) as [e|] eqn:E.
  - apply split_fst in E as (de & Hx & Hi). assert (Hl : length (take i xs).*2 = i) by (rewrite length_fmap, length_take; lia).
    revert Hrep Hout Hl Hi. generalize (take i xs), (drop (S i) xs), Hx. intros us vs -> Hrep Hout Hl Hi.
    assert (Hkind : ∃ h' l', (if next then dlist_ins_next else dlist_ins_prev) (Some n) h l (Some e) d = Val (0, h', l') ∧
        dlist_rep h' l' (us ++ (if next then [(e, de); (n, d)] else [(n, d); (e, de)]) ++ vs) ∧
        touches_only (n :: (us ++ (e, de) :: vs).*1) h h' ∧ dl_test l' = dl_test l ∧ dl_destroy l' = dl_destroy l).
    { destruct next; [by apply dlist_ins_next_rep|by apply dlist_ins_prev_rep]. }
    destruct Hkind as (h' & l' & Ei & Hrep' & Htch & Ht' & Hd').
    exists h', l', (us ++ (if next then [(e, de); (n, d)] else [(n, d); (e, de)]) ++ vs).
    assert (Hs : spec_do test (if next then OpInsNext i d else OpInsPrev i d) (us ++ (e, de) :: vs).*2 =
      ((0, None), us.*2 ++ (if next then [de; d] else [d; de]) ++ vs.*2)).
    { rewrite fmap_app. cbn [fmap list_fmap snd]. destruct (insert_mid d de us.*2 vs.*2) as [I1 I2]. rewrite Hl in I1, I2.
      destruct next; cbn [spec_do]; (rewrite bool_decide_eq_false_2 by (by destruct us.*2));
        (rewrite bool_decide_eq_true_2 by (rewrite length_app, Hl; simpl; lia)); by rewrite ?I1, ?I2. }
    split_and!.
    + cbv zeta. rewrite Hs. by destruct next; rewrite Ei.
    + split_and!; [done| |congruence..]. intros a Ha.
      assert (a ∉ n :: (us ++ (e, de) :: vs).*1) as Ha' by (destruct next; rewrite !fmap_app in *; simpl in *; set_solver).
      rewrite Htch by done. apply Hout. intros Hi2. apply Ha'. by apply elem_of_cons; right.
    + cbv zeta. rewrite Hs. destruct next; by rewrite !fmap_app.
  - cbv zeta. destruct xs as [|x xs].
    + destruct (dlist_ins_empty n h l d None Hrep) as (E1 & E2 & Hrep1).
      eexists _, _, [(n, d)]. split_and!; [destruct next; [rewrite E1|rewrite E2]; reflexivity| |by destruct next].
      split_and!; [done| |done..]. intros a Ha. simpl in Ha. rewrite lookup_insert_ne by set_solver. apply Hout. set_solver.
    + exists h, l, (x :: xs). pose proof (rep_empty _ _ _ Hrep) as Hz. rewrite bool_decide_eq_false_2 in Hz by done.
      assert (¬ (i < length (x :: xs).*2)%nat) as Hi by (apply lookup_ge_None in E; pose proof (length_fmap fst (x :: xs)); pose proof (length_fmap snd (x :: xs)); lia).
      split_and!; [|by split_and!|]; destruct next; cbn [spec_do]; rewrite bool_decide_eq_false_2, bool_decide_eq_false_2 by done;
        [unfold dlist_ins_next; by rewrite Hz|unfold dlist_ins_prev; by rewrite Hz|done..].
Qed.

Lemma dlist_do_own o test destroy h l xs :
  dlist_own test destroy h l xs →
  ∃ h' l' xs', dlist_do o h l = Val ((spec_do test o xs.*2).1, h', l') ∧
    dlist_own test destroy h' l' xs' ∧ xs'.*2 = (spec_do test o xs.*2).2.
Proof.
  intros Hown. pose proof (walk_own _ _ _ _ _ 0 Hown) as _. destruct o as [i d|i d|i|d]; cbn [dlist_do];
    rewrite ?(walk_own _ _ _ _ _ i Hown).
  - exact (dlist_ins_own true _ _ _ _ _ i d Hown).
  - exact (dlist_ins_own false _ _ _ _ _ i d Hown).
  - exact (dlist_remove_own _ _ _ _ _ i Hown).
  - pose proof Hown as ((Hs & Hnd & Hz & Hhd & _) & _ & Ht & _). unfold dlist_lookup_node. rewrite Ht, Hz, Hhd.
    destruct xs as [|x xs]; [by exists h, l, []|]. cbn [length]. rewrite Nat2Z.inj_succ. rewrite (proj2 (Z.eqb_neq _ _)) by lia.
    rewrite (dlookup_loop_spec _ _ None) by (done || (apply dseg_length in Hs; [lia|done])). run.
    pose proof (list_find_fmap snd (λ y, test d y = 0) (x :: xs)) as Hf. unfold compose in Hf.
    cbn [spec_do]. rewrite Hf. destruct (list_find (λ y, test d y.2 = 0) (x :: xs)) as [[i [a da]]|] eqn:E.
    + apply list_find_Some in E as [E _]. pose proof (dlist_remove_own _ _ _ _ _ i Hown) as H.
      rewrite list_lookup_fmap, E in H. exact H.
    + by exists h, l, (x :: xs).
Qed.

Lemma dlist_run_own os test destroy h l xs :
  dlist_own test destroy h l xs →
  ∃ h' l' xs', dlist_run os h l = Val ((spec_run test os xs.*2).1, h', l') ∧
    dlist_own test destroy h' l' xs' ∧ xs'.*2 = (spec_run test os xs.*2).2.
Proof.
  revert h l xs. induction os as [|o os IH]; intros h l xs Hown; [by exists h, l, xs|].
  destruct (dlist_do_own o _ _ _ _ _ Hown) as (h1 & l1 & xs1 & E1 & Hown1 & Hx1).
  destruct (IH _ _ _ Hown1) as (h2 & l2 & xs2 & E2 & Hown2 & Hx2). rewrite Hx1 in E2, Hx2.
  exists h2, l2, xs2. cbn [dlist_run spec_run]. rewrite E1. run. rewrite E2. run.
  destruct (spec_do test o xs.*2) as [r ys]. cbn [fst snd] in *. by destruct (spec_run test os ys) as [rs zs].
Qed.

(** What the list holds, read forwards through [next] or backwards through [prev]. *)
Fixpoint forwards (fuel : nat) (h : heap) (p : option addr) : list data_t :=
  match fuel, p with
  | S fuel, Some a => match h !! a with Some c => d_data c :: forwards fuel h (d_next c) | None => [] end
  | _, _ => []
  end.
Fixpoint backwards (fuel : nat) (h : heap) (p : option addr) : list data_t :=
  match fuel, p with
  | S fuel, Some a => match h !! a with Some c => d_data c :: backwards fuel h (d_prev c) | None => [] end
  | _, _ => []
  end.

Lemma forwards_dseg h p xs fuel : dseg h p xs None → (length xs ≤ fuel)%nat → forwards fuel h (first_or xs None) = xs.*2.
Proof.
  revert p fuel. induction xs as [|[a d] xs IH]; intros p [|fuel] Hs Hf; simpl in *; [done..|lia|].
  destruct Hs as [-> Hs]. simpl. f_equal. eapply IH; [done|lia].
Qed.
Lemma backwards_dseg h xs q fuel : dseg h None xs q → (length xs ≤ fuel)%nat → backwards fuel h (last_or None xs) = reverse xs.*2.
Proof.
  revert q fuel. induction xs as [|[a d] xs IH] using rev_ind; intros q [|fuel] Hs Hf; [done..| |].
  { rewrite length_app in Hf. simpl in Hf. lia. }
  rewrite length_app in Hf. simpl in Hf. rewrite last_or_app, fmap_app, reverse_app. apply dseg_app in Hs as [Hs [Ha _]].
  simpl. rewrite Ha. simpl. f_equal. eapply IH; [done|lia].
Qed.

End dlist.

(** C23. Any sequence of insertions after or before a cell, removals of a cell
    and removals of the first cell a lookup finds, started on an empty list,
    runs without touching memory that is not a cell of the list, returns what
    the same sequence on functional lists returns, and leaves that list,
    whether it is read forwards through the [next] pointers or backwards
    through [prev]. Destroying the list afterwards frees every cell and calls
    the destructor on every element, from the last to the first. *)
Theorem dlist_ops_refine {A} (test : option A → option A → Z) (os : list dlist_op) :
  let l0 := mkDList 0 (Some test) true None None in
  let '(rs, xs) := spec_run test os [] in
  ∃ h l, dlist_run os ∅ l0 = Val (rs, h, l) ∧
    forwards (length xs) h (dl_head l) = xs ∧ backwards (length xs) h (dl_tail l) = reverse xs ∧
    dl_size l = Z.of_nat (length xs) ∧
    dlist_destroy h (Some l) = Val (∅, Some (mkDList 0 None false None None), reverse xs).
Proof.
  assert (Hown : dlist_own test true ∅ (mkDList 0 (Some test) true None None) []).
  { split_and!; try done. split_and!; try done. apply NoDup_nil_2. }
  destruct (dlist_run_own os _ _ _ _ _ Hown) as (h & l & xs & E & ((Hs & Hnd & Hz & Hhd & Htl) & Hout & Ht & Hd) & Hx).
  simpl in E, Hx. destruct (spec_run test os []) as [rs ys]. simpl in *. subst ys. exists h, l. rewrite length_fmap.
  split_and!; [done|by rewrite Hhd; eapply forwards_dseg|by rewrite Htl; eapply backwards_dseg|done|].
  destruct (ddestroy_loop_rep h l xs []) as (h' & E' & Hh'); [done|]. rewrite Hz, Nat2Z.id, E', Hd. run.
  replace h' with (∅ : gmap addr (@DListElmt A)); [done|]. symmetry. apply map_empty. intros a. rewrite Hh'. by case_bool_decide; [|apply Hout].
Qed.
