(* ===== verification/Utf8.v ===== *)
(** * Validity of UTF-8 text: [utf8_valid] of libwzd-core/wzd_utf8.c

    The check is the one of RFC 2640: sequences of up to six bytes, in shortest
    form. The conversions through [iconv] are left to the C library. *)

From S2P Require Import Prelude.

(** The loop over the bytes: [trailing] continuation bytes are still to come, and
    the next one has to have a bit of [byte2mask] set when that is not zero. *)
Fixpoint utf8_loop (trailing byte2mask : Z) (buf : list Z) : bool :=
  match buf with
  | [] => trailing =? 0
  | c :: buf =>
    if negb (trailing =? 0) then
      if Z.land c 0xc0 =? 0x80 then
        if negb (byte2mask =? 0) then
          if negb (Z.land c byte2mask =? 0) then utf8_loop (trailing - 1) 0 buf else false
        else utf8_loop (trailing - 1) byte2mask buf
      else false
    else if Z.land c 0x80 =? 0 then utf8_loop trailing byte2mask buf
    else if Z.land c 0xe0 =? 0xc0 then
      if negb (Z.land c 0x1e =? 0) then utf8_loop 1 byte2mask buf else false
    else if Z.land c 0xf0 =? 0xe0 then utf8_loop 2 (if Z.land c 0x0f =? 0 then 0x20 else byte2mask) buf
    else if Z.land c 0xf8 =? 0xf0 then utf8_loop 3 (if Z.land c 0x07 =? 0 then 0x30 else byte2mask) buf
    else if Z.land c 0xfc =? 0xf8 then utf8_loop 4 (if Z.land c 0x03 =? 0 then 0x38 else byte2mask) buf
    else if Z.land c 0xfe =? 0xfc then utf8_loop 5 (if Z.land c 0x01 =? 0 then 0x3c else byte2mask) buf
    else false
  end.

(** [utf8_valid(buf,strlen(buf))]. *)
Definition utf8_valid (buf : list ascii) : bool := utf8_loop 0 0 (map code buf).

(** ** The encoding of RFC 2279 *)

(** The [k] low groups of six bits of [n]. *)
Fixpoint continuation (k : nat) (n : Z) : list Z :=
  match k with O => [] | S k => 0x80 + (n / 64 ^ Z.of_nat k) mod 64 :: continuation k n end.

(** A sequence of [k] continuation bytes: its first byte starts at [lead k], and
    it encodes the code points below [limit k] that [k - 1] cannot encode. *)
Definition lead (k : nat) : Z := 256 - 2 ^ (7 - Z.of_nat k).
Definition limit (k : nat) : Z := match k with O => 128 | _ => 2 ^ (5 * Z.of_nat k + 6) end.

Definition encode_in (k : nat) (n : Z) : list Z :=
  match k with O => [n] | _ => lead k + n / 64 ^ Z.of_nat k :: continuation k n end.

Definition utf8_length (n : Z) : nat :=
  if n <? limit 0 then 0 else if n <? limit 1 then 1 else if n <? limit 2 then 2
  else if n <? limit 3 then 3 else if n <? limit 4 then 4 else 5.

Definition utf8_encode (n : Z) : list Z := encode_in (utf8_length n) n.
Definition code_point (n : Z) : Prop := 0 ≤ n < 2 ^ 31.

Example limits : map limit [0; 1; 2; 3; 4; 5]%nat = [0x80; 0x800; 0x10000; 0x200000; 0x4000000; 0x80000000].
Proof. reflexivity. Qed.
Example leads : map lead [1; 2; 3; 4; 5]%nat = [0xc0; 0xe0; 0xf0; 0xf8; 0xfc].
Proof. reflexivity. Qed.

(** ** Bytes *)

(** A fact of all bytes holds when it holds of each. *)
Lemma all_bytes (P : Z → bool) : forallb P (map Z.of_nat (seq 0 256)) = true → ∀ c, is_byte c → P c = true.
Proof.
  intros H c Hc. rewrite forallb_forall in H. apply H, in_map_iff. exists (Z.to_nat c). unfold is_byte in Hc.
  split; [lia|]. apply in_seq. lia.
Qed.

Lemma continuation_byte c : is_byte c → (Z.land c 0xc0 =? 0x80) = (0x80 <=? c) && (c <? 0xc0).
Proof.
  intros Hc. apply eqb_prop. revert c Hc. apply all_bytes. reflexivity.
Qed.

(** What the first byte of a sequence announces: the number of continuation bytes
    and the mask on the first of them. *)
Definition announced (c : Z) : option (Z * Z) :=
  if c <? 0x80 then Some (0, 0)
  else if (0xc2 <=? c) && (c <? 0xe0) then Some (1, 0)
  else if (0xe0 <=? c) && (c <? 0xf0) then Some (2, if c =? 0xe0 then 0x20 else 0)
  else if (0xf0 <=? c) && (c <? 0xf8) then Some (3, if c =? 0xf0 then 0x30 else 0)
  else if (0xf8 <=? c) && (c <? 0xfc) then Some (4, if c =? 0xf8 then 0x38 else 0)
  else if (0xfc <=? c) && (c <? 0xfe) then Some (5, if c =? 0xfc then 0x3c else 0)
  else None.

Lemma loop_first c buf : is_byte c →
  utf8_loop 0 0 (c :: buf) = match announced c with Some (t, m) => utf8_loop t m buf | None => false end.
Proof.
  intros Hc. set (K := λ f : option (Z * Z), match f with Some (t, m) => utf8_loop t m buf | None => false end).
  pose (read := if Z.land c 0x80 =? 0 then Some (0, 0)
    else if Z.land c 0xe0 =? 0xc0 then (if negb (Z.land c 0x1e =? 0) then Some (1, 0) else None)
    else if Z.land c 0xf0 =? 0xe0 then Some (2, if Z.land c 0x0f =? 0 then 0x20 else 0)
    else if Z.land c 0xf8 =? 0xf0 then Some (3, if Z.land c 0x07 =? 0 then 0x30 else 0)
    else if Z.land c 0xfc =? 0xf8 then Some (4, if Z.land c 0x03 =? 0 then 0x38 else 0)
    else if Z.land c 0xfe =? 0xfc then Some (5, if Z.land c 0x01 =? 0 then 0x3c else 0)
    else None).
  transitivity (K read); [unfold read, K; cbn [utf8_loop Z.eqb negb]; by repeat case_match|].
  enough (read = announced c) as -> by done. apply (bool_decide_unpack _), Is_true_true. unfold read. clear read K.
  revert c Hc. apply all_bytes. by vm_compute.
Qed.

Lemma loop_next k m c buf : 0 < k → is_byte c →
  utf8_loop k m (c :: buf) =
    (0x80 <=? c) && (c <? 0xc0) && ((m =? 0) || negb (Z.land c m =? 0)) && utf8_loop (k - 1) 0 buf.
Proof.
  intros Hk Hc. cbn [utf8_loop]. rewrite (proj2 (Z.eqb_neq k 0)) by lia. cbn [negb]. rewrite continuation_byte by done.
  destruct ((0x80 <=? c) && (c <? 0xc0)); [|done]. destruct (Z.eqb_spec m 0) as [->|Hm]; [done|].
  cbn [negb orb andb]. by destruct (Z.land c m =? 0).
Qed.

(** ** Continuation bytes *)

Lemma continuation_high k x m : continuation k (x * 64 ^ Z.of_nat k + m) = continuation k m.
Proof.
  revert x m. induction k as [|k IH]; intros x m; [done|]. cbn [continuation].
  assert (Hp : 0 < 64 ^ Z.of_nat k) by (apply Z.pow_pos_nonneg; lia).
  replace (x * 64 ^ Z.of_nat (S k) + m) with (x * 64 * 64 ^ Z.of_nat k + m) by (rewrite Nat2Z.inj_succ, Z.pow_succ_r by lia; ring).
  rewrite IH. f_equal. f_equal. rewrite (Z.add_comm _ m), Z.div_add by lia. by rewrite Z.mod_add.
Qed.

Lemma continuation_cons k x m :
  0 ≤ x < 64 → 0 ≤ m < 64 ^ Z.of_nat k → continuation (S k) (x * 64 ^ Z.of_nat k + m) = 0x80 + x :: continuation k m.
Proof.
  intros Hx Hm. cbn [continuation]. rewrite continuation_high. f_equal. rewrite Z.div_add_l, (Z.div_small m) by lia.
  rewrite Z.mod_small; lia.
Qed.

Lemma loop_continuation k n rest : utf8_loop (Z.of_nat k) 0 (continuation k n ++ rest) = utf8_loop 0 0 rest.
Proof.
  induction k as [|k IH]; [done|]. cbn [continuation app].
  pose proof (Z.mod_pos_bound (n / 64 ^ Z.of_nat k) 64 ltac:(lia)) as Hm.
  rewrite loop_next by (unfold is_byte; lia). replace (Z.of_nat (S k) - 1) with (Z.of_nat k) by lia. rewrite IH.
  rewrite (proj2 (Z.leb_le _ _)), (proj2 (Z.ltb_lt _ _)) by lia. done.
Qed.

Lemma continuation_loop k buf :
  Forall is_byte buf → utf8_loop (Z.of_nat k) 0 buf = true →
  ∃ m rest, 0 ≤ m < 64 ^ Z.of_nat k ∧ buf = continuation k m ++ rest ∧ utf8_loop 0 0 rest = true.
Proof.
  revert buf. induction k as [|k IH]; intros buf Hb H; [by exists 0, buf|].
  destruct Hb as [|c buf Hc Hb]; [done|]. rewrite loop_next in H by (done || lia).
  apply andb_true_iff in H as [[[H1 H2]%andb_true_iff _]%andb_true_iff H].
  replace (Z.of_nat (S k) - 1) with (Z.of_nat k) in H by lia. destruct (IH buf Hb H) as (m & rest & Hm & -> & Hr).
  exists ((c - 0x80) * 64 ^ Z.of_nat k + m), rest. rewrite continuation_cons by lia. rewrite Nat2Z.inj_succ, Z.pow_succ_r by lia.
  split_and!; [nia..|simpl; f_equal; lia|done].
Qed.

(** ** Sequences *)

(** One case for each element of the list the hypothesis [H] is about. *)
Ltac each H := repeat (apply elem_of_cons in H as [->|H]); [..|by apply not_elem_of_nil in H].

(** The mask the source uses for the sequences whose first byte carries no bits. *)
Definition first_mask (k : nat) : Z := match k with 2%nat => 0x20 | 3%nat => 0x30 | 4%nat => 0x38 | 5%nat => 0x3c | _ => 0 end.

Lemma mask_bits k x : k ∈ [2; 3; 4; 5]%nat → 0 ≤ x < 64 → negb (Z.land (0x80 + x) (first_mask k) =? 0) = (2 ^ (7 - Z.of_nat k) <=? x).
Proof.
  intros Hk Hx. assert (H : ∀ c, is_byte c → implb ((0x80 <=? c) && (c <? 0xc0))
    (Bool.eqb (negb (Z.land c (first_mask k) =? 0)) (2 ^ (7 - Z.of_nat k) <=? c - 0x80)) = true).
  { each Hk; apply all_bytes; by vm_compute. }
  specialize (H (0x80 + x)). rewrite (proj2 (Z.leb_le _ _)), (proj2 (Z.ltb_lt _ _)) in H by lia. simpl in H.
  replace (0x80 + x - 0x80) with x in H by lia. apply eqb_prop, H. unfold is_byte. lia.
Qed.

(** The announcement of a first byte that carries the bits [x]. *)
Lemma announced_lead k x :
  k ∈ [1; 2; 3; 4; 5]%nat → 0 ≤ x < 2 ^ (6 - Z.of_nat k) → (k = 1%nat → 2 ≤ x) →
  is_byte (lead k + x) ∧ announced (lead k + x) = Some (Z.of_nat k, if x =? 0 then first_mask k else 0).
Proof.
  intros Hk Hx H1. assert (Hb : is_byte (lead k + x)) by (unfold is_byte, lead; each Hk; simpl in Hx |- *; lia). split; [done|].
  assert (H : ∀ c, is_byte c → implb ((lead k <=? c) && (c <? lead k + 2 ^ (6 - Z.of_nat k)) && (negb (k =? 1)%nat || (0xc2 <=? c)))
    (bool_decide (announced c = Some (Z.of_nat k, if c - lead k =? 0 then first_mask k else 0))) = true).
  { clear Hx H1 Hb. each Hk; apply all_bytes; by vm_compute. }
  specialize (H _ Hb). replace (lead k + x - lead k) with x in H by lia.
  rewrite (proj2 (Z.leb_le (lead k) _)), (proj2 (Z.ltb_lt _ _)) in H by lia.
  replace (negb (k =? 1)%nat || (0xc2 <=? lead k + x)) with true in H; [by apply bool_decide_eq_true in H|].
  symmetry. destruct (Nat.eqb_spec k 1) as [->|]; [|done]. specialize (H1 eq_refl). simpl orb. apply Z.leb_le. change (lead 1) with 192. lia.
Qed.

(** The sizes for the five kinds of sequences. *)
Lemma limits_of k : k ∈ [1; 2; 3; 4; 5]%nat →
  limit k = 2 ^ (6 - Z.of_nat k) * 64 ^ Z.of_nat k ∧ limit (pred k) ≤ 2 * 64 ^ Z.of_nat k ∧
  (k ≠ 1%nat → limit (pred k) = 2 ^ (7 - Z.of_nat k) * 64 ^ Z.of_nat (pred k) ∧ limit (pred k) ≤ 64 ^ Z.of_nat k ∧ 2 ^ (7 - Z.of_nat k) < 64) ∧
  0 < 64 ^ Z.of_nat (pred k) ∧ 64 ^ Z.of_nat k = 64 * 64 ^ Z.of_nat (pred k).
Proof. intros Hk. each Hk; vm_compute; intuition congruence. Qed.

Lemma loop_encode_in k n rest :
  k ∈ [1; 2; 3; 4; 5]%nat → limit (pred k) ≤ n < limit k → utf8_loop 0 0 (encode_in k n ++ rest) = utf8_loop 0 0 rest.
Proof.
  intros Hk Hn. destruct (limits_of k Hk) as (Hl & Hl1 & Hl2 & Hp & H64).
  assert (Hk' : ∃ j, k = S j ∧ (k ≠ 1%nat → k ∈ [2; 3; 4; 5]%nat)) by (each Hk; eexists; split; [done|set_solver..]).
  destruct Hk' as (j & Hj & Hk'). pose proof (Z.div_mod n (64 ^ Z.of_nat k) ltac:(lia)) as Hd.
  pose proof (Z.mod_pos_bound n (64 ^ Z.of_nat k) ltac:(lia)) as Hm.
  assert (0 ≤ limit (pred k)) by (unfold limit; destruct (pred k); [lia|apply Z.pow_nonneg; lia]).
  assert (Hx : 0 ≤ n / 64 ^ Z.of_nat k < 2 ^ (6 - Z.of_nat k)) by nia.
  destruct (announced_lead k (n / 64 ^ Z.of_nat k) Hk Hx) as [Hb Ha].
  { intros ->. simpl in *. lia. }
  assert (Henc : encode_in k n = lead k + n / 64 ^ Z.of_nat k :: continuation k n) by (by rewrite Hj).
  rewrite Henc. cbn [app]. rewrite loop_first, Ha by done. destruct (Z.eqb_spec (n / 64 ^ Z.of_nat k) 0) as [Hz|Hz]; [|apply loop_continuation].
  destruct (decide (k = 1%nat)) as [->|Hk1]; [apply loop_continuation|].
  destruct (Hl2 Hk1) as (E & _ & _). rewrite Hj in *. cbn [pred continuation app] in *.
  assert (Hsm : 2 ^ (7 - Z.of_nat (S j)) ≤ n / 64 ^ Z.of_nat j < 64).
  { split; [apply Z.div_le_lower_bound; lia|apply Z.div_lt_upper_bound; lia]. }
  pose proof (Z.pow_nonneg 2 (7 - Z.of_nat (S j)) ltac:(lia)).
  rewrite (Z.mod_small (n / _)) by lia. rewrite loop_next by (unfold is_byte; lia). rewrite mask_bits by (auto || lia).
  replace (Z.of_nat (S j) - 1) with (Z.of_nat j) by lia. rewrite loop_continuation.
  rewrite !(proj2 (Z.leb_le _ _)), (proj2 (Z.ltb_lt _ _)) by lia. by rewrite orb_true_r.
Qed.

Lemma encode_loop k x buf :
  k ∈ [1; 2; 3; 4; 5]%nat → 0 ≤ x < 2 ^ (6 - Z.of_nat k) → (k = 1%nat → 2 ≤ x) → Forall is_byte buf →
  utf8_loop (Z.of_nat k) (if x =? 0 then first_mask k else 0) buf = true →
  ∃ n rest, limit (pred k) ≤ n < limit k ∧ lead k + x :: buf = encode_in k n ++ rest ∧ utf8_loop 0 0 rest = true.
Proof.
  intros Hk Hx H1 Hb H. destruct (limits_of k Hk) as (Hl & Hl1 & Hl2 & Hp & H64).
  assert (Hk' : ∃ j, k = S j ∧ (k ≠ 1%nat → k ∈ [2; 3; 4; 5]%nat)) by (each Hk; eexists; split; [done|set_solver..]).
  destruct Hk' as (j & Hj & Hk').
  assert (Hm : ∃ m rest, 0 ≤ m < 64 ^ Z.of_nat k ∧ (x = 0 → limit (pred k) ≤ m) ∧ buf = continuation k m ++ rest ∧ utf8_loop 0 0 rest = true).
  { destruct (Z.eqb_spec x 0) as [->|Hx0].
    2: { destruct (continuation_loop k buf Hb H) as (m & rest & ? & ? & ?). exists m, rest. naive_solver. }
    destruct (decide (k = 1%nat)) as [->|Hk1]; [specialize (H1 eq_refl); lia|]. destruct (Hl2 Hk1) as (E & _ & _).
    destruct Hb as [|c buf Hc Hb]; [each Hk; done|]. rewrite loop_next in H by (done || lia).
    apply andb_true_iff in H as [[[Hc1 Hc2]%andb_true_iff Hmask]%andb_true_iff H].
    replace c with (0x80 + (c - 0x80)) in Hmask by lia.
    assert (Hf : (first_mask k =? 0) = false) by (specialize (Hk' Hk1); each Hk'; done). rewrite Hf in Hmask. cbn [orb] in Hmask.
    rewrite mask_bits in Hmask by (auto || lia). rewrite Hj in *. cbn [pred] in *. replace (Z.of_nat (S j) - 1) with (Z.of_nat j) in H by lia.
    destruct (continuation_loop j buf Hb H) as (m & rest & Hm & -> & Hr). exists ((c - 0x80) * 64 ^ Z.of_nat j + m), rest.
    rewrite continuation_cons by lia. rewrite H64, E. apply Z.leb_le in Hc1, Hmask. apply Z.ltb_lt in Hc2.
    clear - Hp Hm Hc1 Hc2 Hmask Hr. revert Hmask Hp Hm. generalize (64 ^ Z.of_nat j), (2 ^ (7 - Z.of_nat (S j))). intros p b Hmask Hp Hm.
    assert (b * p ≤ (c - 128) * p) by (apply Z.mul_le_mono_nonneg_r; lia).
    split_and!; [nia..|intros _; lia|simpl; f_equal; lia|done]. }
  destruct Hm as (m & rest & Hm & Hm0 & -> & Hr). exists (x * 64 ^ Z.of_nat k + m), rest. split_and!; [|rewrite Hl; nia| |done].
  - destruct (decide (x = 0)) as [->|]; [lia|].
    assert (Hmul : ∀ a, a ≤ x → a * 64 ^ Z.of_nat k ≤ x * 64 ^ Z.of_nat k) by (intros a Ha; apply Z.mul_le_mono_nonneg_r; lia).
    destruct (decide (k = 1%nat)) as [E|E]; [specialize (Hmul 2 (H1 E)); lia|].
    destruct (Hl2 E) as (_ & ? & _). specialize (Hmul 1 ltac:(lia)). lia.
  - assert (Henc : ∀ n, encode_in k n = lead k + n / 64 ^ Z.of_nat k :: continuation k n) by (intros n; by rewrite Hj).
    rewrite Henc, continuation_high, Z.div_add_l, (Z.div_small m) by lia. rewrite Z.add_0_r. done.
Qed.

Ltac limit_values :=
  cbn [pred] in *; change (limit 0) with 0x80 in *; change (limit 1) with 0x800 in *; change (limit 2) with 0x10000 in *;
  change (limit 3) with 0x200000 in *; change (limit 4) with 0x4000000 in *; change (limit 5) with 0x80000000 in *.

Lemma utf8_length_in k n : k ∈ [1; 2; 3; 4; 5]%nat → limit (pred k) ≤ n < limit k → utf8_length n = k ∧ code_point n.
Proof.
  intros Hk Hn. unfold utf8_length, code_point.
  each Hk; limit_values; (split; [repeat case_match; lia|lia]).
Qed.

Lemma code_point_in n : code_point n → n < 128 ∨ ∃ k, k ∈ [1; 2; 3; 4; 5]%nat ∧ limit (pred k) ≤ n < limit k.
Proof.
  intros Hn. destruct (decide (n < 128)); [by left|right]. unfold code_point in Hn.
  assert (∀ k, k ∈ [1; 2; 3; 4; 5]%nat → limit (pred k) ≤ n < limit k → ∃ k, k ∈ [1; 2; 3; 4; 5]%nat ∧ limit (pred k) ≤ n < limit k) as H by eauto.
  destruct (decide (n < limit 1)); [apply (H 1%nat); [set_solver|limit_values; lia]|].
  destruct (decide (n < limit 2)); [apply (H 2%nat); [set_solver|limit_values; lia]|].
  destruct (decide (n < limit 3)); [apply (H 3%nat); [set_solver|limit_values; lia]|].
  destruct (decide (n < limit 4)); [apply (H 4%nat); [set_solver|limit_values; lia]|].
  apply (H 5%nat); [set_solver|limit_values; lia].
Qed.

Lemma valid_encoded ns rest :
  Forall code_point ns → utf8_loop 0 0 (concat (map utf8_encode ns) ++ rest) = utf8_loop 0 0 rest.
Proof.
  induction 1 as [|n ns Hn Hns IH]; [done|]. cbn [map concat]. rewrite <- app_assoc.
  destruct (code_point_in n Hn) as [Hs|(k & Hk & Hl)].
  - unfold utf8_encode, utf8_length, code_point in *. rewrite (proj2 (Z.ltb_lt n (limit 0))) by done. cbn [encode_in app].
    rewrite loop_first by (unfold is_byte; lia). unfold announced. rewrite (proj2 (Z.ltb_lt n 0x80)) by done. done.
  - unfold utf8_encode. rewrite (proj1 (utf8_length_in k n Hk Hl)). by rewrite loop_encode_in.
Qed.

(** A byte that announces something starts a sequence of some kind. *)
Lemma announced_kinds c t m :
  is_byte c → announced c = Some (t, m) →
  (c < 0x80 ∧ t = 0 ∧ m = 0) ∨
  ∃ k x, k ∈ [1; 2; 3; 4; 5]%nat ∧ 0 ≤ x < 2 ^ (6 - Z.of_nat k) ∧ (k = 1%nat → 2 ≤ x) ∧ c = lead k + x ∧ t = Z.of_nat k ∧
    m = if x =? 0 then first_mask k else 0.
Proof.
  unfold is_byte. intros Hb H. pose proof H as H'. unfold announced in H.
  assert (K : ∀ k x, k ∈ [1; 2; 3; 4; 5]%nat → 0 ≤ x < 2 ^ (6 - Z.of_nat k) → (k = 1%nat → 2 ≤ x) → c = lead k + x →
    announced c = Some (t, m) → ∃ k x, k ∈ [1; 2; 3; 4; 5]%nat ∧ 0 ≤ x < 2 ^ (6 - Z.of_nat k) ∧ (k = 1%nat → 2 ≤ x) ∧ c = lead k + x ∧
    t = Z.of_nat k ∧ m = if x =? 0 then first_mask k else 0).
  { intros k x Hk Hx H1 -> Ha. destruct (announced_lead k x Hk Hx H1) as [_ E]. rewrite E in Ha. injection Ha as <- <-. eauto 10. }
  repeat case_match; try done; [left; simplify_eq; lia|right..];
    first
    [ (apply (K 1%nat (c - 0xc0)); [set_solver|change (2 ^ (6 - Z.of_nat 1)) with 32; lia|lia|change (lead 1) with 0xc0; lia|exact H'])
    | (apply (K 2%nat (c - 0xe0)); [set_solver|change (2 ^ (6 - Z.of_nat 2)) with 16; lia|lia|change (lead 2) with 0xe0; lia|exact H'])
    | (apply (K 3%nat (c - 0xf0)); [set_solver|change (2 ^ (6 - Z.of_nat 3)) with 8; lia|lia|change (lead 3) with 0xf0; lia|exact H'])
    | (apply (K 4%nat (c - 0xf8)); [set_solver|change (2 ^ (6 - Z.of_nat 4)) with 4; lia|lia|change (lead 4) with 0xf8; lia|exact H'])
    | (apply (K 5%nat (c - 0xfc)); [set_solver|change (2 ^ (6 - Z.of_nat 5)) with 2; lia|lia|change (lead 5) with 0xfc; lia|exact H']) ].
Qed.

Lemma valid_decodes bs :
  Forall is_byte bs → utf8_loop 0 0 bs = true → ∃ ns, Forall code_point ns ∧ bs = concat (map utf8_encode ns).
Proof.
  remember (length bs) as len eqn:Hlen. revert bs Hlen. induction len as [len IH] using lt_wf_ind. intros bs -> Hb H.
  destruct Hb as [|c bs Hc Hb]; [by exists []|]. rewrite loop_first in H by done.
  destruct (announced c) as [[t m]|] eqn:Ha; [|done].
  assert (Hseq : ∃ n rest, code_point n ∧ c :: bs = utf8_encode n ++ rest ∧ utf8_loop 0 0 rest = true).
  { apply announced_kinds in Ha as [(Hs & -> & ->)|(k & x & Hk & Hx & H1 & -> & -> & ->)]; [|..|done].
    - exists c, bs. unfold code_point, utf8_encode, utf8_length, is_byte in *. rewrite (proj2 (Z.ltb_lt c (limit 0))) by done.
      split_and!; [lia..|done|done].
    - destruct (encode_loop k x bs Hk Hx H1 Hb H) as (n & rest & Hn & E & Hr). exists n, rest.
      destruct (utf8_length_in k n Hk Hn) as [El Hcp]. unfold utf8_encode. rewrite El. split_and!; [apply Hcp..|done|done]. }
  destruct Hseq as (n & rest & Hn & E & Hr).
  destruct (IH (length rest)) with (bs := rest) as (ns & Hns & ->); [|done| |done|].
  - rewrite E, length_app. assert (0 < length (utf8_encode n))%nat; [|lia].
    unfold utf8_encode, encode_in. destruct (utf8_length n); simpl; lia.
  - assert (Hall : Forall is_byte (utf8_encode n ++ rest)) by (rewrite <- E; by constructor). by apply Forall_app in Hall as [_ ?].
  - exists (n :: ns). split; [by constructor|done].
Qed.

Lemma utf8_valid_app a b : utf8_valid a = true → utf8_valid b = true → utf8_valid (a ++ b) = true.
Proof.
  unfold utf8_valid. intros Ha Hb. apply valid_decodes in Ha as (ns & Hns & Ha).
  - by rewrite map_app, Ha, valid_encoded.
  - apply Forall_map. rewrite Forall_forall. intros c _. apply code_range.
Qed.

(** C24. A text is accepted exactly when it is the encoding, in UTF-8 as RFC 2279
    defines it, of a sequence of code points below 2^31: every sequence of bytes
    is complete and has the shortest form. *)
Theorem utf8_valid_iff (buf : list ascii) :
  utf8_valid buf = true ↔ ∃ ns, Forall code_point ns ∧ map code buf = concat (map utf8_encode ns).
Proof.
  unfold utf8_valid. split.
  - apply valid_decodes. apply Forall_map. rewrite Forall_forall. intros c _. apply code_range.
  - intros (ns & Hns & ->). rewrite <- (app_nil_r (concat _)), valid_encoded by done. done.
Qed.
