(* ===== verification/Hash.v ===== *)
(** * Chained hash tables: libwzd-base/hash.c

    A table is an array of buckets; a bucket is the functional list that
    list.c implements ([CList.list_rep]). An entry keeps the address it was
    allocated at, because [chtbl_remove] confuses the entry with one of its
    fields. [HashKeys] states what the table needs of its hash and comparison
    functions; the theorems are proved against it and the string functions
    used by the server are an instance. *)

From S2P Require Import Prelude CList.

(** ** The hash function for strings *)

Definition hash_str_step (hashval : Z) (c : ascii) : Z := u32 (scode c * 7 + hashval) mod 781.
Definition hash_str (key : list ascii) : Z := fold_left hash_str_step key 0.

(** ** What a table needs of its keys *)

Class HashKeys {K : Type} (h : option K → Z) (m : option K → option K → Z) : Prop := {
  hk_refl k : m k k = 0;
  hk_sym k1 k2 : m k1 k2 = 0 → m k2 k1 = 0;
  hk_trans k1 k2 k3 : m k1 k2 = 0 → m k2 k3 = 0 → m k1 k3 = 0;
  hk_hash k1 k2 : m k1 k2 = 0 → h k1 = h k2 }.

Section chtbl.
  (** [K] and [V]: what keys and data point to; [T]: trigger functions. *)
  Context {K V T : Type}.
  Abbreviation key_t := (option K).

Record CHTBL_Elmnt := mkEntry {
  en_addr : addr;               (* where malloc placed the entry *)
  en_key : key_t;
  en_data : option V;
  en_trigger : option T;
  en_free_key : bool;           (* free_key != NULL *)
  en_free_element : bool }.

Record CHTBL := mkTbl {
  containers : Z;
  hfun : key_t → Z;
  hmatch : key_t → key_t → Z;
  tfree : bool;
  tsize : Z;
  table : list (list (option CHTBL_Elmnt)) }.

  (** Calls the table makes to its clients' functions and to the allocator. *)
Inductive tbl_event :=
  | CallTrigger (f : T) (key : key_t) (data : option V)
  | FreeKey (key : key_t)       (* free_key(key) *)
  | FreeKeyEntry (e : addr)     (* free_key called with the address of the entry *)
  | FreeElement (data : option V)
  | FreeEntry (e : addr).       (* destroy(entry), that is free(entry) *)

Definition chtbl_init (malloc_ok : bool) (n : Z) (h : key_t → Z) (m : key_t → key_t → Z)
    (ffree : bool) : Z * option CHTBL :=
  if malloc_ok then (0, Some (mkTbl n h m ffree 0 (replicate (Z.to_nat n) [])))
  else (-1, None).

  (** [htab->h(key) % htab->containers] *)
Definition bucket_index (t : CHTBL) (key : key_t) : outcome nat :=
  if containers t =? 0 then Crash else Val (Z.to_nat (u32 (hfun t key) mod containers t)).

  (** The search loop shared by the operations: the position and the entry
      found, or the reason why the loop stopped. *)
Inductive scan_result :=
  | Found (i : nat) (e : CHTBL_Elmnt)
  | NullEntry
  | NotFound.

Fixpoint scan (m : key_t → key_t → Z) (key : key_t) (b : list (option CHTBL_Elmnt)) : scan_result :=
  match b with
  | [] => NotFound
  | None :: _ => NullEntry
  | Some e :: b =>
    if m key (en_key e) =? 0 then Found 0 e else
    match scan m key b with Found i e => Found (S i) e | r => r end
  end.

Definition set_bucket (t : CHTBL) (i : nat) (b : list (option CHTBL_Elmnt)) (size : Z) : CHTBL :=
  mkTbl (containers t) (hfun t) (hmatch t) (tfree t) size (<[i := b]> (table t)).

Definition chtbl_lookup (t : CHTBL) (key : key_t) : outcome (Z * option (option V)) :=
  match key with
  | None => Val (-1, None)
  | Some _ =>
    i ← bucket_index t key;
    b ← deref (table t !! i);
    Val match scan (hmatch t) key b with
        | Found _ e => (0, Some (en_data e))
        | NullEntry => (-1, None)
        | NotFound => (1, None)
        end
  end.

  (** [entry]: result of [malloc] for the entry; [node_ok]: whether
      [list_ins_next] could allocate its cell. *)
Definition chtbl_insert (entry : option addr) (node_ok : bool) (t : CHTBL) (key : key_t)
    (data : option V) (fcn : option T) (free_key free_element : bool) : outcome (Z * CHTBL) :=
  '(r, _) ← chtbl_lookup t key;
  if r =? 0 then Val (1, t) else
  i ← bucket_index t key;
  a ← deref entry;
  b ← deref (table t !! i);
  if node_ok then
    Val (0, set_bucket t i (Some (mkEntry a key data fcn free_key free_element) :: b) (tsize t + 1))
  else Val (-1, t).

  (** The call to [list_rem_next] passes [entry] itself as the place for the
      removed datum. The address of the entry thus lands in the first field
      of the entry, its key, and [free_key] is then called on that. *)
Definition chtbl_remove (t : CHTBL) (key : key_t) : outcome (Z * CHTBL * list tbl_event) :=
  i ← bucket_index t key;
  b ← deref (table t !! i);
  match scan (hmatch t) key b with
  | Found j e =>
    Val (0, set_bucket t i (delete j b) (tsize t - 1),
         (if en_free_key e then [FreeKeyEntry (en_addr e)] else []) ++
         (if en_free_element e then [FreeElement (en_data e)] else []) ++
         [FreeEntry (en_addr e)])
  | _ => Val (-1, t, [])
  end.

Definition with_data (e : CHTBL_Elmnt) (d : option V) : CHTBL_Elmnt :=
  mkEntry (en_addr e) (en_key e) d (en_trigger e) (en_free_key e) (en_free_element e).

Definition chtbl_change (t : CHTBL) (key : key_t) (data : option V)
    : outcome (Z * CHTBL * list tbl_event) :=
  i ← bucket_index t key;
  b ← deref (table t !! i);
  match scan (hmatch t) key b with
  | NullEntry => Val (-1, t, [])
  | NotFound => Val (1, t, [])
  | Found j e =>
    let e1 := match data with Some _ => with_data e data | None => e end in
    Val (0, set_bucket t i (<[j := Some e1]> b) (tsize t),
         match en_trigger e1 with
         | Some f => [CallTrigger f (en_key e1) (en_data e1)]
         | None => []
         end)
  end.

Definition chtbl_insert_or_change (entry : option addr) (node_ok : bool) (t : CHTBL) (key : key_t)
    (data : option V) (fcn : option T) (free_key free_element : bool)
    : outcome (Z * CHTBL * list tbl_event) :=
  '(r, t1) ← chtbl_insert entry node_ok t key data fcn free_key free_element;
  if negb (r =? 0) then chtbl_change t1 key data else Val (0, t1, []).

  (** Emptying one bucket from its head, then the next one. *)
Fixpoint destroy_bucket (b : list (option CHTBL_Elmnt)) : outcome (list tbl_event) :=
  match b with
  | [] => Val []
  | oe :: b =>
    e ← deref oe;
    evs ← destroy_bucket b;
    Val ((if en_free_key e then [FreeKey (en_key e)] else []) ++
         (if en_free_element e then [FreeElement (en_data e)] else []) ++
         FreeEntry (en_addr e) :: evs)
  end.

Fixpoint destroy_buckets (bs : list (list (option CHTBL_Elmnt))) : outcome (list tbl_event) :=
  match bs with
  | [] => Val []
  | b :: bs => evs ← destroy_bucket b; evs' ← destroy_buckets bs; Val (evs ++ evs')
  end.

Definition chtbl_destroy (t : CHTBL) : outcome (CHTBL * list tbl_event) :=
  evs ← destroy_buckets (take (Z.to_nat (containers t)) (table t));
  Val (mkTbl 0 (hfun t) (hmatch t) false 0 [], evs).

  (** [chtbl_search]: here a non-zero result of [match] on the data is a hit. *)
Fixpoint search_bucket (mt : V → bool) (b : list (option CHTBL_Elmnt)) : option V :=
  match b with
  | [] => None
  | Some e :: b =>
    match en_data e with
    | Some d => if mt d then Some d else search_bucket mt b
    | None => search_bucket mt b
    end
  | None :: b => search_bucket mt b
  end.

Definition chtbl_search (t : CHTBL) (mt : V → bool) : Z * option V :=
  match omap (search_bucket mt) (take (Z.to_nat (containers t)) (table t)) with
  | d :: _ => (0, Some d)
  | [] => (1, None)
  end.

  (** [_h_list_ins_sorted]: the same loop as [list_ins_sorted], on the keys. *)
Definition _h_list_ins_sorted (sort : key_t → key_t → Z) (e : CHTBL_Elmnt) (l : list CHTBL_Elmnt)
    : list CHTBL_Elmnt :=
  ins_sorted (λ y x, 0 <? sort (en_key y) (en_key x))
             (λ y x, sort (en_key y) (en_key x) <? 0) e l.

  (** Entries in table order that pass the filter ([match(key,arg)==0]). *)
Definition tbl_entries (t : CHTBL) : list CHTBL_Elmnt :=
  omap id (concat (take (Z.to_nat (containers t)) (table t))).

Definition chtbl_extract (t : CHTBL) (mt : option (key_t → Z)) (sort : option (key_t → key_t → Z))
    : list (option V) :=
  let keep e := match mt with None => true | Some f => f (en_key e) =? 0 end in
  match sort with
  | Some s =>
    en_data <$> fold_left (λ acc e, if keep e then _h_list_ins_sorted s e acc else acc) (tbl_entries t) []
  | None =>
    fold_left (λ acc e, if keep e then acc ++ [en_data e] else acc) (tbl_entries t) []
  end.

(** ** Representation invariant *)

Definition idx (t : CHTBL) (key : key_t) : nat := Z.to_nat (u32 (hfun t key) mod containers t).

Definition differ (t : CHTBL) (a b : CHTBL_Elmnt) : Prop := hmatch t (en_key a) (en_key b) ≠ 0.

(** The buckets of [t] hold the entries [tt]: no null datum in a bucket, every
    entry in the bucket of its hash, no two entries with matching keys, the
    right number of buckets and the right size. *)
Record chtbl_rep (t : CHTBL) (tt : list (list CHTBL_Elmnt)) : Prop := {
  rep_keys : HashKeys (hfun t) (hmatch t);
  rep_table : table t = (λ es : list CHTBL_Elmnt, Some <$> es) <$> tt;
  rep_pos : 0 < containers t;
  rep_length : length tt = Z.to_nat (containers t);
  rep_place i es e : tt !! i = Some es → e ∈ es → idx t (en_key e) = i;
  rep_differ i es : tt !! i = Some es → StronglySorted (differ t) es;
  rep_size : tsize t = Z.of_nat (length (concat tt)) }.

(** Searching a bucket. *)
Definition hit (t : CHTBL) (key : key_t) (e : CHTBL_Elmnt) : bool := hmatch t key (en_key e) =? 0.

Lemma scan_spec m key es :
  match scan m key (Some <$> es) with
  | Found i e => es !! i = Some e ∧ m key (en_key e) = 0 ∧ ∀ e', e' ∈ take i es → m key (en_key e') ≠ 0
  | NullEntry => False
  | NotFound => ∀ e', e' ∈ es → m key (en_key e') ≠ 0
  end.
Proof.
  induction es as [|e es IH]; csimpl; [by intros e' He%elem_of_nil|].
  destruct (Z.eqb_spec (m key (en_key e)) 0).
  - split_and!; [done..|]. intros e' He. by apply elem_of_nil in He.
  - destruct (scan m key (Some <$> es)) as [i e'| |]; [|done|].
    + destruct IH as (? & ? & IH). split_and!; [done..|].
      intros f [->|Hf]%elem_of_cons; [done|by apply IH].
    + intros f [->|Hf]%elem_of_cons; [done|by apply IH].
Qed.

Lemma bucket_index_idx t tt key : chtbl_rep t tt → bucket_index t key = Val (idx t key).
Proof.
  intros Hr. unfold bucket_index. pose proof (rep_pos _ _ Hr).
  by replace (containers t =? 0) with false by (symmetry; apply Z.eqb_neq; lia).
Qed.

Lemma idx_lt t tt key : chtbl_rep t tt → (idx t key < length tt)%nat.
Proof.
  intros Hr. rewrite (rep_length _ _ Hr). unfold idx. pose proof (rep_pos _ _ Hr).
  pose proof (Z.mod_pos_bound (u32 (hfun t key)) (containers t)). lia.
Qed.

Lemma rep_bucket t tt key :
  chtbl_rep t tt → ∃ es, tt !! idx t key = Some es ∧ table t !! idx t key = Some (Some <$> es).
Proof.
  intros Hr. destruct (lookup_lt_is_Some_2 tt (idx t key)) as [es Hes]; [by eapply idx_lt|].
  exists es. split; [done|]. by rewrite (rep_table _ _ Hr), list_lookup_fmap, Hes.
Qed.

(** The abstract value of the table: the entry bound to a key. *)
Definition tbl_get (t : CHTBL) (tt : list (list CHTBL_Elmnt)) (key : key_t) : option CHTBL_Elmnt :=
  List.find (hit t key) (default [] (tt !! idx t key)).

Lemma chtbl_lookup_get t tt k :
  chtbl_rep t tt →
  chtbl_lookup t (Some k) =
    Val match tbl_get t tt (Some k) with Some e => (0, Some (en_data e)) | None => (1, None) end.
Proof.
  intros Hr. unfold chtbl_lookup, tbl_get. rewrite (bucket_index_idx _ _ _ Hr). simpl.
  destruct (rep_bucket t tt (Some k) Hr) as (es & -> & ->). simpl. f_equal.
  clear Hr. unfold hit. induction es as [|e es IH]; csimpl; [done|].
  destruct (hmatch t (Some k) (en_key e) =? 0); [done|]. rewrite <- IH.
  by destruct (scan _ _ _).
Qed.

Lemma find_hit_None t key es : List.find (hit t key) es = None ↔ ∀ e, e ∈ es → hmatch t key (en_key e) ≠ 0.
Proof.
  rewrite <- Forall_forall. induction es as [|e es IH]; simpl; [done|]. unfold hit at 1.
  rewrite Forall_cons, <- IH. destruct (Z.eqb_spec (hmatch t key (en_key e)) 0); naive_solver.
Qed.

(** In a bucket without matching keys an entry is found by its key. *)
Lemma find_hit_Some t key es e :
  HashKeys (hfun t) (hmatch t) → StronglySorted (differ t) es →
  e ∈ es → hmatch t key (en_key e) = 0 → List.find (hit t key) es = Some e.
Proof.
  intros HK Hs. induction Hs as [|x es Hs IH Hx]; [set_solver|]. simpl. unfold hit at 1.
  intros He Hm. destruct (Z.eqb_spec (hmatch t key (en_key x)) 0) as [E|E].
  - apply elem_of_cons in He as [->|He]; [done|]. rewrite Forall_forall in Hx.
    exfalso. apply (Hx e He). eapply hk_trans; [|done]. by apply hk_sym.
  - apply elem_of_cons in He as [->|He]; [done|]. by apply IH.
Qed.

(** Two ways to be found in the same place. *)
Lemma idx_match t key key' :
  HashKeys (hfun t) (hmatch t) → hmatch t key key' = 0 → idx t key = idx t key'.
Proof. intros HK Hm. unfold idx. by rewrite (hk_hash key key'). Qed.

Lemma length_concat_insert (tt : list (list CHTBL_Elmnt)) i es es' :
  tt !! i = Some es →
  (length (concat (<[i := es']> tt)) + length es = length (concat tt) + length es')%nat.
Proof.
  revert i. induction tt as [|x tt IH]; intros [|i] Hi; simplify_eq/=; rewrite !length_app; [lia|].
  specialize (IH i Hi). lia.
Qed.

(** Replacing one bucket by one with the right entries keeps the invariant. *)
Lemma chtbl_rep_set_bucket t tt i es es' sz :
  chtbl_rep t tt → tt !! i = Some es →
  (∀ e, e ∈ es' → idx t (en_key e) = i) → StronglySorted (differ t) es' →
  sz + Z.of_nat (length es) = tsize t + Z.of_nat (length es') →
  chtbl_rep (set_bucket t i (Some <$> es') sz) (<[i := es']> tt).
Proof.
  intros Hr Hi Hpl Hd Hsz. pose proof (lookup_lt_Some _ _ _ Hi) as Hlt.
  assert (Hcase : ∀ j fs, <[i:=es']> tt !! j = Some fs → j = i ∧ fs = es' ∨ j ≠ i ∧ tt !! j = Some fs).
  { intros j fs. destruct (decide (i = j)) as [->|Hne].
    - rewrite list_lookup_insert_eq by done. naive_solver.
    - rewrite list_lookup_insert_ne by done. naive_solver. }
  split; simpl.
  - apply (rep_keys _ _ Hr).
  - by rewrite (rep_table _ _ Hr), list_fmap_insert.
  - apply (rep_pos _ _ Hr).
  - by rewrite length_insert, (rep_length _ _ Hr).
  - intros j fs e [[-> ->]|[_ Hj]]%Hcase He; [by apply Hpl|]. by eapply (rep_place _ _ Hr).
  - intros j fs [[-> ->]|[_ Hj]]%Hcase; [done|]. by eapply (rep_differ _ _ Hr).
  - pose proof (length_concat_insert tt i es es' Hi). rewrite (rep_size _ _ Hr) in Hsz. lia.
Qed.

Lemma tbl_get_set_bucket t tt i es' sz key :
  (i < length tt)%nat →
  tbl_get (set_bucket t i (Some <$> es') sz) (<[i := es']> tt) key =
    if decide (idx t key = i) then List.find (hit t key) es' else tbl_get t tt key.
Proof.
  intros Hlt. unfold tbl_get. change (idx (set_bucket t i (Some <$> es') sz) key) with (idx t key).
  change (hit (set_bucket t i (Some <$> es') sz) key) with (hit t key).
  case_decide as E.
  - by rewrite E, list_lookup_insert_eq.
  - by rewrite list_lookup_insert_ne.
Qed.

(** *** Insertion *)

Lemma chtbl_insert_present t tt a ok k d f fk fe e :
  chtbl_rep t tt → tbl_get t tt (Some k) = Some e →
  chtbl_insert a ok t (Some k) d f fk fe = Val (1, t).
Proof.
  intros Hr Hg. unfold chtbl_insert. by rewrite (chtbl_lookup_get _ _ _ Hr), Hg.
Qed.

Lemma chtbl_insert_rep t tt a k d f fk fe :
  chtbl_rep t tt → tbl_get t tt (Some k) = None →
  ∃ t' tt', chtbl_insert (Some a) true t (Some k) d f fk fe = Val (0, t') ∧
    chtbl_rep t' tt' ∧ hmatch t' = hmatch t ∧ tsize t' = tsize t + 1 ∧
    ∀ key, tbl_get t' tt' key =
      if hmatch t key (Some k) =? 0 then Some (mkEntry a (Some k) d f fk fe) else tbl_get t tt key.
Proof.
  intros Hr Hg. unfold chtbl_insert. rewrite (chtbl_lookup_get _ _ _ Hr), Hg. simpl.
  rewrite (bucket_index_idx _ _ _ Hr). simpl.
  destruct (rep_bucket t tt (Some k) Hr) as (es & Hes & Htbl). rewrite Htbl. simpl.
  set (e := mkEntry a (Some k) d f fk fe). pose proof (rep_keys _ _ Hr) as HK.
  unfold tbl_get in Hg. rewrite Hes in Hg. simpl in Hg.
  pose proof (proj1 (find_hit_None _ _ _) Hg) as Hno.
  eexists _, (<[idx t (Some k) := e :: es]> tt). split; [done|]. split_and!; [|done..|].
  - apply (chtbl_rep_set_bucket t tt _ es (e :: es)); [done..| | |simpl; lia].
    + intros e' [->|He]%elem_of_cons; [done|]. by eapply (rep_place _ _ Hr).
    + constructor; [by eapply (rep_differ _ _ Hr)|]. rewrite Forall_forall. intros e' He. by apply Hno.
  - intros key. change (Some e :: (Some <$> es)) with (Some <$> (e :: es)).
    rewrite tbl_get_set_bucket by (by eapply lookup_lt_Some). simpl. unfold hit at 1. simpl.
    destruct (Z.eqb_spec (hmatch t key (Some k)) 0) as [Hm|Hm].
    + by rewrite decide_True by (by apply idx_match).
    + case_decide as E; [|done]. unfold tbl_get. by rewrite E, Hes.
Qed.

(** *** Removal and change *)

(** Where a bound key sits in its bucket. *)
Lemma tbl_get_scan t tt key e :
  chtbl_rep t tt → tbl_get t tt key = Some e →
  ∃ es1 es2, tt !! idx t key = Some (es1 ++ e :: es2) ∧ hmatch t key (en_key e) = 0 ∧
    scan (hmatch t) key (Some <$> (es1 ++ e :: es2)) = Found (length es1) e ∧
    List.find (hit t key) es1 = None.
Proof.
  intros Hr Hg. destruct (rep_bucket t tt key Hr) as (es & Hes & _). unfold tbl_get in Hg.
  rewrite Hes in Hg. simpl in Hg. rewrite Hes. clear Hes Hr tt.
  enough (∃ es1 es2, es = es1 ++ e :: es2 ∧ hmatch t key (en_key e) = 0 ∧
    scan (hmatch t) key (Some <$> es) = Found (length es1) e ∧ List.find (hit t key) es1 = None)
    as (es1 & es2 & -> & ? & ? & ?) by (by exists es1, es2).
  induction es as [|x es IH]; [done|]. csimpl. simpl in Hg. unfold hit in Hg at 1.
  destruct (Z.eqb_spec (hmatch t key (en_key x)) 0).
  - simplify_eq. by exists [], es.
  - destruct (IH Hg) as (es1 & es2 & -> & ? & -> & Hf). exists (x :: es1), es2.
    split_and!; [done..|]. simpl. unfold hit at 1.
    by replace (_ =? 0) with false by (symmetry; by apply Z.eqb_neq).
Qed.

Lemma tbl_get_None_scan t tt key :
  chtbl_rep t tt → tbl_get t tt key = None →
  ∃ es, tt !! idx t key = Some es ∧ scan (hmatch t) key (Some <$> es) = NotFound.
Proof.
  intros Hr Hg. destruct (rep_bucket t tt key Hr) as (es & Hes & _). unfold tbl_get in Hg.
  rewrite Hes in Hg. simpl in Hg. exists es. split; [done|]. clear Hes Hr.
  induction es as [|x es IH]; [done|]. csimpl. simpl in Hg. unfold hit in Hg at 1.
  destruct (hmatch t key (en_key x) =? 0); [done|]. by rewrite IH.
Qed.

(** The entries beside [e] in its bucket do not match its key. *)
Lemma beside_no_hit t es1 e es2 key :
  HashKeys (hfun t) (hmatch t) → StronglySorted (differ t) (es1 ++ e :: es2) →
  hmatch t key (en_key e) = 0 → List.find (hit t key) (es1 ++ es2) = None.
Proof.
  intros HK (Hs & H1 & H2)%StronglySorted_mid Hm.
  rewrite Forall_forall in H1. rewrite Forall_forall in H2.
  apply find_hit_None. intros x [Hx|Hx]%elem_of_app Hk.
  - apply (H1 x Hx). eapply hk_trans; [|done]. by apply hk_sym.
  - apply (H2 x Hx). eapply hk_trans; [by apply hk_sym|done].
Qed.

Lemma chtbl_remove_rep t tt key e :
  chtbl_rep t tt → tbl_get t tt key = Some e →
  ∃ t' tt' evs, chtbl_remove t key = Val (0, t', evs) ∧
    evs = (if en_free_key e then [FreeKeyEntry (en_addr e)] else []) ++
          (if en_free_element e then [FreeElement (en_data e)] else []) ++ [FreeEntry (en_addr e)] ∧
    chtbl_rep t' tt' ∧ hmatch t' = hmatch t ∧ tsize t' = tsize t - 1 ∧
    ∀ key', tbl_get t' tt' key' = if hmatch t key' key =? 0 then None else tbl_get t tt key'.
Proof.
  intros Hr Hg. destruct (tbl_get_scan _ _ _ _ Hr Hg) as (es1 & es2 & Hes & Hm & Hsc & Hf).
  pose proof (rep_keys _ _ Hr) as HK. pose proof (rep_differ _ _ Hr _ _ Hes) as Hs.
  unfold chtbl_remove. rewrite (bucket_index_idx _ _ _ Hr). simpl.
  rewrite (rep_table _ _ Hr), list_lookup_fmap, Hes. simpl. rewrite Hsc.
  assert (Hdel : delete (length es1) (Some <$> (es1 ++ e :: es2)) = Some <$> (es1 ++ es2)).
  { rewrite <- list_fmap_delete. f_equal. by apply delete_middle. }
  rewrite Hdel. eexists _, (<[idx t key := es1 ++ es2]> tt), _. split; [done|].
  split_and!; [done| |done..|].
  - eapply chtbl_rep_set_bucket; [done..| | |rewrite !length_app; simpl; lia].
    + intros x Hx. eapply (rep_place _ _ Hr); [done|]. set_solver.
    + by apply StronglySorted_mid in Hs as [? _].
  - intros key'. rewrite tbl_get_set_bucket by (by eapply lookup_lt_Some).
    destruct (Z.eqb_spec (hmatch t key' key) 0) as [Hk|Hk].
    + rewrite decide_True by (by apply idx_match). eapply beside_no_hit; [done..|].
      by eapply hk_trans.
    + case_decide as E; [|done]. unfold tbl_get. rewrite E, Hes. simpl. rewrite find_mid_skip; [done|].
      apply Z.eqb_neq. intros Hke. apply Hk. eapply hk_trans; [done|]. by apply hk_sym.
Qed.

Lemma chtbl_remove_absent t tt key :
  chtbl_rep t tt → tbl_get t tt key = None → chtbl_remove t key = Val (-1, t, []).
Proof.
  intros Hr Hg. destruct (tbl_get_None_scan _ _ _ Hr Hg) as (es & Hes & Hsc).
  unfold chtbl_remove. rewrite (bucket_index_idx _ _ _ Hr). simpl.
  by rewrite (rep_table _ _ Hr), list_lookup_fmap, Hes; simpl; rewrite Hsc.
Qed.

Lemma chtbl_change_rep t tt key d e :
  chtbl_rep t tt → tbl_get t tt key = Some e →
  let e1 := match d with Some _ => with_data e d | None => e end in
  ∃ t' tt' evs, chtbl_change t key d = Val (0, t', evs) ∧
    evs = match en_trigger e with Some f => [CallTrigger f (en_key e) (en_data e1)] | None => [] end ∧
    chtbl_rep t' tt' ∧ hmatch t' = hmatch t ∧ tsize t' = tsize t ∧
    ∀ key', tbl_get t' tt' key' = if hmatch t key' key =? 0 then Some e1 else tbl_get t tt key'.
Proof.
  intros Hr Hg e1. destruct (tbl_get_scan _ _ _ _ Hr Hg) as (es1 & es2 & Hes & Hm & Hsc & Hf).
  pose proof (rep_keys _ _ Hr) as HK. pose proof (rep_differ _ _ Hr _ _ Hes) as Hs.
  assert (Hkey : en_key e1 = en_key e) by (subst e1; by destruct d).
  assert (Htr : en_trigger e1 = en_trigger e) by (subst e1; by destruct d).
  unfold chtbl_change. rewrite (bucket_index_idx _ _ _ Hr). simpl.
  rewrite (rep_table _ _ Hr), list_lookup_fmap, Hes. simpl. rewrite Hsc. fold e1.
  assert (Hupd : <[length es1 := Some e1]> (Some <$> (es1 ++ e :: es2)) = Some <$> (es1 ++ e1 :: es2)).
  { rewrite <- list_fmap_insert. f_equal. rewrite <- (Nat.add_0_r (length es1)). by rewrite insert_app_r. }
  rewrite Hupd, Htr, Hkey. eexists _, (<[idx t key := es1 ++ e1 :: es2]> tt), _. split; [done|].
  split_and!; [done| |done..|].
  - eapply chtbl_rep_set_bucket; [done..| | |rewrite !length_app; simpl; lia].
    + intros x Hx. assert (x = e1 ∨ x ∈ es1 ++ e :: es2) as [->|Hx'] by set_solver.
      * rewrite Hkey. eapply (rep_place _ _ Hr); [done|]. set_solver.
      * by eapply (rep_place _ _ Hr).
    + apply StronglySorted_mid in Hs as (? & Hs1 & Hs2). apply StronglySorted_mid.
      unfold differ in *. by rewrite Hkey.
  - intros key'. rewrite tbl_get_set_bucket by (by eapply lookup_lt_Some).
    destruct (Z.eqb_spec (hmatch t key' key) 0) as [Hk|Hk].
    + rewrite decide_True by (by apply idx_match). assert (hmatch t key' (en_key e) = 0) by (by eapply hk_trans).
      apply find_mid_hit; [|apply Z.eqb_eq; by rewrite Hkey].
      apply find_hit_None. pose proof (beside_no_hit t es1 e es2 key' HK Hs ltac:(done)) as Hno.
      intros x Hx. apply (proj1 (find_hit_None t key' (es1 ++ es2)) Hno). set_solver.
    + case_decide as E; [|done]. unfold tbl_get. rewrite E, Hes. simpl.
      assert (hmatch t key' (en_key e) ≠ 0).
      { intros Hke. apply Hk. eapply hk_trans; [done|]. by apply hk_sym. }
      rewrite !find_mid_skip; [done|by apply Z.eqb_neq|apply Z.eqb_neq; by rewrite Hkey].
Qed.

(** *** Reachable tables *)

(** One completed call of an operation that changes the table, with a non-null
    key and any outcome of the allocations. *)
Inductive tbl_step : CHTBL → CHTBL → Prop :=
  | step_insert t t' a ok k d f fk fe r :
      chtbl_insert a ok t (Some k) d f fk fe = Val (r, t') → tbl_step t t'
  | step_remove t t' k r evs : chtbl_remove t (Some k) = Val (r, t', evs) → tbl_step t t'
  | step_change t t' k d r evs : chtbl_change t (Some k) d = Val (r, t', evs) → tbl_step t t'
  | step_insert_or_change t t' a ok k d f fk fe r evs :
      chtbl_insert_or_change a ok t (Some k) d f fk fe = Val (r, t', evs) → tbl_step t t'.

Lemma chtbl_insert_inv t tt a ok k d f fk fe r t' :
  chtbl_rep t tt → chtbl_insert a ok t (Some k) d f fk fe = Val (r, t') → ∃ tt', chtbl_rep t' tt'.
Proof.
  intros Hr Hi. destruct (tbl_get t tt (Some k)) as [e|] eqn:Hg.
  - erewrite chtbl_insert_present in Hi by done. simplify_eq. eauto.
  - destruct ok, a as [a|].
    + destruct (chtbl_insert_rep t tt a k d f fk fe Hr Hg) as (t1 & tt1 & Hi' & ? & _).
      rewrite Hi' in Hi. simplify_eq. eauto.
    + unfold chtbl_insert in Hi. rewrite (chtbl_lookup_get _ _ _ Hr), Hg in Hi. simpl in Hi.
      by destruct (bucket_index t (Some k)).
    + unfold chtbl_insert in Hi. rewrite (chtbl_lookup_get _ _ _ Hr), Hg in Hi. simpl in Hi.
      destruct (bucket_index t (Some k)); [|done]. simpl in Hi.
      destruct (table t !! a0); simplify_eq/=. eauto.
    + unfold chtbl_insert in Hi. rewrite (chtbl_lookup_get _ _ _ Hr), Hg in Hi. simpl in Hi.
      by destruct (bucket_index t (Some k)).
Qed.

Lemma chtbl_change_inv t tt k d r evs t' :
  chtbl_rep t tt → chtbl_change t (Some k) d = Val (r, t', evs) → ∃ tt', chtbl_rep t' tt'.
Proof.
  intros Hr Hi. destruct (tbl_get t tt (Some k)) as [e|] eqn:Hg.
  - destruct (chtbl_change_rep _ _ _ d _ Hr Hg) as (t1 & tt1 & evs1 & Hc & _ & ? & _).
    rewrite Hc in Hi. simplify_eq. eauto.
  - destruct (tbl_get_None_scan _ _ _ Hr Hg) as (es & Hes & Hsc). unfold chtbl_change in Hi.
    rewrite (bucket_index_idx _ _ _ Hr) in Hi. simpl in Hi.
    rewrite (rep_table _ _ Hr), list_lookup_fmap, Hes in Hi. simpl in Hi. rewrite Hsc in Hi.
    simplify_eq. eauto.
Qed.

Lemma tbl_step_rep t t' tt : tbl_step t t' → chtbl_rep t tt → ∃ tt', chtbl_rep t' tt'.
Proof.
  intros Hstep Hr. destruct Hstep as [????????? r Hi|t t' k r evs Hi| |????????? r evs Hi].
  - by eapply chtbl_insert_inv.
  - destruct (tbl_get t tt (Some k)) as [e|] eqn:Hg.
    + destruct (chtbl_remove_rep _ _ _ _ Hr Hg) as (t1 & tt1 & evs1 & Hc & _ & ? & _).
      rewrite Hc in Hi. simplify_eq. eauto.
    + rewrite (chtbl_remove_absent _ _ _ Hr Hg) in Hi. simplify_eq. eauto.
  - by eapply chtbl_change_inv.
  - unfold chtbl_insert_or_change in Hi. apply outcome_bind_Val in Hi as ([r1 t1] & Hins & Hi).
    destruct (chtbl_insert_inv _ _ _ _ _ _ _ _ _ _ _ Hr Hins) as [tt1 Hr1].
    destruct (negb (r1 =? 0)); [by eapply chtbl_change_inv|]. simplify_eq. eauto.
Qed.

Lemma chtbl_init_rep n h m ff t :
  HashKeys h m → 0 < n → chtbl_init true n h m ff = (0, Some t) →
  chtbl_rep t (replicate (Z.to_nat n) []).
Proof.
  intros HK Hn [=<-]. split; simpl; try done.
  - by rewrite fmap_replicate.
  - by rewrite length_replicate.
  - intros i es e [-> _]%lookup_replicate He. by apply elem_of_nil in He.
  - intros i es [-> _]%lookup_replicate. constructor.
  - induction (Z.to_nat n) as [|k IH]; simpl; [done|exact IH].
Qed.

(** *** Extraction *)

Lemma tbl_entries_rep t tt : chtbl_rep t tt → tbl_entries t = concat tt.
Proof.
  intros Hr. unfold tbl_entries.
  rewrite take_ge by (rewrite (rep_table _ _ Hr), length_fmap, (rep_length _ _ Hr); lia).
  rewrite (rep_table _ _ Hr). clear Hr. induction tt as [|es tt IH]; csimpl; [done|].
  rewrite omap_app. f_equal; [|done]. clear. induction es; csimpl; [done|by f_equal].
Qed.

Definition extract_keep (mt : option (key_t → Z)) (e : CHTBL_Elmnt) : bool :=
  match mt with None => true | Some f => f (en_key e) =? 0 end.

Lemma extract_sorted_fold s mt es acc (R := λ a b : CHTBL_Elmnt, s (en_key a) (en_key b) ≤ 0) :
  insertion_order (λ y x, 0 <? s (en_key y) (en_key x)) (λ y x, s (en_key y) (en_key x) <? 0) R (λ _, True) →
  StronglySorted R acc →
  ∃ out, fold_left (λ acc e, if extract_keep mt e then _h_list_ins_sorted s e acc else acc) es acc = out ∧
    out ≡ₚ acc ++ List.filter (extract_keep mt) es ∧ StronglySorted R out.
Proof.
  intros Ho. revert acc. induction es as [|e es IH]; intros acc Hs; simpl.
  - exists acc. by rewrite app_nil_r.
  - destruct (extract_keep mt e); simpl; [|by apply IH].
    destruct (IH (_h_list_ins_sorted s e acc)) as (out & Hout & Hp & Hso).
    + apply (ins_sorted_sorted _ _ _ (λ _, True)); [done..| |done]. by apply Forall_true.
    + exists out. split_and!; [done| |done]. rewrite Hp. unfold _h_list_ins_sorted.
      rewrite ins_sorted_perm. simpl. by rewrite Permutation_middle.
Qed.

End chtbl.

#[global] Arguments CHTBL _ _ _ : clear implicits.
#[global] Arguments CHTBL_Elmnt _ _ _ : clear implicits.
#[global] Arguments tbl_event _ _ _ : clear implicits.
#[global] Arguments chtbl_lookup {_ _ _} _ _ : simpl never.
#[global] Arguments chtbl_change {_ _ _} _ _ _ : simpl never.
#[global] Arguments chtbl_remove {_ _ _} _ _ : simpl never.

(** ** Correctness of hash.c *)

(** Every table reachable from [chtbl_init] by insertions, removals and
    changes is well formed: each entry sits in the bucket of its hash, no two
    entries have matching keys, the size is the number of entries; so a lookup
    never reads outside the table and the size is never wrong. *)
Theorem chtbl_reachable_wf {K V T} (h : option K → Z) m n ff (t0 t : CHTBL K V T) k :
  HashKeys h m → 0 < n → chtbl_init true n h m ff = (0, Some t0) → rtc tbl_step t0 t →
  (∃ tt, chtbl_rep t tt) ∧ chtbl_lookup t (Some k) ≠ Crash.
Proof.
  intros HK Hn Hi Hsteps.
  assert (∃ tt, chtbl_rep t tt) as [tt Hr].
  { apply chtbl_init_rep in Hi; [|done..]. revert Hi. generalize (replicate (Z.to_nat n) (@nil (CHTBL_Elmnt K V T))).
    clear HK Hn. induction Hsteps as [t|t1 t2 t3 Hst _ IH]; intros tt Hr; [eauto|].
    destruct (tbl_step_rep _ _ _ Hst Hr) as [tt' Hr']. by eapply IH. }
  split; [eauto|]. by rewrite (chtbl_lookup_get _ _ _ Hr).
Qed.

(** On a well-formed table [chtbl_insert_or_change] is the update of a
    finite map: it succeeds, a later lookup of any matching key gives the new
    data, a lookup of any other key gives what it gave before, and the table
    stays well formed. *)
Theorem chtbl_insert_or_change_is_update {K V T} (t : CHTBL K V T) tt a k v f fk fe :
  chtbl_rep t tt →
  ∃ t' evs, chtbl_insert_or_change (Some a) true t (Some k) (Some v) f fk fe = Val (0, t', evs) ∧
    (∃ tt', chtbl_rep t' tt') ∧
    ∀ k', chtbl_lookup t' (Some k') =
      if hmatch t (Some k') (Some k) =? 0 then Val (0, Some (Some v)) else chtbl_lookup t (Some k').
Proof.
  intros Hr. unfold chtbl_insert_or_change. destruct (tbl_get t tt (Some k)) as [e|] eqn:Hg.
  - erewrite chtbl_insert_present by done.
    destruct (chtbl_change_rep _ _ _ (Some v) _ Hr Hg) as (t' & tt' & evs & Hc & _ & Hr' & _ & _ & Hget).
    simpl. rewrite Hc. exists t', evs. split_and!; [done|eauto|]. intros k'.
    rewrite (chtbl_lookup_get _ _ _ Hr'), (chtbl_lookup_get _ _ _ Hr), Hget. by destruct (_ =? 0).
  - destruct (chtbl_insert_rep t tt a k (Some v) f fk fe Hr Hg) as (t' & tt' & Hi & Hr' & _ & _ & Hget).
    rewrite Hi. simpl. exists t', []. split_and!; [done|eauto|]. intros k'.
    rewrite (chtbl_lookup_get _ _ _ Hr'), (chtbl_lookup_get _ _ _ Hr), Hget. by destruct (_ =? 0).
Qed.

(** On a well-formed table [chtbl_remove] of a bound key is the deletion of
    a finite map, and of an unbound key reports -1 and changes nothing. *)
Theorem chtbl_remove_is_delete {K V T} (t : CHTBL K V T) tt k :
  chtbl_rep t tt →
  (chtbl_lookup t (Some k) = Val (1, None) ∧ chtbl_remove t (Some k) = Val (-1, t, [])) ∨
  (∃ d t' evs, chtbl_lookup t (Some k) = Val (0, Some d) ∧ chtbl_remove t (Some k) = Val (0, t', evs) ∧
    (∃ tt', chtbl_rep t' tt') ∧ tsize t' = tsize t - 1 ∧
    ∀ k', chtbl_lookup t' (Some k') =
      if hmatch t (Some k') (Some k) =? 0 then Val (1, None) else chtbl_lookup t (Some k')).
Proof.
  intros Hr. rewrite (chtbl_lookup_get _ _ _ Hr). destruct (tbl_get t tt (Some k)) as [e|] eqn:Hg.
  - right. destruct (chtbl_remove_rep _ _ _ _ Hr Hg) as (t' & tt' & evs & Hc & _ & Hr' & _ & Hsz & Hget).
    exists (en_data e), t', evs. split_and!; [done..|eauto|done|]. intros k'.
    rewrite (chtbl_lookup_get _ _ _ Hr'), (chtbl_lookup_get _ _ _ Hr), Hget. by destruct (_ =? 0).
  - left. split; [done|]. by apply (chtbl_remove_absent _ tt).
Qed.

(** Removing an entry that was inserted with a key destructor calls that
    destructor on the entry instead of on the key, and then frees the entry:
    the key is never released and the entry is released twice. *)
Theorem chtbl_remove_double_free {K V T} (t : CHTBL K V T) tt k e :
  chtbl_rep t tt → tbl_get t tt (Some k) = Some e → en_free_key e = true →
  ∃ t' evs, chtbl_remove t (Some k) = Val (0, t', evs) ∧
    FreeKeyEntry (en_addr e) ∈ evs ∧ FreeEntry (en_addr e) ∈ evs ∧ ∀ key, FreeKey key ∉ evs.
Proof.
  intros Hr Hg Hfk. destruct (chtbl_remove_rep _ _ _ _ Hr Hg) as (t' & tt' & evs & Hc & Hevs & _).
  exists t', evs. rewrite Hfk in Hevs. rewrite Hevs. split_and!; [by rewrite Hc, Hevs|set_solver..|].
  intros key. destruct (en_free_element e); set_solver.
Qed.

(** [chtbl_extract] with a comparison function returns the data of exactly
    the entries that pass the filter, in the order of their keys. *)
Theorem chtbl_extract_sorted {K V T} (t : CHTBL K V T) tt mt s :
  chtbl_rep t tt →
  (∀ a b, s a b < 0 ↔ 0 < s b a) → (∀ a b c, s a b ≤ 0 → s b c ≤ 0 → s a c ≤ 0) →
  ∃ es, chtbl_extract t mt (Some s) = en_data <$> es ∧
    es ≡ₚ List.filter (extract_keep mt) (concat tt) ∧
    StronglySorted (λ a b, s (en_key a) (en_key b) ≤ 0) es.
Proof.
  intros Hr Hsym Htr.
  destruct (extract_sorted_fold s mt (concat tt) []) as (out & Hout & Hp & Hs); [|constructor|].
  - split_and!.
    + intros x y z. apply Htr.
    + intros x y _ _. pose proof (Hsym (en_key x) (en_key y)). destruct (Z.ltb_spec 0 (s (en_key y) (en_key x))); lia.
    + intros x y _ _. pose proof (Hsym (en_key x) (en_key y)). pose proof (Hsym (en_key y) (en_key x)).
      destruct (Z.ltb_spec (s (en_key y) (en_key x)) 0); lia.
  - exists out. split_and!; [|done..]. unfold chtbl_extract. rewrite (tbl_entries_rep _ _ Hr).
    by rewrite <- Hout.
Qed.

(** ** Tables keyed by strings *)

Definition str_hash (k : option (list ascii)) : Z := hash_str (default [] k).
Definition str_match (a b : option (list ascii)) : Z :=
  match a, b with Some a, Some b => strcmp a b | None, None => 0 | _, _ => 1 end.

Lemma str_match_eq a b : str_match a b = 0 ↔ a = b.
Proof. destruct a, b; simpl; rewrite ?strcmp_zero; naive_solver. Qed.

#[global] Instance str_keys : HashKeys str_hash str_match.
Proof. split; intros *; rewrite ?str_match_eq; congruence. Qed.

(** [hash_str] stays below its modulus on every string, also where [char] is
    signed and bytes above 127 are negative. *)
Lemma hash_str_bound key : 0 ≤ hash_str key < 781.
Proof.
  unfold hash_str. assert (H : ∀ acc, 0 ≤ acc < 781 → 0 ≤ fold_left hash_str_step key acc < 781).
  { induction key as [|c key IH]; intros acc Hacc; simpl; [done|]. apply IH.
    unfold hash_str_step. apply Z.mod_pos_bound. lia. }
  apply H. lia.
Qed.

(** ** Witnesses *)

Definition ex_t0 : CHTBL (list ascii) nat unit := mkTbl 2 str_hash str_match false 0 [[]; []].
Definition ex_entry : CHTBL_Elmnt (list ascii) nat unit :=
  mkEntry 1%positive (Some (str "USER")) (Some 5%nat) None true true.
Definition ex_t1 : CHTBL (list ascii) nat unit :=
  mkTbl 2 str_hash str_match false 1 [[]; [Some ex_entry]].

Lemma ex_t1_insert :
  chtbl_insert (Some 1%positive) true ex_t0 (Some (str "USER")) (Some 5%nat) None true true = Val (0, ex_t1).
Proof. reflexivity. Qed.

Lemma ex_t1_rep : chtbl_rep ex_t1 [[]; [ex_entry]].
Proof.
  split; [apply str_keys|reflexivity|reflexivity|reflexivity| | |reflexivity].
  - intros [|[|[]]] es e Hes He; simplify_eq/=.
    + by apply elem_of_nil in He.
    + apply list_elem_of_singleton in He as ->. vm_compute. reflexivity.
  - intros [|[|[]]] es Hes; simplify_eq/=; repeat constructor.
Qed.

Lemma chtbl_reachable_wf_witness :
  (∃ tt, chtbl_rep ex_t1 tt) ∧ chtbl_lookup ex_t1 (Some (str "PASS")) ≠ Crash.
Proof.
  apply (chtbl_reachable_wf str_hash str_match 2 false ex_t0).
  - apply str_keys.
  - lia.
  - reflexivity.
  - eapply rtc_once, step_insert, ex_t1_insert.
Defined.

Lemma chtbl_insert_or_change_is_update_witness :
  ∃ t' evs, chtbl_insert_or_change (Some 2%positive) true ex_t1 (Some (str "USER")) (Some 9%nat) None true true
      = Val (0, t', evs) ∧
    (∃ tt', chtbl_rep t' tt') ∧
    ∀ k', chtbl_lookup t' (Some k') =
      if hmatch ex_t1 (Some k') (Some (str "USER")) =? 0 then Val (0, Some (Some 9%nat))
      else chtbl_lookup ex_t1 (Some k').
Proof. apply (chtbl_insert_or_change_is_update ex_t1 [[]; [ex_entry]]). apply ex_t1_rep. Defined.

Lemma chtbl_remove_is_delete_witness :
  (chtbl_lookup ex_t1 (Some (str "USER")) = Val (1, None) ∧
   chtbl_remove ex_t1 (Some (str "USER")) = Val (-1, ex_t1, [])) ∨
  (∃ d t' evs, chtbl_lookup ex_t1 (Some (str "USER")) = Val (0, Some d) ∧
    chtbl_remove ex_t1 (Some (str "USER")) = Val (0, t', evs) ∧
    (∃ tt', chtbl_rep t' tt') ∧ tsize t' = tsize ex_t1 - 1 ∧
    ∀ k', chtbl_lookup t' (Some k') =
      if hmatch ex_t1 (Some k') (Some (str "USER")) =? 0 then Val (1, None) else chtbl_lookup ex_t1 (Some k')).
Proof. apply (chtbl_remove_is_delete ex_t1 [[]; [ex_entry]]). apply ex_t1_rep. Defined.

Lemma chtbl_remove_double_free_witness :
  ∃ t' evs, chtbl_remove ex_t1 (Some (str "USER")) = Val (0, t', evs) ∧
    FreeKeyEntry 1%positive ∈ evs ∧ FreeEntry 1%positive ∈ evs ∧ ∀ key, FreeKey key ∉ evs.
Proof.
  apply (chtbl_remove_double_free ex_t1 [[]; [ex_entry]] (str "USER") ex_entry).
  - apply ex_t1_rep.
  - vm_compute. reflexivity.
  - reflexivity.
Defined.

Definition ex_sort (a b : option (list ascii)) : Z :=
  Z.of_nat (length (default [] a)) - Z.of_nat (length (default [] b)).

Lemma chtbl_extract_sorted_witness :
  ∃ es, chtbl_extract ex_t1 None (Some ex_sort) = en_data <$> es ∧
    es ≡ₚ List.filter (extract_keep None) (concat [[]; [ex_entry]]) ∧
    StronglySorted (λ a b, ex_sort (en_key a) (en_key b) ≤ 0) es.
Proof.
  apply (chtbl_extract_sorted ex_t1 [[]; [ex_entry]]).
  - apply ex_t1_rep.
  - unfold ex_sort. intros. lia.
  - unfold ex_sort. intros. lia.
Defined.
