(* ===== verification/Ip.v ===== *)
(** * Addresses and access lists: libwzd-core/wzd_ip.c

    The lists of allowed and forbidden addresses a user, a group or the server
    carries, the wildcard comparison they rest on ([my_str_compare] of
    wzd_misc.c) and the parser of host references. The configuration without
    [IPV6_SUPPORT] is modelled, which is the default of the build. The name
    service is a parameter: [socket_getipbyname] and [gethostbyaddr]. *)

From S2P Require Import Prelude.

(** ** Wildcards *)

(** The inner loop: advance in [src] until [c] or the end is met. *)
Fixpoint skip_until (c : ascii) (s : list ascii) : list ascii :=
  match s with
  | [] => []
  | x :: s' => if bool_decide (c = x) then s else skip_until c s'
  end.

(** The test after the loop of [my_str_compare]. *)
Definition cmp_complete (src dst : list ascii) : bool :=
  match dst with
  | [] => bool_decide (src = [])
  | [d] => bool_decide (d = "*"%char)
  | _ => false
  end.

Fixpoint my_str_compare (src dst : list ascii) {struct dst} : bool :=
  match src with
  | [] => cmp_complete src dst
  | c :: src' =>
    match dst with
    | [] => cmp_complete src dst
    | d :: dst' =>
      if bool_decide (d = "*"%char) then
        match dst' with
        | [] => true
        | c' :: _ =>
          match skip_until c' src with
          | [] => cmp_complete [] dst'
          | src2 => my_str_compare src2 dst'
          end
        end
      else if bool_decide (d = "?"%char) then my_str_compare src' dst'
      else if bool_decide (d = c) then my_str_compare src' dst'
      else cmp_complete src dst
    end
  end.

(** ** Host names and addresses *)

Definition string_is_ipv4 (s : list ascii) : bool :=
  forallb (λ c, bool_decide (c = "."%char) || isdigit c) s.

Definition string_is_ipv6 (s : list ascii) : bool :=
  forallb (λ c, bool_decide (c = ":"%char) || isxdigit c) s.

Definition string_is_hostname (s : list ascii) : bool :=
  match s with
  | [] => false
  | c :: s' => isalnum c &&
      forallb (λ c, isalnum c || bool_decide (c = "-"%char) || bool_decide (c = "."%char)) s'
  end.

Inductive host_type_t := HT_UNKNOWN | HT_HOSTNAME | HT_IPV4_ADDRESS | HT_IPV6_REFERENCE.

Definition MAX_NUMERIC_IP_LEN : nat := 64.

Record wzd_ip_t := mkIp {
  ip_family : Z;
  ip_type : host_type_t;
  ip_netmask : Z;
  ip_raw : list ascii }.

Definition ip_create : wzd_ip_t := mkIp 0 HT_UNKNOWN 0 (replicate MAX_NUMERIC_IP_LEN NUL).

(** The part of a string before the first [c] and the part after it. *)
Fixpoint split_at (c : ascii) (s : list ascii) : option (list ascii * list ascii) :=
  match s with
  | [] => None
  | x :: s' =>
    if bool_decide (x = c) then Some ([], s')
    else match split_at c s' with Some (a, b) => Some (x :: a, b) | None => None end
  end.

(** [text]: the host without its netmask, and the netmask. *)
Definition parse_netmask (host : list ascii) : option (list ascii * Z) :=
  match split_at "/"%char host with
  | None => Some (host, 0)
  | Some (text, mask) =>
    match mask with
    | [] => None
    | _ => let '(v, rest) := strtoul mask in
           match rest with [] => Some (text, u32 v) | _ => None end
    end
  end.

(** In an IPv6 reference, [string_is_ipv6] is called on the place of the
    closing bracket, which was just overwritten by NUL: on the empty string. *)
Definition ip_parse_host (host : option (list ascii)) : option wzd_ip_t :=
  match host with
  | None => None
  | Some [] => None
  | Some host =>
    match parse_netmask host with
    | None => None
    | Some (text, netmask) =>
      let made type start :=
        Some (mkIp 0 type netmask (wzd_strncpy (replicate MAX_NUMERIC_IP_LEN NUL) start MAX_NUMERIC_IP_LEN)) in
      match text with
      | c :: rest =>
        if bool_decide (c = "["%char) then
          match split_at "]"%char rest with
          | None => None
          | Some (start, _) =>
            let ptr := [] in
            if negb (string_is_ipv6 ptr) then None else made HT_IPV6_REFERENCE start
          end
        else if string_is_ipv4 text then made HT_IPV4_ADDRESS text
        else if string_is_hostname text then
          if negb (netmask =? 0) then None else made HT_HOSTNAME text
        else None
      | [] => if string_is_ipv4 text then made HT_IPV4_ADDRESS text else None
      end
    end
  end.

(** ** Comparison *)

Definition has_wildcards (s : list ascii) : bool :=
  existsb (λ c, bool_decide (c = "*"%char) || bool_decide (c = "?"%char)) s.

Record wzd_ip_list_t := mkIpEntry { regexp : list ascii; is_allowed : Z }.

Definition MAX_IP_LENGTH : Z := 128.

Section name_service.
  (** The address of a name, and the name of an address: calls to the
      system's resolver. *)
  Context (socket_getipbyname gethostbyaddr : list ascii → option (list ascii)).

Definition ip_compare (ip pattern : option (list ascii)) : Z :=
  match ip, pattern with
  | Some ip, Some pattern =>
    if streq ip pattern then 1 else
    let has_wildcards1 := has_wildcards ip in
    let has_wildcards2 := has_wildcards pattern in
    if negb has_wildcards1 && negb has_wildcards2 then
      match socket_getipbyname ip with
      | None => 0
      | Some buffer1 =>
        match socket_getipbyname pattern with
        | None => 0
        | Some buffer2 => if bool_decide (take 4 buffer1 = take 4 buffer2) then 1 else 0
        end
      end
    else if has_wildcards1 && has_wildcards2 then 0
    else
      (* the swap: ptr = ip; pattern = ip; ip = ptr *)
      let '(ip, pattern) := if has_wildcards1 && negb has_wildcards2 then (ip, ip) else (ip, pattern) in
      match socket_getipbyname ip with
      | None => 0
      | Some buffer1 =>
        if my_str_compare ip pattern then 1 else
        match gethostbyaddr (take 4 buffer1) with
        | None => 0
        | Some h_name => if my_str_compare h_name pattern then 1 else 0
        end
      end
  | _, _ => 0
  end.

(** ** Access lists *)

Definition ip_add_check (l : list wzd_ip_list_t) (newip : list ascii) (allowed : Z)
    : Z * list wzd_ip_list_t :=
  if Z.of_nat (length newip) <? 1 then (-1, l) else
  if MAX_IP_LENGTH <=? Z.of_nat (length newip) then (-1, l) else
  (0, l ++ [mkIpEntry newip (if allowed =? 0 then 0 else 1)]).

Fixpoint ip_list_check (l : list wzd_ip_list_t) (ip : list ascii) : Z :=
  match l with
  | [] => -1
  | e :: l' =>
    match regexp e with
    | [] => -1
    | _ => if ip_compare (Some ip) (Some (regexp e)) =? 1 then is_allowed e else ip_list_check l' ip
    end
  end.

(** Whether the identity part of an entry lets the address part be tried, and
    the address part. *)
Definition split_ident (e : wzd_ip_list_t) (ident : option (list ascii)) : bool * list ascii :=
  match split_at "@"%char (regexp e) with
  | None => (true, regexp e)
  | Some (ident_ref, ip_ref) =>
    (match ident with
     | None => streq ident_ref (str "*")
     | Some id => my_str_compare id ident_ref
     end, ip_ref)
  end.

Fixpoint ip_list_check_ident (l : list wzd_ip_list_t) (ip : list ascii) (ident : option (list ascii)) : Z :=
  match l with
  | [] => -1
  | e :: l' =>
    let '(ident_ok, ip_ref) := split_ident e ident in
    if negb ident_ok then ip_list_check_ident l' ip ident else
    if ip_compare (Some ip) (Some ip_ref) =? 1 then is_allowed e else ip_list_check_ident l' ip ident
  end.

Fixpoint ip_remove (l : list wzd_ip_list_t) (ip : list ascii) : Z * list wzd_ip_list_t :=
  match l with
  | [] => (-1, [])
  | e :: l' =>
    if streq (regexp e) ip then (0, l') else
    let '(ret, l'') := ip_remove l' ip in (ret, e :: l'')
  end.

Fixpoint ip_inlist (l : list wzd_ip_list_t) (ip : list ascii) : Z :=
  match l with
  | [] => 0
  | e :: l' =>
    match regexp e with
    | [] => 0
    | _ => if ip_compare (Some ip) (Some (regexp e)) =? 1 then 1 else ip_inlist l' ip
    end
  end.

(** *** Facts about access lists *)

Lemma ip_list_check_app l1 l2 ip :
  Forall (λ e, regexp e ≠ []) l1 →
  ip_list_check (l1 ++ l2) ip =
    if existsb (λ e, ip_compare (Some ip) (Some (regexp e)) =? 1) l1
    then ip_list_check l1 ip else ip_list_check l2 ip.
Proof.
  induction 1 as [|e l1 He Hl IH]; simpl; [done|]. destruct (regexp e) eqn:Er; [done|].
  destruct (_ =? 1); [done|]. apply IH.
Qed.

Lemma ip_remove_absent l ip :
  Forall (λ e, regexp e ≠ ip) l → ip_remove l ip = (-1, l).
Proof.
  induction 1 as [|e l He Hl IH]; simpl; [done|].
  by rewrite (proj2 (streq_false _ _) He), IH.
Qed.

Lemma ip_remove_app l1 e l2 :
  Forall (λ e', regexp e' ≠ regexp e) l1 → ip_remove (l1 ++ e :: l2) (regexp e) = (0, l1 ++ l2).
Proof.
  induction 1 as [|e' l1 He Hl IH]; simpl.
  - by rewrite (proj2 (streq_true _ _) eq_refl).
  - by rewrite (proj2 (streq_false _ _) He), IH.
Qed.

(** The first entry of an access list whose pattern matches decides: adding
    an entry at the end (where [ip_add_check] puts it) changes the verdict only
    for the addresses no earlier entry matches, and for those the verdict is
    that of the new entry if it matches and "not found" otherwise. *)
Theorem ip_add_check_order l newip allowed ip l' :
  Forall (λ e, regexp e ≠ []) l → ip_add_check l newip allowed = (0, l') →
  Forall (λ e, regexp e ≠ []) l' ∧
  ip_list_check l' ip =
    if existsb (λ e, ip_compare (Some ip) (Some (regexp e)) =? 1) l then ip_list_check l ip
    else if ip_compare (Some ip) (Some newip) =? 1 then (if allowed =? 0 then 0 else 1) else -1.
Proof.
  intros Hl. unfold ip_add_check. destruct (_ <? 1) eqn:H1; [done|].
  destruct (_ <=? _) eqn:H2; [done|]. intros [=<-].
  assert (Hne : newip ≠ []) by (intros ->; done).
  split.
  - apply Forall_app. split; [done|]. by constructor.
  - rewrite ip_list_check_app by done. destruct (existsb _ l); [done|]. simpl. by destruct newip.
Qed.

End name_service.

(** [ip_remove] undoes [ip_add_check]: removing a pattern that was just
    added and was not in the list before gives the list back. *)
Theorem ip_remove_add l newip allowed l' :
  Forall (λ e, regexp e ≠ newip) l → ip_add_check l newip allowed = (0, l') →
  ip_remove l' newip = (0, l).
Proof.
  intros Hl. unfold ip_add_check. destruct (_ <? 1); [done|]. destruct (_ <=? _); [done|].
  intros [=<-]. etransitivity; [by apply (ip_remove_app l (mkIpEntry newip _) [])|]. by rewrite app_nil_r.
Qed.

(** *** Wildcards *)

(** What a pattern means: [*] stands for any string, [?] for any character. *)
Inductive glob : list ascii → list ascii → Prop :=
  | glob_nil : glob [] []
  | glob_star s1 s2 p : glob s2 p → glob (s1 ++ s2) ("*"%char :: p)
  | glob_any c s p : glob s p → glob (c :: s) ("?"%char :: p)
  | glob_char c s p : glob s p → glob (c :: s) (c :: p).

Lemma cmp_complete_glob src dst : cmp_complete src dst = true → glob src dst.
Proof.
  destruct dst as [|d [|]]; simpl; [|..]; intros Hc; try done.
  - apply bool_decide_eq_true in Hc as ->. constructor.
  - apply bool_decide_eq_true in Hc as ->. rewrite <- (app_nil_r src). constructor. constructor.
Qed.

Lemma skip_until_suffix c s : ∃ s1, s = s1 ++ skip_until c s.
Proof.
  induction s as [|x s [s1 IH]]; simpl; [by exists []|]. case_bool_decide; [by exists []|].
  exists (x :: s1). simpl. by f_equal.
Qed.

Lemma my_str_compare_glob src dst : my_str_compare src dst = true → glob src dst.
Proof.
  revert src. induction dst as [|d dst IH]; intros [|c src]; simpl; try (intros; by apply cmp_complete_glob).
  case_bool_decide as Hs.
  - subst d. destruct dst as [|c' dst'].
    + intros _. rewrite <- (app_nil_r (c :: src)). constructor. constructor.
    + destruct (skip_until_suffix c' (c :: src)) as [s1 Hs1]. revert Hs1.
      change (if bool_decide (c' = c) then c :: src else skip_until c' src) with (skip_until c' (c :: src)).
      destruct (skip_until c' (c :: src)) as [|x s2] eqn:Hsk; intros -> Hc.
      * constructor. by apply cmp_complete_glob.
      * constructor. by apply IH.
  - case_bool_decide; [intros; subst; constructor; by apply IH|].
    case_bool_decide; [intros; subst; constructor; by apply IH|].
    by destruct dst.
Qed.

(** A pattern without [*] except possibly at its end. *)
Fixpoint simple_pattern (p : list ascii) : bool :=
  match p with
  | [] => true
  | c :: p' => if bool_decide (c = "*"%char) then bool_decide (p' = []) else simple_pattern p'
  end.

Lemma glob_complete_simple src dst : simple_pattern dst = true → glob src dst → my_str_compare src dst = true.
Proof.
  intros Hp Hg. induction Hg as [|s1 s2 p Hg IH|c s p Hg IH|c s p Hg IH]; simpl in *.
  - done.
  - apply bool_decide_eq_true in Hp as ->. by destruct (s1 ++ s2).
  - by apply IH.
  - case_bool_decide.
    + subst. apply bool_decide_eq_true in Hp as ->. done.
    + case_bool_decide; [by apply IH|]. rewrite bool_decide_eq_true_2 by done. by apply IH.
Qed.

(** [my_str_compare] is sound for the usual meaning of [*] and [?]: it
    accepts only strings the pattern matches; and it is exact for patterns
    whose only [*] is the last character, such as 192.168.0.* *)
Theorem my_str_compare_wildcards src dst :
  (my_str_compare src dst = true → glob src dst) ∧
  (simple_pattern dst = true → (my_str_compare src dst = true ↔ glob src dst)).
Proof.
  split; [apply my_str_compare_glob|]. intros Hp.
  split; [apply my_str_compare_glob|by apply glob_complete_simple].
Qed.

(** *** The two defects of the comparison and of the parser *)

Lemma has_wildcards_ne ip p : has_wildcards ip = true → has_wildcards p = false → streq ip p = false.
Proof. intros H1 H2. apply streq_false. congruence. Qed.

(** When the address to check holds wildcards and the pattern does not, the
    exchange of the two loses the pattern: the verdict is the same for every
    wildcard-free pattern. *)
Theorem ip_compare_ignores_pattern getip gethost ip p1 p2 :
  has_wildcards ip = true → has_wildcards p1 = false → has_wildcards p2 = false →
  ip_compare getip gethost (Some ip) (Some p1) = ip_compare getip gethost (Some ip) (Some p2).
Proof.
  intros Hi H1 H2. unfold ip_compare.
  by rewrite (has_wildcards_ne ip p1), (has_wildcards_ne ip p2), Hi, H1, H2.
Qed.

Lemma split_at_app c s t : c ∉ s → split_at c (s ++ c :: t) = Some (s, t).
Proof.
  induction s as [|x s IH]; simpl; intros Hs; [by rewrite bool_decide_eq_true_2|].
  rewrite bool_decide_eq_false_2 by set_solver. rewrite IH; [done|set_solver].
Qed.

Lemma split_at_None c s : c ∉ s → split_at c s = None.
Proof.
  induction s as [|x s IH]; simpl; intros Hs; [done|].
  rewrite bool_decide_eq_false_2 by set_solver. rewrite IH; [done|set_solver].
Qed.

Lemma wzd_strncpy_fits dst s n :
  nul_free s → (length s < n)%nat → cstring (wzd_strncpy dst s n) = s.
Proof.
  intros Hs Hn. unfold wzd_strncpy.
  rewrite take_ge by (rewrite length_app; simpl; lia). rewrite <- app_assoc. simpl. by apply cstring_app_nul.
Qed.

(** Any text between square brackets is taken for an IPv6 address: the
    check of its characters is applied to the empty string instead. *)
Theorem ip_parse_host_ipv6_unchecked s :
  nul_free s → ("]"%char ∉ s) → ("/"%char ∉ s) → (length s < 64)%nat →
  ∃ ip, ip_parse_host (Some ("["%char :: s ++ ["]"%char])) = Some ip ∧
    ip_type ip = HT_IPV6_REFERENCE ∧ cstring (ip_raw ip) = s.
Proof.
  intros Hn Hb Hs Hlen. unfold ip_parse_host, parse_netmask.
  rewrite split_at_None by set_solver. rewrite bool_decide_eq_true_2 by done.
  rewrite split_at_app by done. eexists. split; [done|]. split; [done|].
  by apply wzd_strncpy_fits.
Qed.

(** ** Witnesses *)

Definition ex_ips : list wzd_ip_list_t := [mkIpEntry (str "10.0.0.*") 1].
Definition ex_getip (s : list ascii) : option (list ascii) := Some s.
Definition ex_gethost (s : list ascii) : option (list ascii) := None.

Lemma ip_add_check_order_witness :
  Forall (λ e, regexp e ≠ []) (ex_ips ++ [mkIpEntry (str "10.0.*") 0]) ∧
  ip_list_check ex_getip ex_gethost (ex_ips ++ [mkIpEntry (str "10.0.*") 0]) (str "10.0.1.2") =
    if existsb (λ e, ip_compare ex_getip ex_gethost (Some (str "10.0.1.2")) (Some (regexp e)) =? 1) ex_ips
    then ip_list_check ex_getip ex_gethost ex_ips (str "10.0.1.2")
    else if ip_compare ex_getip ex_gethost (Some (str "10.0.1.2")) (Some (str "10.0.*")) =? 1 then 0 else -1.
Proof.
  apply (ip_add_check_order ex_getip ex_gethost ex_ips (str "10.0.*") 0 (str "10.0.1.2")).
  - repeat constructor; discriminate.
  - reflexivity.
Defined.

Lemma ip_remove_add_witness :
  ip_remove (ex_ips ++ [mkIpEntry (str "1.2.3.4") 1]) (str "1.2.3.4") = (0, ex_ips).
Proof.
  apply (ip_remove_add ex_ips (str "1.2.3.4") 1).
  - repeat constructor; discriminate.
  - reflexivity.
Defined.

Lemma ip_compare_ignores_pattern_witness :
  ip_compare ex_getip ex_gethost (Some (str "*.example.org")) (Some (str "1.2.3.4")) =
  ip_compare ex_getip ex_gethost (Some (str "*.example.org")) (Some (str "9.9.9.9")).
Proof. apply ip_compare_ignores_pattern; reflexivity. Defined.

Lemma ip_parse_host_ipv6_unchecked_witness :
  ∃ ip, ip_parse_host (Some (str "[not an address]")) = Some ip ∧
    ip_type ip = HT_IPV6_REFERENCE ∧ cstring (ip_raw ip) = str "not an address".
Proof.
  apply (ip_parse_host_ipv6_unchecked (str "not an address")).
  - apply (bool_decide_unpack _). vm_compute. exact I.
  - apply (bool_decide_unpack _). vm_compute. exact I.
  - apply (bool_decide_unpack _). vm_compute. exact I.
  - apply (bool_decide_unpack _). vm_compute. exact I.
Defined.
