(* ===== verification/Registry.v ===== *)
(** * The registries of users and groups: libwzd-core/wzd_user.c, wzd_group.c

    Both files keep a growable array of pointers indexed by identifier, with
    the same code; the model is written once over the class [Registered] of
    structures with an identifier, a backend identifier and a name, and
    instantiated for users and for groups. Structures live in a heap so that
    the in-place update of [user_update] and the pointer comparison it makes
    are visible. *)

From S2P Require Import Prelude CList.

(** [(uid_t)-1], the invalid identifier. *)
Definition INVALID_USER : Z := 2 ^ 32 - 1.

Class Registered (E : Type) := {
  reg_id : E → Z;
  reg_name : E → list ascii;
  reg_set_backend : E → Z → E }.

Class RegisteredLaws (E : Type) `{Registered E} : Prop := {
  reg_id_set_backend e b : reg_id (reg_set_backend e b) = reg_id e }.

Section registry.
  Context {E : Type} `{Registered E}.

(** [_max_uid], [_user_array] and the structures pointed to. *)
Record registry := mkReg {
  r_max : Z;
  r_arr : option (list (option addr));
  r_heap : gmap addr E }.

Definition empty_registry (h : gmap addr E) : registry := mkReg 0 None h.

(** [_user_array[uid]] *)
Definition slot (r : registry) (uid : Z) : outcome (option addr) :=
  l ← deref (r_arr r); deref (l !! Z.to_nat uid).

Definition set_slot (r : registry) (uid : Z) (p : option addr) : registry :=
  mkReg (r_max r) ((λ l, <[Z.to_nat uid := p]> l) <$> r_arr r) (r_heap r).

Definition set_heap (r : registry) (a : addr) (e : E) : registry :=
  mkReg (r_max r) (r_arr r) (<[a := e]> (r_heap r)).

(** [wzd_realloc] and [memset] when [uid >= _max_uid]. *)
Definition extend (r : registry) (uid : Z) : registry :=
  let size := if r_max r + 255 <=? uid then uid - r_max r else 256 in
  mkReg (r_max r + size)
        (Some (take (Z.to_nat (r_max r)) (default [] (r_arr r)) ++ replicate (Z.to_nat (size + 1)) None))
        (r_heap r).

Definition register (p : option addr) (backend_id : Z) (r : registry) : outcome (Z * registry) :=
  match p with
  | None => Val (INVALID_USER, r)
  | Some a =>
    e ← deref (r_heap r !! a);
    let uid := reg_id e in
    if uid =? INVALID_USER then Val (INVALID_USER, r) else
    if INT_MAX <=? uid then Val (INVALID_USER, r) else
    let r1 := if r_max r <=? uid then extend r uid else r in
    cell ← slot r1 uid;
    match cell with
    | Some _ => Val (INVALID_USER, r1)
    | None => Val (uid, set_heap (set_slot r1 uid (Some a)) a (reg_set_backend e backend_id))
    end
  end.

Definition update (uid : Z) (new : addr) (r : registry) : outcome (Z * registry) :=
  if uid =? INVALID_USER then Val (-1, r) else
  if r_max r <? uid then Val (-1, r) else
  cell ← slot r uid;
  match cell with
  | None => Val (-2, r)
  | Some old =>
    e ← deref (r_heap r !! new);
    taken ← (if uid =? reg_id e then Val false
             else c ← slot r (reg_id e); Val (bool_decide (c ≠ None)));
    if (taken : bool) then Val (-3, r) else
    if (uid =? reg_id e) && bool_decide (old = new) then Val (0, r) else
    let r1 := set_heap r old e in
    Val (0, if uid =? reg_id e then r1
            else set_slot (set_slot r1 (reg_id e) (Some old)) uid None)
  end.

Definition unregister (uid : Z) (r : registry) : outcome (option addr * registry) :=
  if uid =? INVALID_USER then Val (None, r) else
  if r_max r <? uid then Val (None, r) else
  cell ← slot r uid;
  match cell with
  | Some a => Val (Some a, set_slot r uid None)
  | None => Val (None, r)
  end.

(** Frees every registered structure, then the array. *)
Definition free_registry (r : registry) : registry :=
  mkReg 0 None (match r_arr r with
                | Some l => foldr (λ p h, match p with Some a => delete a h | None => h end) (r_heap r) l
                | None => r_heap r
                end).

Definition get_by_id (uid : Z) (r : registry) : outcome (option addr) :=
  if uid =? INVALID_USER then Val None else
  if r_max r <? uid then Val None else
  if r_max r =? 0 then Val None else
  slot r uid.

(** The scan of [get_by_name] from [uid] on, [n] slots. *)
Fixpoint scan_name (n : nat) (uid : Z) (name : list ascii) (r : registry) : outcome (option addr) :=
  match n with
  | O => Val None
  | S n =>
    cell ← slot r uid;
    match cell with
    | None => scan_name n (uid + 1) name r
    | Some a =>
      e ← deref (r_heap r !! a);
      if streq name (reg_name e) then Val (Some a) else scan_name n (uid + 1) name r
    end
  end.

Definition get_by_name (name : option (list ascii)) (r : registry) : outcome (option addr) :=
  match name with
  | None => Val None
  | Some s =>
    if (Z.of_nat (length s) <? 1) || (r_max r =? 0) then Val None
    else scan_name (Z.to_nat (r_max r + 1)) 0 s r
  end.

(** The identifiers that precede the terminating -1. *)
Fixpoint list_ids (n : nat) (uid : Z) (r : registry) : outcome (list Z) :=
  match n with
  | O => Val []
  | S n =>
    cell ← slot r uid;
    rest ← list_ids n (uid + 1) r;
    match cell with
    | None => Val rest
    | Some a =>
      e ← deref (r_heap r !! a);
      Val (if reg_id e =? INVALID_USER then rest else reg_id e :: rest)
    end
  end.

Definition get_list (r : registry) : outcome (list Z) := list_ids (Z.to_nat (r_max r)) 0 r.

Fixpoint find_free (n : nat) (uid : Z) (r : registry) : outcome Z :=
  match n with
  | O => Val uid
  | S n =>
    cell ← slot r uid;
    match cell with None => Val uid | Some _ => find_free n (uid + 1) r end
  end.

Definition find_free_id (start : Z) (r : registry) : outcome Z :=
  let s := if start =? INVALID_USER then 0 else start in
  find_free (Z.to_nat (r_max r - s)) s r.

(** ** Invariant *)

(** The array has [_max_uid]+1 slots, and the structure registered in a slot
    carries the index of the slot as its identifier. *)
Record reg_wf (r : registry) : Prop := {
  wf_max : 0 ≤ r_max r < INT_MAX + 256;
  wf_none : r_arr r = None → r_max r = 0;
  wf_length l : r_arr r = Some l → Z.of_nat (length l) = r_max r + 1;
  wf_slot l i a : r_arr r = Some l → l !! i = Some (Some a) →
    ∃ e, r_heap r !! a = Some e ∧ reg_id e = Z.of_nat i }.

(** Who is registered under an identifier, as a partial function. *)
Definition registered (r : registry) (uid : Z) : option addr :=
  if (0 <=? uid) && (uid <=? r_max r) then
    match r_arr r with Some l => mjoin (l !! Z.to_nat uid) | None => None end
  else None.

Lemma slot_registered r uid l :
  reg_wf r → r_arr r = Some l → 0 ≤ uid ≤ r_max r → slot r uid = Val (registered r uid).
Proof.
  intros Hwf Hl Hu. unfold slot, registered. rewrite Hl. simpl.
  replace ((0 <=? uid) && (uid <=? r_max r)) with true by (symmetry; lia).
  destruct (lookup_lt_is_Some_2 l (Z.to_nat uid)) as [c Hc]; [|by rewrite Hc].
  pose proof (wf_length _ Hwf _ Hl). lia.
Qed.

Lemma registered_beyond r uid : r_max r < uid → registered r uid = None.
Proof. intros. unfold registered. by replace ((0 <=? uid) && (uid <=? r_max r)) with false by (symmetry; lia). Qed.

Lemma registered_neg r uid : uid < 0 → registered r uid = None.
Proof. intros. unfold registered. by replace ((0 <=? uid) && (uid <=? r_max r)) with false by (symmetry; lia). Qed.

(** Whoever is registered exists and carries the identifier. *)
Lemma registered_heap r i a :
  reg_wf r → registered r i = Some a → ∃ e, r_heap r !! a = Some e ∧ reg_id e = i.
Proof.
  intros Hwf Hi. unfold registered in Hi. destruct (_ && _) eqn:Hb; [|done].
  destruct (r_arr r) as [l|] eqn:Hl; [|done].
  destruct (l !! Z.to_nat i) as [[?|]|] eqn:Hli; simplify_eq/=.
  destruct (wf_slot _ Hwf _ _ _ Hl Hli) as (e' & ? & ?). exists e'. split; [done|]. lia.
Qed.

Lemma registered_set_slot r uid p j l :
  reg_wf r → r_arr r = Some l → 0 ≤ uid ≤ r_max r →
  registered (set_slot r uid p) j = if decide (j = uid) then p else registered r j.
Proof.
  intros Hwf Hl Hu. pose proof (wf_length _ Hwf _ Hl) as Hlen. unfold registered, set_slot. simpl. rewrite Hl. simpl.
  case_decide as Heq.
  - subst. replace ((0 <=? uid) && (uid <=? r_max r)) with true by (symmetry; lia).
    rewrite list_lookup_insert_eq by lia. done.
  - destruct ((0 <=? j) && (j <=? r_max r)) eqn:Hj; [|done]. rewrite list_lookup_insert_ne by lia. done.
Qed.

Lemma registered_extend r uid j :
  reg_wf r → r_max r ≤ uid →
  registered (extend r uid) j = if decide (j = r_max r) then None else registered r j.
Proof.
  intros Hwf Hu. pose proof (wf_max _ Hwf) as Hmax. unfold registered, extend. simpl.
  set (sz := if r_max r + 255 <=? uid then uid - r_max r else 256).
  assert (0 ≤ sz) by (subst sz; destruct (_ <=? uid) eqn:?; lia).
  assert (Hlen : length (take (Z.to_nat (r_max r)) (default [] (r_arr r))) = Z.to_nat (r_max r)).
  { rewrite length_take. destruct (r_arr r) as [l|] eqn:El; simpl.
    - pose proof (wf_length _ Hwf _ El). lia.
    - rewrite (wf_none _ Hwf El). done. }
  destruct (decide (0 ≤ j < r_max r)) as [Hj|Hj].
  - rewrite decide_False by lia.
    replace ((0 <=? j) && (j <=? r_max r)) with true by (symmetry; lia).
    replace ((0 <=? j) && (j <=? r_max r + sz)) with true by (symmetry; lia).
    rewrite lookup_app_l by lia. destruct (r_arr r) as [l|] eqn:El; simpl.
    + by rewrite lookup_take_lt by lia.
    + rewrite (wf_none _ Hwf El) in Hj. lia.
  - assert (Hnew : (if (0 <=? j) && (j <=? r_max r + sz) then
        mjoin ((take (Z.to_nat (r_max r)) (default [] (r_arr r)) ++ replicate (Z.to_nat (sz + 1)) None) !! Z.to_nat j)
      else @None addr) = None).
    { destruct ((0 <=? j) && (j <=? r_max r + sz)) eqn:Heq; [|done].
      rewrite lookup_app_r, lookup_replicate_2 by lia. done. }
    rewrite Hnew. case_decide; [done|].
    by replace ((0 <=? j) && (j <=? r_max r)) with false by (symmetry; lia).
Qed.

Lemma extend_wf r uid : reg_wf r → r_max r ≤ uid < INT_MAX → reg_wf (extend r uid).
Proof.
  intros Hwf Hu. pose proof (wf_max _ Hwf) as Hmax.
  assert (Hs : 0 ≤ (if r_max r + 255 <=? uid then uid - r_max r else 256)) by (destruct (_ <=? uid) eqn:?; lia).
  assert (Hlen : length (take (Z.to_nat (r_max r)) (default [] (r_arr r))) = Z.to_nat (r_max r)).
  { rewrite length_take. destruct (r_arr r) as [l|] eqn:El; simpl.
    - pose proof (wf_length _ Hwf _ El). lia.
    - rewrite (wf_none _ Hwf El). done. }
  split; unfold extend; simpl.
  - destruct (_ <=? uid) eqn:?; unfold INT_MAX in *; lia.
  - done.
  - intros l [=<-]. rewrite length_app, Hlen, length_replicate. lia.
  - intros l i a [=<-]. destruct (decide (i < Z.to_nat (r_max r))%nat) as [Hi|Hi].
    + rewrite lookup_app_l by lia. destruct (r_arr r) as [l|] eqn:El; simpl.
      * rewrite lookup_take_lt by lia. by apply (wf_slot _ Hwf).
      * rewrite (wf_none _ Hwf El) in Hi. lia.
    + rewrite lookup_app_r, lookup_replicate by lia. naive_solver.
Qed.

Lemma extend_covers r uid : reg_wf r → r_max r ≤ uid → uid ≤ r_max (extend r uid).
Proof. intros Hwf Hu. unfold extend. simpl. destruct (_ <=? uid) eqn:?; lia. Qed.

(** Storing a structure under its own identifier keeps the invariant. *)
Lemma set_wf r l uid p a e :
  reg_wf r → r_arr r = Some l → 0 ≤ uid ≤ r_max r →
  (∀ i a', l !! i = Some (Some a') → a' = a → Z.of_nat i = reg_id e) →
  (p = None ∨ p = Some a ∧ reg_id e = uid) →
  reg_wf (set_heap (set_slot r uid p) a e).
Proof.
  intros Hwf Hl Hu Ha Hp. pose proof (wf_length _ Hwf _ Hl) as Hlen. split; simpl.
  - apply (wf_max _ Hwf).
  - by rewrite Hl.
  - rewrite Hl. simpl. intros l' [=<-]. by rewrite length_insert.
  - rewrite Hl. simpl. intros l' i a' [=<-] Hi. destruct (decide (i = Z.to_nat uid)) as [->|Hne].
    + rewrite list_lookup_insert_eq in Hi by lia. simplify_eq.
      destruct Hp as [?|[? ?]]; [done|]. simplify_eq. exists e. rewrite lookup_insert_eq. split; [done|lia].
    + rewrite list_lookup_insert_ne in Hi by done. destruct (decide (a' = a)) as [->|Hna].
      * exists e. rewrite lookup_insert_eq. split; [done|]. symmetry. by eapply Ha.
      * destruct (wf_slot _ Hwf _ _ _ Hl Hi) as (e' & ? & ?). exists e'. by rewrite lookup_insert_ne.
Qed.

(** Rewriting a structure without changing its identifier. *)
Lemma set_wf_same r a e e' :
  reg_wf r → r_heap r !! a = Some e → reg_id e' = reg_id e → reg_wf (set_heap r a e').
Proof.
  intros Hwf Ha He. split; simpl; [apply (wf_max _ Hwf)|apply (wf_none _ Hwf)|apply (wf_length _ Hwf)|].
  intros l i b Hl Hi. destruct (wf_slot _ Hwf _ _ _ Hl Hi) as (e1 & He1 & Hid).
  destruct (decide (b = a)) as [->|]; [exists e'; rewrite lookup_insert_eq; split; [done|congruence]|].
  exists e1. by rewrite lookup_insert_ne.
Qed.

Context `{!RegisteredLaws E}.

(** Registration: the slot is filled when it is free; when the array has to
    grow, whoever sat in slot [_max_uid] is dropped. *)
Lemma register_spec r a e b :
  reg_wf r → r_heap r !! a = Some e → 0 ≤ reg_id e < INT_MAX →
  (r_max r ≤ reg_id e ∨ registered r (reg_id e) = None) →
  ∃ r', register (Some a) b r = Val (reg_id e, r') ∧ reg_wf r' ∧
    r_heap r' = <[a := reg_set_backend e b]> (r_heap r) ∧
    ∀ j, registered r' j = if decide (j = reg_id e) then Some a
      else if decide (r_max r ≤ reg_id e ∧ j = r_max r) then None else registered r j.
Proof.
  intros Hwf Ha He Hfree. unfold register. rewrite Ha. simpl.
  replace (reg_id e =? INVALID_USER) with false by (symmetry; unfold INVALID_USER, INT_MAX in *; lia).
  replace (INT_MAX <=? reg_id e) with false by (symmetry; lia).
  set (r1 := if r_max r <=? reg_id e then extend r (reg_id e) else r).
  assert (Hwf1 : reg_wf r1) by (subst r1; destruct (_ <=? _) eqn:?; [apply extend_wf|]; auto with lia).
  assert (Hle : 0 ≤ reg_id e ≤ r_max r1).
  { subst r1. destruct (_ <=? _) eqn:?; [|lia]. pose proof (extend_covers r (reg_id e) Hwf). lia. }
  assert (Hh1 : r_heap r1 = r_heap r) by (subst r1; by destruct (_ <=? _)).
  assert (Hreg : ∀ j, registered r1 j = if decide (r_max r ≤ reg_id e ∧ j = r_max r) then None else registered r j).
  { intros j. subst r1. destruct (_ <=? _) eqn:?.
    - rewrite registered_extend by (auto with lia). destruct (decide (_ ∧ _)), (decide (j = r_max r)); naive_solver lia.
    - rewrite decide_False by lia. done. }
  destruct (r_arr r1) as [l|] eqn:El.
  2: { subst r1. destruct (_ <=? _) eqn:Heq; [done|]. rewrite (wf_none _ Hwf1 El) in Heq. lia. }
  rewrite (slot_registered r1 _ l) by done. run.
  assert (Hnone : registered r1 (reg_id e) = None).
  { rewrite Hreg. destruct (decide (_ ∧ _)) as [?|Heq]; [done|]. destruct Hfree as [Hge|?]; [|done].
    apply registered_beyond. lia. }
  rewrite Hnone. eexists. split; [done|]. split_and!.
  - eapply set_wf; [done..| |right; split; [done|by rewrite reg_id_set_backend]].
    intros i a' Hi ->. rewrite reg_id_set_backend. destruct (wf_slot _ Hwf1 _ _ _ El Hi) as (e' & He' & <-).
    rewrite Hh1 in He'. by simplify_eq.
  - simpl. by rewrite Hh1.
  - intros j. change (registered (set_heap ?x a ?y) j) with (registered x j).
    rewrite (registered_set_slot r1 _ _ _ l) by done. by rewrite Hreg.
Qed.

(** An occupied slot below [_max_uid] is kept: the new structure is refused. *)
Lemma register_taken r a e b a' :
  reg_wf r → r_heap r !! a = Some e → 0 ≤ reg_id e < r_max r → reg_id e < INT_MAX →
  registered r (reg_id e) = Some a' → register (Some a) b r = Val (INVALID_USER, r).
Proof.
  intros Hwf Ha He Hm Hreg. unfold register. rewrite Ha. simpl.
  replace (reg_id e =? INVALID_USER) with false by (symmetry; unfold INVALID_USER, INT_MAX in *; lia).
  replace (INT_MAX <=? reg_id e) with false by (symmetry; lia).
  replace (r_max r <=? reg_id e) with false by (symmetry; lia).
  destruct (r_arr r) as [l|] eqn:El; [|rewrite (wf_none _ Hwf El) in He; lia].
  rewrite (slot_registered r _ l) by (auto with lia). run. by rewrite Hreg.
Qed.

Lemma get_by_id_registered r uid :
  reg_wf r → 0 < r_max r → 0 ≤ uid < INVALID_USER → get_by_id uid r = Val (registered r uid).
Proof.
  intros Hwf Hm Hu. unfold get_by_id.
  replace (uid =? INVALID_USER) with false by (symmetry; lia).
  destruct (Z.ltb_spec (r_max r) uid); [by rewrite registered_beyond|].
  replace (r_max r =? 0) with false by (symmetry; lia).
  destruct (r_arr r) as [l|] eqn:El; [|rewrite (wf_none _ Hwf El) in Hm; lia].
  apply (slot_registered r _ l); auto with lia.
Qed.

Lemma set_slot_None_wf r uid : reg_wf r → reg_wf (set_slot r uid None).
Proof.
  intros Hwf. split; simpl; [apply (wf_max _ Hwf)|..].
  - intros Hn%fmap_None. by apply (wf_none _ Hwf).
  - intros l (l0 & Hl & ->)%fmap_Some. rewrite length_insert. by apply (wf_length _ Hwf).
  - intros l i a (l0 & Hl & ->)%fmap_Some Hi. apply (wf_slot _ Hwf l0); [done|].
    destruct (decide (i = Z.to_nat uid)) as [->|Hne]; [|by rewrite list_lookup_insert_ne in Hi].
    apply list_lookup_insert_Some in Hi as [(_ & ? & _)|[? _]]; done.
Qed.

Lemma unregister_spec r uid l :
  reg_wf r → r_arr r = Some l → 0 ≤ uid ≤ r_max r →
  ∃ r', unregister uid r = Val (registered r uid, r') ∧ reg_wf r' ∧
    ∀ j, registered r' j = if decide (j = uid) then None else registered r j.
Proof.
  intros Hwf Hl Hu. unfold unregister. pose proof (wf_max _ Hwf).
  replace (uid =? INVALID_USER) with false by (symmetry; unfold INVALID_USER, INT_MAX in *; lia).
  replace (r_max r <? uid) with false by (symmetry; lia).
  rewrite (slot_registered r uid l) by done. run.
  destruct (registered r uid) as [a|] eqn:Hr; eexists; (split; [done|]).
  - split; [by apply set_slot_None_wf|]. intros j. by rewrite (registered_set_slot r uid _ j l).
  - split; [done|]. intros j. case_decide; by subst.
Qed.

Lemma update_spec r uid l old new e :
  reg_wf r → r_arr r = Some l → 0 ≤ uid ≤ r_max r → registered r uid = Some old →
  r_heap r !! new = Some e → 0 ≤ reg_id e ≤ r_max r →
  (reg_id e = uid ∨ registered r (reg_id e) = None) →
  ∃ r', update uid new r = Val (0, r') ∧ reg_wf r' ∧ r_heap r' !! old = Some e ∧
    ∀ j, registered r' j = if decide (j = reg_id e) then Some old
                           else if decide (j = uid) then None else registered r j.
Proof.
  intros Hwf Hl Hu Hold Hnew He Hfree. pose proof (wf_max _ Hwf) as Hm. unfold update.
  replace (uid =? INVALID_USER) with false by (symmetry; unfold INVALID_USER, INT_MAX in *; lia).
  replace (r_max r <? uid) with false by (symmetry; lia).
  rewrite (slot_registered r uid l) by done. run. rewrite Hold, Hnew.
  run.
  assert (Hslot : ∀ i a, l !! i = Some (Some a) → a = old → Z.of_nat i = uid).
  { intros i a Hi ->. destruct (wf_slot _ Hwf _ _ _ Hl Hi) as (e1 & He1 & <-).
    assert (Hi' : l !! Z.to_nat uid = Some (Some old)).
    { unfold registered in Hold. rewrite Hl in Hold. destruct (_ && _); [|done].
      by destruct (l !! Z.to_nat uid) as [[?|]|]; simplify_eq/=. }
    destruct (wf_slot _ Hwf _ _ _ Hl Hi') as (e2 & He2 & Hid). simplify_eq. lia. }
  destruct (Z.eqb_spec uid (reg_id e)) as [->|Hne]; cbn [mbind outcome_mbind andb].
  - assert (Hreg : ∀ j, registered r j = if decide (j = reg_id e) then Some old
        else if decide (j = reg_id e) then None else registered r j).
    { intros j. case_decide; [by subst|done]. }
    case_bool_decide as Hsame.
    + subst. exists r. split_and!; [done..|]. apply Hreg.
    + exists (set_heap r old e). split_and!; [done| |by simpl; rewrite lookup_insert_eq|apply Hreg].
      split; simpl; [apply (wf_max _ Hwf)|apply (wf_none _ Hwf)|apply (wf_length _ Hwf)|].
      intros l' i a Hl' Hi. simplify_eq. destruct (decide (a = old)) as [->|Hna].
      * exists e. rewrite lookup_insert_eq. split; [done|]. symmetry. by eapply Hslot.
      * rewrite lookup_insert_ne by done. by apply (wf_slot _ Hwf l).
  - destruct Hfree as [?|Hfree]; [done|].
    rewrite (slot_registered r (reg_id e) l), Hfree by done. run.
    rewrite bool_decide_eq_false_2 by (intros ?; done).
    assert (Hwf1 : reg_wf (set_slot r uid None)) by (by apply set_slot_None_wf).
    assert (Hl1 : r_arr (set_slot r uid None) = Some (<[Z.to_nat uid := None]> l)) by (simpl; by rewrite Hl).
    eexists. split; [done|].
    assert (Hcomm : set_slot (set_slot (set_heap r old e) (reg_id e) (Some old)) uid None =
      set_heap (set_slot (set_slot r uid None) (reg_id e) (Some old)) old e).
    { unfold set_slot, set_heap. simpl. rewrite Hl. simpl. f_equal. f_equal. apply list_insert_insert_ne. lia. }
    rewrite Hcomm. split_and!.
    + eapply set_wf; [done..| |by right]. intros i a Hi ->.
      destruct (decide (i = Z.to_nat uid)) as [->|Hiu].
      * rewrite list_lookup_insert_eq in Hi by (pose proof (wf_length _ Hwf _ Hl); lia). done.
      * rewrite list_lookup_insert_ne in Hi by done. pose proof (Hslot i old Hi eq_refl). lia.
    + simpl. by rewrite lookup_insert_eq.
    + intros j. change (registered (set_heap ?x old e) j) with (registered x j).
      rewrite (registered_set_slot _ _ _ _ _ Hwf1 Hl1) by done.
      by rewrite (registered_set_slot r _ _ _ l).
Qed.

(** *** Searching the array *)

Lemma find_free_spec n s r l :
  reg_wf r → r_arr r = Some l → 0 ≤ s → s + Z.of_nat n = r_max r →
  ∃ uid, find_free n s r = Val uid ∧ s ≤ uid ≤ r_max r ∧
    (uid < r_max r → registered r uid = None) ∧ ∀ j, s ≤ j < uid → registered r j ≠ None.
Proof.
  intros Hwf Hl. revert s. induction n as [|n IH]; intros s Hs Hn; simpl.
  - exists s. split_and!; [done|lia..].
  - rewrite (slot_registered r s l) by (auto with lia). run.
    destruct (registered r s) as [a|] eqn:Hr.
    + destruct (IH (s + 1)) as (uid & Hf & Hle & Hfree & Hocc); [lia..|].
      exists uid. split_and!; [done|lia..|done|]. intros j Hj.
      destruct (decide (j = s)) as [->|]; [by rewrite Hr|]. apply Hocc. lia.
    + exists s. split_and!; [done|lia|lia|done|lia].
Qed.

Lemma list_ids_spec n s r l :
  reg_wf r → r_arr r = Some l → 0 ≤ s → s + Z.of_nat n ≤ r_max r →
  ∃ ids, list_ids n s r = Val ids ∧
    ∀ j, j ∈ ids ↔ s ≤ j < s + Z.of_nat n ∧ registered r j ≠ None.
Proof.
  intros Hwf Hl. pose proof (wf_max _ Hwf) as Hm. revert s. induction n as [|n IH]; intros s Hs Hn; simpl.
  - exists []. split; [done|]. intros j. rewrite elem_of_nil. lia.
  - rewrite (slot_registered r s l) by (auto with lia). run.
    destruct (IH (s + 1)) as (ids & -> & Hids); [lia..|]. run.
    assert (Hin : ∀ j, j ∈ ids → j ≠ s) by (intros j Hj%Hids; lia).
    destruct (registered r s) as [a|] eqn:Hr.
    + assert (Hi : l !! Z.to_nat s = Some (Some a)).
      { unfold registered in Hr. rewrite Hl in Hr. destruct (_ && _); [|done].
        by destruct (l !! Z.to_nat s) as [[?|]|]; simplify_eq/=. }
      destruct (wf_slot _ Hwf _ _ _ Hl Hi) as (e & He & Hid). rewrite He. run.
      replace (reg_id e =? INVALID_USER) with false by (symmetry; unfold INVALID_USER, INT_MAX in *; lia).
      eexists. split; [done|]. intros j. rewrite elem_of_cons, Hids, Hid.
      destruct (decide (j = s)) as [->|]; [rewrite Hr; naive_solver lia|naive_solver lia].
    + exists ids. split; [done|]. intros j. rewrite Hids.
      destruct (decide (j = s)) as [->|]; [rewrite Hr; naive_solver lia|naive_solver lia].
Qed.

(** The structure registered under [i] has this name. *)
Definition named (r : registry) (i : Z) (name : list ascii) : Prop :=
  ∃ a e, registered r i = Some a ∧ r_heap r !! a = Some e ∧ reg_name e = name.

Lemma scan_name_spec n s name r l :
  reg_wf r → r_arr r = Some l → 0 ≤ s → s + Z.of_nat n ≤ r_max r + 1 →
  ∃ p, scan_name n s name r = Val p ∧
    match p with
    | Some a => ∃ i, s ≤ i < s + Z.of_nat n ∧ registered r i = Some a ∧ named r i name ∧
                  ∀ j, s ≤ j < i → ¬ named r j name
    | None => ∀ j, s ≤ j < s + Z.of_nat n → ¬ named r j name
    end.
Proof.
  intros Hwf Hl. revert s. induction n as [|n IH]; intros s Hs Hn; simpl.
  { exists None. split; [done|lia]. }
  rewrite (slot_registered r s l) by (auto with lia). run.
  assert (Hskip : ¬ named r s name → ∃ p, scan_name n (s + 1) name r = Val p ∧
    match p with
    | Some a => ∃ i, s ≤ i < s + Z.of_nat (S n) ∧ registered r i = Some a ∧ named r i name ∧
                  ∀ j, s ≤ j < i → ¬ named r j name
    | None => ∀ j, s ≤ j < s + Z.of_nat (S n) → ¬ named r j name
    end).
  { intros Hno. destruct (IH (s + 1)) as (p & -> & Hp); [lia..|]. exists p. split; [done|].
    assert (Hj : ∀ j, s ≤ j → (s + 1 ≤ j → ¬ named r j name) → ¬ named r j name).
    { intros j Hj1 Hj2. destruct (decide (j = s)) as [->|]; [done|]. apply Hj2. lia. }
    destruct p as [a|].
    - destruct Hp as (i & Hi & Ha & Hnm & Hfirst). exists i. split_and!; [lia|lia|done|done|].
      intros j ?. apply Hj; [lia|]. intros ?. apply Hfirst. lia.
    - intros j ?. apply Hj; [lia|]. intros ?. apply Hp. lia. }
  destruct (registered r s) as [a|] eqn:Hr.
  - destruct (registered_heap r s a Hwf Hr) as (e & He & _). rewrite He. run.
    unfold streq. case_bool_decide as Hname.
    + exists (Some a). split; [done|]. exists s. split_and!; [lia|lia|done|by exists a, e|lia].
    + apply Hskip. intros (a' & e' & ? & ? & ?). simplify_eq.
  - apply Hskip. intros (a' & e' & ? & ? & ?). congruence.
Qed.

Lemma get_by_name_spec r name :
  reg_wf r → name ≠ [] →
  ∃ p, get_by_name (Some name) r = Val p ∧
    match p with
    | Some a => ∃ i, 0 ≤ i ≤ r_max r ∧ registered r i = Some a ∧ named r i name ∧
                  ∀ j, 0 ≤ j < i → ¬ named r j name
    | None => r_max r = 0 ∨ ∀ j, ¬ named r j name
    end.
Proof.
  intros Hwf Hname. pose proof (wf_max _ Hwf). unfold get_by_name.
  replace (Z.of_nat (length name) <? 1) with false by (symmetry; apply Z.ltb_ge; destruct name; [done|simpl; lia]).
  destruct (Z.eqb_spec (r_max r) 0) as [Hz|Hz]; simpl orb; [exists None; auto|].
  destruct (r_arr r) as [l|] eqn:Hl; [|by pose proof (wf_none _ Hwf Hl)].
  destruct (scan_name_spec (Z.to_nat (r_max r + 1)) 0 name r l) as (p & -> & Hp); [done..|lia|].
  exists p. split; [done|]. destruct p as [a|].
  - destruct Hp as (i & Hi & ?). exists i. split; [lia|done].
  - right. intros j Hj. destruct (decide (0 ≤ j ≤ r_max r)); [by apply (Hp j); [lia|]|].
    destruct Hj as (a & e & Ha & _). destruct (decide (j < 0)); [by rewrite registered_neg in Ha|].
    by rewrite registered_beyond in Ha by lia.
Qed.

(** *** Reachable registries *)

Definition array_addrs (r : registry) : list addr := omap id (default [] (r_arr r)).

(** A completed call of an operation, or a structure that is not registered
    written elsewhere in the server; identifiers are unsigned 32-bit integers. *)
Inductive reg_step : registry → registry → Prop :=
  | rs_write r a e : a ∉ array_addrs r → reg_step r (set_heap r a e)
  | rs_register r a e b ret r' : r_heap r !! a = Some e → 0 ≤ reg_id e →
      register (Some a) b r = Val (ret, r') → reg_step r r'
  | rs_update r uid new e ret r' : 0 ≤ uid → r_heap r !! new = Some e → 0 ≤ reg_id e →
      update uid new r = Val (ret, r') → reg_step r r'
  | rs_unregister r uid ret r' : 0 ≤ uid → unregister uid r = Val (ret, r') → reg_step r r'
  | rs_free r : reg_step r (free_registry r).

Lemma register_wf r a e b ret r' :
  reg_wf r → r_heap r !! a = Some e → 0 ≤ reg_id e →
  register (Some a) b r = Val (ret, r') → reg_wf r'.
Proof.
  intros Hwf Ha He Hreg. destruct (decide (INT_MAX ≤ reg_id e)) as [Hbig|Hbig].
  - unfold register in Hreg. rewrite Ha in Hreg. run in Hreg.
    replace (INT_MAX <=? reg_id e) with true in Hreg by (symmetry; lia).
    destruct (_ =? _); by simplify_eq.
  - destruct (decide (r_max r ≤ reg_id e)) as [Hge|Hlt]; [|destruct (registered r (reg_id e)) as [a'|] eqn:Hr].
    + destruct (register_spec r a e b Hwf Ha ltac:(lia) ltac:(by left)) as (r1 & Hr1 & ? & _).
      rewrite Hr1 in Hreg. by simplify_eq.
    + rewrite (register_taken r a e b a') in Hreg by (auto with lia). by simplify_eq.
    + destruct (register_spec r a e b Hwf Ha ltac:(lia) ltac:(by right)) as (r1 & Hr1 & ? & _).
      rewrite Hr1 in Hreg. by simplify_eq.
Qed.

Lemma update_wf r uid new e ret r' :
  reg_wf r → 0 ≤ uid → r_heap r !! new = Some e → 0 ≤ reg_id e →
  update uid new r = Val (ret, r') → reg_wf r'.
Proof.
  intros Hwf Hu Hnew He Hup. pose proof Hup as Hup'. unfold update in Hup.
  destruct (uid =? INVALID_USER); [by simplify_eq|]. destruct (Z.ltb_spec (r_max r) uid); [by simplify_eq|].
  apply outcome_bind_Val in Hup as (cell & Hcell & Hup). destruct cell as [old|]; [|by simplify_eq].
  destruct (r_arr r) as [l|] eqn:Hl; [|unfold slot in Hcell; by rewrite Hl in Hcell].
  rewrite (slot_registered r uid l) in Hcell by done. simplify_eq.
  rewrite Hnew in Hup. run in Hup.
  destruct (Z.eqb_spec uid (reg_id e)) as [->|Hne]; cbn [mbind outcome_mbind andb] in Hup.
  - destruct (update_spec r (reg_id e) l old new e) as (r1 & Hr1 & ? & _); [auto with lia..|].
    rewrite Hr1 in Hup'. by simplify_eq.
  - destruct (slot r (reg_id e)) as [c|] eqn:Hc; [|done]. run in Hup.
    destruct (bool_decide (c ≠ None)) eqn:Ht; [by simplify_eq|]. clear Hup.
    apply bool_decide_eq_false, dec_stable in Ht. subst c.
    assert (Hle : 0 ≤ reg_id e ≤ r_max r).
    { unfold slot in Hc. rewrite Hl in Hc. simpl in Hc. destruct (l !! Z.to_nat (reg_id e)) eqn:Hlk; [|done].
      apply lookup_lt_Some in Hlk. pose proof (wf_length _ Hwf _ Hl). lia. }
    rewrite (slot_registered r (reg_id e) l) in Hc by done. injection Hc as Hc.
    destruct (update_spec r uid l old new e) as (r1 & Hr1 & ? & _); [auto with lia..|].
    rewrite Hr1 in Hup'. by simplify_eq.
Qed.

Lemma reg_step_wf r r' : reg_step r r' → reg_wf r → reg_wf r'.
Proof.
  intros Hstep Hwf. destruct Hstep as [r a e Ha| |r uid new e ret r' Hu|r uid ret r' Hu Hun|r].
  - split; simpl; [apply (wf_max _ Hwf)|apply (wf_none _ Hwf)|apply (wf_length _ Hwf)|].
    intros l i a' Hl Hi. destruct (wf_slot _ Hwf _ _ _ Hl Hi) as (e' & He' & ?).
    exists e'. rewrite lookup_insert_ne; [done|]. intros <-. apply Ha. unfold array_addrs. rewrite Hl.
    apply list_elem_of_omap. exists (Some a). split; [by eapply list_elem_of_lookup_2|done].
  - by eapply register_wf.
  - by apply (update_wf r uid new e ret).
  - unfold unregister in Hun. destruct (uid =? INVALID_USER); [by simplify_eq|].
    destruct (r_max r <? uid); [by simplify_eq|].
    apply outcome_bind_Val in Hun as (cell & Hcell & Hun).
    destruct cell; simplify_eq; [by apply set_slot_None_wf|done].
  - split; simpl; unfold INT_MAX; try done; lia.
Qed.

Lemma reg_steps_wf r r' : rtc reg_step r r' → reg_wf r → reg_wf r'.
Proof. induction 1; eauto using reg_step_wf. Qed.

Lemma empty_registry_wf h : reg_wf (empty_registry h).
Proof. split; simpl; unfold INT_MAX; try done; lia. Qed.

End registry.
#[global] Arguments registry _ : clear implicits.

(** ** Correctness of the registries *)

Section theorems.
  Context {E : Type} `{RegisteredLaws E}.

(** Every registry reached from the empty one by registrations, updates,
    removals and the final release is well formed: the array has one slot more
    than [_max_uid], and whoever is stored in slot [i] has identifier [i]; so a
    lookup by identifier is never out of bounds. *)
Theorem registry_reachable_wf (h : gmap addr E) (r : registry E) uid :
  rtc reg_step (empty_registry h) r → 0 ≤ uid →
  reg_wf r ∧ ∃ p, get_by_id uid r = Val p.
Proof.
  intros Hsteps Hu. pose proof (reg_steps_wf _ _ Hsteps (empty_registry_wf h)) as Hwf.
  split; [done|]. unfold get_by_id. destruct (uid =? INVALID_USER); [eauto|].
  destruct (Z.ltb_spec (r_max r) uid); [eauto|]. destruct (Z.eqb_spec (r_max r) 0); [eauto|].
  destruct (r_arr r) as [l|] eqn:Hl; [|by pose proof (wf_none _ Hwf Hl)].
  rewrite (slot_registered r uid l) by done. eauto.
Qed.

(** Registering a structure under a free identifier, in a registry whose
    last slot is free, makes it the one found under that identifier and leaves
    every other registration as it was. *)
Theorem register_then_lookup (r : registry E) a e b :
  reg_wf r → r_heap r !! a = Some e → 0 ≤ reg_id e < INT_MAX →
  registered r (reg_id e) = None → registered r (r_max r) = None →
  ∃ r', register (Some a) b r = Val (reg_id e, r') ∧ reg_wf r' ∧
    registered r' (reg_id e) = Some a ∧ ∀ j, j ≠ reg_id e → registered r' j = registered r j.
Proof.
  intros Hwf Ha He Hfree Hlast.
  destruct (register_spec r a e b Hwf Ha He ltac:(by right)) as (r' & Hreg & Hwf' & _ & Hall).
  exists r'. split_and!; [done..| |].
  - rewrite Hall. by rewrite decide_True.
  - intros j Hj. rewrite Hall, decide_False by done. destruct (decide (_ ∧ _)) as [[_ ->]|]; [by rewrite Hlast|done].
Qed.

(** When the array has to grow, the structure sitting in its last slot is
    lost: it was registered under [_max_uid], a structure with an identifier
    not below [_max_uid] is registered, and afterwards the former is no longer
    found. In particular a second structure with identifier [_max_uid] is not
    refused, it silently replaces the first. *)
Theorem register_growth_drops_last (r : registry E) a e b a' :
  reg_wf r → r_heap r !! a = Some e → r_max r ≤ reg_id e < INT_MAX →
  registered r (r_max r) = Some a' → a' ≠ a →
  ∃ r', register (Some a) b r = Val (reg_id e, r') ∧ ∀ j, registered r' j ≠ Some a'.
Proof.
  intros Hwf Ha He Hlast Hne. pose proof (wf_max _ Hwf) as Hm.
  destruct (register_spec r a e b Hwf Ha ltac:(lia) ltac:(left; lia)) as (r' & Hreg & Hwf' & _ & Hall).
  exists r'. split; [done|]. intros j. rewrite Hall. destruct (decide (j = reg_id e)); [naive_solver|].
  destruct (decide (_ ∧ _)) as [|Hj]; [done|]. intros Hja.
  assert (j = r_max r); [|naive_solver lia].
  destruct (registered_heap r j a' Hwf Hja) as (e1 & ? & ?), (registered_heap r _ a' Hwf Hlast) as (e2 & ? & ?).
  congruence.
Qed.

(** The list of identifiers returned for a registry holds every registered
    identifier below [_max_uid] and nothing else: the structure in the last
    slot is not listed. *)
Theorem get_list_all_but_last (r : registry E) l :
  reg_wf r → r_arr r = Some l →
  ∃ ids, get_list r = Val ids ∧
    ∀ j, j ∈ ids ↔ 0 ≤ j < r_max r ∧ registered r j ≠ None.
Proof.
  intros Hwf Hl. pose proof (wf_max _ Hwf).
  destruct (list_ids_spec (Z.to_nat (r_max r)) 0 r l) as (ids & Hids & Hin); [done..|lia|].
  exists ids. split; [done|]. intros j. rewrite Hin. naive_solver lia.
Qed.

(** [user_find_free_uid] returns the first free identifier from [start] on:
    every identifier it skips is registered, and the one it returns is not,
    unless it is [_max_uid] itself, which it never looks at. *)
Theorem find_free_id_first (r : registry E) l start :
  reg_wf r → r_arr r = Some l → 0 ≤ start ≤ r_max r →
  ∃ uid, find_free_id start r = Val uid ∧ start ≤ uid ≤ r_max r ∧
    (uid < r_max r → registered r uid = None) ∧ ∀ j, start ≤ j < uid → registered r j ≠ None.
Proof.
  intros Hwf Hl Hs. unfold find_free_id. pose proof (wf_max _ Hwf).
  replace (start =? INVALID_USER) with false by (symmetry; unfold INVALID_USER, INT_MAX in *; lia).
  apply (find_free_spec _ _ r l); [done..|lia|lia].
Qed.

(** [user_update] to a free identifier of the array moves the structure:
    the registered pointer stays valid, now holds the new contents, is found
    under the new identifier only, and no other registration changes. *)
Theorem update_moves (r : registry E) uid l old new e :
  reg_wf r → r_arr r = Some l → 0 ≤ uid ≤ r_max r → registered r uid = Some old →
  r_heap r !! new = Some e → 0 ≤ reg_id e ≤ r_max r →
  (reg_id e = uid ∨ registered r (reg_id e) = None) →
  ∃ r', update uid new r = Val (0, r') ∧ reg_wf r' ∧ r_heap r' !! old = Some e ∧
    ∀ j, registered r' j = if decide (j = reg_id e) then Some old
                           else if decide (j = uid) then None else registered r j.
Proof. apply update_spec. Qed.

End theorems.
