(* ===== verification/Users.v ===== *)
(** * Users and groups: libwzd-core/wzd_user.c, wzd_group.c, wzd_misc.c

    The structures of users and groups, their registries as the two instances
    of [Registry], the flags of a user, the groups of a user. *)

From S2P Require Import Prelude CList Ip Registry.

Definition HARD_USERNAME_LENGTH : nat := 256.
Definition HARD_GROUPNAME_LENGTH : nat := 128.
Definition MAX_PASS_LENGTH : nat := 48.
Definition MAX_TAGLINE_LENGTH : nat := 256.
Definition WZD_MAX_PATH : nat := 1024.
Definition MAX_GROUPS_PER_USER : nat := 32.
Definition MAX_FLAGS_NUM : nat := 32.

(** Error codes. *)
Inductive wzd_errno_t :=
  | E_OK | E_NO_DATA_CTX | E_PARAM_NULL | E_PARAM_BIG | E_PARAM_INVALID | E_PARAM_EXIST | E_WRONGPATH
  | E_NOTDIR | E_ISDIR | E_NOPERM | E_TIMEOUT | E_DATATIMEOUT | E_CONNECTTIMEOUT | E_PASV_FAILED
  | E_PORT_INVALIDIP | E_XFER_PROGRESS | E_XFER_REJECTED | E_CREDS_INSUFF | E_USER_REJECTED
  | E_USER_NO_HOME | E_USER_NOIP | E_USER_MAXUSERIP | E_USER_MAXGROUPIP | E_USER_CLOSED | E_USER_DELETED
  | E_USER_NUMLOGINS | E_USER_LOGINSPERIP | E_USER_TOOMANYUSERS | E_USER_TLSFORCED | E_GROUP_NUMLOGINS
  | E_PASS_REJECTED | E_FILE_NOEXIST | E_FILE_FORBIDDEN | E_FILE_TYPE | E_USER_IDONTEXIST
  | E_USER_ICANTSUICIDE | E_USER_NOBODY | E_MKDIR_PARSE | E_MKDIR_PATHFILTER | E_COMMAND_FAILED | E_NOMEM.
#[global] Instance wzd_errno_t_eq_dec : EqDecision wzd_errno_t.
Proof. solve_decision. Defined.

Definition FLAG_SITEOP : ascii := "O".
Definition FLAG_GADMIN : ascii := "G".
Definition FLAG_DELETED : ascii := "D".
Definition FLAG_COLOR : ascii := "5".

Record wzd_stats_t := mkStats {
  bytes_ul_total : Z; bytes_dl_total : Z; files_ul_total : Z; files_dl_total : Z }.

(** [char] arrays are buffers; the list of addresses is the chain of cells that
    [ip_list] points to. *)
Record wzd_user_t := mkUser {
  uid : Z;
  u_backend_id : Z;
  username : list ascii;
  userpass : list ascii;
  rootpath : list ascii;
  creator : Z;
  u_tagline : list ascii;
  group_num : Z;
  groups : list Z;
  u_max_idle_time : Z;
  userperms : Z;
  flags : list ascii;
  u_max_ul_speed : Z;
  u_max_dl_speed : Z;
  u_num_logins : Z;
  logins_per_ip : Z;
  u_ip_list : list wzd_ip_list_t;
  stats : wzd_stats_t;
  credits : Z;
  u_ratio : Z;
  user_slots : Z;
  leech_slots : Z;
  last_login : Z }.

Record wzd_group_t := mkGroup {
  gid : Z;
  g_backend_id : Z;
  groupname : list ascii;
  g_tagline : list ascii;
  groupperms : Z;
  g_flags : list ascii;
  g_max_idle_time : Z;
  g_num_logins : Z;
  g_max_ul_speed : Z;
  g_max_dl_speed : Z;
  g_ratio : Z;
  g_ip_list : list wzd_ip_list_t;
  defaultpath : list ascii }.

(** Assignments to a field. *)
Definition set_u_backend (u : wzd_user_t) (b : Z) : wzd_user_t :=
  mkUser (uid u) b (username u) (userpass u) (rootpath u) (creator u) (u_tagline u) (group_num u)
    (groups u) (u_max_idle_time u) (userperms u) (flags u) (u_max_ul_speed u) (u_max_dl_speed u)
    (u_num_logins u) (logins_per_ip u) (u_ip_list u) (stats u) (credits u) (u_ratio u)
    (user_slots u) (leech_slots u) (last_login u).
Definition set_flags (u : wzd_user_t) (f : list ascii) : wzd_user_t :=
  mkUser (uid u) (u_backend_id u) (username u) (userpass u) (rootpath u) (creator u) (u_tagline u)
    (group_num u) (groups u) (u_max_idle_time u) (userperms u) f (u_max_ul_speed u)
    (u_max_dl_speed u) (u_num_logins u) (logins_per_ip u) (u_ip_list u) (stats u) (credits u)
    (u_ratio u) (user_slots u) (leech_slots u) (last_login u).
Definition set_groups (u : wzd_user_t) (n : Z) (g : list Z) : wzd_user_t :=
  mkUser (uid u) (u_backend_id u) (username u) (userpass u) (rootpath u) (creator u) (u_tagline u)
    n g (u_max_idle_time u) (userperms u) (flags u) (u_max_ul_speed u)
    (u_max_dl_speed u) (u_num_logins u) (logins_per_ip u) (u_ip_list u) (stats u) (credits u)
    (u_ratio u) (user_slots u) (leech_slots u) (last_login u).
Definition set_uid (u : wzd_user_t) (i : Z) : wzd_user_t :=
  mkUser i (u_backend_id u) (username u) (userpass u) (rootpath u) (creator u) (u_tagline u)
    (group_num u) (groups u) (u_max_idle_time u) (userperms u) (flags u) (u_max_ul_speed u)
    (u_max_dl_speed u) (u_num_logins u) (logins_per_ip u) (u_ip_list u) (stats u) (credits u)
    (u_ratio u) (user_slots u) (leech_slots u) (last_login u).
Definition set_u_ip_list (u : wzd_user_t) (l : list wzd_ip_list_t) : wzd_user_t :=
  mkUser (uid u) (u_backend_id u) (username u) (userpass u) (rootpath u) (creator u) (u_tagline u)
    (group_num u) (groups u) (u_max_idle_time u) (userperms u) (flags u) (u_max_ul_speed u)
    (u_max_dl_speed u) (u_num_logins u) (logins_per_ip u) l (stats u) (credits u)
    (u_ratio u) (user_slots u) (leech_slots u) (last_login u).
Definition set_rootpath (u : wzd_user_t) (p : list ascii) : wzd_user_t :=
  mkUser
    (uid u) (u_backend_id u) (username u) (userpass u) p (creator u) (u_tagline u)
    (group_num u) (groups u) (u_max_idle_time u) (userperms u) (flags u) (u_max_ul_speed u)
    (u_max_dl_speed u) (u_num_logins u) (logins_per_ip u) (u_ip_list u) (stats u) (credits u)
    (u_ratio u) (user_slots u) (leech_slots u) (last_login u).
Definition set_creator (u : wzd_user_t) (i : Z) : wzd_user_t :=
  mkUser
    (uid u) (u_backend_id u) (username u) (userpass u) (rootpath u) i (u_tagline u)
    (group_num u) (groups u) (u_max_idle_time u) (userperms u) (flags u) (u_max_ul_speed u)
    (u_max_dl_speed u) (u_num_logins u) (logins_per_ip u) (u_ip_list u) (stats u) (credits u)
    (u_ratio u) (user_slots u) (leech_slots u) (last_login u).
Definition set_u_tagline (u : wzd_user_t) (t : list ascii) : wzd_user_t :=
  mkUser
    (uid u) (u_backend_id u) (username u) (userpass u) (rootpath u) (creator u) t (group_num u)
    (groups u) (u_max_idle_time u) (userperms u) (flags u) (u_max_ul_speed u)
    (u_max_dl_speed u) (u_num_logins u) (logins_per_ip u) (u_ip_list u) (stats u) (credits u)
    (u_ratio u) (user_slots u) (leech_slots u) (last_login u).
Definition set_max_idle_time (u : wzd_user_t) (n : Z) : wzd_user_t :=
  mkUser
    (uid u) (u_backend_id u) (username u) (userpass u) (rootpath u) (creator u) (u_tagline u)
    (group_num u) (groups u) n (userperms u) (flags u) (u_max_ul_speed u) (u_max_dl_speed u)
    (u_num_logins u) (logins_per_ip u) (u_ip_list u) (stats u) (credits u) (u_ratio u)
    (user_slots u) (leech_slots u) (last_login u).
Definition set_userperms (u : wzd_user_t) (n : Z) : wzd_user_t :=
  mkUser
    (uid u) (u_backend_id u) (username u) (userpass u) (rootpath u) (creator u) (u_tagline u)
    (group_num u) (groups u) (u_max_idle_time u) n (flags u) (u_max_ul_speed u)
    (u_max_dl_speed u) (u_num_logins u) (logins_per_ip u) (u_ip_list u) (stats u) (credits u)
    (u_ratio u) (user_slots u) (leech_slots u) (last_login u).
Definition set_max_ul_speed (u : wzd_user_t) (n : Z) : wzd_user_t :=
  mkUser
    (uid u) (u_backend_id u) (username u) (userpass u) (rootpath u) (creator u) (u_tagline u)
    (group_num u) (groups u) (u_max_idle_time u) (userperms u) (flags u) n (u_max_dl_speed u)
    (u_num_logins u) (logins_per_ip u) (u_ip_list u) (stats u) (credits u) (u_ratio u)
    (user_slots u) (leech_slots u) (last_login u).
Definition set_max_dl_speed (u : wzd_user_t) (n : Z) : wzd_user_t :=
  mkUser
    (uid u) (u_backend_id u) (username u) (userpass u) (rootpath u) (creator u) (u_tagline u)
    (group_num u) (groups u) (u_max_idle_time u) (userperms u) (flags u) (u_max_ul_speed u) n
    (u_num_logins u) (logins_per_ip u) (u_ip_list u) (stats u) (credits u) (u_ratio u)
    (user_slots u) (leech_slots u) (last_login u).
Definition set_num_logins (u : wzd_user_t) (n : Z) : wzd_user_t :=
  mkUser
    (uid u) (u_backend_id u) (username u) (userpass u) (rootpath u) (creator u) (u_tagline u)
    (group_num u) (groups u) (u_max_idle_time u) (userperms u) (flags u) (u_max_ul_speed u)
    (u_max_dl_speed u) n (logins_per_ip u) (u_ip_list u) (stats u) (credits u) (u_ratio u)
    (user_slots u) (leech_slots u) (last_login u).
Definition set_logins_per_ip (u : wzd_user_t) (n : Z) : wzd_user_t :=
  mkUser
    (uid u) (u_backend_id u) (username u) (userpass u) (rootpath u) (creator u) (u_tagline u)
    (group_num u) (groups u) (u_max_idle_time u) (userperms u) (flags u) (u_max_ul_speed u)
    (u_max_dl_speed u) (u_num_logins u) n (u_ip_list u) (stats u) (credits u) (u_ratio u)
    (user_slots u) (leech_slots u) (last_login u).
Definition set_stats (u : wzd_user_t) (s : wzd_stats_t) : wzd_user_t :=
  mkUser (uid u) (u_backend_id u) (username u) (userpass u) (rootpath u) (creator u) (u_tagline u) (group_num u)
    (groups u) (u_max_idle_time u) (userperms u) (flags u) (u_max_ul_speed u) (u_max_dl_speed u) (u_num_logins u)
    (logins_per_ip u) (u_ip_list u) s (credits u) (u_ratio u) (user_slots u) (leech_slots u) (last_login u).
Definition set_credits (u : wzd_user_t) (n : Z) : wzd_user_t :=
  mkUser
    (uid u) (u_backend_id u) (username u) (userpass u) (rootpath u) (creator u) (u_tagline u)
    (group_num u) (groups u) (u_max_idle_time u) (userperms u) (flags u) (u_max_ul_speed u)
    (u_max_dl_speed u) (u_num_logins u) (logins_per_ip u) (u_ip_list u) (stats u) n (u_ratio u)
    (user_slots u) (leech_slots u) (last_login u).
Definition set_ratio (u : wzd_user_t) (n : Z) : wzd_user_t :=
  mkUser
    (uid u) (u_backend_id u) (username u) (userpass u) (rootpath u) (creator u) (u_tagline u)
    (group_num u) (groups u) (u_max_idle_time u) (userperms u) (flags u) (u_max_ul_speed u)
    (u_max_dl_speed u) (u_num_logins u) (logins_per_ip u) (u_ip_list u) (stats u) (credits u) n
    (user_slots u) (leech_slots u) (last_login u).
Definition set_user_slots (u : wzd_user_t) (n : Z) : wzd_user_t :=
  mkUser
    (uid u) (u_backend_id u) (username u) (userpass u) (rootpath u) (creator u) (u_tagline u)
    (group_num u) (groups u) (u_max_idle_time u) (userperms u) (flags u) (u_max_ul_speed u)
    (u_max_dl_speed u) (u_num_logins u) (logins_per_ip u) (u_ip_list u) (stats u) (credits u)
    (u_ratio u) n (leech_slots u) (last_login u).
Definition set_leech_slots (u : wzd_user_t) (n : Z) : wzd_user_t :=
  mkUser
    (uid u) (u_backend_id u) (username u) (userpass u) (rootpath u) (creator u) (u_tagline u)
    (group_num u) (groups u) (u_max_idle_time u) (userperms u) (flags u) (u_max_ul_speed u)
    (u_max_dl_speed u) (u_num_logins u) (logins_per_ip u) (u_ip_list u) (stats u) (credits u)
    (u_ratio u) (user_slots u) n (last_login u).
Definition set_g_backend (g : wzd_group_t) (b : Z) : wzd_group_t :=
  mkGroup (gid g) b (groupname g) (g_tagline g) (groupperms g) (g_flags g) (g_max_idle_time g)
    (g_num_logins g) (g_max_ul_speed g) (g_max_dl_speed g) (g_ratio g) (g_ip_list g) (defaultpath g).
Definition set_g_ip_list (g : wzd_group_t) (l : list wzd_ip_list_t) : wzd_group_t :=
  mkGroup (gid g) (g_backend_id g) (groupname g) (g_tagline g) (groupperms g) (g_flags g)
    (g_max_idle_time g) (g_num_logins g) (g_max_ul_speed g) (g_max_dl_speed g) (g_ratio g) l (defaultpath g).
Definition set_groupname (g : wzd_group_t) (s : list ascii) : wzd_group_t :=
  mkGroup (gid g) (g_backend_id g) s (g_tagline g) (groupperms g) (g_flags g) (g_max_idle_time g)
    (g_num_logins g) (g_max_ul_speed g) (g_max_dl_speed g) (g_ratio g) (g_ip_list g) (defaultpath g).
Definition set_g_tagline (g : wzd_group_t) (s : list ascii) : wzd_group_t :=
  mkGroup (gid g) (g_backend_id g) (groupname g) s (groupperms g) (g_flags g) (g_max_idle_time g)
    (g_num_logins g) (g_max_ul_speed g) (g_max_dl_speed g) (g_ratio g) (g_ip_list g) (defaultpath g).
Definition set_groupperms (g : wzd_group_t) (n : Z) : wzd_group_t :=
  mkGroup (gid g) (g_backend_id g) (groupname g) (g_tagline g) n (g_flags g) (g_max_idle_time g)
    (g_num_logins g) (g_max_ul_speed g) (g_max_dl_speed g) (g_ratio g) (g_ip_list g) (defaultpath g).
Definition set_g_flags (g : wzd_group_t) (s : list ascii) : wzd_group_t :=
  mkGroup (gid g) (g_backend_id g) (groupname g) (g_tagline g) (groupperms g) s (g_max_idle_time g)
    (g_num_logins g) (g_max_ul_speed g) (g_max_dl_speed g) (g_ratio g) (g_ip_list g) (defaultpath g).
Definition set_g_idle (g : wzd_group_t) (n : Z) : wzd_group_t :=
  mkGroup (gid g) (g_backend_id g) (groupname g) (g_tagline g) (groupperms g) (g_flags g) n
    (g_num_logins g) (g_max_ul_speed g) (g_max_dl_speed g) (g_ratio g) (g_ip_list g) (defaultpath g).
Definition set_g_num_logins (g : wzd_group_t) (n : Z) : wzd_group_t :=
  mkGroup (gid g) (g_backend_id g) (groupname g) (g_tagline g) (groupperms g) (g_flags g) (g_max_idle_time g)
    n (g_max_ul_speed g) (g_max_dl_speed g) (g_ratio g) (g_ip_list g) (defaultpath g).
Definition set_g_max_ul (g : wzd_group_t) (n : Z) : wzd_group_t :=
  mkGroup (gid g) (g_backend_id g) (groupname g) (g_tagline g) (groupperms g) (g_flags g) (g_max_idle_time g)
    (g_num_logins g) n (g_max_dl_speed g) (g_ratio g) (g_ip_list g) (defaultpath g).
Definition set_g_max_dl (g : wzd_group_t) (n : Z) : wzd_group_t :=
  mkGroup (gid g) (g_backend_id g) (groupname g) (g_tagline g) (groupperms g) (g_flags g) (g_max_idle_time g)
    (g_num_logins g) (g_max_ul_speed g) n (g_ratio g) (g_ip_list g) (defaultpath g).
Definition set_g_ratio (g : wzd_group_t) (n : Z) : wzd_group_t :=
  mkGroup (gid g) (g_backend_id g) (groupname g) (g_tagline g) (groupperms g) (g_flags g) (g_max_idle_time g)
    (g_num_logins g) (g_max_ul_speed g) (g_max_dl_speed g) n (g_ip_list g) (defaultpath g).
Definition set_defaultpath (g : wzd_group_t) (s : list ascii) : wzd_group_t :=
  mkGroup (gid g) (g_backend_id g) (groupname g) (g_tagline g) (groupperms g) (g_flags g) (g_max_idle_time g)
    (g_num_logins g) (g_max_ul_speed g) (g_max_dl_speed g) (g_ratio g) (g_ip_list g) s.

(** ** The two registries *)

#[global] Instance user_registered : Registered wzd_user_t := {
  reg_id := uid; reg_name u := cstring (username u); reg_set_backend := set_u_backend }.
#[global] Instance group_registered : Registered wzd_group_t := {
  reg_id := gid; reg_name g := cstring (groupname g); reg_set_backend := set_g_backend }.
#[global] Instance user_registered_laws : RegisteredLaws wzd_user_t.
Proof. by split. Qed.
#[global] Instance group_registered_laws : RegisteredLaws wzd_group_t.
Proof. by split. Qed.

Definition users := registry wzd_user_t.
Definition wzd_groups := registry wzd_group_t.

Definition user_register : option addr → Z → users → outcome (Z * users) := register.
Definition user_update : Z → addr → users → outcome (Z * users) := update.
Definition user_unregister : Z → users → outcome (option addr * users) := unregister.
Definition user_free_registry : users → users := free_registry.
Definition user_get_by_id : Z → users → outcome (option addr) := get_by_id.
Definition user_get_by_name : option (list ascii) → users → outcome (option addr) := get_by_name.
Definition user_get_list : users → outcome (list Z) := get_list.
Definition user_find_free_uid : Z → users → outcome Z := find_free_id.

Definition group_register : option addr → Z → wzd_groups → outcome (Z * wzd_groups) := register.
Definition group_update : Z → addr → wzd_groups → outcome (Z * wzd_groups) := update.
Definition group_unregister : Z → wzd_groups → outcome (option addr * wzd_groups) := unregister.
Definition group_free_registry : wzd_groups → wzd_groups := free_registry.
Definition group_get_by_id : Z → wzd_groups → outcome (option addr) := get_by_id.
Definition group_get_by_name : option (list ascii) → wzd_groups → outcome (option addr) := get_by_name.
Definition group_get_list : wzd_groups → outcome (list Z) := get_list.
Definition group_find_free_gid : Z → wzd_groups → outcome Z := find_free_id.

(** [memset(user,0,...)] and the two identifiers set to -1. *)
Definition user_init_struct : wzd_user_t :=
  mkUser INVALID_USER 0 (replicate HARD_USERNAME_LENGTH NUL) (replicate MAX_PASS_LENGTH NUL)
    (replicate WZD_MAX_PATH NUL) INVALID_USER (replicate MAX_TAGLINE_LENGTH NUL) 0
    (replicate MAX_GROUPS_PER_USER 0) 0 0 (replicate MAX_FLAGS_NUM NUL) 0 0 0 0 []
    (mkStats 0 0 0 0) 0 0 0 0 0.

Definition group_init_struct : wzd_group_t :=
  mkGroup INVALID_USER 0 (replicate HARD_GROUPNAME_LENGTH NUL) (replicate MAX_TAGLINE_LENGTH NUL)
    (2 ^ 32 - 1) (replicate MAX_FLAGS_NUM NUL) 0 0 0 0 0 [] (replicate WZD_MAX_PATH NUL).

Definition user_ip_add (user : option wzd_user_t) (ip : list ascii) (is_authorized : Z)
    : Z * option wzd_user_t :=
  match user with
  | None => (-1, None)
  | Some u => let '(ret, l) := ip_add_check (u_ip_list u) ip is_authorized in (ret, Some (set_u_ip_list u l))
  end.

Definition group_ip_add (group : option wzd_group_t) (ip : list ascii) (is_authorized : Z)
    : Z * option wzd_group_t :=
  match group with
  | None => (-1, None)
  | Some g => let '(ret, l) := ip_add_check (g_ip_list g) ip is_authorized in (ret, Some (set_g_ip_list g l))
  end.

(** ** Flags *)

Fixpoint flags_add_loop (s : list ascii) (currlen j : Z) (buf : list ascii) : outcome (list ascii) :=
  match s with
  | [] => Val buf
  | c :: s =>
    if isalnum c then
      cur ← buf_str buf;
      if strchr cur c then flags_add_loop s currlen j buf else
      buf' ← buf_set buf (currlen + j) c;
      flags_add_loop s currlen (j + 1) buf'
    else flags_add_loop s currlen j buf
  end.

(** [user] and [flags] are pointers, null when absent. *)
Definition user_flags_add (user : option wzd_user_t) (fl : option (list ascii))
    : outcome (Z * option wzd_user_t) :=
  match user, fl with
  | Some u, Some (c0 :: s0) =>
    let s := c0 :: s0 in
    let length := Z.of_nat (length s) in
    cur ← buf_str (flags u);
    if (strchr cur FLAG_SITEOP && strchr s FLAG_GADMIN)
       || (strchr cur FLAG_GADMIN && strchr s FLAG_SITEOP)
       || (strchr s FLAG_SITEOP && strchr s FLAG_GADMIN) then Val (-2, user) else
    let currlen := Z.of_nat (List.length cur) in
    if Z.of_nat MAX_FLAGS_NUM <=? currlen + length then Val (-3, user) else
    buf ← flags_add_loop s currlen 0 (flags u);
    buf ← buf_set buf (currlen + length) NUL;
    Val (0, Some (set_flags u buf))
  | _, _ => Val (-1, user)
  end.

Fixpoint flags_delete_loop (cur fl : list ascii) (pos : Z) (newflags : list ascii) : outcome (list ascii) :=
  match cur with
  | [] => Val newflags
  | c :: cur =>
    if bool_decide (c ∈ fl) then flags_delete_loop cur fl pos newflags else
    newflags' ← buf_set newflags pos c;
    flags_delete_loop cur fl (pos + 1) newflags'
  end.

Definition user_flags_delete (user : option wzd_user_t) (fl : option (list ascii))
    : outcome (Z * option wzd_user_t) :=
  match user, fl with
  | Some u, Some (c0 :: s0) =>
    let s := c0 :: s0 in
    if Z.of_nat MAX_FLAGS_NUM <=? Z.of_nat (length s) then Val (-1, user) else
    cur ← buf_str (flags u);
    newflags ← flags_delete_loop cur s 0 (replicate MAX_FLAGS_NUM NUL);
    Val (0, Some (set_flags u (strncpy (flags u) (cstring newflags) MAX_FLAGS_NUM)))
  | _, _ => Val (-1, user)
  end.

Definition user_flags_clear (u : wzd_user_t) : wzd_user_t :=
  set_flags u (replicate MAX_FLAGS_NUM NUL).

Definition user_flags_change (user : option wzd_user_t) (newflags : option (list ascii))
    : outcome (Z * option wzd_user_t) :=
  match user, newflags with
  | Some u, Some fl =>
    match fl with
    | [] => Val (-1, user)
    | c :: rest =>
      if bool_decide (c = "+"%char) then
        '(ret, user') ← user_flags_add user (Some rest);
        Val (if ret =? -2 then -5 else if ret <? 0 then -2 else 0, user')
      else if bool_decide (c = "-"%char) then
        '(ret, user') ← user_flags_delete user (Some rest);
        Val (if negb (ret =? 0) then -3 else 0, user')
      else if isalnum c then
        if Z.of_nat MAX_FLAGS_NUM <=? Z.of_nat (length fl) then Val (-1, user) else
        if strchr fl FLAG_SITEOP && strchr fl FLAG_GADMIN then Val (-5, user) else
        '(ret, user') ← user_flags_add (Some (user_flags_clear u)) (Some fl);
        Val (if negb (ret =? 0) then -4 else 0, user')
      else Val (-1, user)
    end
  | _, _ => Val (-1, user)
  end.

(** ** The groups of a user *)

(** [for (i=0; i<group_num; i++) if (gid==groups[i]) return 1;] *)
Fixpoint scan_groups (n i : nat) (gid : Z) (l : list Z) : outcome bool :=
  match n with
  | O => Val false
  | S n => g ← deref (l !! i); if gid =? g then Val true else scan_groups n (S i) gid l
  end.

Definition is_user_in_group (user : option wzd_user_t) (gid : Z) : outcome Z :=
  match user with
  | None => Val (-1)
  | Some u =>
    if group_num u <=? 0 then Val (-1) else
    found ← scan_groups (Z.to_nat (group_num u)) 0 gid (groups u);
    Val (if found : bool then 1 else 0)
  end.

(** The last index below [group_num] that holds [gid]. *)
Fixpoint last_index (n i : nat) (gid : Z) (l : list Z) (idx : option nat) : outcome (option nat) :=
  match n with
  | O => Val idx
  | S n => g ← deref (l !! i); last_index n (S i) gid l (if g =? gid then Some i else idx)
  end.

Fixpoint shift_groups (n i : nat) (l : list Z) : outcome (list Z) :=
  match n with
  | O => Val l
  | S n => g ← deref (l !! S i); shift_groups n (S i) (<[i := g]> l)
  end.

Definition group_remove_user (user : option wzd_user_t) (gid : Z) : outcome (Z * option wzd_user_t) :=
  match user with
  | None => Val (-1, user)
  | Some u =>
    if group_num u <=? 0 then Val (-1, user) else
    let num := Z.to_nat (group_num u) in
    found ← last_index num 0 gid (groups u) None;
    match found with
    | None => Val (-1, user)
    | Some idx =>
      l ← shift_groups (num - idx) idx (groups u);
      Val (0, Some (set_groups u (group_num u - 1) l))
    end
  end.

(** One user of the loop of [group_list_users]: every slot of [groups] is
    looked at, whatever [group_num] is. *)
Fixpoint group_match (gs : list Z) (gid : Z) (flag : ascii) (fl : list ascii) : bool :=
  match gs with
  | [] => false
  | g :: gs =>
    if (g =? gid) && (bool_decide (flag = NUL) || strchr fl flag) then true
    else group_match gs gid flag fl
  end.

Fixpoint members (n : nat) (i : Z) (gid : Z) (flag : ascii) (r : users) : outcome (list Z) :=
  match n with
  | O => Val []
  | S n =>
    cell ← slot r i;
    rest ← members n (i + 1) gid flag r;
    match cell with
    | None => Val rest
    | Some a =>
      u ← deref (r_heap r !! a);
      Val (if negb (uid u =? INVALID_USER)
              && group_match (take MAX_GROUPS_PER_USER (groups u)) gid flag (cstring (flags u))
           then uid u :: rest else rest)
    end
  end.

Definition group_list_users (gid : Z) (flag : ascii) (us : users) (gs : wzd_groups)
    : outcome (option (list Z)) :=
  g ← group_get_by_id gid gs;
  match g with
  | None => Val None
  | Some _ => l ← members (Z.to_nat (r_max us)) 0 gid flag us; Val (Some l)
  end.

(** ** Flags: correctness *)

(** The flags of a user are a duplicate-free string in a zero-filled buffer,
    and nobody is both site operator and group administrator. *)
Record flags_ok (u : wzd_user_t) (fs : list ascii) : Prop := {
  fo_buf : flags u = padded MAX_FLAGS_NUM fs;
  fo_nul : nul_free fs;
  fo_len : (length fs < MAX_FLAGS_NUM)%nat;
  fo_dup : NoDup fs;
  fo_excl : ¬ (FLAG_SITEOP ∈ fs ∧ FLAG_GADMIN ∈ fs) }.

(** What adding the characters of [s] to the flags [fs] means. *)
Definition add_flag (fs : list ascii) (c : ascii) : list ascii :=
  if isalnum c && negb (bool_decide (c ∈ fs)) then fs ++ [c] else fs.
Definition add_flags (fs s : list ascii) : list ascii := foldl add_flag fs s.

Lemma isalnum_not_nul c : isalnum c = true → c ≠ NUL.
Proof. by intros H ->. Qed.

Lemma strchr_elem s c : c ≠ NUL → strchr s c = bool_decide (c ∈ s).
Proof. intros. unfold strchr. by rewrite bool_decide_eq_false_2. Qed.

Lemma elem_of_add_flags s fs c : c ∈ add_flags fs s ↔ c ∈ fs ∨ c ∈ s ∧ isalnum c = true.
Proof.
  unfold add_flags. revert fs. induction s as [|d s IH]; intros fs; simpl.
  { rewrite elem_of_nil. naive_solver. }
  rewrite IH, elem_of_cons. unfold add_flag. destruct (isalnum d) eqn:Hd; simpl.
  - case_bool_decide; simpl; rewrite ?elem_of_app, ?list_elem_of_singleton; split; intros [?|?]; intuition (subst; auto).
  - split; [tauto|]. intros [?|[[->|?] ?]]; [tauto|congruence|tauto].
Qed.

Lemma NoDup_add_flags s fs : NoDup fs → NoDup (add_flags fs s).
Proof.
  unfold add_flags. revert fs. induction s as [|d s IH]; intros fs Hfs; simpl; [done|].
  apply IH. unfold add_flag. destruct (isalnum d); simpl; [|done]. case_bool_decide; simpl; [done|].
  apply NoDup_app. split_and!; [done|set_solver|apply NoDup_singleton].
Qed.

Lemma length_add_flags s fs : (length fs ≤ length (add_flags fs s) ≤ length fs + length s)%nat.
Proof.
  unfold add_flags. revert fs. induction s as [|d s IH]; intros fs; simpl; [lia|].
  pose proof (IH (add_flag fs d)). unfold add_flag in *. destruct (_ && _); [|lia].
  rewrite length_app in *. simpl in *. lia.
Qed.

Lemma nul_free_add_flags s fs : nul_free fs → nul_free (add_flags fs s).
Proof. unfold nul_free. rewrite elem_of_add_flags. intros ? [?|[_ ?]]; done. Qed.

Lemma flags_add_loop_spec s n fs currlen j :
  nul_free fs → (length fs + length s < n)%nat → currlen + j = Z.of_nat (length fs) →
  flags_add_loop s currlen j (padded n fs) = Val (padded n (add_flags fs s)).
Proof.
  revert fs j. induction s as [|c s IH]; intros fs j Hnul Hlen Hj; simpl in *; [done|].
  unfold add_flag. destruct (isalnum c) eqn:Hc; simpl; [|apply IH; auto with lia].
  rewrite buf_str_padded by (auto with lia). run.
  rewrite strchr_elem by (by apply isalnum_not_nul). case_bool_decide; simpl; [apply IH; auto with lia|].
  rewrite Hj, buf_set_padded by lia. run. apply IH.
  - unfold nul_free in *. apply isalnum_not_nul in Hc. set_solver.
  - rewrite length_app. simpl. lia.
  - rewrite length_app. simpl. lia.
Qed.

Definition conflict (cur s : list ascii) : bool :=
  (strchr cur FLAG_SITEOP && strchr s FLAG_GADMIN)
  || (strchr cur FLAG_GADMIN && strchr s FLAG_SITEOP)
  || (strchr s FLAG_SITEOP && strchr s FLAG_GADMIN).

Lemma conflict_add_flags cur s :
  ¬ (FLAG_SITEOP ∈ cur ∧ FLAG_GADMIN ∈ cur) → conflict cur s = false →
  ¬ (FLAG_SITEOP ∈ add_flags cur s ∧ FLAG_GADMIN ∈ add_flags cur s).
Proof.
  intros Hex Hc. unfold conflict in Hc. rewrite !strchr_elem in Hc by done.
  rewrite !elem_of_add_flags. repeat case_bool_decide; simpl in Hc; naive_solver.
Qed.

(** [user_flags_add] on every branch. *)
Lemma user_flags_add_spec u fs c s0 :
  flags_ok u fs → let s := c :: s0 in
  user_flags_add (Some u) (Some s) = Val
    (if conflict fs s then (-2, Some u) else
     if (MAX_FLAGS_NUM <=? length fs + length s)%nat then (-3, Some u) else
     (0, Some (set_flags u (padded MAX_FLAGS_NUM (add_flags fs s))))).
Proof.
  intros [Hb Hn Hl Hd He] s. unfold user_flags_add, s. rewrite Hb, buf_str_padded by done.
  run. fold s. fold (conflict fs s). destruct (conflict fs s); [done|].
  destruct (Nat.leb_spec MAX_FLAGS_NUM (length fs + length s)).
  - by replace (_ <=? _) with true by (symmetry; lia).
  - replace (_ <=? _) with false by (symmetry; lia).
    rewrite flags_add_loop_spec by (auto with lia). run.
    pose proof (length_add_flags s fs). rewrite buf_set_padded_nul by lia. done.
Qed.

Lemma add_flags_ok u fs s :
  flags_ok u fs → conflict fs s = false → (length fs + length s < MAX_FLAGS_NUM)%nat →
  flags_ok (set_flags u (padded MAX_FLAGS_NUM (add_flags fs s))) (add_flags fs s).
Proof.
  intros [Hb Hn Hl Hd He] Hc Hlen. pose proof (length_add_flags s fs). split; simpl.
  - done.
  - by apply nul_free_add_flags.
  - lia.
  - by apply NoDup_add_flags.
  - by apply conflict_add_flags.
Qed.

Lemma flags_delete_loop_spec cur fl n acc :
  (length acc + length cur ≤ n)%nat →
  flags_delete_loop cur fl (Z.of_nat (length acc)) (padded n acc)
  = Val (padded n (acc ++ filter (λ c, c ∉ fl) cur)).
Proof.
  revert acc. induction cur as [|c cur IH]; intros acc Hlen; simpl in *; [by rewrite app_nil_r|].
  rewrite filter_cons. case_bool_decide as Hc.
  - rewrite decide_False by (by intros ?). apply IH. lia.
  - rewrite decide_True by done. rewrite buf_set_padded by lia. run.
    replace (Z.of_nat (length acc) + 1) with (Z.of_nat (length (acc ++ [c]))) by (rewrite length_app; simpl; lia).
    rewrite IH by (rewrite length_app; simpl; lia). by rewrite <- app_assoc.
Qed.

(** [user_flags_delete] on every branch. *)
Lemma user_flags_delete_spec u fs c s0 :
  flags_ok u fs → let s := c :: s0 in
  user_flags_delete (Some u) (Some s) = Val
    (if (MAX_FLAGS_NUM <=? length s)%nat then (-1, Some u) else
     (0, Some (set_flags u (padded MAX_FLAGS_NUM (filter (λ c, c ∉ s) fs))))).
Proof.
  intros [Hb Hn Hl Hd He] s. unfold user_flags_delete, s. fold s.
  destruct (Nat.leb_spec MAX_FLAGS_NUM (length s)).
  { by replace (_ <=? _) with true by (symmetry; lia). }
  replace (_ <=? _) with false by (symmetry; lia). rewrite Hb, buf_str_padded by done. run.
  pose proof (flags_delete_loop_spec fs s MAX_FLAGS_NUM [] ltac:(simpl; lia)) as Hloop. simpl in Hloop.
  change (Z.of_nat 0) with 0 in Hloop. change (padded MAX_FLAGS_NUM []) with (replicate MAX_FLAGS_NUM NUL) in Hloop.
  rewrite Hloop. run.
  pose proof (length_filter (λ c, c ∉ s) fs) as Hlen.
  assert (nul_free (filter (λ c, c ∉ s) fs)) by (unfold nul_free in *; rewrite list_elem_of_filter; naive_solver).
  pose proof (buf_str_padded MAX_FLAGS_NUM (filter (λ c, c ∉ s) fs)) as Hcs.
  unfold buf_str in Hcs. destruct (bool_decide _); [|by specialize (Hcs ltac:(done) ltac:(lia))].
  injection (Hcs ltac:(done) ltac:(lia)) as ->.
  rewrite strncpy_padded by (rewrite ?length_padded; lia). done.
Qed.

Lemma delete_flags_ok u fs (s : list ascii) :
  flags_ok u fs →
  flags_ok (set_flags u (padded MAX_FLAGS_NUM (filter (λ c, c ∉ s) fs))) (filter (λ c, c ∉ s) fs).
Proof.
  intros [Hb Hn Hl Hd He]. pose proof (length_filter (λ c, c ∉ s) fs). split; simpl.
  - done.
  - unfold nul_free in *. rewrite list_elem_of_filter. naive_solver.
  - lia.
  - by apply NoDup_filter.
  - rewrite !list_elem_of_filter. naive_solver.
Qed.

Lemma clear_flags_ok u : flags_ok (user_flags_clear u) [].
Proof. split; simpl; [done|unfold nul_free; set_solver|unfold MAX_FLAGS_NUM; lia|constructor|set_solver]. Qed.

(** ** Groups of a user: correctness *)

Lemma last_index_spec n i gid l idx :
  (i + n ≤ length l)%nat →
  ∃ r, last_index n i gid l idx = Val r ∧
    match r with
    | Some k => (idx = Some k ∧ ∀ m, (i ≤ m < i + n)%nat → l !! m ≠ Some gid) ∨
                ((i ≤ k < i + n)%nat ∧ l !! k = Some gid ∧ ∀ m, (k < m < i + n)%nat → l !! m ≠ Some gid)
    | None => idx = None ∧ ∀ m, (i ≤ m < i + n)%nat → l !! m ≠ Some gid
    end.
Proof.
  revert i idx. induction n as [|n IH]; intros i idx Hlen; simpl.
  - exists idx. split; [done|]. destruct idx; [left|]; (split; [done|lia]).
  - destruct (lookup_lt_is_Some_2 l i) as [g Hg]; [lia|]. rewrite Hg. run.
    destruct (IH (S i) (if g =? gid then Some i else idx)) as (r & -> & Hr); [lia|].
    exists r. split; [done|].
    assert (Hsplit : ∀ m, (i ≤ m < i + S n)%nat → m = i ∨ (S i ≤ m < S i + n)%nat) by lia.
    destruct (Z.eqb_spec g gid) as [->|Hne].
    + destruct r as [k|]; [|naive_solver]. destruct Hr as [[[=->] Hno]|(Hk & Hlk & Hno)]; right.
      * split_and!; [lia|lia|done|]. intros m Hm. apply Hno. lia.
      * split_and!; [lia|lia|done|]. intros m Hm. apply Hno. lia.
    + assert (Hi : l !! i ≠ Some gid) by congruence.
      destruct r as [k|].
      * destruct Hr as [[-> Hno]|(Hk & Hlk & Hno)]; [left|right].
        -- split; [done|]. intros m [->|?]%Hsplit; auto.
        -- split_and!; [lia|lia|done|]. intros m Hm. apply Hno. lia.
      * destruct Hr as [-> Hno]. split; [done|]. intros m [->|?]%Hsplit; auto.
Qed.

(** The shift drops entry [i]; slot [i+n] is read, and stays in place. *)
Lemma shift_groups_spec n i l :
  (i + n < length l)%nat →
  ∃ l', shift_groups n i l = Val l' ∧ length l' = length l ∧
    ∀ k, l' !! k = if decide (i ≤ k < i + n)%nat then l !! S k else l !! k.
Proof.
  revert i l. induction n as [|n IH]; intros i l Hlen; simpl.
  - exists l. split_and!; [done..|]. intros k. by rewrite decide_False by lia.
  - destruct (lookup_lt_is_Some_2 l (S i)) as [g Hg]; [lia|]. rewrite Hg. run.
    destruct (IH (S i) (<[i := g]> l)) as (l' & -> & Hl' & Hk); [rewrite length_insert; lia|].
    exists l'. rewrite length_insert in Hl'. split_and!; [done..|]. intros k. rewrite Hk.
    destruct (decide (k = i)) as [->|Hki].
    + rewrite decide_False, decide_True, list_lookup_insert_eq by lia. done.
    + destruct (decide (S i ≤ k < S i + n)%nat); [rewrite decide_True by lia|rewrite decide_False by lia];
        by rewrite list_lookup_insert_ne by lia.
Qed.

Lemma shift_groups_overrun n i l : (i + n = length l)%nat → (0 < n)%nat → shift_groups n i l = Crash.
Proof.
  revert i l. induction n as [|n IH]; intros i l Hlen Hn; simpl; [lia|].
  destruct (decide (n = 0%nat)) as [->|].
  - rewrite lookup_ge_None_2 by lia. done.
  - destruct (lookup_lt_is_Some_2 l (S i)) as [g Hg]; [lia|]. rewrite Hg. run.
    apply IH; [rewrite length_insert; lia|lia].
Qed.

Lemma scan_groups_spec n i gid l :
  (i + n ≤ length l)%nat →
  scan_groups n i gid l = Val (bool_decide (gid ∈ take n (drop i l))).
Proof.
  revert i. induction n as [|n IH]; intros i Hlen; simpl.
  - done.
  - destruct (lookup_lt_is_Some_2 l i) as [g Hg]; [lia|]. rewrite Hg. run.
    rewrite (drop_S _ _ _ Hg). cbn [take]. destruct (Z.eqb_spec gid g) as [->|Hne].
    + by rewrite bool_decide_eq_true_2 by set_solver.
    + rewrite IH by lia. f_equal. apply bool_decide_ext. rewrite elem_of_cons. naive_solver.
Qed.

Lemma group_match_spec gs g flag fl :
  group_match gs g flag fl = bool_decide (g ∈ gs) && (bool_decide (flag = NUL) || strchr fl flag).
Proof.
  induction gs as [|h gs IH]; cbn [group_match]; [by rewrite bool_decide_eq_false_2 by set_solver|].
  rewrite IH. destruct (bool_decide (flag = NUL) || strchr fl flag); rewrite ?andb_true_r, ?andb_false_r; [|done].
  destruct (Z.eqb_spec h g) as [->|Hne]; [by rewrite bool_decide_eq_true_2 by set_solver|].
  apply bool_decide_ext. rewrite elem_of_cons. naive_solver.
Qed.

(** Whether a registered user is listed for a group. *)
Definition listed_in (r : users) (gid : Z) (flag : ascii) (j : Z) : Prop :=
  ∃ a u, registered r j = Some a ∧ r_heap r !! a = Some u ∧
    gid ∈ take MAX_GROUPS_PER_USER (groups u) ∧ (flag = NUL ∨ flag ∈ cstring (flags u)).

Lemma members_spec n s gid flag r l :
  reg_wf r → r_arr r = Some l → 0 ≤ s → s + Z.of_nat n ≤ r_max r →
  ∃ ids, members n s gid flag r = Val ids ∧
    ∀ j, j ∈ ids ↔ s ≤ j < s + Z.of_nat n ∧ listed_in r gid flag j.
Proof.
  intros Hwf Hl. pose proof (wf_max _ Hwf) as Hm. revert s. induction n as [|n IH]; intros s Hs Hn; simpl.
  - exists []. split; [done|]. intros j. rewrite elem_of_nil. lia.
  - rewrite (slot_registered r s l) by (auto with lia). run.
    destruct (IH (s + 1)) as (ids & -> & Hids); [lia..|]. run.
    destruct (registered r s) as [a|] eqn:Hr.
    2: { exists ids. split; [done|]. intros j. rewrite Hids. split; intros [? Hj]; (split; [|done]); [lia|].
         destruct (decide (j = s)) as [->|]; [destruct Hj as (? & ? & ? & _); congruence|lia]. }
    destruct (registered_heap r s a Hwf Hr) as (u & Hu & Hid). rewrite Hu. run.
    change (uid u = s) in Hid.
    replace (uid u =? INVALID_USER) with false by (symmetry; unfold INVALID_USER, INT_MAX in *; lia).
    rewrite group_match_spec. simpl. eexists. split; [done|]. intros j.
    assert (Hiff : listed_in r gid flag s ↔ bool_decide (gid ∈ take MAX_GROUPS_PER_USER (groups u)) &&
       (bool_decide (flag = NUL) || strchr (cstring (flags u)) flag) = true).
    { unfold strchr, listed_in. rewrite andb_true_iff, !orb_true_iff, !bool_decide_eq_true.
      split; [intros (? & ? & ? & ? & ? & ?); simplify_eq; naive_solver|]. intros [? ?]. exists a, u. naive_solver. }
    destruct (_ && _).
    + rewrite elem_of_cons, Hids, Hid. destruct (decide (j = s)) as [->|]; naive_solver lia.
    + rewrite Hids. destruct (decide (j = s)) as [->|]; [|naive_solver lia].
      split; [lia|]. intros [_ Hj%Hiff]. done.
Qed.

(** ** Theorems *)

(** What a flag modification string asks for. *)
Definition flags_wanted (fs s : list ascii) (c : ascii) : Prop :=
  match s with
  | [] => c ∈ fs
  | c0 :: rest =>
    if bool_decide (c0 = "+"%char) then c ∈ fs ∨ (c ∈ rest ∧ isalnum c = true)
    else if bool_decide (c0 = "-"%char) then c ∈ fs ∧ c ∉ rest
    else c ∈ s ∧ isalnum c = true
  end.

(** [user_flags_change] on a user with a well-formed flag field never
    leaves the 32-byte buffer, keeps the field well formed (zero-padded, no
    duplicate, never both SITEOP and GADMIN), leaves the user as it was when it
    reports an error, and otherwise the new flags are exactly the union, the
    difference or the replacement the modification string asks for. *)
Theorem user_flags_change_correct (u : wzd_user_t) (fs s : list ascii) :
  flags_ok u fs →
  ∃ ret u' fs', user_flags_change (Some u) (Some s) = Val (ret, Some u') ∧ flags_ok u' fs' ∧
    (ret ≠ 0 → u' = u) ∧
    (ret = 0 → u' = set_flags u (flags u') ∧ ∀ c, c ∈ fs' ↔ flags_wanted fs s c).
Proof.
  intros Hok. destruct s as [|c0 rest]; [by exists (-1), u, fs|]. unfold user_flags_change, flags_wanted.
  case_bool_decide as Hplus; [|case_bool_decide as Hminus].
  - destruct rest as [|c s0]; [by exists (-2), u, fs|].
    rewrite (user_flags_add_spec u fs) by done. destruct (conflict fs _) eqn:Hc; [by exists (-5), u, fs|].
    destruct (Nat.leb_spec MAX_FLAGS_NUM (length fs + length (c :: s0))) as [Hl|Hl]; [by exists (-2), u, fs|].
    eexists 0, _, _. split; [done|]. split; [by apply (add_flags_ok u fs)|]. split; [done|].
    intros _. split; [done|]. intros d. apply elem_of_add_flags.
  - destruct rest as [|c s0]; [by exists (-3), u, fs|]. rewrite (user_flags_delete_spec u fs) by done.
    destruct (Nat.leb_spec MAX_FLAGS_NUM (length (c :: s0))) as [Hl|Hl]; [by exists (-3), u, fs|].
    eexists 0, _, _. split; [done|]. split; [by apply (delete_flags_ok u fs)|]. split; [done|].
    intros _. split; [done|]. intros d. rewrite list_elem_of_filter. tauto.
  - destruct (isalnum c0); [|by exists (-1), u, fs].
    destruct (Z.leb_spec (Z.of_nat MAX_FLAGS_NUM) (Z.of_nat (length (c0 :: rest)))) as [Hl|Hl]; [by exists (-1), u, fs|].
    destruct (strchr _ _ && _) eqn:Hc; [by exists (-5), u, fs|].
    pose proof (clear_flags_ok u) as Hok'. rewrite (user_flags_add_spec _ []) by done.
    assert (conflict [] (c0 :: rest) = false) as Hc'.
    { unfold conflict. rewrite Hc. by rewrite !strchr_elem by done. }
    rewrite Hc'. replace (_ <=? _)%nat with false by (symmetry; apply Nat.leb_gt; simpl in *; lia).
    eexists 0, _, _. split; [done|]. split; [apply (add_flags_ok _ []); simpl in *; auto with lia|]. split; [done|].
    intros _. split; [done|]. intros d. rewrite elem_of_add_flags. set_solver.
Qed.

Definition op_user : wzd_user_t := set_flags user_init_struct (padded MAX_FLAGS_NUM (str "Oh")).

Lemma op_user_flags_ok : flags_ok op_user (str "Oh").
Proof.
  split; [done|by apply (bool_decide_unpack _); vm_compute|unfold MAX_FLAGS_NUM; simpl; lia| |];
    apply (bool_decide_unpack _); vm_compute; done.
Qed.

Lemma user_flags_change_correct_witness :
  ∃ ret u' fs', user_flags_change (Some op_user) (Some (str "-O")) = Val (ret, Some u') ∧ flags_ok u' fs' ∧
    (ret ≠ 0 → u' = op_user) ∧
    (ret = 0 → u' = set_flags op_user (flags u') ∧ ∀ c, c ∈ fs' ↔ flags_wanted (str "Oh") (str "-O") c).
Proof. apply (user_flags_change_correct op_user (str "Oh") (str "-O")). exact op_user_flags_ok. Defined.

(** [group_remove_user] on a user with [n] of its 32 group slots in use:
    a group the user is not in is refused with -1; otherwise, when [n < 32],
    the last occurrence of the group is removed, the other groups keeping
    their order; when all 32 slots are in use, the shift reads past the array. *)
Theorem group_remove_user_correct (u : wzd_user_t) (g : Z) (n : nat) :
  length (groups u) = MAX_GROUPS_PER_USER → group_num u = Z.of_nat n → (n ≤ MAX_GROUPS_PER_USER)%nat →
  if decide (g ∈ take n (groups u)) then
    if decide (n < MAX_GROUPS_PER_USER)%nat then
      ∃ idx l', take n (groups u) !! idx = Some g ∧ (g ∉ drop (S idx) (take n (groups u))) ∧
        group_remove_user (Some u) g = Val (0, Some (set_groups u (Z.of_nat n - 1) l')) ∧
        take (n - 1) l' = delete idx (take n (groups u))
    else group_remove_user (Some u) g = Crash
  else group_remove_user (Some u) g = Val (-1, Some u).
Proof.
  intros Hlen Hnum Hn. unfold group_remove_user. rewrite Hnum, Nat2Z.id.
  destruct (Z.leb_spec (Z.of_nat n) 0) as [Hz|Hz].
  { assert (n = 0%nat) as -> by lia. by rewrite decide_False by (simpl; set_solver). }
  destruct (last_index_spec n 0 g (groups u) None) as (r & -> & Hr); [lia|]. run.
  destruct r as [k|].
  - destruct Hr as [[? _]|(Hk & Hlk & Hno)]; [done|].
    assert (Htk : take n (groups u) !! k = Some g) by (rewrite lookup_take_lt by lia; done).
    rewrite decide_True by (by eapply list_elem_of_lookup_2). destruct (decide _) as [Hlt|Hge].
    + destruct (shift_groups_spec (n - k) k (groups u)) as (l' & -> & Hl' & Hshift); [lia|].
      exists k, l'. split_and!; [done| |done|].
      * intros (m & Hm)%list_elem_of_lookup. rewrite lookup_drop in Hm.
        apply lookup_take_Some in Hm as [Hm1 Hm2]. by apply (Hno (S k + m)%nat); [lia|].
      * apply list_eq. intros i. destruct (decide (i < n - 1)%nat) as [Hi|Hi].
        -- rewrite lookup_take_lt by lia. rewrite Hshift. destruct (decide (i < k)%nat).
           ++ rewrite decide_False by lia. rewrite list_lookup_delete_lt by lia. by rewrite lookup_take_lt by lia.
           ++ rewrite decide_True by lia. rewrite list_lookup_delete_ge by lia. by rewrite lookup_take_lt by lia.
        -- rewrite lookup_take_ge by lia. symmetry. apply lookup_ge_None_2.
           rewrite length_delete by done. rewrite length_take. lia.
    + rewrite shift_groups_overrun by lia. done.
  - destruct Hr as [_ Hno]. rewrite decide_False; [done|].
    intros (m & [Hm1 Hm2]%lookup_take_Some)%list_elem_of_lookup. by apply (Hno m); [lia|].
Qed.

Definition grouped_user : wzd_user_t := set_groups user_init_struct 2 (3 :: 7 :: replicate 30 0).

Lemma group_remove_user_correct_witness :
  if decide (7 ∈ take 2 (groups grouped_user)) then
    if decide (2 < MAX_GROUPS_PER_USER)%nat then
      ∃ idx l', take 2 (groups grouped_user) !! idx = Some 7 ∧ (7 ∉ drop (S idx) (take 2 (groups grouped_user))) ∧
        group_remove_user (Some grouped_user) 7 = Val (0, Some (set_groups grouped_user (Z.of_nat 2 - 1) l')) ∧
        take (2 - 1) l' = delete idx (take 2 (groups grouped_user))
    else group_remove_user (Some grouped_user) 7 = Crash
  else group_remove_user (Some grouped_user) 7 = Val (-1, Some grouped_user).
Proof.
  apply (group_remove_user_correct grouped_user 7 2); [reflexivity|reflexivity|unfold MAX_GROUPS_PER_USER; lia].
Defined.

(** [group_list_users] of a registered group lists exactly the users below
    [_max_uid] that have the group in any of their 32 group slots (and the
    flag, when one is given); slots beyond [group_num], which are zero, count
    too, so a user with a spare slot is listed for group 0. *)
Theorem group_list_users_correct (us : users) (gs : wzd_groups) (g : Z) (flag : ascii) a l :
  reg_wf us → r_arr us = Some l → group_get_by_id g gs = Val (Some a) →
  ∃ ids, group_list_users g flag us gs = Val (Some ids) ∧
    ∀ j, j ∈ ids ↔ 0 ≤ j < r_max us ∧ listed_in us g flag j.
Proof.
  intros Hwf Hl Hg. unfold group_list_users. rewrite Hg. run.
  pose proof (wf_max _ Hwf).
  destruct (members_spec (Z.to_nat (r_max us)) 0 g flag us l) as (ids & -> & Hids); [done..|lia|].
  exists ids. split; [done|]. intros j. rewrite Hids. naive_solver lia.
Qed.

(** ** Concrete registries *)

(** Users with identifiers 5, 300 and 301. *)
Definition demo_heap : gmap addr wzd_user_t :=
  {[ 1%positive := set_uid grouped_user 5; 2%positive := set_uid op_user 300; 3%positive := set_uid op_user 301 ]}.
Definition after (m : outcome (Z * users)) : users :=
  match m with Val (_, r) => r | Crash => empty_registry ∅ end.
(** User 5 alone; user 300 alone. *)
Definition demo_users : users := after (user_register (Some 1%positive) 1 (empty_registry demo_heap)).
Definition demo_last : users := after (user_register (Some 2%positive) 1 (empty_registry demo_heap)).

Lemma demo_users_steps : rtc reg_step (empty_registry demo_heap) demo_users.
Proof. apply rtc_once. eapply (rs_register _ 1%positive _ 1); [reflexivity|by vm_compute|reflexivity]. Qed.

Lemma demo_last_steps : rtc reg_step (empty_registry demo_heap) demo_last.
Proof. apply rtc_once. eapply (rs_register _ 2%positive _ 1); [reflexivity|by vm_compute|reflexivity]. Qed.

Lemma demo_users_wf : reg_wf demo_users.
Proof. eapply reg_steps_wf; [apply demo_users_steps|apply empty_registry_wf]. Qed.
Lemma demo_last_wf : reg_wf demo_last.
Proof. eapply reg_steps_wf; [apply demo_last_steps|apply empty_registry_wf]. Qed.

Lemma registry_reachable_wf_witness : reg_wf demo_users ∧ ∃ p, get_by_id 5 demo_users = Val p.
Proof. apply (registry_reachable_wf demo_heap); [exact demo_users_steps|lia]. Defined.

Lemma register_then_lookup_witness :
  ∃ r', register (Some 2%positive) 1 demo_users = Val (reg_id (set_uid op_user 300), r') ∧ reg_wf r' ∧
    registered r' (reg_id (set_uid op_user 300)) = Some 2%positive ∧
    ∀ j, j ≠ reg_id (set_uid op_user 300) → registered r' j = registered demo_users j.
Proof.
  apply (register_then_lookup demo_users 2%positive (set_uid op_user 300));
    [exact demo_users_wf|reflexivity|simpl; unfold INT_MAX; lia|reflexivity|reflexivity].
Defined.

Lemma register_growth_drops_last_witness :
  ∃ r', register (Some 3%positive) 1 demo_last = Val (reg_id (set_uid op_user 301), r') ∧
    ∀ j, registered r' j ≠ Some 2%positive.
Proof.
  apply (register_growth_drops_last demo_last 3%positive (set_uid op_user 301));
    [exact demo_last_wf|reflexivity|split; [by vm_compute|simpl; unfold INT_MAX; lia]|reflexivity|done].
Defined.

Lemma get_list_all_but_last_witness :
  ∃ ids, get_list demo_users = Val ids ∧
    ∀ j, j ∈ ids ↔ 0 ≤ j < r_max demo_users ∧ registered demo_users j ≠ None.
Proof. eapply get_list_all_but_last; [exact demo_users_wf|reflexivity]. Defined.

Lemma find_free_id_first_witness :
  ∃ i, find_free_id 5 demo_users = Val i ∧ 5 ≤ i ≤ r_max demo_users ∧
    (i < r_max demo_users → registered demo_users i = None) ∧ ∀ j, 5 ≤ j < i → registered demo_users j ≠ None.
Proof. eapply find_free_id_first; [exact demo_users_wf|reflexivity|split; by vm_compute]. Defined.

Lemma update_moves_witness :
  ∃ r', update 300 3%positive (set_heap demo_last 3%positive (set_uid op_user 7)) = Val (0, r') ∧ reg_wf r' ∧
    r_heap r' !! 2%positive = Some (set_uid op_user 7) ∧
    ∀ j, registered r' j = if decide (j = reg_id (set_uid op_user 7)) then Some 2%positive
      else if decide (j = 300) then None else registered (set_heap demo_last 3%positive (set_uid op_user 7)) j.
Proof.
  eapply (update_moves _ 300 _ 2%positive 3%positive (set_uid op_user 7));
    [|reflexivity|split; by vm_compute|reflexivity|reflexivity|split; by vm_compute|right; reflexivity].
  eapply reg_steps_wf; [|apply demo_last_wf].
  apply rtc_once. apply (rs_write demo_last 3%positive). apply (bool_decide_unpack _). by vm_compute.
Defined.

Lemma group_list_users_correct_witness :
  ∃ ids, group_list_users 7 NUL demo_users
      (mkReg 7 (Some (replicate 7 None ++ [Some 9%positive])) ∅) = Val (Some ids) ∧
    ∀ j, j ∈ ids ↔ 0 ≤ j < r_max demo_users ∧ listed_in demo_users 7 NUL j.
Proof. eapply group_list_users_correct; [exact demo_users_wf|reflexivity|reflexivity]. Defined.
