(* ===== verification/Backend.v ===== *)
(** * The backend of users and groups: libwzd-core/wzd_backend.c and the
    plaintext backend, backends/plaintext/libplaintext_main.c

    A backend is a record of optional operations on the state of the server;
    the accessors of wzd_backend.c call it, and the plaintext backend implements
    it over the registries of [Users]. The class [LookupBackend] states what the
    accessors rely on. Password encryption ([changepass], [check_auth] of
    libwzd-auth) is a parameter. *)

From S2P Require Import Prelude Inet CList Ip Registry Users.

Inductive connection_state_t := STATE_UNKNOWN | STATE_CONNECTING | STATE_LOGGING | STATE_COMMAND | STATE_XFER.
Inductive tls_data_mode_t := TLS_CLEAR | TLS_PRIV.

(** The fields of a client's context that concern its control connection. *)
Record connection := mkConn {
  cn_family : net_family_t;
  cn_hostip : list Z;
  cn_ident : option (list ascii);
  cn_idnt_address : option (list ascii);
  cn_state : connection_state_t;
  cn_socket : Z;                      (** [control_socket] *)
  cn_tls_data_mode : tls_data_mode_t;
  cn_flags : Z;                       (** [connection_flags] *)
  cn_path : list ascii                (** [currentpath] *) }.

(** Those that concern its user, and the connection. *)
Record client := mkClient {
  c_magic : bool;  (** [magic == CONTEXT_MAGIC] *)
  c_userid : Z;
  c_ul_maxspeed : Z;
  c_dl_maxspeed : Z;
  c_pid : Z;       (** [pid_child] *)
  c_exit : bool;   (** [exitclient] *)
  c_conn : connection }.

(** The registries, [context_list], the counters of the plaintext backend and
    how many times the users file was written. *)
Record world := mkWorld {
  w_users : users;
  w_groups : wzd_groups;
  w_contexts : list client;
  w_user_count : Z;
  w_group_count : Z;
  w_file_writes : nat }.

Definition with_users (w : world) (us : users) : world :=
  mkWorld us (w_groups w) (w_contexts w) (w_user_count w) (w_group_count w) (w_file_writes w).
Definition with_groups (w : world) (gs : wzd_groups) : world :=
  mkWorld (w_users w) gs (w_contexts w) (w_user_count w) (w_group_count w) (w_file_writes w).
Definition with_contexts (w : world) (l : list client) : world :=
  mkWorld (w_users w) (w_groups w) l (w_user_count w) (w_group_count w) (w_file_writes w).
Definition write_user_file (w : world) : world :=
  mkWorld (w_users w) (w_groups w) (w_contexts w) (w_user_count w) (w_group_count w) (S (w_file_writes w)).
Definition count_user (w : world) : world :=
  mkWorld (w_users w) (w_groups w) (w_contexts w) (w_user_count w + 1) (w_group_count w) (w_file_writes w).
Definition count_group (w : world) : world :=
  mkWorld (w_users w) (w_groups w) (w_contexts w) (w_user_count w) (w_group_count w + 1) (w_file_writes w).

(** Release of one structure. *)
Definition free_user (w : world) (a : addr) : world :=
  let us := w_users w in with_users w (mkReg (r_max us) (r_arr us) (delete a (r_heap us))).
Definition free_group (w : world) (a : addr) : world :=
  let gs := w_groups w in with_groups w (mkReg (r_max gs) (r_arr gs) (delete a (r_heap gs))).

(** The result of [backend_get_user]: a structure, or for the identifier -2 an
    array of identifiers under the type of a pointer to a structure. *)
Inductive got := Got (p : option addr) | GotList (l : list Z).
Definition as_struct (g : got) : outcome (option addr) :=
  match g with Got p => Val p | GotList _ => Crash end.

Record wzd_backend_t := mkBackend {
  backend_validate_login : option (list ascii → world → outcome Z);
  backend_validate_pass : option (list ascii → list ascii → world → outcome Z);
  backend_get_user : option (Z → world → outcome got);
  backend_get_group : option (Z → world → outcome got);
  backend_find_user : option (list ascii → world → outcome Z);
  backend_find_group : option (list ascii → world → outcome Z);
  backend_mod_user : option (Z → option addr → Z → world → outcome (Z * world));
  backend_mod_group : option (Z → option addr → Z → world → outcome (Z * world)) }.

Definition GET_USER_LIST : Z := 2 ^ 32 - 2.

(** Bits of [mod_type]. *)
Definition _USER_USERNAME : Z := 0.
Definition _USER_USERPASS : Z := 1.
Definition _USER_ROOTPATH : Z := 2.
Definition _USER_TAGLINE : Z := 3.
Definition _USER_UID : Z := 4.
Definition _USER_GROUPNUM : Z := 5.
Definition _USER_GROUP : Z := 6.
Definition _USER_IDLE : Z := 7.
Definition _USER_PERMS : Z := 8.
Definition _USER_FLAGS : Z := 9.
Definition _USER_MAX_ULS : Z := 10.
Definition _USER_MAX_DLS : Z := 11.
Definition _USER_IP : Z := 12.
Definition _USER_BYTESUL : Z := 13.
Definition _USER_BYTESDL : Z := 14.
Definition _USER_CREDITS : Z := 15.
Definition _USER_NUMLOGINS : Z := 16.
Definition _USER_USERSLOTS : Z := 17.
Definition _USER_LEECHSLOTS : Z := 18.
Definition _USER_RATIO : Z := 19.
Definition _USER_CREATOR : Z := 20.
Definition _USER_LOGINSPERIP : Z := 21.
Definition _USER_ALL : Z := 65535.
Definition _USER_CREATE : Z := 2 ^ 24.
Definition _GROUP_GROUPNAME : Z := 0.
Definition _GROUP_GROUPPERMS : Z := 1.
Definition _GROUP_IDLE : Z := 2.
Definition _GROUP_MAX_ULS : Z := 3.
Definition _GROUP_MAX_DLS : Z := 4.
Definition _GROUP_RATIO : Z := 5.
Definition _GROUP_IP : Z := 6.
Definition _GROUP_DEFAULTPATH : Z := 7.
Definition _GROUP_NUMLOGINS : Z := 8.
Definition _GROUP_TAGLINE : Z := 9.
Definition _GROUP_FLAGS : Z := 11.
Definition _GROUP_CREATE : Z := 2 ^ 24.

(** [strcpy] between two arrays. *)
Definition buf_strcpy (dst src : list ascii) : outcome (list ascii) :=
  s ← buf_str src;
  if (length s <? length dst)%nat then Val (s ++ NUL :: drop (S (length s)) dst) else Crash.

(** ** Accessors of the core *)

Section accessors.
  (** [mainConfig->backends->b] *)
  Context (b : option wzd_backend_t).

Definition GetUserByID (id : Z) (w : world) : outcome got :=
  if id =? INVALID_USER then Val (Got None) else
  match b with
  | Some b => match backend_get_user b with Some f => f id w | None => Val (Got None) end
  | None => Val (Got None)
  end.

Definition GetUserByName (name : option (list ascii)) (w : world) : outcome got :=
  match name with
  | None | Some [] => Val (Got None)
  | Some name =>
    match b with
    | Some b' =>
      match backend_find_user b' with
      | Some f => uid ← f name w; if negb (uid =? INVALID_USER) then GetUserByID uid w else Val (Got None)
      | None => Val (Got None)
      end
    | None => Val (Got None)
    end
  end.

Definition GetUserIDByName (name : option (list ascii)) (w : world) : outcome Z :=
  g ← GetUserByName name w;
  p ← as_struct g;
  match p with
  | Some a => u ← deref (r_heap (w_users w) !! a); Val (uid u)
  | None => Val INVALID_USER
  end.

(** Unlike [GetUserByID], it passes the identifier -1 on to the backend. *)
Definition GetGroupByID (id : Z) (w : world) : outcome got :=
  match b with
  | Some b => match backend_get_group b with Some f => f id w | None => Val (Got None) end
  | None => Val (Got None)
  end.

Definition GetGroupByName (name : option (list ascii)) (w : world) : outcome got :=
  match name with
  | None | Some [] => Val (Got None)
  | Some name =>
    match b with
    | Some b' =>
      match backend_find_group b' with
      | Some f => gid ← f name w; if negb (gid =? INVALID_USER) then GetGroupByID gid w else Val (Got None)
      | None => Val (Got None)
      end
    | None => Val (Got None)
    end
  end.

Definition GetGroupIDByName (name : option (list ascii)) (w : world) : outcome Z :=
  g ← GetGroupByName name w;
  p ← as_struct g;
  match p with
  | Some a => g ← deref (r_heap (w_groups w) !! a); Val (gid g)
  | None => Val INVALID_USER
  end.

(** Common part of [backend_validate_login] and [backend_validate_pass]: the
    structure is copied to [user] when one is given. *)
Definition fetch_validated (ret : Z) (user : option addr) (w : world) : outcome (Z * option Z * world) :=
  if negb (ret =? INVALID_USER) then
    match user with
    | Some dst =>
      g ← GetUserByID ret w;
      p ← as_struct g;
      match p with
      | None => Val (-1, None, w)
      | Some a =>
        u ← deref (r_heap (w_users w) !! a);
        Val (0, Some ret, with_users w (set_heap (w_users w) dst u))
      end
    | None => Val (0, Some ret, w)
    end
  else Val (-1, None, w).

(** The result, the identifier stored through [userid], the state. *)
Definition validate_login (name : list ascii) (user : option addr) (w : world) : outcome (Z * option Z * world) :=
  match b with
  | Some b' =>
    match backend_validate_login b' with
    | Some f => ret ← f name w; fetch_validated ret user w
    | None => Val (-1, None, w)
    end
  | None => Val (-1, None, w)
  end.

Definition validate_pass (name pass : list ascii) (user : option addr) (w : world) : outcome (Z * option Z * world) :=
  match b with
  | Some b' =>
    match backend_validate_pass b' with
    | Some f => ret ← f name pass w; fetch_validated ret user w
    | None => Val (-1, None, w)
    end
  | None => Val (-1, None, w)
  end.

Definition _trigger_user_max_ul (user : option wzd_user_t) (l : list client) : list client :=
  match user with
  | None => l
  | Some u => map (λ c, if c_magic c && (c_userid c =? uid u)
                        then mkClient (c_magic c) (c_userid c) (u_max_ul_speed u) (c_dl_maxspeed c) (c_pid c) (c_exit c) (c_conn c) else c) l
  end.

Definition _trigger_user_max_dl (user : option wzd_user_t) (l : list client) : list client :=
  match user with
  | None => l
  | Some u => map (λ c, if c_magic c && (c_userid c =? uid u)
                        then mkClient (c_magic c) (c_userid c) (c_ul_maxspeed c) (u_max_dl_speed u) (c_pid c) (c_exit c) (c_conn c) else c) l
  end.

(** The triggers read the structure behind [user]. *)
Definition run_triggers (user : option addr) (mod_type : Z) (w : world) : outcome world :=
  u ← (match user with Some a => u ← deref (r_heap (w_users w) !! a); Val (Some u) | None => Val None end);
  let l := w_contexts w in
  let l := if Z.testbit mod_type _USER_MAX_ULS then _trigger_user_max_ul u l else l in
  let l := if Z.testbit mod_type _USER_MAX_DLS then _trigger_user_max_dl u l else l in
  Val (with_contexts w l).

Definition mod_user (id : Z) (user : option addr) (mod_type : Z) (w : world) : outcome (Z * world) :=
  match b with
  | None => Val (-1, w)
  | Some b' =>
    match backend_mod_user b' with
    | None => Val (-1, w)
    | Some f =>
      '(ret, w1) ← f id user mod_type w;
      if negb (ret =? 0) then Val (ret, w1) else
      w2 ← run_triggers user mod_type w1;
      match user with
      | None => Val (ret, w2)
      | Some a =>
        match backend_get_user b' with
        | None => Val (-1, w2)
        | Some get =>
          u ← deref (r_heap (w_users w2) !! a);
          g ← get (uid u) w2;
          new ← as_struct g;
          if bool_decide (new = Some a) then Val (ret, w2) else
          match new with
          | Some n =>
            un ← deref (r_heap (w_users w2) !! n);
            Val (ret, free_user (with_users w2 (set_heap (w_users w2) a un)) n)
          | None => Val (ret, free_user w2 a)
          end
        end
      end
    end
  end.

Definition mod_group (id : Z) (group : option addr) (mod_type : Z) (w : world) : outcome (Z * world) :=
  match b with
  | None => Val (-1, w)
  | Some b' =>
    match backend_mod_group b' with
    | None => Val (-1, w)
    | Some f =>
      '(ret, w1) ← f id group mod_type w;
      match group with
      | None => Val (ret, w1)
      | Some a =>
        if negb (ret =? 0) then Val (ret, w1) else
        match backend_get_group b' with
        | None => Val (-1, w1)
        | Some get =>
          g ← deref (r_heap (w_groups w1) !! a);
          r ← get (gid g) w1;
          new ← as_struct r;
          if bool_decide (new = Some a) then Val (ret, w1) else
          match new with
          | Some n =>
            gn ← deref (r_heap (w_groups w1) !! n);
            Val (ret, free_group (with_groups w1 (set_heap (w_groups w1) a gn)) n)
          | None => Val (ret, free_group w1 a)
          end
        end
      end
    end
  end.

(** ** Creation of users and groups (wzd_user.c, wzd_group.c) *)

(** The existence of the home directory is only logged. *)
Definition user_create (name pass group : option (list ascii)) (w : world)
    : outcome (wzd_errno_t + wzd_user_t) :=
  match name with
  | None => Val (inl E_PARAM_NULL)
  | Some n =>
    if (length n =? 0)%nat || (HARD_USERNAME_LENGTH <=? length n)%nat then Val (inl E_PARAM_BIG) else
    existing ← GetUserByName name w;
    if negb (match existing with Got None => true | _ => false end) then Val (inl E_PARAM_EXIST) else
    match group with
    | None => Val (inl E_PARAM_NULL)
    | Some _ =>
      g ← GetGroupByName group w;
      p ← as_struct g;
      match p with
      | None => Val (inl E_PARAM_INVALID)
      | Some a =>
        g ← deref (r_heap (w_groups w) !! a);
        homedir ← buf_str (defaultpath g);
        pw ← deref pass;
        let u := user_init_struct in
        Val (inr (mkUser (uid u) (u_backend_id u)
          (strncpy (username u) n (HARD_USERNAME_LENGTH - 1))
          (strncpy (userpass u) pw (MAX_PASS_LENGTH - 1))
          (strncpy (rootpath u) homedir (WZD_MAX_PATH - 1))
          INVALID_USER (u_tagline u)
          (if negb (gid g =? INVALID_USER) then 1 else 0) (<[0%nat := gid g]> (groups u))
          (u_max_idle_time u) (groupperms g) (flags u) (u_max_ul_speed u) (u_max_dl_speed u)
          (u_num_logins u) (logins_per_ip u) (u_ip_list u) (stats u) (credits u) (u_ratio u)
          (user_slots u) (leech_slots u) (last_login u)))
      end
    end
  end.

(** [context] is the identifier of the user of the context, when there is one. *)
Definition group_create (name : option (list ascii)) (context : option Z) (w : world)
    : outcome (wzd_errno_t + wzd_group_t) :=
  match name with
  | None => Val (inl E_PARAM_NULL)
  | Some n =>
    if (length n =? 0)%nat || (HARD_GROUPNAME_LENGTH <=? length n)%nat then Val (inl E_PARAM_BIG) else
    existing ← GetGroupByName name w;
    if negb (match existing with Got None => true | _ => false end) then Val (inl E_PARAM_EXIST) else
    homedir ← match context with
      | None => Val []
      | Some userid =>
        g ← GetUserByID userid w;
        p ← as_struct g;
        a ← deref p;  (* the branch for a null pointer reads its root path *)
        me ← deref (r_heap (w_users w) !! a);
        if 0 <? group_num me then
          gid0 ← deref (head (groups me));
          g ← GetGroupByID gid0 w;
          p ← as_struct g;
          a ← deref p;
          mygroup ← deref (r_heap (w_groups w) !! a);
          buf_str (defaultpath mygroup)
        else buf_str (rootpath me)
      end;
    if (WZD_MAX_PATH <=? length homedir)%nat then Val (inl E_PARAM_BIG) else
    let g := group_init_struct in
    Val (inr (mkGroup (gid g) (g_backend_id g) (strncpy (groupname g) n HARD_GROUPNAME_LENGTH)
      (g_tagline g) (groupperms g) (g_flags g) (g_max_idle_time g) (g_num_logins g) (g_max_ul_speed g)
      (g_max_dl_speed g) (g_ratio g) (g_ip_list g) (strncpy (defaultpath g) homedir WZD_MAX_PATH)))
  end.

End accessors.

(** ** The plaintext backend *)

Section plaintext.
  (** [changepass(user,pass,buffer,len)]: the result and the new contents of the
      buffer; [check_auth(user,data,challenge)]. *)
  Context (changepass : list ascii → list ascii → list ascii → nat → Z * list ascii)
          (check_auth : list ascii → list ascii → list ascii → Z).

Definition HARD_DEF_USER_MAX : Z := 640.
Definition HARD_DEF_GROUP_MAX : Z := 640.

Definition FCN_VALIDATE_LOGIN (login : list ascii) (w : world) : outcome Z :=
  p ← user_get_by_name (Some login) (w_users w);
  match p with
  | Some a => u ← deref (r_heap (w_users w) !! a); Val (uid u)
  | None => Val INVALID_USER
  end.

Definition FCN_VALIDATE_PASS (login pass : list ascii) (w : world) : outcome Z :=
  p ← user_get_by_name (Some login) (w_users w);
  match p with
  | None => Val INVALID_USER
  | Some a =>
    u ← deref (r_heap (w_users w) !! a);
    challenge ← buf_str (userpass u);
    if strcaseeq challenge (str "%") then Val (uid u)
    else if check_auth login pass challenge =? 1 then Val (uid u) else Val INVALID_USER
  end.

Definition FCN_FIND_USER (name : list ascii) (w : world) : outcome Z :=
  p ← user_get_by_name (Some name) (w_users w);
  match p with
  | Some a => u ← deref (r_heap (w_users w) !! a); Val (uid u)
  | None => Val INVALID_USER
  end.

Definition FCN_FIND_GROUP (name : list ascii) (w : world) : outcome Z :=
  p ← group_get_by_name (Some name) (w_groups w);
  match p with
  | Some a => g ← deref (r_heap (w_groups w) !! a); Val (gid g)
  | None => Val INVALID_USER
  end.

Definition FCN_GET_USER (id : Z) (w : world) : outcome got :=
  if id =? GET_USER_LIST then l ← user_get_list (w_users w); Val (GotList l) else
  if id =? INVALID_USER then Val (Got None) else
  p ← user_get_by_id id (w_users w); Val (Got p).

Definition FCN_GET_GROUP (id : Z) (w : world) : outcome got :=
  if id =? GET_USER_LIST then l ← group_get_list (w_groups w); Val (GotList l) else
  if id =? INVALID_USER then Val (Got None) else
  p ← group_get_by_id id (w_groups w); Val (Got p).

Definition set_userpass (u : wzd_user_t) (p : list ascii) : wzd_user_t :=
  mkUser (uid u) (u_backend_id u) (username u) p (rootpath u) (creator u) (u_tagline u)
    (group_num u) (groups u) (u_max_idle_time u) (userperms u) (flags u) (u_max_ul_speed u)
    (u_max_dl_speed u) (u_num_logins u) (logins_per_ip u) (u_ip_list u) (stats u) (credits u)
    (u_ratio u) (user_slots u) (leech_slots u) (last_login u).
Definition set_username (u : wzd_user_t) (n : list ascii) : wzd_user_t :=
  mkUser (uid u) (u_backend_id u) n (userpass u) (rootpath u) (creator u) (u_tagline u)
    (group_num u) (groups u) (u_max_idle_time u) (userperms u) (flags u) (u_max_ul_speed u)
    (u_max_dl_speed u) (u_num_logins u) (logins_per_ip u) (u_ip_list u) (stats u) (credits u)
    (u_ratio u) (user_slots u) (leech_slots u) (last_login u).
Definition set_gid (g : wzd_group_t) (i : Z) : wzd_group_t :=
  mkGroup i (g_backend_id g) (groupname g) (g_tagline g) (groupperms g) (g_flags g) (g_max_idle_time g)
    (g_num_logins g) (g_max_ul_speed g) (g_max_dl_speed g) (g_ratio g) (g_ip_list g) (defaultpath g).

(** The password in [userpass] is replaced by its encrypted form, unless it is
    the wildcard. *)
Definition encrypt_own (u : wzd_user_t) : outcome (bool * wzd_user_t) :=
  pass ← buf_str (userpass u);
  if strcaseeq pass (str "%") then Val (true, u) else
  let '(ret, buf) := changepass (cstring (username u)) pass (userpass u) (MAX_PASS_LENGTH - 1) in
  Val (ret =? 0, set_userpass u buf).

(** The assignments of the modification branch that follow the password;
    [pick] is one [if (mod_type & bit)]. *)
Definition copy_fields (mt : Z) (dst src : wzd_user_t) : outcome wzd_user_t :=
  let pick {A} (bit : Z) (f : wzd_user_t → A) := if Z.testbit mt bit then f src else f dst in
  root ← (if Z.testbit mt _USER_ROOTPATH then buf_strcpy (rootpath dst) (rootpath src) else Val (rootpath dst));
  tag ← (if Z.testbit mt _USER_TAGLINE then buf_strcpy (u_tagline dst) (u_tagline src) else Val (u_tagline dst));
  Val (mkUser (pick _USER_UID uid) (u_backend_id dst) (username dst) (userpass dst) root
    (pick _USER_CREATOR creator) tag (pick _USER_GROUPNUM group_num)
    (* memcpy of MAX_GROUPS_PER_USER bytes, eight of the 32-bit identifiers *)
    (if Z.testbit mt _USER_GROUP then take 8 (groups src) ++ drop 8 (groups dst) else groups dst)
    (pick _USER_IDLE u_max_idle_time) (pick _USER_PERMS userperms) (pick _USER_FLAGS flags)
    (pick _USER_MAX_ULS u_max_ul_speed) (pick _USER_MAX_DLS u_max_dl_speed)
    (pick _USER_NUMLOGINS u_num_logins) (pick _USER_LOGINSPERIP logins_per_ip)
    (pick _USER_IP u_ip_list)
    (mkStats (if Z.testbit mt _USER_BYTESUL then bytes_ul_total (stats src) else bytes_ul_total (stats dst))
             (if Z.testbit mt _USER_BYTESDL then bytes_dl_total (stats src) else bytes_dl_total (stats dst))
             (files_ul_total (stats dst)) (files_dl_total (stats dst)))
    (pick _USER_CREDITS credits) (pick _USER_RATIO u_ratio) (pick _USER_USERSLOTS user_slots)
    (pick _USER_LEECHSLOTS leech_slots) (last_login dst)).

Definition put_user (w : world) (a : addr) (u : wzd_user_t) : world :=
  with_users w (set_heap (w_users w) a u).

(** [mod_type == _USER_CREATE] *)
Definition create_user (user : option addr) (w : world) : outcome (Z * world) :=
  match user with
  | None => Val (-1, w)
  | Some a =>
    u ← deref (r_heap (w_users w) !! a);
    name ← buf_str (username u);
    p ← user_get_by_name (Some name) (w_users w);
    if bool_decide (p ≠ None) then Val (-2, w) else
    if HARD_DEF_USER_MAX <=? w_user_count w then Val (-1, w) else
    '(ok, u1) ← encrypt_own u;
    if negb ok then Val (-1, put_user w a u1) else
    free ← user_find_free_uid 1 (w_users w);
    let w1 := put_user w a (set_uid u1 free) in
    w2 ← (if negb (free =? INVALID_USER) then
            '(_, us) ← user_register user 1 (w_users w1); Val (with_users w1 us)
          else Val w1);
    Val (0, write_user_file (count_user w2))
  end.

(** The user found is changed from a distinct structure. *)
Definition change_user (mt : Z) (la a : addr) (w : world) : outcome (Z * world) :=
  dst ← deref (r_heap (w_users w) !! la);
  src ← deref (r_heap (w_users w) !! a);
  dst ← (if Z.testbit mt _USER_USERNAME then
           n ← buf_strcpy (username dst) (username src); Val (set_username dst n)
         else Val dst);
  if Z.testbit mt _USER_USERPASS then
    pass ← buf_str (userpass src);
    if strcaseeq pass (str "%") then
      p ← buf_strcpy (userpass dst) (userpass src);
      dst ← copy_fields mt (set_userpass dst p) src;
      Val (0, write_user_file (put_user w la dst))
    else
      let '(ret, buf) := changepass (cstring (username dst)) pass (userpass dst) (MAX_PASS_LENGTH - 1) in
      let dst := set_userpass dst buf in
      let src := set_userpass src (replicate MAX_PASS_LENGTH NUL) in
      if negb (ret =? 0) then Val (-1, put_user (put_user w la dst) a src) else
      dst ← copy_fields mt dst src;
      Val (0, write_user_file (put_user (put_user w la dst) a src))
  else
    dst ← copy_fields mt dst src;
    Val (0, write_user_file (put_user w la dst)).

Definition FCN_MOD_USER (id : Z) (user : option addr) (mt : Z) (w : world) : outcome (Z * world) :=
  if mt =? _USER_CREATE then create_user user w else
  p ← user_get_by_id id (w_users w);
  match p with
  | None => Val (-1, w)
  | Some la =>
    match user with
    | None =>
      '(q, us) ← user_unregister id (w_users w);
      Val (0, match q with Some a => free_user (with_users w us) a | None => with_users w us end)
    | Some a =>
      if bool_decide (la = a) then
        if Z.testbit mt _USER_USERPASS then
          u ← deref (r_heap (w_users w) !! a);
          '(ok, u1) ← encrypt_own u;
          Val (if ok : bool then 0 else -1, put_user w a u1)
        else Val (0, w)
      else change_user mt la a w
    end
  end.

Definition put_group (w : world) (a : addr) (g : wzd_group_t) : world :=
  with_groups w (set_heap (w_groups w) a g).

Definition create_group (group : option addr) (w : world) : outcome (Z * world) :=
  match group with
  | None => Val (-1, w)
  | Some a =>
    g ← deref (r_heap (w_groups w) !! a);
    name ← buf_str (groupname g);
    p ← group_get_by_name (Some name) (w_groups w);
    if bool_decide (p ≠ None) then Val (-2, w) else
    if HARD_DEF_GROUP_MAX <=? w_group_count w then Val (-1, w) else
    free ← group_find_free_gid 1 (w_groups w);
    let w1 := put_group w a (set_gid g free) in
    w2 ← (if negb (free =? INVALID_USER) then
            '(_, gs) ← group_register group 1 (w_groups w1); Val (with_groups w1 gs)
          else Val w1);
    Val (0, write_user_file (count_group w2))
  end.

Definition change_group (mt : Z) (dst src : wzd_group_t) : outcome wzd_group_t :=
  let pick {A} (bit : Z) (f : wzd_group_t → A) := if Z.testbit mt bit then f src else f dst in
  name ← (if Z.testbit mt _GROUP_GROUPNAME then buf_strcpy (groupname dst) (groupname src) else Val (groupname dst));
  tag ← (if Z.testbit mt _GROUP_TAGLINE then buf_strcpy (g_tagline dst) (g_tagline src) else Val (g_tagline dst));
  path ← (if Z.testbit mt _GROUP_DEFAULTPATH then buf_strcpy (defaultpath dst) (defaultpath src) else Val (defaultpath dst));
  Val (mkGroup (gid dst) (g_backend_id dst) name tag (pick _GROUP_GROUPPERMS groupperms)
    (pick _GROUP_FLAGS g_flags) (pick _GROUP_IDLE g_max_idle_time) (pick _GROUP_NUMLOGINS g_num_logins)
    (pick _GROUP_MAX_ULS g_max_ul_speed) (pick _GROUP_MAX_DLS g_max_dl_speed) (pick _GROUP_RATIO g_ratio)
    (pick _GROUP_IP g_ip_list) path).

(** The result of [group_get_by_id] is not tested before it is used. *)
Definition FCN_MOD_GROUP (id : Z) (group : option addr) (mt : Z) (w : world) : outcome (Z * world) :=
  if mt =? _GROUP_CREATE then create_group group w else
  p ← group_get_by_id id (w_groups w);
  match group with
  | None =>
    la ← deref p;
    lg ← deref (r_heap (w_groups w) !! la);
    '(q, gs) ← group_unregister (gid lg) (w_groups w);
    Val (0, match q with Some a => free_group (with_groups w gs) a | None => with_groups w gs end)
  | Some a =>
    if bool_decide (p = Some a) then Val (0, w) else
    src ← deref (r_heap (w_groups w) !! a);
    match p with
    | Some la =>
      dst ← deref (r_heap (w_groups w) !! la);
      dst ← change_group mt dst src;
      Val (0, write_user_file (put_group w la dst))
    | None =>
      (* a null structure is written only when some bit asks for it *)
      if Z.land mt (2 ^ 12 - 1 - 2 ^ 10) =? 0 then Val (0, write_user_file w) else Crash
    end
  end.

Definition plaintext : wzd_backend_t :=
  mkBackend (Some FCN_VALIDATE_LOGIN) (Some FCN_VALIDATE_PASS) (Some FCN_GET_USER) (Some FCN_GET_GROUP)
    (Some FCN_FIND_USER) (Some FCN_FIND_GROUP) (Some FCN_MOD_USER) (Some FCN_MOD_GROUP).

End plaintext.

(** ** What the accessors need of a backend *)

(** On the states of the invariant, a lookup by identifier returns whoever is
    registered, and a lookup by name the identifier of a registered user with
    that name, or -1 when there is none. *)
Class LookupBackend (b : wzd_backend_t) (inv : world → Prop) : Prop := {
  lb_get : ∃ f, backend_get_user b = Some f ∧
    ∀ w i, inv w → 0 ≤ i < GET_USER_LIST → f i w = Val (Got (registered (w_users w) i));
  lb_find : ∃ f, backend_find_user b = Some f ∧
    ∀ w name, inv w → name ≠ [] → ∃ i, f name w = Val i ∧
      if i =? INVALID_USER then ∀ j, ¬ named (w_users w) j name
      else 0 ≤ i < GET_USER_LIST ∧ named (w_users w) i name ∧ ∀ j, 0 ≤ j < i → ¬ named (w_users w) j name }.

Section lookup.
  Context (b : wzd_backend_t) (inv : world → Prop) `{!LookupBackend b inv}.

Lemma GetUserByName_spec w name :
  inv w → name ≠ [] →
  ∃ p, GetUserByName (Some b) (Some name) w = Val (Got p) ∧
    match p with
    | Some a => ∃ i, registered (w_users w) i = Some a ∧ named (w_users w) i name ∧
                  ∀ j, 0 ≤ j < i → ¬ named (w_users w) j name
    | None => ∀ j, ¬ named (w_users w) j name
    end.
Proof.
  intros Hinv Hname. destruct lb_get as (get & Hget & Hgets). destruct lb_find as (fnd & Hfind & Hfinds).
  unfold GetUserByName, GetUserByID. destruct name as [|c0 n0]; [done|].
  rewrite Hfind, Hget. destruct (Hfinds w (c0 :: n0)) as (i & -> & Hi); [done..|]. run.
  destruct (i =? INVALID_USER); simpl negb; [by exists None|].
  destruct Hi as (Hr & Hn & Hfirst). rewrite Hgets by done. eexists. split; [done|].
  destruct (registered (w_users w) i) eqn:Hri; [by exists i|].
  destruct Hn as (? & ? & ? & _). congruence.
Qed.
End lookup.

(** The states the plaintext backend works on: the registries are well formed
    and hold somebody, so that the array of users exists. *)
Definition world_wf (w : world) : Prop :=
  reg_wf (w_users w) ∧ 0 < r_max (w_users w) ∧ reg_wf (w_groups w).

Lemma plaintext_lookup ch ca : LookupBackend (plaintext ch ca) world_wf.
Proof.
  split.
  - eexists. split; [reflexivity|]. intros w i (Hwf & Hm & _) Hi. unfold FCN_GET_USER.
    replace (i =? GET_USER_LIST) with false by (symmetry; lia).
    replace (i =? INVALID_USER) with false by (symmetry; unfold GET_USER_LIST, INVALID_USER in *; lia).
    unfold user_get_by_id. rewrite get_by_id_registered by (unfold GET_USER_LIST, INVALID_USER in *; auto with lia). done.
  - eexists. split; [reflexivity|]. intros w name (Hwf & Hm & _) Hname. unfold FCN_FIND_USER, user_get_by_name.
    destruct (get_by_name_spec (w_users w) name Hwf Hname) as (p & -> & Hp). run.
    destruct p as [a|].
    + destruct Hp as (i & Hi & Ha & Hn & Hfirst).
      destruct (registered_heap _ _ _ Hwf Ha) as (u & Hu & Hid). rewrite Hu. run.
      exists i. change (uid u = i) in Hid. rewrite Hid. split; [done|].
      pose proof (wf_max _ Hwf). replace (i =? INVALID_USER) with false
        by (symmetry; unfold INVALID_USER, INT_MAX in *; lia).
      split_and!; [lia|unfold GET_USER_LIST, INT_MAX in *; lia|done..].
    + exists INVALID_USER. split; [done|]. rewrite Z.eqb_refl. destruct Hp; [lia|done].
Qed.

Lemma GetGroupByName_spec ch ca w name :
  reg_wf (w_groups w) → name ≠ [] →
  ∃ p, GetGroupByName (Some (plaintext ch ca)) (Some name) w = Val (Got p) ∧
    match p with
    | Some a => ∃ i, registered (w_groups w) i = Some a ∧ named (w_groups w) i name
    | None => r_max (w_groups w) = 0 ∨ ∀ j, ¬ named (w_groups w) j name
    end.
Proof.
  intros Hwf Hname. unfold GetGroupByName, GetGroupByID. destruct name as [|c0 n0]; [done|]. simpl.
  unfold FCN_FIND_GROUP, group_get_by_name.
  destruct (get_by_name_spec (w_groups w) (c0 :: n0) Hwf Hname) as (p & -> & Hp). run.
  destruct p as [a|]; [|by exists None].
  destruct Hp as (i & Hi & Ha & Hn & _). pose proof (wf_max _ Hwf) as Hm.
  destruct (registered_heap _ _ _ Hwf Ha) as (g & Hg & Hid). rewrite Hg. run.
  change (gid g = i) in Hid. rewrite Hid.
  replace (i =? INVALID_USER) with false by (symmetry; unfold INVALID_USER, INT_MAX in *; lia). simpl negb.
  unfold FCN_GET_GROUP. replace (i =? GET_USER_LIST) with false by (symmetry; unfold GET_USER_LIST, INT_MAX in *; lia).
  replace (i =? INVALID_USER) with false by (symmetry; unfold INVALID_USER, INT_MAX in *; lia).
  unfold group_get_by_id, get_by_id.
  replace (i =? INVALID_USER) with false by (symmetry; unfold INVALID_USER, INT_MAX in *; lia).
  replace (r_max (w_groups w) <? i) with false by (symmetry; lia).
  destruct (Z.eqb_spec (r_max (w_groups w)) 0) as [Hz|Hz]; [exists None; auto|].
  destruct (r_arr (w_groups w)) as [l|] eqn:Hl; [|by pose proof (wf_none _ Hwf Hl)].
  rewrite (slot_registered _ _ l) by done. run.
  exists (registered (w_groups w) i). split; [done|]. rewrite Ha. by exists i.
Qed.

Lemma GetUserIDByName_spec ch ca (w : world) (name : list ascii) :
  world_wf w → name ≠ [] →
  ∃ i, GetUserIDByName (Some (plaintext ch ca)) (Some name) w = Val i ∧
    if i =? INVALID_USER then ∀ j, ¬ named (w_users w) j name
    else named (w_users w) i name ∧ ∀ j, 0 ≤ j < i → ¬ named (w_users w) j name.
Proof.
  intros Hwf Hname. pose proof (plaintext_lookup ch ca) as Hlb. unfold GetUserIDByName.
  destruct (GetUserByName_spec (plaintext ch ca) world_wf w name Hwf Hname) as (p & -> & Hp).
  cbn [mbind outcome_mbind as_struct]. destruct p as [a|]; [|by exists INVALID_USER].
  destruct Hp as (i & Ha & Hn & Hfirst). destruct Hwf as (Hwu & _).
  destruct (registered_heap _ _ _ Hwu Ha) as (u & Hu & Hid). rewrite Hu. run.
  exists i. change (uid u = i) in Hid. rewrite Hid. split; [done|].
  destruct (Z.eqb_spec i INVALID_USER) as [->|]; [|done].
  pose proof (wf_max _ Hwu). rewrite registered_beyond in Ha by (unfold INVALID_USER, INT_MAX in *; lia). done.
Qed.

(** Looking a user up by name through the plaintext backend: the identifier
    returned is that of the first registered user with exactly that name, and
    -1 is returned only when nobody has it; no execution of the lookup is
    undefined. *)
Theorem GetUserIDByName_first ch ca (w : world) (name : list ascii) :
  world_wf w → name ≠ [] →
  ∃ i, GetUserIDByName (Some (plaintext ch ca)) (Some name) w = Val i ∧
    if i =? INVALID_USER then ∀ j, ¬ named (w_users w) j name
    else named (w_users w) i name ∧ ∀ j, 0 ≤ j < i → ¬ named (w_users w) j name.
Proof. apply GetUserIDByName_spec. Qed.

(** [user_create] over the plaintext backend: an empty or too long name, a
    name in use and an unknown group are refused with their own error codes;
    otherwise the new user holds the name and the password, NUL-terminated
    within their buffers, belongs to the group alone with its permissions and
    home directory, and has no flags. *)
Theorem user_create_correct ch ca (w : world) (n pw gn : list ascii) :
  world_wf w → nul_free n → nul_free pw → gn ≠ [] → (length pw < MAX_PASS_LENGTH)%nat →
  (∀ a g, r_heap (w_groups w) !! a = Some g → NUL ∈ defaultpath g ∧ length (defaultpath g) = WZD_MAX_PATH) →
  ∃ r, user_create (Some (plaintext ch ca)) (Some n) (Some pw) (Some gn) w = Val r ∧
    match r with
    | inl E_PARAM_BIG => n = [] ∨ (HARD_USERNAME_LENGTH ≤ length n)%nat
    | inl E_PARAM_EXIST => ∃ i, named (w_users w) i n
    | inl E_PARAM_INVALID => r_max (w_groups w) = 0 ∨ ∀ i, ¬ named (w_groups w) i gn
    | inl _ => False
    | inr u => (∀ i, ¬ named (w_users w) i n) ∧
        username u = padded HARD_USERNAME_LENGTH n ∧ userpass u = padded MAX_PASS_LENGTH pw ∧
        ∃ i a g, registered (w_groups w) i = Some a ∧ r_heap (w_groups w) !! a = Some g ∧ cstring (groupname g) = gn ∧
          rootpath u = padded WZD_MAX_PATH (cstring (defaultpath g)) ∧ userperms u = groupperms g ∧
          group_num u = 1 ∧ is_user_in_group (Some u) i = Val 1 ∧ flags_ok u []
    end.
Proof.
  intros Hwf Hn Hpw Hgn Hlpw Hpaths. pose proof (plaintext_lookup ch ca) as Hlb. unfold user_create.
  destruct (Nat.eqb_spec (length n) 0) as [Hz|Hz]; cbn [orb].
  { exists (inl E_PARAM_BIG). split; [done|]. left. by apply nil_length_inv. }
  destruct (Nat.leb_spec HARD_USERNAME_LENGTH (length n)) as [Hl|Hl]; [exists (inl E_PARAM_BIG); split; [reflexivity|by right]|].
  assert (Hnn : n ≠ []) by (by intros ->).
  destruct (GetUserByName_spec (plaintext ch ca) world_wf w n Hwf Hnn) as (p & -> & Hp). run.
  destruct p as [a|]; simpl negb.
  { destruct Hp as (i & _ & Hi & _). exists (inl E_PARAM_EXIST). split; [done|]. by exists i. }
  destruct Hwf as (Hwu & _ & Hwg). destruct (GetGroupByName_spec ch ca w gn Hwg Hgn) as (p & -> & Hpg).
  cbn [mbind outcome_mbind as_struct]. destruct p as [a|]; [|by exists (inl E_PARAM_INVALID)].
  destruct Hpg as (i & Ha & a' & g & Ha' & Hg & Hname). assert (a' = a) as -> by congruence. rewrite Hg. run.
  destruct (Hpaths a g Hg) as [Hnul Hlen]. unfold buf_str. rewrite bool_decide_eq_true_2 by done.
  run. eexists. split; [done|].
  cbn [username userpass rootpath userperms group_num groups flags].
  destruct (registered_heap _ _ _ Hwg Ha) as (g' & Hg' & Hid). rewrite Hg in Hg'. injection Hg' as <-.
  change (gid g = i) in Hid. pose proof (wf_max _ Hwg). assert (Hri : 0 ≤ i ≤ r_max (w_groups w)).
  { destruct (decide (i < 0)); [by rewrite registered_neg in Ha|].
    destruct (decide (r_max (w_groups w) < i)); [by rewrite registered_beyond in Ha|]. lia. }
  replace (gid g =? INVALID_USER) with false by (symmetry; unfold INVALID_USER, INT_MAX in *; lia). simpl negb.
  split_and!; [done|apply strncpy_padded_last; [unfold HARD_USERNAME_LENGTH|]; auto with lia
    |apply strncpy_padded_last; [unfold MAX_PASS_LENGTH|]; auto with lia|].
  exists i, a, g. split_and!; [done..| |done|done| |].
  - apply strncpy_padded_last; [unfold WZD_MAX_PATH; lia|].
    rewrite <- Hlen. by apply cstring_length_lt.
  - unfold is_user_in_group. cbn -[Z.eqb]. rewrite Hid.
    change (Z.to_nat 1) with 1%nat. cbn -[Z.eqb]. by rewrite Z.eqb_refl.
  - split; simpl; [done|unfold nul_free; set_solver|unfold MAX_FLAGS_NUM; lia|constructor|set_solver].
Qed.

Lemma encrypt_own_ok ch u :
  NUL ∈ userpass u → (∀ n p b l, (ch n p b l).1 = 0) →
  ∃ p, encrypt_own ch u = Val (true, set_userpass u p).
Proof.
  intros Hp Hch. unfold encrypt_own, buf_str. rewrite bool_decide_eq_true_2 by done. run.
  destruct (strcaseeq _ _); [exists (userpass u); by destruct u|].
  pose proof (Hch (cstring (username u)) (cstring (userpass u)) (userpass u) (MAX_PASS_LENGTH - 1)%nat) as Hz.
  destruct (ch _ _ _ _) as [ret buf]. simpl in Hz. subst. by exists buf.
Qed.

(** Writing a structure that is not registered. *)
Lemma set_heap_wf {E} `{RegisteredLaws E} (r : registry E) a e :
  a ∉ array_addrs r → reg_wf r → reg_wf (set_heap r a e).
Proof. intros Ha. apply reg_step_wf. by apply rs_write. Qed.

Lemma registered_array {E} `{RegisteredLaws E} (r : registry E) j a :
  registered r j = Some a → a ∈ array_addrs r.
Proof.
  unfold registered, array_addrs. destruct (_ && _); [|done]. destruct (r_arr r) as [l|]; [|done].
  intros Hj. apply list_elem_of_omap. exists (Some a). split; [|done].
  destruct (l !! Z.to_nat j) as [[?|]|] eqn:Hlj; simplify_eq/=. by eapply list_elem_of_lookup_2.
Qed.

(** After a structure with a name nobody had is registered under [i], the name
    is held by [i] alone. *)
Lemma named_registered {E} `{RegisteredLaws E} (r r2 : registry E) a e1 e2 i name :
  a ∉ array_addrs r → (∀ j, ¬ named r j name) →
  (∀ j, registered r2 j = if decide (j = i) then Some a else registered r j) →
  r_heap r2 = <[a := e2]> (<[a := e1]> (r_heap r)) → reg_name e2 = name →
  ∀ j, named r2 j name ↔ j = i.
Proof.
  intros Hnew Hno Hall Hheap Hname j. unfold named. rewrite Hall, Hheap. split.
  - intros (a' & e & Hj & He & Hen). destruct (decide (j = i)); [done|]. exfalso. apply (Hno j).
    destruct (decide (a' = a)) as [->|Hne]; [by apply registered_array in Hj|].
    rewrite lookup_insert_ne, lookup_insert_ne in He by done. by exists a', e.
  - intros ->. rewrite decide_True by done. exists a, e2. by rewrite lookup_insert_eq.
Qed.

(** Creating a user in the plaintext backend: a structure whose name nobody
    has is registered under an identifier that was free and is at least 1, the
    lookup by name then finds it, no other registration changes, and the users
    file is written once. *)
Theorem mod_user_create_registers ch ca (w : world) a u name :
  world_wf w → r_heap (w_users w) !! a = Some u → a ∉ array_addrs (w_users w) →
  username u = padded HARD_USERNAME_LENGTH name → nul_free name → name ≠ [] →
  (length name < HARD_USERNAME_LENGTH)%nat → NUL ∈ userpass u →
  (∀ j, ¬ named (w_users w) j name) → w_user_count w < HARD_DEF_USER_MAX → r_max (w_users w) < INT_MAX →
  registered (w_users w) (r_max (w_users w)) = None →
  (∀ n p b l, (ch n p b l).1 = 0) →
  ∃ w' i, FCN_MOD_USER ch INVALID_USER (Some a) _USER_CREATE w = Val (0, w') ∧ world_wf w' ∧
    1 ≤ i ∧ registered (w_users w) i = None ∧ registered (w_users w') i = Some a ∧
    GetUserIDByName (Some (plaintext ch ca)) (Some name) w' = Val i ∧
    (∀ j, j ≠ i → registered (w_users w') j = registered (w_users w) j) ∧
    w_file_writes w' = S (w_file_writes w).
Proof.
  intros Hwf Ha Hnew Hname Hnf Hnn Hlen Hpass Hno Hcount Hmax Hlast Hch.
  pose proof Hwf as (Hwu & Hm & Hwg). pose proof (wf_max _ Hwu) as Hb.
  unfold FCN_MOD_USER. rewrite Z.eqb_refl. unfold create_user. rewrite Ha. run.
  rewrite Hname, buf_str_padded by done. run. unfold user_get_by_name.
  destruct (get_by_name_spec (w_users w) name Hwu Hnn) as (p & -> & Hp). run.
  destruct p as [a'|]; [destruct Hp as (i & _ & _ & ? & _); by destruct (Hno i)|]. clear Hp.
  rewrite bool_decide_eq_false_2 by (intros H; by apply H).
  replace (HARD_DEF_USER_MAX <=? w_user_count w) with false by (symmetry; lia).
  destruct (encrypt_own_ok ch u Hpass Hch) as (pw & ->). cbn [mbind outcome_mbind negb].
  destruct (r_arr (w_users w)) as [l|] eqn:Hl; [|pose proof (wf_none _ Hwu Hl); lia].
  unfold user_find_free_uid, find_free_id. change (1 =? INVALID_USER) with false.
  destruct (find_free_spec (Z.to_nat (r_max (w_users w) - 1)) 1 _ l Hwu Hl) as (i & Hfree & Hi & Hri & _); [lia..|].
  rewrite Hfree. run.
  assert (Hnone : registered (w_users w) i = None).
  { destruct (decide (i < r_max (w_users w))); [by apply Hri|]. by replace i with (r_max (w_users w)) by lia. }
  replace (i =? INVALID_USER) with false by (symmetry; unfold INVALID_USER, INT_MAX in *; lia). cbn [negb].
  set (u1 := set_uid (set_userpass u pw) i). set (r1 := set_heap (w_users w) a u1).
  assert (Hw1 : reg_wf r1) by (by apply set_heap_wf).
  destruct (register_spec r1 a u1 1) as (r2 & Hreg & Hw2 & Hheap & Hall);
    [done|by unfold r1; simpl; rewrite lookup_insert_eq|unfold u1; simpl; lia|by right|].
  change (w_users (put_user w a u1)) with r1. unfold user_register. rewrite Hreg. run.
  change (reg_id u1) with i in Hall.
  assert (Hall' : ∀ j, registered r2 j = if decide (j = i) then Some a else registered (w_users w) j).
  { intros j. rewrite Hall. change (registered r1 j) with (registered (w_users w) j).
    destruct (decide (j = i)); [done|]. destruct (decide (_ ∧ _)) as [[_ ->]|]; [|done].
    change (r_max r1) with (r_max (w_users w)). by rewrite Hlast. }
  eexists _, i. split; [reflexivity|].
  assert (Hmax2 : 0 < r_max r2).
  { destruct (decide (i ≤ r_max r2)); [lia|]. pose proof (Hall' i) as Hx.
    rewrite decide_True in Hx by done. rewrite registered_beyond in Hx by lia. done. }
  assert (Hwf2 : world_wf (write_user_file (count_user (with_users (put_user w a u1) r2)))) by done.
  assert (Hnamed2 : ∀ j, named r2 j name ↔ j = i).
  { apply (named_registered (w_users w) r2 a u1 (reg_set_backend u1 1)); [done..|]. unfold u1. simpl. rewrite Hname.
    unfold padded. destruct (HARD_USERNAME_LENGTH - length name)%nat eqn:E; [lia|]. by apply cstring_app_nul. }
  split_and!; [done..|lia|done| | |intros j Hj; simpl; rewrite Hall'; by rewrite decide_False|done].
  - simpl. rewrite Hall'. by rewrite decide_True.
  - destruct (GetUserIDByName_spec ch ca _ name Hwf2 Hnn) as (k & -> & Hk). f_equal.
    destruct (k =? INVALID_USER); [by destruct (Hk i (proj2 (Hnamed2 i) eq_refl))|].
    destruct Hk as [Hk _]. by apply Hnamed2.
Qed.

(** Committing a change from a copy of a registered user rather than from
    the registered structure itself: [backend_mod_user] succeeds, but it frees
    the structure that the plaintext backend returned from its registry, whose
    slot keeps pointing to it; the next reader of that user is undefined. *)
Theorem mod_user_copy_dangles ch ca (w : world) a la u i mt :
  world_wf w → registered (w_users w) i = Some la → r_heap (w_users w) !! a = Some u → a ≠ la →
  uid u = i → mt ≠ _USER_CREATE → (∀ bit, 0 ≤ bit ≤ 4 → Z.testbit mt bit = false) →
  ∃ w', mod_user (Some (plaintext ch ca)) i (Some a) mt w = Val (0, w') ∧
    registered (w_users w') i = Some la ∧ r_heap (w_users w') !! la = None.
Proof.
  intros (Hwu & Hm & Hwg) Hi Ha Hne Huid Hmt Hbits. pose proof (wf_max _ Hwu) as Hb.
  assert (Hri : 0 ≤ i ≤ r_max (w_users w)).
  { destruct (decide (i < 0)); [by rewrite registered_neg in Hi|].
    destruct (decide (r_max (w_users w) < i)); [by rewrite registered_beyond in Hi|]. lia. }
  destruct (registered_heap _ _ _ Hwu Hi) as (lu & Hla & Hid). change (uid lu = i) in Hid.
  assert (Hget : ∀ us, reg_wf us → 0 < r_max us → user_get_by_id i us = Val (registered us i)).
  { intros us ? ?. apply get_by_id_registered; [done..|]. unfold INVALID_USER, INT_MAX in *. lia. }
  unfold mod_user. cbn [backend_mod_user plaintext]. unfold FCN_MOD_USER.
  replace (mt =? _USER_CREATE) with false by (symmetry; lia).
  rewrite Hget, Hi by done. run. rewrite bool_decide_eq_false_2 by done.
  unfold change_user. rewrite Hla, Ha. run.
  unfold _USER_USERNAME, _USER_USERPASS. rewrite (Hbits 0), (Hbits 1) by lia. run.
  unfold copy_fields, _USER_ROOTPATH, _USER_TAGLINE, _USER_UID. rewrite (Hbits 2), (Hbits 3), (Hbits 4) by lia. cbn [mbind outcome_mbind negb Z.eqb].
  match goal with |- context [put_user w la ?x] => set (u2 := x) end.
  set (w1 := write_user_file (put_user w la u2)).
  assert (Hha : r_heap (w_users w1) !! a = Some u) by (simpl; by rewrite lookup_insert_ne by done).
  unfold run_triggers. rewrite Hha. run.
  cbn [w_users with_contexts]. rewrite Hha. run.
  cbn [backend_get_user plaintext]. unfold FCN_GET_USER. rewrite Huid.
  replace (i =? GET_USER_LIST) with false by (symmetry; unfold GET_USER_LIST, INT_MAX in *; lia).
  replace (i =? INVALID_USER) with false by (symmetry; unfold INVALID_USER, INT_MAX in *; lia).
  cbn [w_users with_contexts].
  assert (Hw1 : reg_wf (w_users w1)).
  { apply (set_wf_same (w_users w) la lu); [done..|]. subst u2. simpl. done. }
  rewrite Hget by done. cbn [mbind outcome_mbind as_struct].
  change (registered (w_users w1) i) with (registered (w_users w) i). rewrite Hi.
  rewrite bool_decide_eq_false_2 by (intros [=]; done).
  assert (Hhl : r_heap (w_users w1) !! la = Some u2) by (simpl; by rewrite lookup_insert_eq).
  rewrite Hhl. run. eexists. split; [reflexivity|].
  split; [exact Hi|]. simpl. by rewrite lookup_delete_eq.
Qed.

(** ** Concrete states *)

Definition demo_user (i : Z) (name : list ascii) : wzd_user_t :=
  set_uid (set_username user_init_struct (padded HARD_USERNAME_LENGTH name)) i.
Definition demo_group : wzd_group_t :=
  mkGroup 7 0 (padded HARD_GROUPNAME_LENGTH (str "staff")) (replicate MAX_TAGLINE_LENGTH NUL) 0
    (replicate MAX_FLAGS_NUM NUL) 0 0 0 0 0 [] (padded WZD_MAX_PATH (str "/home")).

(** Bob is registered as 5; Ann, and a copy of Bob, are not registered. *)
Definition dw_heap : gmap addr wzd_user_t :=
  {[ 1%positive := demo_user 5 (str "bob"); 2%positive := demo_user INVALID_USER (str "ann");
     3%positive := demo_user 5 (str "bob") ]}.
Definition gw_heap : gmap addr wzd_group_t := {[ 1%positive := demo_group ]}.
Definition dw_users : users := after (user_register (Some 1%positive) 1 (empty_registry dw_heap)).
Definition dw_groups : wzd_groups :=
  match group_register (Some 1%positive) 1 (empty_registry gw_heap) with
  | Val (_, r) => r | Crash => empty_registry ∅ end.
Definition demo_world : world := mkWorld dw_users dw_groups [] 1 1 0.
Definition demo_changepass (_ pass buf : list ascii) (n : nat) : Z * list ascii := (0, strncpy buf pass n).
Definition demo_auth (_ data challenge : list ascii) : Z := if streq data challenge then 1 else 0.

Lemma demo_world_wf : world_wf demo_world.
Proof.
  split_and!; [|by vm_compute|].
  - eapply reg_steps_wf; [|apply (empty_registry_wf dw_heap)]. apply rtc_once.
    eapply (rs_register _ 1%positive _ 1); [reflexivity|by vm_compute|reflexivity].
  - eapply reg_steps_wf; [|apply (empty_registry_wf gw_heap)]. apply rtc_once.
    eapply (rs_register _ 1%positive _ 1); [reflexivity|by vm_compute|reflexivity].
Qed.

Lemma demo_registered j a : registered dw_users j = Some a → j = 5 ∧ a = 1%positive.
Proof.
  intros Hj. destruct (registered_heap dw_users j a (proj1 demo_world_wf) Hj) as (e & He & Hid).
  assert (Ha : a ∈ array_addrs dw_users) by (by eapply registered_array).
  assert (Haa : array_addrs dw_users = [1%positive]) by reflexivity.
  rewrite Haa, list_elem_of_singleton in Ha. subst a. split; [|done].
  rewrite <- Hid. change (r_heap dw_users !! 1%positive) with (Some (set_u_backend (demo_user 5 (str "bob")) 1)) in He.
  by injection He as <-.
Qed.

Lemma demo_not_named name : name ≠ str "bob" → ∀ j, ¬ named dw_users j name.
Proof.
  intros Hn j (a & e & Hj & He & Hname). destruct (demo_registered j a Hj) as [-> ->].
  change (r_heap dw_users !! 1%positive) with (Some (set_u_backend (demo_user 5 (str "bob")) 1)) in He.
  injection He as <-. apply Hn. by rewrite <- Hname.
Qed.

Lemma GetUserIDByName_first_witness :
  ∃ i, GetUserIDByName (Some (plaintext demo_changepass demo_auth)) (Some (str "bob")) demo_world = Val i ∧
    if i =? INVALID_USER then ∀ j, ¬ named (w_users demo_world) j (str "bob")
    else named (w_users demo_world) i (str "bob") ∧ ∀ j, 0 ≤ j < i → ¬ named (w_users demo_world) j (str "bob").
Proof. apply (GetUserIDByName_first demo_changepass demo_auth demo_world); [exact demo_world_wf|done]. Defined.

Lemma user_create_correct_witness :
  ∃ r, user_create (Some (plaintext demo_changepass demo_auth)) (Some (str "ann")) (Some (str "pw")) (Some (str "staff")) demo_world = Val r ∧
    match r with
    | inl E_PARAM_BIG => str "ann" = [] ∨ (HARD_USERNAME_LENGTH ≤ length (str "ann"))%nat
    | inl E_PARAM_EXIST => ∃ i, named (w_users demo_world) i (str "ann")
    | inl E_PARAM_INVALID => r_max (w_groups demo_world) = 0 ∨ ∀ i, ¬ named (w_groups demo_world) i (str "staff")
    | inl _ => False
    | inr u => (∀ i, ¬ named (w_users demo_world) i (str "ann")) ∧
        username u = padded HARD_USERNAME_LENGTH (str "ann") ∧ userpass u = padded MAX_PASS_LENGTH (str "pw") ∧
        ∃ i a g, registered (w_groups demo_world) i = Some a ∧ r_heap (w_groups demo_world) !! a = Some g ∧
          cstring (groupname g) = str "staff" ∧
          rootpath u = padded WZD_MAX_PATH (cstring (defaultpath g)) ∧ userperms u = groupperms g ∧
          group_num u = 1 ∧ is_user_in_group (Some u) i = Val 1 ∧ flags_ok u []
    end.
Proof.
  apply (user_create_correct demo_changepass demo_auth demo_world (str "ann") (str "pw") (str "staff"));
    [exact demo_world_wf|apply (bool_decide_unpack _); by vm_compute|apply (bool_decide_unpack _); by vm_compute|done
    |unfold MAX_PASS_LENGTH; simpl; lia|].
  intros a g Hg. assert (Hgr : r_heap (w_groups demo_world) = {[ 1%positive := set_g_backend demo_group 1 ]}) by reflexivity.
  rewrite Hgr in Hg. apply lookup_singleton_Some in Hg as [<- <-]. split; [|reflexivity].
  apply (bool_decide_unpack _). by vm_compute.
Defined.

Lemma mod_user_create_registers_witness :
  ∃ w' i, FCN_MOD_USER demo_changepass INVALID_USER (Some 2%positive) _USER_CREATE demo_world = Val (0, w') ∧ world_wf w' ∧
    1 ≤ i ∧ registered (w_users demo_world) i = None ∧ registered (w_users w') i = Some 2%positive ∧
    GetUserIDByName (Some (plaintext demo_changepass demo_auth)) (Some (str "ann")) w' = Val i ∧
    (∀ j, j ≠ i → registered (w_users w') j = registered (w_users demo_world) j) ∧
    w_file_writes w' = S (w_file_writes demo_world).
Proof.
  apply (mod_user_create_registers demo_changepass demo_auth demo_world 2%positive (demo_user INVALID_USER (str "ann")));
    [exact demo_world_wf|reflexivity|apply (bool_decide_unpack _); by vm_compute|reflexivity
    |apply (bool_decide_unpack _); by vm_compute|done|unfold HARD_USERNAME_LENGTH; simpl; lia
    |apply (bool_decide_unpack _); by vm_compute|by apply demo_not_named|by vm_compute|by vm_compute|reflexivity|done].
Defined.

Lemma mod_user_copy_dangles_witness :
  ∃ w', mod_user (Some (plaintext demo_changepass demo_auth)) 5 (Some 3%positive) (2 ^ _USER_CREDITS) demo_world = Val (0, w') ∧
    registered (w_users w') 5 = Some 1%positive ∧ r_heap (w_users w') !! 1%positive = None.
Proof.
  apply (mod_user_copy_dangles demo_changepass demo_auth demo_world 3%positive 1%positive (demo_user 5 (str "bob")));
    [exact demo_world_wf|reflexivity|reflexivity|done|reflexivity|done|].
  intros bit Hbit. apply Z.pow2_bits_false. unfold _USER_CREDITS. lia.
Defined.
