(* ===== verification/Perm.v ===== *)
(** * Permissions of commands: libwzd-core/wzd_perm.c

    A permission names a command and lists entries, each a user, a group or a
    flag, possibly negated; the first entry that applies to a user decides.
    The chains of structures are lists, in their order; names and targets are
    the 256-byte arrays of the structures. The parser works on the buffer that
    [strtok_r] cuts up. *)

From S2P Require Import Prelude CList Ip Registry Users Backend.

Inductive wzd_cp_t := CPERM_USER | CPERM_GROUP | CPERM_FLAG.
#[global] Instance wzd_cp_t_eq_dec : EqDecision wzd_cp_t.
Proof. solve_decision. Defined.

Record wzd_command_perm_entry_t := mkEntry { cp : wzd_cp_t; target : list ascii }.
Record wzd_command_perm_t := mkPerm { command_name : list ascii; entry_list : list wzd_command_perm_entry_t }.

Abbreviation entry := wzd_command_perm_entry_t.
Abbreviation perm := wzd_command_perm_t.

(** ** Lists of permissions *)

(** [perm_create_empty_perm] followed by [strncpy(...,commandname,256)]. *)
Definition perm_create_empty_perm (commandname : list ascii) : perm :=
  mkPerm (strncpy (replicate 256 NUL) commandname 256) [].

Definition perm_create_empty_entry (tgt : list ascii) (c : wzd_cp_t) : entry :=
  mkEntry c (strncpy (replicate 256 NUL) tgt 256).

(** The first permission of the list whose name compares equal. *)
Fixpoint find_perm (f : ascii → ascii) (commandname : list ascii) (i : nat) (l : list perm) : outcome (option nat) :=
  match l with
  | [] => Val None
  | p :: l =>
    same ← buf_eq f (command_name p) commandname;
    if (same : bool) then Val (Some i) else find_perm f commandname (S i) l
  end.

(** Case is ignored. *)
Definition perm_find (commandname : list ascii) (l : list perm) : outcome (option perm) :=
  i ← find_perm tolower commandname 0 l; Val (i ≫= λ i, l !! i).

(** Case matters; the index of the permission in the list is returned. *)
Definition perm_find_create (commandname : list ascii) (l : list perm) : outcome (nat * list perm) :=
  i ← find_perm id commandname 0 l;
  match i with
  | Some i => Val (i, l)
  | None => Val (length l, l ++ [perm_create_empty_perm commandname])
  end.

(** 0: removed; 1: not found; -1: no list. *)
Definition perm_remove (commandname : list ascii) (l : list perm) : outcome (Z * list perm) :=
  match l with
  | [] => Val (-1, l)
  | _ =>
    i ← find_perm tolower commandname 0 l;
    match i with
    | Some i => Val (0, delete i l)
    | None => Val (1, l)
    end
  end.

Fixpoint has_entry (tgt : list ascii) (c : wzd_cp_t) (es : list entry) : outcome bool :=
  match es with
  | [] => Val false
  | e :: es =>
    same ← buf_eq tolower (target e) tgt;
    if same && bool_decide (cp e = c) then Val true else has_entry tgt c es
  end.

Definition perm_find_create_entry (tgt : list ascii) (c : wzd_cp_t) (p : perm) : outcome perm :=
  found ← has_entry tgt c (entry_list p);
  Val (if (found : bool) then p else mkPerm (command_name p) (entry_list p ++ [perm_create_empty_entry tgt c])).

(** The target of an entry without its negation mark. *)
Definition strip_negate (t : list ascii) : bool * list ascii :=
  match t with
  | c :: t' => if bool_decide (c = "!"%char) then (true, t') else (false, t)
  | [] => (false, t)
  end.

Definition first_is (c : ascii) (t : list ascii) : bool :=
  match t with x :: _ => bool_decide (x = c) | [] => false end.

(** [Some (Some e)]: the entry; [Some None]: the pointer -1, a negated entry
    applies; [None]: nothing applies. *)
Fixpoint perm_find_entry (tgt : list ascii) (c : wzd_cp_t) (es : list entry) : outcome (option (option entry)) :=
  match es with
  | [] => Val None
  | e :: es =>
    let '(negate, t) := strip_negate (target e) in
    let result := if negate : bool then Some None else Some (Some e) in
    if first_is "*"%char t then Val result else
    same ← buf_eq tolower t tgt;
    if same && bool_decide (cp e = c) then Val result else perm_find_entry tgt c es
  end.

(** ** Parsing a permission line *)

Fixpoint span_len (f : ascii → bool) (s : list ascii) : nat :=
  match s with c :: s => if f c then S (span_len f s) else O | [] => O end.

(** [strtok_r(NULL,...,&ptr)]: the buffer with the token cut off, the position
    of the token and the new position of [ptr]. *)
Definition strtok_r (buf : list ascii) (ptr : nat) : option (list ascii * nat * nat) :=
  let start := (ptr + span_len is_delim (drop ptr buf))%nat in
  match drop start buf with
  | [] => None
  | c :: _ =>
    if bool_decide (c = NUL) then None else
    let fin := (start + span_len (λ c, negb (is_delim c || bool_decide (c = NUL))) (drop start buf))%nat in
    match buf !! fin with
    | Some c => if bool_decide (c = NUL) then Some (buf, start, fin)
                else Some (<[fin := NUL]> buf, start, S fin)
    | None => None
    end
  end.

(** The type an entry starts with, and whether the character itself belongs to
    the target. *)
Definition entry_type (c : ascii) : option (wzd_cp_t * bool) :=
  if bool_decide (c = "="%char) then Some (CPERM_USER, false)
  else if bool_decide (c = "-"%char) then Some (CPERM_GROUP, false)
  else if bool_decide (c = "+"%char) then Some (CPERM_FLAG, false)
  else if bool_decide (c = "*"%char) then Some (CPERM_USER, true)
  else None.

(** From the position of a token: the type, the position of the target, whether
    it is negated. A character that starts no entry is skipped by [continue],
    which does not fetch another token: the scan goes on through the NUL that
    ends the token. It stops for want of fuel only past the end of the buffer. *)
Fixpoint scan_token (fuel : nat) (buf : list ascii) (pos : nat) : outcome (wzd_cp_t * nat * bool) :=
  match fuel with
  | O => Crash
  | S fuel =>
    c ← deref (buf !! pos);
    let negate := bool_decide (c = "!"%char) in
    '(c, pos) ← (if negate then c ← deref (buf !! S pos); Val (c, S (S pos)) else Val (c, S pos));
    match entry_type c with
    | Some (t, keep) => Val (t, if keep : bool then (pos - 1)%nat else pos, negate)
    | None => scan_token fuel buf pos
    end
  end.

(** One pass of the loop, then the next token. Each call of [strtok_r] moves
    [ptr] forward, so the length of the buffer is enough fuel. *)
Fixpoint add_entries (fuel : nat) (buf : list ascii) (tok ptr : nat) (p : perm) : outcome perm :=
  match fuel with
  | O => Crash
  | S fuel =>
    '(t, pos, negate) ← scan_token (S (length buf)) buf tok;
    let '(buf, pos) := if negate : bool then (<[(pos - 1)%nat := "!"%char]> buf, (pos - 1)%nat) else (buf, pos) in
    tgt ← buf_str (drop pos buf);
    p ← perm_find_create_entry tgt t p;
    match strtok_r buf ptr with
    | None => Val p
    | Some (buf, tok, ptr) => add_entries fuel buf tok ptr p
    end
  end.

Definition BUFFER_LEN : nat := 2048.

Definition perm_add_perm (permname permline : option (list ascii)) (l : list perm) : outcome (Z * list perm) :=
  match permname, permline with
  | Some name, Some line =>
    if (length name =? 0)%nat || (length line =? 0)%nat then Val (1, l) else
    if (BUFFER_LEN <=? length line)%nat then Val (1, l) else
    let buf := line ++ [NUL] in
    '(i, l) ← perm_find_create name l;
    p ← deref (l !! i);
    match strtok_r buf 0 with
    | None => Val (0, l)
    | Some (buf', tok, ptr) =>
      p ← add_entries (S (length buf)) buf' tok ptr p;
      Val (0, <[i := p]> l)
    end
  | _, _ => Val (1, l)
  end.

(** ** Printing *)

Definition prefix_char (c : wzd_cp_t) : ascii :=
  match c with CPERM_USER => "=" | CPERM_GROUP => "-" | CPERM_FLAG => "+" end.

(** [ptr] is the position of [perm_buffer_ptr]. *)
Fixpoint perm2str_loop (es : list entry) (buf : list ascii) (ptr len max_length : nat)
    : outcome (option nat * list ascii) :=
  match es with
  | [] => Val (Some len, buf)
  | e :: es =>
    buf ← buf_set buf (Z.of_nat ptr) " "%char;
    star ← buf_eq id (target e) (str "*");
    t ← buf_str (target e);
    '(buf, ptr, len) ←
      (if negb star then buf ← buf_set buf (Z.of_nat (S ptr)) (prefix_char (cp e)); Val (buf, S (S ptr), S (S len))
       else Val (buf, S ptr, S len));
    let len := (len + length t)%nat in
    if (max_length <=? len)%nat then Val (None, buf) else
    if (length buf <? ptr + (max_length - len))%nat then Crash else
    let buf := take ptr buf ++ strncpy (drop ptr buf) t (max_length - len) in
    perm2str_loop es buf (ptr + length t) len max_length
  end.

Definition perm2str (p : option perm) (buf : list ascii) (max_length : nat) : outcome (Z * list ascii) :=
  match p with
  | None => Val (1, buf)
  | Some p =>
    '(r, buf) ← perm2str_loop (entry_list p) buf 0 0 max_length;
    match r with
    | None => Val (1, buf)
    | Some len => buf ← buf_set buf (Z.of_nat len) NUL; Val (0, buf)
    end
  end.

(** ** Checking *)

Section check.
  Context (b : option wzd_backend_t).

(** The groups of the user, from the [i]-th on, [n] of them. *)
Fixpoint group_applies (n i : nat) (t : list ascii) (u : wzd_user_t) (w : world) : outcome bool :=
  match n with
  | O => Val false
  | S n =>
    gid ← deref (groups u !! i);
    g ← GetGroupByID b gid w;
    a ← as_struct g;
    a ← deref a;
    g ← deref (r_heap (w_groups w) !! a);
    name ← buf_str (groupname g);
    same ← buf_eq tolower t name;
    if (same : bool) then Val true else group_applies n (S i) t u w
  end.

Definition entry_applies (e : entry) (t : list ascii) (user : option wzd_user_t) (w : world) : outcome bool :=
  u ← deref user;
  match cp e with
  | CPERM_USER => name ← buf_str (username u); buf_eq tolower t name
  | CPERM_GROUP => group_applies (Z.to_nat (group_num u)) 0 t u w
  | CPERM_FLAG => fl ← buf_str (flags u); c ← deref (head t); Val (strchr fl c)
  end.

Fixpoint check_entries (es : list entry) (user : option wzd_user_t) (w : world) : outcome Z :=
  match es with
  | [] => Val 1
  | e :: es =>
    let '(negate, t) := strip_negate (target e) in
    let verdict := if negate : bool then 1 else 0 in
    if first_is "*"%char t then Val verdict else
    yes ← entry_applies e t user w;
    if (yes : bool) then Val verdict else check_entries es user w
  end.

Definition perm_check_perm (p : option perm) (userid : Z) (w : world) : outcome Z :=
  g ← GetUserByID b userid w;
  a ← as_struct g;
  user ← match a with Some a => u ← deref (r_heap (w_users w) !! a); Val (Some u) | None => Val None end;
  match p with
  | None => Val (-1)
  | Some p => check_entries (entry_list p) user w
  end.

Definition perm_check (permname : option (list ascii)) (userid : Z) (l : list perm) (w : world) : outcome Z :=
  match permname with
  | None | Some [] => Val (-1)
  | Some name =>
    match l with
    | [] => Val (-1)
    | _ => p ← perm_find name l; perm_check_perm p userid w
    end
  end.

End check.

(** ** The first entry that applies decides *)

(** A target that fits its array. *)
Definition entry_ok (e : entry) : Prop :=
  ∃ t, target e = padded 256 t ∧ nul_free t ∧ (length t < 256)%nat.

(** Whether an entry applies to a user with this name, these groups and these
    flags. A flag entry without a flag applies to everybody: the search for its
    first character finds the terminating NUL. *)
Definition applies (name fl : list ascii) (gnames : list (list ascii)) (e : entry) : bool :=
  let t := (strip_negate (cstring (target e))).2 in
  first_is "*"%char t ||
  match cp e with
  | CPERM_USER => strcaseeq t name
  | CPERM_GROUP => existsb (strcaseeq t) gnames
  | CPERM_FLAG => match t with [] => true | c :: _ => bool_decide (c ∈ fl) end
  end.

Definition negated (e : entry) : bool := (strip_negate (cstring (target e))).1.

(** 0: allowed; 1: denied. *)
Definition verdict (name fl : list ascii) (gnames : list (list ascii)) (es : list entry) : Z :=
  match List.find (applies name fl gnames) es with
  | Some e => if negated e then 1 else 0
  | None => 1
  end.

(** The names of the groups a user is in. *)
Definition group_names (w : world) (gids : list Z) (gnames : list (list ascii)) : Prop :=
  Forall2 (λ g n, ∃ a gr, registered (w_groups w) g = Some a ∧ r_heap (w_groups w) !! a = Some gr ∧
    groupname gr = padded HARD_GROUPNAME_LENGTH n ∧ nul_free n ∧ (length n < HARD_GROUPNAME_LENGTH)%nat) gids gnames.

Lemma cstring_padded n t : nul_free t → (length t < n)%nat → cstring (padded n t) = t.
Proof. intros. rewrite padded_nul by done. by apply cstring_app_nul. Qed.

Lemma strip_terminated t rest :
  nul_free t → strip_negate (t ++ NUL :: rest) = ((strip_negate t).1, (strip_negate t).2 ++ NUL :: rest)
    ∧ nul_free (strip_negate t).2.
Proof.
  unfold nul_free. intros Ht. destruct t as [|c t]; simpl; [by split; [|set_solver]|].
  case_bool_decide; simpl; (split; [done|set_solver]).
Qed.

Lemma first_is_terminated c t rest : c ≠ NUL → first_is c (t ++ NUL :: rest) = first_is c t.
Proof. intros Hc. destruct t; simpl; [by apply bool_decide_eq_false_2|done]. Qed.

Lemma strcaseeq_bool t s : bool_decide (map tolower t = map tolower s) = strcaseeq t s.
Proof. done. Qed.

Lemma get_group_registered ch ca w g a :
  reg_wf (w_groups w) → registered (w_groups w) g = Some a →
  GetGroupByID (Some (plaintext ch ca)) g w = Val (Got (if r_max (w_groups w) =? 0 then None else Some a)).
Proof.
  intros Hwg Ha. pose proof (wf_max _ Hwg). assert (Hr : 0 ≤ g ≤ r_max (w_groups w)).
  { destruct (decide (g < 0)); [by rewrite registered_neg in Ha|].
    destruct (decide (r_max (w_groups w) < g)); [by rewrite registered_beyond in Ha|]. lia. }
  unfold GetGroupByID. simpl. unfold FCN_GET_GROUP, group_get_by_id, get_by_id.
  replace (g =? GET_USER_LIST) with false by (symmetry; unfold GET_USER_LIST, INT_MAX in *; lia).
  replace (g =? INVALID_USER) with false by (symmetry; unfold INVALID_USER, INT_MAX in *; lia).
  replace (r_max (w_groups w) <? g) with false by (symmetry; lia).
  destruct (Z.eqb_spec (r_max (w_groups w)) 0); [done|].
  destruct (r_arr (w_groups w)) as [l|] eqn:Hl; [|by pose proof (wf_none _ Hwg Hl)].
  rewrite (slot_registered _ _ l), Ha by done. done.
Qed.

Lemma group_applies_spec ch ca w u t rest n i gnames :
  reg_wf (w_groups w) → 0 < r_max (w_groups w) → nul_free t →
  group_names w (take n (drop i (groups u))) gnames → (i + n ≤ length (groups u))%nat →
  group_applies (Some (plaintext ch ca)) n i (t ++ NUL :: rest) u w = Val (existsb (strcaseeq t) gnames).
Proof.
  intros Hwg Hm Ht. revert i gnames. induction n as [|n IH]; intros i gnames Hg Hlen; cbn [group_applies].
  - apply Forall2_nil_inv_l in Hg as ->. done.
  - destruct (lookup_lt_is_Some_2 (groups u) i) as [g Hi]; [lia|]. rewrite (drop_S _ _ _ Hi) in Hg. simpl in Hg.
    apply Forall2_cons_inv_l in Hg as (name & gnames' & (a & gr & Ha & Hgr & Hname & Hnf & Hln) & Hrest & ->).
    rewrite Hi. run. rewrite (get_group_registered ch ca w g a) by done.
    replace (r_max (w_groups w) =? 0) with false by (symmetry; lia). cbn [mbind outcome_mbind as_struct deref].
    rewrite Hgr. run. rewrite Hname, buf_str_padded by done. run.
    rewrite buf_eq_terminated, strcaseeq_bool by done. cbn [mbind outcome_mbind existsb].
    destruct (strcaseeq t name); [done|]. apply IH; [done|lia].
Qed.

(** A user whose arrays are terminated. *)
Record perm_user (u : wzd_user_t) (w : world) (name fl : list ascii) (gnames : list (list ascii)) : Prop := {
  pu_name : buf_str (username u) = Val name;
  pu_flags : buf_str (flags u) = Val fl;
  pu_num : (Z.to_nat (group_num u) ≤ length (groups u))%nat;
  pu_groups : group_names w (take (Z.to_nat (group_num u)) (groups u)) gnames }.

Lemma check_entries_spec ch ca w u name fl gnames es :
  reg_wf (w_groups w) → 0 < r_max (w_groups w) → perm_user u w name fl gnames → Forall entry_ok es →
  check_entries (Some (plaintext ch ca)) es (Some u) w = Val (verdict name fl gnames es).
Proof.
  intros Hwg Hm [Hn Hf Hnum Hg] Hes. unfold verdict. induction Hes as [|e es (t & Ht & Htn & Htl) Hes IH]; simpl; [done|].
  unfold applies at 1, negated. rewrite Ht, cstring_padded by done. rewrite padded_nul by done.
  destruct (strip_terminated t (replicate (256 - length t - 1) NUL) Htn) as [-> Hsn].
  destruct (strip_negate t) as [neg t'] eqn:Hst. cbn [fst snd] in *.
  rewrite first_is_terminated by done. destruct (first_is "*"%char t'); [by rewrite orb_true_l, Ht, cstring_padded, Hst|].
  rewrite orb_false_l. unfold entry_applies. run.
  assert (Hfin : ∀ v : bool, ((if v then Val (if neg then 1 else 0) else check_entries (Some (plaintext ch ca)) es (Some u) w)
    = Val match (if v then Some e else List.find (applies name fl gnames) es) with
          | Some e => if negated e then 1 else 0 | None => 1 end)).
  { intros [|]; [|done]. unfold negated. by rewrite Ht, cstring_padded, Hst. }
  destruct (cp e).
  - rewrite Hn. run. rewrite buf_eq_terminated, strcaseeq_bool by done. apply Hfin.
  - rewrite (group_applies_spec ch ca w u t' _ _ 0 gnames) by (rewrite ?drop_0; done || lia). apply Hfin.
  - rewrite Hf. run. destruct t' as [|c t']; simpl.
    + unfold strchr. simpl. apply (Hfin true).
    + unfold strchr. rewrite (bool_decide_eq_false_2 (c = NUL)) by (unfold nul_free in Hsn; set_solver). apply Hfin.
Qed.

(** ** Parsing well-formed lines *)

(** The words of a line. *)
Definition not_delim (c : ascii) : bool := negb (is_delim c).

Fixpoint words (cur : list ascii) (s : list ascii) : list (list ascii) :=
  match s with
  | [] => match cur with [] => [] | _ => [cur] end
  | c :: s =>
    if is_delim c then match cur with [] => words [] s | _ => cur :: words [] s end
    else words (cur ++ [c]) s
  end.

(** A token in the format of an entry, and the entry it denotes. *)
Definition parse_token (t : list ascii) : option (wzd_cp_t * list ascii) :=
  let '(negate, t1) := strip_negate t in
  match t1 with
  | [] => None
  | c :: t2 =>
    match entry_type c with
    | None => None
    | Some (ty, keep) =>
      let tgt := if keep : bool then t1 else t2 in
      Some (ty, if negate : bool then "!"%char :: tgt else tgt)
    end
  end.

Fixpoint add_tokens (ts : list (wzd_cp_t * list ascii)) (p : perm) : outcome perm :=
  match ts with
  | [] => Val p
  | (ty, tgt) :: ts => p ← perm_find_create_entry tgt ty p; add_tokens ts p
  end.

Lemma words_acc cur t s :
  cur ++ t ≠ [] → forallb not_delim t = true →
  words cur (t ++ s) = words (cur ++ t) s.
Proof.
  revert cur. induction t as [|c t IH]; intros cur Hne Ht; simpl in *; [by rewrite app_nil_r|].
  apply andb_true_iff in Ht as [Hc Ht]. unfold not_delim in Hc. apply negb_true_iff in Hc. rewrite Hc.
  rewrite IH; [by rewrite <- app_assoc|by destruct cur|done].
Qed.

(** A line is blank, or starts with blanks and a token that a delimiter or the
    end of the line closes. *)
Lemma line_cases s :
  nul_free s →
  (forallb is_delim s = true ∧ words [] s = []) ∨
  ∃ d t r, s = d ++ t ++ r ∧ forallb is_delim d = true ∧ forallb not_delim t = true ∧ t ≠ [] ∧
    ((r = [] ∧ words [] s = [t]) ∨ ∃ c r', r = c :: r' ∧ is_delim c = true ∧ words [] s = t :: words [] r').
Proof.
  unfold nul_free. induction s as [|c s IH]; intros Hs; [by left|]. simpl. destruct (is_delim c) eqn:Hc.
  - destruct IH as [[Hd Hw]|(d & t & r & -> & Hd & Ht & Hne & Hr)]; [set_solver|by left|].
    right. exists (c :: d), t, r. simpl. rewrite Hc. split_and!; done.
  - right. clear IH.
    assert (∃ t r, s = t ++ r ∧ forallb not_delim t = true ∧ (r = [] ∨ ∃ c r', r = c :: r' ∧ is_delim c = true))
      as (t & r & -> & Ht & Hr).
    { clear Hs. induction s as [|x s (t & r & -> & Ht & Hr)]; [exists [], []; auto|].
      destruct (is_delim x) eqn:Hx; [exists [], (x :: t ++ r); split_and!; eauto|].
      exists (x :: t), r. split_and!; [done| |done]. simpl. unfold not_delim at 1. by rewrite Hx. }
    exists [], (c :: t), r. simpl. rewrite words_acc by done. simpl. unfold not_delim at 1. rewrite Hc.
    split_and!; [done..|]. destruct Hr as [->|(x & r' & -> & Hx)]; [by left|right].
    exists x, r'. split_and!; [done..|]. simpl. by rewrite Hx.
Qed.

Lemma span_len_app (f : ascii → bool) a r :
  forallb f a = true → span_len f (a ++ r) = (length a + span_len f r)%nat.
Proof. induction a as [|c a IH]; simpl; [done|]. intros [-> Ha]%andb_true_iff. simpl. by rewrite IH. Qed.

Lemma span_not_delim t :
  nul_free t → forallb not_delim t = true →
  forallb (λ c, negb (is_delim c || bool_decide (c = NUL))) t = true.
Proof.
  unfold nul_free. intros Hn Ht. apply forallb_forall. intros c Hc.
  rewrite forallb_forall in Ht. specialize (Ht c Hc). unfold not_delim in Ht. rewrite negb_orb, Ht. simpl.
  rewrite bool_decide_eq_false_2; [done|]. intros ->. apply Hn. by apply list_elem_of_In.
Qed.

(** [strtok_r] on a buffer whose rest, from [ptr] on, is a line. *)
Lemma strtok_r_spec pre s :
  nul_free s →
  match words [] s with
  | [] => strtok_r (pre ++ s ++ [NUL]) (length pre) = None
  | t :: ws => ∃ d s' z, strtok_r (pre ++ s ++ [NUL]) (length pre)
        = Some (pre ++ d ++ t ++ z ++ s' ++ [NUL], length (pre ++ d), length (pre ++ d ++ t ++ z)) ∧
      nul_free s' ∧ nul_free t ∧ t ≠ [] ∧ words [] s' = ws ∧ (z = [NUL] ∨ z = [] ∧ s' = []) ∧ (length s' < length s)%nat
  end.
Proof.
  intros Hs. unfold strtok_r. rewrite drop_app_length.
  destruct (line_cases s Hs) as [[Hd ->]|(d & t & r & Heq & Hd & Ht & Hne & Hr)].
  { rewrite span_len_app by done. simpl. rewrite Nat.add_0_r, <- length_app, (app_assoc pre s), drop_app_length. done. }
  assert (Hnt : nul_free t ∧ nul_free r).
  { unfold nul_free in *. rewrite Heq in Hs. rewrite !elem_of_app in Hs. tauto. }
  destruct Hnt as [Hnt Hnr]. pose proof (span_not_delim t Hnt Ht) as Hspan.
  destruct t as [|c0 t0] eqn:Et; [done|]. rewrite <- Et in *.
  assert (Hc0 : is_delim c0 = false).
  { rewrite Et in Ht. simpl in Ht. apply andb_true_iff in Ht as [Ht _]. by apply negb_true_iff in Ht. }
  rewrite Heq, <- (app_assoc d), <- (app_assoc t), span_len_app by done.
  replace (span_len is_delim (t ++ r ++ [NUL])) with 0%nat by (rewrite Et; simpl; by rewrite Hc0).
  rewrite Nat.add_0_r, <- length_app, (app_assoc pre d), drop_app_length.
  assert (Hm : ∀ A (x : ascii → A) y, match t ++ r ++ [NUL] with [] => y | c :: _ => x c end = x c0) by (by rewrite Et).
  rewrite Hm. rewrite (bool_decide_eq_false_2 (c0 = NUL)) by (rewrite Et in Hnt; unfold nul_free in Hnt; set_solver).
  rewrite span_len_app by done.
  destruct Hr as [[-> Hw]|(c & r' & -> & Hc & Hw)]; rewrite <- Heq, Hw; simpl.
  - rewrite Nat.add_0_r, <- length_app. rewrite (app_assoc (pre ++ d) t), lookup_app_r by lia.
    rewrite Nat.sub_diag. simpl. exists d, [], []. simpl. rewrite !app_nil_r, <- !app_assoc.
    split_and!; [done|done|done|by rewrite Et|done|by right|]. rewrite Heq, Et, app_nil_r, length_app. simpl. lia.
  - rewrite Hc. simpl. rewrite Nat.add_0_r, <- length_app. rewrite (app_assoc (pre ++ d) t), lookup_app_r by lia.
    rewrite Nat.sub_diag. simpl. rewrite (bool_decide_eq_false_2 (c = NUL)) by (unfold nul_free in Hnr; set_solver).
    exists d, r', [NUL]. rewrite <- (Nat.add_0_r (length ((pre ++ d) ++ t))), insert_app_r. simpl.
    rewrite <- !app_assoc. simpl. split_and!; [|solve_nul_free|done|by rewrite Et|done|by left|].
    + do 3 f_equal. rewrite !length_app. simpl. lia.
    + rewrite Heq, !length_app. simpl. lia.
Qed.

(** Writing the negation mark, when there is one. *)
Definition mark (buf : list ascii) (pos : nat) (negate : bool) : list ascii * nat :=
  if negate then (<[(pos - 1)%nat := "!"%char]> buf, (pos - 1)%nat) else (buf, pos).

Lemma buf_str_terminated t rest : nul_free t → buf_str (t ++ NUL :: rest) = Val t.
Proof.
  intros Ht. unfold buf_str. rewrite bool_decide_eq_true_2 by set_solver. by rewrite cstring_app_nul.
Qed.

Lemma insert_at (pre : list ascii) k c t : <[(length pre + k)%nat := c]> (pre ++ t) = pre ++ <[k := c]> t.
Proof. apply insert_app_r. Qed.

(** A well-formed token is recognised where it stands, its target is what
    [parse_token] says, and the mark stays within the token. *)
Lemma scan_token_good fuel pre t rest ty tgt :
  nul_free t → parse_token t = Some (ty, tgt) → (0 < fuel)%nat →
  ∃ pos neg t2, scan_token fuel (pre ++ t ++ NUL :: rest) (length pre) = Val (ty, pos, neg) ∧
    (mark (pre ++ t ++ NUL :: rest) pos neg).1 = pre ++ t2 ++ NUL :: rest ∧ length t2 = length t ∧
    buf_str (drop (mark (pre ++ t ++ NUL :: rest) pos neg).2 (pre ++ t2 ++ NUL :: rest)) = Val tgt.
Proof.
  intros Hn Hp Hf. destruct fuel as [|fuel]; [lia|]. unfold parse_token in Hp.
  destruct t as [|c t]; [done|]. simpl in Hp. simpl.
  assert (Hl0 : ∀ x y, (pre ++ x :: y) !! length pre = Some x) by (intros; by rewrite lookup_app_r, Nat.sub_diag by lia).
  assert (Hl1 : ∀ x y z, (pre ++ x :: y :: z) !! S (length pre) = Some y).
  { intros. rewrite lookup_app_r by lia. by replace (S (length pre) - length pre)%nat with 1%nat by lia. }
  assert (Hd1 : ∀ x y, drop (S (length pre)) (pre ++ x :: y) = y).
  { intros. rewrite cons_middle, app_assoc. rewrite drop_app_length'; [done|]. rewrite length_app. simpl. lia. }
  rewrite Hl0. run.
  assert (Hnt : nul_free t) by solve_nul_free.
  case_bool_decide as Hneg.
  - subst c. destruct t as [|c t]; [done|]. simpl app in *. rewrite Hl1. run.
    destruct (entry_type c) as [[ty' keep]|] eqn:Hty; [|done]. simpl in Hp.
    assert (Hnt' : nul_free t) by solve_nul_free.
    destruct keep; simplify_eq.
    + exists (S (length pre)), true, ("!"%char :: c :: t). unfold mark. simpl. rewrite Nat.sub_0_r.
      split_and!; [done| |done|rewrite drop_app_length; by apply (buf_str_terminated ("!"%char :: c :: t))].
      rewrite <- (Nat.add_0_r (length pre)), insert_at. done.
    + exists (S (S (length pre))), true, ("!"%char :: "!"%char :: t). unfold mark.
      replace (S (S (length pre)) - 1)%nat with (S (length pre)) by lia. simpl.
      split_and!; [done| |done|].
      * replace (S (length pre)) with (length pre + 1)%nat by lia. by rewrite insert_at.
      * rewrite Hd1. apply (buf_str_terminated ("!"%char :: t)). unfold nul_free in *. set_solver.
  - destruct (entry_type c) as [[ty' keep]|] eqn:Hty; [|done]. run. rewrite Hty.
    destruct keep; simplify_eq.
    + exists (length pre), false, (c :: t). simpl. rewrite ?Nat.sub_0_r.
      split_and!; [done..|]. rewrite drop_app_length. by apply (buf_str_terminated (c :: t)).
    + exists (S (length pre)), false, (c :: tgt). simpl. split_and!; [done..|]. rewrite Hd1.
      by apply buf_str_terminated.
Qed.

Lemma add_entries_good fuel pre t z s p ps :
  (length s < fuel)%nat → nul_free t → nul_free s → (z = [NUL] ∨ z = [] ∧ s = []) →
  map parse_token (t :: words [] s) = map Some ps →
  add_entries fuel (pre ++ t ++ z ++ s ++ [NUL]) (length pre) (length (pre ++ t ++ z)) p = add_tokens ps p.
Proof.
  revert pre t z s p ps. induction fuel as [|fuel IH]; intros pre t z s p ps Hf Hnt Hns Hz Hps; [lia|].
  destruct ps as [|[ty tgt] ps]; [done|]. cbn [map] in Hps. injection Hps as Hp Hps.
  assert (∃ rest, z ++ s ++ [NUL] = NUL :: rest) as [rest Hrest].
  { destruct Hz as [->|[-> ->]]; eauto. }
  cbn [add_entries]. set (buf := pre ++ t ++ z ++ s ++ [NUL]).
  destruct (scan_token_good (S (length buf)) pre t rest ty tgt Hnt Hp ltac:(lia)) as (pos & neg & t2 & Hscan & Hm1 & Hlen & Hstr).
  rewrite <- Hrest in *. fold buf in Hscan, Hm1, Hstr. rewrite Hscan. run.
  change (if neg then _ else _) with (mark buf pos neg). destruct (mark buf pos neg) as [buf2 pos2].
  cbn [fst snd] in Hm1, Hstr. subst buf2. rewrite Hstr. cbn [mbind outcome_mbind add_tokens].
  destruct (perm_find_create_entry tgt ty p) as [p'|]; [|done]. run.
  replace (pre ++ t2 ++ z ++ s ++ [NUL]) with ((pre ++ t2 ++ z) ++ s ++ [NUL]) by (by rewrite <- !app_assoc).
  replace (length (pre ++ t ++ z)) with (length (pre ++ t2 ++ z)) by (rewrite !length_app; lia).
  pose proof (strtok_r_spec (pre ++ t2 ++ z) s Hns) as Htok. destruct (words [] s) as [|t' ws] eqn:Hw.
  - rewrite Htok. by destruct ps.
  - destruct Htok as (d & s' & z' & -> & Hns' & Hnt' & _ & Hws & Hz' & Hls).
    rewrite (app_assoc _ d), (app_assoc _ d). apply IH; [lia|done..|]. by rewrite Hws.
Qed.

(** ** Adding entries *)

Definition entry_key (x : wzd_cp_t * list ascii) : wzd_cp_t * list ascii := (x.1, map tolower x.2).
Definition mk_entry (x : wzd_cp_t * list ascii) : entry := mkEntry x.1 (padded 256 x.2).

Definition target_ok (x : wzd_cp_t * list ascii) : Prop := nul_free x.2 ∧ (length x.2 < 256)%nat.

Lemma has_entry_spec tgt c xs :
  Forall target_ok xs →
  has_entry tgt c (map mk_entry xs) = Val (bool_decide ((c, map tolower tgt) ∈ map entry_key xs)).
Proof.
  induction 1 as [|[ty t] xs [Hn Hl] Hxs IH]; cbn [map has_entry mk_entry target cp fst snd]; [done|].
  simpl in Hn, Hl. rewrite padded_nul, buf_eq_terminated by done. run. rewrite IH.
  assert (Hcons : ∀ b : bool, b = bool_decide (map tolower t = map tolower tgt) && bool_decide (ty = c) →
    (if b then Val true else Val (bool_decide ((c, map tolower tgt) ∈ map entry_key xs)))
    = Val (bool_decide ((c, map tolower tgt) ∈ entry_key (ty, t) :: map entry_key xs))); [|by apply Hcons].
  intros b Hb. destruct b; f_equal; symmetry in Hb |- *.
  - apply andb_true_iff in Hb as [H1%bool_decide_eq_true H2%bool_decide_eq_true].
    apply bool_decide_eq_true. rewrite elem_of_cons. left. unfold entry_key. simpl. congruence.
  - apply bool_decide_ext. rewrite elem_of_cons. split; [|auto]. intros [Heq|]; [|done]. exfalso.
    unfold entry_key in Heq. injection Heq as H2 H1. cbn [fst snd] in H1, H2.
    rewrite !bool_decide_eq_true_2 in Hb by congruence. done.
Qed.

(** Entries that are pairwise different are all appended, in order. *)
Lemma add_tokens_fresh ps n xs :
  Forall target_ok xs → Forall target_ok ps → NoDup (map entry_key (xs ++ ps)) →
  add_tokens ps (mkPerm n (map mk_entry xs)) = Val (mkPerm n (map mk_entry (xs ++ ps))).
Proof.
  intros Hxs Hps. revert xs Hxs. induction Hps as [|[ty t] ps [Hn Hl] Hps IH]; intros xs Hxs Hnd; cbn [add_tokens].
  - by rewrite app_nil_r.
  - unfold perm_find_create_entry. cbn [entry_list command_name]. rewrite has_entry_spec by done.
    rewrite bool_decide_eq_false_2; cycle 1.
    { rewrite map_app in Hnd. apply NoDup_app in Hnd as (_ & Hnd & _). intros Hin. apply (Hnd _ Hin).
      cbn [map]. rewrite elem_of_cons. by left. }
    run. simpl in Hn, Hl.
    assert (Hnew : perm_create_empty_entry t ty = mk_entry (ty, t)).
    { unfold perm_create_empty_entry, mk_entry. cbn [fst snd]. rewrite strncpy_padded; [done|apply length_replicate|lia]. }
    rewrite Hnew. change [mk_entry (ty, t)] with (map mk_entry [(ty, t)]). rewrite <- map_app.
    rewrite IH; [by rewrite <- app_assoc|apply Forall_app; split; [done|]; by constructor|by rewrite <- app_assoc].
Qed.

Lemma perm_find_create_fresh name l :
  (∀ p, p ∈ l → ∃ n, command_name p = padded 256 n ∧ nul_free n ∧ (length n < 256)%nat ∧ n ≠ name) →
  perm_find_create name l = Val (length l, l ++ [perm_create_empty_perm name]).
Proof.
  intros Hl. unfold perm_find_create.
  assert (Hf : ∀ i, find_perm id name i l = Val None); [|by rewrite Hf].
  induction l as [|p l IH]; intros i; cbn [find_perm]; [done|].
  destruct (Hl p) as (n & -> & Hn & Hlen & Hne); [set_solver|].
  rewrite padded_nul, buf_eq_terminated by done. run.
  rewrite bool_decide_eq_false_2 by (by rewrite !map_id). apply IH. intros q Hq. apply Hl. set_solver.
Qed.

(** Parsing a line of well-formed, pairwise different tokens for a new name. *)
Lemma perm_add_perm_spec name line l ps :
  nul_free line → line ≠ [] → (length line < BUFFER_LEN)%nat → name ≠ [] →
  (∀ p, p ∈ l → ∃ n, command_name p = padded 256 n ∧ nul_free n ∧ (length n < 256)%nat ∧ n ≠ name) →
  map parse_token (words [] line) = map Some ps → Forall target_ok ps → NoDup (map entry_key ps) →
  perm_add_perm (Some name) (Some line) l
    = Val (0, l ++ [mkPerm (command_name (perm_create_empty_perm name)) (map mk_entry ps)]).
Proof.
  intros Hn Hne Hlen Hname Hl Hps Hok Hnd. unfold perm_add_perm.
  destruct (Nat.eqb_spec (length name) 0) as [Hz|_]; [by apply nil_length_inv in Hz|].
  destruct (Nat.eqb_spec (length line) 0) as [Hz|_]; [by apply nil_length_inv in Hz|]. cbn [orb].
  destruct (Nat.leb_spec BUFFER_LEN (length line)); [lia|].
  rewrite perm_find_create_fresh by done. run.
  rewrite lookup_app_r, Nat.sub_diag by lia. cbn [lookup list_lookup deref mbind outcome_mbind].
  pose proof (strtok_r_spec [] line Hn) as Htok. destruct (words [] line) as [|t ws] eqn:Hw.
  - destruct ps; [|done]. simpl in Htok. rewrite Htok. done.
  - destruct Htok as (d & s' & z & Htok & Hns & Hnt & _ & Hws & Hz & Hls).
    cbn [app length] in Htok. rewrite Htok. rewrite (add_entries_good _ d t z s' _ ps); [|rewrite length_app; lia|done..|by rewrite Hws].
    unfold perm_create_empty_perm. pose proof (add_tokens_fresh ps (strncpy (replicate 256 NUL) name 256) [] ltac:(constructor) Hok Hnd) as Hadd.
    cbn [map app] in Hadd. rewrite Hadd.
    run. rewrite <- (Nat.add_0_r (length l)), insert_app_r. done.
Qed.

(** ** What adding means *)

(** A permission: the name of its command and its entries. *)
Definition abs_perm : Type := list ascii * list (wzd_cp_t * list ascii).
Definition perm_repr (p : abs_perm) : perm := mkPerm (padded 256 p.1) (map mk_entry p.2).
Definition abs_ok (p : abs_perm) : Prop := nul_free p.1 ∧ (length p.1 < 256)%nat ∧ Forall target_ok p.2.

(** The entries that are not there yet, a user, group or flag with the same target
    whatever the case, come last. *)
Fixpoint merge (xs ps : list (wzd_cp_t * list ascii)) : list (wzd_cp_t * list ascii) :=
  match ps with
  | [] => xs
  | x :: ps => merge (if bool_decide (entry_key x ∈ map entry_key xs) then xs else xs ++ [x]) ps
  end.

(** They are added to the first permission of exactly this name, or to a new one at
    the end of the list. *)
Fixpoint grant (name : list ascii) (ps : list (wzd_cp_t * list ascii)) (l : list abs_perm) : list abs_perm :=
  match l with
  | [] => [(name, merge [] ps)]
  | p :: l => if bool_decide (p.1 = name) then (p.1, merge p.2 ps) :: l else p :: grant name ps l
  end.

(** The entries of a line: tokens that all start one. *)
Definition line_grants (line : list ascii) (ps : list (wzd_cp_t * list ascii)) : Prop :=
  nul_free line ∧ line ≠ [] ∧ (length line < BUFFER_LEN)%nat ∧ map parse_token (words [] line) = map Some ps ∧ Forall target_ok ps.

Lemma add_tokens_merge ps n xs : Forall target_ok xs → Forall target_ok ps →
  add_tokens ps (mkPerm n (map mk_entry xs)) = Val (mkPerm n (map mk_entry (merge xs ps))).
Proof.
  intros Hxs Hps. revert xs Hxs. induction Hps as [|[ty tgt] ps Hx Hps IH]; intros xs Hxs; cbn [add_tokens merge]; [done|].
  unfold perm_find_create_entry. cbn [entry_list]. rewrite has_entry_spec by done. run. change (ty, map tolower tgt) with (entry_key (ty, tgt)).
  case_bool_decide; [by apply IH|]. destruct Hx as [Hn Hl]. cbn [snd] in *. cbn [command_name].
  assert (He : perm_create_empty_entry tgt ty = mk_entry (ty, tgt)).
  { unfold perm_create_empty_entry, mk_entry. f_equal. apply strncpy_padded; [apply length_replicate|cbn; lia]. }
  rewrite He. replace (map mk_entry xs ++ [mk_entry (ty, tgt)]) with (map mk_entry (xs ++ [(ty, tgt)])) by by rewrite map_app.
  apply IH. apply Forall_app. split; [done|]. by apply Forall_singleton.
Qed.

Lemma find_perm_repr name i l q : Forall abs_ok l → name ∉ map fst l →
  find_perm id name i (map perm_repr l ++ q) = find_perm id name (i + length l) q.
Proof.
  intros Hl Hn. revert i. induction Hl as [|p l (Hpn & Hpl & _) Hl IH]; intros i; cbn [map app find_perm length]; [by rewrite Nat.add_0_r|].
  cbn [map] in Hn. apply not_elem_of_cons in Hn as [Hne Hn]. cbn [command_name perm_repr]. rewrite padded_nul, buf_eq_terminated by done. run.
  rewrite bool_decide_eq_false_2 by (rewrite !map_id; congruence). rewrite IH by done. f_equal. lia.
Qed.

Lemma grant_cases name ps l :
  (∃ pre xs post, l = pre ++ (name, xs) :: post ∧ (name ∉ map fst pre) ∧ grant name ps l = pre ++ (name, merge xs ps) :: post) ∨
  (name ∉ map fst l) ∧ grant name ps l = l ++ [(name, merge [] ps)].
Proof.
  induction l as [|[n xs] l IH]; cbn [grant map fst snd]; [right; by split; [apply not_elem_of_nil|]|].
  case_bool_decide as Hn; [subst; left; exists [], xs, l; by split_and!; [|apply not_elem_of_nil|]|].
  destruct IH as [(pre & ys & post & -> & Hpre & ->)|[Hl ->]].
  - left. exists ((n, xs) :: pre), ys, post. split_and!; [done| |done]. cbn [map fst]. apply not_elem_of_cons. by split; [congruence|].
  - right. split; [|done]. apply not_elem_of_cons. by split; [congruence|].
Qed.

Lemma perm_add_perm_grants name line ps l :
  nul_free name → name ≠ [] → (length name < 256)%nat → Forall abs_ok l → line_grants line ps →
  perm_add_perm (Some name) (Some line) (map perm_repr l) = Val (0, map perm_repr (grant name ps l)).
Proof.
  intros Hnn Hname Hnl Hl (Hn & Hne & Hlen & Hps & Hok). unfold perm_add_perm.
  destruct (Nat.eqb_spec (length name) 0) as [Hz|_]; [by apply nil_length_inv in Hz|].
  destruct (Nat.eqb_spec (length line) 0) as [Hz|_]; [by apply nil_length_inv in Hz|]. cbn [orb].
  destruct (Nat.leb_spec BUFFER_LEN (length line)); [lia|].
  assert (Hfind : ∃ (pre : list abs_perm) xs (post : list abs_perm), perm_find_create name (map perm_repr l) = Val (length pre, map perm_repr (pre ++ (name, xs) :: post)) ∧
    Forall target_ok xs ∧ grant name ps l = pre ++ (name, merge xs ps) :: post).
  { unfold perm_find_create. destruct (grant_cases name ps l) as [(pre & xs & post & -> & Hpre & ->)|[Hnew ->]].
    - exists pre, xs, post. apply Forall_app in Hl as [Hl Hp]. apply Forall_cons in Hp as [(_ & _ & Hxs) _]. split; [|done].
      rewrite map_app, find_perm_repr by done. cbn [map find_perm command_name perm_repr fst]. rewrite padded_nul, buf_eq_terminated by done. run.
      rewrite bool_decide_eq_true_2 by done. cbn [mbind outcome_mbind]. by rewrite map_app.
    - exists l, [], []. split; [|done]. rewrite <- (app_nil_r (map perm_repr l)), find_perm_repr by done. cbn [find_perm]. run.
      rewrite app_nil_r, length_map, map_app. do 3 f_equal. unfold perm_create_empty_perm, perm_repr. cbn [map fst snd]. do 2 f_equal.
      apply strncpy_padded; [apply length_replicate|lia]. }
  destruct Hfind as (pre & xs & post & -> & Hxs & ->). run.
  rewrite map_app, lookup_app_r, length_map, Nat.sub_diag by (rewrite length_map; lia). cbn [map lookup list_lookup deref mbind outcome_mbind].
  assert (Hend : ∀ es, <[length pre := mkPerm (padded 256 name) (map mk_entry es)]> (map perm_repr pre ++ perm_repr (name, xs) :: map perm_repr post)
    = map perm_repr (pre ++ (name, es) :: post)).
  { intros es. rewrite map_app. replace (length pre) with (length (map perm_repr pre) + 0)%nat by (rewrite length_map; lia). by rewrite insert_app_r. }
  pose proof (strtok_r_spec [] line Hn) as Htok. destruct (words [] line) as [|t wds] eqn:Hw.
  - destruct ps; [|done]. simpl in Htok. rewrite Htok. cbn [merge]. by rewrite map_app.
  - destruct Htok as (d & s' & z & Htok & Hns & Hnt & _ & Hws & Hz & Hls).
    cbn [app length] in Htok. rewrite Htok. rewrite (add_entries_good _ d t z s' _ ps); [|rewrite length_app; lia|done..|by rewrite Hws].
    pose proof (add_tokens_merge ps (padded 256 name) xs Hxs Hok) as Hadd. change (mkPerm (padded 256 name) (map mk_entry xs)) with (perm_repr (name, xs)) in Hadd.
    rewrite Hadd. run. by rewrite Hend.
Qed.

(** Scanning over characters that start no entry leaves the buffer. *)
Definition no_entry (c : ascii) : Prop := entry_type c = None ∧ c ≠ "!"%char.

Lemma scan_token_crash fuel buf pos : Forall no_entry (drop pos buf) → scan_token fuel buf pos = Crash.
Proof.
  revert pos. induction fuel as [|fuel IH]; intros pos Hall; simpl; [done|].
  destruct (buf !! pos) as [c|] eqn:Hc; [|done]. run.
  rewrite (drop_S _ _ _ Hc) in Hall. apply Forall_cons in Hall as [[Hty Hne] Hall].
  rewrite bool_decide_eq_false_2 by done. run. rewrite Hty. by apply IH.
Qed.

(** ** Printing and parsing back *)

Definition token_of (x : wzd_cp_t * list ascii) : list ascii :=
  if streq x.2 (str "*") then x.2 else prefix_char x.1 :: x.2.
Definition printed (xs : list (wzd_cp_t * list ascii)) : list ascii :=
  concat (map (λ x, " "%char :: token_of x) xs).

Lemma streq_star_padded t :
  nul_free t → (length t < 256)%nat → buf_eq id (padded 256 t) (str "*") = Val (streq t (str "*")).
Proof. intros. rewrite padded_nul, buf_eq_terminated by done. by rewrite !map_id. Qed.

(** [perm_buffer_ptr] stays at [length]; each entry is written whole as long as
    the room left is not smaller than its target. *)
Lemma perm2str_loop_spec xs acc tail max :
  Forall target_ok xs → (max ≤ length (acc ++ tail))%nat →
  Forall (λ x, (length acc + length (printed xs) + length x.2 < max)%nat) xs →
  ∃ tail', perm2str_loop (map mk_entry xs) (acc ++ tail) (length acc) (length acc) max
      = Val (Some (length (acc ++ printed xs)), (acc ++ printed xs) ++ tail')
    ∧ length ((acc ++ printed xs) ++ tail') = length (acc ++ tail).
Proof.
  intros Hok. revert acc tail. induction Hok as [|[ty t] xs [Hn Hl] Hok IH]; intros acc tail Hmax Hroom.
  { exists tail. unfold printed. simpl. by rewrite app_nil_r. }
  cbn [map perm2str_loop mk_entry target cp fst snd] in *. pose proof Hroom as [Hr1 Hr2]%Forall_cons. cbn [snd] in Hr1.
  assert (Hp : printed ((ty, t) :: xs) = (" "%char :: token_of (ty, t)) ++ printed xs) by done.
  rewrite Hp in Hr1, Hr2 |- *. rewrite length_app in Hr1. cbn [length] in Hr1.
  assert (Htl : (length (token_of (ty, t)) + length acc < max)%nat) by lia.
  assert (Hto : (length t ≤ length (token_of (ty, t)))%nat) by (unfold token_of; simpl; destruct (streq _ _); simpl; lia).
  rewrite length_app in Hmax.
  set (pfx := if streq t (str "*") then [] else [prefix_char ty]).
  assert (Htok : token_of (ty, t) = pfx ++ t) by (unfold token_of, pfx; simpl; by destruct (streq _ _)).
  destruct tail as [|x0 tail]; [simpl in Hmax; lia|].
  rewrite Htok, length_app in Hr1, Htl.
  rewrite buf_set_app. run. rewrite streq_star_padded by done. run.
  rewrite buf_str_padded by done. run.
  assert (Hpfx : ∃ tl2, (length (pfx ++ tl2) = length tail ∧ (if negb (streq t (str "*"))
      then buf ← buf_set (acc ++ " "%char :: tail) (Z.of_nat (S (length acc))) (prefix_char ty);
           Val (buf, S (S (length acc)), S (S (length acc)))
      else Val (acc ++ " "%char :: tail, S (length acc), S (length acc)))
    = Val ((acc ++ " "%char :: pfx) ++ tl2, length (acc ++ " "%char :: pfx), length (acc ++ " "%char :: pfx)))).
  { unfold pfx in *. destruct (streq t (str "*")); simpl.
    - exists tail. rewrite <- app_assoc. simpl. rewrite length_app. simpl.
      by replace (length acc + 1)%nat with (S (length acc)) by lia.
    - simpl in Hr1, Htl, Hmax. destruct tail as [|x1 tail]; [simpl in Hmax; lia|]. exists tail. split; [done|].
      replace (acc ++ " "%char :: x1 :: tail) with ((acc ++ [" "%char]) ++ x1 :: tail) by (by rewrite <- app_assoc).
      replace (S (length acc)) with (length (acc ++ [" "%char])) by (rewrite length_app; simpl; lia).
      rewrite buf_set_app. run. rewrite !length_app, <- !app_assoc. simpl.
      replace (S (length acc + 1)) with (length acc + 2)%nat by lia. done. }
  destruct Hpfx as (tl2 & Hlen2 & ->). run.
  set (acc2 := acc ++ " "%char :: pfx) in *.
  assert (Hacc2 : length acc2 = (length acc + S (length pfx))%nat) by (unfold acc2; rewrite length_app; done).
  rewrite length_app in Hlen2. cbn [length] in Hmax.
  replace (max <=? length acc2 + length t)%nat with false by (symmetry; apply Nat.leb_gt; lia).
  rewrite length_app.
  replace (length acc2 + length tl2 <? length acc2 + (max - (length acc2 + length t)))%nat with false
    by (symmetry; apply Nat.ltb_ge; lia).
  rewrite take_app_length, drop_app_length. unfold strncpy.
  set (k := (max - (length acc2 + length t))%nat). assert (Hk : (length t ≤ k)%nat) by lia.
  rewrite take_app_ge by lia. set (tl3 := take (k - length t) (replicate k NUL) ++ drop k tl2).
  replace (acc2 ++ (t ++ take (k - length t) (replicate k NUL)) ++ drop k tl2) with ((acc2 ++ t) ++ tl3)
    by (unfold tl3; by rewrite <- !app_assoc).
  assert (Hl3 : (length t + length tl3 = length tl2)%nat).
  { unfold tl3. rewrite length_app, length_take, length_replicate, length_drop. lia. }
  rewrite <- length_app.
  destruct (IH (acc2 ++ t) tl3) as (tail' & -> & Hlen').
  - rewrite !length_app. lia.
  - eapply Forall_impl; [exact Hr2|]. intros y Hy. simpl in Hy |- *. rewrite Htok, !length_app in Hy.
    rewrite length_app. lia.
  - exists tail'. rewrite Htok.
    assert (Heq : (acc2 ++ t) ++ printed xs = acc ++ (" "%char :: pfx ++ t) ++ printed xs).
    { unfold acc2. rewrite <- !app_assoc. simpl. by rewrite <- !app_assoc. }
    rewrite Heq in Hlen' |- *. split; [done|]. rewrite Hlen', !length_app. cbn [length]. lia.
Qed.

Lemma words_printed xs :
  Forall (λ x, forallb not_delim x.2 = true) xs → words [] (printed xs) = map token_of xs.
Proof.
  assert (Hgen : ∀ cur, Forall (λ x, forallb not_delim x.2 = true) xs → cur ≠ [] →
    words cur (printed xs) = cur :: map token_of xs).
  2: { intros Hall. destruct xs as [|x xs]; [done|]. unfold printed. cbn [map concat]. cbn [app words].
       change (is_delim " "%char) with true. cbn iota.
       specialize (Hgen (str "z") Hall ltac:(done)). unfold printed in Hgen. cbn [map concat] in Hgen.
       cbn [app words str list_ascii_of_string] in Hgen. change (is_delim " "%char) with true in Hgen. by injection Hgen. }
  induction xs as [|x xs IH]; intros cur Hall Hc; [by destruct cur|].
  apply Forall_cons in Hall as [Hx Hall]. unfold printed. cbn [map concat app words].
  change (is_delim " "%char) with true. fold (printed xs).
  assert (Htok : forallb not_delim (token_of x) = true ∧ token_of x ≠ []).
  { unfold token_of. destruct (streq x.2 (str "*")) eqn:Hs.
    - apply streq_true in Hs. rewrite Hs. done.
    - cbn [forallb]. rewrite Hx. by destruct x.1. }
  destruct Htok as [Hnd Hne]. rewrite words_acc by done. cbn [app]. rewrite IH by done. by destruct cur.
Qed.

Lemma parse_token_of x : (x.2 = str "*" → x.1 = CPERM_USER) → parse_token (token_of x) = Some x.
Proof.
  intros Hstar. destruct x as [ty t]. unfold token_of. cbn [fst snd] in *. destruct (streq t (str "*")) eqn:Hs.
  - apply streq_true in Hs. specialize (Hstar Hs). by subst.
  - by destruct ty.
Qed.

Lemma nul_free_printed xs : Forall target_ok xs → nul_free (printed xs).
Proof.
  unfold nul_free. induction 1 as [|x xs [Hn _] _ IH]; [by unfold printed; simpl; set_solver|].
  unfold printed. cbn [map concat]. fold (printed xs). rewrite elem_of_app, elem_of_cons.
  intros [[?|Hin]|?]; [done| |done]. unfold token_of in Hin. destruct (streq _ _); [done|].
  apply elem_of_cons in Hin as [Hin|?]; [by destruct x.1|done].
Qed.

(** [strtok_r] writes nothing but NUL. *)
Lemma strtok_r_chars buf ptr buf' tok ptr' :
  strtok_r buf ptr = Some (buf', tok, ptr') → ∀ c, c ∈ buf' → c = NUL ∨ c ∈ buf.
Proof.
  unfold strtok_r. destruct (drop _ buf) as [|x ?]; [done|]. case_bool_decide; [done|].
  set (fin := (_ + _ + span_len _ _)%nat). clearbody fin. destruct (buf !! fin) as [y|]; [|done].
  case_bool_decide; intros [= <- _ _] c Hc; [by right|].
  apply list_elem_of_lookup in Hc as [i Hi]. apply list_lookup_insert_Some in Hi as [(_ & -> & _)|[_ Hi]]; [by left|].
  right. by eapply list_elem_of_lookup_2.
Qed.

(** ** Theorems *)

Lemma perm_check_perm_spec ch ca (w : world) (i : Z) a u (p : perm) name fl gnames :
  world_wf w → 0 < r_max (w_groups w) → registered (w_users w) i = Some a → r_heap (w_users w) !! a = Some u →
  perm_user u w name fl gnames → Forall entry_ok (entry_list p) →
  perm_check_perm (Some (plaintext ch ca)) (Some p) i w = Val (verdict name fl gnames (entry_list p)).
Proof.
  intros (Hwu & Hm & Hwg) Hmg Hi Ha Hu Hes. pose proof (wf_max _ Hwu). unfold perm_check_perm, GetUserByID.
  assert (Hri : 0 ≤ i ≤ r_max (w_users w)).
  { destruct (decide (i < 0)); [by rewrite registered_neg in Hi|].
    destruct (decide (r_max (w_users w) < i)); [by rewrite registered_beyond in Hi|]. lia. }
  replace (i =? INVALID_USER) with false by (symmetry; unfold INVALID_USER, INT_MAX in *; lia).
  cbn [backend_get_user plaintext]. unfold FCN_GET_USER.
  replace (i =? GET_USER_LIST) with false by (symmetry; unfold GET_USER_LIST, INT_MAX in *; lia).
  replace (i =? INVALID_USER) with false by (symmetry; unfold INVALID_USER, INT_MAX in *; lia).
  unfold user_get_by_id. rewrite get_by_id_registered by (unfold INVALID_USER, INT_MAX in *; auto with lia).
  cbn [mbind outcome_mbind as_struct]. rewrite Hi. run. rewrite Ha.
  run. by apply (check_entries_spec ch ca w u).
Qed.

(** Authorisation: for a user known to the plaintext backend and a
    permission whose targets fit their arrays, [perm_check_perm] allows (0)
    exactly when the first entry that applies to the user is not negated, and
    denies (1) otherwise, in particular when no entry applies. A user entry
    applies by name, a group entry by the name of one of the user's groups,
    both ignoring case, a flag entry by its first character. *)
Theorem perm_check_first_match ch ca (w : world) (i : Z) a u (p : perm) name fl gnames :
  world_wf w → 0 < r_max (w_groups w) → registered (w_users w) i = Some a → r_heap (w_users w) !! a = Some u →
  perm_user u w name fl gnames → Forall entry_ok (entry_list p) →
  perm_check_perm (Some (plaintext ch ca)) (Some p) i w = Val (verdict name fl gnames (entry_list p)).
Proof. apply perm_check_perm_spec. Qed.

(** A line of well-formed tokens, pairwise different up to case, given for
    a command that has no permission yet: [perm_add_perm] appends one
    permission to the list, with one entry per token in the order of the line,
    the negation mark kept in front of the target; the token buffer is never
    left and the parse terminates. *)
Theorem perm_add_perm_correct (name line : list ascii) (l : list perm) ps :
  nul_free line → line ≠ [] → (length line < BUFFER_LEN)%nat → name ≠ [] →
  (∀ p, p ∈ l → ∃ n, command_name p = padded 256 n ∧ nul_free n ∧ (length n < 256)%nat ∧ n ≠ name) →
  map parse_token (words [] line) = map Some ps → Forall target_ok ps → NoDup (map entry_key ps) →
  perm_add_perm (Some name) (Some line) l
    = Val (0, l ++ [mkPerm (command_name (perm_create_empty_perm name)) (map mk_entry ps)]).
Proof. apply perm_add_perm_spec. Qed.

(** A line whose characters start no entry (none of the type marks, no
    negation) makes [perm_add_perm] read past the end of its buffer: the
    [continue] after a malformed token does not fetch the next one, and the
    scan runs through the terminating NUL. *)
Theorem perm_add_perm_overrun (name line : list ascii) (l : list perm) :
  nul_free line → (length line < BUFFER_LEN)%nat → name ≠ [] → words [] line ≠ [] → Forall no_entry line →
  (∀ p, p ∈ l → ∃ n, command_name p = padded 256 n ∧ nul_free n ∧ (length n < 256)%nat ∧ n ≠ name) →
  perm_add_perm (Some name) (Some line) l = Crash.
Proof.
  intros Hn Hlen Hname Hw Hbad Hl. unfold perm_add_perm.
  destruct (Nat.eqb_spec (length name) 0) as [Hz|_]; [by apply nil_length_inv in Hz|].
  destruct (Nat.eqb_spec (length line) 0) as [Hz|_]; [apply nil_length_inv in Hz; by subst|]. cbn [orb].
  destruct (Nat.leb_spec BUFFER_LEN (length line)); [lia|].
  rewrite perm_find_create_fresh by done. run.
  rewrite lookup_app_r, Nat.sub_diag by lia. cbn [lookup list_lookup deref mbind outcome_mbind].
  pose proof (strtok_r_spec [] line Hn) as Htok. pose proof (line_cases line Hn) as Hc.
  destruct (words [] line) as [|t ws]; [done|]. destruct Htok as (d & s' & z & Htok & _ & _ & _ & _ & Hz & _).
  cbn [app length] in Htok. rewrite Htok. cbn [add_entries]. rewrite scan_token_crash; [done|].
  assert (Hin : ∀ c, c ∈ d ++ t ++ z ++ s' ++ [NUL] → c = NUL ∨ c ∈ line).
  { intros c Hc'. destruct (strtok_r_chars _ _ _ _ _ Htok c Hc') as [->|Hl']; [by left|].
    apply elem_of_app in Hl' as [?|?%list_elem_of_singleton]; auto. }
  rewrite Forall_forall in Hbad |- *. intros c Hcin. destruct (Hin c) as [->|?].
  - by apply (subseteq_drop (length d)).
  - done.
  - by apply Hbad.
Qed.

(** Round trip: a permission printed by [perm2str] into a buffer with room
    for its text plus its longest target, then parsed by [perm_add_perm], gives
    back the same entries, provided that no target holds a blank, the entries
    are pairwise different and a bare star is a user entry. *)
Theorem perm2str_roundtrip (name cname buf : list ascii) xs max :
  Forall target_ok xs → Forall (λ x, forallb not_delim x.2 = true) xs →
  Forall (λ x, x.2 = str "*" → x.1 = CPERM_USER) xs → NoDup (map entry_key xs) → xs ≠ [] → name ≠ [] →
  (max ≤ length buf)%nat → (length (printed xs) < BUFFER_LEN)%nat →
  Forall (λ x, (length (printed xs) + length x.2 < max)%nat) xs →
  ∃ out line, perm2str (Some (mkPerm cname (map mk_entry xs))) buf max = Val (0, out) ∧ buf_str out = Val line ∧
    perm_add_perm (Some name) (Some line) []
      = Val (0, [mkPerm (command_name (perm_create_empty_perm name)) (map mk_entry xs)]).
Proof.
  intros Hok Hnd Hstar Hdup Hne Hname Hmax Hlen Hroom. unfold perm2str. cbn [entry_list].
  destruct (perm2str_loop_spec xs [] buf max Hok Hmax Hroom) as (tail & Hloop & Hlt). cbn [app length] in Hloop, Hlt.
  rewrite Hloop. run. destruct tail as [|x tail].
  { exfalso. destruct xs as [|x xs]; [done|]. apply Forall_cons in Hroom as [Hx _]. rewrite app_nil_r in Hlt. lia. }
  rewrite buf_set_app. run. eexists _, (printed xs).
  assert (Hnf : nul_free (printed xs)) by (by apply nul_free_printed).
  split_and!; [done|by apply buf_str_terminated|].
  apply (perm_add_perm_spec name (printed xs) [] xs); [done| |done|done|set_solver| |done|done].
  - destruct xs; [done|]. by unfold printed.
  - rewrite words_printed, map_map by done. apply map_ext_Forall. eapply Forall_impl; [exact Hstar|].
    intros y Hy. by apply parse_token_of.
Qed.

(** ** Concrete permissions *)

Definition demo_perm : perm :=
  mkPerm (padded 256 (str "site_who")) (map mk_entry [(CPERM_USER, str "!ann"); (CPERM_FLAG, str "O"); (CPERM_USER, str "bob")]).

Lemma demo_targets_ok : Forall target_ok [(CPERM_USER, str "!ann"); (CPERM_FLAG, str "O"); (CPERM_USER, str "bob")].
Proof.
  repeat constructor; simpl; try lia; apply (bool_decide_unpack _); by vm_compute.
Qed.

Lemma perm_check_first_match_witness :
  perm_check_perm (Some (plaintext demo_changepass demo_auth)) (Some demo_perm) 5 demo_world
    = Val (verdict (str "bob") [] [] (entry_list demo_perm)).
Proof.
  apply (perm_check_first_match demo_changepass demo_auth demo_world 5 1%positive
    (set_u_backend (demo_user 5 (str "bob")) 1)); [exact demo_world_wf|by vm_compute|reflexivity|reflexivity| |].
  - split; [reflexivity|reflexivity|simpl; lia|constructor].
  - unfold demo_perm. cbn [entry_list]. apply Forall_map.
    eapply Forall_impl; [exact demo_targets_ok|]. intros [ty t] [? ?]. by exists t.
Defined.

Lemma perm_add_perm_correct_witness :
  perm_add_perm (Some (str "who")) (Some (str "!=ann +O  *")) []
    = Val (0, [] ++ [mkPerm (command_name (perm_create_empty_perm (str "who")))
        (map mk_entry [(CPERM_USER, str "!ann"); (CPERM_FLAG, str "O"); (CPERM_USER, str "*")])]).
Proof.
  apply (perm_add_perm_correct (str "who") (str "!=ann +O  *"));
    [apply (bool_decide_unpack _); by vm_compute|done|unfold BUFFER_LEN; simpl; lia|done|set_solver|reflexivity| |].
  - repeat constructor; simpl; try lia; apply (bool_decide_unpack _); by vm_compute.
  - apply (bool_decide_unpack _). by vm_compute.
Defined.

Lemma perm_add_perm_overrun_witness : perm_add_perm (Some (str "who")) (Some (str "ann")) [] = Crash.
Proof.
  apply (perm_add_perm_overrun (str "who") (str "ann"));
    [apply (bool_decide_unpack _); by vm_compute|unfold BUFFER_LEN; simpl; lia|done|done| |set_solver].
  repeat constructor; done.
Defined.

Lemma perm2str_roundtrip_witness :
  ∃ out line, perm2str (Some demo_perm) (replicate 64 NUL) 64 = Val (0, out) ∧ buf_str out = Val line ∧
    perm_add_perm (Some (str "who")) (Some line) []
      = Val (0, [mkPerm (command_name (perm_create_empty_perm (str "who"))) (entry_list demo_perm)]).
Proof.
  apply (perm2str_roundtrip (str "who") (padded 256 (str "site_who")) (replicate 64 NUL)
    [(CPERM_USER, str "!ann"); (CPERM_FLAG, str "O"); (CPERM_USER, str "bob")] 64);
    [exact demo_targets_ok|by repeat constructor|by repeat constructor|apply (bool_decide_unpack _); by vm_compute
    |done|done|simpl; lia|unfold BUFFER_LEN; simpl; lia|].
  repeat constructor; simpl; lia.
Defined.
