(* ===== verification/Codec.v ===== *)
(** * Checksums and encodings: libwzd-core/wzd_crc32.c, libwzd-auth/wzd_base64.c,
    libwzd-auth/wzd_sha1_hash.c

    The table-driven CRC-32 of the SFV checks, over a buffer and over a file
    read in chunks, and the base64 codec of the authentication exchange. Bytes
    are integers from 0 to 255. *)

From S2P Require Import Prelude.

(** ** CRC-32 *)

Definition crcs : list Z :=
  [0x00000000; 0x77073096; 0xEE0E612C; 0x990951BA; 0x076DC419; 0x706AF48F; 0xE963A535; 0x9E6495A3;
   0x0EDB8832; 0x79DCB8A4; 0xE0D5E91E; 0x97D2D988; 0x09B64C2B; 0x7EB17CBD; 0xE7B82D07; 0x90BF1D91;
   0x1DB71064; 0x6AB020F2; 0xF3B97148; 0x84BE41DE; 0x1ADAD47D; 0x6DDDE4EB; 0xF4D4B551; 0x83D385C7;
   0x136C9856; 0x646BA8C0; 0xFD62F97A; 0x8A65C9EC; 0x14015C4F; 0x63066CD9; 0xFA0F3D63; 0x8D080DF5;
   0x3B6E20C8; 0x4C69105E; 0xD56041E4; 0xA2677172; 0x3C03E4D1; 0x4B04D447; 0xD20D85FD; 0xA50AB56B;
   0x35B5A8FA; 0x42B2986C; 0xDBBBC9D6; 0xACBCF940; 0x32D86CE3; 0x45DF5C75; 0xDCD60DCF; 0xABD13D59;
   0x26D930AC; 0x51DE003A; 0xC8D75180; 0xBFD06116; 0x21B4F4B5; 0x56B3C423; 0xCFBA9599; 0xB8BDA50F;
   0x2802B89E; 0x5F058808; 0xC60CD9B2; 0xB10BE924; 0x2F6F7C87; 0x58684C11; 0xC1611DAB; 0xB6662D3D;
   0x76DC4190; 0x01DB7106; 0x98D220BC; 0xEFD5102A; 0x71B18589; 0x06B6B51F; 0x9FBFE4A5; 0xE8B8D433;
   0x7807C9A2; 0x0F00F934; 0x9609A88E; 0xE10E9818; 0x7F6A0DBB; 0x086D3D2D; 0x91646C97; 0xE6635C01;
   0x6B6B51F4; 0x1C6C6162; 0x856530D8; 0xF262004E; 0x6C0695ED; 0x1B01A57B; 0x8208F4C1; 0xF50FC457;
   0x65B0D9C6; 0x12B7E950; 0x8BBEB8EA; 0xFCB9887C; 0x62DD1DDF; 0x15DA2D49; 0x8CD37CF3; 0xFBD44C65;
   0x4DB26158; 0x3AB551CE; 0xA3BC0074; 0xD4BB30E2; 0x4ADFA541; 0x3DD895D7; 0xA4D1C46D; 0xD3D6F4FB;
   0x4369E96A; 0x346ED9FC; 0xAD678846; 0xDA60B8D0; 0x44042D73; 0x33031DE5; 0xAA0A4C5F; 0xDD0D7CC9;
   0x5005713C; 0x270241AA; 0xBE0B1010; 0xC90C2086; 0x5768B525; 0x206F85B3; 0xB966D409; 0xCE61E49F;
   0x5EDEF90E; 0x29D9C998; 0xB0D09822; 0xC7D7A8B4; 0x59B33D17; 0x2EB40D81; 0xB7BD5C3B; 0xC0BA6CAD;
   0xEDB88320; 0x9ABFB3B6; 0x03B6E20C; 0x74B1D29A; 0xEAD54739; 0x9DD277AF; 0x04DB2615; 0x73DC1683;
   0xE3630B12; 0x94643B84; 0x0D6D6A3E; 0x7A6A5AA8; 0xE40ECF0B; 0x9309FF9D; 0x0A00AE27; 0x7D079EB1;
   0xF00F9344; 0x8708A3D2; 0x1E01F268; 0x6906C2FE; 0xF762575D; 0x806567CB; 0x196C3671; 0x6E6B06E7;
   0xFED41B76; 0x89D32BE0; 0x10DA7A5A; 0x67DD4ACC; 0xF9B9DF6F; 0x8EBEEFF9; 0x17B7BE43; 0x60B08ED5;
   0xD6D6A3E8; 0xA1D1937E; 0x38D8C2C4; 0x4FDFF252; 0xD1BB67F1; 0xA6BC5767; 0x3FB506DD; 0x48B2364B;
   0xD80D2BDA; 0xAF0A1B4C; 0x36034AF6; 0x41047A60; 0xDF60EFC3; 0xA867DF55; 0x316E8EEF; 0x4669BE79;
   0xCB61B38C; 0xBC66831A; 0x256FD2A0; 0x5268E236; 0xCC0C7795; 0xBB0B4703; 0x220216B9; 0x5505262F;
   0xC5BA3BBE; 0xB2BD0B28; 0x2BB45A92; 0x5CB36A04; 0xC2D7FFA7; 0xB5D0CF31; 0x2CD99E8B; 0x5BDEAE1D;
   0x9B64C2B0; 0xEC63F226; 0x756AA39C; 0x026D930A; 0x9C0906A9; 0xEB0E363F; 0x72076785; 0x05005713;
   0x95BF4A82; 0xE2B87A14; 0x7BB12BAE; 0x0CB61B38; 0x92D28E9B; 0xE5D5BE0D; 0x7CDCEFB7; 0x0BDBDF21;
   0x86D3D2D4; 0xF1D4E242; 0x68DDB3F8; 0x1FDA836E; 0x81BE16CD; 0xF6B9265B; 0x6FB077E1; 0x18B74777;
   0x88085AE6; 0xFF0F6A70; 0x66063BCA; 0x11010B5C; 0x8F659EFF; 0xF862AE69; 0x616BFFD3; 0x166CCF45;
   0xA00AE278; 0xD70DD2EE; 0x4E048354; 0x3903B3C2; 0xA7672661; 0xD06016F7; 0x4969474D; 0x3E6E77DB;
   0xAED16A4A; 0xD9D65ADC; 0x40DF0B66; 0x37D83BF0; 0xA9BCAE53; 0xDEBB9EC5; 0x47B2CF7F; 0x30B5FFE9;
   0xBDBDF21C; 0xCABAC28A; 0x53B39330; 0x24B4A3A6; 0xBAD03605; 0xCDD70693; 0x54DE5729; 0x23D967BF;
   0xB3667A2E; 0xC4614AB8; 0x5D681B02; 0x2A6F2B94; 0xB40BBE37; 0xC30C8EA1; 0x5A05DF1B; 0x2D02EF8D].

(** One byte: [k=(tmpcrc ^ buf[j]) & 0xFF], then the table. *)
Definition crc_step (tmpcrc b : Z) : Z :=
  let k := Z.land (Z.lxor tmpcrc b) 0xFF in
  Z.lxor (Z.land (Z.shiftr tmpcrc 8) 0x00FFFFFF) (nth (Z.to_nat k) crcs 0).

(** [(~x & 0xFFFFFFFF)] *)
Definition not32 (x : Z) : Z := Z.land (Z.lnot x) 0xFFFFFFFF.

(** [length] bytes of the buffer, which holds at least that many. *)
Definition calc_crc32_buffer (buffer : list Z) (crc : Z) (length : nat) : Z :=
  not32 (foldl crc_step (not32 crc) (take length buffer)).

Section file.
  (** The size of the I/O buffer of the C library. *)
  Context (BUFSIZ : nat).

(** [in_] is what is left to read of the file; every pass but the last reads
    some byte. *)
Fixpoint crc_loop (fuel : nat) (in_ : list Z) (len length : nat) (tmpcrc : Z) : Z :=
  match fuel with
  | O => tmpcrc
  | S fuel =>
    match take len in_ with
    | [] => tmpcrc
    | chunk =>
      let length := (length - List.length chunk)%nat in
      let tmpcrc := foldl crc_step tmpcrc chunk in
      let len := Nat.min length BUFSIZ in
      if (len =? 0)%nat then tmpcrc else crc_loop fuel (drop (List.length chunk) in_) len length tmpcrc
    end
  end.

(** The file is absent when it cannot be opened. *)
Definition calc_crc32 (file : option (list Z)) (crc : Z) (startpos length : nat) : Z * Z :=
  match file with
  | None => (-1, crc)
  | Some data =>
    let in_ := drop startpos data in
    (0, not32 (crc_loop (S (List.length in_)) in_ (Nat.min length BUFSIZ) length (not32 crc)))
  end.
End file.

(** ** Base64 *)

Definition radixN : list ascii := str "ABCDEFGHIJKLMNOPQRSTUVWXYZabcdefghijklmnopqrstuvwxyz0123456789+/".

Definition radix_char (k : Z) : ascii := nth (Z.to_nat k) radixN NUL.

(** [strchr(radixN,c) - radixN] *)
Fixpoint char_index (c : ascii) (l : list ascii) : option Z :=
  match l with
  | [] => None
  | x :: l => if bool_decide (x = c) then Some 0 else (λ k, k + 1) <$> char_index c l
  end.

(** [i] is the position modulo 3, [c] the bits carried over. *)
Fixpoint radix_encode (i : nat) (c : Z) (inbuf : list Z) : list ascii :=
  match inbuf with
  | [] =>
    match i with
    | 0%nat => []
    | 1%nat => [radix_char c; "="%char; "="%char]
    | _ => [radix_char c; "="%char]
    end
  | b :: inbuf =>
    match i with
    | 0%nat => radix_char (Z.shiftr b 2) :: radix_encode 1 (u8 (Z.shiftl (Z.land b 3) 4)) inbuf
    | 1%nat => radix_char (Z.lor c (Z.shiftr b 4)) :: radix_encode 2 (u8 (Z.shiftl (Z.land b 15) 2)) inbuf
    | _ => radix_char (Z.lor c (Z.shiftr b 6)) :: radix_char (Z.land b 63) :: radix_encode 0 0 inbuf
    end
  end.

(** [i] is the position modulo 4, [cur] the byte [outbuf[j]] being filled; the
    result is what [outbuf] holds before position [j]. *)
Fixpoint radix_decode (i : nat) (cur : Z) (inbuf : list ascii) : option (list Z) :=
  match inbuf with
  | [] => Some []
  | c :: inbuf =>
    if bool_decide (c = "="%char) then Some [] else
    match char_index c radixN with
    | None => None
    | Some D =>
      match i with
      | 0%nat => radix_decode 1 (u8 (Z.shiftl D 2)) inbuf
      | 1%nat => cons (u8 (Z.lor cur (Z.shiftr D 4))) <$> radix_decode 2 (u8 (Z.shiftl (Z.land D 15) 4)) inbuf
      | 2%nat => cons (u8 (Z.lor cur (Z.shiftr D 2))) <$> radix_decode 3 (u8 (Z.shiftl (Z.land D 3) 6)) inbuf
      | _ => cons (u8 (Z.lor cur D)) <$> radix_decode 0 cur inbuf
      end
    end
  end.

(** The loop of [sha1_hash] over the digest, three bytes at a time. *)
Fixpoint sha1_b64 (digest : list Z) : list ascii :=
  let quad a b c (f g : option ascii) :=
    [radix_char (Z.shiftr a 2);
     radix_char (Z.lor (Z.shiftl (Z.land a 3) 4) (Z.shiftr b 4));
     default (radix_char (Z.lor (Z.shiftl (Z.land b 15) 2) (Z.shiftr c 6))) f;
     default (radix_char (Z.land c 63)) g] in
  match digest with
  | [] => []
  | [a] => quad a 0 0 (Some "="%char) (Some "="%char)
  | [a; b] => quad a b 0 None (Some "="%char)
  | a :: b :: c :: digest => quad a b c None None ++ sha1_b64 digest
  end.

(** ** The table is the bitwise division *)

(** One bit of the division by the reflected polynomial. *)
Definition crc_bit (x : Z) : Z :=
  if Z.testbit x 0 then Z.lxor (Z.shiftr x 1) 0xEDB88320 else Z.shiftr x 1.
Definition crc_byte (x b : Z) : Z := Nat.iter 8 crc_bit (Z.lxor x b).

Lemma crcs_table : crcs = map (λ k, Nat.iter 8 crc_bit (Z.of_nat k)) (seq 0 256).
Proof. by vm_compute. Qed.

Lemma crcs_nth k : 0 ≤ k < 256 → nth (Z.to_nat k) crcs 0 = Nat.iter 8 crc_bit k.
Proof.
  intros Hk. rewrite crcs_table.
  rewrite (nth_indep _ 0 (Nat.iter 8 crc_bit (Z.of_nat 0))) by (rewrite length_map, length_seq; lia).
  rewrite (map_nth (λ k, Nat.iter 8 crc_bit (Z.of_nat k))). rewrite seq_nth by lia. f_equal. lia.
Qed.

Lemma crc_bit_lxor x y : crc_bit (Z.lxor x y) = Z.lxor (crc_bit x) (crc_bit y).
Proof.
  unfold crc_bit. rewrite Z.lxor_spec, Z.shiftr_lxor.
  destruct (Z.testbit x 0), (Z.testbit y 0); simpl xorb; cbv iota.
  - rewrite (Z.lxor_assoc _ _ (Z.lxor _ _)), <- (Z.lxor_assoc 0xEDB88320).
    rewrite (Z.lxor_comm 0xEDB88320), Z.lxor_assoc, Z.lxor_nilpotent, Z.lxor_0_r. done.
  - by rewrite !Z.lxor_assoc, (Z.lxor_comm (Z.shiftr y 1)).
  - by rewrite Z.lxor_assoc.
  - done.
Qed.

Lemma crc_iter_lxor n x y : Nat.iter n crc_bit (Z.lxor x y) = Z.lxor (Nat.iter n crc_bit x) (Nat.iter n crc_bit y).
Proof. induction n as [|n IH]; simpl; [done|]. by rewrite IH, crc_bit_lxor. Qed.

Lemma crc_iter_shift n x : Nat.iter n crc_bit (Z.shiftl x (Z.of_nat n)) = x.
Proof.
  induction n as [|n IH]; [apply Z.shiftl_0_r|]. rewrite Nat.iter_succ_r.
  replace (crc_bit (Z.shiftl x (Z.of_nat (S n)))) with (Z.shiftl x (Z.of_nat n)); [done|].
  unfold crc_bit. rewrite Z.shiftl_spec_low by lia. rewrite Z.shiftr_shiftl_l by lia. f_equal. lia.
Qed.

Lemma lxor_low_high t b :
  is_byte b → Z.lxor t b = Z.lxor (Z.shiftl (Z.shiftr t 8) 8) (Z.land (Z.lxor t b) 0xFF).
Proof.
  intros Hb. apply Z.bits_inj'. intros n Hn.
  rewrite !Z.lxor_spec, Z.land_spec, Z.lxor_spec, Z.shiftl_spec by done.
  change 0xFF with (Z.ones 8). destruct (Z.ltb_spec n 8) as [Hlt|Hge].
  - rewrite (Z.testbit_neg_r _ (n - 8)) by lia. rewrite Z.ones_spec_low by lia. by rewrite andb_true_r, xorb_false_l.
  - rewrite Z.ones_spec_high by lia. rewrite andb_false_r, xorb_false_r, Z.shiftr_spec by lia.
    replace (n - 8 + 8) with n by lia. assert (Hz : Z.testbit b n = false); [|by rewrite Hz, xorb_false_r].
    destruct (decide (b = 0)) as [->|]; [apply Z.testbit_0_l|]. apply Z.bits_above_log2; [unfold is_byte in Hb; lia|].
    unfold is_byte in Hb. assert (Z.log2 b < 8) by (apply Z.log2_lt_pow2; lia). lia.
Qed.

Lemma land_ones_range x k : 0 ≤ k → 0 ≤ Z.land x (Z.ones k) < 2 ^ k.
Proof. intros. rewrite Z.land_ones by lia. apply Z.mod_pos_bound. lia. Qed.

Lemma lxor_range a b k : 0 ≤ k → 0 ≤ a < 2 ^ k → 0 ≤ b < 2 ^ k → 0 ≤ Z.lxor a b < 2 ^ k.
Proof.
  intros Hk Ha Hb. rewrite <- (Z.mod_small a (2 ^ k)), <- (Z.mod_small b (2 ^ k)) by done.
  rewrite <- !Z.land_ones by lia.
  assert (Z.lxor (Z.land a (Z.ones k)) (Z.land b (Z.ones k)) = Z.land (Z.lxor a b) (Z.ones k)) as ->.
  { apply Z.bits_inj'. intros n Hn. rewrite !Z.lxor_spec, !Z.land_spec, Z.lxor_spec.
    by destruct (Z.testbit a n), (Z.testbit b n), (Z.testbit (Z.ones k) n). }
  by apply land_ones_range.
Qed.

(** The table step is the bitwise division of one byte. *)
Lemma crc_step_byte t b : 0 ≤ t < 2 ^ 32 → is_byte b → crc_step t b = crc_byte t b.
Proof.
  intros Ht Hb. unfold crc_step, crc_byte. rewrite (lxor_low_high t b) at 2 by done.
  rewrite crc_iter_lxor, (crc_iter_shift 8 : ∀ x, Nat.iter 8 crc_bit (Z.shiftl x 8) = x).
  rewrite crcs_nth by (apply (land_ones_range _ 8); lia). f_equal.
  change 0x00FFFFFF with (Z.ones 24). rewrite Z.land_ones by lia. apply Z.mod_small.
  rewrite Z.shiftr_div_pow2 by lia. split; [apply Z.div_pos; lia|]. apply Z.div_lt_upper_bound; lia.
Qed.

Lemma crc_step_range t b : 0 ≤ crc_step t b < 2 ^ 32.
Proof.
  unfold crc_step. apply lxor_range; [lia| |].
  - change 0x00FFFFFF with (Z.ones 24). pose proof (land_ones_range (Z.shiftr t 8) 24). lia.
  - assert (Hall : Forall (λ x, 0 ≤ x < 2 ^ 32) crcs) by (apply (bool_decide_unpack _); by vm_compute).
    rewrite Forall_forall in Hall. set (k := Z.to_nat _). destruct (decide (k < length crcs)%nat) as [Hk|Hk].
    + apply Hall, list_elem_of_In, nth_In. done.
    + rewrite nth_overflow by lia. lia.
Qed.

Lemma not32_range x : 0 ≤ not32 x < 2 ^ 32.
Proof. apply (land_ones_range _ 32). lia. Qed.

Lemma not32_invol x : 0 ≤ x < 2 ^ 32 → not32 (not32 x) = x.
Proof.
  intros Hx. unfold not32. change 0xFFFFFFFF with (Z.ones 32). rewrite <- (Z.mod_small x (2 ^ 32)) at 2 by done.
  rewrite <- Z.land_ones by lia. apply Z.bits_inj'. intros n Hn. rewrite !Z.land_spec, Z.lnot_spec, Z.land_spec, Z.lnot_spec by lia.
  by destruct (Z.testbit x n), (Z.testbit (Z.ones 32) n).
Qed.

Lemma foldl_crc_range bs t : 0 ≤ t < 2 ^ 32 → 0 ≤ foldl crc_step t bs < 2 ^ 32.
Proof. revert t. induction bs as [|b bs IH]; intros t Ht; simpl; [done|]. apply IH, crc_step_range. Qed.

Lemma crc_loop_spec BUFSIZ fuel in_ length t :
  (0 < BUFSIZ)%nat → (List.length in_ < fuel)%nat →
  crc_loop BUFSIZ fuel in_ (Nat.min length BUFSIZ) length t = foldl crc_step t (take length in_).
Proof.
  intros Hb. revert in_ length t. induction fuel as [|fuel IH]; intros in_ length t Hf; [lia|].
  cbn [crc_loop]. set (len := Nat.min length BUFSIZ).
  assert (Hsplit : take length in_ = take len in_ ++ take (length - List.length (take len in_)) (drop (List.length (take len in_)) in_)).
  { rewrite length_take. destruct (decide (len ≤ List.length in_)%nat) as [Hl|Hl].
    - rewrite Nat.min_l by lia. rewrite take_drop_commute, <- (take_drop len (take length in_)) at 1.
      rewrite take_take. replace (len `min` length)%nat with len by lia. do 2 f_equal.
      f_equal. lia.
    - rewrite Nat.min_r by lia. rewrite (drop_ge in_) by lia. rewrite take_nil, app_nil_r. rewrite !take_ge by lia. done. }
  destruct (take len in_) as [|b chunk] eqn:Hc.
  - rewrite Hsplit. destruct in_ as [|x in_]; [by rewrite drop_nil, take_nil|].
    destruct len eqn:El; [|done]. assert (length = 0%nat) as -> by lia. done.
  - rewrite <- Hc in *. destruct (Nat.eqb_spec (Nat.min (length - List.length (take len in_)) BUFSIZ) 0) as [Hz|Hz].
    + replace (length - List.length (take len in_))%nat with 0%nat in Hsplit by lia.
      rewrite Hsplit. simpl. by rewrite app_nil_r.
    + rewrite Hsplit, foldl_app. apply IH. rewrite length_drop.
      assert (1 ≤ List.length (take len in_))%nat by (rewrite Hc; simpl; lia). rewrite length_take in *. lia.
Qed.

(** ** Base64: correctness *)

Definition below (n : nat) : list Z := map Z.of_nat (seq 0 n).

Lemma below_all (P : Z → bool) n k : forallb P (below n) = true → 0 ≤ k < Z.of_nat n → P k = true.
Proof.
  intros H Hk. rewrite forallb_forall in H. apply H. apply in_map_iff. exists (Z.to_nat k).
  rewrite in_seq. lia.
Qed.

Lemma below_all2 (P : Z → Z → bool) n m j k :
  forallb (λ j, forallb (P j) (below m)) (below n) = true → 0 ≤ j < Z.of_nat n → 0 ≤ k < Z.of_nat m → P j k = true.
Proof. intros H Hj Hk. apply (below_all (P j) m); [|done]. by apply (below_all (λ j, forallb (P j) (below m)) n). Qed.

(** Facts on the bits of one or two bytes, by evaluation of all the cases. *)
Ltac by_cases1 P := intros; apply Z.eqb_eq; apply (below_all P 256); [by vm_compute|unfold is_byte in *; lia].
Ltac by_cases2 P := intros; apply Z.eqb_eq; apply (below_all2 P 256 256); [by vm_compute|unfold is_byte in *; lia..].

Definition mid1 (a b : Z) : Z := Z.lor (u8 (Z.shiftl (Z.land a 3) 4)) (Z.shiftr b 4).
Definition mid2 (b c : Z) : Z := Z.lor (u8 (Z.shiftl (Z.land b 15) 2)) (Z.shiftr c 6).

Lemma mid1_hi a b : is_byte a → is_byte b → Z.shiftr (mid1 a b) 4 = Z.land a 3.
Proof. by_cases2 (λ a b, Z.shiftr (mid1 a b) 4 =? Z.land a 3). Qed.
Lemma mid1_lo a b : is_byte a → is_byte b → Z.land (mid1 a b) 15 = Z.shiftr b 4.
Proof. by_cases2 (λ a b, Z.land (mid1 a b) 15 =? Z.shiftr b 4). Qed.
Lemma mid2_hi a b : is_byte a → is_byte b → Z.shiftr (mid2 a b) 2 = Z.land a 15.
Proof. by_cases2 (λ a b, Z.shiftr (mid2 a b) 2 =? Z.land a 15). Qed.
Lemma mid2_lo a b : is_byte a → is_byte b → Z.land (mid2 a b) 3 = Z.shiftr b 6.
Proof. by_cases2 (λ a b, Z.land (mid2 a b) 3 =? Z.shiftr b 6). Qed.
Lemma glue2 a : is_byte a → u8 (Z.lor (u8 (Z.shiftl (Z.shiftr a 2) 2)) (Z.land a 3)) = a.
Proof. by_cases1 (λ a, u8 (Z.lor (u8 (Z.shiftl (Z.shiftr a 2) 2)) (Z.land a 3)) =? a). Qed.
Lemma glue4 a : is_byte a → u8 (Z.lor (u8 (Z.shiftl (Z.shiftr a 4) 4)) (Z.land a 15)) = a.
Proof. by_cases1 (λ a, u8 (Z.lor (u8 (Z.shiftl (Z.shiftr a 4) 4)) (Z.land a 15)) =? a). Qed.
Lemma glue6 a : is_byte a → u8 (Z.lor (u8 (Z.shiftl (Z.shiftr a 6) 6)) (Z.land a 63)) = a.
Proof. by_cases1 (λ a, u8 (Z.lor (u8 (Z.shiftl (Z.shiftr a 6) 6)) (Z.land a 63)) =? a). Qed.

Definition six (k : Z) : bool := (0 <=? k) && (k <? 64).
Lemma six_mid1 a b : is_byte a → is_byte b → six (mid1 a b) = true.
Proof. intros. apply (below_all2 (λ a b, six (mid1 a b)) 256 256); [by vm_compute|unfold is_byte in *; lia..]. Qed.
Lemma six_mid2 a b : is_byte a → is_byte b → six (mid2 a b) = true.
Proof. intros. apply (below_all2 (λ a b, six (mid2 a b)) 256 256); [by vm_compute|unfold is_byte in *; lia..]. Qed.
Lemma six_first a : is_byte a → six (Z.shiftr a 2) = true.
Proof. intros. apply (below_all (λ a, six (Z.shiftr a 2)) 256); [by vm_compute|unfold is_byte in *; lia]. Qed.
Lemma six_last a : is_byte a → six (Z.land a 63) = true.
Proof. intros. apply (below_all (λ a, six (Z.land a 63)) 256); [by vm_compute|unfold is_byte in *; lia]. Qed.

Definition digit_ok (k : Z) : bool :=
  negb (bool_decide (radix_char k = "="%char)) && bool_decide (char_index (radix_char k) radixN = Some k).

(** A digit of the alphabet is recognised as itself. *)
Lemma radix_decode_char i cur k s :
  six k = true → radix_decode i cur (radix_char k :: s) =
    match i with
    | 0%nat => radix_decode 1 (u8 (Z.shiftl k 2)) s
    | 1%nat => cons (u8 (Z.lor cur (Z.shiftr k 4))) <$> radix_decode 2 (u8 (Z.shiftl (Z.land k 15) 4)) s
    | 2%nat => cons (u8 (Z.lor cur (Z.shiftr k 2))) <$> radix_decode 3 (u8 (Z.shiftl (Z.land k 3) 6)) s
    | _ => cons (u8 (Z.lor cur k)) <$> radix_decode 0 cur s
    end.
Proof.
  intros Hk. assert (Hdigit : digit_ok k = true) by (apply (below_all digit_ok 64); [by vm_compute|unfold six in Hk; lia]).
  apply andb_true_iff in Hdigit as [Hne%negb_true_iff Hidx%bool_decide_eq_true]. cbn [radix_decode]. by rewrite Hne, Hidx.
Qed.

Lemma mid1_0 a : mid1 a 0 = u8 (Z.shiftl (Z.land a 3) 4).
Proof. unfold mid1. by rewrite Z.shiftr_0_l, Z.lor_0_r. Qed.
Lemma mid2_0 a : mid2 a 0 = u8 (Z.shiftl (Z.land a 15) 2).
Proof. unfold mid2. by rewrite Z.shiftr_0_l, Z.lor_0_r. Qed.

Lemma radix_roundtrip_aux n bs cur :
  (length bs ≤ n)%nat → Forall is_byte bs → radix_decode 0 cur (radix_encode 0 0 bs) = Some bs.
Proof.
  assert (H0 : is_byte 0) by (unfold is_byte; lia).
  revert bs cur. induction n as [|n IH]; intros bs cur Hn Hbs; destruct bs as [|a bs]; try (simpl in Hn; lia); [done..|].
  apply Forall_cons in Hbs as [Ha Hbs]. cbn [radix_encode].
  rewrite radix_decode_char by (by apply six_first). cbv iota. destruct bs as [|b bs].
  { cbn [radix_encode]. rewrite <- mid1_0, radix_decode_char by (by apply six_mid1). cbv iota.
    rewrite mid1_hi by done. by rewrite glue2. }
  apply Forall_cons in Hbs as [Hb Hbs]. cbn [radix_encode]. fold (mid1 a b).
  rewrite radix_decode_char by (by apply six_mid1). cbv iota. rewrite mid1_hi, mid1_lo, glue2 by done.
  destruct bs as [|c bs].
  { cbn [radix_encode]. rewrite <- mid2_0, radix_decode_char by (by apply six_mid2). cbv iota.
    rewrite mid2_hi by done. by rewrite glue4. }
  apply Forall_cons in Hbs as [Hc Hbs]. cbn [radix_encode]. fold (mid2 b c).
  rewrite radix_decode_char by (by apply six_mid2). cbv iota. rewrite mid2_hi, mid2_lo, glue4 by done.
  rewrite radix_decode_char by (by apply six_last). cbv iota. rewrite glue6 by done.
  rewrite IH by (done || simpl in Hn; lia). done.
Qed.

Lemma sha1_b64_aux n bs : (length bs ≤ n)%nat → Forall is_byte bs → sha1_b64 bs = radix_encode 0 0 bs.
Proof.
  revert bs. induction n as [|n IH]; intros bs Hn Hbs; destruct bs as [|a bs]; try (simpl in Hn; lia); [done..|].
  assert (Hu2 : ∀ a, is_byte a → u8 (Z.shiftl (Z.land a 3) 4) = Z.shiftl (Z.land a 3) 4)
    by (by_cases1 (λ a, u8 (Z.shiftl (Z.land a 3) 4) =? Z.shiftl (Z.land a 3) 4)).
  assert (Hu4 : ∀ a, is_byte a → u8 (Z.shiftl (Z.land a 15) 2) = Z.shiftl (Z.land a 15) 2)
    by (by_cases1 (λ a, u8 (Z.shiftl (Z.land a 15) 2) =? Z.shiftl (Z.land a 15) 2)).
  apply Forall_cons in Hbs as [Ha Hbs]. destruct bs as [|b bs].
  { cbn [sha1_b64 radix_encode default]. by rewrite Hu2, Z.shiftr_0_l, Z.lor_0_r. }
  apply Forall_cons in Hbs as [Hb Hbs]. destruct bs as [|c bs].
  { cbn [sha1_b64 radix_encode default]. by rewrite Hu2, Hu4, Z.shiftr_0_l, Z.lor_0_r. }
  apply Forall_cons in Hbs as [Hc Hbs]. cbn [sha1_b64 radix_encode default app].
  rewrite Hu2, Hu4 by done. rewrite IH by (done || simpl in Hn; lia). done.
Qed.

(** ** Theorems *)

(** The table-driven CRC of a buffer is the bitwise division by the
    reflected polynomial 0xEDB88320, with inverted input and output. *)
Theorem crc32_is_bitwise (buffer : list Z) (crc : Z) (n : nat) :
  Forall is_byte buffer →
  calc_crc32_buffer buffer crc n = not32 (foldl crc_byte (not32 crc) (take n buffer)).
Proof.
  intros Hb. unfold calc_crc32_buffer. f_equal. apply (Forall_take _ n) in Hb.
  generalize (not32_range crc). generalize (not32 crc) as t.
  induction Hb as [|b bs Hb Hbs IH]; intros t Ht; simpl; [done|].
  rewrite <- crc_step_byte by done. apply IH, crc_step_range.
Qed.

Lemma crc32_is_bitwise_witness :
  calc_crc32_buffer [49; 50; 51] 0 3 = not32 (foldl crc_byte (not32 0) (take 3 [49; 50; 51])).
Proof. apply (crc32_is_bitwise [49; 50; 51] 0 3). repeat constructor; unfold is_byte; lia. Defined.

(** The CRC of a file part read in chunks of [BUFSIZ] bytes is the CRC of
    those bytes as one buffer, whatever the size of the chunks; and the CRC of
    two consecutive parts, the second continuing from the first, is the CRC of
    both together. *)
Theorem crc32_file_incremental (BUFSIZ : nat) (data : list Z) (crc : Z) (start n m : nat) :
  (0 < BUFSIZ)%nat → 0 ≤ crc < 2 ^ 32 → (start + n ≤ length data)%nat →
  let '(r1, crc1) := calc_crc32 BUFSIZ (Some data) crc start n in
  r1 = 0 ∧ crc1 = calc_crc32_buffer (drop start data) crc n ∧
  calc_crc32 BUFSIZ (Some data) crc1 (start + n) m = calc_crc32 BUFSIZ (Some data) crc start (n + m).
Proof.
  intros Hb Hc Hn. unfold calc_crc32. rewrite !crc_loop_spec by lia. split_and!; [done..|].
  rewrite not32_invol by apply foldl_crc_range, not32_range. do 2 f_equal.
  rewrite <- foldl_app, <- drop_drop. f_equal.
  rewrite <- (take_drop n (take (n + m) (drop start data))), take_take, Nat.min_l, take_drop_commute by lia.
  f_equal. rewrite take_drop_commute. f_equal.
Qed.

Lemma crc32_file_incremental_witness :
  let '(r1, crc1) := calc_crc32 2 (Some [1; 2; 3; 4; 5]) 0 1 2 in
  r1 = 0 ∧ crc1 = calc_crc32_buffer (drop 1 [1; 2; 3; 4; 5]) 0 2 ∧
  calc_crc32 2 (Some [1; 2; 3; 4; 5]) crc1 (1 + 2) 9 = calc_crc32 2 (Some [1; 2; 3; 4; 5]) 0 1 (2 + 9).
Proof. apply (crc32_file_incremental 2 [1; 2; 3; 4; 5] 0 1 2 9); simpl; lia. Defined.

(** Base64: decoding what [radix_encode] produced for any bytes gives the
    bytes back, padding included; and the encoder inlined in [sha1_hash]
    produces the same text. *)
Theorem radix_roundtrip (bs : list Z) :
  Forall is_byte bs →
  radix_decode 0 0 (radix_encode 0 0 bs) = Some bs ∧ sha1_b64 bs = radix_encode 0 0 bs.
Proof. intros. split; [by apply (radix_roundtrip_aux (length bs))|by apply (sha1_b64_aux (length bs))]. Qed.

Lemma radix_roundtrip_witness :
  radix_decode 0 0 (radix_encode 0 0 [77; 97; 0; 255]) = Some [77; 97; 0; 255] ∧
  sha1_b64 [77; 97; 0; 255] = radix_encode 0 0 [77; 97; 0; 255].
Proof. apply (radix_roundtrip [77; 97; 0; 255]). repeat constructor; unfold is_byte; lia. Defined.
