(* ===== verification/Crontab.v ===== *)
(** * Scheduled jobs: libwzd-core/wzd_crontab.c

    The crontab is a chain of jobs sorted by the date of their next run, kept
    here as a list in the order of the chain. Local time is a parameter:
    [localtime] and [mktime] depend on the time zone of the host; the class
    [Calendar] states what the schedule relies on, for a zone with a fixed
    offset. *)

From S2P Require Import Prelude.

(** ** Dates *)

Record tm := mkTm { tm_sec : Z; tm_min : Z; tm_hour : Z; tm_mday : Z; tm_mon : Z; tm_year : Z }.

Definition LONG_MAX : Z := 2 ^ 63 - 1.

(** [strtol(s,NULL,10)] stored in an [int]. *)
Definition strtol (s : list ascii) : Z :=
  let s := skip_spaces s in
  let '(neg, s) := match s with
                   | c :: s' => if bool_decide (c = "-"%char) then (true, s')
                                else if bool_decide (c = "+"%char) then (false, s') else (false, s)
                   | [] => (false, s)
                   end in
  let v := Z.min (digits_value 0 s).1 LONG_MAX in
  let v := if neg : bool then - v else v in
  (v + 2 ^ 31) mod 2 ^ 32 - 2 ^ 31.

(** [-1] stands for the star. *)
Definition field (s : list ascii) : Z :=
  match s with
  | c :: _ => if bool_decide (c = "*"%char) then -1 else strtol s
  | [] => strtol s
  end.

Definition month_field (s : list ascii) : Z :=
  match s with
  | c :: _ => if bool_decide (c = "*"%char) then -1 else strtol s - 1
  | [] => strtol s - 1
  end.

Definition pos_or (z : Z) (n : Z) : Z := if 0 <? n then n else z.

(** The broken-down time of the next run, from the one of [start]. *)
Definition next_tm (ltm : tm) (num_minutes num_hours num_day num_month : Z) : tm :=
  if negb (num_month =? -1) then
    mkTm 0 (pos_or 0 num_minutes) (pos_or 0 num_hours) (pos_or 0 num_day) num_month
         (if num_month <=? tm_mon ltm then tm_year ltm + 1 else tm_year ltm)
  else if negb (num_day =? -1) then
    mkTm 0 (pos_or 0 num_minutes) (pos_or 0 num_hours) num_day
         (if num_day <=? tm_mday ltm then tm_mon ltm + 1 else tm_mon ltm) (tm_year ltm)
  else if negb (num_hours =? -1) then
    mkTm 0 (pos_or 0 num_minutes) num_hours
         (if num_hours <=? tm_hour ltm then tm_mday ltm + 1 else tm_mday ltm) (tm_mon ltm) (tm_year ltm)
  else if negb (num_minutes =? -1) then
    mkTm 0 num_minutes (if num_minutes <=? tm_min ltm then tm_hour ltm + 1 else tm_hour ltm)
         (tm_mday ltm) (tm_mon ltm) (tm_year ltm)
  else
    mkTm (tm_sec ltm) (tm_min ltm + 1) (tm_hour ltm) (tm_mday ltm) (tm_mon ltm) (tm_year ltm).

(** ** Jobs *)

(** A hook is a function of the server or an external command; [job_id] names
    the job. The five fields are 32-byte arrays. *)
Record wzd_cronjob_t := mkJob {
  job_id : nat;
  hook : option nat;
  external_command : option (list ascii);
  minutes : list ascii;
  hours : list ascii;
  day_of_month : list ascii;
  month : list ascii;
  day_of_week : list ascii;
  next_run : Z }.

Abbreviation job := wzd_cronjob_t.

Definition set_next_run (j : job) (t : Z) : job :=
  mkJob (job_id j) (hook j) (external_command j) (minutes j) (hours j) (day_of_month j) (month j) (day_of_week j) t.

Definition run_before (x y : job) : bool := next_run x <? next_run y.

(** Before the head when the job runs earlier, otherwise after the last job
    that runs strictly before it (the head is not looked at again). *)
Definition _crontab_insert_sorted (j : job) (crontab : list job) : list job :=
  ins_sorted (λ y x, run_before x y) run_before j crontab.

(** The jobs released, in order, and the list left. *)
Definition cronjob_free (crontab : list job) : list job * list job := (crontab, []).

Section crontab.
  Context (localtime : Z → tm) (mktime : tm → Z).

Definition cronjob_find_next_exec_date (start : Z) (minutes hours day_of_month month day_of_week : list ascii) : Z :=
  if streq minutes (str "ONCE") then 0 else
  mktime (next_tm (localtime start) (field minutes) (field hours) (field day_of_month) (month_field month)).

Definition cronjob_add (id : nat) (now : Z) (fn : option nat) (command : option (list ascii))
    (minutes hours day_of_month month day_of_week : list ascii) (crontab : list job) : Z * list job :=
  match fn, command with
  | None, None => (1, crontab)
  | _, _ =>
    let arr s := strncpy (replicate 32 NUL) s 32 in
    let new := mkJob id fn command (arr minutes) (arr hours) (arr day_of_month) (arr month) (arr day_of_week)
      (cronjob_find_next_exec_date now minutes hours day_of_month month day_of_week) in
    (0, _crontab_insert_sorted new crontab)
  end.

Definition cronjob_add_once (id : nat) (fn : option nat) (command : option (list ascii)) (date : Z)
    (crontab : list job) : Z * list job :=
  match fn, command with
  | None, None => (1, crontab)
  | _, _ =>
    let empty := replicate 32 NUL in
    let new := mkJob id fn command (strncpy empty (str "ONCE") 32) empty empty empty empty date in
    (0, _crontab_insert_sorted new crontab)
  end.

(** The first loop of [cronjob_run]: the jobs that are run, in order, and the
    list with their date reset. *)
Fixpoint run_due (now : Z) (l : list job) : list job * list job :=
  match l with
  | [] => ([], [])
  | j :: l' =>
    if next_run j <=? now then
      let '(done, rest) := run_due now l' in (j :: done, set_next_run j 0 :: rest)
    else ([], l)
  end.

(** The date of a job that was run; its fields must be terminated. *)
Definition reschedule (now : Z) (j : job) : outcome Z :=
  m ← buf_str (minutes j);
  if streq m (str "ONCE") then Val 0 else
  h ← buf_str (hours j);
  d ← buf_str (day_of_month j);
  mo ← buf_str (month j);
  w ← buf_str (day_of_week j);
  Val (cronjob_find_next_exec_date now m h d mo w).

(** The second loop: the head is rescheduled or set aside as long as its date
    is reset. Every pass leaves one reset date less, so the length of the list
    is enough fuel. *)
Fixpoint resched_loop (fuel : nat) (now : Z) (crontab jobs_to_free : list job) : outcome (list job * list job) :=
  match fuel with
  | O => Val (crontab, jobs_to_free)
  | S fuel =>
    match crontab with
    | [] => Val (crontab, jobs_to_free)
    | j :: rest =>
      if negb (next_run j =? 0) then Val (crontab, jobs_to_free) else
      t ← reschedule now j;
      let j := set_next_run j t in
      if negb (t =? 0) then resched_loop fuel now (_crontab_insert_sorted j rest) jobs_to_free
      else resched_loop fuel now rest (j :: jobs_to_free)
    end
  end.

(** The new crontab, the jobs run and the jobs freed. *)
Definition cronjob_run (now : Z) (crontab : list job) : outcome (list job * list job * list job) :=
  match crontab with
  | [] => Val (crontab, [], [])
  | j :: _ =>
    if now <? next_run j then Val (crontab, [], []) else
    let '(done, l) := run_due now crontab in
    '(l, jobs_to_free) ← resched_loop (S (length l)) now l [];
    let '(freed, _) := cronjob_free jobs_to_free in
    Val (l, done, freed)
  end.

End crontab.

(** ** The crontab stays sorted *)

Definition runs_first (x y : job) : Prop := next_run x ≤ next_run y.
Definition sorted_jobs : list job → Prop := StronglySorted runs_first.

Lemma run_order : insertion_order (λ y x, run_before x y) run_before runs_first (λ _, True).
Proof.
  split_and!.
  - intros x y z. unfold runs_first. lia.
  - intros x y _ _. unfold run_before, runs_first. destruct (Z.ltb_spec (next_run x) (next_run y)); lia.
  - intros x y _ _. unfold run_before, runs_first. destruct (Z.ltb_spec (next_run y) (next_run x)); lia.
Qed.

Lemma insert_sorted_jobs j l : sorted_jobs l → sorted_jobs (_crontab_insert_sorted j l).
Proof. intros Hl. apply (ins_sorted_sorted _ _ _ (λ _, True)); [apply run_order|done|by apply Forall_true|done]. Qed.

Lemma insert_perm j l : _crontab_insert_sorted j l ≡ₚ j :: l.
Proof. apply ins_sorted_perm. Qed.

(** Jobs with a reset date are passed over. *)
Lemma insert_after_reset j zs l now :
  Forall (λ z, next_run z = 0) zs → 0 ≤ now → now < next_run j → sorted_jobs l → Forall (λ x, now < next_run x) l →
  ∃ l', _crontab_insert_sorted j (zs ++ l) = zs ++ l' ∧ sorted_jobs l' ∧ l' ≡ₚ j :: l.
Proof.
  intros Hz Hnow Hj Hl Hll. destruct zs as [|z zs].
  { eexists. split; [done|]. split; [by apply insert_sorted_jobs|apply insert_perm]. }
  exists (ins_after run_before j l). split_and!; [|apply (ins_after_sorted (λ y x, run_before x y) _ _ (λ _, True));
    [apply run_order|done|by apply Forall_true|done]|apply ins_after_perm].
  unfold _crontab_insert_sorted. apply Forall_cons in Hz as [Hz Hzs]. cbn [app ins_sorted].
  assert (run_before j z = false) as -> by (unfold run_before; lia). f_equal.
  induction Hzs as [|z' zs Hz' Hzs IH]; [done|]. cbn [app ins_after].
  assert (run_before z' j = true) as -> by (unfold run_before; lia). by rewrite IH.
Qed.

Lemma run_due_spec now l :
  sorted_jobs l → ∃ due rest, l = due ++ rest ∧ Forall (λ j, next_run j ≤ now) due ∧
    Forall (λ j, now < next_run j) rest ∧ run_due now l = (due, map (λ j, set_next_run j 0) due ++ rest).
Proof.
  induction 1 as [|j l Hl IH Hj]; [exists [], []; split_and!; constructor|].
  cbn [run_due]. destruct (Z.leb_spec (next_run j) now) as [Hd|Hd].
  - destruct IH as (due & rest & -> & Hdue & Hrest & ->). exists (j :: due), rest. split_and!; auto.
  - exists [], (j :: l). split_and!; [done|constructor| |done]. constructor; [done|].
    eapply Forall_impl; [exact Hj|]. unfold runs_first. intros x Hx. simpl in Hx. lia.
Qed.

(** The jobs put back, with the date [next] gives them, and the jobs dropped. *)
Definition put_back (next : job → Z) (due : list job) : list job :=
  map (λ j, set_next_run j (next j)) (filter (λ j, next j ≠ 0) due).
Definition dropped (next : job → Z) (due : list job) : list job :=
  map (λ j, set_next_run j 0) (filter (λ j, next j = 0) due).

Lemma resched_loop_spec lt mk now next due l freed fuel :
  (length due < fuel)%nat → 0 ≤ now → sorted_jobs l → Forall (λ j, now < next_run j) l →
  Forall (λ j, reschedule lt mk now j = Val (next j) ∧ (next j = 0 ∨ now < next j)) due →
  ∃ l' freed', resched_loop lt mk fuel now (map (λ j, set_next_run j 0) due ++ l) freed = Val (l', freed') ∧
    sorted_jobs l' ∧ Forall (λ j, now < next_run j) l' ∧ l' ≡ₚ put_back next due ++ l ∧
    freed' ≡ₚ dropped next due ++ freed.
Proof.
  intros Hf Hnow Hl Hll Hdue. revert l freed fuel Hf Hl Hll. induction Hdue as [|j due [Hres Hnext] Hdue IH]; intros l freed fuel Hf Hl Hll.
  { exists l, freed. split_and!; [|done..]. destruct fuel; [simpl in Hf; lia|]. simpl. destruct l as [|x l]; [done|].
    apply Forall_cons in Hll as [Hx _]. by replace (next_run x =? 0) with false by (symmetry; lia). }
  destruct fuel as [|fuel]; [simpl in Hf; lia|]. cbn [map app resched_loop].
  change (next_run (set_next_run j 0) =? 0) with true. cbn [negb].
  change (reschedule lt mk now (set_next_run j 0)) with (reschedule lt mk now j). rewrite Hres. run.
  change (set_next_run (set_next_run j 0) (next j)) with (set_next_run j (next j)).
  unfold put_back, dropped. rewrite !filter_cons.
  destruct (Z.eqb_spec (next j) 0) as [Hz|Hz]; cbn [negb].
  - rewrite decide_False by (intros Hx; by apply Hx). rewrite decide_True by done. rewrite Hz.
    destruct (IH l (set_next_run j 0 :: freed) fuel) as (l' & freed' & -> & ? & ? & Hp & Hfr); [simpl in Hf; lia|done..|].
    exists l', freed'. split_and!; [done..|]. rewrite Hfr. cbn [map app]. unfold dropped. by rewrite Permutation_middle.
  - rewrite decide_True by done. rewrite decide_False by done. assert (Hn : now < next j) by (destruct Hnext; done).
    destruct (insert_after_reset (set_next_run j (next j)) (map (λ j, set_next_run j 0) due) l now)
      as (l2 & -> & Hs2 & Hp2); [by apply Forall_map, Forall_true|done..|].
    destruct (IH l2 freed fuel) as (l' & freed' & -> & ? & ? & Hp & Hfr); [simpl in Hf; lia|done|rewrite Hp2; by constructor|].
    exists l', freed'. split_and!; [done..| |done]. rewrite Hp, Hp2. cbn [map app]. unfold put_back. by rewrite Permutation_middle.
Qed.

(** ** Dates in a zone with a fixed offset *)

Class Calendar (localtime : Z → tm) (mktime : tm → Z) (month_start : Z → Z → Z) : Prop := {
  cal_range t : let m := localtime t in 0 ≤ tm_sec m < 60 ∧ 0 ≤ tm_min m < 60 ∧ 0 ≤ tm_hour m < 24 ∧
    1 ≤ tm_mday m ∧ 0 ≤ tm_mon m < 12;
  cal_inverse t : mktime (localtime t) = t;
  cal_linear m : mktime m = month_start (tm_year m) (tm_mon m)
    + ((tm_mday m - 1) * 24 + tm_hour m) * 3600 + tm_min m * 60 + tm_sec m;
  cal_month t y k : 12 * tm_year (localtime t) + tm_mon (localtime t) < 12 * y + k → t < month_start y k }.

(** Fields with values in their range, a day being given with a month. *)
Definition schedule_ok (mi h d mo : list ascii) : Prop :=
  mi ≠ str "ONCE" ∧ -1 ≤ field mi < 60 ∧ -1 ≤ field h < 24 ∧ (field d = -1 ∨ 1 ≤ field d) ∧
  -1 ≤ month_field mo < 12 ∧ (month_field mo ≠ -1 → 1 ≤ field d).

Lemma pos_or_cases n : (pos_or 0 n = n ∧ 0 < n) ∨ (pos_or 0 n = 0 ∧ n ≤ 0).
Proof. unfold pos_or. destruct (Z.ltb_spec 0 n); lia. Qed.

(** ** Theorems *)

(** Adding a job, periodic or to be run once, keeps the crontab sorted by
    the date of the next run and adds exactly that job; without a function or
    a command it is refused and nothing changes. *)
Theorem cronjob_add_sorted lt mk id now fn cmd mi h d mo w date (l : list job) :
  sorted_jobs l →
  (let '(ret, l') := cronjob_add lt mk id now fn cmd mi h d mo w l in
   sorted_jobs l' ∧ (ret = 1 ∧ l' = l ∨ ret = 0 ∧ ∃ j, l' ≡ₚ j :: l ∧ job_id j = id ∧
     next_run j = cronjob_find_next_exec_date lt mk now mi h d mo w)) ∧
  (let '(ret, l') := cronjob_add_once id fn cmd date l in
   sorted_jobs l' ∧ (ret = 1 ∧ l' = l ∨ ret = 0 ∧ ∃ j, l' ≡ₚ j :: l ∧ job_id j = id ∧ next_run j = date)).
Proof.
  intros Hl. unfold cronjob_add, cronjob_add_once.
  destruct fn as [f|], cmd as [c|]; split; (split; [by try apply insert_sorted_jobs|]); auto;
    right; (split; [done|]); eexists; (split; [apply insert_perm|]); done.
Qed.

(** C38. One pass of the scheduler at time [now] over a sorted crontab whose
    jobs are rescheduled after [now] or were to be run once: the jobs that are
    due, and only those, are run, in order; the jobs to be run once are
    dropped, the others put back with their next date; afterwards the crontab
    is sorted and no job in it is due. *)
Theorem cronjob_run_correct lt mk now next (l : list job) :
  sorted_jobs l → 0 ≤ now →
  Forall (λ j, reschedule lt mk now j = Val (next j) ∧ (next j = 0 ∨ now < next j)) l →
  ∃ due rest l' freed, l = due ++ rest ∧
    Forall (λ j, next_run j ≤ now) due ∧ Forall (λ j, now < next_run j) rest ∧
    cronjob_run lt mk now l = Val (l', due, freed) ∧
    sorted_jobs l' ∧ Forall (λ j, now < next_run j) l' ∧
    l' ≡ₚ put_back next due ++ rest ∧ freed ≡ₚ dropped next due.
Proof.
  intros Hl Hnow Hnext. destruct (run_due_spec now l Hl) as (due & rest & -> & Hdue & Hrest & Hrun).
  assert (Hsr : sorted_jobs rest).
  { clear Hrun Hdue Hnext. induction due as [|x due IH]; [done|]. apply IH. by inversion Hl. }
  assert (Hnd : Forall (λ j, reschedule lt mk now j = Val (next j) ∧ (next j = 0 ∨ now < next j)) due)
    by (by apply Forall_app in Hnext as [? _]).
  exists due, rest. unfold cronjob_run. destruct due as [|j0 due].
  - exists rest, []. cbn [app] in *. split_and!; try done. destruct rest as [|x rest]; [done|].
    apply Forall_cons in Hrest as [Hx _]. by replace (now <? next_run x) with true by (symmetry; lia).
  - destruct (resched_loop_spec lt mk now next (j0 :: due) rest [] (S (length (map (λ j, set_next_run j 0) (j0 :: due) ++ rest))))
      as (l' & freed & Hloop & Hs & Hd & Hp & Hfr); [rewrite length_app, length_map; lia|done..|].
    exists l', freed. split_and!; [done..| |done|done|done|by rewrite app_nil_r in Hfr].
    cbn [app] in Hrun |- *. apply Forall_cons in Hdue as [Hd0 _].
    replace (now <? next_run j0) with false by (symmetry; lia). rewrite Hrun. cbv iota beta. by rewrite Hloop.
Qed.

(** In a zone with a fixed offset, a schedule whose fields are in range and
    that gives a day whenever it gives a month is next due strictly after the
    date it is computed from. *)
Theorem next_exec_in_future lt mk ms `{!Calendar lt mk ms} (now : Z) (mi h d mo w : list ascii) :
  schedule_ok mi h d mo → now < cronjob_find_next_exec_date lt mk now mi h d mo w.
Proof.
  intros (Honce & Hmi & Hh & Hd & Hmo & Hday). unfold cronjob_find_next_exec_date.
  rewrite (proj2 (streq_false _ _) Honce). rewrite (cal_linear (Calendar := Calendar0)).
  pose proof (cal_range now) as (Hs & Hm & Hhr & Hmd & Hmn). pose proof (cal_inverse now) as Hinv.
  rewrite cal_linear in Hinv. pose proof (cal_month now) as Hnext. set (m := lt now) in *. clearbody m.
  set (fm := field mi) in *. set (fh := field h) in *. set (fd := field d) in *. set (fo := month_field mo) in *.
  clearbody fm fh fd fo. pose proof (pos_or_cases fm) as Pm. pose proof (pos_or_cases fh) as Ph.
  pose proof (pos_or_cases fd) as Pd. unfold next_tm.
  destruct (Z.eqb_spec fo (-1)) as [Ho|Ho]; cbn [negb].
  - destruct (Z.eqb_spec fd (-1)) as [Hfd|Hfd]; cbn [negb].
    + destruct (Z.eqb_spec fh (-1)) as [Hfh|Hfh]; cbn [negb].
      * destruct (Z.eqb_spec fm (-1)) as [Hfm|Hfm]; cbn [negb tm_sec tm_min tm_hour tm_mday tm_mon tm_year]; [lia|].
        destruct (Z.leb_spec fm (tm_min m)); lia.
      * cbn [tm_sec tm_min tm_hour tm_mday tm_mon tm_year]. destruct (Z.leb_spec fh (tm_hour m)); lia.
    + cbn [tm_sec tm_min tm_hour tm_mday tm_mon tm_year]. destruct (Z.leb_spec fd (tm_mday m)); [|lia].
      assert (now < ms (tm_year m) (tm_mon m + 1)) by (apply Hnext; lia). lia.
  - cbn [tm_sec tm_min tm_hour tm_mday tm_mon tm_year].
    set (y := if fo <=? tm_mon m then tm_year m + 1 else tm_year m).
    assert (now < ms y fo) by (apply Hnext; subst y; destruct (Z.leb_spec fo (tm_mon m)); lia). lia.
Qed.

(** A schedule that gives a month but leaves the day open does not run in
    that month: the day of the month is set to 0, so the date is the day before
    the month starts. *)
Theorem month_without_day_runs_early lt mk ms `{!Calendar lt mk ms} (now : Z) (mi h d mo w : list ascii) :
  mi ≠ str "ONCE" → field mi < 60 → field h < 24 → field d = -1 → month_field mo ≠ -1 →
  cronjob_find_next_exec_date lt mk now mi h d mo w
    < ms (if month_field mo <=? tm_mon (lt now) then tm_year (lt now) + 1 else tm_year (lt now)) (month_field mo).
Proof.
  intros Honce Hmi Hh Hd Hmo. unfold cronjob_find_next_exec_date. rewrite (proj2 (streq_false _ _) Honce), cal_linear.
  unfold next_tm. rewrite (proj2 (Z.eqb_neq _ _) Hmo). cbn [negb tm_sec tm_min tm_hour tm_mday tm_mon tm_year].
  pose proof (pos_or_cases (field mi)). pose proof (pos_or_cases (field h)). pose proof (pos_or_cases (field d)). lia.
Qed.

(** ** Concrete crontabs *)

(** A calendar with months of thirty days. *)
Definition month30 (y k : Z) : Z := (12 * y + k) * 2592000.
Definition localtime30 (t : Z) : tm :=
  mkTm (t mod 60) (t / 60 mod 60) (t / 3600 mod 24) (t / 86400 mod 30 + 1) (t / 2592000 mod 12) (t / 2592000 / 12).
Definition mktime30 (m : tm) : Z :=
  month30 (tm_year m) (tm_mon m) + ((tm_mday m - 1) * 24 + tm_hour m) * 3600 + tm_min m * 60 + tm_sec m.

Lemma calendar30 : Calendar localtime30 mktime30 month30.
Proof.
  split.
  - intros t. simpl. Z.to_euclidean_division_equations. lia.
  - intros t. unfold mktime30, localtime30, month30. cbn [tm_sec tm_min tm_hour tm_mday tm_mon tm_year].
    Z.to_euclidean_division_equations. lia.
  - done.
  - intros t y k. unfold localtime30, month30. cbn [tm_mon tm_year]. Z.to_euclidean_division_equations. lia.
Qed.

Definition arr32 (s : string) : list ascii := strncpy (replicate 32 NUL) (str s) 32.
Definition demo_job (id : nat) (mi : string) (t : Z) : job :=
  mkJob id (Some id) None (arr32 mi) (arr32 "*") (arr32 "*") (arr32 "*") (arr32 "*") t.
Definition demo_tab : list job := [demo_job 1 "*" 50; demo_job 2 "ONCE" 90; demo_job 3 "30" 5000].
Definition demo_next (j : job) : Z :=
  match reschedule localtime30 mktime30 100 j with Val t => t | Crash => 0 end.

Lemma demo_tab_sorted : sorted_jobs demo_tab.
Proof. repeat constructor; unfold runs_first; simpl; lia. Qed.

Lemma cronjob_add_sorted_witness :
  (let '(ret, l') := cronjob_add localtime30 mktime30 4 100 (Some 1%nat) None (str "*") (str "*") (str "*") (str "*") (str "*") demo_tab in
   sorted_jobs l' ∧ (ret = 1 ∧ l' = demo_tab ∨ ret = 0 ∧ ∃ j, l' ≡ₚ j :: demo_tab ∧ job_id j = 4%nat ∧
     next_run j = cronjob_find_next_exec_date localtime30 mktime30 100 (str "*") (str "*") (str "*") (str "*") (str "*"))) ∧
  (let '(ret, l') := cronjob_add_once 4 (Some 1%nat) None 77 demo_tab in
   sorted_jobs l' ∧ (ret = 1 ∧ l' = demo_tab ∨ ret = 0 ∧ ∃ j, l' ≡ₚ j :: demo_tab ∧ job_id j = 4%nat ∧ next_run j = 77)).
Proof.
  apply (cronjob_add_sorted localtime30 mktime30 4 100 (Some 1%nat) None (str "*") (str "*") (str "*") (str "*") (str "*") 77).
  exact demo_tab_sorted.
Defined.

Lemma cronjob_run_correct_witness :
  ∃ due rest l' freed, demo_tab = due ++ rest ∧
    Forall (λ j, next_run j ≤ 100) due ∧ Forall (λ j, 100 < next_run j) rest ∧
    cronjob_run localtime30 mktime30 100 demo_tab = Val (l', due, freed) ∧
    sorted_jobs l' ∧ Forall (λ j, 100 < next_run j) l' ∧
    l' ≡ₚ put_back demo_next due ++ rest ∧ freed ≡ₚ dropped demo_next due.
Proof.
  apply (cronjob_run_correct localtime30 mktime30 100 demo_next); [exact demo_tab_sorted|lia|].
  repeat constructor; try (by vm_compute); first [by left; vm_compute|by right; vm_compute].
Defined.

Lemma next_exec_in_future_witness :
  1000 < cronjob_find_next_exec_date localtime30 mktime30 1000 (str "30") (str "4") (str "1") (str "12") (str "*").
Proof.
  apply (next_exec_in_future localtime30 mktime30 month30 (Calendar0 := calendar30)).
  split_and!; try (by vm_compute). by right; vm_compute.
Defined.

Lemma month_without_day_runs_early_witness :
  cronjob_find_next_exec_date localtime30 mktime30 1000 (str "30") (str "4") (str "*") (str "12") (str "*")
    < month30 (if month_field (str "12") <=? tm_mon (localtime30 1000) then tm_year (localtime30 1000) + 1
               else tm_year (localtime30 1000)) (month_field (str "12")).
Proof.
  apply (month_without_day_runs_early localtime30 mktime30 month30 (Calendar0 := calendar30)); by vm_compute.
Defined.
