(* ===== verification/Str.v ===== *)
(** * Str: growing strings (libwzd-core/wzd_string.c) and [strlcat]
    (libwzd-base/wzd_strlcat.c)

    A [wzd_string_t] is a block of memory with the number of its bytes the
    string was told of ([allocated]) and the length of the C string it holds.
    The block is a list of bytes whose length is its real size, so that every
    access of the code is checked against it; the bytes of fresh memory are
    arbitrary ([malloc]), and [realloc] may fail. A null string pointer is
    [None].

    The operations are shown to implement operations on lists of characters
    (the relation [denotes]): appending, prepending, trimming, erasing, lower
    case, cutting at delimiters, splitting at a separator, formatted output. *)

From S2P Require Import Prelude.

(** ** Blocks of memory *)

Definition mem_read (buf : list ascii) (off n : Z) : outcome (list ascii) :=
  if (0 <=? off) && (0 <=? n) && (off + n <=? Z.of_nat (length buf))
  then Val (take (Z.to_nat n) (drop (Z.to_nat off) buf)) else Crash.

Definition mem_write (buf : list ascii) (off : Z) (bs : list ascii) : outcome (list ascii) :=
  if (0 <=? off) && (off + Z.of_nat (length bs) <=? Z.of_nat (length buf))
  then Val (take (Z.to_nat off) buf ++ bs ++ drop (Z.to_nat off + length bs) buf) else Crash.

Definition mem_get (buf : list ascii) (i : Z) : outcome ascii :=
  if 0 <=? i then deref (buf !! Z.to_nat i) else Crash.

(** [wzd_strncpy(buf,src,n)]: at most [n] bytes, the NUL included. *)
Definition mem_strncpy (buf src : list ascii) (n : Z) : outcome (list ascii) :=
  mem_write buf 0 (take (Z.to_nat n) (src ++ [NUL])).

(** ** [strlcat] *)

(** The first loop: the position of the NUL among the first [size] bytes. *)
Fixpoint find_end (size : nat) (buf : list ascii) : outcome (option nat) :=
  match size with
  | O => Val None
  | S size =>
    match buf with
    | [] => Crash
    | c :: buf => if bool_decide (c = NUL) then Val (Some O)
                  else fmap (M:=outcome) (fmap S) (find_end size buf)
    end
  end.

(** The bytes of the destination afterwards, and the result. *)
Definition strlcat (dst src : list ascii) (size : Z) : outcome (list ascii * Z) :=
  e ← find_end (Z.to_nat size) dst;
  match e with
  | None => Val (dst, size + Z.of_nat (length src))
  | Some n =>
    let room := (Z.to_nat size - n)%nat in
    buf ← mem_write dst (Z.of_nat n) (take room (src ++ [NUL]));
    if (length src <? room)%nat then Val (buf, Z.of_nat (n + length src))
    else
      buf ← buf_set buf (size - 1) NUL;
      s ← buf_str (drop (Z.to_nat size) buf);
      Val (buf, size + Z.of_nat (length s))
  end.

(** ** The string type *)

Record wzd_string := WString {
  st_buffer : option (list ascii);
  st_length : Z;
  st_allocated : Z;
}.

Definition str_allocate : wzd_string := WString None 0 0.

(** Products of [double]s truncated to an integer: [1.3] is
    5854679515581645 / 2^52, a result is rounded to 53 significant bits, to
    nearest, ties to even. *)
Definition round53 (p : Z) : Z :=
  let k := Z.max 0 (Z.log2 p - 52) in
  let q := p / 2 ^ k in
  let r := p mod 2 ^ k in
  let up := (2 ^ k <? 2 * r) || ((2 ^ k =? 2 * r) && Z.odd q) in
  (if up then q + 1 else q) * 2 ^ k.

Definition times_1_3 (n : Z) : Z := round53 (round53 n * 5854679515581645) / 2 ^ 52.

(** The size asked of the allocator: a bit more than requested. *)
Definition grow (len : Z) : Z := if len <? 200 then len + 20 else times_1_3 len.

Section memory.
  (** The allocator (the C library): the contents of a fresh block of [n]
      bytes, and whether [realloc] to a given size succeeds. *)
  Context (malloc : nat → list ascii) (realloc_ok : Z → bool).

Definition realloc (buf : list ascii) (n : Z) : list ascii :=
  take (Z.to_nat n) buf ++ malloc (Z.to_nat n - length buf).

Definition str_set_min_size (st : wzd_string) (len : Z) : outcome wzd_string :=
  if st_allocated st <? len then
    let len := grow len in
    match st_buffer st with
    | None =>
      buf ← buf_set (malloc (Z.to_nat len)) 0 NUL;
      Val (WString (Some buf) (st_length st) len)
    | Some buf =>
      if realloc_ok len then
        buf ← buf_set (realloc buf len) (st_length st) NUL;
        Val (WString (Some buf) (st_length st) len)
      else
        old ← mem_read buf 0 (st_length st);
        buf ← mem_write (malloc (Z.to_nat len)) 0 old;
        Val (WString (Some buf) (st_length st) len)
    end
  else Val st.

(** Copying [len] bytes into a string that has room for them, and the
    terminator: the common end of [str_fromchar], [str_dup] and [str_copy]. *)
Definition str_put (st : wzd_string) (bs : list ascii) : outcome wzd_string :=
  buf ← deref (st_buffer st);
  buf ← mem_write buf 0 bs;
  buf ← buf_set buf (Z.of_nat (length bs)) NUL;
  Val (WString (Some buf) (Z.of_nat (length bs)) (st_allocated st)).

Definition str_fromchar (s : option (list ascii)) : outcome wzd_string :=
  match s with
  | None => Val str_allocate
  | Some s =>
    st ← str_set_min_size str_allocate (Z.of_nat (length s) + 1);
    str_put st s
  end.

(** The string takes the caller's block, of any size. *)
Definition str_fromchar_raw (block : option (list ascii)) : outcome wzd_string :=
  match block with
  | None => Val str_allocate
  | Some block =>
    s ← buf_str block;
    Val (WString (Some block) (Z.of_nat (length s)) (Z.of_nat (length s)))
  end.

Definition str_tochar (st : option wzd_string) : option (list ascii) :=
  st ← st; st_buffer st.

Definition str_checklength (st : option wzd_string) (lo hi : Z) : outcome bool :=
  match st ≫= st_buffer with
  | None => Val false
  | Some buf =>
    s ← buf_str buf;
    Val (negb ((Z.of_nat (length s) <? lo) || (hi <? Z.of_nat (length s))))
  end.

Definition str_length (st : option wzd_string) : Z :=
  match st with
  | Some st => match st_buffer st with Some _ => st_length st | None => u64 (-1) end
  | None => u64 (-1)
  end.

Definition str_store (st : option wzd_string) (s : list ascii) : outcome (option wzd_string) :=
  match st with
  | None => Val None
  | Some st =>
    let len := Z.of_nat (length s) in
    st ← str_set_min_size st (len + 1);
    buf ← deref (st_buffer st);
    buf ← mem_strncpy buf s (len + 1);
    Val (Some (WString (Some buf) len (st_allocated st)))
  end.

(** The common end of [str_dup] and [str_copy] (the checks of the debug build
    are left out). *)
Definition str_copy_into (dst src : wzd_string) : outcome wzd_string :=
  dst ← str_set_min_size dst (st_allocated src);
  match st_buffer src with
  | None => Val dst
  | Some sbuf =>
    bs ← mem_read sbuf 0 (st_length src);
    str_put dst bs
  end.

Definition str_dup (src : option wzd_string) : outcome (option wzd_string) :=
  match src with
  | None => Val None
  | Some src => st ← str_copy_into str_allocate src; Val (Some st)
  end.

Definition str_copy (dst src : option wzd_string) : outcome (option wzd_string) :=
  match src, dst with
  | Some src, Some dst => st ← str_copy_into dst src; Val (Some st)
  | _, _ => Val None
  end.

Definition str_append (st : option wzd_string) (tail : option (list ascii)) : outcome (option wzd_string) :=
  match st, tail with
  | None, _ => Val None
  | Some st, None => Val (Some st)
  | Some st, Some tail =>
    let len := Z.of_nat (length tail) in
    st ← str_set_min_size st (st_length st + len + 1);
    match st_buffer st with
    | None => Val (Some st)
    | Some buf =>
      r ← strlcat buf tail (st_length st + len + 1);
      Val (Some (WString (Some r.1) (st_length st + len) (st_allocated st)))
    end
  end.

Definition str_append_c (st : option wzd_string) (c : ascii) : outcome (option wzd_string) :=
  match st with
  | None => Val None
  | Some st =>
    st ← str_set_min_size st (st_length st + 2);
    match st_buffer st with
    | None => Val (Some st)
    | Some buf =>
      buf ← buf_set buf (st_length st) c;
      buf ← buf_set buf (st_length st + 1) NUL;
      Val (Some (WString (Some buf) (st_length st + 1) (st_allocated st)))
    end
  end.

Definition str_prepend (st : option wzd_string) (head : option (list ascii)) : outcome (option wzd_string) :=
  match st, head with
  | None, _ => Val None
  | Some st, None => Val (Some st)
  | Some st, Some head =>
    let len := Z.of_nat (length head) in
    let alloc := if st_allocated st <=? len + st_length st then len + st_length st + 1
                 else st_allocated st in
    buf ← mem_strncpy (malloc (Z.to_nat alloc)) head len;
    '(buf, len) ← match st_buffer st with
                  | None => Val (buf, len)
                  | Some old =>
                    bs ← mem_read old 0 (st_length st);
                    buf ← mem_write buf len bs;
                    Val (buf, len + st_length st)
                  end;
    buf ← buf_set buf len NUL;
    Val (Some (WString (Some buf) len alloc))
  end.

(** *** Trimming and erasing *)

(** [while (isspace(buffer[i])) ++i]. *)
Fixpoint count_spaces (buf : list ascii) : outcome nat :=
  match buf with
  | [] => Crash
  | c :: buf => if isspace c then fmap (M:=outcome) S (count_spaces buf) else Val O
  end.

(** [for (;i!=length;i++) buffer[j++] = buffer[i]]. *)
Fixpoint shift_down (n : nat) (buf : list ascii) (i j : Z) : outcome (list ascii) :=
  match n with
  | O => Val buf
  | S n =>
    c ← mem_get buf i;
    buf ← buf_set buf j c;
    shift_down n buf (i + 1) (j + 1)
  end.

(** [i] and [j] are [unsigned int]s, [length] a [size_t]: past [UINT_MAX] the
    first loop comes back to 0 and goes on for ever on white space, and the
    second never meets [length]. Neither has a result. *)
Definition str_trim_left (st : option wzd_string) : outcome (option wzd_string) :=
  match st with
  | Some (WString (Some buf) len alloc) =>
    i ← count_spaces buf;
    if UINT_MAX <? Z.of_nat i then Crash
    else if (0 <? i)%nat then
      if UINT_MAX <? len then Crash else
      let j := len - Z.of_nat i in
      buf ← shift_down (Z.to_nat j) buf (Z.of_nat i) 0;
      buf ← buf_set buf j NUL;
      Val (Some (WString (Some buf) j alloc))
    else Val st
  | _ => Val None
  end.

(** The loop of [str_trim_right], entered with [len] and [str->length] equal. *)
Fixpoint trim_right_loop (len : nat) (buf : list ascii) : outcome (list ascii * nat) :=
  match len with
  | O => Val (buf, O)
  | S O => Val (buf, 1%nat)
  | S len' =>
    c ← mem_get buf (Z.of_nat len');
    if isspace c || bool_decide (c = LF) then
      buf ← buf_set buf (Z.of_nat len') NUL;
      trim_right_loop len' buf
    else Val (buf, len)
  end.

Definition str_trim_right (st : option wzd_string) : outcome (option wzd_string) :=
  match st with
  | Some (WString (Some buf) len alloc) =>
    if len =? 0 then Val st
    else
      r ← trim_right_loop (Z.to_nat len) buf;
      Val (Some (WString (Some r.1) (Z.of_nat r.2) alloc))
  | _ => Val None
  end.

Definition str_trim (st : option wzd_string) : outcome (option wzd_string) :=
  st ← str_trim_right st; str_trim_left st.

(** [pos] and [len] are [size_t]: their sum wraps. *)
Definition str_erase (st : option wzd_string) (pos len : Z) : outcome (option wzd_string) :=
  match st with
  | Some (WString (Some buf) n alloc) =>
    if n <? u64 (pos + len) then Val None
    else
      bs ← mem_read buf (pos + len) (n - u64 (pos + len));
      buf ← mem_write buf pos bs;
      buf ← buf_set buf (u64 (n - len)) NUL;
      Val (Some (WString (Some buf) (u64 (n - len)) alloc))
  | _ => Val None
  end.

(** [ascii_lower] (libwzd-core/wzd_misc.c). *)
Definition ascii_lower_char (c : ascii) : ascii :=
  if isupper c then chr (Z.lor (code c) 32) else c.

Definition ascii_lower (buf : list ascii) (len : Z) : outcome (list ascii) :=
  bs ← mem_read buf 0 len; mem_write buf 0 (map ascii_lower_char bs).

Definition str_tolower (st : option wzd_string) : outcome (option wzd_string) :=
  match st with
  | Some (WString (Some buf) len alloc) =>
    buf ← ascii_lower buf len; Val (Some (WString (Some buf) len alloc))
  | _ => Val st
  end.

(** *** Tokens *)

(** The token, and the string afterwards. When there is only delimiters the
    token is a string without a buffer, not a null pointer. *)
Definition str_tok (st : option wzd_string) (delim : option (list ascii))
    : outcome (option wzd_string * option wzd_string) :=
  match st, delim with
  | Some (WString (Some buf) len alloc), Some delim =>
    if len =? 0 then Val (None, st)
    else
      buffer ← buf_str buf;
      let '(t, ptr) := strtok (λ c, bool_decide (c ∈ delim)) buffer in
      token ← str_fromchar t;
      match t with
      | None => Val (Some token, st)
      | Some _ =>
        let len := Z.of_nat (length ptr) in
        buf ← mem_strncpy buf ptr (len + 1);
        Val (Some token, Some (WString (Some buf) len alloc))
      end
  | _, _ => Val (None, st)
  end.

(** In the quoted case [strtok_r] writes its NUL into the string itself. *)
Definition str_read_token (st : option wzd_string) : outcome (option wzd_string * option wzd_string) :=
  match st with
  | Some (WString (Some buf) len alloc) =>
    if len =? 0 then Val (None, st)
    else
      whole ← buf_str buf;
      let s := skip_spaces whole in
      if bool_decide (s = []) then Val (None, st) else
      match strpbrk (λ c, is_delim c || is_quote c) s with
      | None =>
        token ← str_fromchar (Some whole);
        buf ← buf_set buf 0 NUL;
        Val (Some token, Some (WString (Some buf) 0 alloc))
      | Some [] => Crash
      | Some (q :: after) =>
        if is_quote q then
          if bool_decide (q ∈ after) then
            let '(t, r) := strtok (λ c, bool_decide (c = q)) (q :: after) in
            token ← str_fromchar t;
            match t with
            | None => Val (Some token, st)
            | Some t =>
              (* the end of the token in the buffer *)
              let fin := Z.of_nat (length whole - length (q :: after)
                                   + (length (q :: after) - length (skip_while (λ c, bool_decide (c = q)) (q :: after)))
                                   + length t) in
              buf ← buf_set buf fin NUL;
              s ← buf_str buf;
              Val (Some token, Some (WString (Some buf) (Z.of_nat (length s)) alloc))
            end
          else Val (None, st)
        else str_tok st (Some (str " " ++ [TAB; CR; LF]))
      end
  | _ => Val (None, st)
  end.

(** [strstr]: the position of the first occurrence. *)
Fixpoint strstr (s sep : list ascii) : option nat :=
  if bool_decide (sep `prefix_of` s) then Some O
  else match s with [] => None | _ :: s => S <$> strstr s sep end.

(** The loop of [str_split]: the tokens cut off and the remainder. A turn cuts
    off the separator, so the length of the string bounds the turns. *)
Fixpoint split_loop (fuel : nat) (sep : list ascii) (max_tokens : Z) (remainder : list ascii)
    : outcome (list wzd_string * list ascii) :=
  match fuel with
  | O => Crash
  | S fuel =>
    let max_tokens := max_tokens - 1 in
    match strstr remainder sep with
    | None => Val ([], remainder)
    | Some len =>
      if max_tokens =? 0 then Val ([], remainder)
      else
        token ← str_fromchar (Some (take len remainder));
        '(l, r) ← split_loop fuel sep max_tokens (drop (len + length sep) remainder);
        Val (token :: l, r)
    end
  end.

(** The array, without its NULL terminator. *)
Definition str_split (st : option wzd_string) (sep : option (list ascii)) (max_tokens : Z)
    : outcome (option (list wzd_string)) :=
  match st, sep with
  | Some st, Some (c :: sep) =>
    let max_tokens := if max_tokens <? 1 then -1 else max_tokens in
    buf ← deref (st_buffer st);
    s ← buf_str buf;
    '(l, remainder) ← split_loop (S (length s)) (c :: sep) max_tokens s;
    match remainder with
    | [] => Val (Some l)
    | _ => last ← str_fromchar (Some remainder); Val (Some (l ++ [last]))
    end
  | _, _ => Val None
  end.

(** *** Formatted output *)

(** [vsnprintf(buf,size,...)] where the format and its arguments stand for
    [text]; the result is the length of [text]. *)
Definition vsnprintf (buf : list ascii) (size : Z) (text : list ascii) : outcome (list ascii) :=
  if size <=? 0 then Val buf else mem_write buf 0 (take (Z.to_nat size - 1) text ++ [NUL]).

(** Its result, an [int]: what does not fit is an error (EOVERFLOW). *)
Definition vsnprintf_result (text : list ascii) : Z :=
  let n := Z.of_nat (length text) in if n <=? INT_MAX then n else -1.

(** [n + 1] of an [int]: past [INT_MAX] it is undefined. *)
Definition int_incr (n : Z) : outcome Z := if n <? INT_MAX then Val (n + 1) else Crash.

Definition str_vsprintf (st : option wzd_string) (format text : list ascii)
    : outcome (option wzd_string * Z) :=
  match st with
  | None => Val (None, -1)
  | Some st =>
    st ← match st_buffer st with
         | None => str_set_min_size st (Z.of_nat (length format) + 1)
         | Some _ => Val st
         end;
    let result := vsnprintf_result text in
    buf ← deref (st_buffer st);
    buf ← vsnprintf buf (st_allocated st) text;
    let st := WString (Some buf) (st_length st) (st_allocated st) in
    if result <? 0 then Val (Some st, result) else
    st ← (if st_allocated st <=? result then
            n ← int_incr result;
            st ← str_set_min_size st n;
            buf ← deref (st_buffer st);
            buf ← vsnprintf buf (st_allocated st) text;
            Val (WString (Some buf) (st_length st) (st_allocated st))
          else Val st);
    Val (Some (WString (st_buffer st) result (st_allocated st)), result)
  end.

Definition str_sprintf := str_vsprintf.

(** The text printed into a buffer of its own, [result] being the [int] that
    measured it: the bytes of that buffer up to its NUL, which is what
    [str_append] and [str_prepend] read. *)
Definition printed (result : Z) (text : list ascii) : outcome (list ascii) :=
  result ← int_incr result;
  size ← int_incr result;
  buffer ← vsnprintf (malloc (Z.to_nat size)) result text;
  buf_str buffer.

Definition str_add_printf (add : option wzd_string → option (list ascii) → outcome (option wzd_string))
    (st : option wzd_string) (format text : list ascii) : outcome (option wzd_string * Z) :=
  match st with
  | None => Val (None, u64 (-1))
  | Some st =>
    st ← match st_buffer st with
         | None => str_set_min_size st (st_length st + Z.of_nat (length format) + 1)
         | Some _ => Val st
         end;
    let result := vsnprintf_result text in
    if result <? 0 then Val (Some st, u64 result) else
    s ← printed result text;
    st ← add (Some st) (Some s);
    st ← deref st;
    Val (Some st, st_length st)
  end.

Definition str_prepend_printf := str_add_printf str_prepend.
Definition str_append_printf := str_add_printf str_append.

(** ** What a string denotes *)

(** The string holds [s]: its block holds [s] and a NUL, and [allocated] is room
    enough for them and within the block. *)
Definition holds_str (st : wzd_string) (s : list ascii) : Prop :=
  ∃ rest, st_buffer st = Some (s ++ NUL :: rest) ∧ st_length st = Z.of_nat (length s) ∧
    st_length st < st_allocated st ≤ Z.of_nat (length s + 1 + length rest) ∧ nul_free s.

(** A string without a buffer stands for the empty string. *)
Definition denotes (st : wzd_string) (s : list ascii) : Prop :=
  holds_str st s ∨ (st = str_allocate ∧ s = []).

End memory.

(** ** The allocation policy *)

Lemma round53_small n : 0 ≤ n < 2 ^ 53 → round53 n = n.
Proof.
  intros Hn. unfold round53. assert (Z.log2 n ≤ 52) by (destruct (decide (n = 0)) as [->|]; [done|]; pose proof (Z.log2_lt_pow2 n 53); lia).
  replace (Z.max 0 (Z.log2 n - 52)) with 0 by lia. rewrite Z.pow_0_r, Z.mod_1_r, Z.div_1_r. simpl. lia.
Qed.

(** The rounding error is at most half of the last place kept. *)
Lemma round53_error p : 0 < p → 2 ^ 53 * (p - round53 p) ≤ p.
Proof.
  intros Hp. unfold round53. set (k := Z.max 0 (Z.log2 p - 52)). assert (Hk : 0 ≤ k) by lia.
  pose proof (Z.pow_pos_nonneg 2 k ltac:(lia) Hk). pose proof (Z.div_mod p (2 ^ k) ltac:(lia)) as Hd.
  pose proof (Z.mod_pos_bound p (2 ^ k) ltac:(lia)) as Hm.
  assert (k = 0 ∨ 2 ^ 52 * 2 ^ k ≤ p) as Hp2.
  { destruct (decide (k = 0)); [by left|right]. pose proof (Z.log2_spec p Hp) as [Hl _].
    rewrite <- Z.pow_add_r by lia. by replace (52 + k) with (Z.log2 p) by lia. }
  destruct (_ || _) eqn:Hup; [nia|]. apply orb_false_iff in Hup as [Hup _]. apply Z.ltb_ge in Hup.
  destruct Hp2 as [E|]; [|nia]. rewrite E in *. rewrite Z.pow_0_r, Z.mod_1_r, Z.div_1_r in *. nia.
Qed.

Lemma grow_ge n : 0 ≤ n < 2 ^ 53 → n ≤ grow n.
Proof.
  intros Hn. unfold grow. destruct (Z.ltb_spec n 200); [lia|]. unfold times_1_3. rewrite (round53_small n) by lia.
  pose proof (round53_error (n * 5854679515581645) ltac:(lia)). apply Z.div_le_lower_bound; nia.
Qed.

(** ** Reads and writes inside a block *)

Lemma mem_write_app a old tl bs :
  length old = length bs → mem_write (a ++ old ++ tl) (Z.of_nat (length a)) bs = Val (a ++ bs ++ tl).
Proof.
  intros Hl. unfold mem_write. rewrite (proj2 (Z.leb_le _ _)) by lia.
  rewrite (proj2 (Z.leb_le _ _)) by (rewrite !length_app; lia). cbn [andb].
  rewrite Nat2Z.id, take_app_length. do 3 f_equal.
  rewrite <- Hl, <- length_app, app_assoc. by rewrite drop_app_length.
Qed.

Lemma mem_write_0 old tl bs : length old = length bs → mem_write (old ++ tl) 0 bs = Val (bs ++ tl).
Proof. intros. by apply (mem_write_app []). Qed.

(** A write at the front of a block that is large enough. *)
Lemma mem_write_fits buf bs :
  (length bs ≤ length buf)%nat → mem_write buf 0 bs = Val (bs ++ drop (length bs) buf).
Proof.
  intros Hl. rewrite <- (take_drop (length bs) buf) at 1. apply mem_write_0. rewrite length_take. lia.
Qed.

Lemma mem_read_app a b tl : mem_read (a ++ b ++ tl) (Z.of_nat (length a)) (Z.of_nat (length b)) = Val b.
Proof.
  unfold mem_read. rewrite !(proj2 (Z.leb_le _ _)) by (rewrite ?length_app; lia). cbn [andb].
  by rewrite !Nat2Z.id, drop_app_length, take_app_length.
Qed.

Lemma mem_read_0 b tl : mem_read (b ++ tl) 0 (Z.of_nat (length b)) = Val b.
Proof. by apply (mem_read_app []). Qed.

Lemma mem_get_app a c tl : mem_get (a ++ c :: tl) (Z.of_nat (length a)) = Val c.
Proof.
  unfold mem_get. rewrite (proj2 (Z.leb_le _ _)) by lia. rewrite Nat2Z.id.
  by rewrite list_lookup_middle.
Qed.

Lemma buf_set_0 y tl z : buf_set (y :: tl) 0 z = Val (z :: tl).
Proof. by apply (buf_set_app []). Qed.

Lemma buf_str_held s rest : nul_free s → buf_str (s ++ NUL :: rest) = Val s.
Proof. intros. unfold buf_str. rewrite bool_decide_eq_true_2 by set_solver. by rewrite cstring_app_nul. Qed.

(** A block with room for one more byte than [s], split there. *)
Lemma block_split (buf : list ascii) n : (n < length buf)%nat → ∃ old c tl, buf = old ++ c :: tl ∧ length old = n.
Proof.
  intros Hn. destruct (lookup_lt_is_Some_2 buf n Hn) as [c Hc].
  exists (take n buf), c, (drop (S n) buf). split; [by rewrite take_drop_middle|]. rewrite length_take. lia.
Qed.

(** *** [strlcat] *)

Lemma find_end_held size a rest :
  nul_free a → find_end size (a ++ NUL :: rest) = Val (if (length a <? size)%nat then Some (length a) else None).
Proof.
  unfold nul_free. revert size. induction a as [|c a IH]; intros [|size] Ha; try done; simpl.
  rewrite bool_decide_eq_false_2 by set_solver. rewrite IH by set_solver. simpl.
  change (S (length a) <? S size)%nat with (length a <? size)%nat. by destruct (_ <? _)%nat.
Qed.

(** Appending what fits. *)
Lemma strlcat_fits a rest src size :
  nul_free a → Z.of_nat (length a + length src) < size → (length src ≤ length rest)%nat →
  strlcat (a ++ NUL :: rest) src size =
    Val (a ++ src ++ NUL :: drop (length src) rest, Z.of_nat (length a + length src)).
Proof.
  intros Ha Hs Hr. unfold strlcat. rewrite find_end_held by done.
  rewrite (proj2 (Nat.ltb_lt _ _)) by lia. run.
  rewrite take_ge by (rewrite length_app; simpl; lia).
  rewrite <- (take_drop (length src) rest) at 1.
  assert (Hw : mem_write (a ++ (NUL :: take (length src) rest) ++ drop (length src) rest) (Z.of_nat (length a)) (src ++ [NUL])
    = Val (a ++ (src ++ [NUL]) ++ drop (length src) rest)).
  { apply mem_write_app. simpl. rewrite length_app, length_take. simpl. lia. }
  cbn [app] in Hw. rewrite Hw. run. rewrite (proj2 (Nat.ltb_lt _ _)) by lia.
  by rewrite <- (app_assoc src).
Qed.

(** Appending too much: the string is cut to [size - 1] characters, and then the
    length of whatever follows the [size] bytes is measured. *)
Lemma strlcat_truncates a rest src size :
  nul_free a → Z.of_nat (length a) < size ≤ Z.of_nat (length a + length src) → (Z.to_nat size ≤ length a + 1 + length rest)%nat →
  ∃ buf, buf = take (Z.to_nat size - 1) (a ++ src) ++ NUL :: drop (Z.to_nat size - length a - 1) rest ∧
    strlcat (a ++ NUL :: rest) src size =
      (s ← buf_str (drop (Z.to_nat size) buf); Val (buf, size + Z.of_nat (length s))).
Proof.
  intros Ha Hs Hr. eexists; split; [done|]. unfold strlcat. rewrite find_end_held by done.
  rewrite (proj2 (Nat.ltb_lt _ _)) by lia. run. set (room := (Z.to_nat size - length a)%nat).
  assert (Hroom : ∃ k, room = S k) by (exists (room - 1)%nat; unfold room; lia). destruct Hroom as [k Hk].
  rewrite take_app_le by lia. replace (room - 1)%nat with k by lia. rewrite Hk.
  rewrite <- (take_drop k rest) at 1.
  assert (Hw : mem_write (a ++ (NUL :: take k rest) ++ drop k rest) (Z.of_nat (length a)) (take (S k) src)
    = Val (a ++ take (S k) src ++ drop k rest)).
  { apply mem_write_app. simpl. rewrite !length_take. unfold room in Hk. lia. }
  cbn [app] in Hw. rewrite Hw. run. rewrite (proj2 (Nat.ltb_ge _ _)) by (unfold room in Hk; lia).
  destruct (lookup_lt_is_Some_2 src k) as [c Hc]; [unfold room in Hk; lia|].
  rewrite (take_S_r _ _ c) by done. rewrite <- app_assoc. cbn [app]. rewrite (app_assoc a).
  assert (Hl : size - 1 = Z.of_nat (length (a ++ take k src))).
  { rewrite length_app, length_take. unfold room in Hk. lia. }
  rewrite Hl, buf_set_app. run. replace (take (Z.to_nat size - 1) (a ++ src)) with (a ++ take k src).
  - replace (drop (Z.to_nat size - length a - 1) rest) with (drop k rest) by (f_equal; unfold room in Hk; lia). done.
  - rewrite take_app_ge by (unfold room in Hk; lia). do 2 f_equal. unfold room in Hk. lia.
Qed.

(** ** The operations implement operations on lists *)

Lemma holds_denotes st s : holds_str st s → denotes st s.
Proof. by left. Qed.
Lemma allocate_denotes : denotes str_allocate [].
Proof. by right. Qed.

Lemma denotes_length st s : denotes st s → st_length st = Z.of_nat (length s).
Proof. by intros [(? & _ & ? & _)|[-> ->]]. Qed.

(** What a string holds is unique. *)
Lemma holds_inj st s s' : holds_str st s → holds_str st s' → s = s'.
Proof.
  intros (r & Hb & _ & _ & Hs) (r' & Hb' & _ & _ & Hs'). rewrite Hb in Hb'. apply (inj Some) in Hb'.
  by rewrite <- (cstring_app_nul s r), Hb', cstring_app_nul by done.
Qed.

(** A block of the right shape. *)
Lemma holds_intro s rest alloc :
  nul_free s → Z.of_nat (length s) < alloc ≤ Z.of_nat (length s + 1 + length rest) →
  holds_str (WString (Some (s ++ NUL :: rest)) (Z.of_nat (length s)) alloc) s.
Proof. intros. exists rest. naive_solver. Qed.

Lemma str_put_spec st s t :
  holds_str st s → nul_free t → Z.of_nat (length t) < st_allocated st → ∃ st', str_put st t ⇓ st' ∧ holds_str st' t.
Proof.
  intros (rest & Hb & Hl & Ha & Hs) Ht Hlt. unfold str_put. rewrite Hb. run.
  destruct (block_split (s ++ NUL :: rest) (length t)) as (old & c & tl & Hbuf & Hlen).
  { rewrite length_app. simpl. lia. }
  assert (Hsz : (length s + 1 + length rest = length t + 1 + length tl)%nat).
  { apply (f_equal length) in Hbuf. rewrite !length_app in Hbuf. simpl in Hbuf. lia. }
  rewrite Hbuf, mem_write_0 by done. run. rewrite buf_set_app. run. eexists; split; [done|].
  apply holds_intro; [done|lia].
Qed.

(** *** Trimming *)

(** The reference: no white space at the front, none at the back. *)
Definition trim_end (s : list ascii) : list ascii := reverse (skip_spaces (reverse s)).
Definition trim (s : list ascii) : list ascii := skip_spaces (trim_end s).

Lemma skip_spaces_split s : ∃ pre, s = pre ++ skip_spaces s ∧ Forall (λ c, isspace c = true) pre ∧
  match skip_spaces s with [] => True | c :: _ => isspace c = false end.
Proof.
  induction s as [|c s (pre & IH & Hp & Hc)]; simpl; [by exists []|]. destruct (isspace c) eqn:E; [|by exists []].
  exists (c :: pre). split_and!; [simpl; by f_equal|by constructor|done].
Qed.

Lemma count_spaces_spec pre c tl :
  Forall (λ c, isspace c = true) pre → isspace c = false → count_spaces (pre ++ c :: tl) = Val (length pre).
Proof. intros Hp Hc. induction Hp as [|x pre Hx Hp IH]; simpl; [by rewrite Hc|]. by rewrite Hx, IH. Qed.

Lemma shift_down_spec done mid t tl :
  mid ≠ [] →
  ∃ junk, shift_down (length t) (done ++ mid ++ t ++ tl) (Z.of_nat (length done + length mid)) (Z.of_nat (length done))
    = Val (done ++ t ++ junk ++ tl) ∧ length junk = length mid.
Proof.
  revert done mid. induction t as [|c t IH]; intros done mid Hm; cbn [shift_down length].
  - exists mid. by rewrite !app_nil_l.
  - rewrite (app_assoc done), <- length_app. cbn [app]. rewrite mem_get_app. run.
    destruct mid as [|m mid]; [done|]. rewrite <- app_assoc. cbn [app]. rewrite buf_set_app. run.
    destruct (IH (done ++ [c]) (mid ++ [c])) as (junk & Hj & Hl); [by destruct mid|].
    exists junk. rewrite <- !app_assoc in Hj. cbn [app] in Hj.
    rewrite !length_app in Hj. rewrite length_app. simpl in *.
    replace (Z.of_nat (length done + S (length mid)) + 1) with (Z.of_nat (length done + 1 + (length mid + 1))) by lia.
    replace (Z.of_nat (length done) + 1) with (Z.of_nat (length done + 1)) by lia.
    rewrite Hj. split; [done|]. rewrite length_app in Hl. simpl in Hl. lia.
Qed.

Lemma str_trim_left_spec st s :
  holds_str st s → Z.of_nat (length s) ≤ UINT_MAX →
  ∃ st', str_trim_left (Some st) ⇓ Some st' ∧ holds_str st' (skip_spaces s).
Proof.
  intros Hst Hmax. destruct Hst as (rest & Hb & Hl & Ha & Hs). destruct st as [b len alloc]. simpl in *. subst b len.
  destruct (skip_spaces_split s) as (pre & Heq & Hp & Hc). set (t := skip_spaces s) in *. clearbody t. subst s.
  assert (Hcount : count_spaces ((pre ++ t) ++ NUL :: rest) = Val (length pre)).
  { rewrite <- app_assoc. destruct t as [|c t]; cbn [app]; by apply count_spaces_spec. }
  rewrite Hcount. run. pose proof Hmax as Hp32. rewrite length_app in Hp32. rewrite (proj2 (Z.ltb_ge _ _)) by lia.
  destruct (Nat.ltb_spec 0 (length pre)) as [Hlt|].
  2: { destruct pre; [|simpl in *; lia]. eexists; split; [done|]. by apply holds_intro. }
  rewrite (proj2 (Z.ltb_ge _ _)) by done.
  replace (Z.of_nat (length (pre ++ t)) - Z.of_nat (length pre)) with (Z.of_nat (length t)) by (rewrite length_app; lia).
  rewrite Nat2Z.id, <- app_assoc.
  destruct (shift_down_spec [] pre t (NUL :: rest)) as (junk & Hj & Hlj); [by intros ->; simpl in Hlt; lia|].
  cbn [app length Nat.add] in Hj. change (Z.of_nat 0) with 0 in Hj. rewrite Hj. run.
  destruct junk as [|x junk]; [simpl in *; lia|]. cbn [app]. rewrite buf_set_app. run. eexists; split; [done|].
  apply holds_intro; [unfold nul_free in *; set_solver|]. rewrite !length_app in *. simpl in *. lia.
Qed.

(** All but the first character is trimmed from the end. *)
Lemma trim_right_loop_spec c s rest :
  ∃ junk, trim_right_loop (S (length s)) (c :: s ++ NUL :: rest)
    = Val (c :: trim_end s ++ NUL :: junk, S (length (trim_end s))) ∧
    (length (trim_end s) + length junk = length s + length rest)%nat.
Proof.
  revert rest. induction s as [|x s IH] using rev_ind; intros rest; [by exists rest|].
  rewrite length_app, Nat.add_1_r. cbn [trim_right_loop]. rewrite <- app_assoc. cbn [app].
  change (c :: s ++ x :: NUL :: rest) with ((c :: s) ++ x :: NUL :: rest).
  change (Z.of_nat (S (length s))) with (Z.of_nat (length (c :: s))). rewrite mem_get_app. run.
  assert (Htrim : trim_end (s ++ [x]) = if isspace x then trim_end s else s ++ [x]).
  { unfold trim_end. rewrite reverse_app. simpl. destruct (isspace x); [done|].
    rewrite reverse_cons. by rewrite reverse_involutive. }
  rewrite Htrim. replace (isspace x || bool_decide (x = LF)) with (isspace x).
  2: { case_bool_decide as E; [by rewrite E|by rewrite orb_false_r]. }
  destruct (isspace x) eqn:Hx.
  - rewrite buf_set_app. run. destruct (IH (NUL :: rest)) as (junk & Hj & Hlj). cbn [app]. exists junk.
    split; [exact Hj|]. simpl in Hlj. lia.
  - exists rest. rewrite length_app, <- app_assoc. cbn [app]. split; [do 3 f_equal; simpl; lia|]. simpl. lia.
Qed.

Lemma trim_end_nul_free s : nul_free s → nul_free (trim_end s).
Proof.
  unfold trim_end, nul_free. intros Hs. destruct (skip_spaces_split (reverse s)) as (pre & Heq & _).
  rewrite elem_of_reverse. intros Hin. apply Hs. rewrite <- elem_of_reverse, Heq. set_solver.
Qed.

Lemma trim_end_length s : (length (trim_end s) ≤ length s)%nat.
Proof.
  unfold trim_end. destruct (skip_spaces_split (reverse s)) as (pre & Heq & _).
  apply (f_equal length) in Heq. rewrite length_app, length_reverse in Heq. rewrite length_reverse. lia.
Qed.

Lemma str_trim_right_spec st s :
  holds_str st s → ∃ st', str_trim_right (Some st) ⇓ Some st' ∧
    holds_str st' (match s with [] => [] | c :: s => c :: trim_end s end).
Proof.
  intros (rest & Hb & Hl & Ha & Hs). destruct st as [b len alloc]. simpl in *. subst b len.
  destruct s as [|c s]; [eexists; split; [done|]; by apply (holds_intro [])|]. simpl length. cbn [Z.of_nat Z.eqb].
  change (Z.pos _) with (Z.of_nat (S (length s))). rewrite Nat2Z.id.
  destruct (trim_right_loop_spec c s rest) as (junk & Hj & Hlj). cbn [app]. rewrite Hj. run. eexists; split; [done|].
  cbn [fst snd]. apply (holds_intro (c :: trim_end s) junk); [|pose proof (trim_end_length s); cbn [length] in *; lia].
  apply nul_free_cons; [unfold nul_free in Hs; set_solver|]. apply trim_end_nul_free. unfold nul_free in *. set_solver.
Qed.

Lemma trim_end_cons c s :
  trim_end (c :: s) = match trim_end s with [] => if isspace c then [] else [c] | t => c :: t end.
Proof.
  unfold trim_end. rewrite reverse_cons. destruct (skip_spaces_split (reverse s)) as (pre & Heq & Hp & Hc).
  set (t := skip_spaces (reverse s)) in *. clearbody t. rewrite Heq.
  assert (Hskip : ∀ p u, Forall (λ c, isspace c = true) p → skip_spaces (p ++ u) = skip_spaces u).
  { clear. intros p u Hp. induction Hp as [|x p Hx Hp IH]; simpl; [done|by rewrite Hx]. }
  rewrite <- app_assoc, Hskip by done. destruct t as [|x t].
  - simpl. by destruct (isspace c).
  - cbn [app skip_spaces]. rewrite Hc, !reverse_cons, reverse_app. simpl.
    by destruct (reverse t ++ [x]) eqn:E; [destruct (reverse t)|].
Qed.

(** [str_trim_right] keeps the first character; [str_trim_left] then removes it
    when it is white space. *)
Lemma str_trim_spec st s :
  holds_str st s → Z.of_nat (length s) ≤ UINT_MAX →
  ∃ st', str_trim (Some st) ⇓ Some st' ∧ holds_str st' (trim s).
Proof.
  intros Hst Hmax. unfold str_trim. destruct (str_trim_right_spec st s Hst) as (st1 & -> & H1). run.
  destruct (str_trim_left_spec st1 _ H1) as (st2 & -> & H2).
  { destruct s as [|c s]; [done|]. pose proof (trim_end_length s). cbn [length] in *. lia. }
  eexists; split; [done|].
  replace (trim s) with (skip_spaces (match s with [] => [] | c :: s => c :: trim_end s end)); [done|].
  destruct s as [|c s]; [done|]. unfold trim. rewrite trim_end_cons.
  destruct (trim_end s); [|done]. simpl. destruct (isspace c) eqn:E; [done|]. simpl. by rewrite E.
Qed.

(** *** Erasing and lower case *)

Lemma str_erase_spec st s pos len :
  holds_str st s → Z.of_nat (length s) < 2 ^ 64 → 0 ≤ pos → 0 ≤ len → pos + len < 2 ^ 64 →
  if decide (pos + len ≤ Z.of_nat (length s)) then
    ∃ st', str_erase (Some st) pos len ⇓ Some st' ∧
      holds_str st' (take (Z.to_nat pos) s ++ drop (Z.to_nat (pos + len)) s)
  else str_erase (Some st) pos len ⇓ None.
Proof.
  intros (rest & Hb & Hl & Ha & Hs) Hsz Hp Hn Hw. destruct st as [b n alloc]. simpl in *. subst b n.
  rewrite (u64_small (pos + len)) by lia. destruct (decide _) as [Hle|Hgt]; [|by rewrite (proj2 (Z.ltb_lt _ _)) by lia].
  rewrite (proj2 (Z.ltb_ge _ _)) by lia.
  set (a := take (Z.to_nat pos) s). set (m := take (Z.to_nat len) (drop (Z.to_nat pos) s)).
  set (z := drop (Z.to_nat (pos + len)) s).
  assert (Es : s = a ++ m ++ z).
  { unfold a, m, z. rewrite Z2Nat.inj_add, <- drop_drop, take_drop, take_drop by lia. done. }
  assert (La : length a = Z.to_nat pos) by (unfold a; rewrite length_take; lia).
  assert (Lm : length m = Z.to_nat len) by (unfold m; rewrite length_take, length_drop; lia).
  clearbody a m z. subst s. rewrite !length_app in *.
  assert (Hr : mem_read ((a ++ m ++ z) ++ NUL :: rest) (pos + len) (Z.of_nat (length a + (length m + length z)) - (pos + len)) = Val z).
  { rewrite (app_assoc a), <- app_assoc. replace (pos + len) with (Z.of_nat (length (a ++ m))) by (rewrite length_app; lia).
    rewrite length_app. replace (_ - _) with (Z.of_nat (length z)) by lia. rewrite <- length_app. apply mem_read_app. }
  rewrite Hr. run. replace pos with (Z.of_nat (length a)) by lia.
  assert (Hbuf : (a ++ m ++ z) ++ NUL :: rest = a ++ take (length z) (m ++ z) ++ drop (length z) (m ++ z) ++ NUL :: rest).
  { rewrite (app_assoc (take _ _)), take_drop. by rewrite <- app_assoc. }
  rewrite Hbuf, mem_write_app by (rewrite length_take, length_app; lia). run.
  assert (Hd : length (drop (length z) (m ++ z)) = length m) by (rewrite length_drop, length_app; lia).
  destruct (drop (length z) (m ++ z) ++ NUL :: rest) as [|y tl] eqn:Et; [by destruct (drop _ _)|].
  assert (Htl : (length tl = length m + length rest)%nat).
  { apply (f_equal length) in Et. rewrite length_app, Hd in Et. simpl in Et. lia. }
  rewrite u64_small by lia. replace (Z.of_nat _ - len) with (Z.of_nat (length (a ++ z))) by (rewrite length_app; lia).
  rewrite app_assoc, buf_set_app. run. eexists; split; [done|]. apply holds_intro; [solve_nul_free|rewrite length_app; lia].
Qed.

Lemma ascii_lower_char_tolower c : ascii_lower_char c = tolower c.
Proof. revert c. all_chars. Qed.

Lemma tolower_nul c : tolower c = NUL → c = NUL.
Proof. revert c. all_chars. Qed.

Lemma str_tolower_spec st s :
  holds_str st s → ∃ st', str_tolower (Some st) ⇓ Some st' ∧ holds_str st' (map tolower s).
Proof.
  intros (rest & Hb & Hl & Ha & Hs). destruct st as [b n alloc]. simpl in *. subst b n. unfold ascii_lower.
  rewrite mem_read_0. run. rewrite mem_write_0 by (by rewrite length_map). run. eexists; split; [done|].
  rewrite (map_ext _ _ ascii_lower_char_tolower). rewrite <- (length_map tolower s) at 1.
  apply holds_intro; [|rewrite length_map; lia]. intros (c & Hc & Hin)%list_elem_of_fmap. symmetry in Hc. apply tolower_nul in Hc as ->. done.
Qed.

(** *** Cutting up strings *)

Lemma strtok_nul_free p s t r : nul_free s → strtok p s = (Some t, r) → nul_free t ∧ nul_free r.
Proof.
  intros Hs Ht. pose proof (strtok_split p s) as H. rewrite Ht in H. destruct H as (pre & sep & -> & _). solve_nul_free.
Qed.

Lemma strtok_length p s t r : strtok p s = (Some t, r) → (length t + length r ≤ length s)%nat.
Proof.
  intros Ht. pose proof (strtok_split p s) as H. rewrite Ht in H. destruct H as (pre & sep & -> & _).
  rewrite !length_app. lia.
Qed.

Lemma strstr_Some s sep n :
  sep ≠ [] → strstr s sep = Some n →
  s = take n s ++ sep ++ drop (n + length sep) s ∧ strstr (take n s) sep = None.
Proof.
  intros Hne. revert n. induction s as [|c s IH]; intros n; cbn [strstr].
  - case_bool_decide as Hp; [|done]. apply prefix_nil_inv in Hp. done.
  - case_bool_decide as Hp.
    + intros [= <-]. destruct Hp as [k ->]. rewrite Nat.add_0_l, drop_app_length. split; [done|]. simpl.
      rewrite bool_decide_eq_false_2; [done|]. intros H%prefix_nil_inv. done.
    + intros (n' & Hn & ->)%fmap_Some. destruct (IH n' Hn) as [H1 H2]. split; [simpl; by f_equal|].
      cbn [take strstr]. rewrite bool_decide_eq_false_2, H2; [done|].
      intros [k Hk]. apply Hp. exists (k ++ drop n' s). rewrite app_assoc, <- Hk. simpl. by rewrite take_drop.
Qed.

Lemma vsnprintf_fits buf size text :
  (length text < Z.to_nat size)%nat → (Z.to_nat size ≤ length buf)%nat →
  vsnprintf buf size text = Val (text ++ NUL :: drop (length text + 1) buf).
Proof.
  intros Ht Hb. unfold vsnprintf. rewrite (proj2 (Z.leb_gt _ _)) by lia. rewrite take_ge by lia.
  rewrite mem_write_fits by (rewrite length_app; simpl; lia). rewrite length_app. by rewrite <- app_assoc.
Qed.

(** What is written when the text may not fit still leaves a NUL at the end of
    the old contents: [str_set_min_size] writes it. *)
Lemma vsnprintf_cut buf size text :
  0 < size → (Z.to_nat size ≤ length buf)%nat → (Z.to_nat size ≤ length text)%nat →
  vsnprintf buf size text = Val (take (Z.to_nat size - 1) text ++ NUL :: drop (Z.to_nat size) buf).
Proof.
  intros Hs Hb Ht. unfold vsnprintf. rewrite (proj2 (Z.leb_gt _ _)) by lia.
  assert (length (take (Z.to_nat size - 1) text ++ [NUL]) = Z.to_nat size) as Hl.
  { rewrite length_app, length_take. simpl. lia. }
  rewrite mem_write_fits by lia. rewrite Hl. by rewrite <- app_assoc.
Qed.

(** *** Operations that allocate *)

Section refinement.
  Context (malloc : nat → list ascii) (realloc_ok : Z → bool).
  (** A block has the size that was asked for, and [realloc] succeeds. *)
  Hypothesis malloc_size : ∀ n, length (malloc n) = n.
  Hypothesis realloc_succeeds : ∀ n, realloc_ok n = true.

  #[local] Abbreviation set_min_size := (str_set_min_size malloc realloc_ok).
  #[local] Abbreviation fromchar := (str_fromchar malloc realloc_ok).

Lemma set_min_size_spec st s n :
  denotes st s → 0 < n < 2 ^ 53 → ∃ st', set_min_size st n ⇓ st' ∧ holds_str st' s ∧ n ≤ st_allocated st'.
Proof.
  intros Hst Hn. unfold str_set_min_size. pose proof (grow_ge n ltac:(lia)) as Hg.
  destruct (Z.ltb_spec (st_allocated st) n) as [Hlt|Hge].
  2: { exists st. split_and!; [done| |done]. destruct Hst as [|[-> _]]; [done|]. simpl in Hge. lia. }
  destruct Hst as [(rest & Hb & Hl & Ha & Hs)|[-> ->]].
  - rewrite Hb, realloc_succeeds, Hl. unfold realloc.
    rewrite take_app_ge by lia. rewrite <- app_assoc.
    replace (Z.to_nat (grow n) - length s)%nat with (S (Z.to_nat (grow n) - length s - 1)) by lia.
    cbn [take app]. rewrite buf_set_app. run. eexists; split; [done|]. split; [|done].
    apply holds_intro; [done|]. rewrite length_app, length_take, malloc_size, length_app. simpl. lia.
  - cbn [st_buffer str_allocate]. destruct (malloc (Z.to_nat (grow n))) as [|c tl] eqn:E.
    { pose proof (malloc_size (Z.to_nat (grow n))) as H. rewrite E in H. simpl in H. lia. }
    rewrite buf_set_0. run. eexists; split; [done|]. split; [|done]. apply (holds_intro [] tl); [apply nul_free_nil|].
    pose proof (malloc_size (Z.to_nat (grow n))) as H. rewrite E in H. simpl in *. lia.
Qed.

Lemma str_fromchar_spec s :
  nul_free s → Z.of_nat (length s) + 1 < 2 ^ 53 → ∃ st, fromchar (Some s) ⇓ st ∧ holds_str st s.
Proof.
  intros Hs Hn. unfold str_fromchar.
  destruct (set_min_size_spec str_allocate [] (Z.of_nat (length s) + 1) allocate_denotes) as (st & -> & Hst & Hal); [lia|].
  run. apply (str_put_spec st [] s Hst Hs). lia.
Qed.

Lemma str_store_spec st s t :
  denotes st s → nul_free t → Z.of_nat (length t) + 1 < 2 ^ 53 →
  ∃ st', str_store malloc realloc_ok (Some st) t ⇓ Some st' ∧ holds_str st' t.
Proof.
  intros Hst Ht Hn. unfold str_store.
  destruct (set_min_size_spec st s (Z.of_nat (length t) + 1) Hst) as (st' & -> & (rest & Hb & Hl & Ha & Hs) & Hal); [lia|].
  run. rewrite Hb. run. unfold mem_strncpy. rewrite take_ge by (rewrite length_app; simpl; lia).
  rewrite mem_write_fits by (rewrite !length_app; simpl; lia). run. eexists; split; [done|].
  rewrite <- app_assoc. apply holds_intro; [done|]. cbn [st_length st_allocated].
  rewrite length_drop, !length_app. simpl. lia.
Qed.

(** The copy of a string that holds [t], into one that denotes anything. *)
Lemma str_copy_into_spec dst s src t :
  denotes dst s → holds_str src t → st_allocated src < 2 ^ 53 →
  ∃ st', str_copy_into malloc realloc_ok dst src ⇓ st' ∧ holds_str st' t.
Proof.
  intros Hd (rest & Hb & Hl & Ha & Ht) Hn. unfold str_copy_into.
  destruct (set_min_size_spec dst s (st_allocated src) Hd) as (st' & -> & Hst & Hal); [lia|].
  run. rewrite Hb, Hl, mem_read_0. run. apply (str_put_spec st' s t Hst Ht). lia.
Qed.

Lemma str_append_spec st s t :
  denotes st s → nul_free t → Z.of_nat (length s + length t) + 1 < 2 ^ 53 →
  ∃ st', str_append malloc realloc_ok (Some st) (Some t) ⇓ Some st' ∧ holds_str st' (s ++ t).
Proof.
  intros Hst Ht Hn. unfold str_append. rewrite (denotes_length st s Hst).
  destruct (set_min_size_spec st s (Z.of_nat (length s) + Z.of_nat (length t) + 1) Hst) as (st' & -> & (rest & Hb & Hl & Ha & Hs) & Hal); [lia|].
  run. rewrite Hb, Hl, strlcat_fits by (done || lia). run. eexists; split; [done|]. cbn [fst].
  rewrite app_assoc. replace (Z.of_nat (length s) + Z.of_nat (length t)) with (Z.of_nat (length (s ++ t))) by (rewrite length_app; lia).
  apply holds_intro; [by apply nul_free_app|]. rewrite length_app, length_drop. lia.
Qed.

Lemma str_append_c_spec st s c :
  denotes st s → c ≠ NUL → Z.of_nat (length s) + 2 < 2 ^ 53 →
  ∃ st', str_append_c malloc realloc_ok (Some st) c ⇓ Some st' ∧ holds_str st' (s ++ [c]).
Proof.
  intros Hst Hc Hn. unfold str_append_c. rewrite (denotes_length st s Hst).
  destruct (set_min_size_spec st s (Z.of_nat (length s) + 2) Hst) as (st' & -> & (rest & Hb & Hl & Ha & Hs) & Hal); [lia|].
  run. rewrite Hb, Hl, buf_set_app. run. destruct rest as [|x rest]; [simpl in Ha; lia|].
  change (s ++ c :: x :: rest) with (s ++ [c] ++ x :: rest). rewrite app_assoc.
  replace (Z.of_nat (length s) + 1) with (Z.of_nat (length (s ++ [c]))) by (rewrite length_app; simpl; lia).
  rewrite buf_set_app. run. eexists; split; [done|].
  apply holds_intro; [apply nul_free_app; [done|by apply nul_free_cons, nul_free_nil]|]. rewrite length_app. simpl in *. lia.
Qed.

Lemma str_prepend_spec st s t :
  denotes st s → nul_free t →
  ∃ st', str_prepend malloc (Some st) (Some t) ⇓ Some st' ∧ holds_str st' (t ++ s).
Proof.
  intros Hst Ht. unfold str_prepend. pose proof (denotes_length st s Hst) as Hl. rewrite Hl.
  set (alloc := if _ <=? _ then _ else _).
  assert (Hal : Z.of_nat (length t) + Z.of_nat (length s) < alloc).
  { unfold alloc. destruct (Z.leb_spec (st_allocated st) (Z.of_nat (length t) + Z.of_nat (length s))); lia. }
  pose proof (malloc_size (Z.to_nat alloc)) as Hm.
  destruct (block_split (malloc (Z.to_nat alloc)) (length t + length s)) as (old & c & tl & Hbuf & Hlen); [lia|].
  rewrite Hbuf in *. rewrite <- (take_drop (length t) old) in *. set (o1 := take _ old) in *. set (o2 := drop _ old) in *.
  assert (length o1 = length t) as H1. { unfold o1. rewrite length_app in Hlen. rewrite length_take. pose proof (length_drop old (length t)). unfold o1, o2 in Hlen. rewrite length_take in Hlen. lia. }
  assert (length o2 = length s) as H2 by (rewrite length_app in Hlen; lia).
  unfold mem_strncpy. rewrite Nat2Z.id, take_app_length, <- app_assoc, mem_write_0 by done. run.
  assert (Hlast : ∀ sz, sz = Z.of_nat (length (t ++ s)) → nul_free s → ∃ st', (buf ← buf_set (t ++ s ++ c :: tl) sz NUL;
       Val (Some (WString (Some buf) sz alloc))) ⇓ Some st' ∧ holds_str st' (t ++ s)).
  { intros sz -> Hs. rewrite app_assoc, buf_set_app. run. eexists; split; [done|]. apply holds_intro; [by apply nul_free_app|].
    rewrite !length_app in *. simpl in Hm. lia. }
  destruct Hst as [(rest & Hb & _ & Ha & Hs)|[-> ->]].
  - rewrite Hb, mem_read_0. run. rewrite mem_write_app by done. run. apply Hlast; [|done]. rewrite length_app. lia.
  - cbn [st_buffer str_allocate]. run. destruct o2; [|done]. apply Hlast; [|apply nul_free_nil].
    rewrite length_app. simpl. lia.
Qed.

(** *** Tokens *)

(** [str_tok] is [strtok] on the string held; what it leaves is the rest. *)
Lemma str_tok_spec st s delim :
  holds_str st s → Z.of_nat (length s) + 1 < 2 ^ 53 → s ≠ [] →
  match strtok (λ c, bool_decide (c ∈ delim)) s with
  | (None, _) => str_tok malloc realloc_ok (Some st) (Some delim) ⇓ (Some str_allocate, Some st)
  | (Some t, r) => ∃ tok st', str_tok malloc realloc_ok (Some st) (Some delim) ⇓ (Some tok, Some st') ∧
      holds_str tok t ∧ holds_str st' r
  end.
Proof.
  intros (rest & Hb & Hl & Ha & Hs) Hn Hne. destruct st as [b n alloc]. simpl in Hb, Hl, Ha. subst b n.
  unfold str_tok. rewrite (proj2 (Z.eqb_neq _ _)) by (by destruct s). rewrite buf_str_held by done. run.
  destruct (strtok _ s) as [[t|] r] eqn:Ht; [|done].
  destruct (strtok_nul_free _ _ _ _ Hs Ht) as [Hnt Hnr]. pose proof (strtok_length _ _ _ _ Ht) as Hle.
  destruct (str_fromchar_spec t Hnt) as (tok & -> & Htok); [lia|]. run. unfold mem_strncpy.
  rewrite take_ge by (rewrite length_app; simpl; lia). rewrite mem_write_fits by (rewrite !length_app; simpl; lia). run.
  eexists _, _; split; [done|]. split; [done|]. rewrite <- app_assoc. apply holds_intro; [done|].
  rewrite length_drop, !length_app. simpl. lia.
Qed.

(** *** Splitting *)

(** The pieces cut off, each followed by a separator, and the remainder. *)
Lemma split_loop_spec fuel sep max_tokens s :
  sep ≠ [] → nul_free s → Z.of_nat (length s) + 1 < 2 ^ 53 → (length s < fuel)%nat → max_tokens ≠ 0 →
  ∃ l toks r, split_loop malloc realloc_ok fuel sep max_tokens s ⇓ (l, r) ∧ Forall2 holds_str l toks ∧
    s = concat (map (λ t, t ++ sep) toks) ++ r ∧ Forall (λ t, strstr t sep = None) toks ∧
    (0 < max_tokens → Z.of_nat (length toks) < max_tokens) ∧
    (strstr r sep = None ∨ Z.of_nat (length toks) + 1 = max_tokens).
Proof.
  intros Hsep. revert max_tokens s. induction fuel as [|fuel IH]; intros mx s Hs Hn Hf Hmx; [lia|]. cbn [split_loop].
  destruct (strstr s sep) as [n|] eqn:E; [|exists [], [], s; split_and!; try done; by left].
  destruct (strstr_Some s sep n Hsep E) as [Heq Hnone].
  destruct (Z.eqb_spec (mx - 1) 0); [exists [], [], s; split_and!; try done; right; simpl; lia|].
  set (a := take n s) in *. set (z := drop (n + length sep) s) in *. clearbody a z. subst s. rewrite !length_app in *.
  assert (length sep ≠ O) by (by destruct sep).
  destruct (str_fromchar_spec a) as (tok & -> & Htok); [solve_nul_free|lia|]. run.
  destruct (IH (mx - 1) z) as (l & toks & r & -> & Hl & Hz & Hall & Hmax & Hrest); [solve_nul_free|lia|lia|lia|]. run.
  exists (tok :: l), (a :: toks), r. split_and!; [done|by constructor|simpl; by rewrite Hz, <- !app_assoc|by constructor| |].
  - intros. simpl. lia.
  - destruct Hrest; [by left|right]. simpl. lia.
Qed.

Lemma str_split_spec st s sep max_tokens :
  holds_str st s → sep ≠ [] → Z.of_nat (length s) + 1 < 2 ^ 53 →
  ∃ l toks r, str_split malloc realloc_ok (Some st) (Some sep) max_tokens ⇓ Some l ∧
    Forall2 holds_str l (toks ++ match r with [] => [] | _ => [r] end) ∧
    s = concat (map (λ t, t ++ sep) toks) ++ r ∧ Forall (λ t, strstr t sep = None) toks ∧
    (strstr r sep = None ∨ Z.of_nat (length toks) + 1 = max_tokens) ∧
    (0 < max_tokens → Z.of_nat (length toks) < max_tokens).
Proof.
  intros (rest & Hb & Hl & Ha & Hs) Hsep Hn. destruct sep as [|c sep]; [done|]. unfold str_split. rewrite Hb. run.
  rewrite buf_str_held by done. run. set (mx := if _ <? _ then _ else _).
  assert (Hmx : mx ≠ 0 ∧ (mx = max_tokens ∨ mx = -1 ∧ max_tokens < 1)).
  { unfold mx. destruct (Z.ltb_spec max_tokens 1); lia. }
  destruct (split_loop_spec (S (length s)) (c :: sep) mx s) as (l & toks & r & -> & Hf & Heq & Hall & Hmax & Hrest); [done|done|lia|lia|naive_solver|].
  run. assert (Hr : strstr r (c :: sep) = None ∨ Z.of_nat (length toks) + 1 = max_tokens) by (destruct Hrest; [by left|right; lia]).
  assert (Hmax' : 0 < max_tokens → Z.of_nat (length toks) < max_tokens) by (intros; lia).
  destruct r as [|x r].
  - exists l, toks, []. split_and!; try done. by rewrite app_nil_r.
  - destruct (str_fromchar_spec (x :: r)) as (last & -> & Hlast).
    { rewrite Heq in Hs. solve_nul_free. }
    { rewrite Heq, length_app in Hn. lia. }
    run. exists (l ++ [last]), toks, (x :: r). split_and!; try done. apply Forall2_app; [done|by constructor].
Qed.

(** *** Formatted output *)

(** Growing a block whose contents are of no interest. *)
Lemma set_min_size_any buf len alloc n :
  0 ≤ len < alloc → alloc ≤ Z.of_nat (length buf) → alloc < n < 2 ^ 53 →
  ∃ buf', set_min_size (WString (Some buf) len alloc) n ⇓ WString (Some buf') len (grow n) ∧
    length buf' = Z.to_nat (grow n).
Proof.
  intros Hl Ha Hn. unfold str_set_min_size. cbn [st_allocated st_buffer st_length]. pose proof (grow_ge n ltac:(lia)) as Hg.
  rewrite (proj2 (Z.ltb_lt _ _)) by lia. rewrite realloc_succeeds.
  assert (Hr : length (realloc malloc buf (grow n)) = Z.to_nat (grow n)).
  { unfold realloc. rewrite length_app, length_take, malloc_size. lia. }
  destruct (block_split (realloc malloc buf (grow n)) (Z.to_nat len)) as (old & c & tl & Hbuf & Hlen); [lia|].
  rewrite Hbuf in *. replace len with (Z.of_nat (length old)) by lia. rewrite buf_set_app. run.
  eexists; split; [done|]. rewrite <- Hr, !length_app. simpl. lia.
Qed.

Lemma INT_MAX_small : INT_MAX < 2 ^ 53.
Proof. by vm_compute. Qed.
Lemma vsnprintf_result_fits text : Z.of_nat (length text) ≤ INT_MAX → vsnprintf_result text = Z.of_nat (length text).
Proof. intros. unfold vsnprintf_result. by rewrite (proj2 (Z.leb_le _ _)). Qed.
Lemma int_incr_fits n : n < INT_MAX → int_incr n ⇓ n + 1.
Proof. intros. unfold int_incr. by rewrite (proj2 (Z.ltb_lt _ _)). Qed.

Lemma str_vsprintf_spec st s format text :
  denotes st s → nul_free text → Z.of_nat (length format) + 1 < 2 ^ 53 → Z.of_nat (length text) < INT_MAX →
  ∃ st', str_vsprintf malloc realloc_ok (Some st) format text ⇓ (Some st', Z.of_nat (length text)) ∧ holds_str st' text.
Proof.
  intros Hst Ht Hf Hn. unfold str_vsprintf. pose proof INT_MAX_small.
  assert (∃ st1, match st_buffer st with None => set_min_size st (Z.of_nat (length format) + 1) | Some _ => Val st end ⇓ st1 ∧
    holds_str st1 s) as (st1 & -> & (rest & Hb & Hl & Ha & Hs)).
  { destruct Hst as [Hst|[-> ->]]; [pose proof Hst as (? & -> & _); by eexists|].
    destruct (set_min_size_spec str_allocate [] (Z.of_nat (length format) + 1) allocate_denotes) as (st1 & ? & ? & _); [lia|]. by exists st1. }
  run. rewrite Hb. run. rewrite vsnprintf_result_fits by lia. set (buf := s ++ NUL :: rest) in *.
  assert (Hlb : (length buf = length s + 1 + length rest)%nat) by (unfold buf; rewrite length_app; simpl; lia).
  destruct (Z.leb_spec (st_allocated st1) (Z.of_nat (length text))) as [Hgt|Hfit].
  - rewrite vsnprintf_cut by lia. run. rewrite (proj2 (Z.ltb_ge _ _)) by lia. cbn [st_allocated].
    rewrite (proj2 (Z.leb_le _ _)) by lia. rewrite int_incr_fits by lia. run.
    destruct (set_min_size_any (take (Z.to_nat (st_allocated st1) - 1) text ++ NUL :: drop (Z.to_nat (st_allocated st1)) buf)
      (st_length st1) (st_allocated st1) (Z.of_nat (length text) + 1)) as (buf' & -> & Hlb'); [lia| |lia|].
    { rewrite length_app. simpl. rewrite length_take, length_drop. lia. }
    run. cbn [st_buffer st_allocated st_length]. run. pose proof (grow_ge (Z.of_nat (length text) + 1) ltac:(lia)).
    rewrite vsnprintf_fits by lia. run. eexists; split; [done|]. cbn [st_buffer st_allocated]. apply holds_intro; [done|].
    rewrite length_drop. lia.
  - rewrite vsnprintf_fits by lia. run. rewrite (proj2 (Z.ltb_ge _ _)) by lia. cbn [st_allocated].
    rewrite (proj2 (Z.leb_gt _ _)) by lia. run.
    eexists; split; [done|]. cbn [st_buffer st_allocated]. apply holds_intro; [done|]. rewrite length_drop. lia.
Qed.

Lemma printed_spec text :
  nul_free text → Z.of_nat (length text) + 1 < INT_MAX → printed malloc (Z.of_nat (length text)) text ⇓ text.
Proof.
  intros Ht Hn. unfold printed. rewrite !int_incr_fits by lia. run. rewrite int_incr_fits by lia. run.
  rewrite vsnprintf_fits by (rewrite ?malloc_size; lia). run. by rewrite buf_str_held.
Qed.

(** Formatted output through [add]: the text is added to what is held. *)
Lemma str_add_printf_spec add whole st s format text :
  (∀ st1, denotes st1 s → ∃ st', add (Some st1) (Some text) ⇓ Some st' ∧ holds_str st' whole) →
  denotes st s → nul_free text → Z.of_nat (length s + length format) + 1 < 2 ^ 53 →
  Z.of_nat (length text) + 1 < INT_MAX →
  ∃ st', str_add_printf malloc realloc_ok add (Some st) format text ⇓ (Some st', Z.of_nat (length whole)) ∧ holds_str st' whole.
Proof.
  intros Hadd Hst Ht Hf Hn. unfold str_add_printf.
  assert (∃ st1, match st_buffer st with None => set_min_size st (st_length st + Z.of_nat (length format) + 1) | Some _ => Val st end ⇓ st1 ∧
    denotes st1 s) as (st1 & -> & Hst1).
  { destruct Hst as [Hst|[-> ->]]; [pose proof Hst as (? & -> & _); eexists; split; [done|by left]|].
    destruct (set_min_size_spec str_allocate [] (0 + Z.of_nat (length format) + 1) allocate_denotes) as (st1 & ? & ? & _); [lia|].
    exists st1. split; [done|by left]. }
  run. rewrite vsnprintf_result_fits, (proj2 (Z.ltb_ge _ _)) by lia. rewrite printed_spec by done. run.
  destruct (Hadd st1 Hst1) as (st' & -> & Hst'). run.
  eexists; split; [|done]. do 2 f_equal. by apply denotes_length, holds_denotes.
Qed.

Lemma str_append_printf_spec st s format text :
  denotes st s → nul_free text → Z.of_nat (length s + length format) + 1 < 2 ^ 53 →
  Z.of_nat (length s + length text) + 1 < 2 ^ 53 → Z.of_nat (length text) + 1 < INT_MAX →
  ∃ st', str_append_printf malloc realloc_ok (Some st) format text ⇓ (Some st', Z.of_nat (length (s ++ text))) ∧ holds_str st' (s ++ text).
Proof. intros. apply (str_add_printf_spec _ _ st s); try done. intros. by apply str_append_spec. Qed.

Lemma str_prepend_printf_spec st s format text :
  denotes st s → nul_free text → Z.of_nat (length s + length format) + 1 < 2 ^ 53 → Z.of_nat (length text) + 1 < INT_MAX →
  ∃ st', str_prepend_printf malloc realloc_ok (Some st) format text ⇓ (Some st', Z.of_nat (length (text ++ s))) ∧ holds_str st' (text ++ s).
Proof. intros. apply (str_add_printf_spec _ _ st s); try done. intros. by apply str_prepend_spec. Qed.
End refinement.

(** ** Any sequence of edits *)

Inductive edit :=
  | EStore (t : list ascii)
  | EAppend (t : list ascii)
  | EAppendC (c : ascii)
  | EPrepend (t : list ascii)
  | ETrim
  | ETrimLeft
  | ETrimRight
  | ELower
  | EErase (pos len : Z)
  | ESprintf (format text : list ascii)
  | EAppendPrintf (format text : list ascii)
  | EPrependPrintf (format text : list ascii).

(** A call that returns a null pointer has left the string as it was. *)
Definition kept (st : wzd_string) (r : outcome (option wzd_string)) : outcome wzd_string :=
  r ← r; Val (default st r).

Definition run_edit (malloc : nat → list ascii) (realloc_ok : Z → bool) (st : wzd_string) (e : edit) : outcome wzd_string :=
  match e with
  | EStore t => kept st (str_store malloc realloc_ok (Some st) t)
  | EAppend t => kept st (str_append malloc realloc_ok (Some st) (Some t))
  | EAppendC c => kept st (str_append_c malloc realloc_ok (Some st) c)
  | EPrepend t => kept st (str_prepend malloc (Some st) (Some t))
  | ETrim => kept st (str_trim (Some st))
  | ETrimLeft => kept st (str_trim_left (Some st))
  | ETrimRight => kept st (str_trim_right (Some st))
  | ELower => kept st (str_tolower (Some st))
  | EErase pos len => kept st (str_erase (Some st) pos len)
  | ESprintf format text => r ← str_sprintf malloc realloc_ok (Some st) format text; Val (default st r.1)
  | EAppendPrintf format text => r ← str_append_printf malloc realloc_ok (Some st) format text; Val (default st r.1)
  | EPrependPrintf format text => r ← str_prepend_printf malloc realloc_ok (Some st) format text; Val (default st r.1)
  end.

Fixpoint run_edits (malloc : nat → list ascii) (realloc_ok : Z → bool) (st : wzd_string) (es : list edit) : outcome wzd_string :=
  match es with
  | [] => Val st
  | e :: es => st ← run_edit malloc realloc_ok st e; run_edits malloc realloc_ok st es
  end.

(** The same edits on lists of characters. *)
Definition spec_edit (s : list ascii) (e : edit) : list ascii :=
  match e with
  | EStore t => t
  | EAppend t => s ++ t
  | EAppendC c => s ++ [c]
  | EPrepend t => t ++ s
  | ETrim => trim s
  | ETrimLeft => skip_spaces s
  | ETrimRight => match s with [] => [] | c :: s => c :: trim_end s end
  | ELower => map tolower s
  | EErase pos len =>
    if decide (pos + len ≤ Z.of_nat (length s)) then take (Z.to_nat pos) s ++ drop (Z.to_nat (pos + len)) s else s
  | ESprintf _ text => text
  | EAppendPrintf _ text => s ++ text
  | EPrependPrintf _ text => text ++ s
  end.

Definition edit_size (e : edit) : Z :=
  match e with
  | EStore t | EAppend t | EPrepend t => Z.of_nat (length t)
  | ESprintf format text | EAppendPrintf format text | EPrependPrintf format text => Z.of_nat (length format) + Z.of_nat (length text)
  | _ => 0
  end.

(** The arguments are C strings. Sizes are far from the limits of [size_t] (2^53
    is what the growth of a block, computed on a double, is exact for); a string
    trimmed on the left is indexed by an [unsigned int], and a text printed is
    measured, with a NUL and a byte more, by an [int]. *)
Definition edit_ok (s : list ascii) (e : edit) : Prop :=
  Z.of_nat (length s) + edit_size e + 2 < 2 ^ 53 ∧
  match e with
  | EStore t | EAppend t | EPrepend t => nul_free t
  | ESprintf _ t | EAppendPrintf _ t | EPrependPrintf _ t => nul_free t ∧ Z.of_nat (length t) + 1 < INT_MAX
  | ETrim | ETrimLeft => Z.of_nat (length s) ≤ UINT_MAX
  | EAppendC c => c ≠ NUL
  | EErase pos len => 0 ≤ pos ∧ 0 ≤ len ∧ pos + len < 2 ^ 64
  | _ => True
  end.
#[global] Instance edit_ok_dec s e : Decision (edit_ok s e).
Proof. unfold edit_ok. destruct e; apply _. Defined.

Fixpoint edits_ok (s : list ascii) (es : list edit) : Prop :=
  match es with [] => True | e :: es => edit_ok s e ∧ edits_ok (spec_edit s e) es end.
#[global] Instance edits_ok_dec s es : Decision (edits_ok s es).
Proof. revert s. induction es as [|e es IH]; intros s; simpl; apply _. Defined.

Lemma run_edit_spec malloc realloc_ok st s e :
  (∀ n, length (malloc n) = n) → (∀ n, realloc_ok n = true) → denotes st s → edit_ok s e →
  ∃ st', run_edit malloc realloc_ok st e ⇓ st' ∧ denotes st' (spec_edit s e).
Proof.
  intros Hm Hr Hst [Hsz He].
  assert (Hk : ∀ r t, (∃ st', r ⇓ Some st' ∧ holds_str st' t) → ∃ st', kept st r ⇓ st' ∧ denotes st' t).
  { intros r t (st' & -> & H). exists st'. split; [done|by left]. }
  assert (Hp : ∀ (r : outcome (option wzd_string * Z)) t, (∃ st' n, r ⇓ (Some st', n) ∧ holds_str st' t) →
     ∃ st', (r ← r; Val (default st r.1)) ⇓ st' ∧ denotes st' t).
  { intros r t (st' & n & -> & H). exists st'. split; [done|by left]. }
  destruct e; cbn [run_edit spec_edit edit_size] in *;
    [apply Hk; eapply str_store_spec; eauto; lia
    |apply Hk; apply str_append_spec; eauto; lia
    |apply Hk; apply str_append_c_spec; eauto; lia
    |apply Hk; apply str_prepend_spec; eauto
    | | | | |
    |destruct He; destruct (str_vsprintf_spec malloc realloc_ok Hm Hr st s format text) as (st' & ? & ?); [done|done|lia..|]; apply Hp; eauto
    |destruct He; destruct (str_append_printf_spec malloc realloc_ok Hm Hr st s format text) as (st' & ? & ?); [done|done|lia..|]; apply Hp; eauto
    |destruct He; destruct (str_prepend_printf_spec malloc realloc_ok Hm Hr st s format text) as (st' & ? & ?); [done|done|lia..|]; apply Hp; eauto].
  all: destruct Hst as [Hst|[-> ->]].
  1: by apply Hk, str_trim_spec.
  2: by apply Hk, str_trim_left_spec.
  3: by apply Hk, str_trim_right_spec.
  4: by apply Hk, str_tolower_spec.
  5: { destruct He as (? & ? & ?). pose proof (str_erase_spec st s pos len Hst ltac:(lia) ltac:(done) ltac:(done) ltac:(done)) as H'.
       destruct (decide _); [by apply Hk|]. rewrite H'. exists st. split; [done|by left]. }
  all: exists str_allocate; split; [done|]; try apply allocate_denotes.
  destruct (decide _); rewrite ?take_nil, ?drop_nil; apply allocate_denotes.
Qed.

(** C33. As long as malloc and realloc give the blocks asked for, any sequence of
    edits of a string (store, append, prepend, trim, erase, lower case, formatted
    output, appended and prepended) within the bounds of [edits_ok] is defined,
    and leaves the string that the same operations on lists of characters give. *)
Theorem str_edits_refine malloc realloc_ok st s es :
  (∀ n, length (malloc n) = n) → (∀ n, realloc_ok n = true) → denotes st s → edits_ok s es →
  ∃ st', run_edits malloc realloc_ok st es ⇓ st' ∧ denotes st' (foldl spec_edit s es).
Proof.
  intros Hm Hr. revert st s. induction es as [|e es IH]; intros st s Hst Hok; [by exists st|].
  destruct Hok as [He Hok]. destruct (run_edit_spec malloc realloc_ok st s e Hm Hr Hst He) as (st1 & H1 & Hst1).
  cbn [run_edits foldl]. rewrite H1. run. by apply IH.
Qed.

(** An allocator whose memory is filled with the letter x. *)
Definition demo_malloc (n : nat) : list ascii := replicate n "x"%char.
Lemma demo_malloc_size n : length (demo_malloc n) = n.
Proof. apply length_replicate. Qed.
Definition demo_realloc (n : Z) : bool := true.

(** The edits of tests/test_wzd_string.c. *)
Definition demo_edits : list edit :=
  [EStore (str "abcd 1234"); EAppend (str " blah"); EPrepend (str "foo "); EAppend (str " " ++ [CR; LF]);
   EPrepend (TAB :: str " "); ETrim; EErase 0 4; ELower;
   EAppendPrintf (str "%d%s") (str "12!"); EPrependPrintf (str "%s: ") (str "log: ")].

Lemma str_edits_refine_witness :
  ∃ st', run_edits demo_malloc demo_realloc str_allocate demo_edits ⇓ st' ∧ denotes st' (str "log: abcd 1234 blah12!").
Proof.
  apply (str_edits_refine demo_malloc demo_realloc str_allocate [] demo_edits demo_malloc_size).
  - done.
  - apply allocate_denotes.
  - apply (bool_decide_unpack _). by vm_compute.
Defined.

(** Splitting a string at a separator: the pieces, each followed by the
    separator but for the last, give the string back; no piece but the last holds
    the separator, and the last holds it only when the limit was reached; there
    are no more pieces than the limit. An empty last piece is left out. *)
Theorem str_split_roundtrip malloc realloc_ok st s sep max_tokens :
  (∀ n, length (malloc n) = n) → (∀ n, realloc_ok n = true) →
  holds_str st s → sep ≠ [] → Z.of_nat (length s) + 1 < 2 ^ 53 →
  ∃ l toks r, str_split malloc realloc_ok (Some st) (Some sep) max_tokens ⇓ Some l ∧
    Forall2 holds_str l (toks ++ match r with [] => [] | _ => [r] end) ∧
    s = concat (map (λ t, t ++ sep) toks) ++ r ∧ Forall (λ t, strstr t sep = None) toks ∧
    (strstr r sep = None ∨ Z.of_nat (length toks) + 1 = max_tokens) ∧
    (0 < max_tokens → Z.of_nat (length toks) < max_tokens).
Proof. intros Hm Hr. by apply str_split_spec. Qed.

Definition demo_list : wzd_string :=
  WString (Some (str "10,20,,30" ++ [NUL])) 9 10.

Lemma demo_list_holds : holds_str demo_list (str "10,20,,30").
Proof. exists []. split_and!; [done|done|done|simpl; lia|]. apply (bool_decide_unpack _). by vm_compute. Qed.

Lemma str_split_roundtrip_witness :
  (∃ l toks r, str_split demo_malloc demo_realloc (Some demo_list) (Some (str ",")) 2 ⇓ Some l ∧
    Forall2 holds_str l (toks ++ match r with [] => [] | _ => [r] end) ∧
    str "10,20,,30" = concat (map (λ t, t ++ str ",") toks) ++ r ∧ Forall (λ t, strstr t (str ",") = None) toks ∧
    (strstr r (str ",") = None ∨ Z.of_nat (length toks) + 1 = 2) ∧ (0 < 2 → Z.of_nat (length toks) < 2)) ∧
  fmap (M:=outcome) (fmap (map (λ st, cstring <$> st_buffer st))) (str_split demo_malloc demo_realloc (Some demo_list) (Some (str ",")) 2)
    ⇓ Some [Some (str "10"); Some (str "20,,30")] ∧
  fmap (M:=outcome) (fmap (map (λ st, cstring <$> st_buffer st))) (str_split demo_malloc demo_realloc (Some demo_list) (Some (str ",")) 0)
    ⇓ Some [Some (str "10"); Some (str "20"); Some []; Some (str "30")].
Proof.
  split; [|split; by vm_compute].
  apply (str_split_roundtrip demo_malloc demo_realloc demo_list (str "10,20,,30") (str ",") 2 demo_malloc_size).
  - done.
  - apply demo_list_holds.
  - done.
  - simpl. lia.
Defined.

(** ** Tokens between quotes *)

(** What a quoted token leaves: nothing after it can be read any more, the
    opening quote and the token itself are left in the string. *)
Lemma str_read_token_quoted malloc realloc_ok st pre q t rest :
  (∀ n, length (malloc n) = n) → (∀ n, realloc_ok n = true) →
  holds_str st (pre ++ q :: t ++ q :: rest) → Forall (λ c, isspace c = true) pre → is_quote q = true →
  t ≠ [] → q ∉ t → Z.of_nat (length (pre ++ q :: t ++ q :: rest)) + 1 < 2 ^ 53 →
  ∃ tok st', str_read_token malloc realloc_ok (Some st) ⇓ (Some tok, Some st') ∧
    holds_str tok t ∧ holds_str st' (pre ++ q :: t).
Proof.
  intros Hm Hr (blk & Hb & Hl & Ha & Hs) Hpre Hq Hne Hqt Hn. destruct st as [b n alloc]. simpl in Hb, Hl, Ha. subst b n.
  assert (Hqs : isspace q = false) by (clear -Hq; revert q Hq; all_chars).
  unfold str_read_token. rewrite (proj2 (Z.eqb_neq _ _)) by (rewrite length_app; simpl; lia).
  rewrite buf_str_held by done. run. rewrite skip_spaces_pre by done. rewrite bool_decide_eq_false_2 by done.
  cbn [strpbrk]. rewrite Hq, orb_true_r. cbv iota beta. rewrite Hq, bool_decide_eq_true_2 by set_solver.
  assert (Hp : Forall (λ c, bool_decide (c = q) = false) t).
  { apply Forall_forall. intros c Hc. apply bool_decide_eq_false_2. intros ->. done. }
  assert (Htok : strtok (λ c, bool_decide (c = q)) (q :: t ++ q :: rest) = (Some t, rest)).
  { apply (strtok_app _ [q] t q rest); [by constructor; [apply bool_decide_eq_true_2|]|done|done|by apply bool_decide_eq_true_2]. }
  rewrite Htok. destruct (str_fromchar_spec malloc realloc_ok Hm Hr t) as (tok & -> & Hh).
  { solve_nul_free. } { rewrite !length_app in Hn. simpl in Hn. rewrite !length_app in Hn. lia. }
  run. assert (Hskip : skip_while (λ c, bool_decide (c = q)) (q :: t ++ q :: rest) = t ++ q :: rest).
  { cbn [skip_while]. rewrite bool_decide_eq_true_2 by done. destruct t as [|c t]; [done|].
    cbn [app skip_while]. apply Forall_cons in Hp as [Hp _]. by rewrite Hp. }
  rewrite Hskip. assert (Hfin : (length (pre ++ q :: t ++ q :: rest) - length (q :: t ++ q :: rest) +
    (length (q :: t ++ q :: rest) - length (t ++ q :: rest)) + length t = length (pre ++ q :: t))%nat).
  { rewrite !length_app. simpl. rewrite !length_app. simpl. lia. }
  rewrite Hfin. change (q :: t ++ q :: rest) with ((q :: t) ++ q :: rest). rewrite (app_assoc pre), <- app_assoc. cbn [app].
  rewrite buf_set_app. run. assert (nul_free (pre ++ q :: t)) by solve_nul_free.
  rewrite buf_str_held by done. run. eexists _, _; split; [done|]. split; [done|]. apply holds_intro; [done|].
  rewrite length_app in Ha. cbn [length] in Ha. rewrite length_app in Ha. cbn [length] in Ha.
  rewrite !length_app in *. cbn [length] in *. rewrite ?length_app in *. cbn [length] in *. lia.
Qed.

(** The next call finds the quote unbalanced: the arguments after a quoted one
    are lost. *)
Example str_read_token_loses_rest :
  let st := WString (Some (str "'a b' c" ++ [NUL])) 7 8 in
  (r ← str_read_token demo_malloc demo_realloc (Some st); str_read_token demo_malloc demo_realloc r.2)
    ⇓ (None, Some (WString (Some (str "'a b" ++ [NUL] ++ str " c" ++ [NUL])) 4 8)).
Proof. by vm_compute. Qed.

(** ** Where the code goes wrong *)

(** Truncating in a buffer of exactly [size] bytes reads past its end. *)
Lemma strlcat_truncation_overrun a rest src size :
  nul_free a → Z.of_nat (length a) < size ≤ Z.of_nat (length a + length src) →
  Z.to_nat size = (length a + 1 + length rest)%nat →
  strlcat (a ++ NUL :: rest) src size = Crash.
Proof.
  intros Ha Hs Hr. destruct (strlcat_truncates a rest src size Ha Hs ltac:(lia)) as (buf & Hbuf & ->).
  rewrite drop_ge; [done|]. rewrite Hbuf, length_app, length_take, length_app. simpl. rewrite length_drop. lia.
Qed.

(** [pos + len] wraps around. *)
Example str_erase_wraps :
  str_erase (Some demo_list) (2 ^ 64 - 1) 2 = Crash.
Proof. by vm_compute. Qed.

(** The copy of an empty string made from a raw buffer: there is no block. *)
Example str_dup_raw_empty :
  (st ← str_fromchar_raw (Some [NUL]); str_dup demo_malloc demo_realloc (Some st)) = Crash.
Proof. by vm_compute. Qed.

(** A raw string is told one byte less than it occupies; copied into a string
    with just as many bytes, its NUL goes past the end. *)
Example str_copy_raw_overrun :
  (src ← str_fromchar_raw (Some (str "abc" ++ [NUL]));
   str_copy demo_malloc demo_realloc (Some (WString (Some (str "xy" ++ [NUL])) 2 3)) (Some src)) = Crash.
Proof. by vm_compute. Qed.

(** ** Command lines *)

(** [str_tok] seen from its callers: the token is a null pointer at the end of
    the line, a string without a buffer when only delimiters are left (the line
    then stays as it is), and a string otherwise. *)
Definition tok_line (delim line : list ascii) : option (option (list ascii)) * list ascii :=
  match line with
  | [] => (None, [])
  | _ =>
    match strtok (λ c, bool_decide (c ∈ delim)) line with
    | (None, _) => (Some None, line)
    | (Some t, r) => (Some (Some t), r)
    end
  end.

(** What [str_tochar] of a token gives. *)
Definition token_is (tok : option wzd_string) (t : option (option (list ascii))) : Prop :=
  match t with
  | None => tok = None
  | Some None => tok = Some str_allocate
  | Some (Some t) => ∃ st, tok = Some st ∧ holds_str st t
  end.

(** The command line of the SITE commands: on a string that denotes [line],
    [str_tok] is defined, returns the token [tok_line] gives and leaves a string
    that denotes the rest. *)
Theorem str_tok_refines malloc realloc_ok st line delim :
  (∀ n, length (malloc n) = n) → (∀ n, realloc_ok n = true) → denotes st line → Z.of_nat (length line) + 1 < 2 ^ 53 →
  ∃ tok st', str_tok malloc realloc_ok (Some st) (Some delim) ⇓ (tok, Some st') ∧
    token_is tok (tok_line delim line).1 ∧ denotes st' (tok_line delim line).2.
Proof.
  intros Hm Hr Hst Hn. unfold tok_line. destruct line as [|c line].
  - exists None, st. split; [|done]. destruct Hst as [(rest & Hb & Hl & _)|[-> _]]; [|done].
    destruct st as [b n al]. simpl in Hb, Hl. by subst.
  - destruct Hst as [Hst|[_ ?]]; [|done].
    pose proof (str_tok_spec malloc realloc_ok Hm Hr st (c :: line) delim Hst Hn ltac:(done)) as Hs.
    destruct (strtok _ _) as [[t|] r].
    + destruct Hs as (tok & st' & -> & ? & ?). eexists _, _; split; [done|]. split; [by eexists|by left].
    + rewrite Hs. eexists _, _; split; [done|]. split; [done|by left].
Qed.

Lemma str_tok_refines_witness :
  (∃ tok st', str_tok demo_malloc demo_realloc (Some demo_list) (Some (str ",")) ⇓ (tok, Some st') ∧
    token_is tok (Some (Some (str "10"))) ∧ denotes st' (str "20,,30")).
Proof.
  apply (str_tok_refines demo_malloc demo_realloc demo_list (str "10,20,,30") (str ",") demo_malloc_size).
  - done.
  - left. apply demo_list_holds.
  - simpl. lia.
Defined.
