(* ===== verification/Config.v ===== *)
(** * Configuration files: libwzd-core/wzd_configfile.c

    A configuration file is a list of groups of keys, values and comments; the
    first group has no name and holds the comments at the top. The lists of the
    source ([CList] and [DList]) are functional lists here, the current group is
    its position in the list. The parse buffer is a growing string ([Str]), given
    by its contents, or [None] as long as nothing was ever appended to it: such a
    string has a null buffer and the length [(size_t)-1]. *)

From S2P Require Import Prelude Utf8.

Inductive cf_error :=
  | CF_OK
  | CF_ERROR_INVALID_ARGS
  | CF_ERROR_GROUP_NOT_FOUND
  | CF_ERROR_NO_CURRENT_GROUP
  | CF_ERROR_PARSE
  | CF_ERROR_NOT_FOUND
  | CF_ERROR_INVALID_ENCODING
  | CF_ERROR_FILE
  | CF_ERROR_KEY_ALREADY_EXISTS.

#[global] Instance cf_error_eq_dec : EqDecision cf_error.
Proof. solve_decision. Defined.

Abbreviation bytes := (list ascii).

(** A comment has no key. *)
Record keyvalue := KV { kv_key : option bytes; kv_value : bytes }.

(** The comment at the top of a group is a keyvalue without a key in the source. *)
Record cgroup := CGroup { cg_name : option bytes; cg_comment : option bytes; cg_values : list keyvalue }.

Record configfile := CFile {
  cf_groups : list cgroup;
  cf_buffer : option bytes;
  cf_current : option nat;
  cf_flags : Z }.

#[global] Instance keyvalue_eq_dec : EqDecision keyvalue.
Proof. solve_decision. Defined.
#[global] Instance cgroup_eq_dec : EqDecision cgroup.
Proof. solve_decision. Defined.
#[global] Instance configfile_eq_dec : EqDecision configfile.
Proof. solve_decision. Defined.

Definition CF_FILE_NONE : Z := 0.
Definition CF_FILE_MERGE_MULTIPLE : Z := 1.

Definition with_groups (c : configfile) gs := CFile gs (cf_buffer c) (cf_current c) (cf_flags c).
Definition with_buffer (c : configfile) b := CFile (cf_groups c) b (cf_current c) (cf_flags c).
Definition with_flags (c : configfile) f := CFile (cf_groups c) (cf_buffer c) (cf_current c) f.
Definition with_values (g : cgroup) vs := CGroup (cg_name g) (cg_comment g) vs.
Definition with_comment (g : cgroup) cm := CGroup (cg_name g) cm (cg_values g).

Definition group_init (name : option bytes) : cgroup := CGroup name None [].

(** [config_new] and [config_init]. *)
Definition config_new : configfile := CFile [group_init None] None (Some O) CF_FILE_NONE.

(** ** Lookups *)

(** The position of the first element that satisfies [P]. *)
Fixpoint position {A} (P : A → bool) (l : list A) : option nat :=
  match l with [] => None | x :: l => if P x then Some O else S <$> position P l end.

Definition has_name (name : bytes) (g : cgroup) : bool := match cg_name g with Some n => streq n name | None => false end.
Definition has_key (key : bytes) (kv : keyvalue) : bool := match kv_key kv with Some k => streq k key | None => false end.

Definition config_lookup_group (c : configfile) (groupname : bytes) : option nat := position (has_name groupname) (cf_groups c).
Definition config_lookup_keyvalue (g : cgroup) (key : bytes) : option nat := position (has_key key) (cg_values g).

(** The array, without the null pointer that ends it; [None] is [STR(NULL)], a
    string without a buffer. *)
Definition config_get_groups (file : option configfile) : option (list (option bytes)) :=
  c ← file; Some (cg_name <$> cf_groups c).

(** The second result is what [*errcode] is set to, when it is. *)
Definition config_get_keys (file : option configfile) (groupname : option bytes) : option (list (option bytes)) * option cf_error :=
  match file, groupname with
  | Some c, Some g =>
    match config_lookup_group c g ≫= (cf_groups c !!.) with
    | None => (None, Some CF_ERROR_GROUP_NOT_FOUND)
    | Some group => (Some (kv_key <$> cg_values group), None)
    end
  | _, _ => (None, None)
  end.

Definition config_has_group (file : option configfile) (groupname : option bytes) : Z :=
  match file, groupname with
  | Some c, Some g => match config_lookup_group c g with Some _ => 1 | None => 0 end
  | _, _ => 0
  end.

Definition config_has_key (file : option configfile) (groupname key : option bytes) : Z :=
  match file, groupname, key with
  | Some c, Some g, Some k =>
    match config_lookup_group c g ≫= (cf_groups c !!.) with
    | None => 0
    | Some group => match config_lookup_keyvalue group k with Some _ => 1 | None => 0 end
    end
  | _, _, _ => 0
  end.

Definition config_get_value (file : option configfile) (groupname key : option bytes) : option bytes :=
  c ← file; g ← groupname; k ← key;
  i ← config_lookup_group c g; group ← cf_groups c !! i;
  j ← config_lookup_keyvalue group k; kv ← cg_values group !! j;
  Some (kv_value kv).

(** ** Adding keys and groups *)

Definition set_kv_value (kv : keyvalue) (v : bytes) : keyvalue := KV (kv_key kv) v.
Definition alter_group (f : cgroup → cgroup) (i : nat) (c : configfile) : configfile := with_groups c (alter f i (cf_groups c)).
Definition append_value (kv : keyvalue) (g : cgroup) : cgroup := with_values g (cg_values g ++ [kv]).

(** The group is given by its position. *)
Definition config_add_key (c : configfile) (gi : nat) (key value : bytes) : cf_error * configfile :=
  match cf_groups c !! gi with
  | None => (CF_ERROR_INVALID_ARGS, c)
  | Some group =>
    match config_lookup_keyvalue group key with
    | Some j =>
      if negb (Z.land (cf_flags c) CF_FILE_MERGE_MULTIPLE =? 0) then
        (CF_OK, alter_group (λ g, with_values g (alter (λ kv, set_kv_value kv (kv_value kv ++ str ", " ++ value)) j (cg_values g))) gi c)
      else (CF_ERROR_KEY_ALREADY_EXISTS, c)
    | None => (CF_OK, alter_group (append_value (KV (Some key) value)) gi c)
    end
  end.

(** The new group becomes the current one. *)
Definition config_add_group (c : configfile) (groupname : bytes) : cf_error * configfile :=
  (CF_OK, CFile (cf_groups c ++ [group_init (Some groupname)]) (cf_buffer c) (Some (length (cf_groups c))) (cf_flags c)).

Definition config_set_value (file : option configfile) (groupname key value : option bytes) : cf_error * option configfile :=
  match file, groupname, key, value with
  | Some c, Some g, Some k, Some v =>
    let c := match config_lookup_group c g with Some _ => c | None => (config_add_group c g).2 end in
    match config_lookup_group c g with
    | None => (CF_ERROR_GROUP_NOT_FOUND, Some c)
    | Some i =>
      match (group ← cf_groups c !! i; config_lookup_keyvalue group k) with
      | None => let '(ret, c) := config_add_key c i k v in (ret, Some c)
      | Some j => (CF_OK, Some (alter_group (λ g, with_values g (alter (λ kv, set_kv_value kv v) j (cg_values g))) i c))
      end
    end
  | _, _, _, _ => (CF_ERROR_INVALID_ARGS, file)
  end.

(** ** Values of several types *)

(** [*errcode], when it is set, and the value. *)
Definition config_get_string (file : option configfile) (groupname key : option bytes) : option cf_error * option bytes :=
  match file, groupname, key with
  | Some _, Some _, Some _ =>
    match config_get_value file groupname key with
    | None => (Some CF_ERROR_NOT_FOUND, None)
    | Some value => if utf8_valid value then (Some CF_OK, Some value) else (Some CF_ERROR_INVALID_ENCODING, None)
    end
  | _, _, _ => (None, None)
  end.

(** [value] is what [str_tochar] gives: nothing for a null string or one without
    a buffer. *)
Definition config_set_string (file : option configfile) (groupname key value : option bytes) : cf_error * option configfile :=
  match file, groupname, key with
  | Some _, Some _, Some _ => config_set_value file groupname key value
  | _, _, _ => (CF_ERROR_INVALID_ARGS, file)
  end.

(** [str_split(value,",",0)] on contents: the pieces before a comma, and the rest. *)
Fixpoint split_commas (s : bytes) : list bytes * bytes :=
  match s with
  | [] => ([], [])
  | ch :: s =>
    let '(l, r) := split_commas s in
    if bool_decide (ch = ","%char) then ([] :: l, r)
    else match l with [] => ([], ch :: r) | t :: l => ((ch :: t) :: l, r) end
  end.

Definition config_get_string_list (file : option configfile) (groupname key : option bytes) : option cf_error * option (list bytes) :=
  match file, groupname, key with
  | Some _, Some _, Some _ =>
    match config_get_value file groupname key with
    | None => (Some CF_ERROR_NOT_FOUND, None)
    | Some value =>
      if utf8_valid value then
        let '(l, r) := split_commas value in
        (Some CF_OK, Some (skip_spaces <$> (l ++ match r with [] => [] | _ => [r] end)))
      else (Some CF_ERROR_INVALID_ENCODING, None)
    end
  | _, _, _ => (None, None)
  end.

(** [values] is the array without the null pointer that ends it. When it is
    empty nothing was appended: the string has no buffer. *)
Definition config_set_string_list (file : option configfile) (groupname key : option bytes) (values : list bytes) (len : nat)
    : cf_error * option configfile :=
  match file, groupname, key with
  | Some _, Some _, Some _ =>
    let text := match take len values with
                | [] => None
                | vs => let s := concat (map (λ v, v ++ str ",") vs) in Some (take (length s - 1) s)
                end in
    config_set_value file groupname key text
  | _, _, _ => (CF_ERROR_INVALID_ARGS, file)
  end.

Definition config_get_boolean (file : option configfile) (groupname key : option bytes) : cf_error * Z :=
  match config_get_value file groupname key with
  | None => (CF_ERROR_NOT_FOUND, -1)
  | Some value =>
    if streq value (str "true") || streq value (str "1") || streq value (str "yes") then (CF_OK, 1)
    else if streq value (str "false") || streq value (str "0") || streq value (str "no") then (CF_OK, 0)
    else (CF_ERROR_PARSE, -1)
  end.

Definition config_set_boolean (file : option configfile) (groupname key : option bytes) (value : Z) : cf_error * option configfile :=
  match file, groupname, key with
  | Some _, Some _, Some _ => config_set_value file groupname key (Some (if negb (value =? 0) then str "true" else str "false"))
  | _, _, _ => (CF_ERROR_INVALID_ARGS, file)
  end.

(** Conversions to [int] and to 64-bit [long]. *)
Definition to_int (z : Z) : Z := let w := u32 z in if w <? 2 ^ 31 then w else w - 2 ^ 32.
Definition to_long (z : Z) : Z := let w := u64 z in if w <? 2 ^ 63 then w else w - 2 ^ 64.

(** Whether [strtoul] sets [errno] to [ERANGE]: the digits exceed [ULONG_MAX]. *)
Definition strtoul_range (s : bytes) : bool :=
  let s := skip_spaces s in
  let s := match s with c :: s' => if bool_decide (c = "-"%char) || bool_decide (c = "+"%char) then s' else s | [] => [] end in
  ULONG_MAX <? (digits_value 0 s).1.

(** [erange] says whether [errno] is [ERANGE] when the function is called. *)
Definition config_get_integer (erange : bool) (file : option configfile) (groupname key : option bytes) : cf_error * Z :=
  match config_get_value file groupname key with
  | None => (CF_ERROR_NOT_FOUND, -1)
  | Some value =>
    let '(v, rest) := strtoul value in
    let longv := to_long v in
    if bool_decide (value = []) || negb (bool_decide (rest = [])) then (CF_ERROR_PARSE, -1)
    else if negb (to_int longv =? longv) || (erange || strtoul_range value) then (CF_ERROR_PARSE, -1)
    else (CF_OK, to_int longv)
  end.

(** [printf("%d")]. *)
Definition print_int (v : Z) : bytes := if v <? 0 then "-"%char :: print_in 10 10 (- v) [] else print_in 10 10 v [].

Definition config_set_integer (file : option configfile) (groupname key : option bytes) (value : Z) : cf_error * option configfile :=
  match file, groupname, key with
  | Some _, Some _, Some _ => config_set_value file groupname key (Some (print_int value))
  | _, _, _ => (CF_ERROR_INVALID_ARGS, file)
  end.

(** ** Comments *)

(** [line] is a C string: its first character is NUL when it is empty. *)
Definition config_line_is_comment (line : bytes) : bool :=
  match cstring line with [] => true | ch :: _ => bool_decide (ch = "#"%char) || bool_decide (ch = LF) end.

Definition is_comment_kv (kv : keyvalue) : bool := match kv_key kv with None => true | Some _ => false end.

(** The elements before a key, without the comments right before it. *)
Fixpoint drop_comments (rev_before : list keyvalue) : list keyvalue :=
  match rev_before with
  | kv :: l => if is_comment_kv kv then drop_comments l else rev_before
  | [] => []
  end.
Definition strip_comments (before : list keyvalue) : list keyvalue := reverse (drop_comments (reverse before)).

Definition config_set_key_comment (c : configfile) (groupname key : bytes) (comment : option bytes) : cf_error * configfile :=
  match config_lookup_group c groupname with
  | None => (CF_ERROR_GROUP_NOT_FOUND, c)
  | Some i =>
    match (group ← cf_groups c !! i; config_lookup_keyvalue group key) with
    | None => (CF_ERROR_NOT_FOUND, c)
    | Some j =>
      let put kvs := alter_group (λ g, with_values g (strip_comments (take j (cg_values g)) ++ kvs ++ drop j (cg_values g))) i c in
      match comment with
      | None => (CF_OK, put [])
      | Some text => (CF_ERROR_PARSE, put [KV None text])
      end
    end
  end.

Definition config_set_group_comment (c : configfile) (groupname : bytes) (comment : option bytes) : cf_error * configfile :=
  match config_lookup_group c groupname with
  | None => (CF_ERROR_GROUP_NOT_FOUND, c)
  | Some i =>
    let c := alter_group (λ g, with_comment g None) i c in
    match comment with
    | None => (CF_OK, c)
    | Some text =>
      if config_line_is_comment text then (CF_OK, alter_group (λ g, with_comment g (Some text)) i c) else (CF_ERROR_PARSE, c)
    end
  end.

(** The first group is dereferenced without a check. *)
Definition config_set_top_comment (c : configfile) (comment : option bytes) : outcome (cf_error * configfile) :=
  group ← deref (cf_groups c !! O);
  match cg_name group with
  | Some _ => Val (CF_ERROR_INVALID_ARGS, c)
  | None =>
    let c := alter_group (λ g, with_values g []) O c in
    match comment with
    | None => Val (CF_OK, c)
    | Some text =>
      if config_line_is_comment text then Val (CF_OK, alter_group (append_value (KV None text)) O c) else Val (CF_ERROR_PARSE, c)
    end
  end.

Definition config_set_comment (file : option configfile) (groupname key comment : option bytes) : outcome (cf_error * option configfile) :=
  match file with
  | None => Val (CF_ERROR_INVALID_ARGS, file)
  | Some c =>
    '(ret, c) ← match groupname, key with
                | Some g, Some k => Val (config_set_key_comment c g k comment)
                | Some g, None => Val (config_set_group_comment c g comment)
                | None, _ => config_set_top_comment c comment
                end;
    Val (ret, Some c)
  end.

Definition config_remove_comment (file : option configfile) (groupname key : option bytes) : outcome (cf_error * option configfile) :=
  match file with
  | None => Val (CF_ERROR_INVALID_ARGS, file)
  | Some c =>
    '(ret, c) ← match groupname, key with
                | Some g, Some k => Val (config_set_key_comment c g k None)
                | Some g, None => Val (config_set_group_comment c g None)
                | None, _ => config_set_top_comment c None
                end;
    Val (ret, Some c)
  end.

(** ** Removal *)

Definition config_remove_key (file : option configfile) (groupname key : option bytes) : cf_error * option configfile :=
  match file, groupname, key with
  | Some c, Some g, Some k =>
    match config_lookup_group c g with
    | None => (CF_ERROR_GROUP_NOT_FOUND, file)
    | Some i =>
      match (group ← cf_groups c !! i; config_lookup_keyvalue group k) with
      | None => (CF_ERROR_NOT_FOUND, file)
      | Some j => (CF_OK, Some (alter_group (λ g, with_values g (delete j (cg_values g))) i c))
      end
    end
  | _, _, _ => (CF_ERROR_INVALID_ARGS, file)
  end.

(** The groups after the removed one move down by one position; when the current
    group is removed the first becomes current, unless it is the one removed. *)
Definition config_remove_group (file : option configfile) (groupname : option bytes) : cf_error * option configfile :=
  match file, groupname with
  | Some c, Some g =>
    match config_lookup_group c g with
    | None => (CF_ERROR_GROUP_NOT_FOUND, file)
    | Some i =>
      let current := match cf_current c with
                     | None => None
                     | Some k => if (k =? i)%nat then (if (i =? 0)%nat then None else Some O)
                                 else if (i <? k)%nat then Some (pred k) else Some k
                     end in
      (CF_OK, Some (CFile (delete i (cf_groups c)) (cf_buffer c) current (cf_flags c)))
    end
  | _, _ => (CF_ERROR_INVALID_ARGS, file)
  end.

(** ** Parsing *)

(** [wzd_strndup(s,n)], [s] being given by the bytes from it on. *)
Definition strndup (s : bytes) (n : Z) : bytes := take (Z.to_nat (Z.min n (Z.of_nat (length s)))) (cstring s).

Definition config_parse_comment (c : configfile) (line : bytes) (len : Z) : cf_error * configfile :=
  match cf_current c with
  | None => (CF_ERROR_NO_CURRENT_GROUP, c)
  | Some i => (CF_OK, alter_group (append_value (KV None (strndup line len))) i c)
  end.

Definition config_line_is_group (line : bytes) : bool :=
  match cstring line with ch :: s => bool_decide (ch = "["%char) && strchr (ch :: s) "]"%char | [] => false end.

(** [*p == line[0]]: the first character is the equals sign. *)
Definition config_line_is_keyvalue (line : bytes) : bool :=
  let s := cstring line in
  strchr s "="%char && match s with ch :: _ => negb (bool_decide (ch = "="%char)) | [] => false end.

(** [while ( *p != ']') p--], from the [n]-th byte of the line back. *)
Fixpoint find_back (n : nat) (line : bytes) : outcome nat :=
  ch ← deref ((line ++ [NUL]) !! n);
  if bool_decide (ch = "]"%char) then Val n else match n with O => Crash | S n => find_back n line end.

Definition config_parse_group (c : configfile) (line : bytes) (len : Z) : outcome (cf_error * configfile) :=
  if len <? 1 then Crash else
  name_end ← find_back (Z.to_nat (len - 1)) line;
  let groupname := strndup (drop 1 line) (u64 (Z.of_nat name_end - 1)) in
  Val (CF_OK, (config_add_group c groupname).2).

(** [while (isspace( *p)) p--] from the [n]-th byte. *)
Fixpoint back_spaces (n : nat) (line : bytes) : outcome nat :=
  ch ← deref (line !! n);
  if isspace ch then match n with O => Crash | S n => back_spaces n line end else Val n.

(** [while (len > 0 && isspace(start[len-1])) len--]: [len] is a [size_t], and
    the address wraps. *)
Fixpoint back_value (fuel : nat) (line : bytes) (start len : Z) : outcome Z :=
  if 0 <? len then
    ch ← deref ((line ++ [NUL]) !! Z.to_nat (u64 (start + len - 1)));
    if isspace ch then match fuel with O => Crash | S fuel => back_value fuel line start (len - 1) end else Val len
  else Val len.

Definition config_parse_keyvalue (c : configfile) (line : bytes) (len : Z) : outcome (cf_error * configfile) :=
  match cf_current c with
  | None => Val (CF_ERROR_NO_CURRENT_GROUP, c)
  | Some i =>
    group ← deref (cf_groups c !! i);
    if bool_decide (cg_name group = None) then Val (CF_ERROR_NO_CURRENT_GROUP, c) else
    match position (λ ch, bool_decide (ch = "="%char)) (cstring line) with
    | None => Val (CF_ERROR_PARSE, c)
    | Some O => Crash
    | Some (S e) =>
      key_end ← back_spaces e line;
      let key_len := Z.of_nat key_end + 2 in
      if len <? key_len then Val (CF_ERROR_PARSE, c) else
      let key := strndup line (key_len - 1) in
      let after := drop (S (S e)) line in
      let value_start := Z.of_nat (S (S e) + (length after - length (skip_spaces after))) in
      value_len ← back_value (length line) line value_start (u64 (len - value_start));
      let value := strndup (drop (Z.to_nat value_start) line) value_len in
      Val (config_add_key c i key value)
    end
  end.

(** [line] is [None] for a null pointer. *)
Definition config_parse_line (c : configfile) (line : option bytes) : outcome (cf_error * configfile) :=
  match line with
  | None => Val (CF_ERROR_INVALID_ARGS, c)
  | Some line =>
    let len := Z.of_nat (length line) in
    let line_start := skip_spaces line in
    let indent := len - Z.of_nat (length line_start) in
    if config_line_is_comment line_start then Val (config_parse_comment c line len)
    else if config_line_is_group line_start then config_parse_group c line (len - indent)
    else if config_line_is_keyvalue line_start then config_parse_keyvalue c line (len - indent)
    else Val (CF_ERROR_PARSE, c)
  end.

(** [str_length(parse_buffer) > 0], and the last character of the buffer. *)
Definition buffer_nonempty (b : option bytes) : bool := match b with Some [] => false | _ => true end.
Definition buffer_last (b : option bytes) : outcome (option ascii) := s ← deref b; Val (last s).
Definition erase_last (b : option bytes) : option bytes := (λ s, take (length s - 1) s) <$> b.

Definition config_parse_flush_buffer (c : configfile) : outcome (cf_error * configfile) :=
  if buffer_nonempty (cf_buffer c) then
    '(ret, c) ← config_parse_line c (cf_buffer c);
    Val (ret, with_buffer c ((λ _, []) <$> cf_buffer c))
  else Val (CF_OK, c).

(** What a newline does; [first] says that it is the first byte of the data. *)
Definition parse_newline (first : bool) (c : configfile) : outcome (cf_error * configfile) :=
  l ← (if first then Val None else buffer_last (cf_buffer c));
  let c := if bool_decide (l = Some CR) then with_buffer c (erase_last (cf_buffer c)) else c in
  l ← (if first then Val None else buffer_last (cf_buffer c));
  if bool_decide (l = Some "092"%char) then Val (CF_OK, with_buffer c (erase_last (cf_buffer c)))
  else if buffer_nonempty (cf_buffer c) then config_parse_flush_buffer c
  else Val (config_parse_comment c [] 1).

Fixpoint parse_loop (first : bool) (c : configfile) (data : bytes) : outcome (cf_error * configfile) :=
  match data with
  | [] => Val (CF_OK, c)
  | ch :: data =>
    if bool_decide (ch = LF) then
      '(ret, c) ← parse_newline first c;
      if bool_decide (ret = CF_OK) then parse_loop false c data else Val (ret, c)
    else parse_loop false (with_buffer c (Some (default [] (cf_buffer c) ++ [ch]))) data
  end.

Definition config_parse_data (c : configfile) (data : bytes) : outcome (cf_error * configfile) := parse_loop true c data.

(** ** Loading and printing *)

(** The whole of [data] is loaded; the value of the last flush is not looked at. *)
Definition config_load_from_data (file : option configfile) (data : option bytes) (flags : Z) : outcome (cf_error * option configfile) :=
  match file, data with
  | Some c, Some (ch :: data) =>
    '(ret, c) ← config_parse_data (with_flags c flags) (ch :: data);
    if bool_decide (ret = CF_OK) then '(_, c) ← config_parse_flush_buffer c; Val (CF_OK, Some c) else Val (ret, Some c)
  | _, _ => Val (CF_ERROR_INVALID_ARGS, file)
  end.

(** What the calls of [read] give until the end of the file: some bytes, or an
    error, which [EINTR] and [EAGAIN] ask to retry. *)
Inductive read_result := ReadBytes (bs : bytes) | ReadError (retry : bool).

Fixpoint read_loop (c : configfile) (reads : list read_result) : outcome (cf_error * configfile) :=
  match reads with
  | [] => Val (CF_OK, c)
  | ReadBytes [] :: _ => Val (CF_OK, c)
  | ReadError true :: reads => read_loop c reads
  | ReadError false :: _ => Val (CF_ERROR_PARSE, c)
  | ReadBytes bs :: reads =>
    '(ret, c) ← config_parse_data c bs;
    if bool_decide (ret = CF_OK) then read_loop c reads else Val (ret, c)
  end.

(** [st] is what [fstat] gives: whether the file is a regular one, and its size. *)
Definition config_load_from_fd (file : option configfile) (fd : Z) (st : option (bool * Z)) (reads : list read_result) (flags : Z)
    : outcome (cf_error * option configfile) :=
  match file with
  | None => Val (CF_ERROR_INVALID_ARGS, file)
  | Some c =>
    if fd <? 0 then Val (CF_ERROR_INVALID_ARGS, file) else
    match st with
    | None => Val (CF_ERROR_FILE, file)
    | Some (false, _) => Val (CF_ERROR_FILE, file)
    | Some (true, size) =>
      if size =? 0 then Val (CF_ERROR_PARSE, file) else
      '(ret, c) ← read_loop (with_flags c flags) reads;
      if bool_decide (ret = CF_OK) then '(_, c) ← config_parse_flush_buffer c; Val (CF_OK, Some c) else Val (ret, Some c)
    end
  end.

(** [fd] is what [open] returns. *)
Definition config_load_from_file (file : option configfile) (name : option bytes) (fd : Z) (st : option (bool * Z)) (reads : list read_result)
    (flags : Z) : outcome (cf_error * option configfile) :=
  match file, name with
  | Some _, Some _ => if fd <? 0 then Val (CF_ERROR_FILE, file) else config_load_from_fd file fd st reads flags
  | _, _ => Val (CF_ERROR_INVALID_ARGS, file)
  end.

Definition kv_line (kv : keyvalue) : bytes :=
  match kv_key kv with Some k => k ++ str " = " ++ kv_value kv ++ [LF] | None => kv_value kv ++ [LF] end.
Definition group_lines (g : cgroup) : bytes :=
  match cg_comment g with Some t => t ++ [LF] | None => [] end ++
  match cg_name g with Some n => "["%char :: n ++ "]"%char :: [LF] | None => [] end ++
  concat (map kv_line (cg_values g)).

(** The text, and [*length]: a string to which nothing was appended has no
    buffer. *)
Definition config_to_data (file : option configfile) : option (option bytes * Z) :=
  c ← file;
  match concat (map group_lines (cf_groups c)) with
  | [] => Some (None, u64 (-1))
  | text => Some (Some text, Z.of_nat (length text))
  end.
