(* ===== verification/ConfigProps.v ===== *)
(** * Properties of configuration files *)

From S2P Require Import Prelude Utf8 Config.

(** ** Lists searched by a key *)

Section keyed.
  Context {A : Type} (kf : A → option bytes).

Definition hit (k : bytes) (x : A) : bool := match kf x with Some n => streq n k | None => false end.
Definition look (l : list A) (k : bytes) : option A := i ← position (hit k) l; l !! i.

Lemma hit_true k x : hit k x = true ↔ kf x = Some k.
Proof.
  unfold hit. destruct (kf x) as [n|]; [|naive_solver]. unfold streq. rewrite bool_decide_eq_true. naive_solver.
Qed.
Lemma hit_false k x : hit k x = false ↔ kf x ≠ Some k.
Proof. rewrite <- hit_true. destruct (hit k x); naive_solver. Qed.

Lemma look_cons x l k : look (x :: l) k = if hit k x then Some x else look l k.
Proof. unfold look. simpl. destruct (hit k x); [done|]. by destruct (position (hit k) l). Qed.

Lemma position_look k l i : position (hit k) l = Some i → ∃ x, l !! i = Some x ∧ look l k = Some x ∧ kf x = Some k.
Proof.
  revert i. induction l as [|x l IH]; intros i; simpl; [done|]. rewrite look_cons. destruct (hit k x) eqn:E.
  - intros [= <-]. exists x. by rewrite hit_true in E.
  - destruct (position (hit k) l) as [j|]; [|done]. intros [= <-]. exact (IH j eq_refl).
Qed.
Lemma position_None k l : position (hit k) l = None ↔ look l k = None.
Proof.
  split; [unfold look; by intros ->|]. destruct (position (hit k) l) as [i|] eqn:E; [|done].
  apply position_look in E as (x & _ & -> & _). done.
Qed.
Lemma look_elem k l x : look l k = Some x → x ∈ l ∧ kf x = Some k.
Proof.
  induction l as [|y l IH]; [done|]. rewrite look_cons. destruct (hit k y) eqn:E.
  - intros [= ->]. apply hit_true in E. split; [left|done].
  - intros [? ?]%IH. split; [by right|done].
Qed.

Lemma look_snoc x l k k' :
  look l k = None → kf x = Some k → look (l ++ [x]) k' = if decide (k = k') then Some x else look l k'.
Proof.
  intros Hn Hx. induction l as [|y l IH]; simpl.
  - rewrite look_cons. case_decide as E; [subst; by rewrite (proj2 (hit_true _ _))|].
    rewrite (proj2 (hit_false k' x)); [done|congruence].
  - rewrite !look_cons in *. destruct (hit k y) eqn:E; [done|]. rewrite (IH Hn).
    destruct (hit k' y) eqn:E'; [|done]. case_decide; [|done]. congruence.
Qed.

Lemma look_alter f k l i k' :
  position (hit k) l = Some i → (∀ x, kf (f x) = kf x) →
  look (alter f i l) k' = if decide (k = k') then f <$> look l k else look l k'.
Proof.
  intros H Hf. assert (Hh : ∀ k x, hit k (f x) = hit k x) by (intros; unfold hit; by rewrite Hf).
  revert i H. induction l as [|y l IH]; intros i; simpl; [done|].
  destruct (hit k y) eqn:E; [intros [= <-]|destruct (position (hit k) l) as [j|]; [|done]; intros [= <-]].
  - change (alter f 0%nat (y :: l)) with (f y :: l). rewrite !look_cons, Hh, E. case_decide; [subst; by rewrite E|].
    apply hit_true in E. rewrite (proj2 (hit_false k' y)) by congruence. done.
  - change (alter f (S j) (y :: l)) with (y :: alter f j l). rewrite !look_cons, E, (IH j eq_refl).
    case_decide; [subst; by rewrite E|done].
Qed.

Lemma look_NoDup k l : k ∉ omap kf l → look l k = None.
Proof.
  induction l as [|y l IH]; [done|]. intros Hn. rewrite look_cons. simpl in Hn. destruct (hit k y) eqn:E.
  - apply hit_true in E. rewrite E in Hn. set_solver.
  - apply IH. destruct (kf y); set_solver.
Qed.

Lemma look_delete k l i k' :
  NoDup (omap kf l) → position (hit k) l = Some i → look (delete i l) k' = if decide (k = k') then None else look l k'.
Proof.
  intros Hnd H. revert i H. induction l as [|y l IH]; intros i; simpl; [done|].
  destruct (hit k y) eqn:E; [intros [= <-]|destruct (position (hit k) l) as [j|]; [|done]; intros [= <-]].
  - apply hit_true in E. simpl in Hnd. rewrite E in Hnd. apply NoDup_cons in Hnd as [Hk _].
    change (delete 0%nat (y :: l)) with l. case_decide; [subst; by apply look_NoDup|].
    rewrite look_cons, (proj2 (hit_false k' y)) by congruence. done.
  - change (delete (S j) (y :: l)) with (y :: delete j l). rewrite !look_cons. rewrite (IH) with (i := j); [|by simpl in Hnd; destruct (kf y); [apply NoDup_cons in Hnd as [_ ?]|]|done].
    case_decide; [subst; by rewrite E|done].
Qed.

Lemma omap_alter f (i : nat) (l : list A) : (∀ x, kf (f x) = kf x) → omap kf (alter f i l) = omap kf l.
Proof.
  intros Hf. revert i. induction l as [|y l IH]; intros [|i]; [done..| |].
  - change (alter f 0%nat (y :: l)) with (f y :: l). simpl. by rewrite Hf.
  - change (alter f (S i) (y :: l)) with (y :: alter f i l). simpl. by rewrite IH.
Qed.
Lemma omap_delete (i : nat) (l : list A) : omap kf (delete i l) `sublist_of` omap kf l.
Proof.
  revert i. induction l as [|y l IH]; intros [|i]; simpl; [done..| |].
  - by destruct (kf y); repeat constructor.
  - destruct (kf y); [constructor|]; apply IH.
Qed.
Lemma omap_snoc_NoDup x (l : list A) k : look l k = None → kf x = Some k → NoDup (omap kf l) → NoDup (omap kf (l ++ [x])).
Proof.
  intros Hn Hx Hnd. rewrite omap_app. simpl. rewrite Hx. apply NoDup_app. split_and!; [done| |apply NoDup_singleton].
  intros k' Hk' ->%list_elem_of_singleton. apply list_elem_of_omap in Hk' as (y & Hy & Hk). clear Hnd.
  induction l as [|z l IH]; [by apply not_elem_of_nil in Hy|]. rewrite look_cons in Hn. destruct (hit k z) eqn:E; [done|].
  apply elem_of_cons in Hy as [->|Hy]; [by apply hit_false in E|by apply IH].
Qed.
End keyed.

(** ** Groups and keys as a map *)

Abbreviation group_of c := (look cg_name (cf_groups c)).
Abbreviation key_of g := (look kv_key (cg_values g)).

Lemma get_value_look c g k :
  config_get_value (Some c) (Some g) (Some k) = (group ← group_of c g; kv ← key_of group k; Some (kv_value kv)).
Proof.
  unfold config_get_value, config_lookup_group, config_lookup_keyvalue. simpl.
  change (has_name g) with (hit cg_name g). unfold look. destruct (position (hit cg_name g) (cf_groups c)) as [n|]; [|done]. simpl.
  destruct (cf_groups c !! n) as [group|]; [|done]. simpl. change (has_key k) with (hit kv_key k).
  by destruct (position (hit kv_key k) (cg_values group)).
Qed.

Inductive cf_op :=
  | OpSet (g k v : bytes)
  | OpGet (g k : bytes)
  | OpHasGroup (g : bytes)
  | OpHasKey (g k : bytes)
  | OpRemoveKey (g k : bytes)
  | OpRemoveGroup (g : bytes).

Inductive cf_reply := Code (e : cf_error) | Value (v : option bytes) | Flag (z : Z).

Definition config_do (o : cf_op) (c : configfile) : cf_reply * option configfile :=
  match o with
  | OpSet g k v => let '(e, c) := config_set_value (Some c) (Some g) (Some k) (Some v) in (Code e, c)
  | OpGet g k => (Value (config_get_value (Some c) (Some g) (Some k)), Some c)
  | OpHasGroup g => (Flag (config_has_group (Some c) (Some g)), Some c)
  | OpHasKey g k => (Flag (config_has_key (Some c) (Some g) (Some k)), Some c)
  | OpRemoveKey g k => let '(e, c) := config_remove_key (Some c) (Some g) (Some k) in (Code e, c)
  | OpRemoveGroup g => let '(e, c) := config_remove_group (Some c) (Some g) in (Code e, c)
  end.

Fixpoint config_run (os : list cf_op) (c : configfile) : list cf_reply * option configfile :=
  match os with
  | [] => ([], Some c)
  | o :: os =>
    match config_do o c with
    | (r, Some c) => let '(rs, c) := config_run os c in (r :: rs, c)
    | (r, None) => ([r], None)
    end
  end.

(** The specification: a finite map from the names of the groups to finite maps
    from keys to values. *)
Abbreviation cf_map := (gmap bytes (gmap bytes bytes)).

Definition flag_of {A} (o : option A) : cf_reply := Flag (match o with Some _ => 1 | None => 0 end).

Definition map_do (o : cf_op) (m : cf_map) : cf_reply * cf_map :=
  match o with
  | OpSet g k v => (Code CF_OK, <[g := <[k := v]> (default ∅ (m !! g))]> m)
  | OpGet g k => (Value (m !! g ≫= (.!! k)), m)
  | OpHasGroup g => (flag_of (m !! g), m)
  | OpHasKey g k => (flag_of (m !! g ≫= (.!! k)), m)
  | OpRemoveKey g k =>
    match m !! g with
    | None => (Code CF_ERROR_GROUP_NOT_FOUND, m)
    | Some keys => match keys !! k with
                   | None => (Code CF_ERROR_NOT_FOUND, m)
                   | Some _ => (Code CF_OK, <[g := delete k keys]> m)
                   end
    end
  | OpRemoveGroup g => match m !! g with None => (Code CF_ERROR_GROUP_NOT_FOUND, m) | Some _ => (Code CF_OK, delete g m) end
  end.

Fixpoint map_run (os : list cf_op) (m : cf_map) : list cf_reply * cf_map :=
  match os with
  | [] => ([], m)
  | o :: os => let '(r, m) := map_do o m in let '(rs, m) := map_run os m in (r :: rs, m)
  end.

(** ** The invariant *)

(** A group agrees with a map from keys to values. *)
Definition group_rel (group : cgroup) (keys : gmap bytes bytes) : Prop :=
  NoDup (omap kv_key (cg_values group)) ∧ ∀ k, kv_value <$> key_of group k = keys !! k.

(** The first group has no name, the current group is one of the groups, groups
    have distinct names and agree with the map. *)
Definition cf_wf (c : configfile) : Prop :=
  (∃ g, cf_groups c !! O = Some g ∧ cg_name g = None) ∧ (∃ i, cf_current c = Some i ∧ (i < length (cf_groups c))%nat).

Definition cf_rel (c : configfile) (m : cf_map) : Prop :=
  cf_wf c ∧ NoDup (omap cg_name (cf_groups c)) ∧ ∀ g, option_Forall2 group_rel (group_of c g) (m !! g).

Lemma alter_group_rel c m i g f group keys keys' :
  cf_rel c m → config_lookup_group c g = Some i → m !! g = Some keys → group_of c g = Some group →
  (∀ x, cg_name (f x) = cg_name x) → group_rel (f group) keys' → cf_rel (alter_group f i c) (<[g := keys']> m).
Proof.
  intros ([(g0 & Hg0 & Hn0) (cur & Hcur & Hlt)] & Hnd & Hrel) Hi Hm Hg Hf Hr. split; [split|split].
  - simpl. destruct (decide (i = O)) as [->|Hi0].
    + exists (f g0). by rewrite list_lookup_alter_eq, Hg0, Hf.
    + exists g0. by rewrite list_lookup_alter_ne.
  - exists cur. simpl. by rewrite length_alter.
  - simpl. by rewrite omap_alter.
  - intros g'. simpl. rewrite (look_alter cg_name f g) by done. case_decide as E; [subst; rewrite lookup_insert_eq, Hg; by constructor|].
    by rewrite lookup_insert_ne.
Qed.

Lemma lookup_group_rel c m g :
  cf_rel c m → match m !! g with
               | Some keys => ∃ i group, config_lookup_group c g = Some i ∧ cf_groups c !! i = Some group ∧
                                group_of c g = Some group ∧ group_rel group keys ∧ cg_name group = Some g
               | None => config_lookup_group c g = None
               end.
Proof.
  intros (_ & _ & Hrel). specialize (Hrel g). destruct (config_lookup_group c g) as [i|] eqn:E.
  - apply position_look in E as (group & Hi & Hl & Hn). rewrite Hl in Hrel.
    destruct (m !! g) as [keys|]; inversion Hrel; subst. exists i, group. split_and!; done.
  - apply (position_None cg_name) in E. rewrite E in Hrel. destruct (m !! g); [inversion Hrel|done].
Qed.

Lemma lookup_key_rel group keys k :
  group_rel group keys → match keys !! k with
                         | Some v => ∃ j kv, config_lookup_keyvalue group k = Some j ∧ key_of group k = Some kv ∧ kv_value kv = v
                         | None => config_lookup_keyvalue group k = None
                         end.
Proof.
  intros [_ Hk]. specialize (Hk k). destruct (config_lookup_keyvalue group k) as [j|] eqn:E.
  - apply position_look in E as (kv & _ & Hl & _). rewrite Hl in Hk. rewrite <- Hk. simpl. eauto 10.
  - apply (position_None kv_key) in E. rewrite E in Hk. by rewrite <- Hk.
Qed.

(** The three changes of a group. *)
Lemma append_rel group keys k v :
  group_rel group keys → config_lookup_keyvalue group k = None → group_rel (append_value (KV (Some k) v) group) (<[k := v]> keys).
Proof.
  intros [Hnd Hk] E. apply (position_None kv_key) in E. split; simpl; [by eapply (omap_snoc_NoDup kv_key)|].
  intros k'. rewrite (look_snoc kv_key _ _ k) by done. case_decide as Ek; [subst; by rewrite lookup_insert_eq|].
  rewrite lookup_insert_ne by done. apply Hk.
Qed.
Lemma update_rel group keys k v j :
  group_rel group keys → config_lookup_keyvalue group k = Some j →
  group_rel (with_values group (alter (λ kv, set_kv_value kv v) j (cg_values group))) (<[k := v]> keys).
Proof.
  intros [Hnd Hk] E. split; simpl; [by rewrite omap_alter|]. intros k'. rewrite (look_alter kv_key _ k) by done.
  case_decide as Ek; [|rewrite lookup_insert_ne by done; apply Hk]. subst. rewrite lookup_insert_eq.
  apply position_look in E as (kv & _ & -> & _). done.
Qed.
Lemma remove_rel group keys k j :
  group_rel group keys → config_lookup_keyvalue group k = Some j →
  group_rel (with_values group (delete j (cg_values group))) (delete k keys).
Proof.
  intros [Hnd Hk] E. split; simpl; [by eapply sublist_NoDup; [|apply omap_delete]|]. intros k'.
  rewrite (look_delete kv_key k) by done. case_decide as Ek; [subst; by rewrite lookup_delete_eq|].
  rewrite lookup_delete_ne by done. apply Hk.
Qed.

Lemma add_group_rel c m g : cf_rel c m → m !! g = None → cf_rel (config_add_group c g).2 (<[g := ∅]> m).
Proof.
  intros Hrel Hm. pose proof (lookup_group_rel c m g Hrel) as Hl. rewrite Hm in Hl. apply (position_None cg_name) in Hl.
  destruct Hrel as ([(g0 & Hg0 & Hn0) _] & Hnd & Hrel). split; [split|split]; simpl.
  - exists g0. split; [by apply lookup_app_l_Some|done].
  - eexists. split; [done|]. rewrite length_app. simpl. lia.
  - by eapply (omap_snoc_NoDup cg_name).
  - intros g'. rewrite (look_snoc cg_name _ _ g) by done. case_decide as E; [subst; rewrite lookup_insert_eq|by rewrite lookup_insert_ne].
    constructor. split; simpl; [apply NoDup_nil_2|done].
Qed.

Lemma set_existing_rel c m g k v keys :
  cf_rel c m → m !! g = Some keys →
  ∃ c', config_set_value (Some c) (Some g) (Some k) (Some v) = (CF_OK, Some c') ∧ cf_rel c' (<[g := <[k := v]> keys]> m).
Proof.
  intros Hrel Hm. pose proof (lookup_group_rel c m g Hrel) as Hl. rewrite Hm in Hl. destruct Hl as (i & group & Ei & Hi & Hg & Hr & Hn).
  unfold config_set_value. rewrite !Ei. rewrite Hi. cbn [mbind option_bind].
  destruct (config_lookup_keyvalue group k) as [j|] eqn:Ek.
  - eexists. split; [done|]. eapply alter_group_rel; [done..|]. by apply update_rel.
  - unfold config_add_key. rewrite Hi, Ek. eexists. split; [done|]. eapply alter_group_rel; [done..|]. by apply append_rel.
Qed.

Lemma config_do_rel o c m :
  cf_rel c m → ∃ c', config_do o c = ((map_do o m).1, Some c') ∧ cf_rel c' (map_do o m).2.
Proof.
  intros Hrel. destruct o as [g k v|g k|g|g k|g k|g]; cbn [config_do map_do fst snd].
  - destruct (m !! g) as [keys|] eqn:Hm.
    + destruct (set_existing_rel c m g k v keys Hrel Hm) as (c' & -> & Hr). by exists c'.
    + pose proof (add_group_rel c m g Hrel Hm) as Hadd. pose proof (lookup_group_rel c m g Hrel) as Hl. rewrite Hm in Hl.
      destruct (set_existing_rel _ _ g k v ∅ Hadd) as (c' & E & Hr); [by rewrite lookup_insert_eq|].
      rewrite insert_insert_eq in Hr. exists c'. split; [|done].
      pose proof (lookup_group_rel _ _ g Hadd) as Hl'. rewrite lookup_insert_eq in Hl'. destruct Hl' as (i & _ & Ei & _).
      unfold config_set_value in *. rewrite Hl. rewrite Ei in E |- *. rewrite Ei in E. by rewrite E.
  - exists c. split; [|done]. rewrite get_value_look. destruct Hrel as (_ & _ & Hrel). destruct (Hrel g) as [group keys [_ Hk]|]; [|done].
    simpl. rewrite <- Hk. by destruct (key_of group k).
  - exists c. split; [|done]. pose proof (lookup_group_rel c m g Hrel) as Hl. unfold config_has_group.
    destruct (m !! g); [destruct Hl as (i & _ & -> & _)|rewrite Hl]; done.
  - exists c. split; [|done]. pose proof (lookup_group_rel c m g Hrel) as Hl. unfold config_has_key.
    destruct (m !! g) as [keys|]; [|by rewrite Hl]. destruct Hl as (i & group & -> & Hi & _ & Hr & _). cbn [mbind option_bind]. rewrite Hi.
    pose proof (lookup_key_rel group keys k Hr) as Hk. destruct (keys !! k); [destruct Hk as (j & _ & -> & _)|rewrite Hk]; done.
  - pose proof (lookup_group_rel c m g Hrel) as Hl. unfold config_remove_key.
    destruct (m !! g) as [keys|] eqn:Hm; [|rewrite Hl; by exists c]. destruct Hl as (i & group & Ei & Hi & Hg & Hr & _).
    rewrite Ei, Hi. cbn [mbind option_bind]. pose proof (lookup_key_rel group keys k Hr) as Hk.
    destruct (keys !! k); [destruct Hk as (j & kv & Ej & _)|rewrite Hk; by exists c]. rewrite Ej. eexists. split; [done|].
    eapply alter_group_rel; [done..|]. by apply remove_rel.
  - pose proof (lookup_group_rel c m g Hrel) as Hl. unfold config_remove_group.
    destruct (m !! g) as [keys|] eqn:Hm; [|rewrite Hl; by exists c]. destruct Hl as (i & group & Ei & Hi & Hg & Hr & Hn).
    rewrite Ei. eexists. split; [done|]. destruct Hrel as ([(g0 & Hg0 & Hn0) (cur & Hcur & Hlt)] & Hnd & Hrel).
    assert (i ≠ O) as Hi0 by (intros ->; congruence). pose proof (lookup_lt_Some _ _ _ Hi) as Hil. split; [split|split]; simpl.
    + exists g0. rewrite list_lookup_delete_lt by lia. done.
    + rewrite Hcur, length_delete by done. destruct (Nat.eqb_spec cur i) as [->|]; [rewrite (proj2 (Nat.eqb_neq i 0)) by done; eexists; split; [done|lia]|].
      destruct (Nat.ltb_spec i cur); eexists; (split; [done|lia]).
    + eapply sublist_NoDup; [done|apply (omap_delete cg_name)].
    + intros g'. rewrite (look_delete cg_name g) by done. case_decide as E; [subst; rewrite lookup_delete_eq; constructor|].
      by rewrite lookup_delete_ne.
Qed.

Lemma config_run_rel os c m :
  cf_rel c m → ∃ c', config_run os c = ((map_run os m).1, Some c') ∧ cf_rel c' (map_run os m).2.
Proof.
  revert c m. induction os as [|o os IH]; intros c m Hrel; [by exists c|].
  destruct (config_do_rel o c m Hrel) as (c1 & E1 & H1). destruct (IH c1 _ H1) as (c2 & E2 & H2). exists c2.
  cbn [config_run map_run]. rewrite E1, E2. destruct (map_do o m) as [r m1]. simpl in *. by destruct (map_run os m1).
Qed.

Lemma config_new_rel : cf_rel config_new ∅.
Proof. split; [split; [by eexists|exists O; split; [done|simpl; lia]]|]. split; [apply NoDup_nil_2|]. intros g. rewrite lookup_empty. constructor. Qed.

(** C21. Any sequence of [config_set_value], [config_get_value],
    [config_has_group], [config_has_key], [config_remove_key] and
    [config_remove_group] on a new configuration file answers, errors included,
    as the same operations on a finite map from group names to finite maps from
    keys to values, and keeps the file well formed: a first group without a name,
    and a current group among the groups. *)
Theorem config_ops_refine (os : list cf_op) :
  ∃ c, config_run os config_new = ((map_run os ∅).1, Some c) ∧ cf_wf c.
Proof. destruct (config_run_rel os _ _ config_new_rel) as (c & E & [Hwf _]). eauto. Qed.

(** ** Parsing in pieces *)

Lemma parse_loop_app first c d1 d2 :
  parse_loop first c (d1 ++ d2) =
    '(ret, c') ← parse_loop first c d1;
    if bool_decide (ret = CF_OK) then parse_loop (first && bool_decide (d1 = [])) c' d2 else Val (ret, c').
Proof.
  revert first c. induction d1 as [|ch d1 IH]; intros first c.
  - by destruct first.
  - rewrite (bool_decide_eq_false_2 (ch :: d1 = [])) by done. rewrite andb_false_r. cbn [app parse_loop].
    destruct (bool_decide (ch = LF)).
    + destruct (parse_newline first c) as [[ret c']|]; [|done]. run. destruct (bool_decide (ret = CF_OK)) eqn:E; [apply IH|].
      run. by rewrite E.
    + apply IH.
Qed.

(** Being at the start of the data matters to a newline only. *)
Lemma parse_loop_first first c d : head d ≠ Some LF → parse_loop first c d = parse_loop false c d.
Proof. destruct d as [|ch d]; [done|]. simpl. intros H. rewrite bool_decide_eq_false_2 by congruence. done. Qed.

Definition chunks_of (reads : list read_result) : list bytes := omap (λ r, match r with ReadBytes bs => Some bs | ReadError _ => None end) reads.
Definition read_fine (r : read_result) : Prop := match r with ReadBytes bs => bs ≠ [] | ReadError retry => retry = true end.
Definition starts_line (bs : bytes) : Prop := head bs = Some LF.

Lemma read_loop_concat c reads :
  Forall read_fine reads → Forall (λ bs, ¬ starts_line bs) (tail (chunks_of reads)) →
  read_loop c reads = parse_loop true c (concat (chunks_of reads)).
Proof.
  intros Hf. revert c. induction Hf as [|r reads Hr Hf IH]; intros c Ht; [done|]. destruct r as [bs|[]]; simpl in *; [|by apply IH|done].
  destruct bs as [|ch bs]; [done|]. unfold config_parse_data. rewrite (parse_loop_app true c (ch :: bs)).
  rewrite (bool_decide_eq_false_2 (ch :: bs = [])) by done. cbn [andb].
  destruct (parse_loop true c (ch :: bs)) as [[ret c']|]; [|done]. run. destruct (bool_decide (ret = CF_OK)); [|done].
  rewrite IH.
  - apply parse_loop_first. fold (chunks_of reads). clear - Hf Ht. fold (chunks_of reads) in Ht. 
    assert (Hne : Forall (λ bs, bs ≠ []) (chunks_of reads)).
    { clear Ht. induction Hf as [|[bs|[]] reads Hr Hf IH]; simpl; [constructor|by constructor|done..]. }
    destruct (chunks_of reads) as [|b bs']; [done|]. apply Forall_cons in Ht as [Hb _]. apply Forall_cons in Hne as [Hn _].
    destruct b; [done|]. exact Hb.
  - fold (chunks_of reads) in *. destruct (chunks_of reads); [constructor|]. by apply Forall_cons in Ht as [_ ?].
Qed.

(** Loading a file by any sequence of short reads, with interrupted reads in
    between, gives what loading its whole contents at once gives, provided no
    read but the first starts at a newline. *)
Theorem config_load_chunks (c : configfile) (fd size flags : Z) (reads : list read_result) :
  0 ≤ fd → size ≠ 0 → Forall read_fine reads → chunks_of reads ≠ [] →
  Forall (λ bs, ¬ starts_line bs) (tail (chunks_of reads)) →
  config_load_from_fd (Some c) fd (Some (true, size)) reads flags =
    config_load_from_data (Some c) (Some (concat (chunks_of reads))) flags.
Proof.
  intros Hfd Hsz Hf Hne Ht. unfold config_load_from_fd. rewrite (proj2 (Z.ltb_ge fd 0)), (proj2 (Z.eqb_neq size 0)) by done.
  rewrite read_loop_concat by done. unfold config_load_from_data.
  assert (Hc : concat (chunks_of reads) ≠ []).
  { clear Ht. induction Hf as [|[bs|[]] reads Hr Hf IH]; simpl in *; [done| |auto|done]. by destruct bs. }
  by destruct (concat (chunks_of reads)).
Qed.

(** ** Lines at the margin are parsed safely *)

Lemma alter_wf c i f : (∀ x, cg_name (f x) = cg_name x) → cf_wf c → cf_wf (alter_group f i c).
Proof.
  intros Hf [(g0 & Hg0 & Hn0) (cur & Hcur & Hlt)]. split; simpl.
  - destruct (decide (i = O)) as [->|]; [exists (f g0); by rewrite list_lookup_alter_eq, Hg0, Hf|].
    exists g0. by rewrite list_lookup_alter_ne.
  - exists cur. by rewrite length_alter.
Qed.
Lemma add_group_wf c g : cf_wf c → cf_wf (config_add_group c g).2.
Proof.
  intros [(g0 & Hg0 & Hn0) _]. split; simpl; [exists g0; split; [by apply lookup_app_l_Some|done]|].
  eexists. split; [done|]. rewrite length_app. simpl. lia.
Qed.
Lemma add_key_wf c i k v ret c' : config_add_key c i k v = (ret, c') → cf_wf c → cf_wf c' ∧ cf_buffer c' = cf_buffer c.
Proof.
  unfold config_add_key. intros H Hwf. repeat case_match; simplify_eq; (split; [|done]); try done; by apply alter_wf.
Qed.

Lemma cstring_lookup s p ch : cstring s !! p = Some ch → s !! p = Some ch.
Proof.
  revert p. induction s as [|x s IH]; intros p; simpl; [done|]. destruct (bool_decide (x = NUL)); [done|].
  destruct p; simpl; [done|]. apply IH.
Qed.

Lemma find_back_found n p line :
  line !! p = Some "]"%char → (p ≤ n < length line)%nat → ∃ q, find_back n line = Val q ∧ (p ≤ q ≤ n)%nat ∧ line !! q = Some "]"%char.
Proof.
  intros Hp. induction n as [|n IH]; intros Hn; unfold find_back; fold find_back.
  - replace p with O in Hp by lia. rewrite lookup_app_l, Hp by lia. run. rewrite bool_decide_eq_true_2 by done. exists O. split_and!; [done|lia..|done].
  - destruct (lookup_lt_is_Some_2 line (S n)) as [ch Hch]; [lia|]. rewrite lookup_app_l, Hch by lia. run.
    destruct (decide (ch = "]"%char)) as [->|Hc].
    + rewrite bool_decide_eq_true_2 by done. exists (S n). split_and!; [done|lia..|done].
    + rewrite bool_decide_eq_false_2 by done. assert (p ≠ S n) by congruence.
      destruct IH as (q & -> & ? & ?); [lia|]. exists q. split_and!; [done|lia..|done].
Qed.

Lemma back_spaces_found n p ch line :
  line !! p = Some ch → isspace ch = false → (p ≤ n < length line)%nat → ∃ q, back_spaces n line = Val q ∧ (p ≤ q ≤ n)%nat.
Proof.
  intros Hp Hch. induction n as [|n IH]; intros Hn; unfold back_spaces; fold back_spaces.
  - replace p with O in Hp by lia. rewrite Hp. run. rewrite Hch. exists O. split; [done|lia].
  - destruct (lookup_lt_is_Some_2 line (S n)) as [x Hx]; [lia|]. rewrite Hx. run.
    destruct (isspace x) eqn:E; [|exists (S n); split; [done|lia]]. assert (p ≠ S n) by congruence.
    destruct IH as (q & -> & ?); [lia|]. exists q. split; [done|lia].
Qed.

Lemma back_value_found fuel line start len :
  0 ≤ start → 0 ≤ len ≤ Z.of_nat fuel → start + len ≤ Z.of_nat (length line) < 2 ^ 64 →
  ∃ v, back_value fuel line start len = Val v ∧ 0 ≤ v ≤ len.
Proof.
  revert len. induction fuel as [|fuel IH]; intros len Hs Hl Hb; cbn [back_value].
  - replace len with 0 by lia. exists 0. split; [done|lia].
  - destruct (Z.ltb_spec 0 len) as [H0|H0]; [|exists len; split; [done|lia]].
    unfold u64. rewrite Z.mod_small by lia. destruct (lookup_lt_is_Some_2 line (Z.to_nat (start + len - 1))) as [ch Hch]; [lia|].
    rewrite lookup_app_l, Hch by lia. run. destruct (isspace ch); [|exists len; split; [done|lia]].
    destruct (IH (len - 1)) as (v & -> & ?); [lia..|]. exists v. split; [done|lia].
Qed.

Lemma position_Some {A} (P : A → bool) l i : position P l = Some i → ∃ x, l !! i = Some x ∧ P x = true.
Proof.
  revert i. induction l as [|y l IH]; intros i; simpl; [done|]. destruct (P y) eqn:E; [intros [= <-]; eauto|].
  destruct (position P l) as [j|]; [|done]. intros [= <-]. exact (IH j eq_refl).
Qed.
Lemma position_elem {A} (P : A → bool) l x : x ∈ l → P x = true → is_Some (position P l).
Proof.
  induction 1 as [y l|y z l Hy IH]; intros HP; simpl; [rewrite HP; eauto|]. destruct (P z); [eauto|].
  destruct (IH HP) as [? ->]. eauto.
Qed.

Lemma skip_spaces_length s : (length (skip_spaces s) ≤ length s)%nat.
Proof. induction s as [|c s IH]; simpl; [done|]. destruct (isspace c); simpl; lia. Qed.

(** A line that does not start with white space. *)
Definition at_margin (line : bytes) : Prop := match line with [] => True | ch :: _ => isspace ch = false end.

Lemma skip_spaces_margin line : at_margin line → skip_spaces line = line.
Proof. destruct line as [|c s]; simpl; [done|]. by intros ->. Qed.

Lemma parse_group_safe c line :
  cf_wf c → config_line_is_group line = true →
  ∃ c', config_parse_group c line (Z.of_nat (length line)) = Val (CF_OK, c') ∧ cf_wf c' ∧ cf_buffer c' = cf_buffer c.
Proof.
  intros Hwf H. unfold config_line_is_group in H. destruct (cstring line) as [|x s] eqn:E; [done|].
  apply andb_true_iff in H as [_ H]. unfold strchr in H. apply bool_decide_eq_true in H. rewrite <- E in H.
  apply list_elem_of_lookup in H as [p Hp%cstring_lookup]. pose proof (lookup_lt_Some _ _ _ Hp).
  unfold config_parse_group. rewrite (proj2 (Z.ltb_ge _ _)) by lia.
  destruct (find_back_found (Z.to_nat (Z.of_nat (length line) - 1)) p line Hp) as (q & -> & _); [lia|].
  run. eexists. split; [done|]. split; [by apply add_group_wf|done].
Qed.

Lemma parse_keyvalue_safe c line :
  cf_wf c → at_margin line → config_line_is_keyvalue line = true → Z.of_nat (length line) < 2 ^ 64 →
  ∃ ret c', config_parse_keyvalue c line (Z.of_nat (length line)) = Val (ret, c') ∧ cf_wf c' ∧ cf_buffer c' = cf_buffer c.
Proof.
  intros Hwf Hm H Hlen. destruct Hwf as [Hw (i & Hcur & Hi)]. pose proof (conj Hw (ex_intro _ i (conj Hcur Hi)) : cf_wf c) as Hwf.
  unfold config_parse_keyvalue. rewrite Hcur. destruct (lookup_lt_is_Some_2 _ _ Hi) as [g Hg]. rewrite Hg. run.
  destruct (bool_decide (cg_name g = None)); [by eexists _, c|]. unfold config_line_is_keyvalue in H.
  apply andb_true_iff in H as [H1 H2]. unfold strchr in H1. apply bool_decide_eq_true in H1.
  destruct (position_elem (λ ch, bool_decide (ch = "="%char)) (cstring line) "="%char H1) as [p Hp]; [by apply bool_decide_eq_true|].
  rewrite Hp. destruct p as [|e].
  { apply position_Some in Hp as (x & Hx & Hx'). destruct (cstring line); [done|]. simpl in Hx. simplify_eq. by rewrite Hx' in H2. }
  apply position_Some in Hp as (x & Hx%cstring_lookup & _). pose proof (lookup_lt_Some _ _ _ Hx) as He.
  destruct line as [|c0 line]; [done|]. destruct (back_spaces_found e 0 c0 (c0 :: line) eq_refl Hm) as (q & -> & Hq); [lia|]. run.
  destruct (_ <? _); [by eexists _, c|]. set (after := drop (S (S e)) (c0 :: line)).
  pose proof (skip_spaces_length after) as Hsk. assert (Ha : length after = (length (c0 :: line) - S (S e))%nat) by (unfold after; by rewrite length_drop).
  destruct (back_value_found (length (c0 :: line)) (c0 :: line) (Z.of_nat (S (S e) + (length after - length (skip_spaces after))))
    (u64 (Z.of_nat (length (c0 :: line)) - Z.of_nat (S (S e) + (length after - length (skip_spaces after)))))) as (v & -> & _).
  { lia. } { unfold u64. rewrite Z.mod_small by lia. lia. } { unfold u64. rewrite Z.mod_small by lia. lia. }
  run. destruct (config_add_key c i _ _) as [ret c'] eqn:E. apply add_key_wf in E as [? ?]; eauto.
Qed.

Lemma parse_comment_safe c line len :
  cf_wf c → ∃ c', config_parse_comment c line len = (CF_OK, c') ∧ cf_wf c' ∧ cf_buffer c' = cf_buffer c.
Proof.
  intros Hwf. pose proof Hwf as [_ (i & Hcur & _)]. unfold config_parse_comment. rewrite Hcur. eexists. split; [done|].
  split; [by apply alter_wf|done].
Qed.

Lemma parse_line_safe c line :
  cf_wf c → at_margin line → Z.of_nat (length line) < 2 ^ 64 →
  ∃ ret c', config_parse_line c (Some line) = Val (ret, c') ∧ cf_wf c' ∧ cf_buffer c' = cf_buffer c.
Proof.
  intros Hwf Hm Hlen. unfold config_parse_line. rewrite skip_spaces_margin by done. rewrite Z.sub_diag, Z.sub_0_r.
  destruct (config_line_is_comment line); [|destruct (config_line_is_group line) eqn:Eg; [|destruct (config_line_is_keyvalue line) eqn:Ek]].
  - destruct (parse_comment_safe c line (Z.of_nat (length line)) Hwf) as (c' & -> & ?). eauto.
  - destruct (parse_group_safe c line Hwf Eg) as (c' & -> & ?). eauto.
  - by apply parse_keyvalue_safe.
  - by eexists _, c.
Qed.

Lemma flush_safe c :
  cf_wf c → (∀ s, cf_buffer c = Some s → at_margin s ∧ Z.of_nat (length s) < 2 ^ 64) →
  ∃ ret c', config_parse_flush_buffer c = Val (ret, c') ∧ cf_wf c' ∧
    (cf_buffer c' = Some [] ∨ ret ≠ CF_OK) ∧ (cf_buffer c = None → ret ≠ CF_OK).
Proof.
  intros Hwf Hb. unfold config_parse_flush_buffer. destruct (cf_buffer c) as [[|ch s]|] eqn:E; simpl.
  - eexists _, c. split; [done|]. split; [done|]. split; [by left|done].
  - destruct (Hb _ eq_refl) as [Hm Hl]. destruct (parse_line_safe c (ch :: s) Hwf Hm Hl) as (ret & c' & Ep & Hwf' & Hb').
    simpl in Ep. rewrite Ep. run. eexists _, _. split; [done|]. split; [done|]. split; [|done].
    left. simpl. by rewrite Hb', E.
  - eexists _, _. split; [done|]. split; [done|]. split; [by right|done].
Qed.

(** No line is indented; an empty line may hold a carriage return. *)
Fixpoint flush_left (start : bool) (data : bytes) : bool :=
  match data with
  | [] => true
  | ch :: data =>
    if bool_decide (ch = LF) then flush_left true data
    else (negb start || negb (isspace ch) || (bool_decide (ch = CR) && bool_decide (head data = Some LF))) && flush_left false data
  end.

Lemma at_margin_take n s : at_margin s → at_margin (take n s).
Proof. by destruct s, n. Qed.
Lemma at_margin_app s t : at_margin s → at_margin t → at_margin (s ++ t).
Proof. by destruct s. Qed.

(** The buffer is at the margin and short enough for [more] bytes to follow. *)
Definition buffer_fits (more : nat) (c : configfile) : Prop :=
  ∀ s, cf_buffer c = Some s → at_margin s ∧ Z.of_nat (length s + more) < 2 ^ 64.

Lemma newline_flush_safe c more :
  cf_wf c → buffer_fits more c → Z.of_nat more < 2 ^ 64 →
  ∃ ret c', (if buffer_nonempty (cf_buffer c) then config_parse_flush_buffer c else Val (config_parse_comment c [] 1)) = Val (ret, c') ∧
    cf_wf c' ∧ (ret = CF_OK → cf_buffer c' = Some []).
Proof.
  intros Hwf Hb Hm. destruct (buffer_nonempty (cf_buffer c)) eqn:E.
  - destruct (flush_safe c Hwf) as (ret & c' & -> & Hwf' & Hs & _); [|eexists _, _; split; [done|]; split; [done|naive_solver]].
    intros s Hs. destruct (Hb s Hs). split; [done|lia].
  - destruct (parse_comment_safe c [] 1 Hwf) as (c' & -> & Hwf' & Hb'). eexists _, _. split; [done|]. split; [done|]. intros _.
    rewrite Hb'. by destruct (cf_buffer c) as [[]|].
Qed.

Lemma newline_safe first c more :
  cf_wf c → buffer_fits more c → Z.of_nat more < 2 ^ 64 → (cf_buffer c = None → first = true) →
  ∃ ret c', parse_newline first c = Val (ret, c') ∧ cf_wf c' ∧ (ret = CF_OK → buffer_fits more c' ∧ cf_buffer c' ≠ None).
Proof.
  intros Hwf Hb Hm Hf. unfold parse_newline. destruct first.
  - run. simpl. destruct (newline_flush_safe c more Hwf Hb Hm) as (ret & c' & E & Hwf' & Hs). simpl in E. rewrite E.
    eexists _, _. split; [done|]. split; [done|]. intros Hr. specialize (Hs Hr). split; [|by rewrite Hs].
    intros s Hs'. rewrite Hs in Hs'. injection Hs' as <-. by split.
  - destruct (cf_buffer c) as [s|] eqn:E; [|naive_solver]. cbn [buffer_last deref mbind outcome_mbind].
    set (c1 := if bool_decide _ then with_buffer c (erase_last (Some s)) else c).
    assert (Hc1 : ∃ s1, cf_buffer c1 = Some s1 ∧ cf_wf c1 ∧ buffer_fits more c1).
    { destruct (Hb s E) as [Hms Hls]. unfold c1. destruct (bool_decide _); [|exists s; done].
      eexists. split; [done|]. split; [done|]. intros s1 [= <-]. split; [by apply at_margin_take|]. rewrite length_take. lia. }
    clearbody c1. destruct Hc1 as (s1 & E1 & Hwf1 & Hb1). rewrite E1. cbn [buffer_last deref mbind outcome_mbind]. destruct (Hb1 _ E1) as [Hms Hls].
    destruct (bool_decide (last s1 = _)).
    + eexists _, _. split; [done|]. split; [done|]. intros _. split; [|done]. intros s2 [= <-].
      split; [by apply at_margin_take|]. rewrite length_take. lia.
    + destruct (newline_flush_safe c1 more Hwf1 Hb1 Hm) as (ret & c' & E' & Hwf' & Hs). rewrite E1 in E'. rewrite E'.
      eexists _, _. split; [done|]. split; [done|]. intros Hr. specialize (Hs Hr). split; [|by rewrite Hs].
      intros s' Hs'. rewrite Hs in Hs'. injection Hs' as <-. by split.
Qed.

Lemma parse_loop_safe n first start c data :
  (length data ≤ n)%nat → cf_wf c → flush_left start data = true → buffer_fits (length data) c → Z.of_nat (length data) < 2 ^ 64 →
  (cf_buffer c = None → first = true) → (default [] (cf_buffer c) = [] → start = true) →
  ∃ ret c', parse_loop first c data = Val (ret, c') ∧ cf_wf c' ∧ (ret = CF_OK → buffer_fits 0 c').
Proof.
  revert first start c data. induction n as [|n IH]; intros first start c data Hn Hwf Hfl Hb Hlen Hf Hst.
  { destruct data; [|simpl in Hn; lia]. by exists CF_OK, c. }
  destruct data as [|ch data]; [by exists CF_OK, c|]. cbn [parse_loop flush_left length] in *. destruct (bool_decide (ch = LF)) eqn:Elf.
  - destruct (newline_safe first c (length data) Hwf) as (ret & c' & -> & Hwf' & Hok); [|lia|done|].
    { intros s Hs. destruct (Hb s Hs). split; [done|lia]. }
    run. destruct (bool_decide_reflect (ret = CF_OK)) as [->|Hr]; [|by eexists _, _; split; [done|split]].
    destruct (Hok eq_refl) as [Hb' Hn']. apply (IH false true); [lia|done..|lia|done|done].
  - apply andb_true_iff in Hfl as [Hch Hfl]. set (s := default [] (cf_buffer c)).
    assert (Hs : at_margin s ∧ Z.of_nat (length s + S (length data)) < 2 ^ 64).
    { unfold s. destruct (cf_buffer c) as [s0|] eqn:E; [by apply Hb|]. by split. }
    destruct Hs as [Hms Hls]. destruct (decide (s = [] ∧ isspace ch = true)) as [[Hs Hsp]|Hns].
    + rewrite (Hst Hs), Hsp in Hch. apply andb_true_iff in Hch as [Hcr Hlf]. apply bool_decide_eq_true in Hcr, Hlf. subst ch.
      destruct data as [|x data]; [done|]. injection Hlf as ->. rewrite Hs. cbn [app parse_loop flush_left length] in *.
      change (bool_decide (LF = LF)) with true. cbv iota. change (bool_decide (LF = LF)) with true in Hfl. cbv iota in Hfl.
      set (c1 := with_buffer c (Some [])). destruct (parse_comment_safe c1 [] 1) as (c' & E & Hwf' & Hb'); [done|].
      change (parse_newline false (with_buffer c (Some [CR]))) with (Val (config_parse_comment c1 [] 1)). rewrite E. run.
      change (bool_decide (CF_OK = CF_OK)) with true. cbv iota.
      apply (IH false true); [lia|done|done| |lia| |done].
      * intros s' Hs'. rewrite Hb' in Hs'. injection Hs' as <-. simpl. split; [done|lia].
      * rewrite Hb'. done.
    + apply (IH false false); [lia|done|done| |lia|done|].
      * intros s' [= <-]. fold s. split; [|rewrite length_app; simpl; lia]. destruct s as [|x s']; [|done].
        simpl. destruct (isspace ch); [naive_solver|done].
      * cbn [with_buffer cf_buffer default from_option id]. intros H. fold s in H. by destruct s.
Qed.

(** C22. Loading a text in which no line is indented never reads or writes out of
    bounds, whether the text is accepted or not, and leaves a well formed
    configuration file. *)
Theorem config_load_safe (data : bytes) (flags : Z) :
  flush_left true data = true → Z.of_nat (length data) < 2 ^ 64 →
  ∃ ret c, config_load_from_data (Some config_new) (Some data) flags = Val (ret, Some c) ∧ cf_wf c.
Proof.
  intros Hfl Hlen. pose proof (proj1 config_new_rel) as Hwf. destruct data as [|ch data]; [by eexists _, _|]. unfold config_load_from_data, config_parse_data.
  destruct (parse_loop_safe (length (ch :: data)) true true (with_flags config_new flags) (ch :: data)) as (ret & c & -> & Hwf' & Hok); [done..|].
  run. destruct (bool_decide_reflect (ret = CF_OK)) as [Hr|Hr]; [|by eexists _, _].
  destruct (flush_safe c Hwf') as (ret' & c' & -> & Hwf'' & _); [|by eexists _, _].
  intros s Hs. destruct (Hok Hr s Hs) as [? ?]. split; [done|lia].
Qed.

Definition demo_reads : list read_result :=
  [ReadBytes (str "[GLOB"); ReadError true; ReadBytes (str "AL]" ++ [LF] ++ str "port = 21" ++ [CR; LF] ++ str "pasv_low"); ReadBytes (str " = 1025" ++ [LF])].

Lemma config_load_chunks_witness :
  config_load_from_fd (Some config_new) 3 (Some (true, 36)) demo_reads 0 =
    config_load_from_data (Some config_new) (Some (concat (chunks_of demo_reads))) 0 ∧
  (match config_load_from_fd (Some config_new) 3 (Some (true, 36)) demo_reads 0 with
   | Val (CF_OK, Some c) => config_get_value (Some c) (Some (str "GLOBAL")) (Some (str "pasv_low"))
   | _ => None
   end) = Some (str "1025").
Proof.
  split; [|by vm_compute]. apply (config_load_chunks config_new 3 36 0 demo_reads); [lia|lia| | |].
  - repeat constructor; done.
  - done.
  - repeat constructor; done.
Defined.

Lemma config_load_safe_witness :
  ∃ ret c, config_load_from_data (Some config_new) (Some (str "# top" ++ [LF; CR; LF] ++ str "[a" ++ [LF] ++ str "k=v")) 0 = Val (ret, Some c) ∧ cf_wf c.
Proof.
  apply (config_load_safe (str "# top" ++ [LF; CR; LF] ++ str "[a" ++ [LF] ++ str "k=v") 0); [by vm_compute|by vm_compute].
Defined.

(** ** What goes wrong otherwise *)

(** The name of an indented group is searched from the end of the line less the
    indentation, backwards and without a lower bound. *)
Example config_indented_group : config_load_from_data (Some config_new) (Some (str "   [a]" ++ [LF])) 0 = Crash.
Proof. by vm_compute. Qed.

(** The value of an indented line loses as many bytes as the line is indented,
    and the key keeps the white space. *)
Example config_indented_value :
  (match config_load_from_data (Some config_new) (Some (str "[a]" ++ [LF] ++ str " key = value" ++ [LF])) 0 with
   | Val (CF_OK, Some c) => (config_get_value (Some c) (Some (str "a")) (Some (str "key")), config_get_value (Some c) (Some (str "a")) (Some (str " key")))
   | _ => (None, None)
   end) = (None, Some (str "valu")).
Proof. by vm_compute. Qed.

(** A file that starts with an empty line is refused: the parse buffer has no
    buffer yet, and its length is taken for a positive number. *)
Example config_leading_blank :
  ∃ c, config_load_from_data (Some config_new) (Some ([LF] ++ str "[a]" ++ [LF])) 0 = Val (CF_ERROR_INVALID_ARGS, Some c).
Proof. eexists. by vm_compute. Qed.

(** A carriage return at the end of a chunk stays in the value's line when the
    next chunk starts with the newline; a continuation is not seen. *)
Example config_chunk_continuation :
  (match config_load_from_fd (Some config_new) 3 (Some (true, 12)) [ReadBytes (str "[a]" ++ [LF] ++ str "k = v" ++ ["092"%char]); ReadBytes ([LF] ++ str "w" ++ [LF])] 0 with
   | Val (e, Some c) => Some (e, config_get_value (Some c) (Some (str "a")) (Some (str "k")))
   | _ => None
   end) = Some (CF_ERROR_PARSE, Some (str "v" ++ ["092"%char])) ∧
  (match config_load_from_data (Some config_new) (Some (str "[a]" ++ [LF] ++ str "k = v" ++ ["092"%char; LF] ++ str "w" ++ [LF])) 0 with
   | Val (e, Some c) => Some (e, config_get_value (Some c) (Some (str "a")) (Some (str "k")))
   | _ => None
   end) = Some (CF_OK, Some (str "vw")).
Proof. by vm_compute. Qed.

(** An error on a last line without a newline is not reported. *)
Example config_last_line_unchecked :
  ∃ c, config_load_from_data (Some config_new) (Some (str "[a]" ++ [LF] ++ str "nonsense")) 0 = Val (CF_OK, Some c).
Proof. eexists. by vm_compute. Qed.

(** Putting a comment above a key works and reports a parse error. *)
Theorem key_comment_reports_error c g k t i group j :
  config_lookup_group c g = Some i → cf_groups c !! i = Some group → config_lookup_keyvalue group k = Some j →
  (config_set_key_comment c g k (Some t)).1 = CF_ERROR_PARSE.
Proof. intros H1 H2 H3. unfold config_set_key_comment. rewrite H1, H2. cbn [mbind option_bind]. by rewrite H3. Qed.
