(* ===== verification/ConfigText.v ===== *)
(** * Configuration files as text

    What [config_to_data] prints, [config_load_from_data] reads back. *)

From S2P Require Import Prelude Utf8 Config ConfigProps.

(** ** What can be written on a line *)

Definition BACKSLASH : ascii := "092"%char.

(** The character [ch] can end a line. *)
Definition ends_line (ch : option ascii) : Prop := (ch ≠ Some CR) ∧ (ch ≠ Some BACKSLASH).
(** The characters of a line. *)
Definition one_line (s : bytes) : Prop := (LF ∉ s) ∧ nul_free s.

Definition comment_ok (t : bytes) : Prop := one_line t ∧ ends_line (last t) ∧ config_line_is_comment (skip_spaces t) = true.
Definition key_ok (k : bytes) : Prop :=
  one_line k ∧ ("="%char ∉ k) ∧ (head k ≠ Some "#"%char) ∧ (head k ≠ Some "["%char) ∧ k ≠ [] ∧ at_margin k ∧ at_margin (reverse k).
Definition value_ok (v : bytes) : Prop := one_line v ∧ at_margin v ∧ at_margin (reverse v) ∧ last v ≠ Some BACKSLASH.

Definition kv_ok (kv : keyvalue) : Prop :=
  match kv_key kv with Some k => key_ok k ∧ value_ok (kv_value kv) | None => comment_ok (kv_value kv) end.

(** A named group: its keys are distinct. *)
Definition group_ok (g : cgroup) : Prop :=
  (∃ n, cg_name g = Some n ∧ one_line n) ∧ (∀ t, cg_comment g = Some t → comment_ok t) ∧
  Forall kv_ok (cg_values g) ∧ NoDup (omap kv_key (cg_values g)).

(** The first group: comments only. *)
Definition top_ok (g : cgroup) : Prop :=
  cg_name g = None ∧ cg_comment g = None ∧ Forall (λ kv, kv_key kv = None ∧ kv_ok kv) (cg_values g).

(** ** Feeding a line *)

Lemma feed c s rest : LF ∉ s → s ≠ [] → parse_loop false c (s ++ rest) = parse_loop false (with_buffer c (Some (default [] (cf_buffer c) ++ s))) rest.
Proof.
  revert c. induction s as [|ch s IH]; intros c Hs Hne; [done|]. cbn [app parse_loop].
  rewrite bool_decide_eq_false_2 by set_solver. destruct s as [|ch' s]; [done|]. rewrite IH by set_solver.
  unfold with_buffer. cbn [cf_groups cf_buffer cf_current cf_flags default from_option id]. by rewrite <- app_assoc.
Qed.

Lemma line_step gs i fl line rest gs' i' :
  line ≠ [] → LF ∉ line → ends_line (last line) →
  config_parse_line (CFile gs (Some line) (Some i) fl) (Some line) = Val (CF_OK, CFile gs' (Some line) (Some i') fl) →
  parse_loop false (CFile gs (Some []) (Some i) fl) (line ++ LF :: rest) = parse_loop false (CFile gs' (Some []) (Some i') fl) rest.
Proof.
  intros Hne Hlf [Hcr Hbs] H. rewrite feed by done. unfold with_buffer. cbn [cf_groups cf_buffer cf_current cf_flags default from_option id app parse_loop].
  rewrite bool_decide_eq_true_2 by done. unfold parse_newline. cbn [buffer_last deref mbind outcome_mbind cf_buffer].
  rewrite bool_decide_eq_false_2 by done. cbn [cf_buffer buffer_last deref mbind outcome_mbind]. rewrite bool_decide_eq_false_2 by done.
  assert (Hnb : buffer_nonempty (Some line) = true) by (by destruct line). rewrite Hnb.
  unfold config_parse_flush_buffer. cbn [cf_buffer]. rewrite Hnb, H. run. done.
Qed.

Lemma blank_step gs i fl rest :
  parse_loop false (CFile gs (Some []) (Some i) fl) (LF :: rest) =
    parse_loop false (CFile (alter (append_value (KV None [])) i gs) (Some []) (Some i) fl) rest.
Proof. reflexivity. Qed.

Lemma strndup_all s : nul_free s → strndup s (Z.of_nat (length s)) = s.
Proof. intros H. unfold strndup. rewrite cstring_id, Z.min_id, Nat2Z.id by done. apply take_ge. done. Qed.
Lemma strndup_prefix s t : nul_free s → strndup (s ++ t) (Z.of_nat (length s)) = s.
Proof.
  intros H. unfold strndup. rewrite Z.min_l by (rewrite length_app; lia). rewrite Nat2Z.id.
  assert (Hc : cstring (s ++ t) = s ++ cstring t).
  { clear - H. induction s as [|x s IH]; [done|]. simpl. rewrite bool_decide_eq_false_2 by (unfold nul_free in H; set_solver).
    rewrite IH; [done|]. unfold nul_free in *. set_solver. }
  by rewrite Hc, take_app_length.
Qed.

Lemma comment_step gs i fl t rest :
  comment_ok t →
  parse_loop false (CFile gs (Some []) (Some i) fl) (t ++ LF :: rest) =
    parse_loop false (CFile (alter (append_value (KV None t)) i gs) (Some []) (Some i) fl) rest.
Proof.
  intros [[Hlf Hnul] [He Hc]]. destruct t as [|ch t]; [apply blank_step|]. apply line_step; [done..|].
  unfold config_parse_line. rewrite Hc. unfold config_parse_comment. cbn [cf_current]. by rewrite strndup_all.
Qed.

Lemma last_snoc_app {A} (s : list A) x : last (s ++ [x]) = Some x.
Proof. apply last_snoc. Qed.

Lemma group_step gs i fl n rest :
  one_line n → Z.of_nat (length n) < 2 ^ 64 →
  parse_loop false (CFile gs (Some []) (Some i) fl) ("["%char :: n ++ "]"%char :: LF :: rest) =
    parse_loop false (CFile (gs ++ [group_init (Some n)]) (Some []) (Some (length gs)) fl) rest.
Proof.
  intros [Hlf Hnul] Hlen. replace ("["%char :: n ++ "]"%char :: LF :: rest) with (("["%char :: n ++ ["]"%char]) ++ LF :: rest)
    by (simpl; by rewrite <- app_assoc).
  assert (Hn2 : nul_free ("["%char :: n ++ ["]"%char])) by (unfold nul_free in *; set_solver).
  apply line_step; [done|set_solver| |].
  - rewrite app_comm_cons, last_snoc. done.
  - unfold config_parse_line. rewrite skip_spaces_margin by done. unfold config_line_is_comment, config_line_is_group.
    rewrite cstring_id by done. rewrite !bool_decide_eq_false_2 by done. rewrite bool_decide_eq_true_2 by done. cbn [orb andb].
    unfold strchr. rewrite (bool_decide_eq_true_2 ("]"%char ∈ _)) by set_solver. rewrite orb_true_r.
    unfold config_parse_group. rewrite Z.sub_diag, Z.sub_0_r. cbn [length]. rewrite length_app. cbn [length].
    rewrite (proj2 (Z.ltb_ge _ _)) by lia. replace (Z.to_nat (Z.of_nat (S (length n + 1)) - 1)) with (S (length n)) by lia.
    assert (Hfb : find_back (S (length n)) ("["%char :: n ++ ["]"%char]) = Val (S (length n))).
    { assert (Hat : (("["%char :: n ++ ["]"%char]) ++ [NUL]) !! S (length n) = Some "]"%char).
      { rewrite app_comm_cons, <- app_assoc. by apply list_lookup_middle. }
      unfold find_back; fold find_back. rewrite Hat. run. by rewrite bool_decide_eq_true_2. }
    rewrite Hfb. run. cbn [drop]. unfold u64. rewrite Z.mod_small by lia.
    replace (Z.of_nat (S (length n)) - 1) with (Z.of_nat (length n)) by lia. rewrite drop_0. by rewrite strndup_prefix.
Qed.

(** The equals sign is the first one, its position follows the key and a space. *)
Lemma position_equals k s : "="%char ∉ k → position (λ ch, bool_decide (ch = "="%char)) (k ++ str " =" ++ s) = Some (S (length k)).
Proof.
  induction k as [|ch k IH]; intros Hk; [done|]. cbn [app position]. rewrite bool_decide_eq_false_2 by set_solver.
  rewrite IH by set_solver. done.
Qed.

Lemma last_margin s ch : at_margin (reverse s) → last s = Some ch → isspace ch = false.
Proof. destruct s as [|x s] using rev_ind; [done|]. rewrite reverse_snoc, last_snoc. simpl. by intros ? [= ->]. Qed.

Lemma key_end_found k s : k ≠ [] → at_margin (reverse k) → back_spaces (length k) (k ++ " "%char :: s) = Val (pred (length k)).
Proof.
  intros Hne Hm. destruct k as [|ch k] using rev_ind; [done|]. rewrite length_app, Nat.add_1_r. cbn [length pred].
  rewrite reverse_snoc in Hm. cbn [at_margin] in Hm.
  unfold back_spaces; fold back_spaces. rewrite <- app_assoc. cbn [app].
  assert (H1 : (k ++ ch :: " "%char :: s) !! S (length k) = Some " "%char).
  { change (ch :: " "%char :: s) with ([ch] ++ " "%char :: s). rewrite app_assoc.
    replace (S (length k)) with (length (k ++ [ch])) by (rewrite length_app; simpl; lia). by apply list_lookup_middle. }
  rewrite H1. run. change (isspace " "%char) with true. cbv iota.
  assert (H2 : (k ++ ch :: " "%char :: s) !! length k = Some ch) by (by apply list_lookup_middle).
  destruct (length k); unfold back_spaces; fold back_spaces; rewrite H2; run; by rewrite Hm.
Qed.

Lemma back_value_unfold fuel line start len :
  back_value fuel line start len =
    if 0 <? len then
      ch ← deref ((line ++ [NUL]) !! Z.to_nat (u64 (start + len - 1)));
      if isspace ch then match fuel with O => Crash | S fuel => back_value fuel line start (len - 1) end else Val len
    else Val len.
Proof. by destruct fuel. Qed.

Lemma value_end_found fuel pre v :
  at_margin (reverse v) → Z.of_nat (length (pre ++ v)) < 2 ^ 64 → back_value fuel (pre ++ v) (Z.of_nat (length pre)) (Z.of_nat (length v)) = Val (Z.of_nat (length v)).
Proof.
  intros Hm Hl. destruct v as [|ch v] using rev_ind; [by destruct fuel|]. rewrite reverse_snoc in Hm. cbn [at_margin] in Hm.
  rewrite !length_app in *. cbn [length] in *. rewrite back_value_unfold.
  rewrite (proj2 (Z.ltb_lt _ _)) by lia. unfold u64. rewrite Z.mod_small by lia.
  replace (Z.to_nat (Z.of_nat (length pre) + Z.of_nat (length v + 1) - 1)) with (length (pre ++ v)) by (rewrite length_app; lia).
  assert (Hat : ((pre ++ v ++ [ch]) ++ [NUL]) !! length (pre ++ v) = Some ch).
  { replace ((pre ++ v ++ [ch]) ++ [NUL]) with ((pre ++ v) ++ ch :: [NUL]) by (by rewrite <- !app_assoc). by apply list_lookup_middle. }
  rewrite Hat. run. by rewrite Hm.
Qed.

Definition kv_text (k v : bytes) : bytes := k ++ str " = " ++ v.

(** The checks of [config_parse_line] on a line with a key and a value. *)
Lemma kv_text_kind k v :
  key_ok k → value_ok v →
  skip_spaces (kv_text k v) = kv_text k v ∧ config_line_is_comment (kv_text k v) = false ∧
  config_line_is_group (kv_text k v) = false ∧ config_line_is_keyvalue (kv_text k v) = true ∧ one_line (kv_text k v) ∧
  ends_line (last (kv_text k v)) ∧ kv_text k v ≠ [].
Proof.
  intros ([Hk1 Hk2] & Heq & H1 & H2 & Hne & Hm & _) ([Hv1 Hv2] & _ & Hvm & Hbs).
  assert (Hone : one_line (kv_text k v)).
  { split; [intros Hx; apply elem_of_app in Hx as [?|[Hx|?]%elem_of_app]; [done| |done]; exact (bool_decide_eq_true_1 (LF ∉ str " = ") eq_refl Hx)|].
    unfold nul_free, kv_text in *. intros Hx; apply elem_of_app in Hx as [?|[Hx|?]%elem_of_app]; [done| |done]; exact (bool_decide_eq_true_1 (NUL ∉ str " = ") eq_refl Hx). }
  assert (Hend : ends_line (last (kv_text k v))).
  { unfold kv_text. destruct v as [|x v _] using rev_ind; [rewrite app_nil_r, last_app; done|].
    rewrite !app_assoc, last_snoc. rewrite last_snoc in Hbs. split; [|done]. intros [= ->].
    rewrite reverse_snoc in Hvm. done. }
  split_and!; try done.
  - apply skip_spaces_margin. by destruct k.
  - unfold config_line_is_comment. rewrite cstring_id by apply Hone. destruct k as [|ch k]; [done|]. cbn [kv_text app].
    rewrite !bool_decide_eq_false_2; [done|..]; set_solver.
  - unfold config_line_is_group. rewrite cstring_id by apply Hone. destruct k as [|ch k]; [done|]. cbn [kv_text app].
    rewrite bool_decide_eq_false_2; [done|]. set_solver.
  - unfold config_line_is_keyvalue. rewrite cstring_id by apply Hone. unfold strchr. rewrite (bool_decide_eq_true_2 ("="%char ∈ _)).
    + rewrite orb_true_r. destruct k as [|ch k]; [done|]. cbn [kv_text app]. rewrite bool_decide_eq_false_2; [done|set_solver].
    + unfold kv_text. apply elem_of_app. right. apply elem_of_app. left. exact (bool_decide_eq_true_1 ("="%char ∈ str " = ") eq_refl).
  - by destruct k.
Qed.

Lemma parse_keyvalue_text gs b i fl g n k v :
  gs !! i = Some g → cg_name g = Some n → key_ok k → value_ok v → Z.of_nat (length (kv_text k v)) < 2 ^ 64 →
  config_parse_keyvalue (CFile gs b (Some i) fl) (kv_text k v) (Z.of_nat (length (kv_text k v))) =
    Val (config_add_key (CFile gs b (Some i) fl) i k v).
Proof.
  intros Hg Hn Hk Hv Hlen. destruct (kv_text_kind k v Hk Hv) as (_ & _ & _ & _ & [_ Hnul] & _).
  destruct Hk as ([_ Hknul] & Heq & _ & _ & Hne & Hkm & Hkm'). destruct Hv as ([_ Hvnul] & Hvm & Hvm' & _).
  unfold config_parse_keyvalue. cbn [cf_current cf_groups]. rewrite Hg. run. rewrite Hn. rewrite bool_decide_eq_false_2 by done.
  rewrite cstring_id by done.
  assert (Hp : position (λ ch, bool_decide (ch = "="%char)) (kv_text k v) = Some (S (length k))) by (by apply (position_equals k (" "%char :: v))).
  rewrite Hp.
  assert (Hb : back_spaces (length k) (kv_text k v) = Val (pred (length k))) by (exact (key_end_found k (str "= " ++ v) Hne Hkm')). rewrite Hb. run.
  assert (Hk0 : (0 < length k)%nat) by (destruct k; [done|simpl; lia]).
  assert (Hlt : length (kv_text k v) = (length k + 3 + length v)%nat) by (unfold kv_text; rewrite !length_app; simpl; lia).
  rewrite (proj2 (Z.ltb_ge _ _)) by lia.
  replace (Z.of_nat (pred (length k)) + 2 - 1) with (Z.of_nat (length k)) by lia.
  assert (Hkey : strndup (kv_text k v) (Z.of_nat (length k)) = k) by (by apply strndup_prefix). rewrite Hkey.
  assert (Hafter : drop (S (S (length k))) (kv_text k v) = " "%char :: v).
  { unfold kv_text. rewrite <- (drop_app_length (k ++ str " =") (" "%char :: v)).
    f_equal; [rewrite length_app; simpl; lia|by rewrite <- app_assoc]. }
  rewrite Hafter. change (skip_spaces (" "%char :: v)) with (skip_spaces v). rewrite (skip_spaces_margin v) by done.
  replace (S (S (length k)) + (length (" "%char :: v) - length v))%nat with (length (k ++ str " = ")) by (rewrite length_app; simpl; lia).
  unfold u64. rewrite Z.mod_small by (rewrite length_app; simpl; lia).
  replace (Z.of_nat (length (kv_text k v)) - Z.of_nat (length (k ++ str " = "))) with (Z.of_nat (length v)) by (rewrite length_app; simpl; lia).
  assert (Ht : kv_text k v = (k ++ str " = ") ++ v) by (unfold kv_text; by rewrite app_assoc).
  rewrite Ht in Hlen |- *. rewrite value_end_found by done. run. rewrite Nat2Z.id, drop_app_length. by rewrite strndup_all.
Qed.

Lemma alter_last {A} (f : A → A) l x : alter f (length l) (l ++ [x]) = l ++ [f x].
Proof. induction l as [|y l IH]; [done|]. cbn [length app]. change (y :: alter f (length l) (l ++ [x]) = y :: l ++ [f x]). by rewrite IH. Qed.

Lemma kv_step gs cur fl kv rest :
  kv_ok kv → (is_Some (kv_key kv) → is_Some (cg_name cur)) → NoDup (omap kv_key (cg_values cur ++ [kv])) → Z.of_nat (length (kv_line kv)) < 2 ^ 64 →
  parse_loop false (CFile (gs ++ [cur]) (Some []) (Some (length gs)) fl) (kv_line kv ++ rest) =
    parse_loop false (CFile (gs ++ [append_value kv cur]) (Some []) (Some (length gs)) fl) rest.
Proof.
  destruct kv as [[k|] v]; unfold kv_ok, kv_line; cbn [kv_key kv_value].
  - intros [Hk Hv] Hn Hnd Hlen. destruct Hn as [n Hn]; [done|]. destruct (kv_text_kind k v Hk Hv) as (H1 & H2 & H3 & H4 & [H5 _] & H6 & H7).
    replace ((k ++ str " = " ++ v ++ [LF]) ++ rest) with (kv_text k v ++ LF :: rest) by (unfold kv_text; by rewrite <- !app_assoc).
    apply line_step; [done..|]. unfold config_parse_line. rewrite H1, H2, H3, H4, Z.sub_diag, Z.sub_0_r.
    erewrite parse_keyvalue_text; [|by apply list_lookup_middle|done..|].
    2: { unfold kv_text. rewrite !length_app in *. simpl in *. lia. }
    unfold config_add_key. cbn [cf_groups]. rewrite list_lookup_middle by done.
    assert (Hl : config_lookup_keyvalue cur k = None).
    { apply (position_None kv_key). apply look_NoDup. rewrite omap_app in Hnd. apply NoDup_app in Hnd as (_ & Hd & _).
      intros Hi. apply (Hd k Hi). simpl. set_solver. }
    rewrite Hl. unfold alter_group, with_groups. cbn [cf_groups cf_buffer cf_current cf_flags]. by rewrite alter_last.
  - intros Hv _ _ _. rewrite <- app_assoc. cbn [app]. rewrite comment_step by done. by rewrite alter_last.
Qed.

Lemma values_step gs cur fl vs rest :
  Forall kv_ok vs → (Exists (λ kv, is_Some (kv_key kv)) vs → is_Some (cg_name cur)) → NoDup (omap kv_key (cg_values cur ++ vs)) →
  Z.of_nat (length (concat (map kv_line vs))) < 2 ^ 64 →
  parse_loop false (CFile (gs ++ [cur]) (Some []) (Some (length gs)) fl) (concat (map kv_line vs) ++ rest) =
    parse_loop false (CFile (gs ++ [with_values cur (cg_values cur ++ vs)]) (Some []) (Some (length gs)) fl) rest.
Proof.
  intros Hok. revert cur. induction Hok as [|kv vs Hkv Hok IH]; intros cur Hn Hnd Hlen; cbn [map concat].
  - rewrite app_nil_r. by destruct cur.
  - cbn [map concat] in Hlen. rewrite length_app in Hlen. rewrite <- app_assoc, kv_step; [|done| | |lia].
    + assert (Hv : cg_values (append_value kv cur) ++ vs = cg_values cur ++ kv :: vs) by (simpl; by rewrite <- app_assoc).
      rewrite IH; [|by intros H; apply Hn; right|by rewrite Hv|lia]. by rewrite Hv.
    + intros H. apply Hn. by left.
    + replace (cg_values cur ++ kv :: vs) with ((cg_values cur ++ [kv]) ++ vs) in Hnd by (by rewrite <- app_assoc).
      rewrite omap_app in Hnd. by apply NoDup_app in Hnd as [? _].
Qed.

(** A comment at the top of a group is read as the last comment of the group
    before. *)
Definition comment_values (o : option bytes) : list keyvalue := match o with Some t => [KV None t] | None => [] end.
Fixpoint hoist (cur : cgroup) (gs : list cgroup) : list cgroup :=
  match gs with
  | [] => [cur]
  | g :: gs => with_values cur (cg_values cur ++ comment_values (cg_comment g)) :: hoist (with_comment g None) gs
  end.

Lemma groups_step gs cur fl todo :
  Forall group_ok todo → Z.of_nat (length (concat (map group_lines todo))) < 2 ^ 64 →
  parse_loop false (CFile (gs ++ [cur]) (Some []) (Some (length gs)) fl) (concat (map group_lines todo)) =
    Val (CF_OK, CFile (gs ++ hoist cur todo) (Some []) (Some (length gs + length todo)%nat) fl).
Proof.
  intros Hok. revert gs cur. induction Hok as [|g todo Hg Hok IH]; intros gs cur Hlen; cbn [map concat].
  { cbn [parse_loop hoist length]. by rewrite Nat.add_0_r. }
  destruct Hg as ((n & Hn & Hn1) & Hc & Hvs & Hnd). cbn [map concat] in Hlen. rewrite length_app in Hlen.
  assert (Hgl : group_lines g = match cg_comment g with Some t => t ++ [LF] | None => [] end ++ ("["%char :: n ++ "]"%char :: [LF]) ++ concat (map kv_line (cg_values g)))
    by (unfold group_lines; by rewrite Hn).
  assert (Hl : Z.of_nat (length n) + Z.of_nat (length (concat (map kv_line (cg_values g)))) ≤ Z.of_nat (length (group_lines g))).
  { rewrite Hgl, !length_app. simpl. rewrite length_app. simpl. lia. }
  rewrite Hgl, <- app_assoc.
  assert (Hcm : ∀ rest, parse_loop false (CFile (gs ++ [cur]) (Some []) (Some (length gs)) fl)
      (match cg_comment g with Some t => t ++ [LF] | None => [] end ++ rest) =
    parse_loop false (CFile (gs ++ [with_values cur (cg_values cur ++ comment_values (cg_comment g))]) (Some []) (Some (length gs)) fl) rest).
  { intros rest. destruct (cg_comment g) as [t|] eqn:Et; cbn [comment_values].
    - rewrite <- app_assoc. cbn [app]. rewrite comment_step by (by apply Hc). by rewrite alter_last.
    - rewrite app_nil_r. by destruct cur. }
  rewrite Hcm, <- app_assoc. cbn [app]. rewrite <- app_assoc. cbn [app]. rewrite group_step by (done || lia).
  rewrite length_app, Nat.add_1_r. set (cur' := with_values cur _). replace (S (length gs)) with (length (gs ++ [cur'])) by (rewrite length_app; simpl; lia).
  rewrite values_step; [|done|done|done|lia].
  rewrite IH by lia. cbn [hoist length]. fold cur'. do 2 f_equal.
  replace (with_values (group_init (Some n)) (cg_values (group_init (Some n)) ++ cg_values g)) with (with_comment g None)
    by (unfold with_comment, with_values; simpl; by rewrite Hn).
  rewrite <- app_assoc. f_equal. f_equal. rewrite length_app. simpl. lia.
Qed.

(** ** What hoisting keeps *)

Lemma hoist_lines cur todo :
  concat (map group_lines (hoist cur todo)) = group_lines cur ++ concat (map group_lines todo).
Proof.
  revert cur. induction todo as [|g todo IH]; intros cur; cbn [hoist map concat]; [done|]. rewrite IH.
  unfold group_lines. cbn [cg_name cg_comment cg_values with_values with_comment]. rewrite map_app, concat_app, <- !app_assoc.
  do 3 f_equal. destruct (cg_comment g); cbn [comment_values map concat kv_line kv_key kv_value app]; by rewrite ?app_nil_r.
Qed.

Definition value_in (gs : list cgroup) (g k : bytes) : option bytes := group ← look cg_name gs g; kv ← key_of group k; Some (kv_value kv).

Lemma value_in_cons x gs g k :
  value_in (x :: gs) g k = if hit cg_name g x then kv ← key_of x k; Some (kv_value kv) else value_in gs g k.
Proof. unfold value_in. rewrite look_cons. by destruct (hit cg_name g x). Qed.

Lemma look_comments o vs k : look kv_key (vs ++ comment_values o) k = look kv_key vs k.
Proof.
  induction vs as [|kv vs IH]; [by destruct o|]. cbn [app]. rewrite !look_cons. by rewrite IH.
Qed.

Lemma hoist_values cur todo g k : value_in (hoist cur todo) g k = value_in (cur :: todo) g k.
Proof.
  revert cur. induction todo as [|x todo IH]; intros cur; cbn [hoist]; [done|]. rewrite !value_in_cons, IH, value_in_cons.
  cbn [cg_values with_values]. rewrite look_comments. done.
Qed.

(** C20. Printing a configuration file and loading the text gives the file back:
    the same groups in the same order with the same keys, values and comments,
    but for the comment at the top of a group, which becomes the last comment of
    the group before. Every value is found again, and printing once more gives
    the same text. Keys, values, names and comments have to fit on a line, and
    the text must not start with an empty line. *)
Theorem config_roundtrip (c : configfile) (top : cgroup) (gs : list cgroup) (text : bytes) (flags : Z) :
  cf_groups c = top :: gs → top_ok top → Forall group_ok gs →
  config_to_data (Some c) = Some (Some text, Z.of_nat (length text)) → head text ≠ Some LF → Z.of_nat (length text) < 2 ^ 64 →
  ∃ c', config_load_from_data (Some config_new) (Some text) flags = Val (CF_OK, Some c') ∧ cf_groups c' = hoist top gs ∧
    (∀ g k, config_get_value (Some c') (Some g) (Some k) = config_get_value (Some c) (Some g) (Some k)) ∧
    config_to_data (Some c') = config_to_data (Some c).
Proof.
  intros Hg (Htn & Htc & Htv) Hgs Hd Hlf Hlen. unfold config_to_data in Hd. cbn [mbind option_bind] in Hd. rewrite Hg in Hd.
  cbn [map concat] in Hd. destruct (group_lines top ++ concat (map group_lines gs)) as [|ch data] eqn:Et; [done|]. injection Hd as <-.
  exists (CFile (hoist top gs) (Some []) (Some (length gs)) flags). split; [|split; [done|split]].
  - unfold config_load_from_data, config_parse_data, with_flags, config_new. cbn [cf_groups cf_buffer cf_current cf_flags].
    assert (Hstart : parse_loop true (CFile [group_init None] None (Some 0%nat) flags) (ch :: data) =
      parse_loop false (CFile ([] ++ [group_init None]) (Some []) (Some 0%nat) flags) (ch :: data)).
    { cbn [parse_loop]. rewrite bool_decide_eq_false_2 by (simpl in Hlf; congruence). done. }
    rewrite Hstart, <- Et. unfold group_lines at 1. rewrite Htc, Htn. cbn [app].
    assert (Hok : Forall kv_ok (cg_values top)) by (eapply Forall_impl; [exact Htv|]; by intros ? [_ ?]).
    assert (Hno : omap kv_key (cg_values top) = []).
    { clear - Htv. induction Htv as [|kv vs [Hk _] _ IH]; [done|]. simpl. by rewrite Hk. }
    assert (Hlt : Z.of_nat (length (concat (map kv_line (cg_values top)))) + Z.of_nat (length (concat (map group_lines gs))) < 2 ^ 64).
    { apply (f_equal length) in Et. unfold group_lines at 1 in Et. rewrite Htc, Htn, length_app in Et. cbn [app] in Et. lia. }
    rewrite (values_step [] (group_init None)); [|done| | |lia].
    + replace (with_values (group_init None) (cg_values (group_init None) ++ cg_values top)) with top
        by (destruct top as [tn tc tv]; cbn in Htn, Htc; by subst).
      rewrite (groups_step [] top) by (done || lia). run. done.
    + intros Hex. exfalso. clear - Htv Hex. induction Htv as [|kv vs [Hk _] _ IH]; inversion Hex; subst; [|by apply IH].
      rewrite Hk in *. by destruct H0.
    + cbn [group_init cg_values app]. rewrite Hno. apply NoDup_nil_2.
  - intros g k. rewrite !get_value_look, Hg. exact (hoist_values top gs g k).
  - unfold config_to_data. cbn [mbind option_bind cf_groups]. by rewrite hoist_lines, Hg.
Qed.

(** A file as the server's own tools would write it. *)
Definition demo_config : configfile :=
  CFile [CGroup None None [KV None (str "# wzdftpd"); KV None (str "")];
         CGroup (Some (str "GLOBAL")) None [KV (Some (str "port")) (str "21"); KV None (str "# where to log"); KV (Some (str "logfile")) (str "/var/log/wzd.log")];
         CGroup (Some (str "modules")) (Some (str "# loaded in order")) [KV (Some (str "sfv")) (str "allow")]]
        None (Some 2%nat) 0.

Definition demo_text : bytes :=
  str "# wzdftpd" ++ [LF; LF] ++ str "[GLOBAL]" ++ [LF] ++ str "port = 21" ++ [LF] ++ str "# where to log" ++ [LF] ++
  str "logfile = /var/log/wzd.log" ++ [LF] ++ str "# loaded in order" ++ [LF] ++ str "[modules]" ++ [LF] ++ str "sfv = allow" ++ [LF].

#[local] Instance one_line_dec s : Decision (one_line s).
Proof. apply _. Defined.
#[local] Instance ends_line_dec o : Decision (ends_line o).
Proof. apply _. Defined.
#[local] Instance at_margin_dec s : Decision (at_margin s).
Proof. destruct s; apply _. Defined.
#[local] Instance key_ok_dec k : Decision (key_ok k).
Proof. apply _. Defined.
#[local] Instance value_ok_dec v : Decision (value_ok v).
Proof. apply _. Defined.
#[local] Instance comment_ok_dec v : Decision (comment_ok v).
Proof. apply _. Defined.
#[local] Instance kv_ok_dec kv : Decision (kv_ok kv).
Proof. unfold kv_ok. destruct (kv_key kv); apply _. Defined.

Lemma group_ok_intro g n :
  cg_name g = Some n → one_line n → comment_ok (default [] (cg_comment g)) → Forall kv_ok (cg_values g) →
  NoDup (omap kv_key (cg_values g)) → group_ok g.
Proof. intros Hn H1 Hc Hv Hnd. split; [eauto|]. split; [|done]. intros t Ht. by rewrite Ht in Hc. Qed.

Lemma demo_groups_ok : Forall group_ok (drop 1 (cf_groups demo_config)).
Proof.
  constructor; [|constructor; [|constructor]].
  - apply (group_ok_intro _ (str "GLOBAL")); [done|by apply (bool_decide_unpack _); vm_compute..].
  - apply (group_ok_intro _ (str "modules")); [done|by apply (bool_decide_unpack _); vm_compute..].
Qed.

Lemma config_roundtrip_witness :
  (∃ c', config_load_from_data (Some config_new) (Some demo_text) 0 = Val (CF_OK, Some c') ∧
    cf_groups c' = hoist (CGroup None None [KV None (str "# wzdftpd"); KV None (str "")]) (drop 1 (cf_groups demo_config)) ∧
    (∀ g k, config_get_value (Some c') (Some g) (Some k) = config_get_value (Some demo_config) (Some g) (Some k)) ∧
    config_to_data (Some c') = config_to_data (Some demo_config)) ∧
  config_get_value (Some demo_config) (Some (str "GLOBAL")) (Some (str "port")) = Some (str "21").
Proof.
  split; [|by vm_compute].
  apply (config_roundtrip demo_config (CGroup None None [KV None (str "# wzdftpd"); KV None (str "")]) (drop 1 (cf_groups demo_config)) demo_text 0).
  - reflexivity.
  - split; [done|split; [done|]]. repeat constructor; by apply (bool_decide_unpack _); vm_compute.
  - exact demo_groups_ok.
  - by vm_compute.
  - done.
  - by vm_compute.
Defined.

(** ** Typed values *)

Lemma set_then_get c g k v :
  ∃ c', config_set_value (Some c) (Some g) (Some k) (Some v) = (CF_OK, Some c') ∧
    config_get_value (Some c') (Some g) (Some k) = Some v.
Proof.
  assert (H : ∀ c i group, config_lookup_group c g = Some i → cf_groups c !! i = Some group → look cg_name (cf_groups c) g = Some group →
    ∃ c', match (group ← cf_groups c !! i; config_lookup_keyvalue group k) with
          | None => let '(ret, c) := config_add_key c i k v in (ret, Some c)
          | Some j => (CF_OK, Some (alter_group (λ g, with_values g (alter (λ kv, set_kv_value kv v) j (cg_values g))) i c))
          end = (CF_OK, Some c') ∧ config_get_value (Some c') (Some g) (Some k) = Some v).
  { clear c. intros c i group Ei Hi Hl. rewrite Hi. cbn [mbind option_bind]. destruct (config_lookup_keyvalue group k) as [j|] eqn:Ek.
    - eexists. split; [done|]. rewrite get_value_look. cbn [alter_group with_groups cf_groups].
      rewrite (look_alter cg_name _ g _ i) by done. rewrite decide_True, Hl by done. cbn [fmap option_fmap option_map mbind option_bind with_values cg_values].
      rewrite (look_alter kv_key _ k) by done. rewrite decide_True by done. apply position_look in Ek as (kv & _ & -> & _). done.
    - unfold config_add_key. rewrite Hi, Ek. eexists. split; [done|]. rewrite get_value_look. cbn [alter_group with_groups cf_groups].
      rewrite (look_alter cg_name _ g _ i) by done. rewrite decide_True, Hl by done. cbn [fmap option_fmap option_map mbind option_bind append_value with_values cg_values].
      rewrite (look_snoc kv_key _ _ k) by (done || by apply (position_None kv_key)). by rewrite decide_True. }
  unfold config_set_value. destruct (config_lookup_group c g) as [i|] eqn:E.
  - rewrite E. destruct (position_look cg_name _ _ _ E) as (group & Hi & Hl & _). by apply (H c i group).
  - destruct (config_lookup_group (config_add_group c g).2 g) as [i|] eqn:E'.
    + destruct (position_look cg_name _ _ _ E') as (group & Hi & Hl & _). by apply (H _ i group).
    + apply (position_None cg_name) in E'. cbn [config_add_group snd cf_groups] in E'.
      rewrite (look_snoc cg_name _ _ g) in E' by (done || by apply (position_None cg_name)). by rewrite decide_True in E'.
Qed.

Lemma strtoul_print_int v : - 2 ^ 31 ≤ v < 2 ^ 31 →
  strtoul (print_int v) = (u64 v, []) ∧ strtoul_range (print_int v) = false ∧ print_int v ≠ [].
Proof.
  intros Hv. destruct (print_digits 10 10 (Z.abs v) [] ltac:(lia)) as (s & Hs & Hd & _ & Hne). rewrite app_nil_r in Hs.
  pose proof (strtoul_print 10 10 (Z.abs v) ltac:(lia) ltac:(done) ltac:(simpl; lia) ltac:(unfold ULONG_MAX; lia)) as Hst.
  pose proof (digits_print 10 10 (Z.abs v) [] ltac:(lia) ltac:(simpl; lia)) as Hdv. rewrite Hs in Hst, Hdv.
  destruct s as [|ch s]; [by destruct Hne|]. pose proof Hd as Hd'. apply Forall_cons in Hd' as [Hch _].
  destruct (isdigit_in_facts _ _ Hch) as (_ & Hsp & Hm & Hp & _).
  assert (Hbound : (ULONG_MAX <? Z.abs v) = false) by (unfold ULONG_MAX; lia).
  unfold print_int. destruct (Z.ltb_spec v 0) as [Hneg|Hpos].
  - replace (- v) with (Z.abs v) by lia. rewrite Hs. split_and!; [|..|done].
    + unfold strtoul, strtoul_in. cbn [skip_spaces]. change (isspace "-"%char) with false. cbv iota.
      rewrite bool_decide_eq_true_2 by done. rewrite Hch, Hdv. cbn [digits_value_in]. rewrite Hbound. do 2 f_equal. lia.
    + unfold strtoul_range. cbn [skip_spaces]. change (isspace "-"%char) with false. cbv iota. cbn [orb].
      rewrite bool_decide_eq_true_2 by done. cbn [orb]. unfold digits_value. rewrite Hdv. exact Hbound.
  - replace v with (Z.abs v) by lia. rewrite Hs. split_and!; [|..|done].
    + unfold strtoul. rewrite Hst. unfold u64. by rewrite Z.mod_small by lia.
    + unfold strtoul_range. cbn [skip_spaces]. rewrite Hsp, !bool_decide_eq_false_2 by done. cbn [orb]. unfold digits_value. rewrite Hdv. exact Hbound.
Qed.

Lemma split_commas_app v rest : ","%char ∉ v → split_commas (v ++ ","%char :: rest) = (v :: (split_commas rest).1, (split_commas rest).2).
Proof.
  induction v as [|ch v IH]; intros Hv.
  - cbn [app split_commas]. rewrite bool_decide_eq_true_2 by done. by destruct (split_commas rest).
  - cbn [app split_commas]. rewrite IH by set_solver. by rewrite bool_decide_eq_false_2 by set_solver.
Qed.
Lemma split_commas_none v : ","%char ∉ v → split_commas v = ([], v).
Proof. induction v as [|ch v IH]; intros Hv; [done|]. cbn [split_commas]. rewrite IH by set_solver. by rewrite bool_decide_eq_false_2 by set_solver. Qed.

(** The elements of a list that can be written: no commas, no leading white space. *)
Definition item_ok (v : bytes) : Prop := (","%char ∉ v) ∧ at_margin v ∧ utf8_valid v = true.

Lemma split_commas_items vs w :
  Forall item_ok (vs ++ [w]) → split_commas (concat (map (λ v, v ++ str ",") vs) ++ w) = (vs, w) ∧
    utf8_valid (concat (map (λ v, v ++ str ",") vs) ++ w) = true.
Proof.
  induction vs as [|v vs IH]; intros Hok; cbn [app map concat] in *.
  - apply Forall_cons in Hok as [(Hw & _ & Hu) _]. split; [by apply split_commas_none|done].
  - apply Forall_cons in Hok as [(Hv & _ & Hu) Hok]. destruct (IH Hok) as [IH1 IH2]. rewrite <- !app_assoc. split.
    + change (str ",") with [","%char] at 1. cbn [app]. rewrite split_commas_app by done. by rewrite IH1.
    + apply utf8_valid_app; [done|]. by apply utf8_valid_app.
Qed.

(** A value stored through one of the typed setters is read back by the
    matching getter, whatever the file held before: integers over the whole range
    of [int], booleans, strings in UTF-8, and lists of strings without commas or
    leading white space whose last element is not empty. *)
Theorem config_typed_roundtrip (c : configfile) (g k : bytes) :
  (∀ v, - 2 ^ 31 ≤ v < 2 ^ 31 → ∃ c', config_set_integer (Some c) (Some g) (Some k) v = (CF_OK, Some c') ∧
     config_get_integer false (Some c') (Some g) (Some k) = (CF_OK, v)) ∧
  (∀ b, ∃ c', config_set_boolean (Some c) (Some g) (Some k) b = (CF_OK, Some c') ∧
     config_get_boolean (Some c') (Some g) (Some k) = (CF_OK, if b =? 0 then 0 else 1)) ∧
  (∀ s, utf8_valid s = true → ∃ c', config_set_string (Some c) (Some g) (Some k) (Some s) = (CF_OK, Some c') ∧
     config_get_string (Some c') (Some g) (Some k) = (Some CF_OK, Some s)) ∧
  (∀ vs w n, Forall item_ok (vs ++ [w]) → w ≠ [] → (length vs < n)%nat →
     ∃ c', config_set_string_list (Some c) (Some g) (Some k) (vs ++ [w]) n = (CF_OK, Some c') ∧
     config_get_string_list (Some c') (Some g) (Some k) = (Some CF_OK, Some (vs ++ [w]))).
Proof.
  split_and!.
  - intros v Hv. destruct (set_then_get c g k (print_int v)) as (c' & E & Hg). exists c'. split; [exact E|].
    unfold config_get_integer. rewrite Hg. destruct (strtoul_print_int v Hv) as (-> & -> & Hne).
    rewrite bool_decide_eq_false_2 by done. rewrite bool_decide_eq_true_2 by done. cbn [orb negb].
    assert (to_long (u64 v) = v ∧ to_int v = v) as [-> ->].
    { unfold to_long, to_int, u64, u32. rewrite Z.mod_mod by lia. destruct (Z.ltb_spec v 0) as [Hn|Hp].
      - rewrite <- (Z.mod_add v 1 (2 ^ 64)), <- (Z.mod_add v 1 (2 ^ 32)), !Z.mod_small by lia.
        rewrite !(proj2 (Z.ltb_ge _ _)) by lia. lia.
      - rewrite !Z.mod_small, !(proj2 (Z.ltb_lt _ _)) by lia. done. }
    by rewrite Z.eqb_refl.
  - intros b. destruct (set_then_get c g k (if negb (b =? 0) then str "true" else str "false")) as (c' & E & Hg).
    exists c'. split; [exact E|]. unfold config_get_boolean. rewrite Hg. by destruct (b =? 0).
  - intros s Hs. destruct (set_then_get c g k s) as (c' & E & Hg). exists c'. split; [exact E|].
    unfold config_get_string. by rewrite Hg, Hs.
  - intros vs w n Hok Hw Hn. destruct (split_commas_items vs w Hok) as [Hsp Hu].
    destruct (set_then_get c g k (concat (map (λ v, v ++ str ",") vs) ++ w)) as (c' & E & Hg). exists c'. split.
    + unfold config_set_string_list. rewrite take_ge by (rewrite length_app; simpl; lia).
      destruct (vs ++ [w]) as [|x l] eqn:El; [by destruct vs|]. cbv zeta. rewrite <- El.
      rewrite map_app, concat_app. cbn [map concat]. rewrite app_nil_r, app_assoc.
      rewrite (length_app _ (str ",")). change (length (str ",")) with 1%nat. rewrite Nat.add_sub, take_app_length. exact E.
    + unfold config_get_string_list. rewrite Hg, Hu, Hsp. destruct w as [|x w]; [done|]. do 2 f_equal.
      clear - Hok. induction Hok as [|v l (_ & Hm & _) _ IH]; [done|]. cbn [fmap list_fmap]. rewrite skip_spaces_margin by done. by rewrite IH.
Qed.
