(* ===== verification/Commands.v ===== *)
(** * Commands: libwzd-core/wzd_protocol.c and libwzd-core/wzd_commands.c

    The table of commands, a hash table of [Hash] that maps a name in lower case
    to a structure with the handler and the permissions of the command; the
    parsing of a line of the control connection, and the part of
    [clientThreadProc] (wzd_ClientThread.c) that goes from the bytes read to the
    handler, or to a refusal. A C function is the name it has in the source. The
    commands are those of a server with TLS, without Kerberos. *)

From S2P Require Import Prelude CList Hash Ip Registry Users Backend Perm Str.

(** ** Tokens *)

Definition TOK_UNKNOWN : Z := 0.
Definition TOK_HELP : Z := 1.
Definition TOK_USER : Z := 2.
Definition TOK_PASS : Z := 3.
Definition TOK_AUTH : Z := 4.
Definition TOK_QUIT : Z := 5.
Definition TOK_TYPE : Z := 6.
Definition TOK_MODE : Z := 7.
Definition TOK_PORT : Z := 8.
Definition TOK_PASV : Z := 9.
Definition TOK_PWD : Z := 10.
Definition TOK_NOOP : Z := 11.
Definition TOK_SYST : Z := 12.
Definition TOK_CWD : Z := 13.
Definition TOK_CDUP : Z := 14.
Definition TOK_LIST : Z := 15.
Definition TOK_NLST : Z := 16.
Definition TOK_STAT : Z := 17.
Definition TOK_MKD : Z := 18.
Definition TOK_RMD : Z := 19.
Definition TOK_RETR : Z := 20.
Definition TOK_STOR : Z := 21.
Definition TOK_REST : Z := 22.
Definition TOK_MDTM : Z := 23.
Definition TOK_SIZE : Z := 24.
Definition TOK_DELE : Z := 25.
Definition TOK_ABOR : Z := 26.
Definition TOK_PBSZ : Z := 27.
Definition TOK_PROT : Z := 28.
Definition TOK_CPSV : Z := 29.
Definition TOK_SSCN : Z := 30.
Definition TOK_ADAT : Z := 31.
Definition TOK_MIC : Z := 32.
Definition TOK_SITE : Z := 33.
Definition TOK_FEAT : Z := 34.
Definition TOK_ALLO : Z := 35.
Definition TOK_RNFR : Z := 36.
Definition TOK_RNTO : Z := 37.
Definition TOK_APPE : Z := 38.
Definition TOK_EPSV : Z := 39.
Definition TOK_EPRT : Z := 40.
Definition TOK_PRET : Z := 41.
Definition TOK_XCRC : Z := 42.
Definition TOK_XMD5 : Z := 43.
Definition TOK_OPTS : Z := 44.
Definition TOK_MLST : Z := 45.
Definition TOK_MLSD : Z := 46.
Definition TOK_MODA : Z := 47.
Definition TOK_IDNT : Z := 48.
Definition TOK_SITE_ADDIP : Z := 64.
Definition TOK_SITE_ADDUSER : Z := 65.
Definition TOK_SITE_BACKEND : Z := 66.
Definition TOK_SITE_CHACL : Z := 67.
Definition TOK_SITE_CHANGE : Z := 68.
Definition TOK_SITE_CHANGEGRP : Z := 69.
Definition TOK_SITE_CHECKPERM : Z := 70.
Definition TOK_SITE_CHGRP : Z := 71.
Definition TOK_SITE_CHMOD : Z := 72.
Definition TOK_SITE_CHOWN : Z := 73.
Definition TOK_SITE_CHPASS : Z := 74.
Definition TOK_SITE_CHRATIO : Z := 75.
Definition TOK_SITE_CLOSE : Z := 76.
Definition TOK_SITE_COLOR : Z := 77.
Definition TOK_SITE_DELIP : Z := 78.
Definition TOK_SITE_DELUSER : Z := 79.
Definition TOK_SITE_FLAGS : Z := 80.
Definition TOK_SITE_FREE : Z := 81.
Definition TOK_SITE_GINFO : Z := 82.
Definition TOK_SITE_GIVE : Z := 83.
Definition TOK_SITE_GROUP : Z := 84.
Definition TOK_SITE_GROUPS : Z := 85.
Definition TOK_SITE_GRPADD : Z := 86.
Definition TOK_SITE_GRPADDIP : Z := 87.
Definition TOK_SITE_GRPCHANGE : Z := 88.
Definition TOK_SITE_GRPDEL : Z := 89.
Definition TOK_SITE_GRPDELIP : Z := 90.
Definition TOK_SITE_GRPKILL : Z := 91.
Definition TOK_SITE_GRPRATIO : Z := 92.
Definition TOK_SITE_GRPREN : Z := 93.
Definition TOK_SITE_GSINFO : Z := 94.
Definition TOK_SITE_HELP : Z := 95.
Definition TOK_SITE_IDLE : Z := 96.
Definition TOK_SITE_INVITE : Z := 97.
Definition TOK_SITE_KICK : Z := 98.
Definition TOK_SITE_KILL : Z := 99.
Definition TOK_SITE_KILLPATH : Z := 100.
Definition TOK_SITE_LINK : Z := 101.
Definition TOK_SITE_MSG : Z := 102.
Definition TOK_SITE_PERM : Z := 103.
Definition TOK_SITE_PURGE : Z := 104.
Definition TOK_SITE_READD : Z := 105.
Definition TOK_SITE_RELOAD : Z := 106.
Definition TOK_SITE_REOPEN : Z := 107.
Definition TOK_SITE_RUSAGE : Z := 108.
Definition TOK_SITE_SAVECFG : Z := 109.
Definition TOK_SITE_SECTIONS : Z := 110.
Definition TOK_SITE_SHOWLOG : Z := 111.
Definition TOK_SITE_SHUTDOWN : Z := 112.
Definition TOK_SITE_SWHO : Z := 113.
Definition TOK_SITE_SU : Z := 114.
Definition TOK_SITE_TAGLINE : Z := 115.
Definition TOK_SITE_TAKE : Z := 116.
Definition TOK_SITE_TEST : Z := 117.
Definition TOK_SITE_UNLOCK : Z := 118.
Definition TOK_SITE_UPTIME : Z := 119.
Definition TOK_SITE_USER : Z := 120.
Definition TOK_SITE_USERS : Z := 121.
Definition TOK_SITE_UTIME : Z := 122.
Definition TOK_SITE_VARS : Z := 123.
Definition TOK_SITE_VARS_GROUP : Z := 124.
Definition TOK_SITE_VARS_USER : Z := 125.
Definition TOK_SITE_VERSION : Z := 126.
Definition TOK_SITE_VFSLS : Z := 127.
Definition TOK_SITE_VFSADD : Z := 128.
Definition TOK_SITE_VFSDEL : Z := 129.
Definition TOK_SITE_WHO : Z := 130.
Definition TOK_SITE_WIPE : Z := 131.
Definition TOK_CUSTOM : Z := 132.
Definition TOK_NOTHING : Z := 256.

(** The cases of the [switch], in order. *)
Definition fast_tokens : list (string * Z) :=
  [("help", TOK_HELP); ("user", TOK_USER); ("pass", TOK_PASS); ("auth", TOK_AUTH); ("quit", TOK_QUIT); ("type", TOK_TYPE);
   ("mode", TOK_MODE); ("port", TOK_PORT); ("pasv", TOK_PASV); ("pwd", TOK_PWD); ("noop", TOK_NOOP); ("syst", TOK_SYST);
   ("cwd", TOK_CWD); ("cdup", TOK_CDUP); ("list", TOK_LIST); ("nlst", TOK_NLST); ("mlst", TOK_MLST); ("mlsd", TOK_MLSD);
   ("mkd", TOK_MKD); ("rmd", TOK_RMD); ("retr", TOK_RETR); ("stor", TOK_STOR); ("appe", TOK_APPE); ("rest", TOK_REST);
   ("mdtm", TOK_MDTM); ("size", TOK_SIZE); ("dele", TOK_DELE); ("abor", TOK_ABOR); ("pbsz", TOK_PBSZ); ("prot", TOK_PROT);
   ("cpsv", TOK_CPSV); ("sscn", TOK_SSCN); ("site", TOK_SITE); ("feat", TOK_FEAT); ("allo", TOK_ALLO); ("rnfr", TOK_RNFR);
   ("rnto", TOK_RNTO); ("idnt", TOK_IDNT); ("epsv", TOK_EPSV); ("eprt", TOK_EPRT); ("pret", TOK_PRET); ("xcrc", TOK_XCRC);
   ("xmd5", TOK_XMD5); ("opts", TOK_OPTS); ("moda", TOK_MODA); ("adat", TOK_ADAT); ("mic", TOK_MIC)].

Fixpoint assoc (t : list ascii) (l : list (string * Z)) : option Z :=
  match l with
  | [] => None
  | (n, v) :: l => if streq t (str n) then Some v else assoc t l
  end.

Definition TELNET_FF : ascii := "255"%char.
Definition TELNET_IP : ascii := "244"%char.
Definition TELNET_SYNCH : ascii := "242"%char.

(** Four bytes are copied to an array without a NUL, so that the comparison with
    the longest telnet sequence reads a fifth one. The bytes after a token
    shorter than four match no case of the switch. *)
Definition identify_token (token : option (list ascii)) : outcome Z :=
  match token with
  | None | Some [] => Val TOK_UNKNOWN
  | Some t =>
    let buf := map ascii_lower_char (take 4 t) in
    match (if (length t <=? 4)%nat then assoc buf fast_tokens else None) with
    | Some id => Val id
    | None =>
      if streq buf [TELNET_FF; TELNET_SYNCH] then Val TOK_NOTHING
      else if streq buf [TELNET_FF; TELNET_IP; TELNET_FF; TELNET_SYNCH] then Crash
      else if streq buf [TELNET_FF; TELNET_IP] then Val TOK_NOTHING
      else if streq buf [TELNET_FF] then Val TOK_NOTHING
      else Val TOK_UNKNOWN
    end
  end.

(** ** The table of commands *)

Record wzd_command_t := mkCommand {
  cm_name : list ascii;
  cm_id : Z;
  cm_command : option string;
  cm_help : option string;
  cm_external : option (list ascii);
  cm_perms : list wzd_command_perm_t }.

(** The table holds the addresses of the structures. *)
Record ctable := mkCtable {
  ct_table : CHTBL (list ascii) addr unit;
  ct_heap : gmap addr wzd_command_t }.

Definition commands_init : option ctable :=
  match chtbl_init true 128 str_hash str_match true with
  | (0, Some t) => Some (mkCtable t ∅)
  | _ => None
  end.

(** A new structure under its name; [malloc] succeeds. *)
Definition insert_command (com : wzd_command_t) (ct : ctable) : outcome (Z * ctable) :=
  let a := fresh (dom (ct_heap ct)) in
  '(r, t) ← chtbl_insert (Some a) true (ct_table ct) (Some (cm_name com)) (Some a) None false true;
  if r =? 0 then Val (0, mkCtable t (<[a := com]> (ct_heap ct))) else Val (-1, ct).

(** The name is looked up as it is given, and stored in lower case. *)
Definition commands_add (name : list ascii) (command help : option string) (id : Z) (ct : ctable) : outcome (Z * ctable) :=
  match command with
  | None => Val (-1, ct)
  | Some _ =>
    if id =? 0 then Val (-1, ct) else
    r ← chtbl_lookup (ct_table ct) (Some name);
    if r.1 =? 0 then Val (0, ct)
    else insert_command (mkCommand (map ascii_lower_char name) id command help None []) ct
  end.

Definition commands_add_external (name external : list ascii) (ct : ctable) : outcome (Z * ctable) :=
  r ← chtbl_lookup (ct_table ct) (Some name);
  '(ok, ct) ← (if r.1 =? 0 then
                 d ← deref r.2; a ← deref d;
                 com ← deref (ct_heap ct !! a);
                 r ← chtbl_remove (ct_table ct) (Some (cm_name com));
                 if negb (r.1.1 =? 0) then Val (false, ct) else Val (true, mkCtable r.1.2 (delete a (ct_heap ct)))
               else Val (true, ct));
  if negb ok then Val (-1, ct)
  else insert_command (mkCommand (map ascii_lower_char name) TOK_CUSTOM None None (Some external) []) ct.

(** The calls of [commands_add_defaults]: name, handler, help and identifier. *)
Definition defaults : list (string * string * option string * Z) :=
  [("site", "do_site", None, TOK_SITE);
   ("type", "do_type", None, TOK_TYPE);
   ("port", "do_port", None, TOK_PORT);
   ("pasv", "do_pasv", None, TOK_PASV);
   ("eprt", "do_eprt", None, TOK_EPRT);
   ("epsv", "do_epsv", None, TOK_EPSV);
   ("abor", "do_abor", None, TOK_ABOR);
   ("pwd", "do_print_message", None, TOK_PWD);
   ("allo", "do_print_message", None, TOK_ALLO);
   ("feat", "do_print_message", None, TOK_FEAT);
   ("noop", "do_print_message", None, TOK_NOOP);
   ("syst", "do_print_message", None, TOK_SYST);
   ("rnfr", "do_rnfr", None, TOK_RNFR);
   ("rnto", "do_rnto", None, TOK_RNTO);
   ("cdup", "do_cwd", None, TOK_CDUP);
   ("cwd", "do_cwd", None, TOK_CWD);
   ("list", "do_list", None, TOK_LIST);
   ("nlst", "do_list", None, TOK_NLST);
   ("mlst", "do_mlst", None, TOK_MLST);
   ("mlsd", "do_mlsd", None, TOK_MLSD);
   ("stat", "do_stat", None, TOK_STAT);
   ("mkd", "do_mkdir", None, TOK_MKD);
   ("rmd", "do_rmdir", None, TOK_RMD);
   ("retr", "do_retr", None, TOK_RETR);
   ("stor", "do_stor", None, TOK_STOR);
   ("appe", "do_stor", None, TOK_APPE);
   ("rest", "do_rest", None, TOK_REST);
   ("mdtm", "do_mdtm", None, TOK_MDTM);
   ("size", "do_size", None, TOK_SIZE);
   ("dele", "do_dele", None, TOK_DELE);
   ("delete", "do_dele", None, TOK_DELE);
   ("pret", "do_pret", None, TOK_PRET);
   ("xcrc", "do_xcrc", None, TOK_XCRC);
   ("xmd5", "do_xmd5", None, TOK_XMD5);
   ("opts", "do_opts", None, TOK_OPTS);
   ("help", "do_help", None, TOK_HELP);
   ("quit", "do_quit", None, TOK_QUIT);
   ("pbsz", "do_pbsz", None, TOK_PBSZ);
   ("prot", "do_prot", None, TOK_PROT);
   ("cpsv", "do_pasv", None, TOK_CPSV);
   ("sscn", "do_sscn", None, TOK_SSCN);
   ("moda", "do_moda", None, TOK_MODA);
   ("site_addip", "do_site_addip", Some "do_site_help_addip", TOK_SITE_ADDIP);
   ("site_adduser", "do_site_adduser", Some "do_site_help_adduser", TOK_SITE_ADDUSER);
   ("site_backend", "do_site_backend", None, TOK_SITE_BACKEND);
   ("site_chacl", "do_site_chacl", None, TOK_SITE_CHACL);
   ("site_change", "do_site_change", Some "do_site_help_change", TOK_SITE_CHANGE);
   ("site_changegrp", "do_site_changegrp", Some "do_site_help_changegrp", TOK_SITE_CHANGEGRP);
   ("site_checkperm", "do_site_checkperm", None, TOK_SITE_CHECKPERM);
   ("site_chgrp", "do_site_chgrp", None, TOK_SITE_CHGRP);
   ("site_chmod", "do_site_chmod", None, TOK_SITE_CHMOD);
   ("site_chown", "do_site_chown", None, TOK_SITE_CHOWN);
   ("site_chpass", "do_site_chpass", None, TOK_SITE_CHPASS);
   ("site_chratio", "do_site_chratio", Some "do_site_help_chratio", TOK_SITE_CHRATIO);
   ("site_close", "do_site", None, TOK_SITE_CLOSE);
   ("site_color", "do_site_color", None, TOK_SITE_COLOR);
   ("site_delip", "do_site_delip", Some "do_site_help_delip", TOK_SITE_DELIP);
   ("site_deluser", "do_site_deluser", Some "do_site_help_deluser", TOK_SITE_DELUSER);
   ("site_flags", "do_site_flags", None, TOK_SITE_FLAGS);
   ("site_free", "do_site_free", None, TOK_SITE_FREE);
   ("site_ginfo", "do_site_ginfo", None, TOK_SITE_GINFO);
   ("site_give", "do_site_give", Some "do_site_help_give", TOK_SITE_GIVE);
   ("site_group", "do_site_group", Some "do_site_help_group", TOK_SITE_GROUP);
   ("site_grpadd", "do_site_grpadd", Some "do_site_help_grpadd", TOK_SITE_GRPADD);
   ("site_grpaddip", "do_site_grpaddip", Some "do_site_help_grpaddip", TOK_SITE_GRPADDIP);
   ("site_grpchange", "do_site_grpchange", Some "do_site_help_grpchange", TOK_SITE_GRPCHANGE);
   ("site_grpdel", "do_site_grpdel", Some "do_site_help_grpdel", TOK_SITE_GRPDEL);
   ("site_grpdelip", "do_site_grpdelip", Some "do_site_help_grpdelip", TOK_SITE_GRPDELIP);
   ("site_grpkill", "do_site_grpkill", None, TOK_SITE_GRPKILL);
   ("site_grpratio", "do_site_grpratio", Some "do_site_help_grpratio", TOK_SITE_GRPRATIO);
   ("site_grpren", "do_site_grpren", Some "do_site_help_grpren", TOK_SITE_GRPREN);
   ("site_gsinfo", "do_site_gsinfo", None, TOK_SITE_GSINFO);
   ("site_help", "do_site_help_command", None, TOK_SITE_HELP);
   ("site_idle", "do_site_idle", None, TOK_SITE_IDLE);
   ("site_invite", "do_site_invite", None, TOK_SITE_INVITE);
   ("site_kick", "do_site_kick", None, TOK_SITE_KICK);
   ("site_kill", "do_site_kill", None, TOK_SITE_KILL);
   ("site_killpath", "do_site_killpath", None, TOK_SITE_KILLPATH);
   ("site_link", "do_site_link", None, TOK_SITE_LINK);
   ("site_msg", "do_site_msg", None, TOK_SITE_MSG);
   ("site_perm", "do_site_perm", None, TOK_SITE_PERM);
   ("site_purge", "do_site_purgeuser", None, TOK_SITE_PURGE);
   ("site_readd", "do_site_readduser", Some "do_site_help_readduser", TOK_SITE_READD);
   ("site_reload", "do_site_reload", None, TOK_SITE_RELOAD);
   ("site_reopen", "do_site", None, TOK_SITE_REOPEN);
   ("site_rusage", "do_site_rusage", None, TOK_SITE_RUSAGE);
   ("site_savecfg", "do_site_savecfg", None, TOK_SITE_SAVECFG);
   ("site_sections", "do_site_sections", None, TOK_SITE_SECTIONS);
   ("site_showlog", "do_site_showlog", None, TOK_SITE_SHOWLOG);
   ("site_shutdown", "do_site", None, TOK_SITE_SHUTDOWN);
   ("site_su", "do_site_su", Some "do_site_help_su", TOK_SITE_SU);
   ("site_tagline", "do_site_tagline", None, TOK_SITE_TAGLINE);
   ("site_take", "do_site_take", Some "do_site_help_take", TOK_SITE_TAKE);
   ("site_unlock", "do_site_unlock", None, TOK_SITE_UNLOCK);
   ("site_uptime", "do_site", None, TOK_SITE_UPTIME);
   ("site_user", "do_site_user", None, TOK_SITE_USER);
   ("site_utime", "do_site_utime", None, TOK_SITE_UTIME);
   ("site_vars", "do_site_vars", None, TOK_SITE_VARS);
   ("site_vars_group", "do_site_vars_group", None, TOK_SITE_VARS_GROUP);
   ("site_vars_user", "do_site_vars_user", None, TOK_SITE_VARS_USER);
   ("site_version", "do_site_version", None, TOK_SITE_VERSION);
   ("site_vfsadd", "do_site_vfsadd", None, TOK_SITE_VFSADD);
   ("site_vfsdel", "do_site_vfsdel", None, TOK_SITE_VFSDEL);
   ("site_who", "do_site", None, TOK_SITE_WHO);
   ("site_wipe", "do_site_wipe", None, TOK_SITE_WIPE)].

Fixpoint add_all (l : list (string * string * option string * Z)) (ct : ctable) : outcome (Z * ctable) :=
  match l with
  | [] => Val (0, ct)
  | (name, f, help, id) :: l =>
    '(r, ct) ← commands_add (str name) (Some f) help id ct;
    if negb (r =? 0) then Val (-1, ct) else add_all l ct
  end.

Definition commands_add_defaults (ct : ctable) : outcome (Z * ctable) := add_all defaults ct.

(** [str] is put in lower case; the structure found. *)
Definition commands_find (ct : ctable) (name : option (option (list ascii))) : outcome (option addr * option (option (list ascii))) :=
  match name with
  | None => Val (None, None)
  | Some name =>
    let name := option_map (map ascii_lower_char) name in
    r ← chtbl_lookup (ct_table ct) name;
    Val (match r.2 with Some d => d | None => None end, Some name)
  end.

Definition set_perms (a : addr) (com : wzd_command_t) (perms : list wzd_command_perm_t) (ct : ctable) : ctable :=
  mkCtable (ct_table ct)
    (<[a := mkCommand (cm_name com) (cm_id com) (cm_command com) (cm_help com) (cm_external com) perms]> (ct_heap ct)).

Definition commands_set_permission (permname : list ascii) (permline : option (list ascii)) (ct : ctable) : outcome (Z * ctable) :=
  f ← commands_find ct (Some (Some permname));
  match f.1 with
  | None => Val (-1, ct)
  | Some a =>
    com ← deref (ct_heap ct !! a);
    '(r, perms) ← perm_add_perm (Some permname) permline [];
    if r =? 0 then Val (0, set_perms a com perms ct) else Val (1, ct)
  end.

Definition commands_add_permission (permname : list ascii) (permline : option (list ascii)) (ct : ctable) : outcome (Z * ctable) :=
  f ← commands_find ct (Some (Some permname));
  match f.1 with
  | None => Val (-1, ct)
  | Some a =>
    com ← deref (ct_heap ct !! a);
    '(r, perms) ← perm_add_perm (Some permname) permline (cm_perms com);
    Val (r, set_perms a com perms ct)
  end.

Definition commands_delete_permission (name : option (option (list ascii))) (ct : ctable) : outcome (Z * ctable) :=
  f ← commands_find ct name;
  match f.1 with
  | None => Val (1, ct)
  | Some a => com ← deref (ct_heap ct !! a); Val (0, set_perms a com [] ct)
  end.

(** The check looks at the first permission of the list only. *)
Definition commands_check_permission (b : option wzd_backend_t) (com : option wzd_command_t) (userid : Z) (w : world) : outcome Z :=
  match com with
  | None => Val 0
  | Some com => perm_check_perm b (head (cm_perms com)) userid w
  end.

(** ** Parsing a line *)

(** The position of the first space, then the character after it. *)
Definition _basic_check_ftp (command : option (list ascii)) : Z :=
  match command with
  | None => -1
  | Some s =>
    let '(t, rest) := take_until (λ c, bool_decide (c = " "%char)) s in
    if (4 <? length t)%nat then 1 else
    if bool_decide (head rest = Some " "%char) then 1 else 0
  end.

Record ftp_command_t := mkFtp {
  fc_name : option (list ascii);
  fc_args : list ascii;
  fc_command : addr }.

Definition parse_ftp_command (ct : ctable) (s : list ascii) : outcome (option ftp_command_t) :=
  if negb (_basic_check_ftp (Some s) =? 0) then Val None else
  let '(token, s) := tok_line (str " ") s in
  match token with
  | None => Val None
  | Some _ =>
    '(c, token) ← commands_find ct token;
    match c with
    | None => Val None
    | Some a =>
      com ← deref (ct_heap ct !! a);
      if cm_id com =? TOK_SITE then
        let '(site_command, s) := tok_line (str " " ++ [TAB]) s in
        match site_command with
        | None => Val None
        | Some sc =>
          let name := option_map (λ t, t ++ str "_" ++ default [] sc) (default None token) in
          '(real, token) ← commands_find ct (Some (option_map (map ascii_lower_char) name));
          Val (Some (mkFtp (default None token) s (default a real)))
        end
      else Val (Some (mkFtp (default None token) s a))
    end
  end.

Definition WZD_BUFFER_LEN : nat := 1024.

Definition is_telnet (c : ascii) : bool :=
  bool_decide (c = TELNET_FF) || bool_decide (c = TELNET_IP) || bool_decide (c = TELNET_SYNCH).

(** The string in the buffer afterwards; [length] counts the bytes read, the last
    of which is overwritten. *)
Definition cleanup_ftp_command (buffer : list ascii) (length : nat) : outcome (list ascii) :=
  buffer ← buf_set buffer (Z.of_nat length - 1) NUL;
  s ← buf_str buffer;
  let s := match s with
           | c :: _ => if bool_decide (c = TELNET_FF) then take (WZD_BUFFER_LEN - 1) (skip_while is_telnet s) else s
           | [] => s
           end in
  Val (take_until (λ c, bool_decide (c = CR) || bool_decide (c = LF)) s).1.

(** ** One line of the control connection *)

Inductive dispatched :=
  | Ignored                                                        (** nothing is left of the line *)
  | Unknown                                                        (** reply 502 *)
  | Denied                                                         (** reply 501, Permission Denied *)
  | Run (f : string) (name : option (list ascii)) (args : list ascii)
  | External (line : option (list ascii)) (args : list ascii).

(** What [clientThreadProc] does with the bytes it has read: the user is checked
    against the permissions of the command when it has any. [str_trim_right] keeps
    the first character whatever it is. *)
Definition client_line (b : option wzd_backend_t) (ct : ctable) (w : world) (userid : Z) (buffer : list ascii) (length : nat)
    : outcome dispatched :=
  line ← cleanup_ftp_command buffer length;
  match line with
  | [] => Val Ignored
  | c :: line =>
    c ← parse_ftp_command ct (c :: trim_end line);
    match c with
    | None => Val Unknown
    | Some c =>
      com ← deref (ct_heap ct !! fc_command c);
      denied ← (match cm_perms com with [] => Val 0 | _ => commands_check_permission b (Some com) userid w end);
      if negb (denied =? 0) then Val Denied else
      match cm_command com with
      | Some f => Val (Run f (fc_name c) (fc_args c))
      | None => Val (External (cm_external com) (fc_args c))
      end
    end
  end.

(** ** The table as a finite map

    From names in lower case to commands. No two names share a structure, so
    that a change of permissions concerns one command. *)

Definition lower (s : list ascii) : list ascii := map ascii_lower_char s.

Lemma lower_idemp s : lower (lower s) = lower s.
Proof. unfold lower. rewrite map_map. apply map_ext. all_chars. Qed.

Record ct_rep (ct : ctable) (tt : list (list (CHTBL_Elmnt (list ascii) addr unit))) (m : gmap (list ascii) wzd_command_t) : Prop := {
  cr_table : chtbl_rep (ct_table ct) tt;
  cr_match : hmatch (ct_table ct) = str_match;
  cr_none k : tbl_get (ct_table ct) tt (Some k) = None → m !! k = None;
  cr_some k e : tbl_get (ct_table ct) tt (Some k) = Some e →
    ∃ a com, en_data e = Some a ∧ ct_heap ct !! a = Some com ∧ m !! k = Some com ∧ cm_name com = k ∧ lower k = k }.

Definition holds_commands (ct : ctable) (m : gmap (list ascii) wzd_command_t) : Prop := ∃ tt, ct_rep ct tt m.

(** The address of a command says its name, so two names have two addresses. *)
Lemma cr_get ct tt m k com :
  ct_rep ct tt m → m !! k = Some com →
  ∃ e a, tbl_get (ct_table ct) tt (Some k) = Some e ∧ en_data e = Some a ∧ ct_heap ct !! a = Some com ∧ cm_name com = k ∧ lower k = k.
Proof.
  intros Hr Hk. destruct (tbl_get (ct_table ct) tt (Some k)) as [e|] eqn:He; [|by rewrite (cr_none _ _ _ Hr k He) in Hk].
  destruct (cr_some _ _ _ Hr k e He) as (a & com' & ? & ? & ? & ? & ?). simplify_eq. by exists e, a.
Qed.

Lemma lookup_commands ct m k :
  holds_commands ct m →
  match m !! k with
  | Some com => ∃ a, chtbl_lookup (ct_table ct) (Some k) = Val (0, Some (Some a)) ∧ ct_heap ct !! a = Some com
  | None => chtbl_lookup (ct_table ct) (Some k) = Val (1, None)
  end.
Proof.
  intros [tt Hr]. rewrite (chtbl_lookup_get _ tt) by apply Hr. destruct (m !! k) as [com|] eqn:Hk.
  - destruct (cr_get _ _ _ _ _ Hr Hk) as (e & a & -> & -> & Ha & _). by exists a.
  - destruct (tbl_get _ _ _) as [e|] eqn:He; [|done]. destruct (cr_some _ _ _ Hr k e He) as (? & ? & ? & ? & ? & _). congruence.
Qed.

Lemma insert_command_spec com ct m :
  holds_commands ct m → lower (cm_name com) = cm_name com →
  match m !! cm_name com with
  | Some _ => insert_command com ct = Val (-1, ct)
  | None => ∃ ct', insert_command com ct = Val (0, ct') ∧ holds_commands ct' (<[cm_name com := com]> m)
  end.
Proof.
  intros [tt Hr] Hlow. unfold insert_command. set (a := fresh _).
  destruct (tbl_get (ct_table ct) tt (Some (cm_name com))) as [e|] eqn:He.
  - destruct (cr_some _ _ _ Hr _ e He) as (? & ? & _ & _ & -> & _). by rewrite (chtbl_insert_present _ tt _ _ _ _ _ _ _ e) by (done || apply Hr).
  - rewrite (cr_none _ _ _ Hr _ He).
    destruct (chtbl_insert_rep (ct_table ct) tt a (cm_name com) (Some a) None false true (cr_table _ _ _ Hr) He) as (t' & tt' & -> & Ht' & Hm & _ & Hget).
    run. eexists; split; [done|]. exists tt'. rewrite (cr_match _ _ _ Hr) in Hget, Hm. split; [done|done| |]; cbn [ct_table ct_heap].
    + intros k. rewrite Hget. destruct (Z.eqb_spec (str_match (Some k) (Some (cm_name com))) 0) as [|Hne]; [done|].
      intros Hk. rewrite lookup_insert_ne by (intros <-; apply Hne; by apply str_match_eq). by apply (cr_none _ _ _ Hr).
    + intros k e. rewrite Hget. destruct (Z.eqb_spec (str_match (Some k) (Some (cm_name com))) 0) as [Heq|Hne].
      * apply str_match_eq in Heq. injection Heq as ->. intros [= <-]. exists a, com. by rewrite !lookup_insert_eq.
      * intros Hk. destruct (cr_some _ _ _ Hr k e Hk) as (a' & com' & ? & Ha' & ? & ? & ?). exists a', com'.
        rewrite lookup_insert_ne. 2: { intros <-. apply (is_fresh (dom (ct_heap ct))). by apply elem_of_dom_2 in Ha'. }
        rewrite lookup_insert_ne by (intros <-; apply Hne; by apply str_match_eq). done.
Qed.

Lemma remove_command_spec ct m k com :
  holds_commands ct m → m !! k = Some com →
  ∃ a t evs, chtbl_lookup (ct_table ct) (Some k) = Val (0, Some (Some a)) ∧ ct_heap ct !! a = Some com ∧
    chtbl_remove (ct_table ct) (Some (cm_name com)) = Val (0, t, evs) ∧ holds_commands (mkCtable t (delete a (ct_heap ct))) (delete k m).
Proof.
  intros [tt Hr] Hk. destruct (cr_get _ _ _ _ _ Hr Hk) as (e & a & He & Hd & Ha & Hn & _). rewrite Hn.
  destruct (chtbl_remove_rep (ct_table ct) tt (Some k) e (cr_table _ _ _ Hr) He) as (t & tt' & evs & Hrem & _ & Ht & Hm & _ & Hget).
  rewrite (cr_match _ _ _ Hr) in Hget, Hm. exists a, t, evs. split_and!; [|done|done|].
  { by rewrite (chtbl_lookup_get _ tt), He, Hd by apply Hr. }
  exists tt'. split; [done|done| |]; cbn [ct_table ct_heap]; intros k'; rewrite Hget.
  - destruct (Z.eqb_spec (str_match (Some k') (Some k)) 0) as [Heq|Hne].
    + apply str_match_eq in Heq. injection Heq as ->. by rewrite lookup_delete_eq.
    + intros H. rewrite lookup_delete_ne by (intros <-; apply Hne; by apply str_match_eq). by apply (cr_none _ _ _ Hr).
  - intros e'. destruct (Z.eqb_spec (str_match (Some k') (Some k)) 0) as [|Hne]; [done|]. intros H.
    assert (k' ≠ k) by (intros ->; apply Hne; by apply str_match_eq).
    destruct (cr_some _ _ _ Hr k' e' H) as (a' & com' & ? & Ha' & ? & ? & ?). exists a', com'.
    rewrite !lookup_delete_ne by (done || congruence). done.
Qed.

Definition with_perms (com : wzd_command_t) (perms : list wzd_command_perm_t) : wzd_command_t :=
  mkCommand (cm_name com) (cm_id com) (cm_command com) (cm_help com) (cm_external com) perms.

Lemma set_perms_spec ct m k com a perms :
  holds_commands ct m → m !! k = Some com → chtbl_lookup (ct_table ct) (Some k) = Val (0, Some (Some a)) →
  holds_commands (set_perms a com perms ct) (<[k := with_perms com perms]> m).
Proof.
  intros [tt Hr] Hk Hl. destruct (cr_get _ _ _ _ _ Hr Hk) as (e & a0 & He & Hd & Ha & Hn & Hlow).
  rewrite (chtbl_lookup_get _ tt), He, Hd in Hl by apply Hr. injection Hl as ->.
  exists tt. split; [apply Hr|apply Hr| |]; cbn [ct_table ct_heap set_perms]; intros k'.
  - intros H. rewrite lookup_insert_ne by congruence. by apply (cr_none _ _ _ Hr).
  - intros e' H. destruct (cr_some _ _ _ Hr k' e' H) as (a' & com' & ? & Ha' & ? & ? & ?).
    destruct (decide (k' = k)) as [->|Hne].
    + simplify_eq. exists a, (with_perms com perms). rewrite !lookup_insert_eq. done.
    + exists a', com'. rewrite !lookup_insert_ne by congruence. done.
Qed.

(** *** Operations on the table and on the map *)

Inductive table_op :=
  | Add (name : list ascii) (f : string) (help : option string) (id : Z)
  | AddExternal (name external : list ascii)
  | SetPermission (name : list ascii) (line : option (list ascii))
  | AddPermission (name : list ascii) (line : option (list ascii))
  | DeletePermission (name : list ascii).

Definition run_op (op : table_op) (ct : ctable) : outcome (Z * ctable) :=
  match op with
  | Add name f help id => commands_add name (Some f) help id ct
  | AddExternal name external => commands_add_external name external ct
  | SetPermission name line => commands_set_permission name line ct
  | AddPermission name line => commands_add_permission name line ct
  | DeletePermission name => commands_delete_permission (Some (Some name)) ct
  end.

Definition spec_insert (com : wzd_command_t) (m : gmap (list ascii) wzd_command_t) : Z * gmap (list ascii) wzd_command_t :=
  match m !! cm_name com with Some _ => (-1, m) | None => (0, <[cm_name com := com]> m) end.

(** A new permission list for the command of this name. *)
Definition spec_perms (name : list ascii) (absent : Z) (change : list wzd_command_perm_t → outcome (Z * option (list wzd_command_perm_t)))
    (m : gmap (list ascii) wzd_command_t) : outcome (Z * gmap (list ascii) wzd_command_t) :=
  match m !! lower name with
  | None => Val (absent, m)
  | Some com =>
    '(r, perms) ← change (cm_perms com);
    Val (r, match perms with Some p => <[lower name := with_perms com p]> m | None => m end)
  end.

Definition spec_op (op : table_op) (m : gmap (list ascii) wzd_command_t) : outcome (Z * gmap (list ascii) wzd_command_t) :=
  match op with
  | Add name f help id =>
    if id =? 0 then Val (-1, m) else
    match m !! name with
    | Some _ => Val (0, m)
    | None => Val (spec_insert (mkCommand (lower name) id (Some f) help None []) m)
    end
  | AddExternal name external =>
    Val (spec_insert (mkCommand (lower name) TOK_CUSTOM None None (Some external) []) (delete name m))
  | SetPermission name line =>
    spec_perms name (-1) (λ _, '(r, p) ← perm_add_perm (Some name) line []; Val (if r =? 0 then (0, Some p) else (1, None))) m
  | AddPermission name line =>
    spec_perms name (-1) (λ p, '(r, p) ← perm_add_perm (Some name) line p; Val (r, Some p)) m
  | DeletePermission name => spec_perms name 1 (λ _, Val (0, Some [])) m
  end.

Lemma find_commands ct m name :
  holds_commands ct m →
  match m !! lower name with
  | Some com => ∃ a, commands_find ct (Some (Some name)) = Val (Some a, Some (Some (lower name))) ∧
      chtbl_lookup (ct_table ct) (Some (lower name)) = Val (0, Some (Some a)) ∧ ct_heap ct !! a = Some com
  | None => commands_find ct (Some (Some name)) = Val (None, Some (Some (lower name)))
  end.
Proof.
  intros Hr. pose proof (lookup_commands ct m (lower name) Hr) as H. unfold commands_find. cbn [option_map]. fold (lower name).
  destruct (m !! lower name) as [com|]; [destruct H as (a & H & Ha); exists a|]; rewrite H; done.
Qed.

(** What an outcome on the table promises when the one on the map is known. *)
Definition matches {A} (o : outcome (A * ctable)) (s : outcome (A * gmap (list ascii) wzd_command_t)) : Prop :=
  match s with
  | Val (r, m) => ∃ ct, o = Val (r, ct) ∧ holds_commands ct m
  | Crash => o = Crash
  end.

Lemma insert_matches com ct m :
  holds_commands ct m → lower (cm_name com) = cm_name com → matches (insert_command com ct) (Val (spec_insert com m)).
Proof.
  intros Hr Hlow. pose proof (insert_command_spec com ct m Hr Hlow) as H. unfold spec_insert, matches.
  destruct (m !! cm_name com); [|done]. by exists ct.
Qed.

Lemma perms_matches name absent change ct m (run_change : wzd_command_t → addr → outcome (Z * ctable)) :
  holds_commands ct m →
  (∀ com a, run_change com a = '(r, perms) ← change (cm_perms com); Val (r, match perms with Some p => set_perms a com p ct | None => ct end)) →
  matches (f ← commands_find ct (Some (Some name));
           match f.1 with
           | None => Val (absent, ct)
           | Some a => com ← deref (ct_heap ct !! a); run_change com a
           end) (spec_perms name absent change m).
Proof.
  intros Hr Hrun. pose proof (find_commands ct m name Hr) as Hf. unfold spec_perms. destruct (m !! lower name) as [com|] eqn:Hk.
  - destruct Hf as (a & -> & Hl & Ha). run. cbn [fst]. rewrite Ha. run. rewrite Hrun.
    destruct (change (cm_perms com)) as [[r [p|]]|]; run; [|by exists ct|done].
    eexists; split; [done|]. by apply set_perms_spec.
  - rewrite Hf. by exists ct.
Qed.

Lemma run_op_matches op ct m : holds_commands ct m → matches (run_op op ct) (spec_op op m).
Proof.
  intros Hr. destruct op as [name f help id|name ext|name line|name line|name]; cbn [run_op spec_op].
  - unfold commands_add. destruct (id =? 0); [by exists ct|]. pose proof (lookup_commands ct m name Hr) as Hl.
    destruct (m !! name) as [com|]; [destruct Hl as (a & -> & _); by exists ct|]. rewrite Hl. run. cbn [fst Z.eqb].
    apply insert_matches; [done|apply lower_idemp].
  - unfold commands_add_external. destruct (m !! name) as [com|] eqn:Hk.
    + destruct (remove_command_spec ct m name com Hr Hk) as (a & t & evs & -> & Ha & Hrem & Hr'). run. cbn [fst snd Z.eqb deref]. run.
      rewrite Ha. run. rewrite Hrem. run. cbn [fst snd Z.eqb negb]. run. apply insert_matches; [done|apply lower_idemp].
    + pose proof (lookup_commands ct m name Hr) as Hl. rewrite Hk in Hl. rewrite Hl. run. cbn [fst Z.eqb]. run. cbn [negb].
      rewrite delete_id by done. apply insert_matches; [done|apply lower_idemp].
  - apply perms_matches; [done|]. intros com a. destruct (perm_add_perm _ _ _) as [[r p]|]; run; [|done]. by destruct (r =? 0).
  - apply perms_matches; [done|]. intros com a. by destruct (perm_add_perm _ _ _) as [[r p]|]; run.
  - by apply perms_matches.
Qed.

Fixpoint run_ops (ops : list table_op) (ct : ctable) : outcome (list Z * ctable) :=
  match ops with
  | [] => Val ([], ct)
  | op :: ops => '(r, ct) ← run_op op ct; '(rs, ct) ← run_ops ops ct; Val (r :: rs, ct)
  end.

Fixpoint spec_ops (ops : list table_op) (m : gmap (list ascii) wzd_command_t) : outcome (list Z * gmap (list ascii) wzd_command_t) :=
  match ops with
  | [] => Val ([], m)
  | op :: ops => '(r, m) ← spec_op op m; '(rs, m) ← spec_ops ops m; Val (r :: rs, m)
  end.

Lemma run_ops_matches ops ct m : holds_commands ct m → matches (run_ops ops ct) (spec_ops ops m).
Proof.
  revert ct m. induction ops as [|op ops IH]; intros ct m Hr; cbn [run_ops spec_ops]; [by exists ct|].
  pose proof (run_op_matches op ct m Hr) as H. unfold matches in H. destruct (spec_op op m) as [[r m1]|]; [|by rewrite H].
  destruct H as (ct1 & -> & Hr1). run. specialize (IH ct1 m1 Hr1). unfold matches in IH |- *. destruct (spec_ops ops m1) as [[rs m2]|]; [|by rewrite IH].
  destruct IH as (ct2 & -> & Hr2). run. by exists ct2.
Qed.

Lemma commands_init_spec : ∃ ct, commands_init = Some ct ∧ holds_commands ct ∅.
Proof.
  unfold commands_init. set (t := mkTbl 128 str_hash str_match true 0 (replicate (Z.to_nat 128) []) : CHTBL (list ascii) addr unit).
  exists (mkCtable t ∅). split; [done|]. exists (replicate (Z.to_nat 128) []).
  assert (Hr : chtbl_rep t (replicate (Z.to_nat 128) [])) by (apply (chtbl_init_rep 128 str_hash str_match true); [apply _|done|done]).
  assert (Hno : ∀ k, tbl_get t (replicate (Z.to_nat 128) []) (Some k) = None).
  { intros k. unfold tbl_get. destruct (replicate _ _ !! _) as [es|] eqn:E; [|done]. by apply lookup_replicate in E as [-> _]. }
  split; [done|done|done|]. intros k e. cbn [ct_table]. by rewrite Hno.
Qed.

(** C31. The table of commands is a finite map from names in lower case: any
    sequence of registrations and changes of permissions on a new table returns
    what the same sequence returns on the map, and leaves a table that holds the
    map. *)
Theorem commands_refine : ∃ ct, commands_init = Some ct ∧ ∀ ops, matches (run_ops ops ct) (spec_ops ops ∅).
Proof. destruct commands_init_spec as (ct & Hi & Hr). exists ct. split; [done|]. intros ops. by apply run_ops_matches. Qed.

(** ** Dispatching a line *)

Definition spec_parse (m : gmap (list ascii) wzd_command_t) (s : list ascii) : option (wzd_command_t * option (list ascii) * list ascii) :=
  if negb (_basic_check_ftp (Some s) =? 0) then None else
  let '(token, s) := tok_line (str " ") s in
  match token with
  | Some (Some t) =>
    match m !! lower t with
    | None => None
    | Some com =>
      if cm_id com =? TOK_SITE then
        let '(sc, s) := tok_line (str " " ++ [TAB]) s in
        match sc with
        | None => None
        | Some sc => let name := lower (lower t ++ str "_" ++ default [] sc) in Some (default com (m !! name), Some name, s)
        end
      else Some (com, Some (lower t), s)
    end
  | _ => None
  end.

Lemma parse_matches ct m s :
  holds_commands ct m →
  match spec_parse m s with
  | None => parse_ftp_command ct s = Val None
  | Some (com, name, args) => ∃ a, parse_ftp_command ct s = Val (Some (mkFtp name args a)) ∧ ct_heap ct !! a = Some com
  end.
Proof.
  intros Hr. unfold spec_parse, parse_ftp_command. destruct (negb _); [done|]. destruct (tok_line (str " ") s) as [[[t|]|] s1]; [|done..].
  pose proof (find_commands ct m t Hr) as Hf. destruct (m !! lower t) as [com|]; [|by rewrite Hf].
  destruct Hf as (a & -> & _ & Ha). run. rewrite Ha. run. destruct (cm_id com =? TOK_SITE); [|by exists a].
  destruct (tok_line (str " " ++ [TAB]) s1) as [[sc|] s2]; [|done]. cbn [option_map default from_option id].
  fold (lower (lower t ++ str "_" ++ default [] sc)). set (name := lower (lower t ++ str "_" ++ default [] sc)).
  pose proof (find_commands ct m name Hr) as Hn. rewrite (lower_idemp _ : lower name = name) in Hn.
  destruct (m !! name) as [real|]; [destruct Hn as (ar & -> & _ & Har); exists ar|rewrite Hn; exists a]; done.
Qed.

Lemma tok_line_word delim t rest :
  t ≠ [] → Forall (λ c, c ∉ delim) t → (rest = [] ∨ ∃ d, head rest = Some d ∧ d ∈ delim) →
  tok_line delim (t ++ rest) = (Some (Some t), tail rest).
Proof.
  intros Hne Ht Hrest. assert (Hs : strtok (λ c, bool_decide (c ∈ delim)) (t ++ rest) = (Some t, tail rest)).
  { assert (Hf : Forall (λ c, bool_decide (c ∈ delim) = false) t) by (eapply Forall_impl; [exact Ht|]; intros c Hc; by apply bool_decide_eq_false_2).
    destruct Hrest as [->|(d & Hd & Hin)].
    - rewrite app_nil_r. pose proof (strtok_split (λ c, bool_decide (c ∈ delim)) t) as H.
      destruct (strtok _ t) as [[t'|] r].
      + destruct H as (pre & sep & Heq & Hpre & _ & _ & Hsep).
        rewrite Heq, !Forall_app in Hf. destruct Hf as (Hfp & _ & Hfs & _).
        assert (pre = []) as -> by (destruct pre as [|c pre]; [done|]; apply Forall_cons in Hfp as [? _], Hpre as [? _]; simpl in *; congruence).
        destruct Hsep as [[-> ->]|(d & -> & Hd)]; [by rewrite !app_nil_r in Heq; subst|].
        apply Forall_cons in Hfs as [Hfs _]. simpl in *. congruence.
      + destruct H as [_ H]. destruct t; [done|]. apply Forall_cons in H as [? _], Hf as [? _]. simpl in *. congruence.
    - destruct rest as [|x rest]; [done|]. injection Hd as ->. simpl. apply (strtok_app _ [] t d rest); [constructor|done|done|].
      by apply bool_decide_eq_true_2. }
  unfold tok_line. rewrite Hs. destruct t; [done|]. done.
Qed.

Definition SPACE : ascii := " "%char.

(** The arguments after a command. *)
Definition arguments (args : list ascii) : list ascii := match args with [] => [] | _ => SPACE :: args end.

(** Lines that name the command [com], and what its handler is given. *)
Inductive request (m : gmap (list ascii) wzd_command_t) : list ascii → wzd_command_t → list ascii → list ascii → Prop :=
  | plain_request n args com :
      n ≠ [] → (length n ≤ 4)%nat → SPACE ∉ n → head args ≠ Some SPACE →
      m !! lower n = Some com → cm_id com ≠ TOK_SITE → request m (n ++ arguments args) com (lower n) args
  | site_request n sc args site com :
      n ≠ [] → (length n ≤ 4)%nat → SPACE ∉ n → sc ≠ [] → SPACE ∉ sc → TAB ∉ sc →
      m !! lower n = Some site → cm_id site = TOK_SITE → m !! lower (lower n ++ str "_" ++ sc) = Some com →
      request m (n ++ SPACE :: sc ++ arguments args) com (lower (lower n ++ str "_" ++ sc)) args.

Lemma basic_check_word n rest :
  (length n ≤ 4)%nat → SPACE ∉ n → head rest ≠ Some SPACE →
  _basic_check_ftp (Some (n ++ arguments rest)) = 0 ∧ tok_line (str " ") (n ++ arguments rest) = if bool_decide (n = []) then tok_line (str " ") (arguments rest) else (Some (Some n), rest).
Proof.
  intros Hl Hn Hr. assert (Hd : Forall (λ c, c ∉ str " ") n).
  { apply Forall_forall. intros c Hc Hin%list_elem_of_singleton. by subst. }
  split.
  - unfold _basic_check_ftp. assert (take_until (λ c, bool_decide (c = " "%char)) (n ++ arguments rest) = (n, rest)) as ->.
    { assert (Hf : Forall (λ c, bool_decide (c = " "%char) = false) n).
      { apply Forall_forall. intros c Hc. apply bool_decide_eq_false_2. by intros ->. }
      destruct rest as [|x rest]; cbn [arguments]; [|by apply take_until_app].
      rewrite app_nil_r. clear -Hf. induction Hf as [|c n Hc Hf IH]; simpl; [done|]. by rewrite Hc, IH. }
    replace (4 <? length n)%nat with false by (symmetry; apply Nat.ltb_ge; lia). by rewrite bool_decide_eq_false_2.
  - case_bool_decide as Hz; [by subst|]. destruct rest as [|x rest]; cbn [arguments].
    + rewrite (tok_line_word (str " ") n []); auto.
    + rewrite (tok_line_word (str " ") n (SPACE :: x :: rest)); [done|done|done|]. right. exists SPACE. split; [done|]. by apply list_elem_of_here.
Qed.

Lemma spec_parse_request m line com name args : request m line com name args → spec_parse m line = Some (com, Some name, args).
Proof.
  intros [n args' com' Hne Hl Hn Ha Hm Hid|n sc args' site com' Hne Hl Hn Hsc Hs1 Hs2 Hm Hid Hm2]; unfold spec_parse.
  - destruct (basic_check_word n args' Hl Hn Ha) as [-> ->]. rewrite bool_decide_eq_false_2 by done. cbn [Z.eqb negb].
    rewrite Hm. by replace (cm_id com' =? TOK_SITE) with false by (symmetry; by apply Z.eqb_neq).
  - assert (Hh : head (sc ++ arguments args') ≠ Some SPACE) by (destruct sc; [done|]; intros [= ->]; by destruct Hs1; apply list_elem_of_here).
    replace (SPACE :: sc ++ arguments args') with (arguments (sc ++ arguments args')) by (by destruct sc).
    destruct (basic_check_word n _ Hl Hn Hh) as [-> ->]. rewrite bool_decide_eq_false_2 by done. cbn [Z.eqb negb].
    rewrite Hm, Hid, Z.eqb_refl. rewrite tok_line_word; [|done| |].
    + cbn [default from_option id]. rewrite Hm2. by destruct args'.
    + apply Forall_forall. intros c Hc [->%list_elem_of_singleton| ->%list_elem_of_singleton]%elem_of_app; done.
    + destruct args' as [|x args']; [by left|]. right. exists SPACE. split; [done|]. by apply list_elem_of_here.
Qed.

(** The line of a request as it arrives, ended by CR and LF. *)
Lemma cleanup_line line rest :
  nul_free line → CR ∉ line → LF ∉ line → head line ≠ Some TELNET_FF →
  cleanup_ftp_command (line ++ CR :: LF :: rest) (length line + 2) = Val line.
Proof.
  intros Hn Hcr Hlf Hff. unfold cleanup_ftp_command.
  replace (Z.of_nat (length line + 2) - 1) with (Z.of_nat (length (line ++ [CR]))) by (rewrite length_app; simpl; lia).
  change (CR :: LF :: rest) with ([CR] ++ LF :: rest). rewrite app_assoc, buf_set_app. run.
  unfold buf_str. rewrite bool_decide_eq_true_2 by (rewrite elem_of_app; right; apply list_elem_of_here). run.
  rewrite cstring_app_nul by (apply nul_free_app; [done|apply nul_free_cons; [done|apply nul_free_nil]]).
  assert (Ht : (take_until (λ c, bool_decide (c = CR) || bool_decide (c = LF)) (line ++ [CR])).1 = line).
  { rewrite take_until_app; [done| |done]. apply Forall_forall. intros c Hc. rewrite !bool_decide_eq_false_2; [done|by intros ->|by intros ->]. }
  destruct line as [|c line]; [done|]. cbn [app]. rewrite bool_decide_eq_false_2 by (intros ->; by apply Hff). f_equal. exact Ht.
Qed.

Lemma trim_end_last s : (∀ c, last s = Some c → isspace c = false) → trim_end s = s.
Proof.
  intros H. unfold trim_end. destruct s as [|x s _] using rev_ind; [done|]. rewrite reverse_app. simpl.
  rewrite (H x) by (by rewrite last_snoc). by rewrite reverse_cons, reverse_involutive.
Qed.

Lemma request_update m line com k args com' :
  request m line com k args → cm_id com' = cm_id com → request (<[k := com']> m) line com' k args.
Proof.
  intros [n args' com0 Hne Hl Hn Ha Hm Hid|n sc args' site com0 Hne Hl Hn Hsc Hs1 Hs2 Hm Hid Hm2] Hc.
  - apply plain_request; [done|done|done|done|by rewrite lookup_insert_eq|congruence].
  - apply (site_request _ n sc args' site); [done|done|done|done|done|done| |done|by rewrite lookup_insert_eq].
    rewrite lookup_insert_ne; [done|]. intros E%(f_equal length). unfold lower in E. rewrite !length_map, !length_app, length_map in E.
    simpl in E. lia.
Qed.

Lemma mk_entry_ok ps : Forall target_ok ps → Forall entry_ok (map mk_entry ps).
Proof. intros H. apply Forall_fmap. eapply Forall_impl; [exact H|]. intros [ty t] [Hn Hl]. by exists t. Qed.

(** A request runs its command unless the permissions of the command deny it. *)
Lemma client_line_request b ct m w i line com name args rest :
  holds_commands ct m → request m line com name args →
  nul_free line → CR ∉ line → LF ∉ line → head line ≠ Some TELNET_FF → (∀ c, last line = Some c → isspace c = false) →
  client_line b ct w i (line ++ CR :: LF :: rest) (length line + 2) =
    denied ← (match cm_perms com with [] => Val 0 | _ => commands_check_permission b (Some com) i w end);
    Val (if negb (denied =? 0) then Denied
         else match cm_command com with Some f => Run f (Some name) args | None => External (cm_external com) args end).
Proof.
  intros Hr Hreq Hn Hcr Hlf Hff Hlast. unfold client_line. rewrite cleanup_line by done. run.
  pose proof (parse_matches ct m line Hr) as Hp. rewrite (spec_parse_request _ _ _ _ _ Hreq) in Hp. destruct Hp as (a & Hp & Ha).
  assert (line ≠ []) by (destruct Hreq as [[]|[]]; done). destruct line as [|c line]; [done|]. rewrite (trim_end_last line).
  2: { intros x Hx. apply Hlast. destruct line; [done|]. by rewrite last_cons_cons. }
  rewrite Hp. run. cbn [fc_command fc_name fc_args]. rewrite Ha. run.
  destruct (match cm_perms com with [] => Val 0 | _ :: _ => _ end) as [d|]; run; [|done].
  destruct (negb (d =? 0)); [done|]. by destruct (cm_command com).
Qed.

(** What running a command is: the call of its handler, or of its program. *)
Definition runs (com : wzd_command_t) (name args : list ascii) : dispatched :=
  match cm_command com with Some f => Run f (Some name) args | None => External (cm_external com) args end.

(** C7. Permissions are enforced: a command without permissions is run for
    whoever sends it, plain or as a SITE command, in any case and with any
    arguments; once a permission line is set for the command, in place of what it
    had, it is run exactly when the first entry of the line that applies to the
    user is not negated, and is refused otherwise. The line is well formed: tokens
    that parse, without two entries for the same target. *)
Theorem permission_enforced ch ca ct m name pline ps com w i a u uname fl gnames line args rest :
  holds_commands ct m → m !! lower name = Some com → name ≠ [] →
  nul_free pline → pline ≠ [] → (length pline < BUFFER_LEN)%nat →
  map parse_token (words [] pline) = map Some ps → Forall target_ok ps → NoDup (map entry_key ps) →
  world_wf w → 0 < r_max (w_groups w) → registered (w_users w) i = Some a → r_heap (w_users w) !! a = Some u →
  perm_user u w uname fl gnames →
  request m line com (lower name) args → nul_free line → CR ∉ line → LF ∉ line → head line ≠ Some TELNET_FF →
  (∀ c, last line = Some c → isspace c = false) →
  (cm_perms com = [] →
     client_line (Some (plaintext ch ca)) ct w i (line ++ CR :: LF :: rest) (length line + 2) ⇓ runs com (lower name) args) ∧
  ∃ ct', commands_set_permission name (Some pline) ct ⇓ (0, ct') ∧
    client_line (Some (plaintext ch ca)) ct' w i (line ++ CR :: LF :: rest) (length line + 2) ⇓
      (if verdict uname fl gnames (map mk_entry ps) =? 0 then runs com (lower name) args else Denied).
Proof.
  intros Hr Hm Hname Hpn Hpne Hpl Hps Hok Hnd Hwf Hg Hi Ha Hu Hreq Hn Hcr Hlf Hff Hlast. split.
  { intros Hp. rewrite (client_line_request _ _ m w i line com (lower name) args rest) by done. by rewrite Hp. }
  pose proof (find_commands ct m name Hr) as Hf. rewrite Hm in Hf. destruct Hf as (ac & Hf & Hl & Hac).
  set (p := mkPerm (command_name (perm_create_empty_perm name)) (map mk_entry ps)).
  exists (set_perms ac com [p] ct). split.
  - unfold commands_set_permission. rewrite Hf. run. cbn [fst]. rewrite Hac. run.
    rewrite (perm_add_perm_spec name pline [] ps); [done|done|done|done|done|by intros ? ?%elem_of_nil|done|done|done].
  - rewrite (client_line_request _ _ (<[lower name := with_perms com [p]]> m) w i line (with_perms com [p]) (lower name) args rest);
      [|by apply set_perms_spec|by apply (request_update m line com)|done..].
    cbn [with_perms cm_perms cm_command cm_external commands_check_permission head].
    rewrite (perm_check_perm_spec ch ca w i a u p uname fl gnames) by (done || by apply mk_entry_ok). run. cbn [entry_list p].
    by destruct (verdict _ _ _ _ =? 0).
Qed.

(** ** Instances *)

Definition demo_ops : list table_op :=
  [Add (str "site") "do_site" None TOK_SITE; Add (str "SITE_Kick") "do_site_kick" None TOK_SITE_KICK].

Definition demo_commands (m : gmap (list ascii) wzd_command_t) : Prop :=
  m !! str "site" = Some (mkCommand (str "site") TOK_SITE (Some "do_site"%string) None None []) ∧
  m !! str "site_kick" = Some (mkCommand (str "site_kick") TOK_SITE_KICK (Some "do_site_kick"%string) None None []).

Lemma demo_ops_spec : match spec_ops demo_ops ∅ with Val r => demo_commands r.2 | Crash => False end.
Proof. by vm_compute. Qed.

Lemma demo_table : ∃ ct m, holds_commands ct m ∧ demo_commands m.
Proof.
  destruct commands_init_spec as (ct & _ & Hr). pose proof (run_ops_matches demo_ops ct ∅ Hr) as H.
  pose proof demo_ops_spec as Hd. revert H Hd. generalize (spec_ops demo_ops ∅).
  intros [[rs m]|] H Hd; [|done]. destruct H as (ct' & _ & Hr'). by exists ct', m.
Qed.

Lemma permission_enforced_witness :
  ∃ ct, client_line (Some (plaintext demo_changepass demo_auth)) ct demo_world 5 (str "Site KICK ann" ++ [CR; LF]) 15 ⇓
      Run "do_site_kick" (Some (str "site_kick")) (str "ann") ∧
    ∃ ct', commands_set_permission (str "site_kick") (Some (str "=bob")) ct ⇓ (0, ct') ∧
    client_line (Some (plaintext demo_changepass demo_auth)) ct' demo_world 5 (str "Site KICK ann" ++ [CR; LF]) 15 ⇓
      Run "do_site_kick" (Some (str "site_kick")) (str "ann").
Proof.
  destruct demo_table as (ct & m & Hr & [Hsite Hkick]). exists ct.
  destruct (permission_enforced demo_changepass demo_auth ct m (str "site_kick") (str "=bob") [(CPERM_USER, str "bob")]
    (mkCommand (str "site_kick") TOK_SITE_KICK (Some "do_site_kick"%string) None None []) demo_world 5 1%positive
    (set_u_backend (demo_user 5 (str "bob")) 1) (str "bob") [] [] (str "Site KICK ann") (str "ann") []) as [Hnone Hset]; [..|by split; [apply Hnone|]].
  - exact Hr.
  - exact Hkick.
  - done.
  - apply (bool_decide_unpack _). by vm_compute.
  - done.
  - apply (bool_decide_unpack _). by vm_compute.
  - by vm_compute.
  - apply Forall_singleton. split; [apply (bool_decide_unpack _); by vm_compute|simpl; lia].
  - apply (bool_decide_unpack _). by vm_compute.
  - exact demo_world_wf.
  - by vm_compute.
  - reflexivity.
  - reflexivity.
  - split; [reflexivity|reflexivity|simpl; lia|constructor].
  - apply (site_request m (str "Site") (str "KICK") (str "ann")
      (mkCommand (str "site") TOK_SITE (Some "do_site"%string) None None [])); try exact Hkick; try exact Hsite; try done; try (simpl; lia);
      apply (bool_decide_unpack _); by vm_compute.
  - apply (bool_decide_unpack _). by vm_compute.
  - apply (bool_decide_unpack _). by vm_compute.
  - apply (bool_decide_unpack _). by vm_compute.
  - done.
  - by intros c [= <-].
Defined.

(** The table the server starts with. *)
Definition default_table : option ctable :=
  match commands_init with
  | Some ct => match commands_add_defaults ct with Val (0, ct) => Some ct | _ => None end
  | None => None
  end.

(** Every default command of at most four letters, and every SITE command, is
    found by its name and runs its handler. *)
Definition default_line (name : list ascii) : list ascii :=
  if streq (take 5 name) (str "site_") then str "SITE " ++ drop 5 name ++ str " x" else name ++ str " x".

Example defaults_reachable :
  match default_table with
  | Some ct =>
    forallb (λ '(name, f, help, id),
      (4 <? length (str name))%nat && negb (streq (take 5 (str name)) (str "site_")) || streq (str name) (str "site") ||
      match client_line None ct demo_world 5 (default_line (str name) ++ [CR; LF]) (length (default_line (str name)) + 2) with
      | Val (Run g _ args) => String.eqb f g && streq args (str "x")
      | _ => false
      end) defaults = true
  | None => False
  end.
Proof. by vm_compute. Qed.

(** The only default command with more letters, delete, can never be given: the
    first token of a line has at most four characters. *)
Lemma long_token_unknown ct n rest :
  (4 < length n)%nat → SPACE ∉ n → parse_ftp_command ct (n ++ rest) = Val None.
Proof.
  intros Hl Hn. unfold parse_ftp_command, _basic_check_ftp.
  destruct (take_until (λ c, bool_decide (c = " "%char)) (n ++ rest)) as [t r] eqn:E.
  assert (4 < length t)%nat; [|by replace (4 <? length t)%nat with true by (symmetry; by apply Nat.ltb_lt)].
  assert (length n ≤ length t)%nat; [|lia]. clear Hl. revert t E.
  induction n as [|c n IH]; intros t E; simpl; [lia|]. cbn [app take_until] in E.
  rewrite bool_decide_eq_false_2 in E by (intros ->; apply Hn, list_elem_of_here).
  destruct (take_until _ (n ++ rest)) as [t' r'] eqn:E'. injection E as <- <-. simpl. apply le_n_S. apply IH; [|done].
  intros H. apply Hn. by apply list_elem_of_further.
Qed.

(** The last byte read is overwritten, also when it is no line feed: a line that
    arrives without its end loses its last character. *)
Example cleanup_cuts_last : cleanup_ftp_command (str "RETR file" ++ replicate 10 NUL) 9 = Val (str "RETR fil").
Proof. by vm_compute. Qed.

(** Registering an external command over a default one fails when its name is not
    in lower case, although names are said to be case insensitive. *)
Example external_not_replaced :
  match default_table with
  | Some ct => match commands_add_external (str "SITE_WHO") (str "!who.sh") ct with Val (r, _) => r = -1 | Crash => False end
  | None => False
  end.
Proof. by vm_compute. Qed.

Example identify_token_overread : identify_token (Some [TELNET_FF; TELNET_IP; TELNET_FF; TELNET_SYNCH]) = Crash.
Proof. by vm_compute. Qed.
