(* ===== verification/Session.v ===== *)
(** * Session: what a command handler works on

    A handler of libwzd-core gets the arguments of the command and the context
    of the client; it reads and changes the users and groups, the contexts of
    the other clients, and sends replies. A [session] is that state, [M] the
    monad of the handlers (state, with undefined behaviour as [Crash]), and the
    operations here are the calls the handlers share: the accessors of
    wzd_backend.c, [str_tok] on the arguments, [send_message_with_args],
    [kill_child_new] and [kill_child_signal] (wzd_misc.c), [strtoul] in base 0. *)

From S2P Require Import Prelude CList Ip Registry Users Backend Str.

(** ** Numbers in base 0 *)

Fixpoint digits0 (base acc : Z) (s : list ascii) : Z * list ascii :=
  match s with
  | c :: s' => if xdigit c <? base then digits0 base (acc * base + xdigit c) s' else (acc, s)
  | [] => (acc, [])
  end.

(** The prefix decides the base: 0x and a digit, 0, or none. *)
Definition base_of (s : list ascii) : Z * list ascii :=
  match s with
  | "0"%char :: x :: d :: s' =>
    if (bool_decide (x = "x"%char) || bool_decide (x = "X"%char)) && (xdigit d <? 16) then (16, d :: s') else (8, s)
  | "0"%char :: _ => (8, s)
  | _ => (10, s)
  end.

(** [strtoul(s,&end,0)] and [strtoull]: the value and the string at [end]. *)
Definition strtoul0 (s : list ascii) : Z * list ascii :=
  let s1 := skip_spaces s in
  let '(neg, s2) := match s1 with
                    | c :: s' => if bool_decide (c = "-"%char) then (true, s')
                                 else if bool_decide (c = "+"%char) then (false, s') else (false, s1)
                    | [] => (false, [])
                    end in
  let '(base, s3) := base_of s2 in
  match s3 with
  | c :: _ =>
    if xdigit c <? base then
      let '(v, rest) := digits0 base 0 s3 in
      (if ULONG_MAX <? v then ULONG_MAX else if neg : bool then u64 (- v) else v, rest)
    else (0, s)
  | [] => (0, s)
  end.

Definition u16 (z : Z) : Z := z mod 2 ^ 16.

(** ** Sessions *)

Inductive event :=
  | Reply (code : Z) (text : list ascii)  (** [send_message_with_args] *)
  | Raw (text : list ascii)               (** [send_message_raw] *)
  | Cancel (pid : Z)                      (** [pthread_cancel] *)
  | Commit                                (** [backend_commit_changes] *)
  | Cron (job : list ascii).              (** [cronjob_add_once] *)

(** The context of the client is one of [context_list]: [ss_ctx] is its place. *)
Record session := mkSession {
  ss_world : world;
  ss_ctx : nat;
  ss_line : list ascii;
  ss_out : list event }.

Definition set_world (s : session) (w : world) : session := mkSession w (ss_ctx s) (ss_line s) (ss_out s).
Definition set_line (s : session) (l : list ascii) : session := mkSession (ss_world s) (ss_ctx s) l (ss_out s).
Definition add_event (s : session) (e : event) : session :=
  mkSession (ss_world s) (ss_ctx s) (ss_line s) (ss_out s ++ [e]).

Definition M (A : Type) : Type := session → outcome (A * session).

#[global] Instance M_ret : MRet M := λ A a s, Val (a, s).
#[global] Instance M_bind : MBind M := λ A B f m s,
  match m s with Val (a, s') => f a s' | Crash => Crash end.

Definition lift {A} (o : outcome A) : M A := λ s, a ← o; Val (a, s).
Definition ask {A} (f : world → outcome A) : M A := λ s, a ← f (ss_world s); Val (a, s).
Definition on_world {A} (f : world → outcome (A * world)) : M A := λ s,
  '(a, w) ← f (ss_world s); Val (a, set_world s w).
Definition emit (e : event) : M unit := λ s, Val (tt, add_event s e).
Definition reply (code : Z) (text : string) : M unit := emit (Reply code (str text)).
Definition raw (text : string) : M unit := emit (Raw (str text ++ [CR; LF])).

(** The delimiters of most commands. *)
Definition ws : list ascii := str " " ++ [TAB; CR; LF].
Definition eol : list ascii := [CR; LF].

Definition tok (delim : list ascii) : M (option (option (list ascii))) := λ s,
  let '(t, l) := tok_line delim (ss_line s) in Val (t, set_line s l).

(** [p->...]: reading and assigning through a pointer to a user or a group. *)
Definition user_at (a : addr) : M wzd_user_t := ask (λ w, deref (r_heap (w_users w) !! a)).
Definition user_put (a : addr) (u : wzd_user_t) : M unit := on_world (λ w, Val (tt, put_user w a u)).
Definition user_upd (a : addr) (f : wzd_user_t → wzd_user_t) : M unit := u ← user_at a; user_put a (f u).
Definition group_at (a : addr) : M wzd_group_t := ask (λ w, deref (r_heap (w_groups w) !! a)).
Definition group_put (a : addr) (g : wzd_group_t) : M unit := on_world (λ w, Val (tt, put_group w a g)).
Definition group_upd (a : addr) (f : wzd_group_t → wzd_group_t) : M unit := g ← group_at a; group_put a (f g).

Definition my_context : M client := λ s, c ← deref (w_contexts (ss_world s) !! ss_ctx s); Val (c, s).

(** [strchr(u->flags,c)] *)
Definition has_flag (c : ascii) (u : wzd_user_t) : outcome bool := fl ← buf_str (flags u); Val (strchr fl c).

Section backend.
  Context (b : option wzd_backend_t).

Definition getUserByID (id : Z) : M (option addr) := ask (λ w, g ← GetUserByID b id w; as_struct g).
Definition getUserByName (name : option (list ascii)) : M (option addr) :=
  ask (λ w, g ← GetUserByName b name w; as_struct g).
Definition getGroupByID (id : Z) : M (option addr) := ask (λ w, g ← GetGroupByID b id w; as_struct g).
Definition getGroupByName (name : option (list ascii)) : M (option addr) :=
  ask (λ w, g ← GetGroupByName b name w; as_struct g).
Definition modUser (id : Z) (user : option addr) (mt : Z) : M Z := on_world (mod_user b id user mt).
Definition modGroup (id : Z) (group : option addr) (mt : Z) : M Z := on_world (mod_group b id group mt).

(** [me = GetUserByID(context->userid)], whose flags are read at once. *)
Definition get_me : M addr := c ← my_context; p ← getUserByID (c_userid c); lift (deref p).

Definition is_flagged (c : ascii) (a : addr) : M bool := u ← user_at a; lift (has_flag c u).

(** [me->group_num==0 || user->group_num==0 || me->groups[0]!=user->groups[0]],
    negated. *)
Definition same_group (me user : addr) : M bool :=
  m ← user_at me; u ← user_at user;
  if group_num m =? 0 then mret false else
  if group_num u =? 0 then mret false else
  g ← lift (deref (head (groups m))); h ← lift (deref (head (groups u))); mret (g =? h).

(** The limit of group administrators. *)
Definition gadmin_may (gadmin : bool) (me user : addr) : M bool :=
  if gadmin then same_group me user else mret true.
End backend.

(** *** Killing clients *)

(** The first context with this [pid]. *)
Fixpoint set_exit (pid : Z) (l : list client) : option (list client) :=
  match l with
  | [] => None
  | c :: l =>
    if c_magic c && (c_pid c =? pid)
    then Some (mkClient (c_magic c) (c_userid c) (c_ul_maxspeed c) (c_dl_maxspeed c) (c_pid c) true (c_conn c) :: l)
    else (λ l, c :: l) <$> set_exit pid l
  end.

(** [context] is never null where [kill_child_new] is called. *)
Definition kill_child_new (pid : Z) : M Z :=
  me ← my_context;
  if pid =? c_pid me then mret 1 else
  λ s, match set_exit pid (w_contexts (ss_world s)) with
       | None => Val (-1, s)
       | Some l => Val (0, set_world s (with_contexts (ss_world s) l))
       end.

Definition kill_child_signal (pid : Z) (context : option client) : M Z :=
  if match context with Some me => pid =? c_pid me | None => false end then mret 1 else
  s ← (λ s, Val (s, s));
  if existsb (λ c, c_magic c && (c_pid c =? pid)) (w_contexts (ss_world s))
  then emit (Cancel pid);; mret 0 else mret (-1).

(** ** Running handlers *)

Lemma M_bind_Val {A B} (m : M A) (f : A → M B) s r :
  (m ≫= f) s = Val r ↔ ∃ a s1, m s = Val (a, s1) ∧ f a s1 = Val r.
Proof.
  unfold mbind, M_bind. destruct (m s) as [[a s1]|]; split; [|naive_solver..]. intros. by exists a, s1.
Qed.

(** Operations that leave the users, groups and clients alone. *)
Definition quiet {A} (m : M A) : Prop := ∀ s a s1, m s = Val (a, s1) → ss_world s1 = ss_world s ∧ ss_ctx s1 = ss_ctx s.

Lemma quiet_ret {A} (a : A) : quiet (mret a).
Proof. intros s x s1 H. by injection H as <- <-. Qed.
Lemma quiet_lift {A} (o : outcome A) : quiet (lift o).
Proof. intros s x s1. unfold lift. destruct o; simpl; [|done]. by intros [= <- <-]. Qed.
Lemma quiet_ask {A} (f : world → outcome A) : quiet (ask f).
Proof. intros s x s1. unfold ask. destruct (f _); simpl; [|done]. by intros [= <- <-]. Qed.
Lemma quiet_emit e : quiet (emit e).
Proof. intros s x s1 H. by injection H as <- <-. Qed.
Lemma quiet_tok d : quiet (tok d).
Proof. intros s x s1. unfold tok. destruct (tok_line _ _). by intros [= <- <-]. Qed.
Lemma quiet_context : quiet my_context.
Proof. intros s x s1. unfold my_context. destruct (_ !! _); simpl; [|done]. by intros [= <- <-]. Qed.
Lemma quiet_bind {A B} (m : M A) (f : A → M B) : quiet m → (∀ a, quiet (f a)) → quiet (m ≫= f).
Proof. intros Hm Hf s x s2 (a & s1 & H1 & H2)%M_bind_Val. destruct (Hm _ _ _ H1), (Hf _ _ _ _ H2). split; congruence. Qed.
Lemma quiet_if {A} (c : bool) (m n : M A) : quiet m → quiet n → quiet (if c then m else n).
Proof. by destruct c. Qed.

Create HintDb quiet.
#[export] Hint Resolve quiet_ret quiet_lift quiet_ask quiet_emit quiet_tok quiet_context : quiet.
#[export] Hint Extern 5 (quiet (_ ≫= _)) => (apply quiet_bind; [|intros]) : quiet.
#[export] Hint Extern 5 (quiet (if _ then _ else _)) => (apply quiet_if) : quiet.

Ltac solve_quiet :=
  repeat match goal with
  | |- quiet (_ ≫= _) => apply quiet_bind; [|intros]
  | |- quiet (if _ then _ else _) => apply quiet_if
  | |- quiet (match ?x with _ => _ end) => destruct x
  end; auto with quiet.

Lemma quiet_reply c t : quiet (reply c t).
Proof. apply quiet_emit. Qed.
Lemma quiet_raw t : quiet (raw t).
Proof. apply quiet_emit. Qed.
Lemma quiet_user_at a : quiet (user_at a).
Proof. apply quiet_ask. Qed.
Lemma quiet_group_at a : quiet (group_at a).
Proof. apply quiet_ask. Qed.
#[export] Hint Resolve quiet_reply quiet_raw quiet_user_at quiet_group_at : quiet.

Lemma quiet_get_me b : quiet (get_me b).
Proof. unfold get_me, getUserByID. solve_quiet. Qed.
Lemma quiet_same_group a c : quiet (same_group a c).
Proof. unfold same_group. solve_quiet. Qed.
Lemma quiet_gadmin_may g a c : quiet (gadmin_may g a c).
Proof. unfold gadmin_may. destruct g; auto using quiet_same_group with quiet. Qed.
Lemma quiet_is_flagged c a : quiet (is_flagged c a).
Proof. unfold is_flagged. solve_quiet. Qed.
Lemma quiet_getUserByID b i : quiet (getUserByID b i).
Proof. apply quiet_ask. Qed.
Lemma quiet_getUserByName b n : quiet (getUserByName b n).
Proof. apply quiet_ask. Qed.
#[export] Hint Resolve quiet_get_me quiet_same_group quiet_gadmin_may quiet_is_flagged quiet_getUserByID quiet_getUserByName : quiet.

Lemma kill_child_signal_quiet pid c : quiet (kill_child_signal pid c).
Proof.
  unfold kill_child_signal. apply quiet_if; [auto with quiet|]. apply quiet_bind; [|intros; solve_quiet].
  intros s x s1 H. by injection H as <- <-.
Qed.
#[export] Hint Resolve kill_child_signal_quiet : quiet.

(** One step of a handler in a hypothesis: the result and the state after it,
    and, for a quiet step, that the world is the same. *)
Ltac step H x s1 H1 := apply M_bind_Val in H as (x & s1 & H1 & H).

Lemma user_at_Val a s u s1 : user_at a s = Val (u, s1) ↔ r_heap (w_users (ss_world s)) !! a = Some u ∧ s1 = s.
Proof. unfold user_at, ask. destruct (_ !! a) as [v|]; simpl; naive_solver. Qed.

Lemma lift_Val {A} (o : outcome A) s a s1 : lift o s = Val (a, s1) ↔ o = Val a ∧ s1 = s.
Proof. unfold lift. destruct o; simpl; naive_solver. Qed.

Lemma is_flagged_Val c a s r s1 :
  is_flagged c a s = Val (r, s1) ↔ ∃ u, r_heap (w_users (ss_world s)) !! a = Some u ∧ has_flag c u = Val r ∧ s1 = s.
Proof.
  unfold is_flagged. rewrite M_bind_Val. split.
  - intros (u & s2 & (Hu & ->)%user_at_Val & (Hf & ->)%lift_Val). by exists u.
  - intros (u & Hu & Hf & ->). exists u, s. rewrite user_at_Val, lift_Val. done.
Qed.

Lemma same_group_true me user s s1 :
  same_group me user s = Val (true, s1) → ∃ m u g, s1 = s ∧ r_heap (w_users (ss_world s)) !! me = Some m ∧
    r_heap (w_users (ss_world s)) !! user = Some u ∧ head (groups m) = Some g ∧ head (groups u) = Some g ∧
    group_num m ≠ 0 ∧ group_num u ≠ 0.
Proof.
  unfold same_group. intros H. step H m s2 H1. apply user_at_Val in H1 as [Hm ->].
  step H u s2 H1. apply user_at_Val in H1 as [Hu ->].
  destruct (Z.eqb_spec (group_num m) 0); [done|]. destruct (Z.eqb_spec (group_num u) 0); [done|].
  step H g s2 H1. apply lift_Val in H1 as [Hg ->]. step H h s2 H1. apply lift_Val in H1 as [Hh ->].
  apply deref_Val in Hg, Hh. injection H as H <-. apply Z.eqb_eq in H as ->. by exists m, u, h.
Qed.

Lemma gadmin_may_true me user s s1 :
  gadmin_may true me user s = Val (true, s1) → ∃ m u g, s1 = s ∧ r_heap (w_users (ss_world s)) !! me = Some m ∧
    r_heap (w_users (ss_world s)) !! user = Some u ∧ head (groups m) = Some g ∧ head (groups u) = Some g ∧
    group_num m ≠ 0 ∧ group_num u ≠ 0.
Proof. apply same_group_true. Qed.

Section plaintext_facts.
  Context (changepass : list ascii → list ascii → list ascii → nat → Z * list ascii)
    (check_auth : list ascii → list ascii → list ascii → Z).
  #[local] Abbreviation pb := (Some (plaintext changepass check_auth)).

(** Whoever is found by name is registered. *)
Lemma getUserByName_found name s a s1 :
  world_wf (ss_world s) → getUserByName pb name s = Val (Some a, s1) →
  s1 = s ∧ ∃ i u, registered (w_users (ss_world s)) i = Some a ∧ r_heap (w_users (ss_world s)) !! a = Some u ∧ uid u = i.
Proof.
  intros Hwf. unfold getUserByName, ask. destruct name as [[|c n]|]; [by simpl..| |by simpl].
  destruct (GetUserByName_spec _ world_wf (LookupBackend0:=plaintext_lookup changepass check_auth) (ss_world s) (c :: n)) as (p & Hp & Hspec); [done..|].
  rewrite Hp. run. cbn [as_struct]. run. intros [= -> <-]. split; [done|].
  destruct Hspec as (i & Hi & _). destruct (registered_heap _ _ _ (proj1 Hwf) Hi) as (u & Hu & Hid).
  by exists i, u.
Qed.

Lemma get_user_by_id_spec i w :
  world_wf w → 0 ≤ i < GET_USER_LIST → FCN_GET_USER i w = Val (Got (registered (w_users w) i)).
Proof.
  intros Hwf Hi. destruct (@lb_get _ _ (plaintext_lookup changepass check_auth)) as (f & Hf & Hs).
  simpl in Hf. injection Hf as <-. by apply Hs.
Qed.

Lemma getUserByID_spec i s :
  world_wf (ss_world s) → 0 ≤ i < GET_USER_LIST →
  getUserByID pb i s = Val (registered (w_users (ss_world s)) i, s).
Proof.
  intros Hwf Hi. unfold getUserByID, ask, GetUserByID.
  replace (i =? INVALID_USER) with false by (symmetry; unfold GET_USER_LIST, INVALID_USER in *; lia).
  simpl. rewrite get_user_by_id_spec by done. done.
Qed.

(** The range of identifiers that are registered. *)
Lemma registered_range w i a : world_wf w → registered (w_users w) i = Some a → 0 ≤ i < GET_USER_LIST ∧ i ≠ INVALID_USER.
Proof.
  intros (Hwf & _) Hi. pose proof (wf_max _ Hwf). unfold registered in Hi.
  destruct (_ && _) eqn:E; [|done]. unfold GET_USER_LIST, INVALID_USER, INT_MAX in *. lia.
Qed.

(** Giving the backend a registered structure itself: nothing is copied; only
    the password, when it changes, is encrypted in place. *)
Lemma run_triggers_Val a u mt w :
  r_heap (w_users w) !! a = Some u → ∃ l, run_triggers (Some a) mt w = Val (with_contexts w l).
Proof. intros Hu. unfold run_triggers. rewrite Hu. run. by eexists. Qed.

Lemma mod_user_own w a u mt :
  world_wf w → registered (w_users w) (uid u) = Some a → r_heap (w_users w) !! a = Some u →
  mt ≠ _USER_CREATE → Z.testbit mt _USER_USERPASS = false →
  ∃ l, mod_user pb (uid u) (Some a) mt w = Val (0, with_contexts w l).
Proof.
  intros Hwf Hreg Hu Hmt Hbit. destruct (registered_range w (uid u) a Hwf Hreg) as [Hr Hne].
  unfold mod_user. cbn [backend_mod_user plaintext]. unfold FCN_MOD_USER.
  replace (mt =? _USER_CREATE) with false by (symmetry; lia). unfold user_get_by_id.
  rewrite get_by_id_registered by (destruct Hwf as (? & ? & _); unfold GET_USER_LIST, INVALID_USER in *; auto with lia).
  run. rewrite Hreg, bool_decide_eq_true_2, Hbit by done. run. cbn [negb Z.eqb].
  destruct (run_triggers_Val a u mt w Hu) as [l Hl]. rewrite Hl. run. cbn [backend_get_user plaintext].
  cbn [w_users with_contexts]. rewrite Hu. run. rewrite get_user_by_id_spec by done. run. cbn [as_struct w_users with_contexts]. run.
  rewrite Hreg, bool_decide_eq_true_2 by done. by exists l.
Qed.

(** The same with the password: the structure itself may change, but neither
    its identifier nor its groups. *)
Lemma encrypt_own_pass u r u' : encrypt_own changepass u = Val (r, u') → ∃ p, u' = set_userpass u p.
Proof.
  unfold encrypt_own. destruct (buf_str _); simpl; [|done]. destruct (strcaseeq _ _); [intros [= _ <-]; exists (userpass u); by destruct u|].
  destruct (changepass _ _ _ _) as [? buf]. intros [= _ <-]. by exists buf.
Qed.

Lemma put_user_wf w a u u' :
  world_wf w → r_heap (w_users w) !! a = Some u → uid u' = uid u → world_wf (put_user w a u').
Proof. intros (? & ? & ?) Hu Hid. split_and!; [by eapply set_wf_same|done|done]. Qed.

Lemma mod_user_setpass w a u mt ret w' :
  world_wf w → registered (w_users w) (uid u) = Some a → r_heap (w_users w) !! a = Some u →
  mt ≠ _USER_CREATE → mod_user pb (uid u) (Some a) mt w = Val (ret, w') →
  world_wf w' ∧ ∃ p, r_heap (w_users w') = <[a := set_userpass u p]> (r_heap (w_users w)) ∧
    (∀ i, registered (w_users w') i = registered (w_users w) i).
Proof.
  intros Hwf Hreg Hu Hmt Hrun. destruct (Z.testbit mt _USER_USERPASS) eqn:Hbit.
  2: { destruct (mod_user_own w a u mt) as [l Hl]; [done..|]. rewrite Hl in Hrun. injection Hrun as <- <-.
       split; [done|]. exists (userpass u). cbn. rewrite insert_id; [done|]. rewrite Hu. by destruct u. }
  destruct (registered_range w (uid u) a Hwf Hreg) as [Hr Hne].
  unfold mod_user in Hrun. cbn [backend_mod_user plaintext] in Hrun. unfold FCN_MOD_USER in Hrun.
  replace (mt =? _USER_CREATE) with false in Hrun by (symmetry; lia). unfold user_get_by_id in Hrun.
  rewrite get_by_id_registered in Hrun by (destruct Hwf as (? & ? & _); unfold GET_USER_LIST, INVALID_USER in *; auto with lia).
  run in Hrun. rewrite Hreg, bool_decide_eq_true_2, Hbit, Hu in Hrun by done. run in Hrun.
  destruct (encrypt_own changepass u) as [[ok u1]|] eqn:He; [|done]. run in Hrun.
  destruct (encrypt_own_pass u ok u1 He) as [p Hp]. assert (Hid : uid u1 = uid u) by by rewrite Hp.
  set (w1 := put_user w a u1) in *.
  assert (Hwf1 : world_wf w1) by (by eapply put_user_wf).
  assert (Hw1 : ∀ l, r_heap (w_users (with_contexts w1 l)) !! a = Some u1) by (intros; apply lookup_insert_eq).
  destruct (negb _) eqn:Eret; [injection Hrun as <- <-; split; [done|]; exists p; rewrite <- Hp; by cbn|].
  destruct (run_triggers_Val a u1 mt w1 (Hw1 [])) as [l Hl]. rewrite Hl in Hrun. run in Hrun.
  cbn [backend_get_user plaintext] in Hrun. rewrite Hw1 in Hrun. run in Hrun.
  rewrite get_user_by_id_spec in Hrun by (done || by rewrite Hid). run in Hrun. cbn [as_struct] in Hrun. run in Hrun.
  assert (Hreg1 : registered (w_users (with_contexts w1 l)) (uid u1) = Some a) by (rewrite Hid; exact Hreg).
  rewrite Hreg1, bool_decide_eq_true_2 in Hrun by done. injection Hrun as <- <-.
  split; [exact Hwf1|]. exists p. rewrite <- Hp. by cbn.
Qed.

Lemma mod_user_pass w a u mt ret w' :
  world_wf w → registered (w_users w) (uid u) = Some a → r_heap (w_users w) !! a = Some u →
  mt ≠ _USER_CREATE → mod_user pb (uid u) (Some a) mt w = Val (ret, w') →
  world_wf w' ∧ ∃ u', r_heap (w_users w') = <[a := u']> (r_heap (w_users w)) ∧ uid u' = uid u ∧ groups u' = groups u ∧
    (∀ i, registered (w_users w') i = registered (w_users w) i).
Proof.
  intros Hwf Hreg Hu Hmt Hrun. destruct (mod_user_setpass w a u mt ret w' Hwf Hreg Hu Hmt Hrun) as (Hwf' & p & Hh & Hr).
  split; [done|]. by exists (set_userpass u p).
Qed.
End plaintext_facts.
