(* ===== verification/SiteUser.v ===== *)
(** * SiteUser: the SITE commands on users (libwzd-core/wzd_site_user.c, and
    do_site_chpass of wzd_site.c)

    One definition per handler, in the monad of [Session]; the arguments of the
    command are [ss_line]. A user structure is changed in place, through its
    address in the registry, and then given to the backend. *)

From S2P Require Import Prelude CList Ip Registry Users Backend Str Session.

(** [strncpy] into a field of a structure. *)
Definition field_strncpy (dst src : list ascii) (n : nat) : outcome (list ascii) :=
  if (n <=? length dst)%nat then Val (strncpy dst src n) else Crash.

(** [if (strchr(flags,c)) ...]: the flag is taken out, the rest moved down. *)
Fixpoint flag_pos (c : ascii) (fl : list ascii) : option nat :=
  match fl with [] => None | x :: fl => if bool_decide (x = c) then Some O else S <$> flag_pos c fl end.

Definition drop_flag (buf fl : list ascii) (i : nat) : outcome (list ascii) :=
  mem_write buf (Z.of_nat i) (drop (S i) fl ++ [NUL]).

(** *** Adding a user to a group or removing it *)

Fixpoint first_index (n i : nat) (g : Z) (l : list Z) : outcome (option nat) :=
  match n with
  | O => Val None
  | S n => x ← deref (l !! i); if g =? x then Val (Some i) else first_index n (S i) g l
  end.

Definition toggle_group (g : Z) (u : wzd_user_t) : outcome wzd_user_t :=
  let num := Z.to_nat (group_num u) in
  found ← first_index num 0 g (groups u);
  match found with
  | Some i =>
    l ← shift_groups (num - 1 - i) i (<[i := 0]> (groups u));
    Val (set_groups u (u32 (group_num u - 1)) l)
  | None =>
    if (num <? length (groups u))%nat then Val (set_groups u (u32 (group_num u + 1)) (<[num := g]> (groups u))) else Crash
  end.

Definition chars (t : option (option (list ascii))) : option (list ascii) := mjoin t.

(** [*str < '0' || *str > '9'] *)
Definition starts_with_digit (s : list ascii) : bool :=
  match s with c :: _ => isdigit c | [] => false end.

(** The value of a number that is the whole string. *)
Definition whole_number (s : list ascii) : option Z :=
  let '(v, rest) := strtoul0 s in if bool_decide (rest = []) then Some v else None.

Definition ULLONG_MAX : Z := 2 ^ 64 - 1.

(** *** Help: do_site_help of wzd_site.c *)

Definition site_help : list (string * list string) :=
  [("backend", ["operations on backend"; "site backend command backend_name"; "command can be one of:"; " close   (unloads backend)";
      " commit  (commits changes synchronously)"; " init    (loads new backend)"; " reload  (close and init)"; "";
      "e.g: site backend commit plaintext"; ""; " THIS IS A DANGEROUS COMMAND"]);
   ("checkperm", ["checks access for a user on a file/dir"; "site checkperm user file rights"; " rights can be one of:"; " RIGHT_LIST";
      " RIGHT_CWD"; " RIGHT_RETR"; " RIGHT_STOR"; " RIGHT_RNFR"; "e.g: site checkperm toto dir RIGHT_CWD"]);
   ("chgrp", ["change the group of a file or directory"; "usage: site chgrp group file1 [file2 ...]"; "e.g: site chgrp admin file1"]);
   ("chmod", ["change permissions of a file or directory"; "usage: site chmod mode file1 [file2 ...]"; "e.g: site chmod 644 file1"]);
   ("chown", ["change the owner of a file or directory"; "usage: site chown user file1 [file2 ...]"; "e.g: site chown toto file1"]);
   ("chpass", ["change the password of a user"; "site chpass [user] new_pass"]);
   ("grpkill", ["kill all connected users from a group"; "site grpkill groupname"]);
   ("link", ["create/remove symbolink links"; "site link create dir linkname"; "site link remove linkname"]);
   ("msg", ["manage directory messages"; "site msg show"; "site msg new msg_line"; "site msg append msg_line"; "site msg convert file";
      "site msg delete"]);
   ("perm", ["manage permissions"; "site perm show (show all permissions)";
      "site perm show name (show permissions for commands starting with perm_name)"; "site perm add name perms";
      "site perm change name perms"; "site perm remove"; ""; "ex: site perm add site_newcmd +O"]);
   ("user", ["show user info"; "site user username"]);
   ("vars", ["access server variables"; "site vars get varname"]);
   ("vars_user", ["access user variables"; "site vars_user get user varname"]);
   ("vars_group", ["access group variables"; "site vars_group get group varname"])].

Fixpoint help_lines (site_command : list ascii) (l : list (string * list string)) : list string :=
  match l with
  | [] => [string_of_list_ascii (str "Syntax error in command " ++ site_command)]
  | (name, lines) :: l => if strcaseeq site_command (str name) then lines else help_lines site_command l
  end.

Fixpoint raw_lines (l : list string) : M unit :=
  match l with [] => mret tt | t :: l => raw t;; raw_lines l end.

Definition do_site_help (site_command : string) : M unit :=
  raw "501-";; raw_lines (help_lines (str site_command) site_help);; raw "501 ".

Section handlers.
  (** The backend, whether a path names a directory (the file system), the
      resolver, the bytes of an uninitialised array. *)
  Context (b : option wzd_backend_t) (is_dir : list ascii → bool)
    (getipbyname gethostbyaddr : list ascii → option (list ascii)) (stack : list ascii).

Definition alloc_user (u : wzd_user_t) : M addr := on_world (λ w,
  let a := fresh (dom (r_heap (w_users w))) in Val (a, put_user w a u)).

Definition user_free (a : addr) : M unit := on_world (λ w, Val (tt, free_user w a)).

(** [while ( (ip = str_tok(command_line," \t")) ) ip_add_check(...)]: a turn
    takes a token off the line; a null address crashes in [strlen]. *)
Fixpoint add_ips (fuel : nat) (delim : list ascii) (a : addr) : M unit :=
  match fuel with
  | O => lift Crash
  | S fuel =>
    t ← tok delim;
    match t with
    | None => mret tt
    | Some ip =>
      ip ← lift (deref ip);
      user_upd a (λ u, set_u_ip_list u (ip_add_check (u_ip_list u) ip 1).2);;
      add_ips fuel delim a
    end
  end.

(** Fuel for the loops on the tokens of the line. *)
Definition line_fuel : M nat := λ s, Val (S (length (ss_line s)), s).

(** A group administrator becomes the creator of a user and has a slot less. *)
Definition claim_user (me user : addr) (problem : string) : M unit :=
  m ← user_at me;
  user_upd user (λ u, set_creator u (uid m));;
  user_upd me (λ m, set_user_slots m (u16 (user_slots m - 1)));;
  u ← user_at user;
  ret ← modUser b (uid u) (Some user) (2 ^ _USER_CREATOR);
  (if negb (ret =? 0) then reply 501 problem else mret tt);;
  m ← user_at me;
  ret ← modUser b (uid m) (Some me) (2 ^ _USER_USERSLOTS);
  if negb (ret =? 0) then reply 501 "Problem decrementing your user_slots - lucky you!" else mret tt.

Definition do_site_help_adduser : M unit :=
  reply 501 "site adduser <user> <password> <group> [<ip1> <ip2> <...>]".

Definition do_site_adduser : M unit :=
  me ← get_me b;
  gadmin ← is_flagged FLAG_GADMIN me;
  t1 ← tok ws;
  match t1 with None => do_site_help_adduser | Some user_name =>
  t2 ← tok ws;
  match t2 with None => do_site_help_adduser | Some password =>
  t3 ← tok ws;
  g ← getGroupByName b (chars t3);
  match g with None => do_site_help_adduser | Some ga =>
  m ← user_at me;
  g ← group_at ga;
  allowed ← (if gadmin : bool then
               if group_num m =? 0 then mret false else g0 ← lift (deref (head (groups m))); mret (g0 =? gid g)
             else mret true);
  if negb allowed then reply 501 "You are not allowed to add users to this group" else
  if gadmin && (user_slots m =? 0) then reply 501 "No more slots available" else
  gname ← lift (buf_str (groupname g));
  r ← ask (user_create b user_name password (Some gname));
  match r with
  | inl err =>
    match err with
    | E_PARAM_NULL | E_PARAM_BIG => reply 501 "Invalid name or parameter"
    | E_PARAM_EXIST => reply 501 "A user already exists with this name"
    | _ => reply 501 "Error while adding user"
    end
  | inr u =>
    newuser ← alloc_user u;
    fuel ← line_fuel;
    add_ips fuel (str " " ++ [TAB]) newuser;;
    ret ← modUser b 0 (Some newuser) _USER_CREATE;
    (if negb (ret =? 0) then
       reply 501 "Problem adding user";; user_free newuser
     else
       (if gadmin : bool then claim_user me newuser "Problem setting creator of new user" else mret tt);;
       reply 200 "User added");;
    emit Commit
  end
  end end end.

(** The slot of a deleted user goes back to the administrator that created it. *)
Definition return_slot (user : addr) : M unit :=
  u ← user_at user;
  c ← ask (λ w, user_get_by_id (creator u) (w_users w));
  match c with
  | None => mret tt
  | Some cr =>
    c ← user_at cr;
    g ← lift (deref (head (groups c))); h ← lift (deref (head (groups u)));
    if g =? h then
      user_upd user (λ u, set_creator u INVALID_USER);;
      user_upd cr (λ c, set_user_slots c (u16 (user_slots c + 1)));;
      c ← user_at cr;
      ret ← modUser b (uid c) (Some cr) (2 ^ _USER_USERSLOTS);
      (if negb (ret =? 0) then reply 501 "Problem returning user_slot to creator" else mret tt);;
      u ← user_at user;
      ret ← modUser b (uid u) (Some user) (2 ^ _USER_CREATOR);
      if negb (ret =? 0) then reply 501 "Problem resetting creator on deleted user" else mret tt
    else mret tt
  end.

Definition do_site_help_deluser : M unit := reply 501 "site deluser <user>".

Definition do_site_deluser : M unit :=
  me ← get_me b;
  gadmin ← is_flagged FLAG_GADMIN me;
  t ← tok ws;
  match t with None => do_site_help_deluser | Some name =>
  p ← getUserByName b name;
  match p with None => reply 501 "User does not exist" | Some user =>
  may ← gadmin_may gadmin me user;
  if negb may then reply 501 "You can't delete this user" else
  u ← user_at user;
  fl ← lift (buf_str (flags u));
  if strchr fl FLAG_DELETED then reply 501 "User already marked as deleted" else
  let length := Z.of_nat (length fl) in
  if Z.of_nat MAX_FLAGS_NUM <=? length + 1 then reply 501 "Too many flags for user" else
  f1 ← lift (buf_set (flags u) length FLAG_DELETED);
  f2 ← lift (buf_set f1 (length + 1) NUL);
  user_put user (set_flags u f2);;
  ret ← modUser b (uid u) (Some user) (2 ^ _USER_FLAGS);
  (if negb (ret =? 0) then reply 501 "Problem deleting user"
   else
     return_slot user;;
     reply 200 "User deleted");;
  emit Commit
  end end.

Definition do_site_help_readduser : M unit := reply 501 "site readduser <user>".

Definition do_site_readduser : M unit :=
  me ← get_me b;
  gadmin ← is_flagged FLAG_GADMIN me;
  t ← tok ws;
  match t with None => do_site_help_readduser | Some name =>
  p ← getUserByName b name;
  match p with None => reply 501 "User does not exist" | Some user =>
  may ← gadmin_may gadmin me user;
  if negb may then reply 501 "You can't change this user" else
  m ← user_at me;
  if gadmin && (user_slots m =? 0) then reply 501 "No more slots available" else
  u ← user_at user;
  fl ← lift (buf_str (flags u));
  match flag_pos FLAG_DELETED fl with
  | None => reply 501 "User is not marked as deleted"
  | Some i =>
    f ← lift (drop_flag (flags u) fl i);
    user_put user (set_flags u f);;
    ret ← modUser b (uid u) (Some user) (2 ^ _USER_FLAGS);
    (if negb (ret =? 0) then reply 501 "Problem readding user"
     else
       (if gadmin : bool then claim_user me user "Problem setting creator of target user" else mret tt);;
       reply 200 "User undeleted");;
    emit Commit
  end
  end end.

(** The clients of a user are cancelled, one after the other. *)
Fixpoint cancel_clients (uid : Z) (l : list client) (context : option client) : M unit :=
  match l with
  | [] => mret tt
  | c :: l =>
    (if c_magic c && (c_userid c =? uid)
     then _ ← kill_child_signal (c_pid c) context; mret tt else mret tt);;
    cancel_clients uid l context
  end.

Definition contexts : M (list client) := ask (λ w, Val (w_contexts w)).

Definition do_site_purgeuser : M unit :=
  me ← get_me b;
  gadmin ← is_flagged FLAG_GADMIN me;
  t ← tok ws;
  match t with
  | Some name =>
    p ← getUserByName b name;
    match p with None => reply 501 "User does not exist" | Some user =>
    u ← user_at user;
    deleted ← lift (has_flag FLAG_DELETED u);
    if negb deleted then reply 501 "User is not marked as deleted" else
    c ← my_context;
    if uid u =? c_userid c then
      reply 501 "Can't purge myself while logged. Use another user or try site purge without argument" else
    may ← gadmin_may gadmin me user;
    if negb may then reply 501 "You can't purge this user (GAdmin limits)" else
    l ← contexts;
    cancel_clients (uid u) l (Some c);;
    _ ← modUser b (uid u) None _USER_ALL;
    reply 200 "User purged"
    end
  | None =>
    emit (Cron (str "fn:_kick_and_purge"));;
    reply 200 "All deleted users will be purged"
  end.

Definition do_site_help_addip : M unit := reply 501 "site addip <user> <ip1> [<ip2> ...]".

(** The loop of [do_site_addip], entered with an address; the result says
    whether all were added. *)
Fixpoint addip_loop (fuel : nat) (a : addr) (ip : option (list ascii)) : M bool :=
  match fuel with
  | O => lift Crash
  | S fuel =>
    u ← user_at a;
    listed ← lift (match u_ip_list u, ip with
                   | [], _ => Val 0
                   | l, Some ip => Val (ip_inlist getipbyname gethostbyaddr l ip)
                   | _ :: _, None => Val 0  (* [ip_compare] of a null pointer *)
                   end);
    if negb (listed =? 0) then reply 501 "IP address is already included in list";; mret false else
    ip ← lift (deref ip);
    user_upd a (λ u, set_u_ip_list u (ip_add_check (u_ip_list u) ip 1).2);;
    t ← tok ws;
    match t with None => mret true | Some ip => addip_loop fuel a ip end
  end.

Definition do_site_addip : M unit :=
  me ← get_me b;
  gadmin ← is_flagged FLAG_GADMIN me;
  t ← tok ws;
  match t with None => do_site_help_addip | Some name =>
  p ← getUserByName b name;
  match p with None => reply 501 "User does not exist" | Some user =>
  t ← tok ws;
  match t with None => do_site_help_addip | Some ip =>
  may ← gadmin_may gadmin me user;
  if negb may then reply 501 "You can't change this user" else
  fuel ← line_fuel;
  all ← addip_loop fuel user ip;
  if (all : bool) then
    u ← user_at user;
    _ ← modUser b (uid u) (Some user) (2 ^ _USER_IP);
    reply 200 "User IP address(es) added"
  else mret tt
  end end end.

Definition do_site_help_delip : M unit :=
  raw "501-Usage: site delip <user> <ip1> [<ip2> ...]";;
  raw "501  ip can be replaced by the slot_number (get it with site user <user>)".

Definition decimal (v : Z) : list ascii := print_in 10 20 v [].

(** [snprintf(buffer,256,...)] *)
Definition reply_text (code : Z) (text : list ascii) : M unit := emit (Reply code (take 255 text)).

(** The slot of a number: slots are counted from one, and zero is taken for
    one. *)
Definition ip_slot (l : list wzd_ip_list_t) (ul : Z) : option wzd_ip_list_t :=
  if Z.of_nat (length l) <? ul then None else l !! Z.to_nat (ul - 1).

Fixpoint delip_loop (fuel : nat) (a : addr) (ip : option (list ascii)) : M bool :=
  match fuel with
  | O => lift Crash
  | S fuel =>
    ip ← lift (deref ip);
    u ← user_at a;
    let l := u_ip_list u in
    ok ← (match whole_number ip with
          | Some ul =>
            match ip_slot l ul with
            | None => reply_text 501 (str "IP slot " ++ decimal ul ++ str " not found");; mret false
            | Some e =>
              let '(ret, l') := ip_remove l (regexp e) in
              user_put a (set_u_ip_list u l');;
              if negb (ret =? 0) then reply_text 501 (str "error removing IP slot " ++ decimal ul);; mret false else mret true
            end
          | None =>
            let '(ret, l') := ip_remove l ip in
            user_put a (set_u_ip_list u l');;
            if negb (ret =? 0) then reply_text 501 (str "IP " ++ ip ++ str " not found");; mret false else mret true
          end);
    if negb ok then mret false else
    t ← tok ws;
    match t with None => mret true | Some ip => delip_loop fuel a ip end
  end.

Definition do_site_delip : M unit :=
  me ← get_me b;
  gadmin ← is_flagged FLAG_GADMIN me;
  t ← tok ws;
  match t with None => do_site_help_delip | Some name =>
  p ← getUserByName b name;
  match p with None => reply 501 "User does not exist" | Some user =>
  may ← gadmin_may gadmin me user;
  if negb may then reply 501 "You can't change this user" else
  t ← tok ws;
  match t with None => do_site_help_delip | Some ip =>
  fuel ← line_fuel;
  all ← delip_loop fuel user ip;
  if (all : bool) then
    u ← user_at user;
    _ ← modUser b (uid u) (Some user) (2 ^ _USER_IP);
    reply 200 "User IP address(es) removed"
  else mret tt
  end end end.

(** The new flags are built in an array of [MAX_FLAGS_NUM] bytes, and all of
    them are copied back. *)
Definition do_site_color : M unit :=
  me ← get_me b;
  m ← user_at me;
  fl ← lift (buf_str (flags m));
  let kept := List.filter (λ c, negb (bool_decide (c = FLAG_COLOR))) fl in
  let found := bool_decide (FLAG_COLOR ∈ fl) in
  new_flags ← lift (mem_write stack 0 ((if found then kept else kept ++ [FLAG_COLOR]) ++ [NUL]));
  f ← lift (mem_write (flags m) 0 (take MAX_FLAGS_NUM new_flags));
  user_put me (set_flags m f);;
  _ ← modUser b (uid m) (Some me) (2 ^ _USER_FLAGS);
  if found then reply 200 "Color mode OFF" else reply 200 "Color mode ON".

(** *** Changing a field *)

Definition do_site_help_change : M unit :=
  raw "501-site change <user> <field> <value>";;
  raw "field can be one of:";;
  raw " name          changes the user login name";;
  raw " pass          changes user password";;
  raw " homedir       changes user chroot's dir";;
  raw " tagline       changes user tagline";;
  raw " group         add/remove user from group";;
  raw " max_idle      changes idle time";;
  raw " perms         changes default user permissions";;
  raw " flags         changes user flags";;
  raw " max_ul        changes maximum upload speed";;
  raw " max_dl        changes maximum download speed";;
  raw " credits       changes user credits";;
  raw " ratio         changes user ratio";;
  raw " num_logins    changes maximum simultaneous logins allowed (0=unlimited)";;
  raw " logins_per_ip changes maximum logins per ip (0=unlimited)";;
  raw " user_slots    changes allowed user slots (for GAdmins)";;
  raw " leech_slots   changes allowed leech slots (for GAdmins)";;
  raw "501 site change aborted".

(** A branch either ends the command, having replied, or goes on with the kind
    of change and the ratio it has saved. *)
Definition stop (m : M unit) : M (option (Z * Z)) := m;; mret None.
Definition go (mod_type : Z) : M (option (Z * Z)) := mret (Some (mod_type, 0)).
Definition refused : M (option (Z * Z)) := stop (reply 501 "You can't change that field").

(** [strncpy(user->field,str_tochar(value),n)] *)
Definition change_text (user : addr) (get : wzd_user_t → list ascii) (set : wzd_user_t → list ascii → wzd_user_t)
    (n : nat) (value : option (list ascii)) (bit : Z) : M (option (Z * Z)) :=
  v ← lift (deref value);
  u ← user_at user;
  f ← lift (field_strncpy (get u) v n);
  user_put user (set u f);;
  go (2 ^ bit).

(** [ul=strtoul(value,&ptr,0); if (!*ptr) { ... }]: a value that is not a number
    changes nothing, and the command goes on. *)
Definition change_number (user : addr) (set : wzd_user_t → Z → wzd_user_t) (value : option (list ascii)) (bit : Z)
    : M (option (Z * Z)) :=
  v ← lift (deref value);
  match whole_number v with
  | Some ul => user_upd user (λ u, set u ul);; go (2 ^ bit)
  | None => go 0
  end.

(** The two numbers of logins: a group administrator may not increase them. *)
Definition change_logins (gadmin : bool) (user : addr) (get : wzd_user_t → Z) (set : wzd_user_t → Z → wzd_user_t)
    (value : option (list ascii)) (bit : Z) : M (option (Z * Z)) :=
  v ← lift (deref value);
  match whole_number v with
  | Some ul =>
    u ← user_at user;
    if gadmin && (get u <? u16 ul) then stop (reply 501 "You cannot increase this field")
    else user_put user (set u (u16 ul));; go (2 ^ bit)
  | None => go 0
  end.

(** The two numbers of slots of a group administrator. *)
Definition change_slots (gadmin : bool) (user : addr) (set : wzd_user_t → Z → wzd_user_t)
    (value : option (list ascii)) (bit : Z) : M (option (Z * Z)) :=
  if gadmin then refused else
  ga ← is_flagged FLAG_GADMIN user;
  if negb ga then stop (reply 501 "User is not a gadmin")
  else change_number user (λ u n, set u (u16 n)) value bit.

Definition flags_reply (ret : Z) (syntax : M unit) : M unit :=
  if ret =? -1 then syntax
  else if ret =? -2 then reply 501 "Error adding flags to user"
  else if ret =? -3 then reply 501 "Error removing flags from user"
  else if ret =? -4 then reply 501 "Critical error replacing flags. All flags lost!"
  else if ret =? -5 then reply 501 "GADMIN and SITEOP flags cannot be used together"
  else mret tt.

(** [user_flags_change(user,value)] on the structure in place. *)
Definition change_flags (user : addr) (value : option (list ascii)) : M Z :=
  u ← user_at user;
  '(ret, u') ← lift (user_flags_change (Some u) value);
  u' ← lift (deref u');
  user_put user u';; mret ret.

Definition change_field (gadmin : bool) (me user : addr) (field : list ascii) (value : option (list ascii))
    : M (option (Z * Z)) :=
  let eq name := streq field (str name) in
  if eq "name" then change_text user username set_username HARD_USERNAME_LENGTH value _USER_USERNAME
  else if eq "pass" then change_text user userpass set_userpass MAX_PASS_LENGTH value _USER_USERPASS
  else if eq "homedir" then
    v ← lift (deref value);
    if negb (is_dir v) then stop (reply 501 "Homedir does not exist")
    else change_text user rootpath set_rootpath WZD_MAX_PATH value _USER_ROOTPATH
  else if eq "creator" then
    if gadmin then refused else
    creatorid ← ask (GetUserIDByName b value);
    if negb (creatorid =? INVALID_USER) then user_upd user (λ u, set_creator u creatorid);; go (2 ^ _USER_CREATOR)
    else stop (reply 501 "Could not find the creator specified")
  else if eq "tagline" then change_text user u_tagline set_u_tagline (MAX_TAGLINE_LENGTH - 1) value _USER_TAGLINE
  else if eq "group" then
    if gadmin then refused else
    newgroupid ← ask (GetGroupIDByName b value);
    (if negb (newgroupid =? INVALID_USER) then
       u ← user_at user;
       u' ← lift (toggle_group newgroupid u);
       user_put user u'
     else mret tt);;
    go (2 ^ _USER_GROUP + 2 ^ _USER_GROUPNUM)
  else if eq "max_idle" then change_number user (λ u n, set_max_idle_time u (u32 n)) value _USER_IDLE
  else if eq "perms" then change_number user set_userperms value _USER_PERMS
  else if eq "flags" then
    if gadmin then refused else
    ret ← change_flags user value;
    if ret <? 0 then stop (flags_reply ret (reply 501 "Invalid syntax or argument values"))
    else go (2 ^ _USER_FLAGS)
  else if eq "max_ul" then change_number user (λ u n, set_max_ul_speed u (u32 n)) value _USER_MAX_ULS
  else if eq "max_dl" then change_number user (λ u n, set_max_dl_speed u (u32 n)) value _USER_MAX_DLS
  else if eq "credits" then
    v ← lift (deref value);
    if negb (starts_with_digit v) then stop do_site_help_change else
    match whole_number v with
    | None => stop do_site_help_change
    | Some ull => user_upd user (λ u, set_credits u ull);; go (2 ^ _USER_CREDITS)
    end
  else if eq "num_logins" then change_logins gadmin user u_num_logins set_num_logins value _USER_NUMLOGINS
  else if eq "logins_per_ip" then change_logins gadmin user logins_per_ip set_logins_per_ip value _USER_LOGINSPERIP
  else if eq "ratio" then
    v ← lift (deref value);
    match whole_number v with
    | None => go 0
    | Some ul =>
      m ← user_at me;
      if gadmin && (ul =? 0) && (leech_slots m =? 0) then stop (reply 501 "No more leech slots available") else
      u ← user_at user;
      user_put user (set_ratio u (u32 ul));;
      mret (Some (2 ^ _USER_RATIO, u_ratio u))
    end
  else if eq "user_slots" then change_slots gadmin user set_user_slots value _USER_USERSLOTS
  else if eq "leech_slots" then change_slots gadmin user set_leech_slots value _USER_LEECHSLOTS
  else stop (reply 501 "Field does not exist").

(** The count of leech accounts of a group administrator follows the ratio. *)
Definition count_leech (me : addr) (oldratio ratio : Z) : M unit :=
  (if ratio =? 0 then user_upd me (λ m, set_leech_slots m (u16 (leech_slots m - 1))) else mret tt);;
  (if (oldratio =? 0) && negb (ratio =? 0) then user_upd me (λ m, set_leech_slots m (u16 (leech_slots m + 1))) else mret tt).

Definition do_site_change : M unit :=
  me ← get_me b;
  gadmin ← is_flagged FLAG_GADMIN me;
  t ← tok ws;
  match t with None => do_site_help_change | Some name =>
  (* strncpy(old_username,...,HARD_USERNAME_LENGTH) *)
  name ← lift (deref name);
  old_username ← lift (buf_str (strncpy (replicate HARD_USERNAME_LENGTH NUL) name HARD_USERNAME_LENGTH));
  p ← getUserByName b (Some old_username);
  match p with None => reply 501 "User does not exist" | Some user =>
  t ← tok ws;
  match t with None => do_site_help_change | Some field =>
  t ← tok eol;
  match t with None => do_site_help_change | Some value =>
  may ← gadmin_may gadmin me user;
  if negb may then reply 501 "You can't change this user" else
  field ← lift (deref field);
  r ← change_field gadmin me user field value;
  match r with None => mret tt | Some (mod_type, oldratio) =>
  u ← user_at user;
  ret ← modUser b (uid u) (Some user) mod_type;
  p ← getUserByID b (uid u);
  user ← lift (deref p);
  u ← user_at user;
  (if (ret =? 0) && gadmin && Z.testbit mod_type _USER_RATIO then count_leech me oldratio (u_ratio u) else mret tt);;
  u ← user_at user;
  g ← lift (has_flag FLAG_GADMIN u);
  o ← lift (has_flag FLAG_SITEOP u);
  if g && o then
    reply 200 "Change okay - You have set flags G and O, THIS IS NOT WHAT YOU WANT - repeat: THIS IS STUPID !!"
  else reply 200 "User field change successful"
  end end end end end.

Definition do_site_help_changegrp : M unit :=
  raw "501-site changegrp <user> <group1> [<group2> ...]";;
  raw " Add user to group, or remove it if already in group";;
  raw "501 site changegrp aborted".

(** The result says whether all the groups existed. *)
Fixpoint changegrp_loop (fuel : nat) (user : addr) (group_name : option (list ascii)) : M bool :=
  match fuel with
  | O => lift Crash
  | S fuel =>
    newgroupid ← ask (GetGroupIDByName b group_name);
    if newgroupid =? INVALID_USER then
      n ← lift (deref group_name);
      emit (Reply 501 (take 1022 (str "Group " ++ n ++ str " is invalid")));; mret false
    else
      u ← user_at user;
      u' ← lift (toggle_group newgroupid u);
      user_put user u';;
      t ← tok ws;
      match t with None => mret true | Some g => changegrp_loop fuel user g end
  end.

Definition do_site_changegrp : M unit :=
  t ← tok ws;
  match t with None => do_site_help_changegrp | Some name =>
  p ← getUserByName b name;
  match p with None => reply 501 "User does not exist" | Some user =>
  t ← tok ws;
  match t with None => do_site_help_changegrp | Some group_name =>
  fuel ← line_fuel;
  all ← changegrp_loop fuel user group_name;
  if (all : bool) then
    u ← user_at user;
    _ ← modUser b (uid u) (Some user) (2 ^ _USER_GROUP + 2 ^ _USER_GROUPNUM);
    reply 200 "User field change successful"
  else mret tt
  end end end.

Definition do_site_help_chratio : M unit := reply 501 "site chratio <user> <ratio>".

(** Without a slot left, the string of the ratio is released a second time. *)
Definition do_site_chratio : M unit :=
  me ← get_me b;
  gadmin ← is_flagged FLAG_GADMIN me;
  t ← tok ws;
  match t with None => do_site_help_chratio | Some name =>
  t ← tok ws;
  match t with None => do_site_help_chratio | Some str_ratio =>
  p ← getUserByName b name;
  match p with None => reply 501 "User does not exist" | Some user =>
  s ← lift (deref str_ratio);
  if negb (starts_with_digit s) then do_site_help_chratio else
  match whole_number s with None => do_site_help_chratio | Some ul =>
  let ratio := u32 ul in
  may ← gadmin_may gadmin me user;
  if negb may then reply 501 "You are not allowed to change users from this group" else
  m ← user_at me;
  if gadmin && (ratio =? 0) && (leech_slots m =? 0) then reply 501 "No more slots available";; lift Crash else
  u ← user_at user;
  user_put user (set_ratio u ratio);;
  ret ← modUser b (uid u) (Some user) (2 ^ _USER_RATIO);
  if negb (ret =? 0) then reply 501 "Problem changing value"
  else
    (if gadmin : bool then count_leech me (u_ratio u) ratio else mret tt);;
    reply 200 "User ratio changed"
  end end end end.

(** *** Flags, idle time, tagline *)

Definition do_site_help_flags : M unit :=
  raw "501-site flags [<user>] [<flags>]";;
  raw " If no arguments are supplied, view flags for your account.";;
  raw " With optional <user> argument, view flags for specified user.";;
  raw " With both <user> and <flags> arguments, change flags for specified user.";;
  raw " <flags> can start with either + or - to give or take flags.";;
  raw " Otherwise <flags> will replace any existing flags the user has.";;
  raw " <flags> is a case sensitive alphanumeric string.";;
  raw "501 site flags aborted".

(** [snprintf(buffer,1023,...)] *)
Definition reply_buffer (code : Z) (text : list ascii) : M unit := emit (Reply code (take 1022 text)).

Definition do_site_flags : M unit :=
  t ← tok ws;
  name ← match t with
         | Some name => mret name
         | None => me ← get_me b; m ← user_at me; n ← lift (buf_str (username m)); mret (Some n)
         end;
  newflags ← tok ws;
  p ← getUserByName b name;
  match p with None => reply 501 "User does not exist" | Some user =>
  me ← get_me b;
  gadmin ← is_flagged FLAG_GADMIN me;
  siteop ← is_flagged FLAG_SITEOP me;
  m ← user_at me;
  u ← user_at user;
  match newflags with
  | None =>
    if gadmin && negb (uid m =? uid u) then
      same ← same_group me user;
      if negb same then reply 501 "You can't view flags for users outside your group"
      else
        n ← lift (buf_str (username u)); f ← lift (buf_str (flags u));
        reply_buffer 200 (str "Flags for " ++ n ++ str ": " ++ f)
    else if negb siteop && negb (uid m =? uid u) then reply 501 "You can't view flags for other users"
    else
      n ← lift (buf_str (username u)); f ← lift (buf_str (flags u));
      reply_buffer 200 (str "Flags for " ++ n ++ str ": " ++ f)
  | Some newflags =>
    if negb siteop then reply 501 "You can't change flags assigned to other users" else
    ret ← change_flags user newflags;
    if ret <? 0 then flags_reply ret do_site_help_flags
    else
      ret ← modUser b (uid u) (Some user) (2 ^ _USER_FLAGS);
      if ret =? 0 then reply 200 "Flags changed"
      else reply 501 "Flags changed, but changes could not be committed to the backend"
  end
  end.

Definition get_line : M (list ascii) := λ s, Val (ss_line s, s).

Definition do_site_idle : M unit :=
  c ← my_context;
  p ← getUserByID b (c_userid c);
  match p with None => reply 501 "Mama says I don't exist?!" | Some user =>
  line ← get_line;
  u ← user_at user;
  match line with
  | [] => reply_buffer 200 (str "Your idle time is " ++ decimal (u_max_idle_time u) ++ str " seconds")
  | _ =>
    siteop ← lift (has_flag FLAG_SITEOP u);
    if negb siteop then reply 501 "You do not have the rights to do that!" else
    if negb (starts_with_digit line) then reply 501 "Invalid value - Usage: site idle [<idletime>]" else
    match whole_number line with
    | None => reply 501 "Invalid value - Usage: site idle [<idletime>]"
    | Some idletime =>
      if 7200 <? idletime then reply 501 "Maximum idle timeout value is 7200 seconds" else
      user_put user (set_max_idle_time u (u32 idletime));;
      _ ← modUser b (uid u) (Some user) (2 ^ _USER_IDLE);
      reply 200 "Command okay"
    end
  end
  end.

Definition do_site_tagline : M unit :=
  c ← my_context;
  p ← getUserByID b (c_userid c);
  match p with None => reply 501 "Mama says I don't exist?!" | Some user =>
  line ← get_line;
  u ← user_at user;
  match line with
  | [] => t ← lift (buf_str (u_tagline u)); reply_buffer 200 (str "Your tagline is " ++ t)
  | _ =>
    t ← lift (field_strncpy (u_tagline u) line 255);
    user_put user (set_u_tagline u t);;
    _ ← modUser b (uid u) (Some user) (2 ^ _USER_TAGLINE);
    reply 200 "Command okay"
  end
  end.

(** *** Killing and kicking *)

Definition do_site_kill : M unit :=
  line ← get_line;
  match whole_number line with
  | None => reply 501 "Usage: site kill <pid>"
  | Some pid =>
    r ← kill_child_new pid;
    if r =? 0 then reply 200 "KILL signal sent"
    else if r =? 1 then reply 501 "My religion forbids me suicide!"
    else if r =? -1 then reply 501 "Invalid PID"
    else reply 501 "We should NOT have passed here - NEVER!"
  end.

(** The report is inside the loop: one for every connection to the server. *)
Fixpoint kick_loop (uid : Z) (found : Z) (l : list client) : M unit :=
  match l with
  | [] => mret tt
  | c :: l =>
    found ← (if c_magic c && (uid =? c_userid c) then
               r ← kill_child_new (c_pid c); mret (if r =? 0 then found + 1 else found)
             else mret found);
    (if found =? 0 then
       me ← my_context;
       if negb (uid =? c_userid me) then reply 501 "User has no connections to server"
       else reply 501 "Can not commit suicide"
     else reply_buffer 200 (str "User's " ++ decimal found ++ str " connections to server have been killed"));;
    kick_loop uid found l
  end.

Definition do_site_kick : M unit :=
  t ← tok ws;
  match t with None => reply 501 "Usage: site kick <user>" | Some name =>
  p ← getUserByName b name;
  match p with None => reply 501 "User does not exist" | Some user =>
  me ← get_me b;
  gadmin ← is_flagged FLAG_GADMIN me;
  siteop ← is_flagged FLAG_SITEOP me;
  if negb siteop && negb gadmin then reply 501 "You are not authorized to use this command" else
  may ← gadmin_may gadmin me user;
  if negb may then reply 501 "You can only kick users within your own group" else
  u ← user_at user;
  l ← contexts;
  kick_loop (uid u) 0 l
  end end.

(** *** Credits *)

Definition do_site_help_give : M unit := reply 501 "site give <user> <kbytes>".

Definition do_site_give : M unit :=
  me ← get_me b;
  is_gadmin ← is_flagged FLAG_GADMIN me;
  siteop ← is_flagged FLAG_SITEOP me;
  t ← tok ws;
  match t with None => do_site_help_give | Some name =>
  t ← tok ws;
  match t with None => do_site_help_give | Some str_give =>
  p ← getUserByName b name;
  match p with None => reply 501 "User does not exist" | Some user =>
  gadmin ← (if is_gadmin : bool then same_group me user else mret false);
  s ← lift (deref str_give);
  if negb (starts_with_digit s) then do_site_help_give else
  match whole_number s with None => do_site_help_give | Some bytes =>
  m ← user_at me;
  let pays := negb gadmin && negb siteop in
  if pays && (u_ratio m =? 0) then reply 501 "Users without a ratio cannot give credits" else
  if pays && (credits m <? bytes) then reply 501 "You don't have enough credits" else
  u ← user_at user;
  if u_ratio u =? 0 then reply 501 "Users without a ratio cannot receive credits" else
  let overflow := ULLONG_MAX - bytes <=? credits u in
  let bytes := if overflow then ULLONG_MAX - credits u else bytes in
  user_put user (set_credits u (if overflow then ULLONG_MAX else credits u + bytes));;
  (if pays then user_upd me (λ m, set_credits m (u64 (credits m - bytes))) else mret tt);;
  ret ← modUser b (uid u) (Some user) (2 ^ _USER_CREDITS);
  (if negb (ret =? 0) then reply 501 "Problem changing value" else reply 200 "Credits given");;
  (if pays then m ← user_at me; _ ← modUser b (uid m) (Some me) (2 ^ _USER_CREDITS); mret tt else mret tt)
  end end end end.

Definition do_site_help_take : M unit := reply 501 "site take <user> <kbytes>".

Definition do_site_take : M unit :=
  me ← get_me b;
  gadmin ← is_flagged FLAG_GADMIN me;
  siteop ← is_flagged FLAG_SITEOP me;
  if negb gadmin || negb siteop then reply 501 "You are not authorized to use this command" else
  t ← tok ws;
  match t with None => do_site_help_take | Some name =>
  t ← tok ws;
  match t with None => do_site_help_take | Some str_take =>
  p ← getUserByName b name;
  match p with None => reply 501 "User does not exist" | Some user =>
  s ← lift (deref str_take);
  if negb (starts_with_digit s) then do_site_help_take else
  match whole_number s with None => do_site_help_take | Some bytes =>
  may ← gadmin_may gadmin me user;
  if negb may then reply 501 "You are not allowed to change users from this group" else
  u ← user_at user;
  if u_ratio u =? 0 then reply 501 "User has unlimited credits!" else
  user_put user (set_credits u (if bytes <? credits u then credits u - bytes else 0));;
  ret ← modUser b (uid u) (Some user) (2 ^ _USER_CREDITS);
  if negb (ret =? 0) then reply 501 "Problem changing value" else reply 200 "Credits removed"
  end end end end.

(** *** Becoming another user *)

Definition do_site_help_su : M unit := reply 501 "site su <user>".

(** [backend_find_user(name,&user,&uid)]: a copy of the structure found. *)
Definition find_user_copy (name : option (list ascii)) : M (option wzd_user_t) :=
  match b with
  | None => mret None
  | Some b' =>
    match backend_find_user b' with
    | None => mret None
    | Some find =>
      n ← lift (deref name);
      ret ← ask (find n);
      if ret <? 2 ^ 31 then
        p ← getUserByID b ret;
        match p with None => mret None | Some a => u ← user_at a; mret (Some u) end
      else mret None
    end
  end.

Definition set_my_userid (id : Z) : M unit := λ s,
  c ← deref (w_contexts (ss_world s) !! ss_ctx s);
  Val (tt, set_world s (with_contexts (ss_world s)
    (<[ss_ctx s := mkClient (c_magic c) id (c_ul_maxspeed c) (c_dl_maxspeed c) (c_pid c) (c_exit c) (c_conn c)]> (w_contexts (ss_world s))))).

Definition do_site_su : M unit :=
  me ← get_me b;
  gadmin ← is_flagged FLAG_GADMIN me;
  t ← tok ws;
  match t with None => do_site_help_su | Some name =>
  r ← find_user_copy name;
  match r with None => reply 501 "User does not exist" | Some user =>
  siteop ← is_flagged FLAG_SITEOP me;
  if negb siteop then reply 501 "You can't use this command, you are not a siteop!" else
  m ← user_at me;
  allowed ← (if gadmin : bool then
               if group_num m =? 0 then mret false else if group_num user =? 0 then mret false else
               g ← lift (deref (head (groups m))); h ← lift (deref (head (groups user))); mret (g =? h)
             else mret true);
  if negb allowed then reply 501 "You are not allowed to become a user from this group" else
  op ← lift (has_flag FLAG_SITEOP user);
  if (op : bool) then reply 501 "You can't steal a siteop's identity!" else
  n ← lift (buf_str (username user));
  id ← ask (GetUserIDByName b (Some n));
  set_my_userid id;;
  (* the name of the group of the former user is logged *)
  (if 0 <? group_num m then
     g ← lift (deref (head (groups m))); p ← getGroupByID b g; _ ← lift (deref p); mret tt
   else mret tt);;
  reply 200 "Command okay"
  end end.

(** *** Passwords: do_site_chpass of wzd_site.c *)

Definition chpass_to (gadmin : bool) (me user : addr) (new_pass : option (list ascii)) : M unit :=
  may ← gadmin_may gadmin me user;
  if negb may then reply 501 "You can't change this user" else
  siteop ← is_flagged FLAG_SITEOP me;
  m ← user_at me;
  u ← user_at user;
  if negb gadmin && negb siteop && negb (uid m =? uid u) then reply 501 "You can't change password for other users" else
  op ← lift (has_flag FLAG_SITEOP u);
  if op && negb (uid m =? uid u) then reply 501 "You can't change password for a siteop" else
  pass ← lift (deref new_pass);
  f ← lift (field_strncpy (userpass u) pass MAX_PASS_LENGTH);
  user_put user (set_userpass u f);;
  ret ← modUser b (uid u) (Some user) (2 ^ _USER_USERPASS);
  if negb (ret =? 0) then reply 501 "An error occurred during password change" else reply 200 "Password changed".

(** A single argument is the new password of the client. *)
Definition do_site_chpass : M unit :=
  me ← get_me b;
  gadmin ← is_flagged FLAG_GADMIN me;
  t ← tok ws;
  match t with None => do_site_help "chpass" | Some username =>
  t ← tok ws;
  match t with None => chpass_to gadmin me me username | Some new_pass =>
  p ← getUserByName b username;
  match p with None => reply 501 "User does not exist" | Some user =>
  chpass_to gadmin me user new_pass
  end end end.

(** *** Purging all the deleted users *)

Fixpoint kick_deleted (l : list client) : M unit :=
  match l with
  | [] => mret tt
  | c :: l =>
    (if c_magic c then
       p ← getUserByID b (c_userid c);
       match p with
       | None => mret tt
       | Some a =>
         deleted ← is_flagged FLAG_DELETED a;
         if (deleted : bool) then _ ← kill_child_signal (c_pid c) None; mret tt else mret tt
       end
     else mret tt);;
    kick_deleted l
  end.

Fixpoint purge_deleted (l : list Z) : M unit :=
  match l with
  | [] => mret tt
  | i :: l =>
    p ← getUserByID b i;
    (match p with
     | None => mret tt
     | Some a =>
       u ← user_at a;
       deleted ← lift (has_flag FLAG_DELETED u);
       if (deleted : bool) then _ ← modUser b (uid u) None _USER_ALL; mret tt else mret tt
     end);;
    purge_deleted l
  end.

Definition _kick_and_purge : M Z :=
  r ← ask (λ w, match b with
                | Some b' => match backend_get_user b' with
                             | Some get => get GET_USER_LIST w
                             | None => Val (Got None)
                             end
                | None => Val (Got None)
                end);
  match r with
  | Got None => mret (-1)
  | Got (Some _) => lift Crash
  | GotList l =>
    cs ← contexts;
    kick_deleted cs;;
    purge_deleted l;;
    mret 0
  end.

End handlers.
