(* ===== verification/SiteUserProps.v ===== *)
(** * SiteUserProps: what the SITE commands on users guarantee

    A logic of frames for the handlers ([hoare]: which structures may change),
    the confinement of group administrators to their group proved in it, and
    the behaviour of single commands: credits given, deletion and restoration,
    flags, leech slots. *)

From S2P Require Import Prelude Inet CList Ip Registry Users Backend Str Session SiteUser.

(** ** Handlers that only reply *)

Lemma quiet_reply_text c t : quiet (reply_text c t).
Proof. apply quiet_emit. Qed.
Lemma quiet_reply_buffer c t : quiet (reply_buffer c t).
Proof. apply quiet_emit. Qed.
Lemma quiet_line_fuel : quiet line_fuel.
Proof. intros s x s1 H. by injection H as <- <-. Qed.
Lemma quiet_get_line : quiet get_line.
Proof. intros s x s1 H. by injection H as <- <-. Qed.
Lemma quiet_contexts : quiet contexts.
Proof. apply quiet_ask. Qed.
#[export] Hint Resolve quiet_reply_text quiet_reply_buffer quiet_line_fuel quiet_get_line quiet_contexts : quiet.

#[export] Hint Extern 1 (quiet do_site_help_adduser) => apply quiet_reply : quiet.
#[export] Hint Extern 1 (quiet do_site_help_deluser) => apply quiet_reply : quiet.
#[export] Hint Extern 1 (quiet do_site_help_readduser) => apply quiet_reply : quiet.
#[export] Hint Extern 1 (quiet do_site_help_addip) => apply quiet_reply : quiet.
#[export] Hint Extern 1 (quiet do_site_help_chratio) => apply quiet_reply : quiet.
#[export] Hint Extern 1 (quiet do_site_help_give) => apply quiet_reply : quiet.
#[export] Hint Extern 1 (quiet do_site_help_take) => apply quiet_reply : quiet.
#[export] Hint Extern 1 (quiet do_site_help_su) => apply quiet_reply : quiet.
Lemma quiet_help_change : quiet do_site_help_change.
Proof. unfold do_site_help_change. solve_quiet. Qed.
Lemma quiet_help_flags : quiet do_site_help_flags.
Proof. unfold do_site_help_flags. solve_quiet. Qed.
Lemma quiet_help_delip : quiet do_site_help_delip.
Proof. unfold do_site_help_delip. solve_quiet. Qed.
Lemma quiet_do_site_help c : quiet (do_site_help c).
Proof.
  unfold do_site_help. apply quiet_bind; [auto with quiet|]. intros _. apply quiet_bind; [|auto with quiet].
  induction (help_lines _ _); cbn [raw_lines]; auto with quiet.
Qed.
Lemma quiet_stop m : quiet m → quiet (stop m).
Proof. intros. unfold stop. solve_quiet. Qed.
Lemma quiet_go mt : quiet (go mt).
Proof. apply quiet_ret. Qed.
Lemma quiet_refused : quiet refused.
Proof. apply quiet_stop, quiet_reply. Qed.
Lemma quiet_flags_reply r m : quiet m → quiet (flags_reply r m).
Proof. intros. unfold flags_reply. solve_quiet. Qed.
Lemma quiet_cancel_clients i l c : quiet (cancel_clients i l c).
Proof. induction l as [|x l IH]; cbn [cancel_clients]; solve_quiet. Qed.
#[export] Hint Resolve quiet_do_site_help quiet_help_change quiet_help_flags quiet_help_delip quiet_stop quiet_go quiet_refused quiet_flags_reply
  quiet_cancel_clients : quiet.

Section confinement.
  Context (changepass : list ascii → list ascii → list ascii → nat → Z * list ascii)
    (check_auth : list ascii → list ascii → list ascii → Z) (is_dir : list ascii → bool)
    (getipbyname gethostbyaddr : list ascii → option (list ascii)) (stack : list ascii).
  #[local] Abbreviation pb := (Some (plaintext changepass check_auth)).

  (** The group (first slot of the list of groups) whose members may change. *)
  Context (G : option Z).

(** *** A logic of frames *)

Definition own_user (i : Z) (u : wzd_user_t) : Prop := uid u = i ∧ head (groups u) = G.

Definition own (w : world) (p : addr * Z) : Prop :=
  registered (w_users w) p.2 = Some p.1 ∧ ∃ u, r_heap (w_users w) !! p.1 = Some u ∧ own_user p.2 u.

(** The structures of [K] are registered members of the group, those of [R] are
    registered. *)
Definition good (K R : list (addr * Z)) (w : world) : Prop :=
  world_wf w ∧ (∀ p, p ∈ K → own w p) ∧
  (∀ p, p ∈ R → registered (w_users w) p.2 = Some p.1).

(** Everybody outside the group is as before. *)
Definition frame (w w' : world) : Prop :=
  ∀ a u, r_heap (w_users w) !! a = Some u → head (groups u) ≠ G → r_heap (w_users w') !! a = Some u.

Definition hoare {A} (K R : list (addr * Z)) (m : M A) (Q : A → Prop) : Prop :=
  ∀ s x s', good K R (ss_world s) → m s = Val (x, s') → good K R (ss_world s') ∧ frame (ss_world s) (ss_world s') ∧ Q x.

Lemma frame_refl w : frame w w.
Proof. by intros a u. Qed.
Lemma frame_trans w1 w2 w3 : frame w1 w2 → frame w2 w3 → frame w1 w3.
Proof. intros H1 H2 a u Ha Hu. by apply H2; [apply H1|]. Qed.

Lemma hoare_bind {A B} K R (m : M A) (f : A → M B) P Q :
  hoare K R m P → (∀ a, P a → hoare K R (f a) Q) → hoare K R (m ≫= f) Q.
Proof.
  intros Hm Hf s x s2 Hg (a & s1 & H1 & H2)%M_bind_Val.
  destruct (Hm _ _ _ Hg H1) as (Hg1 & Hf1 & Ha). destruct (Hf a Ha _ _ _ Hg1 H2) as (Hg2 & Hf2 & Hx).
  split_and!; [done|by eapply frame_trans|done].
Qed.

Lemma hoare_quiet {A} K R (m : M A) : quiet m → hoare K R m (λ _, True).
Proof. intros Hq s x s' Hg H. destruct (Hq _ _ _ H) as [-> _]. split_and!; [done|apply frame_refl|done]. Qed.

Lemma hoare_weaken {A} K R (m : M A) (P Q : A → Prop) : hoare K R m P → (∀ a, P a → Q a) → hoare K R m Q.
Proof. intros Hm HPQ s x s' Hg H. destruct (Hm _ _ _ Hg H) as (? & ? & ?). naive_solver. Qed.

Lemma hoare_if {A} K R (c : bool) (m n : M A) Q : hoare K R m Q → hoare K R n Q → hoare K R (if c then m else n) Q.
Proof. by destruct c. Qed.

Lemma hoare_user_at K R a i : (a, i) ∈ K → hoare K R (user_at a) (own_user i).
Proof.
  intros HK s x s' Hg [Hx ->]%user_at_Val. split_and!; [done|apply frame_refl|].
  destruct Hg as (_ & Hg & _). destruct (Hg _ HK) as (_ & u & Hu & Ho). simpl in *. by simplify_eq.
Qed.

(** A member of the group is replaced by one with the same identifier. *)
Lemma good_change K R w w' a i u :
  (a, i) ∈ K → own_user i u → good K R w → world_wf w' → r_heap (w_users w') = <[a := u]> (r_heap (w_users w)) →
  (∀ j, registered (w_users w') j = registered (w_users w) j) → good K R w' ∧ frame w w'.
Proof.
  intros HK [Hui Hug] (Hwf & Hown & Hreg) Hwf' Hh Hr.
  destruct (Hown _ HK) as (Hra & v & Hv & [Hvi Hvg]). simpl in *. split; [split; [done|split]|].
  - intros [a' i'] HK'. destruct (Hown _ HK') as (Hreg' & v' & Hv' & Ho'). split; [by rewrite Hr|]. simpl in *. rewrite Hh.
    destruct (decide (a' = a)) as [->|]; [|exists v'; by rewrite lookup_insert_ne].
    exists u. rewrite lookup_insert_eq. split; [done|]. simplify_eq. split; [by destruct Ho' as [<- _]|done].
  - intros p Hp. rewrite Hr. by apply Hreg.
  - intros a' u' Ha' Hout. rewrite Hh, lookup_insert_ne; [done|]. intros <-. simplify_eq.
Qed.

Lemma hoare_user_put K R a i u : (a, i) ∈ K → own_user i u → hoare K R (user_put a u) (λ _, True).
Proof.
  intros HK Hu s x s' Hg H. injection H as _ <-. pose proof Hg as (Hwf & Hown & _).
  destruct (Hown _ HK) as (_ & v & Hv & [Hvi _]). simpl in *.
  destruct (good_change K R (ss_world s) (put_user (ss_world s) a u) a i u HK Hu Hg) as [H1 H2]; [|done|done|done].
  apply (put_user_wf _ _ v u Hwf Hv). destruct Hu. congruence.
Qed.

Lemma hoare_user_upd K R a i f :
  (a, i) ∈ K → (∀ u, own_user i u → own_user i (f u)) → hoare K R (user_upd a f) (λ _, True).
Proof.
  intros HK Hf. eapply hoare_bind; [by eapply hoare_user_at|]. intros u Hu. eapply hoare_user_put; [done|by apply Hf].
Qed.

Lemma hoare_modUser K R a i id mt :
  (a, i) ∈ K → id = i → mt ≠ _USER_CREATE → hoare K R (modUser pb id (Some a) mt) (λ _, True).
Proof.
  intros HK -> Hmt s x s' Hg H. pose proof Hg as (Hwf & Hown & _). unfold modUser, on_world in H.
  destruct (mod_user _ _ _ _ _) as [[ret w']|] eqn:Hm; [|done]. run in H. injection H as <- <-. simpl.
  destruct (Hown _ HK) as (Hreg & u & Hu & [Hui Hug]). simpl in *. rewrite <- Hui in Hm, Hreg.
  destruct (mod_user_pass changepass check_auth _ a u mt ret w' Hwf Hreg Hu Hmt Hm) as (Hwf' & u' & Hh & Hid & Hg' & Hr).
  destruct (good_change K R (ss_world s) w' a i u' HK) as [H1 H2]; try done. split; congruence.
Qed.

(** One more structure, when it is known to be one of the group. *)
Lemma good_extend K R p w : good K R w → own w p → good (p :: K) R w.
Proof. intros (Hwf & Hown & ?) Hp. split_and!; [done| |done]. intros q [->|Hq]%elem_of_cons; [done|by apply Hown]. Qed.
Lemma good_shrink K R p w : good (p :: K) R w → good K R w.
Proof. intros (Hwf & Hown & ?). split_and!; [done| |done]. intros q Hq. apply Hown. apply elem_of_cons. by right. Qed.

Lemma hoare_extend {A} K R p (m : M A) Q s x s' :
  hoare (p :: K) R m Q → good K R (ss_world s) → own (ss_world s) p → m s = Val (x, s') →
  good K R (ss_world s') ∧ frame (ss_world s) (ss_world s') ∧ Q x.
Proof.
  intros Hm Hg Hp H. destruct (Hm s x s') as (? & ? & ?); [by apply good_extend|done|].
  split_and!; [by eapply good_shrink|done|done].
Qed.

Ltac in_K := first [eassumption | apply elem_of_cons; left; reflexivity | apply elem_of_cons; right; in_K].
Ltac own_facts := repeat match goal with H : own_user _ _ |- _ => destruct H as [? ?] end; cbn in *; congruence.
Ltac keep_own := let u := fresh "u" in intros u [? ?]; split; done.

(** The steps of a handler on members of the group. *)
Ltac hoare_step :=
  cbv zeta;
  lazymatch goal with
  | |- hoare _ _ (if _ then _ else _) _ =>
    first [apply hoare_if | match goal with |- hoare _ _ (match ?x with _ => _ end) _ => destruct x end]
  | |- hoare _ _ (match ?x with _ => _ end) _ => destruct x
  | |- hoare _ _ (user_at _) _ => first [eapply hoare_user_at; in_K | apply hoare_quiet; auto with quiet]
  | |- hoare _ _ (user_put _ _) _ => eapply hoare_user_put; [in_K|split; solve [own_facts]]
  | |- hoare _ _ (user_upd _ _) _ => eapply hoare_user_upd; [in_K|keep_own]
  | |- hoare _ _ (modUser _ _ (Some _) _) _ => eapply hoare_modUser; [in_K|solve [own_facts]|done]
  | |- hoare _ _ (_ ≫= _) _ => eapply hoare_bind; [|intros]
  | |- hoare _ _ _ (λ _, True) => apply hoare_quiet; solve [auto with quiet]
  | |- hoare _ _ _ ?Q => is_evar Q; apply hoare_quiet; solve [auto with quiet]
  end.
Ltac hoare_auto := repeat hoare_step.

Lemma get_by_id_Some (r : users) i a : reg_wf r → get_by_id i r = Val (Some a) → ∃ j, registered r j = Some a.
Proof.
  intros Hwf. unfold get_by_id. destruct (_ =? _); [done|]. destruct (Z.ltb_spec (r_max r) i); [done|].
  destruct (Z.eqb_spec (r_max r) 0); [done|]. unfold slot. destruct (r_arr r) as [l|] eqn:Hl; [|done]. run.
  intros H'%deref_Val. pose proof (wf_length _ Hwf _ Hl). exists (Z.max 0 i). unfold registered. rewrite Hl.
  pose proof (lookup_lt_Some _ _ _ H'). replace (_ && _) with true by (symmetry; lia).
  replace (Z.to_nat (Z.max 0 i)) with (Z.to_nat i) by lia. by rewrite H'.
Qed.

Lemma hoare_return_slot K R user i : (user, i) ∈ K → hoare K R (return_slot pb user) (λ _, True).
Proof.
  intros HK. unfold return_slot. eapply hoare_bind; [by eapply hoare_user_at|]. intros u [Hui Hug] s x s' Hg H.
  step H c s1 H1. destruct (quiet_ask _ _ _ _ H1) as [Hw1 _]. destruct c as [cr|].
  2: { injection H as _ <-. rewrite Hw1. split_and!; [done|apply frame_refl|done]. }
  unfold ask in H1. destruct (user_get_by_id _ _) as [[cr'|]|] eqn:Hcr; [|done|done]. run in H1. injection H1 as -> <-.
  step H c s1 H1. apply user_at_Val in H1 as [Hc ->].
  step H g s1 H1. apply lift_Val in H1 as [Hgc ->]. step H h s1 H1. apply lift_Val in H1 as [Hh ->].
  apply deref_Val in Hgc, Hh. destruct (Z.eqb_spec g h) as [->|].
  2: { injection H as _ <-. split_and!; [done|apply frame_refl|done]. }
  pose proof Hg as (Hwf & _). destruct (get_by_id_Some _ _ _ (proj1 Hwf) Hcr) as [j Hj].
  destruct (registered_heap _ _ _ (proj1 Hwf) Hj) as (c' & Hc' & Hid). simplify_eq.
  eapply (hoare_extend K R (cr, uid c) _ (λ _, True)); [|done| |exact H].
  - hoare_auto.
  - split; [exact Hj|]. exists c. split; [done|]. split; [done|]. simpl. congruence.
Qed.

Lemma hoare_claim_user K R me user i j p : (me, i) ∈ K → (user, j) ∈ K → hoare K R (claim_user pb me user p) (λ _, True).
Proof. intros. unfold claim_user. hoare_auto. Qed.

Lemma hoare_addip_loop K R fuel a i ip : (a, i) ∈ K → hoare K R (addip_loop getipbyname gethostbyaddr fuel a ip) (λ _, True).
Proof.
  intros HK. revert ip. induction fuel as [|fuel IH]; intros ip; cbn [addip_loop]; [hoare_auto|].
  hoare_auto. apply IH.
Qed.

Lemma hoare_delip_loop K R fuel a i ip : (a, i) ∈ K → hoare K R (delip_loop fuel a ip) (λ _, True).
Proof.
  intros HK. revert ip. induction fuel as [|fuel IH]; intros ip; cbn [delip_loop]; [hoare_auto|].
  hoare_auto. all: try apply IH.
Qed.

(** *** The commands *)

Lemma hoare_ret {A} K R (a : A) (Q : A → Prop) : Q a → hoare K R (mret a) Q.
Proof. intros Ha s x s' Hg H. injection H as <- <-. split_and!; [done|apply frame_refl|done]. Qed.

(** The kind of change is never a creation. *)
Definition not_create (r : option (Z * Z)) : Prop :=
  match r with Some (mt, _) => mt ≠ _USER_CREATE | None => True end.

Lemma hoare_stop K R m : quiet m → hoare K R (stop m) not_create.
Proof. intros Hm. eapply hoare_bind; [by apply hoare_quiet|]. intros _ _. by apply hoare_ret. Qed.
Lemma hoare_go K R mt : mt ≠ _USER_CREATE → hoare K R (go mt) not_create.
Proof. intros. by apply hoare_ret. Qed.

Ltac leaf := first [apply hoare_stop; solve [auto with quiet] | apply hoare_go; done | apply hoare_ret; done].

Section setters.
  Context (K R : list (addr * Z)) (a : addr) (i : Z) (value : option (list ascii)) (bit : Z).
  Context (Ha : (a, i) ∈ K) (Hbit : 2 ^ bit ≠ _USER_CREATE).
  Context (get : wzd_user_t → list ascii) (set : wzd_user_t → list ascii → wzd_user_t).
  Context (nget : wzd_user_t → Z) (nset : wzd_user_t → Z → wzd_user_t).
  Context (Hset : ∀ u t, own_user i u → own_user i (set u t)) (Hnset : ∀ u t, own_user i u → own_user i (nset u t)).

Lemma hoare_change_text n : hoare K R (change_text a get set n value bit) not_create.
Proof using Ha Hbit Hset.
  unfold change_text. hoare_auto; [eapply hoare_user_put; [done|by apply Hset]|leaf].
Qed.
Lemma hoare_change_number : hoare K R (change_number a nset value bit) not_create.
Proof using Ha Hbit Hnset.
  unfold change_number. hoare_auto; [eapply hoare_user_upd; [done|]; intros; by apply Hnset|leaf..].
Qed.
Lemma hoare_change_logins g : hoare K R (change_logins g a nget nset value bit) not_create.
Proof using Ha Hbit Hnset.
  unfold change_logins. hoare_auto; [leaf|eapply hoare_user_put; [done|]; by apply Hnset|leaf..].
Qed.
End setters.

Lemma hoare_count_leech K R me i o r : (me, i) ∈ K → hoare K R (count_leech me o r) (λ _, True).
Proof. intros. unfold count_leech. hoare_auto. Qed.

(** A group administrator changes no group, no flags, no creator, no slots. *)
Lemma hoare_change_field K R me user i j field value :
  (me, i) ∈ K → (user, j) ∈ K → hoare K R (change_field pb is_dir true me user field value) not_create.
Proof.
  intros Hme Hu. unfold change_field, change_slots. cbv zeta.
  repeat apply hoare_if.
  all: try leaf.
  all: try (eapply hoare_change_text; [exact Hu|done|]; intros ? ? [? ?]; split; done).
  all: try (eapply hoare_change_number; [exact Hu|done|]; intros ? ? [? ?]; split; done).
  all: try (eapply hoare_change_logins; [exact Hu|done|]; intros ? ? [? ?]; split; done).
  - hoare_auto; [leaf|]. eapply hoare_change_text; [exact Hu|done|]. intros ? ? [? ?]; split; done.
  - hoare_auto; leaf.
  - hoare_auto; leaf.
Qed.

(** *** Whole handlers *)

(** Only the frame: for a command that ends by removing a structure. *)
Definition safe {A} (K R : list (addr * Z)) (m : M A) : Prop :=
  ∀ s x s', good K R (ss_world s) → m s = Val (x, s') → frame (ss_world s) (ss_world s').

Lemma hoare_safe {A} K R (m : M A) Q : hoare K R m Q → safe K R m.
Proof. intros Hm s x s' Hg H. by destruct (Hm _ _ _ Hg H) as (_ & ? & _). Qed.
Lemma quiet_safe {A} K R (m : M A) : quiet m → safe K R m.
Proof. intros. by eapply hoare_safe, hoare_quiet. Qed.
Lemma safe_bind {A B} K R (m : M A) (f : A → M B) P :
  hoare K R m P → (∀ a, P a → safe K R (f a)) → safe K R (m ≫= f).
Proof.
  intros Hm Hf s x s2 Hg (a & s1 & H1 & H2)%M_bind_Val.
  destruct (Hm _ _ _ Hg H1) as (Hg1 & Hf1 & Ha). eapply frame_trans; [done|]. by eapply Hf.
Qed.
Lemma safe_tok {A} K R d (f : option (option (list ascii)) → M A) : (∀ t, safe K R (f t)) → safe K R (tok d ≫= f).
Proof. intros Hf. eapply safe_bind; [apply hoare_quiet, quiet_tok|]. auto. Qed.

(** Whoever is found by name is registered. *)
Lemma safe_found {A} K R name (f : option addr → M A) :
  (∀ a i, safe K ((a, i) :: R) (f (Some a))) → safe K R (f None) → safe K R (getUserByName pb name ≫= f).
Proof.
  intros Hsome Hnone s x s2 Hg (p & s1 & H1 & H2)%M_bind_Val. destruct p as [a|].
  - pose proof Hg as (Hwf & Hown & Hreg).
    destruct (getUserByName_found changepass check_auth name s a s1 Hwf H1) as (-> & i & u & Hi & _ & _).
    eapply (Hsome a i); [|done]. split_and!; [done|done|]. intros p [->|Hp]%elem_of_cons; [done|by apply Hreg].
  - destruct (quiet_getUserByName _ _ _ _ _ H1) as [Hw _]. rewrite <- Hw in *. by eapply Hnone.
Qed.

(** The guard of group administrators: past it, the user is one of the group. *)
Lemma safe_guard {A} K R me i user j (m n : M A) :
  (me, i) ∈ K → (user, j) ∈ R → safe ((user, j) :: K) R m → safe K R n →
  safe K R (may ← gadmin_may true me user; if negb may then n else m).
Proof.
  intros HK HR Hm Hn s x s2 Hg (may & s1 & H1 & H2)%M_bind_Val. destruct may.
  - destruct (gadmin_may_true _ _ _ _ H1) as (m0 & u & g & -> & Hm0 & Hu & Hg0 & Hgu & _).
    eapply Hm; [|exact H2]. apply good_extend; [done|]. destruct Hg as (Hwf & Hown & Hreg).
    destruct (Hown _ HK) as (_ & v & Hv & [_ Hvg]). simpl in *. simplify_eq. specialize (Hreg _ HR). simpl in Hreg.
    split; [done|]. exists u. split; [done|]. destruct (registered_heap _ _ _ (proj1 Hwf) Hreg) as (e & He & Hid).
    simpl in *. simplify_eq. split; [done|congruence].
  - destruct (quiet_gadmin_may _ _ _ _ _ _ H1) as [Hw _]. rewrite <- Hw in *. by eapply Hn.
Qed.

(** A registered structure carries its identifier. *)
Lemma hoare_user_reg K R a i : (a, i) ∈ R → hoare K R (user_at a) (λ u, uid u = i).
Proof.
  intros HR s x s' Hg [Hx ->]%user_at_Val. split_and!; [done|apply frame_refl|].
  destruct Hg as (Hwf & _ & Hreg). destruct (registered_heap _ _ _ (proj1 Hwf) (Hreg _ HR)) as (e & He & Hid).
  simpl in *. by simplify_eq.
Qed.

Lemma safe_last {A B} K R (m : M A) (f : A → M B) : safe K R m → (∀ a, quiet (f a)) → safe K R (m ≫= f).
Proof.
  intros Hm Hf s x s2 Hg (a & s1 & H1 & H2)%M_bind_Val. destruct (Hf a _ _ _ H2) as [-> _]. by eapply Hm.
Qed.

(** Purging removes a member of the group. *)
Lemma safe_purge K R a i mt : (a, i) ∈ K → mt ≠ _USER_CREATE → safe K R (modUser pb i None mt).
Proof.
  intros HK Hmt s x s' (Hwf & Hown & _) H. unfold modUser, on_world in H.
  destruct (mod_user _ _ _ _ _) as [[ret w']|] eqn:Hm; [|done]. run in H. injection H as <- <-. simpl.
  destruct (Hown _ HK) as (Hreg & u & Hu & [Hui Hug]). simpl in *.
  destruct (registered_range _ _ _ Hwf Hreg) as [Hr Hne].
  unfold mod_user in Hm. cbn [backend_mod_user plaintext] in Hm. unfold FCN_MOD_USER in Hm.
  replace (mt =? _USER_CREATE) with false in Hm by (symmetry; lia). unfold user_get_by_id in Hm.
  rewrite get_by_id_registered in Hm by (destruct Hwf as (? & ? & _); unfold GET_USER_LIST, INVALID_USER in *; auto with lia).
  run in Hm. rewrite Hreg in Hm. unfold user_unregister, unregister in Hm.
  replace (i =? INVALID_USER) with false in Hm by (symmetry; lia).
  destruct (r_max _ <? i); [run in Hm; injection Hm as _ <-; by intros ? ?|].
  pose proof Hwf as (Hw1 & Hw2 & _). pose proof Hreg as Hreg'. unfold registered in Hreg'.
  destruct (_ && _) eqn:Hb; [|done]. destruct (r_arr (w_users (ss_world s))) as [l|] eqn:Hl; [|done].
  rewrite (slot_registered _ _ l) in Hm by (done || lia). run in Hm. rewrite Hreg in Hm. run in Hm.
  injection Hm as _ <-. intros a' u' Ha' Hout. cbn. rewrite lookup_delete_ne; [done|]. intros <-. simplify_eq.
Qed.

Lemma hoare_kill_child_new K R pid : hoare K R (kill_child_new pid) (λ _, True).
Proof.
  unfold kill_child_new. eapply hoare_bind; [apply hoare_quiet, quiet_context|]. intros me _.
  apply hoare_if; [by apply hoare_ret|]. intros s x s' Hg H. destruct (set_exit _ _).
  - injection H as _ <-. split_and!; [exact Hg|by intros ? ?|done].
  - injection H as _ <-. split_and!; [done|apply frame_refl|done].
Qed.

Lemma hoare_kick_loop K R uid found l : hoare K R (kick_loop uid found l) (λ _, True).
Proof.
  revert found. induction l as [|c l IH]; intros found; cbn [kick_loop]; [by apply hoare_ret|].
  eapply hoare_bind with (P := λ _, True).
  { apply hoare_if; [|by apply hoare_ret]. eapply hoare_bind; [apply hoare_kill_child_new|]. intros. by apply hoare_ret. }
  intros f _. eapply hoare_bind; [apply hoare_quiet; solve_quiet|]. intros _ _. apply IH.
Qed.

(** *** Sessions of a group administrator *)

Section session_of_gadmin.
  (** The user of the session, its identifier and its structure: an
      administrator of [G], and no site operator. *)
  Context (me : addr) (i : Z) (m : wzd_user_t).
  Hypothesis m_gadmin : has_flag FLAG_GADMIN m = Val true.
  Hypothesis m_siteop : has_flag FLAG_SITEOP m = Val false.
  #[local] Abbreviation K0 := [(me, i)].

Definition session_of (s : session) : Prop :=
  good K0 [] (ss_world s) ∧ r_heap (w_users (ss_world s)) !! me = Some m ∧
  ∃ c, w_contexts (ss_world s) !! ss_ctx s = Some c ∧ c_userid c = i.

Definition confined (h : M unit) : Prop :=
  ∀ s x s', session_of s → h s = Val (x, s') → frame (ss_world s) (ss_world s').

Lemma confined_safe h : safe K0 [] h → confined h.
Proof. intros Hs s x s' (Hg & _) H. by eapply Hs. Qed.
Lemma confined_quiet h : quiet h → confined h.
Proof. intros Hq. by apply confined_safe, quiet_safe. Qed.
Lemma confined_bind {A} (q : M A) f : quiet q → (∀ x, confined (f x)) → confined (q ≫= f).
Proof.
  intros Hq Hf s x s2 Hs (a & s1 & H1 & H2)%M_bind_Val. destruct (Hq _ _ _ H1) as [Hw Hc].
  rewrite <- Hw. eapply Hf; [|done]. unfold session_of. by rewrite Hw, Hc.
Qed.

Lemma session_me s : session_of s → get_me pb s = Val (me, s).
Proof.
  intros ((Hwf & Hown & _) & Hm & c & Hc & Hi). destruct (Hown _ (list_elem_of_here _ _)) as [Hreg _]. simpl in Hreg.
  unfold get_me, mbind, M_bind, my_context. rewrite Hc. run. rewrite Hi.
  rewrite getUserByID_spec by (done || by eapply registered_range). rewrite Hreg. done.
Qed.

Lemma confined_me f : confined (f me) → confined (get_me pb ≫= f).
Proof.
  intros Hf s x s' Hs (a & s1 & H1 & H2)%M_bind_Val. rewrite session_me in H1 by done. injection H1 as <- <-. by eapply Hf.
Qed.
Lemma confined_flag c v f : has_flag c m = Val v → confined (f v) → confined (is_flagged c me ≫= f).
Proof.
  intros Hv Hf s x s' Hs (a & s1 & H1 & H2)%M_bind_Val. apply is_flagged_Val in H1 as (u & Hu & Hfl & ->).
  pose proof Hs as (_ & Hm & _). simplify_eq. rewrite Hv in Hfl. injection Hfl as <-. by eapply Hf.
Qed.
Lemma confined_lift_flag c v f : has_flag c m = Val v → confined (f v) → confined (lift (has_flag c m) ≫= f).
Proof.
  intros Hv Hf s x s' Hs (a & s1 & [H1 ->]%lift_Val & H2)%M_bind_Val. rewrite Hv in H1. injection H1 as <-. by eapply Hf.
Qed.
Lemma confined_user_at f : confined (f m) → confined (user_at me ≫= f).
Proof.
  intros Hf s x s' Hs (a & s1 & [H1 ->]%user_at_Val & H2)%M_bind_Val.
  pose proof Hs as (_ & Hm & _). simplify_eq. by eapply Hf.
Qed.

(** [user = GetUserByID(context->userid)] *)
Lemma confined_self f : confined (f (Some me)) → confined (c ← my_context; getUserByID pb (c_userid c) ≫= f).
Proof.
  intros Hf s x s' Hs (c & s1 & H1 & (p & s2 & H2 & H3)%M_bind_Val)%M_bind_Val.
  pose proof Hs as ((Hwf & Hown & _) & Hm & c' & Hc & Hi). destruct (Hown _ (list_elem_of_here _ _)) as [Hreg _]. simpl in Hreg.
  unfold my_context in H1. rewrite Hc in H1. run in H1. injection H1 as <- <-. rewrite Hi in H2.
  rewrite getUserByID_spec in H2 by (done || by eapply registered_range). injection H2 as <- <-. rewrite Hreg in H3. by eapply Hf.
Qed.

Ltac qsafe := apply quiet_safe; solve [solve_quiet].
Ltac body :=
  repeat (cbv beta iota zeta; lazymatch goal with
    | |- safe _ _ (tok _ ≫= _) => apply safe_tok; intros []; [|qsafe]
    | |- safe _ _ (getUserByName _ _ ≫= _) => apply safe_found; [intros ? ?|qsafe]
    | |- safe _ _ (gadmin_may _ _ _ ≫= _) => eapply safe_guard; [in_K|in_K| |qsafe]
    | |- safe _ _ (lift _ ≫= _) => eapply safe_bind; [apply hoare_quiet; solve [auto with quiet]|intros ? _]
    | |- safe _ _ (my_context ≫= _) => eapply safe_bind; [apply hoare_quiet; solve [auto with quiet]|intros ? _]
    | |- safe _ _ (contexts ≫= _) => eapply safe_bind; [apply hoare_quiet; solve [auto with quiet]|intros ? _]
    | |- safe _ _ (cancel_clients _ _ _ ≫= _) => eapply safe_bind; [apply hoare_quiet; solve [auto with quiet]|intros ? _]
    | |- safe _ _ (if negb ?c then _ else _) => destruct (negb c); [qsafe|]
    | |- safe _ _ (if uid ?c =? ?d then _ else _) => destruct (uid c =? d); [qsafe|]
    | |- safe _ _ (match whole_number ?s with _ => _ end) => destruct (whole_number s); [|qsafe]
    end).
Ltac start := apply confined_me; eapply confined_flag; [exact m_gadmin|]; apply confined_safe.
Ltac hclose := apply (hoare_safe _ _ _ (λ _, True)); hoare_auto.

Lemma deluser_confined : confined (do_site_deluser pb).
Proof using m_gadmin. unfold do_site_deluser. start. body. hclose. eapply hoare_return_slot. in_K. Qed.

Lemma readduser_confined : confined (do_site_readduser pb).
Proof using m_gadmin. unfold do_site_readduser. start. body. hclose. eapply hoare_claim_user; in_K. Qed.

Lemma purgeuser_confined : confined (do_site_purgeuser pb).
Proof using m_gadmin.
  unfold do_site_purgeuser. start. body. eapply safe_bind; [eapply hoare_user_reg; in_K|]. intros u Hu.
  body. apply safe_last; [|intros; auto with quiet].
  cbv beta in Hu. subst. eapply safe_purge; [in_K|discriminate].
Qed.

Lemma addip_confined : confined (do_site_addip pb getipbyname gethostbyaddr).
Proof using m_gadmin. unfold do_site_addip. start. body. hclose. eapply hoare_addip_loop. in_K. Qed.

Lemma delip_confined : confined (do_site_delip pb).
Proof using m_gadmin.
  unfold do_site_delip. start. body. hclose. eapply hoare_delip_loop. in_K.
Qed.

Lemma change_confined : confined (do_site_change pb is_dir).
Proof using m_gadmin.
  unfold do_site_change. start. body. apply (hoare_safe _ _ _ (λ _, True)).
  eapply hoare_bind; [eapply hoare_change_field; in_K|]. intros [[mt oldratio]|] Hmt; [|by apply hoare_ret].
  eapply hoare_bind; [eapply hoare_user_at; in_K|]. intros u Hu.
  eapply hoare_bind; [eapply hoare_modUser; [in_K|by destruct Hu|done]|]. intros ret _.
  hoare_auto. eapply hoare_count_leech. in_K.
Qed.

Lemma chratio_confined : confined (do_site_chratio pb).
Proof using m_gadmin.
  unfold do_site_chratio. start. body. hclose. eapply hoare_count_leech. in_K.
Qed.

Lemma color_confined : confined (do_site_color pb stack).
Proof. unfold do_site_color. apply confined_me, confined_safe. hclose. Qed.

Lemma flags_confined : confined (do_site_flags pb).
Proof using m_gadmin m_siteop.
  unfold do_site_flags. apply confined_bind; [auto with quiet|]. intros t.
  apply confined_bind; [destruct t; solve_quiet|]. intros name. do 2 (apply confined_bind; [auto with quiet|]; intros ?).
  destruct x0 as [user|]; [|apply confined_quiet; auto with quiet]. apply confined_me.
  eapply confined_flag; [exact m_gadmin|]. eapply confined_flag; [exact m_siteop|].
  apply confined_quiet. cbn [negb]. destruct x; solve_quiet.
Qed.

Lemma idle_confined : confined (do_site_idle pb).
Proof using m_siteop.
  unfold do_site_idle. apply confined_self. cbv beta iota. apply confined_bind; [auto with quiet|]. intros line.
  apply confined_user_at. destruct line; [apply confined_quiet; auto with quiet|].
  eapply confined_lift_flag; [exact m_siteop|]. apply confined_quiet. cbn [negb]. auto with quiet.
Qed.

Lemma tagline_confined : confined (do_site_tagline pb).
Proof. unfold do_site_tagline. apply confined_self. cbv beta iota. apply confined_safe. hclose.
Qed.

Lemma kill_confined : confined do_site_kill.
Proof. unfold do_site_kill. apply confined_safe. hclose. apply hoare_kill_child_new. Qed.

Lemma kick_confined : confined (do_site_kick pb).
Proof.
  unfold do_site_kick. apply confined_safe. hclose. apply hoare_kick_loop.
Qed.

Lemma take_confined : confined (do_site_take pb).
Proof using m_gadmin m_siteop.
  unfold do_site_take. apply confined_me. eapply confined_flag; [exact m_gadmin|]. eapply confined_flag; [exact m_siteop|].
  apply confined_quiet. cbn [negb orb]. auto with quiet.
Qed.

Lemma chpass_confined : confined (do_site_chpass pb).
Proof using m_gadmin.
  unfold do_site_chpass. start. body. apply safe_tok; intros [new_pass|]; unfold chpass_to.
  - body. hclose.
  - eapply safe_bind; [apply hoare_quiet; solve [auto with quiet]|]. intros may _. hclose.
Qed.

Lemma su_confined : confined (do_site_su pb).
Proof using m_gadmin m_siteop.
  unfold do_site_su. apply confined_me. eapply confined_flag; [exact m_gadmin|]. apply confined_bind; [auto with quiet|].
  intros [name|]; [|apply confined_quiet; auto with quiet]. apply confined_bind; [unfold find_user_copy; solve_quiet|].
  intros [u|]; [|apply confined_quiet; auto with quiet].
  eapply confined_flag; [exact m_siteop|]. apply confined_quiet. cbn [negb]. auto with quiet.
Qed.

End session_of_gadmin.
End confinement.

(** The commands on users that are confined to the group of the administrator, by
    a test or because they only change the client itself. CHANGEGRP has no such
    test ([changegrp_unchecked]), GIVE adds credits to any user, and ADDUSER makes
    a new one. *)
Inductive confined_cmd :=
  | CDeluser | CReadduser | CPurgeuser | CAddip | CDelip | CColor | CChange | CChratio
  | CFlags | CIdle | CTagline | CKill | CKick | CTake | CSu | CChpass.

Definition run_cmd (b : option wzd_backend_t) (is_dir : list ascii → bool)
    (getipbyname gethostbyaddr : list ascii → option (list ascii)) (stack : list ascii) (c : confined_cmd) : M unit :=
  match c with
  | CDeluser => do_site_deluser b
  | CReadduser => do_site_readduser b
  | CPurgeuser => do_site_purgeuser b
  | CAddip => do_site_addip b getipbyname gethostbyaddr
  | CDelip => do_site_delip b
  | CColor => do_site_color b stack
  | CChange => do_site_change b is_dir
  | CChratio => do_site_chratio b
  | CFlags => do_site_flags b
  | CIdle => do_site_idle b
  | CTagline => do_site_tagline b
  | CKill => do_site_kill
  | CKick => do_site_kick b
  | CTake => do_site_take b
  | CSu => do_site_su b
  | CChpass => do_site_chpass b
  end.


(** ** Running a command *)

Lemma bind_run {A B} (m : M A) (f : A → M B) s a s1 : m s = Val (a, s1) → (m ≫= f) s = f a s1.
Proof. intros H. unfold mbind, M_bind. by rewrite H. Qed.

Lemma run_user_at a u s : r_heap (w_users (ss_world s)) !! a = Some u → user_at a s = Val (u, s).
Proof. intros. by apply user_at_Val. Qed.

Lemma run_user_upd a u f s :
  r_heap (w_users (ss_world s)) !! a = Some u → user_upd a f s = Val (tt, set_world s (put_user (ss_world s) a (f u))).
Proof. intros H. unfold user_upd. by rewrite (bind_run _ _ s u s (run_user_at a u s H)). Qed.

Lemma run_flagged c a u v s :
  r_heap (w_users (ss_world s)) !! a = Some u → has_flag c u = Val v → is_flagged c a s = Val (v, s).
Proof. intros. apply is_flagged_Val. by exists u. Qed.

Lemma has_flag_ok c u fs : flags_ok u fs → c ≠ NUL → has_flag c u = Val (bool_decide (c ∈ fs)).
Proof.
  intros [Hb Hn Hl _ _] Hc. unfold has_flag. rewrite Hb, buf_str_padded by done. run. f_equal.
  by apply strchr_elem.
Qed.

(** The user of the session. *)
Definition session_user (s : session) (me : addr) (m : wzd_user_t) : Prop :=
  world_wf (ss_world s) ∧ r_heap (w_users (ss_world s)) !! me = Some m ∧
  registered (w_users (ss_world s)) (uid m) = Some me ∧
  ∃ c, w_contexts (ss_world s) !! ss_ctx s = Some c ∧ c_userid c = uid m.

Section run_plaintext.
  Context (changepass : list ascii → list ascii → list ascii → nat → Z * list ascii)
    (check_auth : list ascii → list ascii → list ascii → Z).
  #[local] Abbreviation pb := (Some (plaintext changepass check_auth)).

Lemma run_get_me s me m : session_user s me m → get_me pb s = Val (me, s).
Proof.
  intros (Hwf & Hm & Hreg & c & Hc & Hi). unfold get_me, mbind, M_bind, my_context. rewrite Hc. run. rewrite Hi.
  rewrite getUserByID_spec by (done || by eapply registered_range). by rewrite Hreg.
Qed.

(** A change of a registered structure given to the backend: nothing more
    happens, unless it is the password or a speed limit. *)
Lemma mod_user_nothing w a u mt :
  world_wf w → registered (w_users w) (uid u) = Some a → r_heap (w_users w) !! a = Some u →
  mt ≠ _USER_CREATE → Z.testbit mt _USER_USERPASS = false → Z.testbit mt _USER_MAX_ULS = false →
  Z.testbit mt _USER_MAX_DLS = false → mod_user pb (uid u) (Some a) mt w = Val (0, w).
Proof.
  intros Hwf Hreg Hu Hmt Hp Hul Hdl. destruct (registered_range w (uid u) a Hwf Hreg) as [Hr Hne].
  unfold mod_user. cbn [backend_mod_user plaintext]. unfold FCN_MOD_USER.
  replace (mt =? _USER_CREATE) with false by (symmetry; lia). unfold user_get_by_id.
  rewrite get_by_id_registered by (destruct Hwf as (? & ? & _); unfold GET_USER_LIST, INVALID_USER in *; auto with lia).
  run. rewrite Hreg, bool_decide_eq_true_2, Hp by done. run. cbn [negb Z.eqb].
  unfold run_triggers. rewrite Hu. run. rewrite Hul, Hdl. cbn [backend_get_user plaintext].
  replace (with_contexts w (w_contexts w)) with w by (by destruct w).
  rewrite Hu. run. rewrite get_user_by_id_spec by done. run. cbn [as_struct]. run.
  by rewrite Hreg, bool_decide_eq_true_2 by done.
Qed.

Lemma run_modUser s a u id mt :
  id = uid u → world_wf (ss_world s) → registered (w_users (ss_world s)) (uid u) = Some a → r_heap (w_users (ss_world s)) !! a = Some u →
  mt ≠ _USER_CREATE → Z.testbit mt _USER_USERPASS = false → Z.testbit mt _USER_MAX_ULS = false →
  Z.testbit mt _USER_MAX_DLS = false → modUser pb id (Some a) mt s = Val (0, s).
Proof. intros ->. intros. unfold modUser, on_world. rewrite mod_user_nothing by done. run. by destruct s. Qed.

(** Who has a name first. *)
Definition first_named (w : world) (name : list ascii) (a : addr) (u : wzd_user_t) : Prop :=
  name ≠ [] ∧ registered (w_users w) (uid u) = Some a ∧ r_heap (w_users w) !! a = Some u ∧
  cstring (username u) = name ∧ ∀ j, 0 ≤ j < uid u → ¬ named (w_users w) j name.

Lemma run_getUserByName s name a u :
  world_wf (ss_world s) → first_named (ss_world s) name a u → getUserByName pb (Some name) s = Val (Some a, s).
Proof.
  intros Hwf (Hne & Hreg & Hu & Hn & Hfirst). unfold getUserByName, ask.
  destruct (GetUserByName_spec _ world_wf (LookupBackend0:=plaintext_lookup changepass check_auth) (ss_world s) name Hwf Hne) as (p & -> & Hspec).
  run. cbn [as_struct]. run. destruct (registered_range _ _ _ Hwf Hreg) as [Hr _].
  assert (Hnm : named (w_users (ss_world s)) (uid u) name) by (by exists a, u). destruct p as [a'|].
  - destruct Hspec as (i & Hi & Hni & Hfi). destruct (registered_range _ _ _ Hwf Hi) as [Hri _].
    assert (i = uid u) as ->; [|congruence]. destruct (Z.lt_trichotomy i (uid u)) as [?|[?|?]]; [|done|].
    + destruct (Hfirst i); [lia|done].
    + destruct (Hfi (uid u)); [lia|done].
  - by destruct (Hspec (uid u)).
Qed.
End run_plaintext.

(** Rewriting a structure without changing its name or identifier. *)
Lemma put_named w a u u' j n :
  r_heap (w_users w) !! a = Some u → username u' = username u →
  named (w_users (put_user w a u')) j n ↔ named (w_users w) j n.
Proof.
  intros Hu Hn. unfold named. cbn. split; intros (b & e & Hb & He & Hen); exists b.
  - destruct (decide (b = a)) as [->|]; [|rewrite lookup_insert_ne in He by done; by exists e].
    rewrite lookup_insert_eq in He. simplify_eq. exists u. split_and!; [done|done|]. simpl. by rewrite <- Hn.
  - destruct (decide (b = a)) as [->|]; [|exists e; by rewrite lookup_insert_ne].
    simplify_eq. exists u'. rewrite lookup_insert_eq. split_and!; [done|done|]. simpl. by rewrite Hn.
Qed.

Lemma run_tok d s t l : tok_line d (ss_line s) = (t, l) → tok d s = Val (t, set_line s l).
Proof. intros H. unfold tok. by rewrite H. Qed.

Lemma xdigit_nonneg c : 0 ≤ xdigit c.
Proof. revert c. all_chars. Qed.

Lemma digits0_nonneg base acc s : 0 ≤ base → 0 ≤ acc → 0 ≤ (digits0 base acc s).1.
Proof.
  intros Hb. revert acc. induction s as [|c s IH]; intros acc Ha; simpl; [done|].
  destruct (_ <? _); [|done]. apply IH. pose proof (xdigit_nonneg c). nia.
Qed.

(** A number read is one of 64 bits. *)
Lemma whole_number_range s v : whole_number s = Some v → 0 ≤ v ≤ ULLONG_MAX.
Proof.
  unfold whole_number, strtoul0. destruct (match skip_spaces s with [] => _ | _ => _ end) as [neg s2].
  destruct (base_of s2) as [base s3] eqn:Eb.
  assert (0 ≤ base). { revert Eb. unfold base_of. repeat case_match; intros; simplify_eq; lia. }
  destruct s3 as [|c s3]; [case_bool_decide; [intros [= <-]; done|done]|].
  destruct (_ <? _); [|case_bool_decide; [intros [= <-]; done|done]].
  pose proof (digits0_nonneg base 0 (c :: s3) ltac:(done) ltac:(done)) as Hnn.
  destruct (digits0 base 0 (c :: s3)) as [n rest]. case_bool_decide; [|done]. intros [= <-]. simpl in Hnn.
  unfold ULLONG_MAX, ULONG_MAX in *. destruct (Z.ltb_spec (2 ^ 64 - 1) n); [lia|].
  destruct neg; [|lia]. pose proof (u64_range (- n)). lia.
Qed.

(** What [chpass_to] needs of the client and of the user, and what it changes. *)
Definition may_set_password (me user : addr) (m u : wzd_user_t) : Prop :=
  (has_flag FLAG_SITEOP u ⇓ true → user = me) ∧
  (has_flag FLAG_GADMIN m ⇓ true → head (groups u) = head (groups m) ∧ is_Some (head (groups m))) ∧
  (has_flag FLAG_GADMIN m ⇓ false → user = me ∨ has_flag FLAG_SITEOP m ⇓ true).

Lemma registered_once (w : world) me user (m u : wzd_user_t) :
  registered (w_users w) (uid m) = Some me → registered (w_users w) (uid u) = Some user → (uid m =? uid u) = true → user = me.
Proof. intros Hm Hu E. apply Z.eqb_eq in E. rewrite E in Hm. congruence. Qed.

Lemma chpass_to_Val changepass check_auth gadmin s me m user u pass s' :
  session_user s me m → has_flag FLAG_GADMIN m ⇓ gadmin →
  registered (w_users (ss_world s)) (uid u) = Some user → r_heap (w_users (ss_world s)) !! user = Some u →
  chpass_to (Some (plaintext changepass check_auth)) gadmin me user pass s ⇓ (tt, s') →
  r_heap (w_users (ss_world s')) = r_heap (w_users (ss_world s)) ∨
  may_set_password me user m u ∧ ∃ p, r_heap (w_users (ss_world s')) = <[user := set_userpass u p]> (r_heap (w_users (ss_world s))).
Proof.
  intros (Hwf & Hm & Hreg & _) Hgad Hru Hu H. unfold chpass_to in H. step H may s1 H1.
  destruct may; [|left; destruct (quiet_gadmin_may _ _ _ _ _ _ H1) as [<- _]; by destruct (quiet_reply _ _ _ _ _ H) as [-> _]].
  assert (Hg : s1 = s ∧ (gadmin = true → head (groups u) = head (groups m) ∧ is_Some (head (groups m)))).
  { destruct gadmin; [|by injection H1 as <-].
    destruct (gadmin_may_true _ _ _ _ H1) as (m0 & u0 & g & -> & Hm0 & Hu0 & Hg0 & Hgu & _). simplify_eq. split; [done|]. rewrite Hg0, Hgu. done. }
  destruct Hg as [-> Hg]. clear H1. cbn [negb] in H. step H siteop s1 H1. apply is_flagged_Val in H1 as (m' & Hm' & Hso & ->). simplify_eq.
  step H m' s1 H1. apply user_at_Val in H1 as [Hm'' ->]. simplify_eq. step H u' s1 H1. apply user_at_Val in H1 as [Hu' ->]. simplify_eq.
  destruct (negb gadmin && negb siteop && negb (uid m =? uid u)) eqn:Hother; [left; by destruct (quiet_reply _ _ _ _ _ H) as [-> _]|].
  step H op s1 H1. apply lift_Val in H1 as [Hop ->].
  destruct (op && negb (uid m =? uid u)) eqn:Hsite; [left; by destruct (quiet_reply _ _ _ _ _ H) as [-> _]|]. right.
  step H pw s1 H1. apply lift_Val in H1 as [_ ->]. step H f s1 H1. apply lift_Val in H1 as [_ ->].
  step H t s1 H1. injection H1 as _ <-. step H ret s1 H1.
  assert (Hend : ss_world s' = ss_world s1) by (destruct (negb (ret =? 0)); by destruct (quiet_reply _ _ _ _ _ H) as [-> _]).
  unfold modUser, on_world in H1. destruct (mod_user _ _ _ _ _) as [[r w']|] eqn:Hmod; [|done]. run in H1. injection H1 as <- <-.
  cbn [set_world ss_world] in *. rewrite Hend.
  destruct (mod_user_setpass changepass check_auth (put_user (ss_world s) user (set_userpass u f)) user (set_userpass u f) (2 ^ _USER_USERPASS) r w')
    as (_ & p & Hh & _); [by eapply put_user_wf|exact Hru|apply lookup_insert_eq|done|exact Hmod|].
  split; [|exists p; rewrite Hh; apply insert_insert_eq].
  split_and!.
  - intros Hyes. rewrite Hyes in Hop. injection Hop as <-. cbn [andb] in Hsite. apply negb_false_iff in Hsite. by eapply registered_once.
  - intros Hyes. rewrite Hyes in Hgad. injection Hgad as <-. by apply Hg.
  - intros Hno. rewrite Hno in Hgad. injection Hgad as <-. cbn [negb andb] in Hother. destruct siteop; [by right|]. left. cbn [negb andb] in Hother.
    apply negb_false_iff in Hother. by eapply registered_once.
Qed.

(** C16. [SITE CHPASS] leaves the structures of all users as they are, or changes
    the password of one, whom the client may change, and nothing else of any user:
    a site operator is only changed by himself; a group administrator changes the
    users whose first group is his; other clients change themselves unless they
    are site operators. *)
Theorem site_chpass_allowed changepass check_auth s s' me m :
  session_user s me m → do_site_chpass (Some (plaintext changepass check_auth)) s ⇓ (tt, s') →
  r_heap (w_users (ss_world s')) = r_heap (w_users (ss_world s)) ∨
  ∃ a u p, r_heap (w_users (ss_world s)) !! a = Some u ∧ may_set_password me a m u ∧
    r_heap (w_users (ss_world s')) = <[a := set_userpass u p]> (r_heap (w_users (ss_world s))).
Proof.
  intros Hs H. unfold do_site_chpass in H. rewrite (bind_run _ _ s me s) in H by (by eapply run_get_me).
  step H gadmin s1 H1. apply is_flagged_Val in H1 as (m' & Hm' & Hg & ->). pose proof Hs as (Hwf & Hm & Hreg & _).
  rewrite Hm in Hm'. injection Hm' as <-. step H t s1 H1. destruct (quiet_tok _ _ _ _ H1) as [Hw1 Hc1].
  assert (Hs1 : session_user s1 me m) by (unfold session_user; by rewrite Hw1, Hc1). rewrite <- Hw1.
  destruct t as [name|]; [|left; by destruct (quiet_do_site_help _ _ _ _ H) as [-> _]].
  step H t s2 H2. destruct (quiet_tok _ _ _ _ H2) as [Hw2 Hc2].
  assert (Hs2 : session_user s2 me m) by (unfold session_user; by rewrite Hw2, Hc2). rewrite <- Hw2.
  assert (Hto : ∀ user v p, registered (w_users (ss_world s2)) (uid v) = Some user → r_heap (w_users (ss_world s2)) !! user = Some v →
    chpass_to (Some (plaintext changepass check_auth)) gadmin me user p s2 ⇓ (tt, s') →
    r_heap (w_users (ss_world s')) = r_heap (w_users (ss_world s2)) ∨
    ∃ a u p, r_heap (w_users (ss_world s2)) !! a = Some u ∧ may_set_password me a m u ∧
      r_heap (w_users (ss_world s')) = <[a := set_userpass u p]> (r_heap (w_users (ss_world s2)))).
  { intros user v p Hr Hv Hto. destruct (chpass_to_Val _ _ _ _ _ _ _ _ _ _ Hs2 Hg Hr Hv Hto) as [?|(Hmay & q & ?)]; [by left|].
    right. by exists user, v, q. }
  destruct t as [pass|]; [|eapply Hto; [|exact (proj1 (proj2 Hs2))|exact H]; by apply Hs2].
  step H p s3 H3. destruct p as [user|].
  - destruct (getUserByName_found changepass check_auth name s2 user s3 (proj1 Hs2) H3) as (-> & i & v & Hr & Hv & <-). by eapply Hto.
  - left. destruct (quiet_getUserByName _ _ _ _ _ H3) as [<- _]. by destruct (quiet_reply _ _ _ _ _ H) as [-> _].
Qed.

(** [SITE TAKE] cannot be used: it asks for a user who is site operator and
    group administrator at once, which the flags of a user never say; the
    command is refused and nothing changes. *)
Theorem site_take_refused changepass check_auth s me m fs :
  session_user s me m → flags_ok m fs →
  do_site_take (Some (plaintext changepass check_auth)) s ⇓
    (tt, add_event s (Reply 501 (str "You are not authorized to use this command"))).
Proof.
  intros Hs Hf. unfold do_site_take. rewrite (bind_run _ _ s me s) by (by eapply run_get_me).
  pose proof Hs as (_ & Hm & _).
  rewrite (bind_run _ _ s (bool_decide (FLAG_GADMIN ∈ fs)) s) by (eapply run_flagged; [done|by apply has_flag_ok]).
  rewrite (bind_run _ _ s (bool_decide (FLAG_SITEOP ∈ fs)) s) by (eapply run_flagged; [done|by apply has_flag_ok]).
  destruct Hf as [_ _ _ _ Hex]. repeat case_bool_decide; try done. naive_solver.
Qed.

Lemma set_world_id s : set_world s (ss_world s) = s.
Proof. by destruct s. Qed.


(** ** Deleting and restoring *)

(** An administrator and a user of its group, found by name. *)
Definition admin_and_user (s : session) (me : addr) (m : wzd_user_t) (user : addr) (u : wzd_user_t) (name : list ascii)
    (fsm fs : list ascii) : Prop :=
  session_user s me m ∧ first_named (ss_world s) name user u ∧ me ≠ user ∧ flags_ok m fsm ∧ FLAG_GADMIN ∈ fsm ∧
  flags u = padded MAX_FLAGS_NUM fs ∧ nul_free fs ∧ (length fs < MAX_FLAGS_NUM)%nat ∧
  group_num m ≠ 0 ∧ group_num u ≠ 0 ∧ (∃ g, head (groups m) = Some g ∧ head (groups u) = Some g).

Lemma run_same_group s me m user u :
  r_heap (w_users (ss_world s)) !! me = Some m → r_heap (w_users (ss_world s)) !! user = Some u →
  group_num m ≠ 0 → group_num u ≠ 0 → (∃ g, head (groups m) = Some g ∧ head (groups u) = Some g) →
  gadmin_may true me user s = Val (true, s).
Proof.
  intros Hm Hu Hgm Hgu (g & Hg1 & Hg2). unfold gadmin_may, same_group.
  rewrite (bind_run _ _ s m s (run_user_at _ _ s Hm)), (bind_run _ _ s u s (run_user_at _ _ s Hu)).
  rewrite (proj2 (Z.eqb_neq _ _) Hgm), (proj2 (Z.eqb_neq _ _) Hgu), Hg1, Hg2. unfold mbind, M_bind, lift. run.
  unfold mret, M_ret. by rewrite Z.eqb_refl.
Qed.

Section deletion.
  Context (changepass : list ascii → list ascii → list ascii → nat → Z * list ascii)
    (check_auth : list ascii → list ascii → list ascii → Z).
  #[local] Abbreviation pb := (Some (plaintext changepass check_auth)).

Lemma run_my_flag s me m fsm : session_user s me m → flags_ok m fsm → FLAG_GADMIN ∈ fsm →
  is_flagged FLAG_GADMIN me s = Val (true, s).
Proof.
  intros (_ & Hm & _) Hf Hg. eapply run_flagged; [done|]. rewrite (has_flag_ok _ _ fsm) by done. by rewrite bool_decide_eq_true_2.
Qed.

(** Writing a structure of the same identifier and name changes neither who is
    registered nor who has a name. *)
Lemma put_first_named w name a u b v v' :
  first_named w name a u → r_heap (w_users w) !! b = Some v → username v' = username v → uid v' = uid v → b ≠ a →
  first_named (put_user w b v') name a u.
Proof.
  intros (Hne & Hreg & Hu & Hn & Hf) Hv Hname Hid Hba. split_and!; [done|done| |done|].
  - cbn. by rewrite lookup_insert_ne.
  - intros j Hj. rewrite (put_named w b v v') by done. by apply Hf.
Qed.

Lemma put_first_named_self w name a u u' :
  first_named w name a u → username u' = username u → uid u' = uid u → first_named (put_user w a u') name a u'.
Proof.
  intros (Hne & Hreg & Hu & Hn & Hf) Hname Hid. split_and!; [done|by rewrite Hid|apply lookup_insert_eq|by rewrite Hname|].
  intros j Hj. rewrite (put_named w a u u') by done. apply Hf. by rewrite <- Hid.
Qed.

(** Two registered structures, changed one after the other. *)
Definition both (w : world) (user me : addr) (u' m' : wzd_user_t) : world := put_user (put_user w user u') me m'.

Definition two_users (w : world) (user me : addr) (u m : wzd_user_t) : Prop :=
  world_wf w ∧ registered (w_users w) (uid m) = Some me ∧ registered (w_users w) (uid u) = Some user ∧
  r_heap (w_users w) !! me = Some m ∧ r_heap (w_users w) !! user = Some u ∧ me ≠ user.

Lemma two_users_both w user me u m u' m' :
  two_users w user me u m → uid u' = uid u → uid m' = uid m → two_users (both w user me u' m') user me u' m'.
Proof.
  intros (Hwf & Hrm & Hru & Hm & Hu & Hne) Hiu Him. split_and!; [|by rewrite Him|by rewrite Hiu|apply lookup_insert_eq| |done].
  - apply (put_user_wf _ me m); [by apply (put_user_wf _ user u)|cbn; by rewrite lookup_insert_ne|done].
  - cbn. rewrite lookup_insert_ne by done. apply lookup_insert_eq.
Qed.

Lemma both_both w user me u1 m1 u2 m2 : me ≠ user → both (both w user me u1 m1) user me u2 m2 = both w user me u2 m2.
Proof.
  intros Hne. unfold both, put_user, with_users, set_heap. cbn. do 2 f_equal. rewrite (insert_insert_ne _ user me) by done.
  by rewrite insert_insert_eq, insert_insert_eq.
Qed.

Lemma both_id w user me u m : two_users w user me u m → both w user me u m = w.
Proof.
  intros (_ & _ & _ & Hm & Hu & _). unfold both, put_user, with_users, set_heap. cbn.
  rewrite (insert_id _ user u), insert_id by done. by destruct w as [[]].
Qed.

Lemma put_both w user me u m u' : two_users w user me u m → put_user w user u' = both w user me u' m.
Proof.
  intros (_ & _ & _ & Hm & _ & Hne). unfold both, put_user, with_users, set_heap. cbn. do 2 f_equal.
  symmetry. apply insert_id. by rewrite lookup_insert_ne.
Qed.

Lemma run_mod_both s user me u m mt :
  two_users (ss_world s) user me u m → mt ≠ _USER_CREATE → Z.testbit mt _USER_USERPASS = false →
  Z.testbit mt _USER_MAX_ULS = false → Z.testbit mt _USER_MAX_DLS = false →
  modUser pb (uid u) (Some user) mt s = Val (0, s) ∧ modUser pb (uid m) (Some me) mt s = Val (0, s).
Proof. intros (Hwf & Hrm & Hru & Hm & Hu & Hne). intros. split; by eapply run_modUser. Qed.

Lemma return_slot_run s user me u m g :
  two_users (ss_world s) user me u m → creator u = uid m → head (groups m) = Some g → head (groups u) = Some g →
  return_slot pb user s ⇓ (tt, set_world s (both (ss_world s) user me (set_creator u INVALID_USER)
    (set_user_slots m (u16 (user_slots m + 1))))).
Proof.
  intros H2 Hcr Hg1 Hg2. pose proof H2 as (Hwf & Hrm & Hru & Hm & Hu & Hne). unfold return_slot.
  rewrite (bind_run _ _ s u s (run_user_at _ _ s Hu)).
  rewrite (bind_run _ _ s (Some me) s).
  2: { unfold ask, user_get_by_id. rewrite Hcr. destruct (registered_range _ _ _ Hwf Hrm). pose proof Hwf as (? & ? & _).
       rewrite get_by_id_registered by (unfold GET_USER_LIST, INVALID_USER in *; auto with lia). by rewrite Hrm. }
  cbv iota beta. rewrite (bind_run _ _ s m s (run_user_at _ _ s Hm)).
  rewrite (bind_run _ _ s g s) by (unfold lift; by rewrite Hg1). rewrite (bind_run _ _ s g s) by (unfold lift; by rewrite Hg2).
  rewrite Z.eqb_refl, (bind_run _ _ s tt _ (run_user_upd user u _ s Hu)).
  assert (Hm' : r_heap (w_users (put_user (ss_world s) user (set_creator u INVALID_USER))) !! me = Some m) by (cbn; by rewrite lookup_insert_ne).
  rewrite (bind_run _ _ _ tt _ (run_user_upd me m _ (set_world s (put_user (ss_world s) user _)) Hm')).
  set (u' := set_creator u INVALID_USER). set (m' := set_user_slots m _). set (s' := set_world _ _).
  assert (H2' : two_users (ss_world s') user me u' m') by (by apply (two_users_both (ss_world s) user me u m)).
  destruct H2' as (Hwf' & Hrm' & Hru' & Hm2 & Hu2 & _).
  rewrite (bind_run _ _ s' m' s' (run_user_at _ _ s' Hm2)), (bind_run _ _ s' 0 s') by (by eapply run_modUser). cbn [Z.eqb negb].
  rewrite (bind_run _ _ s' tt s') by done. rewrite (bind_run _ _ s' u' s' (run_user_at _ _ s' Hu2)).
  rewrite (bind_run _ _ s' 0 s') by (by eapply run_modUser). done.
Qed.

Lemma claim_user_run s user me u m p :
  two_users (ss_world s) user me u m →
  claim_user pb me user p s ⇓ (tt, set_world s (both (ss_world s) user me (set_creator u (uid m))
    (set_user_slots m (u16 (user_slots m - 1))))).
Proof.
  intros H2. pose proof H2 as (Hwf & Hrm & Hru & Hm & Hu & Hne). unfold claim_user.
  rewrite (bind_run _ _ s m s (run_user_at _ _ s Hm)), (bind_run _ _ s tt _ (run_user_upd user u _ s Hu)).
  assert (Hm' : r_heap (w_users (put_user (ss_world s) user (set_creator u (uid m)))) !! me = Some m) by (cbn; by rewrite lookup_insert_ne).
  rewrite (bind_run _ _ _ tt _ (run_user_upd me m _ (set_world s (put_user (ss_world s) user _)) Hm')).
  set (u' := set_creator u _). set (m' := set_user_slots m _). set (s' := set_world _ _).
  assert (H2' : two_users (ss_world s') user me u' m') by (by apply (two_users_both (ss_world s) user me u m)).
  destruct H2' as (Hwf' & Hrm' & Hru' & Hm2 & Hu2 & _).
  rewrite (bind_run _ _ s' u' s' (run_user_at _ _ s' Hu2)), (bind_run _ _ s' 0 s') by (by eapply run_modUser). cbn [Z.eqb negb].
  rewrite (bind_run _ _ s' tt s') by done. rewrite (bind_run _ _ s' m' s' (run_user_at _ _ s' Hm2)).
  rewrite (bind_run _ _ s' 0 s') by (by eapply run_modUser). done.
Qed.

(** Up to the guard: the user is found, and it is one of the group. *)
Lemma admin_two_users s me m user u name fsm fs :
  admin_and_user s me m user u name fsm fs → two_users (ss_world s) user me u m.
Proof. intros ((Hwf & Hm & Hrm & _) & (_ & Hru & Hu & _) & Hne & _). by split_and!. Qed.

(** Deleting: the flag is added, the slot of the creator is given back. *)
Lemma deluser_run s me m user u name fsm fs l :
  admin_and_user s me m user u name fsm fs → tok_line ws (ss_line s) = (Some (Some name), l) →
  FLAG_DELETED ∉ fs → (length fs + 1 < MAX_FLAGS_NUM)%nat → creator u = uid m →
  do_site_deluser pb s ⇓ (tt, add_event (add_event (set_world (set_line s l)
    (both (ss_world s) user me (set_creator (set_flags u (padded MAX_FLAGS_NUM (fs ++ [FLAG_DELETED]))) INVALID_USER)
      (set_user_slots m (u16 (user_slots m + 1))))) (Reply 200 (str "User deleted"))) Commit).
Proof.
  intros Hau Ht Hd Hlen Hcr. pose proof (admin_two_users _ _ _ _ _ _ _ _ Hau) as H2.
  destruct Hau as (Hs & Hn & Hne & Hfm & Hg & Hfu & Hnf & Hlf & Hgm & Hgu & Hgg).
  pose proof H2 as (Hwf & Hrm & Hru & Hm & Hu & _).
  unfold do_site_deluser. rewrite (bind_run _ _ s me s) by (by eapply run_get_me).
  rewrite (bind_run _ _ s true s) by (by eapply run_my_flag).
  rewrite (bind_run _ _ _ _ _ (run_tok ws s _ _ Ht)). cbv iota beta. set (s1 := set_line s l).
  rewrite (bind_run _ _ _ _ _ (run_getUserByName changepass check_auth s1 name user u Hwf Hn)). cbv iota beta.
  rewrite (bind_run _ _ s1 true s1) by (by eapply run_same_group). cbn [negb]. cbv iota.
  rewrite (bind_run _ _ s1 u s1 (run_user_at _ _ s1 Hu)). rewrite (bind_run _ _ s1 fs s1) by (unfold lift; rewrite Hfu, buf_str_padded by done; done).
  rewrite (strchr_elem fs FLAG_DELETED), bool_decide_eq_false_2 by done. cbv zeta. rewrite (proj2 (Z.leb_gt _ _)) by lia. rewrite Hfu.
  rewrite (bind_run _ _ s1 (padded MAX_FLAGS_NUM (fs ++ [FLAG_DELETED])) s1) by (unfold lift; by rewrite buf_set_padded by lia).
  rewrite (bind_run _ _ s1 (padded MAX_FLAGS_NUM (fs ++ [FLAG_DELETED])) s1).
  2: { unfold lift. rewrite buf_set_padded_nul; [done|rewrite length_app; simpl; lia|rewrite length_app; simpl; lia]. }
  set (u1 := set_flags u _). rewrite (bind_run _ _ s1 tt (set_world s1 (put_user (ss_world s1) user u1))) by done.
  change (ss_world s1) with (ss_world s). rewrite (put_both (ss_world s) user me u m) by done. set (w1 := both _ _ _ _ _).
  assert (H2' : two_users w1 user me u1 m) by (by apply (two_users_both (ss_world s) user me u m)).
  rewrite (bind_run _ _ (set_world s1 w1) 0 (set_world s1 w1)) by (by eapply (run_mod_both (set_world s1 w1) user me u1 m)).
  cbn [Z.eqb negb]. cbv iota. destruct Hgg as (g & Hg1 & Hg2).
  pose proof (return_slot_run (set_world s1 w1) user me u1 m g H2' Hcr Hg1 Hg2) as Hslot.
  cbn [ss_world set_world] in Hslot. unfold w1 in *. rewrite both_both in Hslot by done.
  unfold mbind, M_bind. rewrite Hslot. done.
Qed.

Lemma flag_pos_last c fs : c ∉ fs → flag_pos c (fs ++ [c]) = Some (length fs).
Proof.
  induction fs as [|x fs IH]; intros Hc; simpl; [by rewrite bool_decide_eq_true_2|].
  rewrite bool_decide_eq_false_2 by set_solver. rewrite IH by set_solver. done.
Qed.

(** Restoring: the flag is removed, the administrator pays a slot. *)
Lemma readduser_run s me m user u name fsm fs l :
  admin_and_user s me m user u name fsm (fs ++ [FLAG_DELETED]) → tok_line ws (ss_line s) = (Some (Some name), l) →
  FLAG_DELETED ∉ fs → user_slots m ≠ 0 →
  do_site_readduser pb s ⇓ (tt, add_event (add_event (set_world (set_line s l)
    (both (ss_world s) user me (set_creator (set_flags u (padded MAX_FLAGS_NUM fs)) (uid m))
      (set_user_slots m (u16 (user_slots m - 1))))) (Reply 200 (str "User undeleted"))) Commit).
Proof.
  intros Hau Ht Hd Hslots. pose proof (admin_two_users _ _ _ _ _ _ _ _ Hau) as H2.
  destruct Hau as (Hs & Hn & Hne & Hfm & Hg & Hfu & Hnf & Hlf & Hgm & Hgu & Hgg).
  pose proof H2 as (Hwf & Hrm & Hru & Hm & Hu & _).
  unfold do_site_readduser. rewrite (bind_run _ _ s me s) by (by eapply run_get_me).
  rewrite (bind_run _ _ s true s) by (by eapply run_my_flag).
  rewrite (bind_run _ _ _ _ _ (run_tok ws s _ _ Ht)). cbv iota beta. set (s1 := set_line s l).
  rewrite (bind_run _ _ _ _ _ (run_getUserByName changepass check_auth s1 name user u Hwf Hn)). cbv iota beta.
  rewrite (bind_run _ _ s1 true s1) by (by eapply run_same_group). cbn [negb]. cbv iota.
  rewrite (bind_run _ _ s1 m s1 (run_user_at _ _ s1 Hm)). cbn [andb]. rewrite (proj2 (Z.eqb_neq _ _) Hslots).
  rewrite (bind_run _ _ s1 u s1 (run_user_at _ _ s1 Hu)).
  rewrite (bind_run _ _ s1 (fs ++ [FLAG_DELETED]) s1) by (unfold lift; rewrite Hfu, buf_str_padded by done; done).
  rewrite flag_pos_last by done.
  assert (Hdrop : drop_flag (flags u) (fs ++ [FLAG_DELETED]) (length fs) = Val (padded MAX_FLAGS_NUM fs)).
  { rewrite length_app in Hlf. simpl in Hlf. unfold drop_flag. rewrite drop_ge by (rewrite length_app; simpl; lia). rewrite Hfu.
    unfold padded. rewrite length_app. cbn [length app]. rewrite <- app_assoc. rewrite mem_write_app by done. f_equal. f_equal.
    replace (MAX_FLAGS_NUM - length fs)%nat with (S (MAX_FLAGS_NUM - (length fs + 1))) by lia. done. }
  rewrite (bind_run _ _ s1 (padded MAX_FLAGS_NUM fs) s1) by (unfold lift; by rewrite Hdrop).
  set (u1 := set_flags u _). rewrite (bind_run _ _ s1 tt (set_world s1 (put_user (ss_world s1) user u1))) by done.
  change (ss_world s1) with (ss_world s). rewrite (put_both (ss_world s) user me u m) by done. set (w1 := both _ _ _ _ _).
  assert (H2' : two_users w1 user me u1 m) by (by apply (two_users_both (ss_world s) user me u m)).
  rewrite (bind_run _ _ (set_world s1 w1) 0 (set_world s1 w1)) by (by eapply (run_mod_both (set_world s1 w1) user me u1 m)).
  cbn [Z.eqb negb]. cbv iota.
  pose proof (claim_user_run (set_world s1 w1) user me u1 m "Problem setting creator of target user" H2') as Hcl.
  cbn [ss_world set_world] in Hcl. unfold w1 in *. rewrite both_both in Hcl by done.
  unfold mbind, M_bind. rewrite Hcl. done.
Qed.
End deletion.

(** C34. Deleting a user and restoring it: a group administrator deletes a user
    it has created, the user is then marked and the slot given back; restoring it
    brings the users, the groups and the clients back to what they were. *)
Theorem deluser_readduser_roundtrip changepass check_auth s me m user u name fsm fs l :
  admin_and_user s me m user u name fsm fs → tok_line ws (ss_line s) = (Some (Some name), l) →
  FLAG_DELETED ∉ fs → (length fs + 1 < MAX_FLAGS_NUM)%nat → creator u = uid m → 0 ≤ user_slots m < 65535 →
  ∃ s1 s2 u1 m1, do_site_deluser (Some (plaintext changepass check_auth)) s ⇓ (tt, s1) ∧
    r_heap (w_users (ss_world s1)) !! user = Some u1 ∧ has_flag FLAG_DELETED u1 ⇓ true ∧
    r_heap (w_users (ss_world s1)) !! me = Some m1 ∧ user_slots m1 = user_slots m + 1 ∧
    do_site_readduser (Some (plaintext changepass check_auth)) (set_line s1 (ss_line s)) ⇓ (tt, s2) ∧
    ss_world s2 = ss_world s.
Proof.
  intros Hau Ht Hd Hlen Hcr Hsl. pose proof (admin_two_users _ _ _ _ _ _ _ _ Hau) as H2.
  pose proof (deluser_run changepass check_auth _ _ _ _ _ _ _ _ _ Hau Ht Hd Hlen Hcr) as Hdel.
  destruct Hau as (Hs & Hn & Hne & Hfm & Hg & Hfu & Hnf & Hlf & Hgm & Hgu & Hgg).
  set (fd := fs ++ [FLAG_DELETED]) in *. set (u1 := set_creator (set_flags u (padded MAX_FLAGS_NUM fd)) INVALID_USER) in *.
  set (m1 := set_user_slots m (u16 (user_slots m + 1))) in *. set (w1 := both (ss_world s) user me u1 m1) in *.
  assert (Hu16 : u16 (user_slots m + 1) = user_slots m + 1) by (apply Z.mod_small; lia).
  assert (H2' : two_users w1 user me u1 m1) by (by apply (two_users_both (ss_world s) user me u m)).
  assert (nul_free fd) as Hnfd by (apply nul_free_app; [done|]; apply nul_free_cons; [done|apply nul_free_nil]).
  assert (length fd < MAX_FLAGS_NUM)%nat as Hlfd by (unfold fd; rewrite length_app; simpl; lia).
  set (s1 := add_event _ Commit) in Hdel.
  assert (Hau1 : admin_and_user (set_line s1 (ss_line s)) me m1 user u1 name fsm fd).
  { pose proof H2' as (Hwf1 & Hrm1 & Hru1 & Hm1 & Hu1 & _). destruct Hs as (_ & Hm & _ & c & Hc & Hci). destruct Hn as (Hn1 & Hn2 & Hu & Hn4 & Hn5).
    split_and!; try done.
    - split_and!; [done|done|done|by exists c].
    - split_and!; [done|done|done|done|]. intros j Hj. change (w_users (ss_world (set_line s1 (ss_line s)))) with (w_users w1).
      unfold w1, both. rewrite (put_named _ me m); [|cbn; by rewrite lookup_insert_ne|done]. rewrite (put_named _ user u) by done. by apply Hn5.
    - by destruct Hfm; split. }
  pose proof (readduser_run changepass check_auth _ _ _ _ _ _ _ fs l Hau1 Ht Hd) as Hre.
  assert (user_slots m1 ≠ 0) as Hnz by (cbn; lia). specialize (Hre Hnz).
  exists s1. eexists. exists u1, m1. pose proof H2' as (_ & _ & _ & Hm1 & Hu1 & _). split_and!; [exact Hdel|done| |done|exact Hu16|exact Hre|].
  - unfold has_flag. change (flags u1) with (padded MAX_FLAGS_NUM fd). rewrite buf_str_padded by done. run.
    rewrite strchr_elem by done. f_equal. apply bool_decide_eq_true_2. unfold fd. set_solver.
  - cbn [ss_world set_world add_event set_line]. change (ss_world s1) with w1. unfold w1. rewrite both_both by done.
    rewrite <- (both_id (ss_world s) user me u m H2) at 2. f_equal.
    + unfold u1. destruct u. cbn in *. by subst.
    + unfold m1. rewrite Hu16. cbn. replace (u16 (user_slots m + 1 - 1)) with (user_slots m); [by destruct m|].
      unfold u16. rewrite Z.mod_small; lia.
Qed.

(** ** Purging *)

Section purge.
  Context (changepass : list ascii → list ascii → list ascii → nat → Z * list ascii)
    (check_auth : list ascii → list ascii → list ascii → Z).
  #[local] Abbreviation pb := (Some (plaintext changepass check_auth)).

(** A user is unregistered and its structure released; everybody else stays. *)
Lemma mod_user_remove w i a mt :
  world_wf w → registered (w_users w) i = Some a → mt ≠ _USER_CREATE →
  ∃ w', mod_user pb i None mt w = Val (0, w') ∧ world_wf w' ∧ w_groups w' = w_groups w ∧ w_contexts w' = w_contexts w ∧
    r_max (w_users w') = r_max (w_users w) ∧ r_heap (w_users w') = delete a (r_heap (w_users w)) ∧
    ∀ j, registered (w_users w') j = if decide (j = i) then None else registered (w_users w) j.
Proof.
  intros Hwf Hreg Hmt. destruct (registered_range _ _ _ Hwf Hreg) as [Hr Hne]. pose proof Hwf as (Hw1 & Hw2 & Hw3).
  destruct (r_arr (w_users w)) as [l|] eqn:Hl; [|unfold registered in Hreg; rewrite Hl in Hreg; by destruct (_ && _)].
  assert (Hi : 0 ≤ i ≤ r_max (w_users w)) by (unfold registered in Hreg; destruct (_ && _) eqn:Hb; [lia|done]).
  unfold mod_user. cbn [backend_mod_user plaintext]. unfold FCN_MOD_USER.
  replace (mt =? _USER_CREATE) with false by (symmetry; lia). unfold user_get_by_id.
  rewrite get_by_id_registered by (unfold GET_USER_LIST, INVALID_USER in *; auto with lia). run. rewrite Hreg.
  unfold user_unregister, unregister. replace (i =? INVALID_USER) with false by (symmetry; lia).
  replace (r_max (w_users w) <? i) with false by (symmetry; lia).
  rewrite (slot_registered _ _ l) by done. run. rewrite Hreg. run. cbn [negb Z.eqb].
  set (us := set_slot (w_users w) i None). set (w1 := free_user (with_users w us) a).
  assert (Hc : (if Z.testbit mt _USER_MAX_DLS then
    if Z.testbit mt _USER_MAX_ULS then w_contexts w1 else w_contexts w1 else
    if Z.testbit mt _USER_MAX_ULS then w_contexts w1 else w_contexts w1) = w_contexts w1) by (by destruct (Z.testbit _ _), (Z.testbit _ _)).
  unfold run_triggers. run. cbn [_trigger_user_max_ul _trigger_user_max_dl].
  eexists; split; [done|]. rewrite Hc. replace (with_contexts w1 (w_contexts w1)) with w1 by (by destruct w1).
  assert (Hregs : ∀ j, registered (w_users w1) j = if decide (j = i) then None else registered (w_users w) j).
  { intros j. pose proof (registered_set_slot (w_users w) i None j l) as H. unfold us in *.
    change (registered (w_users w1) j) with (registered (set_slot (w_users w) i None) j). by rewrite H. }
  split_and!; [|done|done|done|done|exact Hregs]. split_and!; [|done|done].
  pose proof (set_slot_None_wf _ i Hw1) as Hset. split; [apply (wf_max _ Hset)|apply (wf_none _ Hset)|apply (wf_length _ Hset)|].
  intros l' k b Hl' Hk. destruct (wf_slot _ Hset l' k b Hl' Hk) as (e & He & Hid). exists e. split; [|done].
  cbn. rewrite lookup_delete_ne; [done|]. intros <-. cbn in He.
  destruct (registered_heap _ _ _ Hw1 Hreg) as (e' & He' & Hid'). simplify_eq.
  cbn in Hl'. rewrite Hl in Hl'. injection Hl' as <-. cbn in Hid. rewrite Hid in Hk.
  apply list_lookup_insert_Some in Hk as [(_ & ? & _)|[Hk _]]; [done|lia].
Qed.

(** Every array of flags is terminated. *)
Definition flags_terminated (w : world) : Prop := ∀ a u, r_heap (w_users w) !! a = Some u → NUL ∈ flags u.

Lemma has_flag_terminated c u : NUL ∈ flags u → has_flag c u = Val (strchr (cstring (flags u)) c).
Proof. intros H. unfold has_flag, buf_str. by rewrite bool_decide_eq_true_2. Qed.

Definition deleted (u : wzd_user_t) : bool := strchr (cstring (flags u)) FLAG_DELETED.

Definition known_id (i : Z) : Prop := i = INVALID_USER ∨ 0 ≤ i < GET_USER_LIST.

Lemma run_getUserByID s i : world_wf (ss_world s) → known_id i →
  ∃ p, getUserByID pb i s = Val (p, s) ∧ ∀ a, p = Some a → registered (w_users (ss_world s)) i = Some a.
Proof.
  intros Hwf [->|Hi]; [by exists None|]. exists (registered (w_users (ss_world s)) i). by rewrite getUserByID_spec.
Qed.

(** The clients of deleted users are cancelled; nothing else happens. *)
Lemma kick_deleted_run l s :
  world_wf (ss_world s) → flags_terminated (ss_world s) → Forall (λ c, known_id (c_userid c)) l →
  ∃ s', kick_deleted pb l s ⇓ (tt, s') ∧ ss_world s' = ss_world s ∧ ss_ctx s' = ss_ctx s ∧ ss_line s' = ss_line s.
Proof.
  intros Hwf Hft Hl. revert s Hwf Hft. induction Hl as [|c l Hc Hl IH]; intros s Hwf Hft; [by exists s|]. cbn [kick_deleted].
  assert (∃ s1, (if c_magic c then
      p ← getUserByID pb (c_userid c);
      match p with None => mret tt | Some a =>
        deleted ← is_flagged FLAG_DELETED a;
        if (deleted : bool) then _ ← kill_child_signal (c_pid c) None; mret tt else mret tt end
     else mret tt) s = Val (tt, s1) ∧ ss_world s1 = ss_world s ∧ ss_ctx s1 = ss_ctx s ∧ ss_line s1 = ss_line s) as (s1 & H1 & Hw & Hx & Hy).
  { destruct (c_magic c); [|by exists s]. destruct (run_getUserByID s (c_userid c) Hwf Hc) as (p & Hp & Hreg).
    rewrite (bind_run _ _ _ _ _ Hp). destruct p as [a|]; [|by exists s].
    destruct (registered_heap _ _ _ (proj1 Hwf) (Hreg a eq_refl)) as (u & Hu & _).
    rewrite (bind_run _ _ _ _ _ (run_flagged FLAG_DELETED a u _ s Hu (has_flag_terminated _ u (Hft a u Hu)))).
    destruct (strchr _ _); [|by exists s]. unfold kill_child_signal, mbind, M_bind, mret, M_ret, emit.
    destruct (existsb _ _); by eexists. }
  destruct (IH s1) as (s' & Hrun & Hw' & Hx' & Hy'); [by rewrite Hw|by rewrite Hw|]. exists s'. split_and!; [|congruence..].
  by rewrite (bind_run _ _ _ _ _ H1).
Qed.

(** What is left of the users when those of [ids] that are deleted are purged. *)
Definition purged (ids : list Z) (w w' : world) : Prop :=
  ∀ j, registered (w_users w') j =
    match registered (w_users w) j with
    | Some a => match r_heap (w_users w) !! a with
                | Some u => if bool_decide (j ∈ ids) && deleted u then None else Some a
                | None => None
                end
    | None => None
    end ∧
    ∀ a, registered (w_users w') j = Some a → r_heap (w_users w') !! a = r_heap (w_users w) !! a.

Lemma purge_deleted_run ids s :
  world_wf (ss_world s) → flags_terminated (ss_world s) → Forall known_id ids →
  ∃ s', purge_deleted pb ids s ⇓ (tt, s') ∧ purged ids (ss_world s) (ss_world s').
Proof.
  intros Hwf Hft Hids. revert s Hwf Hft. induction Hids as [|i ids Hi Hids IH]; intros s Hwf Hft.
  { exists s. split; [done|]. intros j. split; [|done]. destruct (registered _ j) as [a|] eqn:Hj; [|done].
    destruct (registered_heap _ _ _ (proj1 Hwf) Hj) as (u & -> & _). done. }
  cbn [purge_deleted]. destruct (run_getUserByID s i Hwf Hi) as (p & Hp & Hreg). rewrite (bind_run _ _ _ _ _ Hp).
  assert (Hskip : (∀ a u, registered (w_users (ss_world s)) i = Some a → r_heap (w_users (ss_world s)) !! a = Some u → deleted u = false) →
    ∃ s', purge_deleted pb ids s ⇓ (tt, s') ∧ purged (i :: ids) (ss_world s) (ss_world s')).
  { intros Hno. destruct (IH s Hwf Hft) as (s' & Hrun & Hpur). exists s'. split; [done|]. intros j. destruct (Hpur j) as [H1 H2].
    split; [|done]. rewrite H1. destruct (registered (w_users (ss_world s)) j) as [a|] eqn:Hj; [|done].
    destruct (r_heap (w_users (ss_world s)) !! a) as [u|] eqn:Hu; [|done].
    destruct (decide (j = i)) as [->|Hji]; [rewrite (Hno a u Hj Hu), !andb_false_r; done|].
    by rewrite (bool_decide_ext (j ∈ i :: ids) (j ∈ ids)) by set_solver. }
  destruct p as [a|].
  2: { rewrite (bind_run _ _ s tt s) by done. apply Hskip. intros a u Ha. destruct Hi as [->|Hi].
       - by destruct (registered_range _ _ _ Hwf Ha) as [_ []].
       - rewrite getUserByID_spec in Hp by done. injection Hp as Hp. congruence. }
  specialize (Hreg a eq_refl). destruct (registered_heap _ _ _ (proj1 Hwf) Hreg) as (u & Hu & Hid). change (uid u = i) in Hid.
  unfold mbind at 1, M_bind at 1. rewrite (bind_run _ _ s u s (run_user_at _ _ s Hu)).
  rewrite (bind_run _ _ s (deleted u) s) by (unfold lift; rewrite has_flag_terminated by (by eapply Hft); done).
  destruct (deleted u) eqn:Hdel.
  2: { apply Hskip. intros a' u' Ha' Hu'. congruence. }
  destruct (mod_user_remove (ss_world s) i a _USER_ALL Hwf Hreg ltac:(discriminate)) as (w' & Hm & Hwf' & _ & _ & _ & Hh & Hr).
  rewrite Hid, (bind_run _ _ s 0 (set_world s w')) by (unfold modUser, on_world; rewrite Hm; done). cbn [mret M_ret].
  destruct (IH (set_world s w') Hwf') as (s' & Hrun & Hpur).
  { intros b v. cbn [ss_world set_world]. rewrite Hh, lookup_delete_Some. intros [_ ?]. by eapply Hft. }
  exists s'. split; [exact Hrun|]. cbn [ss_world set_world] in Hpur. intros j. destruct (Hpur j) as [H1 H2]. rewrite Hr, Hh in *.
  destruct (decide (j = i)) as [->|Hji].
  - rewrite Hreg, Hu, Hdel, bool_decide_eq_true_2 by set_solver. rewrite H1. done.
  - destruct (registered (w_users (ss_world s)) j) as [b|] eqn:Hj; [|rewrite H1; done].
    assert (b ≠ a) as Hba. { intros ->. destruct (registered_heap _ _ _ (proj1 Hwf) Hj) as (e & He & Hid2). simpl in *. simplify_eq. }
    rewrite lookup_delete_ne in H1 by done. split.
    + rewrite H1. destruct (_ !! b); [|done]. by rewrite (bool_decide_ext (j ∈ i :: ids) (j ∈ ids)) by set_solver.
    + intros b' Hb'. rewrite (H2 b' Hb'). destruct (decide (b' = a)) as [->|]; [|by rewrite lookup_delete_ne].
      exfalso. rewrite H1 in Hb'. destruct (_ !! b); [|done]. by destruct (_ && _); simplify_eq.
Qed.
End purge.

(** C36. The purge of all deleted users: every registered user marked as deleted
    is unregistered, except in the last slot of the registry, and everybody else
    keeps its identifier and its structure. *)
Theorem kick_and_purge_correct changepass check_auth s :
  world_wf (ss_world s) → flags_terminated (ss_world s) →
  Forall (λ c, known_id (c_userid c)) (w_contexts (ss_world s)) →
  ∃ s', _kick_and_purge (Some (plaintext changepass check_auth)) s ⇓ (0, s') ∧
    ∀ j a u, registered (w_users (ss_world s)) j = Some a → r_heap (w_users (ss_world s)) !! a = Some u →
      if deleted u && (j <? r_max (w_users (ss_world s))) then registered (w_users (ss_world s')) j = None
      else registered (w_users (ss_world s')) j = Some a ∧ r_heap (w_users (ss_world s')) !! a = Some u.
Proof.
  intros Hwf Hft Hcs. pose proof Hwf as (Hw1 & Hw2 & _). pose proof (wf_max _ Hw1) as Hmax.
  destruct (r_arr (w_users (ss_world s))) as [l|] eqn:Hl; [|rewrite (wf_none _ Hw1 Hl) in Hw2; lia].
  destruct (list_ids_spec (Z.to_nat (r_max (w_users (ss_world s)))) 0 (w_users (ss_world s)) l) as (ids & Hids & Hin); [done..|lia|].
  unfold _kick_and_purge. rewrite (bind_run _ _ s (GotList ids) s).
  2: { unfold ask. cbn. unfold FCN_GET_USER, user_get_list, get_list. rewrite Z.eqb_refl, Hids. done. }
  cbv iota beta. rewrite (bind_run _ _ s (w_contexts (ss_world s)) s) by done.
  destruct (kick_deleted_run changepass check_auth (w_contexts (ss_world s)) s Hwf Hft Hcs) as (s1 & H1 & Hw & _).
  rewrite (bind_run _ _ _ _ _ H1). destruct (purge_deleted_run changepass check_auth ids s1) as (s2 & H2 & Hp); [by rewrite Hw|by rewrite Hw| |].
  { apply Forall_forall. intros j Hj%Hin. right. unfold GET_USER_LIST, INT_MAX in *. lia. }
  rewrite (bind_run _ _ _ _ _ H2). exists s2. split; [done|]. intros j a u Hj Hu. rewrite Hw in Hp. destruct (Hp j) as [Hr Hh].
  rewrite Hj, Hu in Hr. assert (bool_decide (j ∈ ids) = (j <? r_max (w_users (ss_world s)))) as E.
  { destruct (registered_range _ _ _ Hwf Hj).
    destruct (Z.ltb_spec j (r_max (w_users (ss_world s)))); [apply bool_decide_eq_true_2|apply bool_decide_eq_false_2]; rewrite Hin, Hj; [split; [lia|done]|intros [? _]; lia]. }
  rewrite E, andb_comm in Hr. destruct (_ && _); [done|]. split; [done|]. rewrite (Hh a Hr). done.
Qed.

(** ** A concrete server *)

(** The administrator of group 7, a user it has created, a user of group 9 and
    a deleted one. *)
Definition demo_member (i : Z) (name fl : string) (g cr slots leech credit ratio : Z) : wzd_user_t :=
  let u := demo_user i (str name) in
  let u := set_flags u (padded MAX_FLAGS_NUM (str fl)) in
  let u := set_groups u 1 (g :: replicate 31 0) in
  set_ratio (set_credits (set_leech_slots (set_user_slots (set_creator u cr) slots) leech) credit) ratio.

Definition su_heap : gmap addr wzd_user_t :=
  {[ 1%positive := demo_member 1 "admin" "G" 7 INVALID_USER 2 0 1000 3;
     2%positive := demo_member 2 "bob" "h" 7 1 0 0 100 0;
     3%positive := demo_member 3 "eve" "" 9 INVALID_USER 0 0 500 3;
     4%positive := demo_member 4 "dan" "D" 9 INVALID_USER 0 0 500 3 ]}.

Definition su_users : users :=
  after (user_register (Some 4%positive) 1 (after (user_register (Some 3%positive) 1
    (after (user_register (Some 2%positive) 1 (after (user_register (Some 1%positive) 1 (empty_registry su_heap)))))))).

(** A client at 192.0.2.1, logged in as user [id]. *)
Definition demo_client (id pid : Z) : client :=
  mkClient true id 0 0 pid false
    (mkConn WZD_INET4 [192; 0; 2; 1; 0; 0; 0; 0; 0; 0; 0; 0; 0; 0; 0; 0] None None STATE_COMMAND pid TLS_CLEAR 0 (str "/")).

Definition su_world : world :=
  mkWorld su_users dw_groups [demo_client 1 11; demo_client 3 12; demo_client 4 13] 4 1 0.

Definition su_session (ctx : nat) (line : string) : session := mkSession su_world ctx (str line) [].
Definition su_backend : option wzd_backend_t := Some (plaintext demo_changepass demo_auth).

Lemma after_wf r a :
  reg_wf r → match r_heap r !! a with Some e => 0 <=? uid e | None => false end = true →
  reg_wf (after (user_register (Some a) 1 r)).
Proof.
  intros Hwf H. destruct (r_heap r !! a) as [e|] eqn:He; [|done]. unfold after.
  destruct (user_register (Some a) 1 r) as [[ret r']|] eqn:Hr; [|apply empty_registry_wf].
  apply (reg_step_wf r r'); [|done]. eapply rs_register; [done|by apply Z.leb_le in H|done].
Qed.

Lemma su_world_wf : world_wf su_world.
Proof.
  split_and!; [|by vm_compute|apply demo_world_wf].
  do 4 (apply after_wf; [|by vm_compute]). apply empty_registry_wf.
Qed.

Lemma not_named_check (r : users) j name :
  match registered r j with
  | Some a => match r_heap r !! a with Some e => negb (streq (cstring (username e)) name) | None => true end
  | None => true
  end = true → ¬ named r j name.
Proof.
  intros H (a & e & Ha & He & Hn). rewrite Ha, He in H. change (reg_name e) with (cstring (username e)) in Hn.
  rewrite Hn in H. by rewrite (proj2 (streq_true name name) eq_refl) in H.
Qed.

Definition su_member (a : positive) : wzd_user_t := default user_init_struct (r_heap su_users !! a).

#[local] Opaque su_users su_member.

Lemma su_session_user a ctx line :
  r_heap su_users !! a = Some (su_member a) → registered su_users (uid (su_member a)) = Some a →
  c_userid <$> (w_contexts su_world !! ctx) = Some (uid (su_member a)) → session_user (su_session ctx line) a (su_member a).
Proof.
  intros Ha Hreg Hc. split_and!; [apply su_world_wf|exact Ha|exact Hreg|]. cbn [su_session ss_world ss_ctx].
  destruct (w_contexts su_world !! ctx) as [c|]; [|done]. exists c. by injection Hc.
Qed.

Lemma su_flags a fs :
  flags (su_member a) = padded MAX_FLAGS_NUM fs → nul_free fs → (length fs < MAX_FLAGS_NUM)%nat → NoDup fs →
  ¬ (FLAG_SITEOP ∈ fs ∧ FLAG_GADMIN ∈ fs) → flags_ok (su_member a) fs.
Proof. by split. Qed.

Ltac by_vm := apply (bool_decide_unpack _); vm_compute; reflexivity.


Lemma site_take_refused_witness :
  do_site_take su_backend (su_session 0 "bob 5") ⇓
    (tt, add_event (su_session 0 "bob 5") (Reply 501 (str "You are not authorized to use this command"))).
Proof.
  apply (site_take_refused demo_changepass demo_auth (su_session 0 "bob 5") 1%positive (su_member 1) (str "G")).
  - apply su_session_user; [vm_compute; reflexivity|vm_compute; reflexivity|reflexivity].
  - apply su_flags; [vm_compute; reflexivity|by_vm|vm_compute; lia|by_vm|by_vm].
Defined.

Lemma su_first_named a name :
  str name ≠ [] → r_heap su_users !! a = Some (su_member a) → registered su_users (uid (su_member a)) = Some a →
  cstring (username (su_member a)) = str name →
  forallb (λ j, match registered su_users (Z.of_nat j) with
                | Some a => match r_heap su_users !! a with Some e => negb (streq (cstring (username e)) (str name)) | None => true end
                | None => true
                end) (seq 0 (Z.to_nat (uid (su_member a)))) = true →
  first_named su_world (str name) a (su_member a).
Proof.
  intros Hne Ha Hreg Hn Hall. split_and!; [done|done|done|done|]. intros j Hj. apply not_named_check.
  rewrite forallb_forall in Hall. specialize (Hall (Z.to_nat j)). rewrite Z2Nat.id in Hall by lia. apply Hall, in_seq. lia.
Qed.


Lemma deluser_readduser_roundtrip_witness :
  ∃ s1 s2 u1 m1, do_site_deluser su_backend (su_session 0 "bob") ⇓ (tt, s1) ∧
    r_heap (w_users (ss_world s1)) !! 2%positive = Some u1 ∧ has_flag FLAG_DELETED u1 ⇓ true ∧
    r_heap (w_users (ss_world s1)) !! 1%positive = Some m1 ∧ user_slots m1 = user_slots (su_member 1) + 1 ∧
    do_site_readduser su_backend (set_line s1 (str "bob")) ⇓ (tt, s2) ∧ ss_world s2 = su_world.
Proof.
  apply (deluser_readduser_roundtrip demo_changepass demo_auth (su_session 0 "bob") 1%positive (su_member 1) 2%positive (su_member 2)
    (str "bob") (str "G") (str "h") []).
  - split_and!.
    + apply su_session_user; [vm_compute; reflexivity|vm_compute; reflexivity|reflexivity].
    + apply su_first_named; [done|vm_compute; reflexivity|vm_compute; reflexivity|vm_compute; reflexivity|vm_compute; reflexivity].
    + done.
    + apply su_flags; [vm_compute; reflexivity|by_vm|vm_compute; lia|by_vm|by_vm].
    + by_vm.
    + vm_compute. reflexivity.
    + by_vm.
    + vm_compute. lia.
    + vm_compute. discriminate.
    + vm_compute. discriminate.
    + exists 7. split; vm_compute; reflexivity.
  - reflexivity.
  - by_vm.
  - vm_compute. lia.
  - vm_compute. reflexivity.
  - vm_compute. split; [discriminate|reflexivity].
Defined.

Lemma kick_and_purge_correct_witness :
  ∃ s', _kick_and_purge su_backend (su_session 0 "") ⇓ (0, s') ∧
    ∀ j a u, registered su_users j = Some a → r_heap su_users !! a = Some u →
      if deleted u && (j <? r_max su_users) then registered (w_users (ss_world s')) j = None
      else registered (w_users (ss_world s')) j = Some a ∧ r_heap (w_users (ss_world s')) !! a = Some u.
Proof.
  apply (kick_and_purge_correct demo_changepass demo_auth (su_session 0 "") su_world_wf).
  - intros a u Hu. cbn [su_session ss_world] in Hu.
    assert (H : forallb (λ p, bool_decide (NUL ∈ flags p.2)) (map_to_list (r_heap su_users)) = true) by (vm_compute; reflexivity).
    rewrite forallb_forall in H. apply elem_of_map_to_list, list_elem_of_In in Hu. apply (bool_decide_eq_true_1 _ (H _ Hu)).
  - cbn [su_session ss_world w_contexts su_world]. rewrite !Forall_cons. unfold known_id, GET_USER_LIST. cbn [c_userid demo_client]. split_and!; [lia..|done].
Defined.

(** ** Where the commands go wrong *)

(** What a command does to one user's structure. *)
Definition outcome_at {A} (f : wzd_user_t → A) (a : addr) (r : outcome (unit * session)) : option A :=
  match r with Val (_, s) => f <$> (r_heap (w_users (ss_world s)) !! a) | Crash => None end.

(** The administrator has no leech slot left; 2^32 is not 0 for the test, but it
    is for the field: the ratio is lifted and the slots go round to 65535. *)
Example leech_slots_bypassed :
  let r := do_site_change su_backend (λ _, true) (su_session 0 "admin ratio 4294967296") in
  leech_slots (su_member 1) = 0 ∧ outcome_at u_ratio 1%positive r = Some 0 ∧ outcome_at leech_slots 1%positive r = Some 65535.
Proof. by vm_compute. Qed.

(** A ratio that is 0 already is paid for again: with no slot left the string of
    the ratio is released twice. *)
Example chratio_double_free :
  do_site_chratio su_backend (su_session 0 "bob 0") = Crash.
Proof. by vm_compute. Qed.

(** A group administrator changes the groups of a user of another group. *)
Example changegrp_unchecked :
  has_flag FLAG_GADMIN (su_member 1) = Val true ∧ head (groups (su_member 1)) = Some 7 ∧ take 2 (groups (su_member 3)) = [9; 0] ∧
  outcome_at (λ u, take 2 (groups u)) 3%positive (do_site_changegrp su_backend (su_session 0 "eve staff")) = Some [9; 7].
Proof. by vm_compute. Qed.

(** A name that is taken is accepted: eve, renamed to bob, is no more found. *)
Example rename_to_taken_name :
  match do_site_change su_backend (λ _, true) (su_session 1 "eve name bob") with
  | Val (_, s) => ss_out s = [Reply 200 (str "User field change successful")] ∧
      GetUserIDByName su_backend (Some (str "bob")) (ss_world s) = Val 2 ∧
      GetUserIDByName su_backend (Some (str "eve")) (ss_world s) = Val INVALID_USER
  | Crash => False
  end.
Proof. by vm_compute. Qed.

(** A value that is no number is reported as a success. *)
Example change_not_a_number :
  match do_site_change su_backend (λ _, true) (su_session 0 "bob max_idle soon") with
  | Val (_, s) => ss_out s = [Reply 200 (str "User field change successful")] | Crash => False end.
Proof. by vm_compute. Qed.

(** [SITE KICK] replies once for every connection to the server. *)
Example kick_replies_per_connection :
  match do_site_kick su_backend (su_session 0 "bob") with Val (_, s) => length (ss_out s) = 3%nat | Crash => False end.
Proof. by vm_compute. Qed.

(** *** Passwords *)

Definition passwords (m : outcome (unit * session)) : option (list (list ascii)) :=
  match m with
  | Val (_, s) => Some (map (λ a, from_option (λ u, cstring (userpass u)) [] (r_heap (w_users (ss_world s)) !! a)) [1; 2; 3; 4]%positive)
  | Crash => None
  end.
Lemma site_chpass_allowed_witness :
  match do_site_chpass su_backend (su_session 0 "secret") with
  | Val (_, s') =>
    r_heap (w_users (ss_world s')) = r_heap su_users ∨
    ∃ a u p, r_heap su_users !! a = Some u ∧ may_set_password 1 a (su_member 1) u ∧
      r_heap (w_users (ss_world s')) = <[a := set_userpass u p]> (r_heap su_users)
  | Crash => False
  end.
Proof.
  destruct (do_site_chpass su_backend (su_session 0 "secret")) as [[[] s']|] eqn:E.
  - apply (site_chpass_allowed demo_changepass demo_auth (su_session 0 "secret") s' 1%positive (su_member 1)); [|exact E].
    apply su_session_user; [vm_compute; reflexivity|vm_compute; reflexivity|reflexivity].
  - vm_compute in E. discriminate.
Defined.

Example chpass_own :
  passwords (do_site_chpass su_backend (su_session 0 "secret")) = Some [str "secret"; []; []; []].
Proof. by vm_compute. Qed.

(** A password of [MAX_PASS_LENGTH] characters fills its array, which is then read
    past its end. *)
Example chpass_unterminated :
  passwords (do_site_chpass su_backend (set_line (su_session 0 "") (replicate 48 "p"%char))) = None ∧
  passwords (do_site_chpass su_backend (set_line (su_session 0 "") (replicate 47 "p"%char))) ≠ None.
Proof. by vm_compute. Qed.
