(* ===== verification/SiteGroup.v ===== *)
(** * SiteGroup: the SITE commands on groups (libwzd-core/wzd_site_group.c)

    The handlers, in the monad of [Session], and what they guarantee: group
    administrators change no group (except through [SITE GRPCHANGE], which has
    no guard), deleting a group removes it from the users, flags are added to a
    group. The two commands that print a file ([SITE GINFO], [SITE GSINFO]) are
    not modelled. *)

From S2P Require Import Prelude Inet CList Ip Registry Users Backend Str Session SiteUser SiteUserProps.

(** *** Flags of a group *)

(** [while ( (ptr = strchr(test+1,*test)) )]: the duplicate is overwritten by the
    character before [flags+l], which is removed. *)
Fixpoint simplify_inner (fuel : nat) (buf : list ascii) (t l : Z) : outcome (list ascii * Z) :=
  match fuel with
  | O => Crash
  | S fuel =>
    c ← mem_get buf t;
    s ← buf_str (drop (Z.to_nat t + 1) buf);
    match flag_pos c s with
    | None => Val (buf, l)
    | Some k =>
      x ← mem_get buf (l - 1);
      buf ← buf_set buf (t + 1 + Z.of_nat k) x;
      buf ← buf_set buf (l - 1) NUL;
      simplify_inner fuel buf t (l - 1)
    end
  end.

(** [for (test=flags; (length > 0) && ( *test) ; test++,l--)] *)
Fixpoint simplify_outer (fuel : nat) (buf : list ascii) (t l : Z) : outcome (list ascii) :=
  match fuel with
  | O => Crash
  | S fuel =>
    c ← mem_get buf t;
    if bool_decide (c = NUL) then Val buf else
    '(buf, l) ← simplify_inner (S MAX_FLAGS_NUM) buf t l;
    simplify_outer fuel buf (t + 1) (l - 1)
  end.

Definition _gflags_simplify (buf : list ascii) : outcome (list ascii) :=
  s ← buf_str buf; simplify_outer (S MAX_FLAGS_NUM) buf 0 (Z.of_nat (length s)).

Fixpoint gflags_remove (buf newflags : list ascii) : outcome (list ascii) :=
  match newflags with
  | [] => Val buf
  | c :: newflags =>
    fl ← buf_str buf;
    match flag_pos c fl with
    | None => gflags_remove buf newflags
    | Some i => buf ← drop_flag buf fl i; gflags_remove buf newflags
    end
  end.

(** The result and the flags afterwards. *)
Definition _group_changeflags (buf : list ascii) (newflags : option (list ascii)) : outcome (Z * list ascii) :=
  match newflags with
  | None => Val (-1, buf)
  | Some newflags =>
    match newflags with
    | "+"%char :: rest =>
      fl ← buf_str buf;
      let n := length fl in
      if (MAX_FLAGS_NUM <=? n + length newflags)%nat then Val (-1, buf) else
      buf ← mem_write buf (Z.of_nat n) (take (MAX_FLAGS_NUM - n - 1) (rest ++ [NUL]));
      buf ← _gflags_simplify buf;
      Val (0, buf)
    | "-"%char :: rest => buf ← gflags_remove buf rest; Val (0, buf)
    | _ =>
      buf ← field_strncpy buf newflags (MAX_FLAGS_NUM - 1);
      buf ← _gflags_simplify buf;
      Val (0, buf)
    end
  end.

Section handlers.
  Context (b : option wzd_backend_t) (is_dir : list ascii → bool)
    (getipbyname gethostbyaddr : list ascii → option (list ascii)).

Definition alloc_group (g : wzd_group_t) : M addr := on_world (λ w,
  let a := fresh (dom (r_heap (w_groups w))) in Val (a, put_group w a g)).
Definition group_free (a : addr) : M unit := on_world (λ w, Val (tt, free_group w a)).

Definition do_site_help_grpadd : M unit := reply 501 "site grpadd <group> [<backend>]".

Definition do_site_grpadd : M unit :=
  me ← get_me b;
  gadmin ← is_flagged FLAG_GADMIN me;
  t ← tok ws;
  match t with None => do_site_help_grpadd | Some name =>
  if (gadmin : bool) then reply 501 "Gadmins can't add groups!" else
  c ← my_context;
  r ← ask (group_create b name (Some (c_userid c)));
  match r with
  | inl err =>
    match err with
    | E_PARAM_NULL | E_PARAM_BIG => reply 501 "Invalid name or parameter"
    | E_PARAM_EXIST => reply 501 "A group already exists with this name"
    | _ => reply 501 "Error occured while creating group"
    end
  | inr g =>
    newgroup ← alloc_group g;
    err ← modGroup b 0 (Some newgroup) _GROUP_CREATE;
    if negb (err =? 0) then reply 501 "Could not commit new group to backend";; group_free newgroup
    else reply 200 "Group added"
  end
  end.

Definition do_site_help_grpdel : M unit := reply 501 "site grpdel <group> [<backend>]".

(** [snprintf(buffer,sizeof(buffer),...)] of 256 bytes, sent raw. *)
Definition raw_text (text : list ascii) : M unit := emit (Raw (take 255 text)).

(** One user of the loop of [do_site_grpdel]. *)
Definition leave_group (g : Z) (a : addr) : M unit :=
  u ← user_at a;
  name ← lift (buf_str (username u));
  match name with [] => mret tt | _ =>
  inside ← lift (is_user_in_group (Some u) g);
  if inside =? 0 then mret tt else
  g0 ← lift (deref (head (groups u)));
  (if g0 =? g then raw_text (str "200-WARNING " ++ name ++ str " main group is changed !" ++ [CR; LF]) else mret tt);;
  r ← lift (group_remove_user (Some u) g);
  u' ← lift (deref r.2);
  user_put a u';;
  if group_num u' =? 0 then raw_text (str "200-WARNING " ++ name ++ str " has no group now !" ++ [CR; LF]) else mret tt
  end.

Fixpoint leave_group_all (g : Z) (ids : list Z) : M unit :=
  match ids with
  | [] => mret tt
  | i :: ids =>
    p ← getUserByID b i;
    (match p with None => mret tt | Some a => leave_group g a end);;
    leave_group_all g ids
  end.

Definition _GROUP_ALL : Z := 65535.

Definition do_site_grpdel : M unit :=
  me ← get_me b;
  gadmin ← is_flagged FLAG_GADMIN me;
  t ← tok ws;
  match t with None => do_site_help_grpdel | Some name =>
  g ← ask (GetGroupIDByName b name);
  if g =? INVALID_USER then reply 501 "Group does not exist" else
  if (gadmin : bool) then reply 501 "Gadmin can't delete groups" else
  raw "200-";;
  r ← ask (λ w, match b with
                | Some b' => match backend_get_user b' with
                             | Some get => get GET_USER_LIST w
                             | None => Val (Got None)
                             end
                | None => Val (Got None)
                end);
  match r with
  | Got None => mret tt
  | Got (Some _) => lift Crash
  | GotList l => leave_group_all g l
  end;;
  _ ← modGroup b g None _GROUP_ALL;
  raw "200 Group deleted"
  end.

Definition do_site_help_grpren : M unit := reply 501 "site grpren <groupname> <newgroupname>".

Definition do_site_grpren : M unit :=
  me ← get_me b;
  gadmin ← is_flagged FLAG_GADMIN me;
  t ← tok ws;
  match t with None => do_site_help_grpren | Some name =>
  t ← tok ws;
  match t with None => do_site_help_grpren | Some newname =>
  p ← getGroupByName b name;
  match p with None => reply 501 "Group does not exist" | Some oldgroup =>
  q ← getGroupByName b newname;
  match q with Some _ => reply 501 "New group already exists" | None =>
  if (gadmin : bool) then reply 501 "GAdmins can't do that!" else
  n ← lift (deref newname);
  g ← group_at oldgroup;
  f ← lift (field_strncpy (groupname g) n (HARD_GROUPNAME_LENGTH - 1));
  group_put oldgroup (set_groupname g f);;
  ret ← modGroup b (gid g) (Some oldgroup) (2 ^ _GROUP_GROUPNAME);
  if negb (ret =? 0) then reply 501 "Problem changing value" else reply 200 "Group name changed"
  end end end end.

Definition do_site_help_grpaddip : M unit := reply 501 "site grpaddip <group> <ip>".

Definition do_site_grpaddip : M unit :=
  me ← get_me b;
  gadmin ← is_flagged FLAG_GADMIN me;
  t ← tok ws;
  match t with None => do_site_help_grpaddip | Some name =>
  p ← getGroupByName b name;
  match p with None => reply 501 "Group does not exist" | Some group =>
  if (gadmin : bool) then reply 501 "Gadmins can't do that!" else
  t ← tok ws;
  match t with None => do_site_help_grpaddip | Some ip =>
  g ← group_at group;
  let listed := match g_ip_list g, ip with
                | [], _ => 0
                | l, Some ip => ip_inlist getipbyname gethostbyaddr l ip
                | _ :: _, None => 0
                end in
  if negb (listed =? 0) then reply 501 "IP address is already included in list" else
  ip ← lift (deref ip);
  group_put group (set_g_ip_list g (ip_add_check (g_ip_list g) ip 1).2);;
  _ ← modGroup b (gid g) (Some group) (2 ^ _GROUP_IP);
  reply 200 "Group IP address added"
  end end end.

Definition do_site_help_grpdelip : M unit :=
  raw "501-Usage: site grpdelip <group> <ip>";;
  raw "501  or: site grpdelip <grp> <slot_number> (get it with site gsinfo <group>)".

(** [ul--]: the slots are counted from one, and zero is no slot. *)
Definition group_slot (l : list wzd_ip_list_t) (ul : Z) : option wzd_ip_list_t :=
  let ul := u64 (ul - 1) in if Z.of_nat (length l) <=? ul then None else l !! Z.to_nat ul.

Definition do_site_grpdelip : M unit :=
  me ← get_me b;
  gadmin ← is_flagged FLAG_GADMIN me;
  t ← tok ws;
  match t with None => do_site_help_grpdelip | Some name =>
  p ← getGroupByName b name;
  match p with None => reply 501 "Group does not exist" | Some group =>
  t ← tok ws;
  match t with None => do_site_help_grpdelip | Some ip =>
  if (gadmin : bool) then reply 501 "Gadmins can't do that!" else
  ip ← lift (deref ip);
  g ← group_at group;
  let l := g_ip_list g in
  match whole_number ip with
  | Some ul =>
    match group_slot l ul with
    | None => reply_text 501 (str "IP slot " ++ decimal ul ++ str " not found")
    | Some e =>
      let '(ret, l') := ip_remove l (regexp e) in
      group_put group (set_g_ip_list g l');;
      if negb (ret =? 0) then reply_text 501 (str "error removing IP slot " ++ decimal ul)
      else _ ← modGroup b (gid g) (Some group) (2 ^ _GROUP_IP); reply 200 "Group IP address removed"
    end
  | None =>
    let '(ret, l') := ip_remove l ip in
    group_put group (set_g_ip_list g l');;
    if negb (ret =? 0) then reply_text 501 (str "IP " ++ ip ++ str " not found")
    else _ ← modGroup b (gid g) (Some group) (2 ^ _GROUP_IP); reply 200 "Group IP address removed"
  end
  end end end.

Definition do_site_help_grpratio : M unit := reply 501 "site grpratio <group> <ratio>".

Definition do_site_grpratio : M unit :=
  me ← get_me b;
  gadmin ← is_flagged FLAG_GADMIN me;
  t ← tok ws;
  match t with None => do_site_help_grpratio | Some name =>
  p ← getGroupByName b name;
  match p with None => reply 501 "Group does not exist" | Some group =>
  t ← tok ws;
  match t with None => do_site_help_grpratio | Some str_ratio =>
  s ← lift (deref str_ratio);
  match whole_number s with None => do_site_help_grpratio | Some ul =>
  if (gadmin : bool) then reply 501 "GAdmins can't do that!" else
  g ← group_at group;
  group_put group (set_g_ratio g (u32 ul));;
  ret ← modGroup b (gid g) (Some group) (2 ^ _GROUP_RATIO);
  if negb (ret =? 0) then reply 501 "Problem changing value" else reply 200 "Group ratio changed"
  end end end end.

(** A client that has not logged in has no user: its name is read all the same.
    The test of membership is -1, not 0, for a user without a group. *)
Fixpoint grpkill_loop (mine : list ascii) (g : Z) (found : bool) (l : list client) : M bool :=
  match l with
  | [] => mret found
  | c :: l =>
    found ← (if c_magic c then
               p ← getUserByID b (c_userid c);
               a ← lift (deref p);
               u ← user_at a;
               name ← lift (buf_str (username u));
               if streq mine name then mret found else
               inside ← lift (is_user_in_group (Some u) g);
               if inside =? 0 then mret found else _ ← kill_child_new (c_pid c); mret true
             else mret found);
    grpkill_loop mine g found l
  end.

(** [help] stands for [do_site_help("grpkill",context)], which looks the
    command up in the table of commands. *)
Definition do_site_grpkill (help : M unit) : M unit :=
  me ← get_me b;
  t ← tok ws;
  match t with None => help | Some name =>
  p ← getGroupByName b name;
  match p with None => reply 501 "Group does not exist" | Some group =>
  m ← user_at me;
  mine ← lift (buf_str (username m));
  g ← group_at group;
  l ← contexts;
  found ← grpkill_loop mine (gid g) false l;
  if negb found then reply 501 "No member found!" else reply 200 "KILL signal sent"
  end end.

Definition do_site_help_grpchange : M unit :=
  raw "501-site grpchange <group> <field> <value>";;
  raw "field can be one of:";;
  raw " name        changes the group name";;
  raw " tagline     changes the group tagline";;
  raw " homedir     changes group's default dir";;
  raw " max_idle    changes idle time";;
  raw " perms       changes default group permissions";;
  raw " max_ul      changes maximum upload speed";;
  raw " max_dl      changes maximum download speed";;
  raw " ratio       changes group default ratio";;
  raw " num_logins  changes maximum simultaneous logins allowed";;
  raw "501 site grpchange aborted".

Definition gchange_text (group : addr) (get : wzd_group_t → list ascii) (set : wzd_group_t → list ascii → wzd_group_t)
    (n : nat) (value : option (list ascii)) (bit : Z) : M (option Z) :=
  v ← lift (deref value);
  g ← group_at group;
  f ← lift (field_strncpy (get g) v n);
  group_put group (set g f);; mret (Some (2 ^ bit)).

Definition gchange_number (group : addr) (set : wzd_group_t → Z → wzd_group_t) (value : option (list ascii)) (bit : Z)
    : M (option Z) :=
  v ← lift (deref value);
  match whole_number v with
  | Some ul => group_upd group (λ g, set g ul);; mret (Some (2 ^ bit))
  | None => mret (Some 0)
  end.

(** 255 bytes are written into the name, whatever its length: the field has
    128. *)
Definition gchange_field (me group : addr) (field : list ascii) (value : option (list ascii)) : M (option Z) :=
  let eq name := streq field (str name) in
  if eq "name" then gchange_text group groupname set_groupname 255 value _GROUP_GROUPNAME
  else if eq "tagline" then gchange_text group g_tagline set_g_tagline 255 value _GROUP_TAGLINE
  else if eq "homedir" then
    v ← lift (deref value);
    if negb (is_dir v) then reply 501 "Homedir does not exist";; mret None
    else gchange_text group defaultpath set_defaultpath WZD_MAX_PATH value _GROUP_DEFAULTPATH
  else if eq "max_idle" then gchange_number group (λ g n, set_g_idle g (u32 n)) value _GROUP_IDLE
  else if eq "perms" then gchange_number group set_groupperms value _GROUP_GROUPPERMS
  else if eq "flags" then
    g ← group_at group;
    r ← lift (_group_changeflags (g_flags g) value);
    group_put group (set_g_flags g r.2);;
    if negb (r.1 =? 0) then reply 501 "Error occurred when changing flags";; mret None
    else mret (Some (2 ^ _GROUP_FLAGS))
  else if eq "max_ul" then gchange_number group (λ g n, set_g_max_ul g (u32 n)) value _GROUP_MAX_ULS
  else if eq "max_dl" then gchange_number group (λ g n, set_g_max_dl g (u32 n)) value _GROUP_MAX_DLS
  else if eq "num_logins" then gchange_number group (λ g n, set_g_num_logins g (u16 n)) value _GROUP_NUMLOGINS
  else if eq "ratio" then
    v ← lift (deref value);
    match whole_number v with
    | None => mret (Some 0)
    | Some ul =>
      siteop ← is_flagged FLAG_SITEOP me;
      if negb siteop && (ul =? 0) then reply 501 "Only siteops can do that";; mret None else
      group_upd group (λ g, set_g_ratio g (u32 ul));; mret (Some (2 ^ _GROUP_RATIO))
    end
  else reply 501 "Syntax error, unknown field";; mret None.

Definition do_site_grpchange : M unit :=
  me ← get_me b;
  t ← tok ws;
  match t with None => do_site_help_grpchange | Some name =>
  t ← tok ws;
  match t with None => do_site_help_grpchange | Some field =>
  t ← tok eol;
  match t with None => do_site_help_grpchange | Some value =>
  p ← getGroupByName b name;
  match p with None => reply 501 "Group does not exist" | Some group =>
  field ← lift (deref field);
  r ← gchange_field me group field value;
  match r with None => mret tt | Some mod_type =>
  g ← group_at group;
  ret ← modGroup b (gid g) (Some group) mod_type;
  if negb (ret =? 0) then reply 501 "Problem occured when committing" else reply 200 "Group field change successful"
  end end end end end.

Definition do_site_help_group : M unit :=
  raw "501-site group <action> ...";;
  raw "action can be one of:";;
  raw " info       give group info";;
  raw " add        add a new group";;
  raw " delete     delete a group";;
  raw " rename     rename a group";;
  raw " stat       give group statistic";;
  raw " addip      add an IP for group";;
  raw " delip      delete an IP for group";;
  raw " ratio      set group ratio";;
  raw " kill       kill all group connections";;
  raw " change     change group fields";;
  raw " list       list all existing groups";;
  raw "use site <action> for specific action help";;
  raw "501 site group aborted".

(** [info] and [stat] print a file about the group: parameters. *)
Definition do_site_group (ginfo gsinfo grpkill_help : M unit) : M unit :=
  t ← tok ws;
  match t with None => do_site_help_group | Some cmd =>
  cmd ← lift (deref cmd);
  let eq name := streq (str name) cmd in
  if eq "info" then gsinfo
  else if eq "add" then do_site_grpadd
  else if eq "delete" then do_site_grpdel
  else if eq "rename" then do_site_grpren
  else if eq "stat" then ginfo
  else if eq "addip" then do_site_grpaddip
  else if eq "delip" then do_site_grpdelip
  else if eq "ratio" then do_site_grpratio
  else if eq "kill" then do_site_grpkill grpkill_help
  else if eq "change" then do_site_grpchange
  else reply 501 "site group action invalid"
  end.
End handlers.

(** ** Group administrators and groups *)

Inductive group_cmd := CGrpadd | CGrpdel | CGrpren | CGrpaddip | CGrpdelip | CGrpratio.

Definition run_group_cmd (b : option wzd_backend_t) (getipbyname gethostbyaddr : list ascii → option (list ascii))
    (c : group_cmd) : M unit :=
  match c with
  | CGrpadd => do_site_grpadd b
  | CGrpdel => do_site_grpdel b
  | CGrpren => do_site_grpren b
  | CGrpaddip => do_site_grpaddip b getipbyname gethostbyaddr
  | CGrpdelip => do_site_grpdelip b
  | CGrpratio => do_site_grpratio b
  end.

#[export] Hint Extern 1 (quiet do_site_help_grpadd) => apply quiet_reply : quiet.
#[export] Hint Extern 1 (quiet do_site_help_grpdel) => apply quiet_reply : quiet.
#[export] Hint Extern 1 (quiet do_site_help_grpren) => apply quiet_reply : quiet.
#[export] Hint Extern 1 (quiet do_site_help_grpaddip) => apply quiet_reply : quiet.
#[export] Hint Extern 1 (quiet do_site_help_grpratio) => apply quiet_reply : quiet.
Lemma quiet_help_grpdelip : quiet do_site_help_grpdelip.
Proof. unfold do_site_help_grpdelip. solve_quiet. Qed.
Lemma quiet_getGroupByName b n : quiet (getGroupByName b n).
Proof. apply quiet_ask. Qed.
#[export] Hint Resolve quiet_help_grpdelip quiet_getGroupByName : quiet.

(** A group administrator adds, deletes or renames no group and changes
    neither its addresses nor its ratio: whatever the arguments, such a command
    leaves users, groups and clients alone. *)
Theorem gadmin_changes_no_group changepass check_auth getip gethost cmd s s' me m :
  session_user s me m → has_flag FLAG_GADMIN m ⇓ true →
  run_group_cmd (Some (plaintext changepass check_auth)) getip gethost cmd s ⇓ (tt, s') →
  ss_world s' = ss_world s.
Proof.
  intros Hs Hg Hrun. pose proof Hs as (_ & Hm & _).
  assert (Hstart : ∀ f, (∀ a, quiet (f a true)) →
    (me ← get_me (Some (plaintext changepass check_auth)); g ← is_flagged FLAG_GADMIN me; f me g) s = Val (tt, s') →
    ss_world s' = ss_world s).
  { intros f Hf H. rewrite (bind_run _ _ s me s) in H by (by eapply run_get_me).
    rewrite (bind_run _ _ s true s) in H by (by eapply run_flagged). by destruct (Hf me _ _ _ H). }
  destruct cmd; cbn [run_group_cmd] in Hrun; eapply Hstart; try exact Hrun; intros a; cbn beta iota; solve_quiet.
Qed.

Lemma gadmin_changes_no_group_witness :
  match run_group_cmd su_backend (λ _, None) (λ _, None) CGrpren (su_session 0 "staff crew") with
  | Val (_, s') => ss_world s' = su_world
  | Crash => False
  end.
Proof.
  destruct (run_group_cmd su_backend (λ _, None) (λ _, None) CGrpren (su_session 0 "staff crew")) as [[[] s']|] eqn:E.
  - apply (gadmin_changes_no_group demo_changepass demo_auth (λ _, None) (λ _, None) CGrpren (su_session 0 "staff crew") s' 1%positive (su_member 1)).
    + apply su_session_user; [vm_compute; reflexivity|vm_compute; reflexivity|reflexivity].
    + vm_compute. reflexivity.
    + exact E.
  - vm_compute in E. discriminate.
Defined.

(** ** Where the commands go wrong *)

(** [SITE GRPCHANGE] has no such guard. *)
Example grpchange_by_gadmin :
  match do_site_grpchange su_backend (λ _, true) (su_session 0 "staff max_ul 0") with
  | Val (_, s) => ss_out s = [Reply 200 (str "Group field change successful")] | Crash => False end.
Proof. by vm_compute. Qed.

(** Changing the name of a group writes past the field. *)
Example grpchange_name_overruns :
  do_site_grpchange su_backend (λ _, true) (su_session 0 "staff name x") = Crash.
Proof. by vm_compute. Qed.

(** A client that has not logged in yet: [SITE GRPKILL] reads through a null
    pointer. *)
Example grpkill_unlogged_client :
  let s := su_session 0 "staff" in
  let s := set_world s (with_contexts (ss_world s) (w_contexts (ss_world s) ++ [demo_client INVALID_USER 14])) in
  do_site_grpkill su_backend (mret tt) s = Crash.
Proof. by vm_compute. Qed.

(** A user of no group at all is killed with the members. *)
Example grpkill_without_group :
  let s := su_session 0 "staff" in
  let s := set_world s (put_user (ss_world s) 3%positive (set_groups (su_member 3) 0 (replicate 32 0))) in
  match do_site_grpkill su_backend (mret tt) s with
  | Val (_, s) => c_exit <$> (w_contexts (ss_world s) !! 1%nat) = Some true | Crash => False end.
Proof. by vm_compute. Qed.

(** Removing duplicate flags loses a flag: after the first turn [l] is no more
    the end of the string. *)
Example gflags_simplify_loses_flag :
  (buf ← _gflags_simplify (padded MAX_FLAGS_NUM (str "abcbd")); buf_str buf) ⇓ str "abc".
Proof. by vm_compute. Qed.
