(* ===== verification/Path.v ===== *)
(** * Paths: libwzd-core/wzd_dir.c

    [path_simplify] rewrites a path in place, removing empty, dot and dot-dot
    components; every path a client gives goes through it before it is looked
    up on the disk. Also the splitting of a path into directory and base name. *)

From S2P Require Import Prelude.

Definition SLASH : ascii := "/"%char.

(** ** Splitting *)

(** The position of the last slash at or below [n], and 0 when there is none:
    [while (ptr > file && *ptr != '/') ptr--;]. *)
Fixpoint last_slash (n : nat) (file : list ascii) : nat :=
  match n with
  | O => O
  | S k => if bool_decide (file !! n = Some SLASH) then n else last_slash k file
  end.

Definition path_getdirname (file : list ascii) : list ascii :=
  match last_slash (length file) file with
  | O => if bool_decide (file !! 0%nat = Some SLASH) then [SLASH] else ["."%char]
  | p => take p file
  end.

(** The name that follows the slash found, before the suffix is removed. *)
Definition after_slash (p : nat) (file : list ascii) : list ascii :=
  match p with
  | O => if bool_decide (file !! 0%nat = Some SLASH) && (1 <? length file)%nat then drop 1 file else file
  | _ => drop (S p) file
  end.

Definition path_getbasename (file suffix : list ascii) : list ascii :=
  let basename := after_slash (last_slash (length file) file) file in
  match suffix with
  | [] => basename
  | _ =>
    if (length suffix <=? length basename)%nat
       && streq (drop (length basename - length suffix) basename) suffix
    then take (length basename - length suffix) basename else basename
  end.

(** The position of the [n]-th slash from the end. *)
Fixpoint nth_last_slash (pos : nat) (count n : nat) (file : list ascii) : nat :=
  match pos with
  | O => O
  | S k =>
    if (n <=? count)%nat then pos else
    let count := if bool_decide (file !! pos = Some SLASH) then S count else count in
    if bool_decide (file !! pos = Some SLASH) && (n <=? count)%nat then pos
    else nth_last_slash k count n file
  end.

Definition path_gettrailingname (file : list ascii) (n : nat) : list ascii :=
  after_slash (nth_last_slash (length file) 0 n file) file.

(** ** Simplification in place *)

(** [strncmp(s,p,strlen(p))==0] *)
Definition starts_with (p s : list ascii) : bool := streq (take (length p) s) p.

(** [while (pos2 > 0 && filename[pos2] != '/') pos2--;] *)
Fixpoint back_to_slash (pos2 : nat) (f : list ascii) : nat :=
  match pos2 with
  | O => O
  | S k => if bool_decide (f !! pos2 = Some SLASH) then pos2 else back_to_slash k f
  end.

(** [f] is the array, NUL included. [pos] grows at every pass, so that the
    length of the array is enough fuel; a position past the array is an
    out-of-bounds access. *)
Fixpoint simplify_loop (fuel : nat) (f : list ascii) (pos pos2 : nat) : outcome (list ascii * nat) :=
  match fuel with
  | O => Crash
  | S fuel =>
    c ← deref (f !! pos);
    if bool_decide (c = NUL) then Val (f, pos2) else
    if bool_decide (c = SLASH) then
      let here := cstring (drop pos f) in
      if bool_decide (f !! S pos = Some SLASH) then simplify_loop fuel f (S pos) pos2
      else if starts_with (str "/./") here || streq here (str "/.") then simplify_loop fuel f (S (S pos)) pos2
      else if starts_with (str "/../") here || streq here (str "/..") then
        let pos2 := back_to_slash (if (1 <? pos2)%nat then (pos2 - 1)%nat else pos2) f in
        let pos := (pos + 2)%nat in
        let pos := if bool_decide (f !! pos2 = Some SLASH) then pos else S pos in
        simplify_loop fuel f (S pos) pos2
      else simplify_loop fuel (<[pos2 := SLASH]> f) (S pos) (S pos2)
    else simplify_loop fuel (<[pos2 := c]> f) (S pos) (S pos2)
  end.

(** On the array of a string; the string it holds afterwards. *)
Definition path_simplify (filename : list ascii) : outcome (list ascii) :=
  '(f, pos2) ← simplify_loop (S (length filename)) (filename ++ [NUL]) 0 0;
  let '(f, pos2) := if (pos2 =? 0)%nat then (<[0%nat := SLASH]> f, 1%nat) else (f, pos2) in
  f ← buf_set f (Z.of_nat pos2) NUL;
  buf_str f.

(** ** What simplification means *)

(** The components of an absolute path, in order: the parts between slashes. *)
Fixpoint components (cur s : list ascii) : list (list ascii) :=
  match s with
  | [] => [cur]
  | c :: s => if bool_decide (c = SLASH) then cur :: components [] s else components (cur ++ [c]) s
  end.

(** Resolution, the innermost directory first. *)
Fixpoint resolve (acc : list (list ascii)) (cs : list (list ascii)) : list (list ascii) :=
  match cs with
  | [] => acc
  | c :: cs =>
    if bool_decide (c = []) || bool_decide (c = ["."%char]) then resolve acc cs
    else if bool_decide (c = ["."%char; "."%char]) then resolve (tail acc) cs
    else resolve (c :: acc) cs
  end.

Definition render (acc : list (list ascii)) : list ascii := concat (map (cons SLASH) (rev acc)).

(** A path that ends in a slash keeps one. *)
Definition ends_empty (cs : list (list ascii)) : bool := bool_decide (last cs = Some []).

Definition canonical (cs : list (list ascii)) : list ascii :=
  match resolve [] cs with
  | [] => [SLASH]
  | acc => render acc ++ (if ends_empty cs then [SLASH] else [])
  end.

(** A component: no slash, no NUL. *)
Definition comp_ok (c : list ascii) : Prop := (SLASH ∉ c) ∧ (NUL ∉ c).
(** A component that simplification keeps. *)
Definition kept (c : list ascii) : Prop :=
  comp_ok c ∧ c ≠ [] ∧ c ≠ ["."%char] ∧ c ≠ ["."%char; "."%char].

Definition tail_str (cs : list (list ascii)) : list ascii := concat (map (cons SLASH) cs).

(** ** The loop computes the canonical path *)

Lemma tail_str_shape cs : tail_str cs = [] ∧ cs = [] ∨ ∃ t, tail_str cs = SLASH :: t ∧ cs ≠ [].
Proof. destruct cs as [|c cs]; [by left|right]. eexists. by split. Qed.

Lemma split_unique (c w t u : list ascii) :
  SLASH ∉ c → SLASH ∉ w → (t = [] ∨ ∃ t', t = SLASH :: t') → (u = [] ∨ ∃ u', u = SLASH :: u') →
  c ++ t = w ++ u → c = w.
Proof.
  revert w. induction c as [|x c IH]; intros [|y w] Hc Hw Ht Hu Heq; simpl in Heq; try done.
  - destruct Ht as [->|(t' & ->)]; [done|]. injection Heq as <- _. set_solver.
  - destruct Hu as [->|(u' & ->)]; [done|]. injection Heq as -> _. set_solver.
  - injection Heq as -> Heq. f_equal. apply (IH w); [set_solver..|done|done|done].
Qed.

Lemma starts_with_true p s : starts_with p s = true ↔ ∃ k, s = p ++ k.
Proof.
  unfold starts_with. rewrite streq_true. split.
  - intros H. exists (drop (length p) s). rewrite <- H at 1. by rewrite take_drop.
  - intros [k ->]. by rewrite take_app_length.
Qed.

(** The two tests of the loop for a component [w]. *)
Lemma component_test w c cs :
  SLASH ∉ c → SLASH ∉ w →
  starts_with (SLASH :: w ++ [SLASH]) (SLASH :: c ++ tail_str cs) || streq (SLASH :: c ++ tail_str cs) (SLASH :: w)
  = bool_decide (c = w).
Proof.
  intros Hc Hw. apply eq_true_iff_eq. rewrite orb_true_iff, starts_with_true, streq_true, bool_decide_eq_true.
  assert (Ht : tail_str cs = [] ∨ ∃ t', tail_str cs = SLASH :: t').
  { destruct (tail_str_shape cs) as [[-> _]|(t & -> & _)]; eauto. }
  split.
  - intros [[k Hk]|Hk].
    + injection Hk as Hk. rewrite <- app_assoc in Hk. apply (split_unique c w (tail_str cs) (SLASH :: k)); eauto.
    + injection Hk as Hk. apply (split_unique c w (tail_str cs) []); [eauto..|by rewrite app_nil_r].
  - intros ->. destruct Ht as [->|(t' & ->)]; [right; by rewrite app_nil_r|left].
    exists t'. simpl. by rewrite <- app_assoc.
Qed.

Lemma tail_str_nul cs : Forall comp_ok cs → nul_free (tail_str cs).
Proof.
  unfold nul_free, tail_str. induction 1 as [|c cs [_ Hc] _ IH]; simpl; [set_solver|].
  rewrite elem_of_cons, elem_of_app. intros [?|[?|?]]; done.
Qed.

Lemma insert_take_S (f : list ascii) p c : (p < length f)%nat → take (S p) (<[p := c]> f) = take p f ++ [c].
Proof.
  intros Hp. rewrite (take_S_r _ _ c) by (by apply list_lookup_insert_eq). by rewrite take_insert_ge by lia.
Qed.

Lemma drop_S_eq (f : list ascii) p c r : drop p f = c :: r → f !! p = Some c ∧ drop (S p) f = r ∧ (p < length f)%nat.
Proof.
  intros H. assert (Hp : f !! p = Some c) by (rewrite <- (Nat.add_0_r p), <- lookup_drop, H; done).
  split; [done|]. split; [|by eapply lookup_lt_Some].
  rewrite (drop_S f c p Hp) in H. by injection H.
Qed.

(** Copying the characters of one component. *)
Lemma copy_component c r fuel f pos pos2 :
  comp_ok c → drop pos f = c ++ r → (pos2 ≤ pos)%nat →
  ∃ f', simplify_loop (length c + fuel) f pos pos2 = simplify_loop fuel f' (pos + length c) (pos2 + length c) ∧
    length f' = length f ∧ drop (pos + length c) f' = r ∧ take (pos2 + length c) f' = take pos2 f ++ c ∧
    ((0 < pos2)%nat → f' !! 0%nat = f !! 0%nat).
Proof.
  revert f pos pos2. induction c as [|x c IH]; intros f pos pos2 [Hs Hn] Hd Hle.
  { exists f. simpl. rewrite !Nat.add_0_r, app_nil_r. done. }
  simpl in Hd. apply drop_S_eq in Hd as (Hx & Hd & Hlt). cbn [length Nat.add simplify_loop].
  rewrite Hx. run.
  rewrite (bool_decide_eq_false_2 (x = NUL)) by set_solver. rewrite (bool_decide_eq_false_2 (x = SLASH)) by set_solver.
  destruct (IH (<[pos2 := x]> f) (S pos) (S pos2)) as (f' & -> & Hl & Hdr & Htk & H0).
  - split; set_solver.
  - by rewrite drop_insert_lt by lia.
  - lia.
  - exists f'. rewrite length_insert in Hl.
    replace (pos + S (length c))%nat with (S pos + length c)%nat by lia.
    replace (pos2 + S (length c))%nat with (S pos2 + length c)%nat by lia.
    split_and!; [done..| |].
    + rewrite Htk, insert_take_S by lia. by rewrite <- app_assoc.
    + intros Hp. rewrite H0 by lia. by rewrite list_lookup_insert_ne by lia.
Qed.

Lemma render_cons a acc : render (a :: acc) = render acc ++ SLASH :: a.
Proof. unfold render. simpl. rewrite map_app, concat_app. simpl. by rewrite app_nil_r. Qed.

Lemma back_spec (r a : list ascii) f :
  take (length r + S (length a)) f = r ++ SLASH :: a → SLASH ∉ a →
  back_to_slash (length r + length a) f = length r ∧ f !! length r = Some SLASH.
Proof.
  intros Ht Ha. assert (Hlk : ∀ i, (i < length r + S (length a))%nat → f !! i = (r ++ SLASH :: a) !! i).
  { intros i Hi. by rewrite <- Ht, lookup_take_lt. }
  assert (H0 : f !! length r = Some SLASH) by (rewrite Hlk by lia; by rewrite lookup_app_r, Nat.sub_diag by lia).
  split; [|done]. assert (Hgen : ∀ k, (k ≤ length a)%nat → back_to_slash (length r + k) f = length r); [|by apply Hgen].
  induction k as [|k IH]; intros Hk.
  - rewrite Nat.add_0_r. destruct (length r) as [|n] eqn:E; [done|]. cbn [back_to_slash].
    by rewrite bool_decide_eq_true_2 by done.
  - rewrite Nat.add_succ_r. cbn [back_to_slash]. rewrite bool_decide_eq_false_2; [apply IH; lia|].
    rewrite Hlk by lia. rewrite lookup_app_r by lia. replace (S (length r + k) - length r)%nat with (S k) by lia.
    cbn [lookup list_lookup]. intros Hin. apply Ha. by eapply list_elem_of_lookup_2.
Qed.

(** The state at a slash of the input: what is left to read, what is written. *)
Record simp_state (f : list ascii) (pos pos2 : nat) (acc cs : list (list ascii)) : Prop := {
  ss_cs : Forall comp_ok cs;
  ss_acc : Forall kept acc;
  ss_rest : drop pos f = tail_str cs ++ [NUL];
  ss_out : take pos2 f = render acc;
  ss_pos2 : pos2 = length (render acc);
  ss_le : (pos2 ≤ pos)%nat;
  ss_first : f !! 0%nat = Some SLASH }.

Definition simp_result (n : nat) (acc cs : list (list ascii)) (m : outcome (list ascii * nat)) : Prop :=
  ∃ f' p', m = Val (f', p') ∧ length f' = n ∧ (p' < n)%nat ∧
    take p' f' = render (resolve acc cs) ++ (if ends_empty cs then [SLASH] else []).

Lemma ends_empty_cons c cs : cs ≠ [] → ends_empty (c :: cs) = ends_empty cs.
Proof. by destruct cs. Qed.

(** Going up one directory. *)
Lemma simp_back f pos pos2 acc cs :
  simp_state f pos pos2 acc cs →
  let p := back_to_slash (if (1 <? pos2)%nat then (pos2 - 1)%nat else pos2) f in
  f !! p = Some SLASH ∧ take p f = render (tail acc) ∧ p = length (render (tail acc)) ∧ (p ≤ pos2)%nat.
Proof.
  intros [_ Hacc _ Hout Hp2 _ H0]. destruct acc as [|a acc].
  { simpl in Hp2. subst pos2. simpl. done. }
  apply Forall_cons in Hacc as [([Hs _] & Hne & _) _]. rewrite render_cons in Hout, Hp2.
  rewrite length_app in Hp2. cbn [length tail] in *. assert (1 ≤ length a)%nat by (destruct a; simpl; [done|lia]).
  replace (1 <? pos2)%nat with true by (symmetry; apply Nat.ltb_lt; lia).
  rewrite Hp2 in Hout. destruct (back_spec (render acc) a f Hout Hs) as [Hb Hsl].
  replace (pos2 - 1)%nat with (length (render acc) + length a)%nat by lia. cbv zeta. rewrite Hb.
  split_and!; [done| |done|lia].
  replace (take (length (render acc)) f) with (take (length (render acc)) (take (length (render acc) + S (length a)) f))
    by (rewrite take_take; f_equal; lia).
  by rewrite Hout, take_app_length.
Qed.

(** One component that is kept. *)
Lemma simp_keep fuel f pos pos2 acc c cs :
  simp_state f pos pos2 acc (c :: cs) → kept c →
  ∃ f', simplify_loop (S (length c) + fuel) f pos pos2
      = simplify_loop fuel f' (pos + S (length c)) (pos2 + S (length c)) ∧
    length f' = length f ∧ simp_state f' (pos + S (length c)) (pos2 + S (length c)) (c :: acc) cs.
Proof.
  intros [Hcs Hacc Hrest Hout Hp2 Hle H0] Hk. pose proof Hk as ([Hs Hn] & Hne & Hd1 & Hd2).
  apply Forall_cons in Hcs as [Hc Hcs]. pose proof (tail_str_nul (c :: cs)) as Hnf.
  change (tail_str (c :: cs)) with (SLASH :: c ++ tail_str cs) in *.
  specialize (Hnf ltac:(by constructor)).
  pose proof Hrest as Hrest'. cbn [app] in Hrest. rewrite <- app_assoc in Hrest.
  apply drop_S_eq in Hrest as (Hpos & Hdrop & Hlt). cbn [Nat.add simplify_loop].
  rewrite Hpos. run. rewrite (bool_decide_eq_false_2 (SLASH = NUL)) by done.
  rewrite bool_decide_eq_true_2 by done. rewrite Hrest', cstring_app_nul by done.
  rewrite bool_decide_eq_false_2; cycle 1.
  { rewrite <- (Nat.add_0_r (S pos)), <- lookup_drop, Hdrop. destruct c as [|x c]; [done|]. simpl. intros [= ->]. set_solver. }
  rewrite (component_test ["."%char]), (component_test ["."%char; "."%char]) by (done || set_solver).
  rewrite !bool_decide_eq_false_2 by done.
  destruct (copy_component c (tail_str cs ++ [NUL]) fuel (<[pos2 := SLASH]> f) (S pos) (S pos2))
    as (f' & -> & Hl & Hdr & Htk & Hf0); [done|by rewrite drop_insert_lt by lia|lia|].
  exists f'. rewrite length_insert in Hl.
  replace (pos + S (length c))%nat with (S pos + length c)%nat by lia.
  replace (pos2 + S (length c))%nat with (S pos2 + length c)%nat by lia.
  split_and!; [done..|]. split; [done|by constructor|done| | |lia|].
  - rewrite Htk, insert_take_S, Hout, render_cons by lia. by rewrite <- app_assoc.
  - rewrite render_cons, length_app, <- Hp2. simpl. lia.
  - rewrite Hf0 by lia. destruct pos2; [by rewrite list_lookup_insert_eq by lia|by rewrite list_lookup_insert_ne by lia].
Qed.

Lemma simplify_spec cs : ∀ fuel f pos pos2 acc,
  simp_state f pos pos2 acc cs → (length f ≤ fuel + pos)%nat →
  simp_result (length f) acc cs (simplify_loop fuel f pos pos2).
Proof.
  induction cs as [|c cs IH]; intros fuel f pos pos2 acc Hst Hf; pose proof Hst as [Hcs Hacc Hrest Hout Hp2 Hle H0].
  { cbn [tail_str map concat app] in Hrest. apply drop_S_eq in Hrest as (Hpos & _ & Hlt).
    destruct fuel as [|fuel]; [lia|]. exists f, pos2. cbn [simplify_loop]. rewrite Hpos. run.
    rewrite bool_decide_eq_true_2 by done. split_and!; [done..|lia|]. by rewrite Hout, app_nil_r. }
  apply Forall_cons in Hcs as [Hc Hcs]. pose proof (tail_str_nul (c :: cs) ltac:(by constructor)) as Hnf.
  change (tail_str (c :: cs)) with (SLASH :: c ++ tail_str cs) in *.
  pose proof Hrest as Hrest'. cbn [app] in Hrest. rewrite <- app_assoc in Hrest.
  apply drop_S_eq in Hrest as (Hpos & Hdrop & Hlt). destruct fuel as [|fuel]; [lia|].
  destruct (decide (kept c)) as [Hk|Hk].
  - destruct (simp_keep (fuel - length c) f pos pos2 acc c cs Hst Hk) as (f' & Hloop & Hl & Hst').
    assert (length c ≤ fuel)%nat.
    { apply (f_equal length) in Hdrop. rewrite length_drop, !length_app in Hdrop. simpl in Hdrop. lia. }
    replace (S (length c) + (fuel - length c))%nat with (S fuel) in Hloop by lia. rewrite Hloop.
    destruct (IH (fuel - length c)%nat f' _ _ (c :: acc) Hst') as (g & p & Hg & Hlg & Hp & Ht); [lia|].
    exists g, p. rewrite Hl in *. split_and!; [done..|]. rewrite Ht. cbn [resolve].
    destruct Hk as (_ & Hne & Hd1 & Hd2). rewrite !bool_decide_eq_false_2 by done. cbn [orb].
    destruct cs as [|c' cs]; [|by rewrite (ends_empty_cons c)]. f_equal. unfold ends_empty. simpl.
    rewrite bool_decide_eq_false_2; [done|congruence].
  - pose proof Hc as [Hs Hn]. cbn [simplify_loop]. rewrite Hpos. run.
    rewrite (bool_decide_eq_false_2 (SLASH = NUL)) by done. rewrite (bool_decide_eq_true_2 (SLASH = SLASH)) by done.
    rewrite Hrest', cstring_app_nul by done.
    rewrite (component_test ["."%char]), (component_test ["."%char; "."%char]) by (done || set_solver).
    assert (Hnext : f !! S pos = (c ++ tail_str cs ++ [NUL]) !! 0%nat)
      by (by rewrite <- Hdrop, lookup_drop, Nat.add_0_r).
    destruct (decide (c = [])) as [->|Hne]; [|destruct (decide (c = ["."%char])) as [->|Hd1]].
    + destruct (tail_str_shape cs) as [[Hts ->]|(t & Hts & Hne)]; rewrite Hnext, Hts; cbn [app lookup list_lookup].
      * rewrite bool_decide_eq_false_2 by done. rewrite !bool_decide_eq_false_2 by done.
        rewrite Hts in Hdrop. cbn [app] in Hdrop. apply drop_S_eq in Hdrop as (Hpos' & _ & Hlt').
        destruct fuel as [|fuel]; [lia|]. cbn [simplify_loop]. rewrite (list_lookup_insert_ne f pos2 (S pos)) by lia.
        rewrite Hpos'. run. rewrite bool_decide_eq_true_2 by done.
        eexists _, _. split_and!; [done|by rewrite length_insert|lia|].
        rewrite insert_take_S by lia. by rewrite Hout.
      * rewrite bool_decide_eq_true_2 by done.
        destruct (IH fuel f (S pos) pos2 acc) as (g & p & -> & ? & ? & Ht); [|lia|].
        { split; [done..| |done|done|lia|done]. by rewrite Hdrop. }
        exists g, p. split_and!; [done..|]. rewrite Ht, ends_empty_cons by done. done.
    + rewrite bool_decide_eq_false_2 by (rewrite Hnext; done). rewrite bool_decide_eq_true_2 by done.
      cbn [app] in Hdrop. apply drop_S_eq in Hdrop as (_ & Hdrop & _).
      destruct (IH fuel f (S (S pos)) pos2 acc) as (g & p & -> & ? & ? & Ht); [by split; auto with lia|lia|].
      exists g, p. split_and!; [done..|]. rewrite Ht. cbn [resolve]. rewrite (bool_decide_eq_true_2 (["."%char] = ["."%char])) by done.
      rewrite orb_true_r. destruct cs; [done|by rewrite (ends_empty_cons ["."%char])].
    + assert (c = ["."%char; "."%char]) as ->.
      { destruct (decide (c = ["."%char; "."%char])); [done|]. exfalso. by apply Hk. }
      rewrite bool_decide_eq_false_2 by (rewrite Hnext; done). rewrite bool_decide_eq_false_2 by done.
      rewrite bool_decide_eq_true_2 by done. destruct (simp_back f pos pos2 acc _ Hst) as (Hsl & Htk & Hlen & Hle').
      set (p := back_to_slash _ f) in *. rewrite bool_decide_eq_true_2 by done.
      cbn [app] in Hdrop. apply drop_S_eq in Hdrop as (_ & Hdrop & _). apply drop_S_eq in Hdrop as (_ & Hdrop & _).
      destruct (IH fuel f (S (pos + 2)) p (tail acc)) as (g & q & -> & ? & ? & Ht); [|lia|].
      { split; [done|by destruct Hacc|by replace (S (pos + 2)) with (S (S (S pos))) by lia|done..|lia|done]. }
      exists g, q. split_and!; [done..|]. rewrite Ht. cbn [resolve].
      rewrite !bool_decide_eq_false_2 by done. cbn [orb].
      rewrite (bool_decide_eq_true_2 (["."%char; "."%char] = ["."%char; "."%char])) by done.
      destruct cs; [done|by rewrite (ends_empty_cons ["."%char; "."%char])].
Qed.

Lemma tail_str_components cur s : tail_str (components cur s) = SLASH :: cur ++ s.
Proof.
  revert cur. induction s as [|c s IH]; intros cur; simpl; [unfold tail_str; simpl; by rewrite app_nil_r|].
  case_bool_decide as Hc.
  - subst. unfold tail_str in *. simpl. by rewrite IH.
  - rewrite IH. by rewrite <- app_assoc.
Qed.

Lemma components_ok cur s : comp_ok cur → nul_free s → Forall comp_ok (components cur s).
Proof.
  unfold nul_free. revert cur. induction s as [|c s IH]; intros cur [Hs Hn] Hnf; simpl; [by repeat constructor|].
  case_bool_decide.
  - constructor; [done|]. apply IH; [split; set_solver|set_solver].
  - apply IH; [|set_solver]. split; set_solver.
Qed.

Lemma components_tail_str cur c cs :
  SLASH ∉ c → Forall comp_ok cs → components cur (c ++ tail_str cs) = (cur ++ c) :: cs.
Proof.
  intros Hc Hcs. revert cur c Hc. induction Hcs as [|d cs [Hd _] _ IH]; intros cur c.
  - unfold tail_str. simpl. rewrite app_nil_r. revert cur. induction c as [|x c IHc]; intros cur Hc; simpl; [by rewrite app_nil_r|].
    rewrite bool_decide_eq_false_2 by set_solver. rewrite IHc by set_solver. by rewrite <- app_assoc.
  - change (tail_str (d :: cs)) with (SLASH :: d ++ tail_str cs). revert cur.
    induction c as [|x c IHc]; intros cur Hc; simpl.
    + rewrite (IH [] d) by done. by rewrite app_nil_r.
    + rewrite bool_decide_eq_false_2 by set_solver. rewrite IHc by set_solver. by rewrite <- app_assoc.
Qed.

Lemma resolve_kept acc cs : Forall comp_ok cs → Forall kept acc → Forall kept (resolve acc cs).
Proof.
  intros Hcs. revert acc. induction Hcs as [|c cs Hc _ IH]; intros acc Hacc; [done|]. cbn [resolve].
  case_bool_decide; [by apply IH|]. cbn [orb]. case_bool_decide; [by apply IH|].
  case_bool_decide; [apply IH; by destruct Hacc|]. apply IH. by constructor.
Qed.

Lemma resolve_of_kept acc cs : Forall kept cs → resolve acc cs = rev cs ++ acc.
Proof.
  intros Hcs. revert acc. induction Hcs as [|c cs (_ & H1 & H2 & H3) _ IH]; intros acc; [done|]. cbn [resolve].
  rewrite !bool_decide_eq_false_2 by done. cbn [orb]. rewrite IH. simpl. by rewrite <- app_assoc.
Qed.

Lemma resolve_app acc cs ds : resolve acc (cs ++ ds) = resolve (resolve acc cs) ds.
Proof.
  revert acc. induction cs as [|c cs IH]; intros acc; [done|]. cbn [app resolve].
  repeat (match goal with |- context [if ?x then _ else _] => destruct x end); apply IH.
Qed.

(** The components of a canonical path: the resolved ones, then an empty one
    when a slash is kept at the end. *)
Definition canonical_comps (cs : list (list ascii)) : list (list ascii) :=
  match resolve [] cs with
  | [] => [[]]
  | acc => rev acc ++ (if ends_empty cs then [[]] else [])
  end.

Lemma canonical_tail_str cs : canonical cs = tail_str (canonical_comps cs).
Proof.
  unfold canonical, canonical_comps, render, tail_str. destruct (resolve [] cs) as [|a acc]; [done|].
  rewrite map_app, concat_app. f_equal. by destruct (ends_empty cs).
Qed.

(** A canonical path has no dot component, and is its own canonical form. *)
Lemma canonical_comps_ok cs :
  Forall comp_ok cs →
  Forall comp_ok (canonical_comps cs) ∧
  Forall (λ c, c ≠ ["."%char] ∧ c ≠ ["."%char; "."%char]) (canonical_comps cs) ∧
  canonical_comps cs ≠ [] ∧ canonical_comps (canonical_comps cs) = canonical_comps cs.
Proof.
  intros Hok. pose proof (resolve_kept [] cs Hok ltac:(constructor)) as Hk.
  destruct (resolve [] cs) as [|a acc] eqn:E.
  { unfold canonical_comps. rewrite E. split_and!; [repeat constructor; set_solver|by repeat constructor|done|done]. }
  assert (Hrev : Forall kept (rev (a :: acc))) by (apply Forall_rev; done).
  assert (Hcc : canonical_comps cs = rev (a :: acc) ++ (if ends_empty cs then [[]] else []))
    by (unfold canonical_comps; by rewrite E).
  rewrite Hcc. split_and!.
  - apply Forall_app. split; [eapply Forall_impl; [exact Hrev|by intros ? [? _]]|destruct (ends_empty cs); repeat constructor; set_solver].
  - apply Forall_app. split; [eapply Forall_impl; [exact Hrev|by intros ? (_ & _ & ? & ?)]|destruct (ends_empty cs); by repeat constructor].
  - simpl. by destruct (rev acc).
  - unfold canonical_comps. rewrite resolve_app, (resolve_of_kept [] _ Hrev), app_nil_r, rev_involutive.
    assert (Hres : resolve (a :: acc) (if ends_empty cs then [[]] else []) = a :: acc) by (by destruct (ends_empty cs)).
    rewrite Hres. f_equal. destruct (ends_empty cs) eqn:He.
    + unfold ends_empty. by rewrite last_snoc, bool_decide_eq_true_2 by done.
    + unfold ends_empty. simpl. rewrite app_nil_r, last_snoc, bool_decide_eq_false_2; [done|].
      apply Forall_cons in Hk as [(_ & Hne & _) _]. congruence.
Qed.

Lemma path_simplify_spec s :
  nul_free s → path_simplify (SLASH :: s) = Val (canonical (components [] s)).
Proof.
  intros Hs. set (cs := components [] s). assert (Hok : Forall comp_ok cs) by (apply components_ok; [split; set_solver|done]).
  unfold path_simplify. set (f := (SLASH :: s) ++ [NUL]).
  assert (Hlen : length f = (length s + 2)%nat) by (unfold f; rewrite length_app; simpl; lia).
  destruct (simplify_spec cs (S (length (SLASH :: s))) f 0 0 []) as (f' & p & -> & Hl & Hp & Ht).
  { split; [done|constructor| |done|done|lia|done]. unfold cs. rewrite tail_str_components. done. }
  { rewrite Hlen. simpl. lia. }
  run. pose proof (resolve_kept [] cs Hok ltac:(constructor)) as Hk.
  assert (Hcan : ∃ f2 p2, (if (p =? 0)%nat then (<[0%nat := SLASH]> f', 1%nat) else (f', p)) = (f2, p2) ∧
      length f2 = length f ∧ (p2 < length f)%nat ∧ take p2 f2 = canonical cs).
  { unfold canonical. destruct (Nat.eqb_spec p 0) as [->|Hp0].
    - eexists _, _. rewrite length_insert. split_and!; [done..|lia|]. simpl in Ht.
      destruct (resolve [] cs) as [|a acc]; [|rewrite render_cons in Ht; by destruct (render acc)].
      rewrite insert_take_S by lia. done.
    - exists f', p. split_and!; [done..|]. rewrite Ht. destruct (resolve [] cs) as [|a acc] eqn:E; [|done].
      destruct (ends_empty cs); [done|]. simpl in Ht. exfalso. apply (f_equal length) in Ht. rewrite length_take in Ht.
      simpl in Ht. lia. }
  destruct Hcan as (f2 & p2 & -> & Hl2 & Hp2 & Ht2).
  rewrite <- (take_drop p2 f2), Ht2. destruct (drop p2 f2) as [|x r] eqn:Hd.
  { apply (f_equal length) in Hd. rewrite length_drop in Hd. simpl in Hd. lia. }
  assert (Hlp : length (canonical cs) = p2) by (rewrite <- Ht2, length_take; lia).
  rewrite <- Hlp at 1. rewrite buf_set_app. run.
  unfold buf_str. rewrite bool_decide_eq_true_2 by set_solver. rewrite cstring_app_nul; [done|].
  rewrite canonical_tail_str. apply tail_str_nul. unfold canonical_comps.
  destruct (resolve [] cs) as [|a acc]; [repeat constructor; set_solver|].
  apply Forall_app. split; [apply Forall_rev; eapply Forall_impl; [exact Hk|by intros ? [? _]]|].
  destruct (ends_empty cs); repeat constructor; set_solver.
Qed.

(** The simplified path is absolute and holds no NUL. *)
Lemma path_simplify_absolute s :
  nul_free s → ∃ p, path_simplify (SLASH :: s) = Val (SLASH :: p) ∧ nul_free p.
Proof.
  intros Hs. assert (Hok : Forall comp_ok (components [] s)) by (apply components_ok; [split; set_solver|done]).
  destruct (canonical_comps_ok _ Hok) as (Hdok & _ & Hne & _). rewrite path_simplify_spec, canonical_tail_str by done.
  pose proof (tail_str_nul _ Hdok) as Hn. destruct (canonical_comps (components [] s)) as [|d ds]; [done|].
  exists (d ++ tail_str ds). split; [done|]. change (tail_str (d :: ds)) with (SLASH :: d ++ tail_str ds) in Hn.
  unfold nul_free in *. set_solver.
Qed.

(** ** Theorems *)

(** C13. [path_simplify] on an absolute path computes, in place and without
    leaving the array, the path with its empty and dot components removed and
    each dot-dot component removing the directory before it, the root being its
    own parent; one slash is kept at the end when the path ended in one. *)
Theorem path_simplify_canonical (s : list ascii) :
  nul_free s → path_simplify (SLASH :: s) = Val (canonical (components [] s)).
Proof. apply path_simplify_spec. Qed.

Lemma path_simplify_canonical_witness :
  path_simplify (SLASH :: str "a/./b//../../../etc/") = Val (canonical (components [] (str "a/./b//../../../etc/"))).
Proof. apply (path_simplify_canonical (str "a/./b//../../../etc/")). apply (bool_decide_unpack _). by vm_compute. Defined.

(** Whatever absolute path a client gives, the simplified path is absolute,
    has no dot or dot-dot component left, and is left alone by a second
    simplification: no such path leads above the directory it is appended to. *)
Theorem path_simplify_confined (s : list ascii) :
  nul_free s →
  ∃ p, path_simplify (SLASH :: s) = Val (SLASH :: p) ∧
    Forall (λ c, c ≠ ["."%char] ∧ c ≠ ["."%char; "."%char]) (components [] p) ∧
    path_simplify (SLASH :: p) = Val (SLASH :: p).
Proof.
  intros Hs. set (cs := components [] s).
  assert (Hok : Forall comp_ok cs) by (apply components_ok; [split; set_solver|done]).
  destruct (canonical_comps_ok cs Hok) as (Hdok & Hdots & Hne & Hfix).
  pose proof (path_simplify_spec s Hs) as Hp. fold cs in Hp. rewrite canonical_tail_str in Hp.
  destruct (canonical_comps cs) as [|d ds]; [done|]. apply Forall_cons in Hdok as [[Hd Hdn] Hdok].
  assert (Hcomp : components [] (d ++ tail_str ds) = d :: ds) by (by rewrite components_tail_str).
  exists (d ++ tail_str ds). split_and!; [done|by rewrite Hcomp|]. rewrite path_simplify_spec.
  - by rewrite Hcomp, canonical_tail_str, Hfix.
  - unfold nul_free. rewrite elem_of_app. intros [?|Hin]; [done|]. by apply (tail_str_nul ds).
Qed.

Lemma path_simplify_confined_witness :
  ∃ p, path_simplify (SLASH :: str "../../etc/passwd") = Val (SLASH :: p) ∧
    Forall (λ c, c ≠ ["."%char] ∧ c ≠ ["."%char; "."%char]) (components [] p) ∧
    path_simplify (SLASH :: p) = Val (SLASH :: p).
Proof. apply (path_simplify_confined (str "../../etc/passwd")). apply (bool_decide_unpack _). by vm_compute. Defined.

(** On a relative path [path_simplify] is wrong: after a first component of
    one character, dot-dot removes nothing, and a path of two characters
    followed by a final dot-dot is read past its terminating NUL. *)
Theorem path_simplify_relative (x : ascii) :
  x ≠ SLASH → x ≠ NUL →
  path_simplify (x :: str "/../dir") = Val (x :: str "/dir") ∧ path_simplify (x :: str "b/..") = Crash.
Proof. revert x. all_chars; intros Hs Hn; try (by exfalso; apply Hs); try (by exfalso; apply Hn); split; by vm_compute. Qed.

Lemma path_simplify_relative_witness :
  path_simplify (str "a/../dir") = Val (str "a/dir") ∧ path_simplify (str "ab/..") = Crash.
Proof. apply (path_simplify_relative "a"%char); done. Defined.
