(* ===== verification/PermFile.v ===== *)
(** * Permissions of files: libwzd-core/wzd_file.c

    Each directory holds a permission file, [.dirinfo], with the owner, the
    group, the permission bits and the access control lists of its files, and
    links. It is read into a chain of structures, kept here as a list in the
    order of the chain, and written back after each change. The disk is a map
    from the names of permission files to their contents; [fs_file_stat] is a
    parameter. Files are read through wzd_cache.c without [ENABLE_CACHE], which
    no build file defines. Locks are left out. *)
From S2P Require Import Prelude Registry Users Backend Perm Path.

(** ** Structures *)

Inductive wzd_file_kind_t := FILE_NOTSET | FILE_REG | FILE_DIR | FILE_LNK | FILE_VFS.
#[global] Instance wzd_file_kind_t_eq_dec : EqDecision wzd_file_kind_t.
Proof. solve_decision. Defined.

(** [perms] has three bytes and no terminating NUL. *)
Record wzd_acl_line_t := mkAcl {
  acl_user : list ascii;
  acl_perms : list ascii }.

Record wzd_file_t := mkFile {
  filename : list ascii;
  owner : list ascii;
  group : list ascii;
  permissions : Z;
  acl : list wzd_acl_line_t;
  kind : wzd_file_kind_t;
  data : option (list ascii) }.

Definition RIGHT_LIST : Z := 0x1.
Definition RIGHT_RETR : Z := 0x2.
Definition RIGHT_STOR : Z := 0x4.
Definition RIGHT_CWD : Z := 0x10000.
Definition RIGHT_MKDIR : Z := 0x20000.
Definition RIGHT_RMDIR : Z := 0x40000.
Definition RIGHT_RNFR : Z := 0x200000.

Definition FLAG_ANONYMOUS : ascii := "A".

(** [strncpy(field,s,256)] into a field of a structure. *)
Definition field256 (s : list ascii) : list ascii := strncpy (replicate 256 NUL) s 256.

(** ** Lists of files *)

(** The position of the first file of this name. *)
Fixpoint find_file_from (name : list ascii) (i : nat) (l : list wzd_file_t) : outcome (option nat) :=
  match l with
  | [] => Val None
  | f :: l =>
    same ← buf_eq id (filename f) name;
    if (same : bool) then Val (Some i) else find_file_from name (S i) l
  end.

Definition find_file (name : list ascii) (first : list wzd_file_t) : outcome (option nat) :=
  find_file_from name 0 first.

Definition remove_file (name : list ascii) (first : list wzd_file_t) : outcome (option wzd_file_t * list wzd_file_t) :=
  i ← find_file name first;
  match i with
  | Some i => Val (first !! i, delete i first)
  | None => Val (None, first)
  end.

Fixpoint file_insert_sorted (entry : wzd_file_t) (tab : list wzd_file_t) : outcome (list wzd_file_t) :=
  match tab with
  | [] => Val [entry]
  | it :: tab' =>
    a ← buf_str (filename entry);
    b ← buf_str (filename it);
    if 0 <? strcmp a b then r ← file_insert_sorted entry tab'; Val (it :: r)
    else Val (entry :: it :: tab')
  end.

Fixpoint find_acl_in (name : list ascii) (l : list wzd_acl_line_t) : outcome (option wzd_acl_line_t) :=
  match l with
  | [] => Val None
  | a :: l =>
    same ← buf_eq id (acl_user a) name;
    if (same : bool) then Val (Some a) else find_acl_in name l
  end.

Definition find_acl (name : list ascii) (file : wzd_file_t) : outcome (option wzd_acl_line_t) :=
  find_acl_in name (acl file).

(** The new structure; it is appended to the list. *)
Definition new_file (umask : Z) (name : list ascii) (own grp : option (list ascii)) : wzd_file_t :=
  mkFile (field256 name)
    (match own with Some o => field256 o | None => replicate 256 NUL end)
    (match grp with Some g => field256 g | None => replicate 256 NUL end)
    umask [] FILE_NOTSET None.

Definition add_new_file (umask : Z) (name : list ascii) (own grp : option (list ascii)) (first : list wzd_file_t)
    : nat * list wzd_file_t :=
  (length first, first ++ [new_file umask name own grp]).

(** The loop copies the first line of the list at each turn. *)
Definition file_deep_copy (file_cur : option wzd_file_t) : option wzd_file_t :=
  match file_cur with
  | None => None
  | Some f =>
    let acl' := match acl f with [] => [] | a :: rest => a :: map (λ _, a) rest end in
    Some (mkFile (filename f) (owner f) (group f) (permissions f) acl' (kind f) (data f))
  end.

Definition set_acl (f : wzd_file_t) (l : list wzd_acl_line_t) : wzd_file_t :=
  mkFile (filename f) (owner f) (group f) (permissions f) l (kind f) (data f).
Definition set_owner (f : wzd_file_t) (o : list ascii) : wzd_file_t :=
  mkFile (filename f) (strncpy (owner f) o 256) (group f) (permissions f) (acl f) (kind f) (data f).
Definition set_group (f : wzd_file_t) (g : list ascii) : wzd_file_t :=
  mkFile (filename f) (owner f) (strncpy (group f) g 256) (permissions f) (acl f) (kind f) (data f).
Definition set_permissions (f : wzd_file_t) (p : Z) : wzd_file_t :=
  mkFile (filename f) (owner f) (group f) p (acl f) (kind f) (data f).
Definition set_link (f : wzd_file_t) (d : list ascii) : wzd_file_t :=
  mkFile (filename f) (owner f) (group f) (permissions f) (acl f) FILE_LNK (Some d).

(** [Some]: the line of this user was changed in place. *)
Fixpoint replace_acl (user rights : list ascii) (l : list wzd_acl_line_t) : outcome (option (list wzd_acl_line_t)) :=
  match l with
  | [] => Val None
  | a :: l =>
    same ← buf_eq id (acl_user a) user;
    if (same : bool) then Val (Some (mkAcl (acl_user a) (strncpy (acl_perms a) rights 3) :: l))
    else r ← replace_acl user rights l; Val (match r with Some l => Some (a :: l) | None => None end)
  end.

Definition addAcl (user rights : list ascii) (file : wzd_file_t) : outcome wzd_file_t :=
  let acl_new := mkAcl (field256 user) (strncpy (replicate 3 NUL) rights 3) in
  r ← replace_acl user rights (acl file);
  match r with
  | Some l => Val (set_acl file l)
  | None => Val (set_acl file (acl_new :: acl file))
  end.

(** ** Tokens *)

(** [strtok_r(NULL,...,&ptr)]: undefined when [ptr] is NULL. *)
Definition strtok_next (ptr : option (list ascii)) : outcome (option (list ascii) * option (list ascii)) :=
  s ← deref ptr;
  let '(t, r) := strtok is_delim s in Val (t, Some r).

(** [read_token(NULL,&ptr)]; the result and the new value of [ptr]. *)
Definition read_token (ptr : option (list ascii)) : option (list ascii) * option (list ascii) :=
  match ptr with
  | None => (None, None)
  | Some s =>
    let s := skip_spaces s in
    if bool_decide (s = []) then (None, None) else
    match strpbrk (λ c, is_delim c || is_quote c) s with
    | Some (q :: after) =>
      if is_quote q then
        if bool_decide (q ∈ after) then
          let '(t, r) := strtok (λ c, bool_decide (c = q)) (q :: after) in (t, Some r)
        else (None, None)
      else let '(t, r) := strtok is_delim s in (t, Some r)
    | _ => (Some s, None)
    end
  end.

(** ** Reading a permission file *)

(** The characters of a line, at most [n], with its line feed; the rest. *)
Fixpoint gets (n : nat) (s : list ascii) : list ascii * list ascii :=
  match n, s with
  | S n, c :: s =>
    if bool_decide (c = LF) then ([c], s) else let '(l, r) := gets n s in (c :: l, r)
  | _, _ => ([], s)
  end.

(** What is left to read after the current position; [None] at the end of file.
    The first [read] gets as many bytes as the loop can copy. *)
Definition wzd_cache_gets (s : list ascii) (size : nat) : option (list ascii * list ascii) :=
  match s with [] => None | _ => Some (gets (size - 1) s) end.

(** The permission files on disk, by name. *)
Abbreviation permdisk := (gmap (list ascii) (list ascii)).

Section files.
  Context (umask : Z).

(** [strtoul(token,&ptr,8)], or the default when there is no token; the field is
    left alone when the token is not a number. *)
Definition read_permissions (token : option (list ascii)) (f : wzd_file_t) : wzd_file_t :=
  match token with
  | Some t =>
    let '(ul, rest) := strtoul_in 8 t in
    if bool_decide (rest = t) then f else set_permissions f ul
  | None => set_permissions f umask
  end.

(** The body of the loop of [readPermFile] once four tokens are read. *)
Definition read_entry (token1 token2 token3 token4 : list ascii) (ptr : option (list ascii))
    (l : list wzd_file_t) : outcome (list wzd_file_t) :=
  found ← find_file token2 l;
  let '(i, l) := match found with Some i => (i, l) | None => add_new_file umask token2 None None l end in
  f ← deref (l !! i);
  if streq token1 (str "owner") then
    '(token5, _) ← strtok_next ptr;
    Val (<[i := read_permissions token5 (set_group (set_owner f token3) token4)]> l)
  else if streq token1 (str "perm") then
    f ← addAcl token3 token4 f; Val (<[i := f]> l)
  else if streq token1 (str "link") then
    '(token5, ptr) ← strtok_next ptr;
    match token5 with
    | None => Val l
    | Some token5 =>
      '(token6, _) ← strtok_next ptr;
      Val (<[i := read_permissions token6 (set_group (set_owner (set_link f token3) token4) token5)]> l)
    end
  else Val l.

Definition read_line (line : list ascii) (l : list wzd_file_t) : outcome (list wzd_file_t) :=
  match strtok is_delim (cstring line) with
  | (None, _) => Val l
  | (Some token1, ptr) =>
    match read_token (Some ptr) with
    | (None, _) => Val l
    | (Some token2, ptr) =>
      match read_token ptr with
      | (None, _) => Val l
      | (Some token3, ptr) =>
        '(token4, ptr) ← strtok_next ptr;
        match token4 with
        | None => Val l
        | Some token4 => read_entry token1 token2 token3 token4 ptr l
        end
      end
    end
  end.

Definition BUFFER_LEN : nat := 4096.

(** Each turn reads at least one character. *)
Fixpoint read_lines (fuel : nat) (s : list ascii) (l : list wzd_file_t) : outcome (list wzd_file_t) :=
  match fuel with
  | O => Crash
  | S fuel =>
    match wzd_cache_gets s (BUFFER_LEN - 1) with
    | None => Val l
    | Some (line, s) => l ← read_line line l; read_lines fuel s l
    end
  end.

Definition readPermFile (disk : permdisk) (permfile : list ascii) (tab : list wzd_file_t)
    : outcome (wzd_errno_t * list wzd_file_t) :=
  match disk !! permfile with
  | None => Val (E_FILE_NOEXIST, tab)
  | Some content => l ← read_lines (S (length content)) content tab; Val (E_OK, l)
  end.

(** ** Writing a permission file *)

(** [snprintf] into the buffer, then [fwrite] of the string it holds. *)
Definition out_line (s : list ascii) : list ascii := cstring (take (BUFFER_LEN - 1) s).

Definition octal (v : Z) : list ascii := print_in 8 22 v [].

Definition quoted (q : bool) (s : list ascii) : list ascii :=
  if q then ["'"%char] ++ s ++ ["'"%char] else s.

Definition link_line (name dat own grp : list ascii) (perms : Z) : list ascii :=
  str "link" ++ [TAB] ++ name ++ [TAB] ++ quoted (strchr dat " "%char) dat ++ [TAB] ++ own ++ [TAB]
    ++ grp ++ [TAB] ++ octal perms ++ [LF].

Definition owner_line (name own grp : list ascii) (perms : Z) : list ascii :=
  str "owner" ++ [TAB] ++ quoted (strchr name " "%char) name ++ [TAB] ++ own ++ [TAB] ++ grp ++ [TAB]
    ++ octal perms ++ [LF].

Definition perm_line (name user perms : list ascii) : list ascii :=
  str "perm" ++ [TAB] ++ quoted (strchr name " "%char) name ++ [TAB] ++ user ++ [TAB] ++ perms ++ [LF].

Fixpoint write_acl (name : list ascii) (l : list wzd_acl_line_t) : outcome (list ascii) :=
  match l with
  | [] => Val []
  | a :: l =>
    user ← buf_str (acl_user a);
    rest ← write_acl name l;
    Val (out_line (perm_line name user (take 3 (acl_perms a))) ++ rest)
  end.

Definition write_file (f : wzd_file_t) : outcome (list ascii) :=
  name ← buf_str (filename f);
  own ← buf_str (owner f);
  grp ← buf_str (group f);
  if bool_decide (kind f = FILE_LNK) then
    dat ← deref (data f);
    Val (out_line (link_line name dat own grp (permissions f)))
  else
    let first := if (0 <? length own)%nat || (0 <? length grp)%nat
                 then out_line (owner_line name own grp (permissions f)) else [] in
    acls ← write_acl name (acl f);
    Val (first ++ acls).

Fixpoint write_files (l : list wzd_file_t) : outcome (list ascii) :=
  match l with
  | [] => Val []
  | f :: l => s ← write_file f; rest ← write_files l; Val (s ++ rest)
  end.

(** [writable] is the success of [fopen(permfile,"w")]. *)
Definition writePermFile (writable : bool) (disk : permdisk) (permfile : list ascii) (tab : list wzd_file_t)
    : outcome (Z * permdisk) :=
  match tab with
  | [] => Val (match disk !! permfile with Some _ => 0 | None => -1 end, delete permfile disk)
  | _ =>
    if negb writable then Val (-1, disk) else
    s ← write_files tab;
    Val (0, <[permfile := s]> disk)
  end.

End files.

(** ** Paths *)

Inductive fkind := FK_DIR | FK_LNK | FK_REG.
#[global] Instance fkind_eq_dec : EqDecision fkind.
Proof. solve_decision. Defined.

Definition MAXPATH : nat := 1024.

(** [strcpy(buf+strlen(s),t)] into an array of [WZD_MAX_PATH+1] bytes. *)
Definition append (s t : list ascii) : outcome (list ascii) :=
  if (length s + length t <=? MAXPATH)%nat then Val (s ++ t) else Crash.

Definition ends_with_slash (s : list ascii) : bool := bool_decide (last s = Some SLASH).

(** [if (syspath[sys_offset-1] != '/') memcpy(&syspath[sys_offset++],"/",2)] *)
Definition add_slash (s : list ascii) : outcome (list ascii) :=
  match s with
  | [] => Crash
  | _ => if ends_with_slash s then Val s else append s [SLASH]
  end.

Definition HARD_PERMFILE : list ascii := str ".dirinfo".

(** [strrchr(s,'/')]: what is before and after the last slash. *)
Fixpoint strrchr_slash (s : list ascii) : option (list ascii * list ascii) :=
  match s with
  | [] => None
  | c :: s =>
    match strrchr_slash s with
    | Some (d, base) => Some (c :: d, base)
    | None => if bool_decide (c = SLASH) then Some ([], s) else None
    end
  end.

(** ** Checking a right *)

Definition _default_perm (wanted_right : Z) (user : wzd_user_t) : Z :=
  if Z.land wanted_right (userperms user) =? 0 then 1 else 0.

(** The [switch] on the right, for the bits of the owner (0400, 0200 and 0100
    in octal), the group (0040, 0020, 0010) or the others (0004, 0002, 0001). *)
Definition mode_test (r w x wanted_right perms : Z) : Z :=
  if (wanted_right =? RIGHT_LIST) || (wanted_right =? RIGHT_RETR) then Z.land perms r
  else if (wanted_right =? RIGHT_STOR) || (wanted_right =? RIGHT_MKDIR) || (wanted_right =? RIGHT_RMDIR)
       || (wanted_right =? RIGHT_RNFR) then Z.land perms w
  else if wanted_right =? RIGHT_CWD then Z.land perms x
  else 0.

(** [!ret] *)
Definition lnot (ret : Z) : Z := if ret =? 0 then 1 else 0.

(** [perms[i]!='c'] *)
Definition lacks (perms : list ascii) (i : nat) (c : ascii) : outcome Z :=
  x ← deref (perms !! i); Val (if bool_decide (x = c) then 0 else 1).

Definition acl_test (is_dir : bool) (perms : list ascii) (wanted_right : Z) : outcome Z :=
  if wanted_right =? RIGHT_RETR then lacks perms 0 "r"%char
  else if wanted_right =? RIGHT_STOR then lacks perms 1 "w"%char
  else if wanted_right =? RIGHT_CWD then if is_dir then lacks perms 2 "x"%char else Val (-1)
  else if wanted_right =? RIGHT_LIST then if is_dir then lacks perms 0 "r"%char else Val (-1)
  else if wanted_right =? RIGHT_RNFR then lacks perms 1 "w"%char
  else Val (-1).

Section access.
  Context (b : option wzd_backend_t) (umask : Z)
          (fs_file_stat : list ascii → option fkind)
          (writable : list ascii → bool).

(** Whether the group of the file is one of the [n] groups of the user from the
    [i]-th on; a group that does not exist is skipped. *)
Fixpoint in_group (n i : nat) (user : wzd_user_t) (w : world) (f : wzd_file_t) : outcome bool :=
  match n with
  | O => Val false
  | S n =>
    gid ← deref (groups user !! i);
    g ← GetGroupByID b gid w;
    a ← as_struct g;
    match a with
    | None => in_group n (S i) user w f
    | Some a =>
      g ← deref (r_heap (w_groups w) !! a);
      name ← buf_str (groupname g);
      same ← buf_eq id (group f) name;
      if (same : bool) then Val true else in_group n (S i) user w f
    end
  end.

(** The file is in the list. *)
Definition check_listed (f : wzd_file_t) (wanted_file : list ascii) (wanted_right : Z) (user : wzd_user_t) (w : world)
    : outcome Z :=
  name ← buf_str (username user);
  acl_cur ← find_acl name f;
  match acl_cur with
  | Some a => acl_test (streq wanted_file (str ".")) (acl_perms a) wanted_right
  | None =>
    is_owner ← buf_eq id (owner f) name;
    if (is_owner : bool) then Val (lnot (mode_test 0x100 0x80 0x40 wanted_right (permissions f))) else
    is_group ← in_group (Z.to_nat (group_num user)) 0 user w f;
    if (is_group : bool) then Val (lnot (mode_test 0x20 0x10 0x08 wanted_right (permissions f)))
    else Val (lnot (mode_test 0x04 0x02 0x01 wanted_right (permissions f)))
  end.

(** An array of [WZD_MAX_PATH+1] bytes filled by [strncpy] is terminated when
    the string is shorter than [WZD_MAX_PATH]. *)
Definition _checkFileForPerm (disk : permdisk) (dir wanted_file : list ascii) (wanted_right : Z)
    (user : wzd_user_t) (w : world) : outcome Z :=
  if (MAXPATH <=? length dir)%nat then Crash else
  if (MAXPATH <=? length dir + length HARD_PERMFILE)%nat then Val (-1) else
  fl ← buf_str (flags user);
  if strchr fl FLAG_SITEOP then Val 0 else
  '(ret, file_list) ← readPermFile umask disk (dir ++ HARD_PERMFILE) [];
  if negb (bool_decide (ret = E_OK)) then Val (_default_perm wanted_right user) else
  found ← find_file wanted_file file_list;
  match found with
  | None => Val (_default_perm wanted_right user)
  | Some i => f ← deref (file_list !! i); check_listed f wanted_file wanted_right user w
  end.

(** [_checkFileForPerm(dir,...)] once [dir] ends with a slash. *)
Definition check_in (disk : permdisk) (dir stripped : list ascii) (wanted_right : Z) (user : wzd_user_t) (w : world) : outcome Z :=
  dir ← add_slash dir;
  _checkFileForPerm disk dir stripped wanted_right user w.

(** The parent of a path: [*(ptr+1)=0] after the slash of the root directory,
    [*ptr=0] otherwise. *)
Definition parent (d : list ascii) : list ascii := if bool_decide (d = []) then [SLASH] else d.

Definition modifies (wanted_right : Z) : bool :=
  (wanted_right =? RIGHT_STOR) || (wanted_right =? RIGHT_MKDIR) || (wanted_right =? RIGHT_RMDIR) || (wanted_right =? RIGHT_RNFR).

(** A file that does not exist is checked in its parent directory first. Without
    a slash in the path the name of the file is never set. *)
Fixpoint check_perm (fuel : nat) (disk : permdisk) (filename : list ascii) (wanted_right : Z) (user : wzd_user_t) (w : world)
    : outcome Z :=
  match filename with
  | [] => Val (-1)
  | _ =>
    fl ← buf_str (flags user);
    if strchr fl FLAG_ANONYMOUS && modifies wanted_right then Val (-1) else
    match fs_file_stat filename with
    | None =>
      if negb (wanted_right =? RIGHT_STOR) && negb (wanted_right =? RIGHT_MKDIR) then Val (-1) else
      if (MAXPATH <=? length filename)%nat then Crash else
      match strrchr_slash filename, fuel with
      | Some (d, base), S fuel =>
        r ← check_perm fuel disk (parent d) wanted_right user w;
        if negb (r =? 0) then Val (-1) else check_in disk (parent d) base wanted_right user w
      | _, _ => Crash
      end
    | Some k =>
      if (MAXPATH <=? length filename)%nat then Crash else
      match k with
      | FK_DIR => check_in disk filename (str ".") wanted_right user w
      | _ =>
        match strrchr_slash filename with
        | Some (d, base) => check_in disk (parent d) base wanted_right user w
        | None => Crash
        end
      end
    end
  end.

(** Each parent is shorter; the root directory is its own parent. *)
Definition _checkPerm (disk : permdisk) (filename : list ascii) (wanted_right : Z) (user : wzd_user_t) (w : world) : outcome Z :=
  check_perm (S (length filename)) disk filename wanted_right user w.

(** ** Changing a permission file *)

(** [if (field[0]=='\0') strcpy(field,s)] *)
Definition default_field (field s : list ascii) : list ascii :=
  match field with
  | c :: _ => if bool_decide (c = NUL) then s ++ [NUL] ++ drop (S (length s)) field else field
  | [] => field
  end.

Definition set_owner_group (own grp : option (list ascii)) (f : wzd_file_t) : wzd_file_t :=
  match own, grp with
  | None, None => f
  | _, _ =>
    let f := match own with Some o => set_owner f o | None => f end in
    let o := default_field (owner f) (str "nobody") in
    let f := match grp with Some g => set_group f g | None => f end in
    let g := default_field (group f) (str "nogroup") in
    mkFile (filename f) o g (permissions f) (acl f) (kind f) (data f)
  end.

(** The position of the file of this name, which is added when it is missing. *)
Definition find_or_add (ret : wzd_errno_t) (name : list ascii) (own grp : option (list ascii)) (l : list wzd_file_t)
    : outcome (nat * list wzd_file_t) :=
  if negb (bool_decide (ret = E_OK)) then Val (add_new_file umask name own grp l) else
  found ← find_file name l;
  match found with
  | Some i => Val (i, l)
  | None => Val (add_new_file umask name own grp l)
  end.

Definition no_perms : Z := ULONG_MAX.

Definition _setPerm (disk : permdisk) (filename : list ascii) (granted_user own grp rights : option (list ascii)) (perms : Z)
    : outcome (Z * permdisk) :=
  match filename with
  | [] => Val (-1, disk)
  | _ =>
    match fs_file_stat filename with
    | None => Val (-1, disk)
    | Some k =>
      if (MAXPATH <=? length filename)%nat then Crash else
      '(dir, stripped) ← match k with
                         | FK_DIR => Val (filename, str ".")
                         | _ => deref (strrchr_slash filename)
                         end;
      dir ← add_slash dir;
      if (MAXPATH <=? length dir + length HARD_PERMFILE)%nat then Val (-1, disk) else
      let perm_filename := dir ++ HARD_PERMFILE in
      '(ret, l) ← readPermFile umask disk perm_filename [];
      '(i, l) ← find_or_add ret stripped None None l;
      f ← deref (l !! i);
      let f := set_owner_group own grp f in
      f ← match rights with
          | Some r => user ← deref granted_user; addAcl user r f
          | None => Val f
          end;
      let f := if perms =? no_perms then f else set_permissions f perms in
      '(_, disk) ← writePermFile (writable perm_filename) disk perm_filename (<[i := f]> l);
      Val (0, disk)
    end
  end.

Definition file_chown (disk : permdisk) (filename : list ascii) (own grp : option (list ascii)) : outcome (Z * permdisk) :=
  _setPerm disk filename None own grp None no_perms.

(** The directory and the base name of a path, in arrays of [BUFFER_LEN] bytes. *)
Definition split_path (path : list ascii) : outcome (list ascii * list ascii) :=
  if (BUFFER_LEN <=? length path)%nat then Crash else
  '(dir, base) ← deref (strrchr_slash path);
  match dir with
  | [] => Crash
  | _ => Val (if ends_with_slash dir then dir else dir ++ [SLASH], base)
  end.

Definition _movePerm (disk : permdisk) (oldfilename newfilename : list ascii) (own grp : option (list ascii)) : outcome (Z * permdisk) :=
  match oldfilename, newfilename with
  | [], _ | _, [] => Val (-1, disk)
  | _, _ =>
    match fs_file_stat oldfilename with
    | None => Val (-1, disk)
    | Some FK_DIR => Val (0, disk)
    | Some _ =>
      '(src_dir, src_stripped) ← split_path oldfilename;
      if (4095 <? length src_dir + length HARD_PERMFILE)%nat then Val (-1, disk) else
      if bool_decide (fs_file_stat newfilename = Some FK_DIR) then Val (-1, disk) else
      '(dst_dir, dst_stripped) ← split_path newfilename;
      if (4095 <? length dst_dir + length HARD_PERMFILE)%nat then Val (-1, disk) else
      let src_perm := src_dir ++ HARD_PERMFILE in
      let dst_perm := dst_dir ++ HARD_PERMFILE in
      '(ret, sl) ← readPermFile umask disk src_perm [];
      '(file_dst, sl) ← (if bool_decide (ret = E_OK) then remove_file src_stripped sl else Val (None, sl));
      '(_, disk) ← writePermFile (writable src_perm) disk src_perm sl;
      '(ret, dl) ← readPermFile umask disk dst_perm [];
      dl ← match file_dst with
           | None => '(_, dl) ← remove_file dst_stripped dl; Val dl
           | Some fd =>
             let o := cstring (owner fd) in
             let g := cstring (group fd) in
             '(i, dl') ← find_or_add ret dst_stripped (Some o) (Some g) dl;
             f ← deref (dl' !! i);
             let old := (i <? length dl)%nat in
             let f := if old && bool_decide (is_Some own) then set_owner f o else f in
             let f := if old && bool_decide (is_Some grp) then set_group f g else f in
             Val (<[i := set_acl f (acl fd)]> dl')
           end;
      '(_, disk) ← writePermFile (writable dst_perm) disk dst_perm dl;
      Val (0, disk)
    end
  end.

(** ** The rights of a user on a file *)

(** The loop of [file_getperms] over the groups, which does not stop at a match. *)
Fixpoint groups_match (n i : nat) (user : wzd_user_t) (w : world) (f : wzd_file_t) (found : bool) : outcome bool :=
  match n with
  | O => Val found
  | S n =>
    gid ← deref (groups user !! i);
    g ← GetGroupByID b gid w;
    a ← as_struct g;
    match a with
    | None => groups_match n (S i) user w f found
    | Some a =>
      g ← deref (r_heap (w_groups w) !! a);
      name ← buf_str (groupname g);
      same ← buf_eq id (group f) name;
      groups_match n (S i) user w f (found || same)
    end
  end.

Definition rights_of (can_r can_w can_x is_dir : bool) : Z :=
  let perms := Z.lor (if can_r then RIGHT_RETR else 0)
                 (Z.lor (if can_w then Z.lor RIGHT_STOR RIGHT_RNFR else 0)
                        (if is_dir && can_x then RIGHT_CWD else 0)) in
  if is_dir then
    Z.lor perms (Z.lor (if can_r then RIGHT_LIST else 0) (if can_w then RIGHT_MKDIR else 0))
  else perms.

Definition mode_rights (r w x perms : Z) (is_dir : bool) : Z :=
  rights_of (negb (Z.land perms r =? 0)) (negb (Z.land perms w =? 0)) (negb (Z.land perms x =? 0)) is_dir.

Definition file_getperms (file : option wzd_file_t) (user : option wzd_user_t) (w : world) : outcome Z :=
  match user with
  | None => Val 0
  | Some user =>
    match file with
    | None => Val (_default_perm 0xffffffff user)
    | Some f =>
      let is_dir := bool_decide (kind f = FILE_DIR) in
      name ← buf_str (username user);
      acl_cur ← find_acl name f;
      match acl_cur with
      | Some a =>
        r ← lacks (acl_perms a) 0 "r"%char;
        wr ← lacks (acl_perms a) 1 "w"%char;
        x ← lacks (acl_perms a) 2 "x"%char;
        Val (rights_of (r =? 0) (wr =? 0) (x =? 0) is_dir)
      | None =>
        is_owner ← buf_eq id (owner f) name;
        if (is_owner : bool) then Val (mode_rights 0x100 0x80 0x40 (permissions f) is_dir) else
        found ← groups_match (Z.to_nat (group_num user)) 0 user w f false;
        if (found : bool) then Val (mode_rights 0x20 0x10 0x08 (permissions f) is_dir)
        else Val (mode_rights 0x04 0x02 0x01 (permissions f) is_dir)
      end
    end
  end.

(** The owner recorded for a file, or [nobody]. *)
Definition file_getowner (disk : permdisk) (filename : list ascii) (w : world) : outcome got :=
  match fs_file_stat filename with
  | None => Val (Got None)
  | Some k =>
    if (BUFFER_LEN <=? length filename)%nat then Crash else
    match strrchr_slash filename with
    | None | Some (_, []) => Val (Got None)
    | Some (d, base) =>
      let '(dir, stripped) := match k with FK_DIR => (filename, str ".") | _ => (d, base) end in
      if (4095 <? length dir + (length HARD_PERMFILE + 1))%nat then Val (Got None) else
      match dir with
      | [] => Crash
      | _ =>
        let perm_filename := (if ends_with_slash dir then dir else dir ++ [SLASH]) ++ HARD_PERMFILE in
        '(ret, l) ← readPermFile umask disk perm_filename [];
        if negb (bool_decide (ret = E_OK)) then GetUserByName b (Some (str "nobody")) w else
        found ← find_file stripped l;
        match found with
        | None => GetUserByName b (Some (str "nobody")) w
        | Some i =>
          f ← deref (l !! i);
          o ← buf_str (owner f);
          GetUserByName b (Some (if bool_decide (o = []) then str "nobody" else o)) w
        end
      end
    end
  end.

End access.

(** ** What a permission file says *)

(** A file of the directory: names and rights as strings, the target of a link. *)
Record dfile := mkD {
  d_name : list ascii;
  d_owner : list ascii;
  d_group : list ascii;
  d_perms : Z;
  d_acl : list (list ascii * list ascii);
  d_link : option (list ascii) }.

Definition repr_acl (p : list ascii * list ascii) : wzd_acl_line_t := mkAcl (padded 256 p.1) p.2.

Definition repr (d : dfile) : wzd_file_t :=
  mkFile (padded 256 (d_name d)) (padded 256 (d_owner d)) (padded 256 (d_group d)) (d_perms d)
    (map repr_acl (d_acl d)) (match d_link d with Some _ => FILE_LNK | None => FILE_NOTSET end) (d_link d).

(** A character that neither separates nor quotes. *)
Definition plain (c : ascii) : bool := negb (isspace c) && negb (is_quote c) && negb (bool_decide (c = NUL)).

(** A word; a name, which may hold spaces. *)
Definition word (s : list ascii) : Prop := s ≠ [] ∧ Forall (λ c, plain c = true) s.
Definition spaced (s : list ascii) : Prop := s ≠ [] ∧ Forall (λ c, plain c = true ∨ c = " "%char) s.

Definition acl_ok (p : list ascii * list ascii) : Prop :=
  word p.1 ∧ (length p.1 < 256)%nat ∧ word p.2 ∧ length p.2 = 3%nat.

(** What can be written and read back: an owner and a group, or neither and the
    default permissions. *)
Record dfile_ok (umask : Z) (d : dfile) : Prop := {
  do_name : (length (d_name d) < 256)%nat;
  do_owner : (length (d_owner d) < 256)%nat;
  do_group : (length (d_group d) < 256)%nat;
  do_perms : 0 ≤ d_perms d < 2 ^ 64;
  do_acl : Forall acl_ok (d_acl d);
  do_users : NoDup (d_acl d).*1;
  do_kind : match d_link d with
            | Some t => word (d_name d) ∧ spaced t ∧ (length t < 2048)%nat ∧ word (d_owner d) ∧ word (d_group d) ∧ d_acl d = []
            | None => spaced (d_name d) ∧
                (word (d_owner d) ∧ word (d_group d) ∨
                 d_owner d = [] ∧ d_group d = [] ∧ d_perms d = umask ∧ d_acl d ≠ [])
            end }.

Definition d_with_acl (d : dfile) (a : list (list ascii * list ascii)) : dfile :=
  mkD (d_name d) (d_owner d) (d_group d) (d_perms d) a (d_link d).

(** *** Lookups *)

Lemma buf_eq_padded n t s :
  nul_free t → (length t < n)%nat → buf_eq id (padded n t) s = Val (bool_decide (t = s)).
Proof. intros Ht Hn. rewrite padded_nul, buf_eq_terminated by done. by rewrite !map_id. Qed.

Lemma plain_facts c :
  plain c = true → isspace c = false ∧ is_quote c = false ∧ is_delim c = false ∧ c ≠ NUL ∧ c ≠ " "%char.
Proof. revert c. all_chars. Qed.

Lemma word_spaced s : word s → spaced s.
Proof. intros [? H]. split; [done|]. eapply Forall_impl; [done|]. by left. Qed.

Lemma spaced_nul_free s : spaced s → nul_free s.
Proof.
  intros [_ H] Hin. rewrite Forall_forall in H. destruct (H _ Hin) as [Hp|]; [|done].
  by apply plain_facts in Hp as (_ & _ & _ & ? & _).
Qed.

#[export] Hint Resolve word_spaced spaced_nul_free : cstr.

Lemma dfile_ok_nul_free umask d :
  dfile_ok umask d → nul_free (d_name d) ∧ nul_free (d_owner d) ∧ nul_free (d_group d).
Proof.
  intros [_ _ _ _ _ _ Hk]. destruct (d_link d).
  - destruct Hk as (? & _ & _ & ? & ? & _). split_and!; eauto with cstr.
  - destruct Hk as (? & [(? & ?)|(-> & -> & _)]); split_and!; eauto with cstr.
Qed.

Definition by_name (name : list ascii) (l : list dfile) : option (nat * dfile) :=
  list_find (λ d, d_name d = name) l.

Lemma find_file_repr umask name i l :
  Forall (dfile_ok umask) l →
  find_file_from name i (map repr l) = Val ((λ p, (i + p.1)%nat) <$> by_name name l).
Proof.
  intros Hl. revert i. induction Hl as [|d l Hd Hl IH]; intros i; simpl; [done|].
  rewrite buf_eq_padded; [|by eapply dfile_ok_nul_free|by eapply do_name]. run.
  unfold by_name. simpl. case_decide as Hn; [rewrite bool_decide_eq_true_2 by done; simpl; by rewrite Nat.add_0_r|].
  rewrite bool_decide_eq_false_2, IH by done. unfold by_name.
  destruct (list_find _ l) as [[j d']|]; simpl; [|done]. do 2 f_equal. lia.
Qed.

Definition acl_of (user : list ascii) (a : list (list ascii * list ascii)) : option (list ascii) :=
  snd <$> List.find (λ p, bool_decide (p.1 = user)) a.

Lemma find_acl_repr user a :
  Forall acl_ok a → find_acl_in user (map repr_acl a) = Val (repr_acl <$> List.find (λ p, bool_decide (p.1 = user)) a).
Proof.
  intros Ha. induction Ha as [|[u r] a [Hu Hr] Ha IH]; simpl; [done|]. simpl in *.
  rewrite buf_eq_padded by (try done; eauto with cstr; tauto). run. case_bool_decide; [done|apply IH].
Qed.

(** Giving rights to a user: the line of the user is replaced, or a line comes first. *)
Definition grant (user rights : list ascii) (a : list (list ascii * list ascii)) : list (list ascii * list ascii) :=
  if bool_decide (user ∈ a.*1) then map (λ p, if bool_decide (p.1 = user) then (user, rights) else p) a
  else (user, rights) :: a.

Lemma map_other (user : list ascii) (x : list ascii * list ascii) a :
  user ∉ a.*1 → map (λ p, if bool_decide (p.1 = user) then x else p) a = a.
Proof.
  induction a as [|p a IH]; simpl; [done|]. rewrite not_elem_of_cons. intros [Hp Ha].
  rewrite bool_decide_eq_false_2 by done. by rewrite IH.
Qed.

Lemma strncpy3 dst s : length dst = 3%nat → length s = 3%nat → strncpy dst s 3 = s.
Proof. intros Hd Hs. rewrite strncpy_padded by lia. unfold padded. rewrite Hs. simpl. by rewrite app_nil_r. Qed.

Lemma replace_acl_repr user rights a :
  Forall acl_ok a → NoDup a.*1 → length rights = 3%nat →
  replace_acl user rights (map repr_acl a) =
    Val (if bool_decide (user ∈ a.*1) then Some (map repr_acl (grant user rights a)) else None).
Proof.
  intros Ha Hnd Hr. unfold grant. induction Ha as [|[u r] a Hok Ha IH]; [done|]. cbn [map replace_acl].
  destruct Hok as (Hw & Hl & Hwr & Hlr). simpl in *. apply NoDup_cons in Hnd as [Hni Hnd].
  rewrite buf_eq_padded by eauto with cstr. run. destruct (decide (u = user)) as [->|Hu].
  - rewrite !bool_decide_eq_true_2 by set_solver. rewrite map_other by done. cbn [map]. unfold repr_acl at 2.
    by rewrite strncpy3.
  - rewrite (bool_decide_eq_false_2 (u = user)), IH by done. run. destruct (decide (user ∈ a.*1)) as [Hin|Hin].
    + rewrite !bool_decide_eq_true_2 by set_solver. done.
    + rewrite !bool_decide_eq_false_2 by set_solver. done.
Qed.

Lemma addAcl_repr user rights d :
  Forall acl_ok (d_acl d) → NoDup (d_acl d).*1 → (length user ≤ 256)%nat → length rights = 3%nat →
  addAcl user rights (repr d) = Val (repr (d_with_acl d (grant user rights (d_acl d)))).
Proof.
  intros Ha Hnd Hu Hr. unfold addAcl. cbn [acl repr]. rewrite replace_acl_repr by done. run.
  unfold grant. case_bool_decide; [done|]. do 2 f_equal. unfold repr. simpl. unfold set_acl. simpl. f_equal. f_equal.
  unfold repr_acl. simpl. f_equal; [|by apply strncpy3]. unfold field256. by apply strncpy_padded.
Qed.

(** *** Tokens of a line *)

Lemma word_no_delim t : word t → Forall (λ c, is_delim c = false) t.
Proof. intros [_ Ht]. eapply Forall_impl; [done|]. by intros c (_ & _ & ? & _)%plain_facts. Qed.

Lemma strtok_word pre t d rest :
  Forall (λ c, is_delim c = true) pre → word t → is_delim d = true →
  strtok is_delim (pre ++ t ++ d :: rest) = (Some t, rest).
Proof. intros Hpre Ht Hd. apply strtok_app; [done|by destruct Ht|by apply word_no_delim|done]. Qed.

Lemma spaced_word t : spaced t → strchr t " "%char = false → word t.
Proof.
  intros [Hne Ht] Hs. split; [done|]. unfold strchr in Hs. simpl in Hs. apply bool_decide_eq_false in Hs.
  rewrite !Forall_forall in *. intros c Hc. destruct (Ht c Hc) as [| ->]; [done|set_solver].
Qed.

Definition tabs (s : list ascii) : Prop := s = [] ∨ s = [TAB].

Lemma read_token_quoted pre t rest :
  tabs pre → spaced t →
  read_token (Some (pre ++ quoted (strchr t " "%char) t ++ TAB :: rest)) =
    (Some t, Some ((if strchr t " "%char then [TAB] else []) ++ rest)).
Proof.
  intros Hpre Ht. assert (Hsp : Forall (λ c, isspace c = true) pre) by (destruct Hpre as [->| ->]; by repeat constructor).
  unfold quoted. destruct (strchr t " "%char) eqn:Hq.
  - unfold read_token. cbn [app].
    rewrite skip_spaces_pre by done. rewrite bool_decide_eq_false_2 by done. cbn [strpbrk]. simpl orb. cbv iota.
    replace (is_quote "'") with true by reflexivity. rewrite bool_decide_eq_true_2 by set_solver.
    rewrite <- app_assoc. cbn [app].
    rewrite (strtok_app _ ["'"%char] t "'"%char (TAB :: rest)); [done| |by destruct Ht| |by rewrite bool_decide_eq_true_2].
    + constructor; [by rewrite bool_decide_eq_true_2|done].
    + destruct Ht as [_ Ht]. eapply Forall_impl; [done|]. intros c [Hc| ->]; [|done].
      apply plain_facts in Hc as (_ & Hc & _). unfold is_quote in Hc. apply orb_false_iff in Hc as [_ Hc]. done.
  - pose proof (spaced_word t Ht Hq) as Hw. unfold read_token.
    pose proof (word_no_delim t Hw) as Hd. destruct Hw as [Hne Hpl]. destruct t as [|c t]; [done|]. cbn [app].
    pose proof (Forall_inv Hpl) as (Hc & _)%plain_facts. rewrite skip_spaces_pre by done.
    rewrite bool_decide_eq_false_2 by done. change (c :: t ++ TAB :: rest) with ((c :: t) ++ TAB :: rest).
    rewrite strpbrk_app; [|eapply Forall_impl; [exact Hpl|]; by intros x (_ & -> & -> & _)%plain_facts|done].
    replace (is_quote TAB) with false by reflexivity.
    assert (strtok is_delim ((c :: t) ++ TAB :: rest) = (Some (c :: t), rest)) as -> by (by apply (strtok_app is_delim [] (c :: t) TAB)). done.
Qed.

Lemma word_no_space t : word t → strchr t " "%char = false.
Proof.
  intros [_ Ht]. unfold strchr. simpl. apply bool_decide_eq_false_2. intros Hin.
  rewrite Forall_forall in Ht. by apply Ht, plain_facts in Hin as (_ & _ & _ & _ & ?).
Qed.

Lemma read_token_word pre t rest :
  tabs pre → word t → read_token (Some (pre ++ t ++ TAB :: rest)) = (Some t, Some rest).
Proof.
  intros Hpre Ht. pose proof (read_token_quoted pre t rest Hpre (word_spaced _ Ht)) as H.
  by rewrite word_no_space in H by done.
Qed.

(** *** Lines *)

Lemma nul_free_quoted q s : spaced s → nul_free (quoted q s).
Proof.
  intros Hs. destruct q; simpl; [|eauto with cstr].
  apply nul_free_cons; [done|]. apply nul_free_app; [eauto with cstr|by apply nul_free_cons; [|apply nul_free_nil]].
Qed.

Lemma gets_line n body s :
  LF ∉ body → (length body < n)%nat → gets n (body ++ LF :: s) = (body ++ [LF], s).
Proof.
  revert n. induction body as [|c body IH]; intros [|n] Hb Hn; simpl in *; try lia; [done|].
  rewrite bool_decide_eq_false_2 by set_solver. by rewrite IH by (set_solver || lia).
Qed.

(** No line feed and no NUL. *)
Definition clean (s : list ascii) : Prop := Forall (λ c, c ≠ LF ∧ c ≠ NUL) s.

Lemma clean_app s t : clean s → clean t → clean (s ++ t).
Proof. intros. by apply Forall_app. Qed.

Lemma clean_spaced s : spaced s → clean s.
Proof.
  intros [_ Hs]. eapply Forall_impl; [done|]. intros c [Hc| ->]; [|done].
  apply plain_facts in Hc as (_ & _ & Hd & Hn & _). split; [|done]. by intros ->.
Qed.

Lemma clean_quoted q s : spaced s → clean (quoted q s).
Proof.
  intros Hs. destruct q; simpl; [|by apply clean_spaced].
  constructor; [done|]. apply clean_app; [by apply clean_spaced|by constructor].
Qed.

Lemma length_quoted q s : (length (quoted q s) ≤ length s + 2)%nat.
Proof. destruct q; simpl; rewrite ?length_app; simpl; lia. Qed.

#[local] Hint Resolve clean_app clean_spaced clean_quoted : cstr.

Section reading.
  Context (umask : Z).

(** Reading the text [s] turns the list [l] into [l']. *)
Definition reads (s : list ascii) (l l' : list wzd_file_t) : Prop :=
  ∀ fuel rest, (length (s ++ rest) < fuel)%nat →
  ∃ fuel', (length rest < fuel')%nat ∧ read_lines umask fuel (s ++ rest) l = read_lines umask fuel' rest l'.

Lemma reads_nil l : reads [] l l.
Proof. intros fuel rest H. by exists fuel. Qed.

Lemma reads_app s1 s2 l1 l2 l3 : reads s1 l1 l2 → reads s2 l2 l3 → reads (s1 ++ s2) l1 l3.
Proof.
  intros H1 H2 fuel rest Hf. rewrite <- app_assoc in *. destruct (H1 fuel (s2 ++ rest) Hf) as (f1 & Hf1 & ->).
  destruct (H2 f1 rest Hf1) as (f2 & Hf2 & ->). by exists f2.
Qed.

Lemma reads_all s l l' : reads s l l' → read_lines umask (S (length s)) s l = Val l'.
Proof.
  intros H. destruct (H (S (length s)) []) as (f & Hf & Hr); [rewrite app_nil_r; lia|].
  rewrite app_nil_r in Hr. rewrite Hr. destruct f; [simpl in Hf; lia|done].
Qed.

(** A line the buffer holds. *)
Lemma reads_line body l l' :
  clean body → (length body < 4000)%nat → read_line umask (body ++ [LF]) l = Val l' →
  reads (out_line (body ++ [LF])) l l'.
Proof.
  intros Hcl Hlen Hl fuel rest Hf.
  assert ((LF ∉ body) ∧ nul_free body) as [Hb Hnf].
  { unfold clean in Hcl. rewrite Forall_forall in Hcl. split; intros Hin; by apply Hcl in Hin as []. } unfold out_line in *. rewrite take_ge in * by (rewrite length_app; cbn [length]; unfold BUFFER_LEN; lia).
  rewrite cstring_id in * by (apply nul_free_app; [done|solve_nul_free]). rewrite <- app_assoc in *. cbn [app] in *.
  destruct fuel as [|fuel]; [lia|]. exists fuel. rewrite length_app in Hf. simpl in Hf. split; [lia|].
  cbn [read_lines]. unfold wzd_cache_gets. destruct (body ++ LF :: rest) as [|c s'] eqn:E; [by destruct body|].
  rewrite <- E, gets_line; [|done|unfold BUFFER_LEN; lia]. by rewrite Hl.
Qed.

(** The tokens every line starts with. *)
Lemma read_line_tokens kw name t3 t4 d tail l :
  word kw → spaced name → spaced t3 → word t4 → is_delim d = true → nul_free tail →
  read_line umask (kw ++ TAB :: quoted (strchr name " "%char) name ++ TAB :: quoted (strchr t3 " "%char) t3
                   ++ TAB :: t4 ++ d :: tail) l
  = read_entry umask kw name t3 t4 (Some tail) l.
Proof.
  intros Hk Hn H3 H4 Hd Ht. unfold read_line. rewrite cstring_id.
  2: { assert (Hdn : d ≠ NUL) by (by intros ->). apply nul_free_app; [eauto with cstr|]. apply nul_free_cons; [done|].
       apply nul_free_app; [by apply nul_free_quoted|]. apply nul_free_cons; [done|].
       apply nul_free_app; [by apply nul_free_quoted|]. apply nul_free_cons; [done|].
       apply nul_free_app; [eauto with cstr|]. by apply nul_free_cons. }
  rewrite (strtok_word [] kw TAB _ ltac:(constructor) Hk eq_refl : strtok is_delim (kw ++ TAB :: _) = _).
  pose proof (read_token_quoted [] name (quoted (strchr t3 " "%char) t3 ++ TAB :: t4 ++ d :: tail) (or_introl eq_refl) Hn) as H.
  cbn [app] in H. rewrite H. rewrite read_token_quoted; [|by destruct (strchr _ _); [right|left]|done].
  unfold strtok_next. run. rewrite strtok_word; [done| |done|done]. destruct (strchr t3 _); by repeat constructor.
Qed.

Lemma by_name_absent name l : name ∉ d_name <$> l → by_name name l = None.
Proof.
  intros H. apply list_find_None, Forall_forall. intros d Hd Hn. apply H. apply list_elem_of_fmap. by exists d.
Qed.

Lemma by_name_last l d : d_name d ∉ d_name <$> l → by_name (d_name d) (l ++ [d]) = Some (length l, d).
Proof.
  intros H. unfold by_name. rewrite list_find_app_r by (by apply by_name_absent). simpl.
  by rewrite decide_True by done.
Qed.

Lemma new_file_repr name : (length name ≤ 256)%nat → new_file umask name None None = repr (mkD name [] [] umask [] None).
Proof. intros Hn. unfold new_file, repr, field256. simpl. by rewrite strncpy_padded by done. Qed.

Lemma map_repr_snoc l d : map repr l ++ [repr d] = map repr (l ++ [d]).
Proof. by rewrite map_app. Qed.

Lemma insert_repr l i d : <[i := repr d]> (map repr l) = map repr (<[i := d]> l).
Proof. symmetry. apply (list_fmap_insert repr). Qed.

Lemma insert_snoc {A} (l : list A) x y : <[length l := y]> (l ++ [x]) = l ++ [y].
Proof. rewrite <- (Nat.add_0_r (length l)) at 1. by rewrite insert_app_r. Qed.

Lemma lookup_snoc {A} (l : list A) x : (l ++ [x]) !! length l = Some x.
Proof. by rewrite lookup_app_r, Nat.sub_diag by lia. Qed.

Lemma octal_word v : word (octal v).
Proof.
  unfold octal. destruct (print_digits 8 22 v []) as (s & -> & Hs & _ & Hne); [lia|]. rewrite app_nil_r.
  split; [by apply Hne|]. eapply Forall_impl; [done|]. intros c [H _]%andb_prop. revert c H. all_chars.
Qed.

Lemma octal_length v : (length (octal v) ≤ 22)%nat.
Proof. unfold octal. destruct (print_digits 8 22 v []) as (s & -> & _ & Hl & _); [lia|]. by rewrite app_nil_r. Qed.

Lemma read_permissions_octal v f : 0 ≤ v < 2 ^ 64 → read_permissions umask (Some (octal v)) f = set_permissions f v.
Proof.
  intros Hv. unfold read_permissions. pose proof (octal_word v) as [Hne _]. unfold octal in *.
  rewrite strtoul_print by (try done; unfold ULONG_MAX; lia). by rewrite bool_decide_eq_false_2 by auto.
Qed.

(** A structure whose fields are overwritten. *)
Lemma set_fields_repr d o g :
  (length (d_owner d) ≤ 256)%nat → (length (d_group d) ≤ 256)%nat → (length o ≤ 256)%nat → (length g ≤ 256)%nat →
  set_group (set_owner (repr d) o) g = repr (mkD (d_name d) o g (d_perms d) (d_acl d) (d_link d)).
Proof.
  intros. unfold set_group, set_owner, repr. simpl. by rewrite !strncpy_padded by (rewrite ?length_padded; done).
Qed.

Lemma read_owner l name own grp v :
  Forall (dfile_ok umask) l → name ∉ d_name <$> l → (length name < 256)%nat → (length own < 256)%nat →
  (length grp < 256)%nat → 0 ≤ v < 2 ^ 64 →
  read_entry umask (str "owner") name own grp (Some (octal v ++ [LF])) (map repr l)
  = Val (map repr (l ++ [mkD name own grp v [] None])).
Proof.
  intros Hl Hn Hln Hlo Hlg Hv. unfold read_entry, find_file. rewrite (find_file_repr umask), by_name_absent by done. run.
  cbn [fmap option_fmap option_map]. unfold add_new_file. rewrite lookup_snoc. run.
  replace (streq (str "owner") (str "owner")) with true by reflexivity.
  unfold strtok_next. run. rewrite (strtok_word [] (octal v) LF [] ltac:(constructor) (octal_word v) eq_refl : strtok _ (octal v ++ [LF]) = _). run.
  rewrite read_permissions_octal by done. rewrite insert_snoc, new_file_repr by lia.
  by rewrite set_fields_repr, map_app by (simpl; lia).
Qed.

Lemma read_link l name dat own grp v :
  Forall (dfile_ok umask) l → name ∉ d_name <$> l → (length name < 256)%nat → (length own < 256)%nat →
  (length grp < 256)%nat → word grp → 0 ≤ v < 2 ^ 64 →
  read_entry umask (str "link") name dat own (Some (grp ++ TAB :: octal v ++ [LF])) (map repr l)
  = Val (map repr (l ++ [mkD name own grp v [] (Some dat)])).
Proof.
  intros Hl Hn Hln Hlo Hlg Hg Hv. unfold read_entry, find_file. rewrite (find_file_repr umask), by_name_absent by done. run.
  cbn [fmap option_fmap option_map]. unfold add_new_file. rewrite lookup_snoc. run.
  replace (streq (str "link") (str "owner")) with false by reflexivity.
  replace (streq (str "link") (str "perm")) with false by reflexivity.
  replace (streq (str "link") (str "link")) with true by reflexivity.
  unfold strtok_next. run. rewrite (strtok_word [] grp TAB _ ltac:(constructor) Hg eq_refl : strtok _ (grp ++ TAB :: _) = _). run.
  rewrite (strtok_word [] (octal v) LF [] ltac:(constructor) (octal_word v) eq_refl : strtok _ (octal v ++ [LF]) = _). run.
  rewrite read_permissions_octal by done. rewrite insert_snoc, new_file_repr by lia.
  change (set_link (repr (mkD name [] [] umask [] None)) dat) with (repr (mkD name [] [] umask [] (Some dat))).
  by rewrite set_fields_repr, map_app by (simpl; lia).
Qed.

Lemma read_perm_next l d user rights :
  Forall (dfile_ok umask) (l ++ [d]) → d_name d ∉ d_name <$> l → (length user ≤ 256)%nat → length rights = 3%nat →
  read_entry umask (str "perm") (d_name d) user rights (Some []) (map repr (l ++ [d]))
  = Val (map repr (l ++ [d_with_acl d (grant user rights (d_acl d))])).
Proof.
  intros Hl Hn Hu Hr. unfold read_entry, find_file. rewrite (find_file_repr umask), by_name_last by done. run.
  cbn [fmap option_fmap option_map fst Nat.add]. rewrite map_app. cbn [map].
  rewrite <- (length_map repr l), lookup_snoc. run.
  replace (streq (str "perm") (str "owner")) with false by reflexivity.
  replace (streq (str "perm") (str "perm")) with true by reflexivity.
  apply Forall_app in Hl as [_ Hd]. apply Forall_inv in Hd.
  rewrite addAcl_repr; [|by eapply do_acl|by eapply do_users|done|done]. run. by rewrite insert_snoc, map_app.
Qed.

Lemma read_perm_first l name user rights :
  Forall (dfile_ok umask) l → name ∉ d_name <$> l → (length name < 256)%nat → (length user ≤ 256)%nat → length rights = 3%nat →
  read_entry umask (str "perm") name user rights (Some []) (map repr l)
  = Val (map repr (l ++ [mkD name [] [] umask [(user, rights)] None])).
Proof.
  intros Hl Hn Hln Hu Hr. unfold read_entry, find_file. rewrite (find_file_repr umask), by_name_absent by done. run.
  cbn [fmap option_fmap option_map]. unfold add_new_file. rewrite lookup_snoc. run.
  replace (streq (str "perm") (str "owner")) with false by reflexivity.
  replace (streq (str "perm") (str "perm")) with true by reflexivity.
  rewrite new_file_repr by lia. rewrite addAcl_repr by (done || constructor). run. by rewrite insert_snoc, map_app.
Qed.

Ltac clean_line := repeat apply clean_app; eauto using octal_word with cstr; by repeat constructor.
Ltac token_side := first [done | by repeat constructor | by eauto with cstr |
  by repeat first [apply nul_free_app|apply nul_free_cons|apply nul_free_nil]; eauto using octal_word with cstr].

Lemma reads_owner l name own grp v :
  Forall (dfile_ok umask) l → name ∉ d_name <$> l → spaced name → word own → word grp →
  (length name < 256)%nat → (length own < 256)%nat → (length grp < 256)%nat → 0 ≤ v < 2 ^ 64 →
  reads (out_line (owner_line name own grp v)) (map repr l) (map repr (l ++ [mkD name own grp v [] None])).
Proof.
  intros Hl Hn Hsp Ho Hg Hln Hlo Hlg Hv. unfold owner_line. rewrite !app_assoc. apply reads_line.
  - clean_line.
  - pose proof (length_quoted (strchr name " "%char) name). pose proof (octal_length v). rewrite !length_app. simpl. lia.
  - rewrite <- !app_assoc. cbn [app]. rewrite <- (read_owner l name own grp v) by done.
    rewrite <- (read_line_tokens _ _ _ _ TAB) by token_side. by rewrite (word_no_space own).
Qed.

Lemma reads_link l name dat own grp v :
  Forall (dfile_ok umask) l → name ∉ d_name <$> l → word name → spaced dat → (length dat < 2048)%nat → word own → word grp →
  (length name < 256)%nat → (length own < 256)%nat → (length grp < 256)%nat → 0 ≤ v < 2 ^ 64 →
  reads (out_line (link_line name dat own grp v)) (map repr l) (map repr (l ++ [mkD name own grp v [] (Some dat)])).
Proof.
  intros Hl Hn Hw Hsp Hld Ho Hg Hln Hlo Hlg Hv. unfold link_line. rewrite !app_assoc. apply reads_line.
  - clean_line.
  - pose proof (length_quoted (strchr dat " "%char) dat). pose proof (octal_length v). rewrite !length_app. simpl. lia.
  - rewrite <- !app_assoc. cbn [app]. rewrite <- (read_link l name dat own grp v) by done.
    rewrite <- (read_line_tokens _ _ _ _ TAB) by token_side. by rewrite (word_no_space name).
Qed.

Lemma reads_perm l l' name user rights :
  spaced name → word user → word rights → (length name < 256)%nat → (length user < 256)%nat → length rights = 3%nat →
  read_entry umask (str "perm") name user rights (Some []) l = Val l' →
  reads (out_line (perm_line name user rights)) l l'.
Proof.
  intros Hsp Hu Hr Hln Hlu Hlr Hre. unfold perm_line. rewrite !app_assoc. apply reads_line.
  - clean_line.
  - pose proof (length_quoted (strchr name " "%char) name). rewrite !length_app. simpl. lia.
  - rewrite <- !app_assoc. cbn [app]. rewrite <- Hre.
    rewrite <- (read_line_tokens _ _ _ _ LF) by token_side. by rewrite (word_no_space user).
Qed.

Definition acl_text (name : list ascii) (a : list (list ascii * list ascii)) : list ascii :=
  concat (map (λ p, out_line (perm_line name p.1 p.2)) a).

Lemma write_acl_repr name a : Forall acl_ok a → write_acl name (map repr_acl a) = Val (acl_text name a).
Proof.
  induction 1 as [|[u r] a (Hu & Hlu & Hr & Hlr) Ha IH]; [done|]. cbn [map write_acl]. cbn [fst snd] in *.
  unfold repr_acl at 1 3. cbn [acl_user acl_perms fst snd].
  rewrite buf_str_padded by eauto with cstr. run. rewrite IH. run. by rewrite take_ge by lia.
Qed.

Lemma dfile_ok_acl d a :
  dfile_ok umask d → d_link d = None → Forall acl_ok a → NoDup a.*1 → a ≠ [] → dfile_ok umask (d_with_acl d a).
Proof.
  intros [H1 H2 H3 H4 _ _ Hk] Hlk Ha Hnd Hne. rewrite Hlk in Hk. split; try done. simpl. rewrite Hlk. naive_solver.
Qed.

Lemma reads_acls a l d :
  Forall (dfile_ok umask) (l ++ [d]) → d_name d ∉ d_name <$> l → d_link d = None →
  Forall acl_ok a → NoDup (a ++ d_acl d).*1 →
  reads (acl_text (d_name d) a) (map repr (l ++ [d])) (map repr (l ++ [d_with_acl d (rev a ++ d_acl d)])).
Proof.
  intros Hl Hn Hlk Ha. revert d Hl Hn Hlk. induction Ha as [|[u r] a (Hu & Hlu & Hr & Hlr) Ha IH]; intros d Hl Hn Hlk Hnd.
  { simpl. unfold d_with_acl. destruct d. apply reads_nil. }
  apply Forall_app in Hl as Hl'. destruct Hl' as [Hl0 Hd]. apply Forall_inv in Hd.
  cbn [acl_text map concat]. cbn [fst snd] in *. rewrite <- app_comm_cons, fmap_cons in Hnd. apply NoDup_cons in Hnd as [Hni Hnd].
  rewrite fmap_app in Hni, Hnd. cbn [fst] in Hni. apply not_elem_of_app in Hni as [Hna Hnb]. pose proof Hnd as (_ & Hdisj & Hndb)%NoDup_app.
  assert (Hg : grant u r (d_acl d) = (u, r) :: d_acl d) by (unfold grant; by rewrite bool_decide_eq_false_2).
  assert (Hok : dfile_ok umask (d_with_acl d ((u, r) :: d_acl d))).
  { apply dfile_ok_acl; [done|done| |simpl; by constructor|done]. constructor; [done|by eapply do_acl]. }
  eapply reads_app.
  - apply (reads_perm _ (map repr (l ++ [d_with_acl d ((u, r) :: d_acl d)]))); try done.
    + pose proof (do_kind _ _ Hd) as Hk. rewrite Hlk in Hk. tauto.
    + by eapply do_name.
    + rewrite <- Hg. cbn [fst snd]. by apply read_perm_next; [|done|lia|].
  - cbn [rev]. rewrite <- app_assoc. apply (IH (d_with_acl d ((u, r) :: d_acl d))); [|done|done|].
    + apply Forall_app. split; [done|by constructor].
    + rewrite fmap_app. simpl. apply NoDup_app. apply NoDup_app in Hnd as (? & ? & ?).
      split_and!; [done|set_solver|by constructor].
Qed.

(** New lines of an access list come first: reading reverses it. *)
Definition flip (d : dfile) : dfile := d_with_acl d (rev (d_acl d)).

Lemma acls_from_empty l d :
  Forall (dfile_ok umask) l → dfile_ok umask d → d_name d ∉ d_name <$> l → d_link d = None → word (d_owner d) → word (d_group d) →
  reads (acl_text (d_name d) (d_acl d)) (map repr (l ++ [d_with_acl d []])) (map repr (l ++ [flip d])).
Proof.
  intros Hl Hd Hn Hlk Ho Hg. pose proof (reads_acls (d_acl d) l (d_with_acl d [])) as H. simpl in H.
  rewrite !app_nil_r in H. apply H; [|done|done|by eapply do_acl|by eapply do_users].
  apply Forall_app. split; [done|]. constructor; [|done]. destruct Hd as [H1 H2 H3 H4 _ _ Hk]. rewrite Hlk in Hk.
  split; try done; try constructor; cbn [d_link d_with_acl]. rewrite Hlk. split; [tauto|by left].
Qed.

Lemma write_file_reads l d :
  Forall (dfile_ok umask) l → dfile_ok umask d → d_name d ∉ d_name <$> l →
  ∃ s, write_file (repr d) = Val s ∧ reads s (map repr l) (map repr (l ++ [flip d])).
Proof.
  intros Hl Hd Hn. pose proof (dfile_ok_nul_free _ _ Hd) as (Hnn & Hno & Hng). pose proof Hd as [Hln Hlo Hlg Hv Ha Hu Hk].
  unfold write_file. cbn [filename owner group kind data acl permissions repr].
  rewrite !buf_str_padded by done. run. destruct (d_link d) as [t|] eqn:Hlk.
  - rewrite bool_decide_eq_true_2 by done. run. destruct Hk as (Hw & Hst & Hlt & Hwo & Hwg & Hna).
    eexists. split; [done|]. destruct d. simpl in *. subst. by apply reads_link.
  - rewrite bool_decide_eq_false_2 by done. rewrite write_acl_repr by done. run. eexists. split; [done|].
    destruct Hk as [Hsp [[Hwo Hwg]|(Ho & Hg & Hp & Hne)]].
    + replace (_ || _) with true by (destruct Hwo; by destruct (d_owner d)). eapply reads_app; [|by apply acls_from_empty].
      replace (d_with_acl d []) with (mkD (d_name d) (d_owner d) (d_group d) (d_perms d) [] None) by (by destruct d; simpl in *; subst).
      by apply reads_owner.
    + rewrite Ho, Hg. replace (_ || _) with false by done. cbn [app].
      destruct d as [nm o g v [|[u r] a] lk]; cbn [d_name d_owner d_group d_perms d_acl d_link] in *; [done|]. subst.
      apply Forall_cons in Ha as [(Hu1 & Hlu & Hr & Hlr) Ha]. rewrite fmap_cons in Hu. apply NoDup_cons in Hu as [Hni Hu].
      cbn [fst snd] in *. unfold acl_text. cbn [map concat]. fold (acl_text nm a).
      eapply reads_app; [apply reads_perm; try done; apply read_perm_first; (done || cbn [fst]; lia)|].
      apply (reads_acls a l (mkD nm [] [] umask [(u, r)] None)); try done.
      * apply Forall_app. split; [done|]. constructor; [|done].
        split; simpl; try done; try lia; [by constructor|constructor; [set_solver|constructor]|split; [done|by right]].
      * rewrite fmap_app. apply NoDup_app. split_and!; [done|set_solver|repeat constructor; set_solver].
Qed.

Lemma dfile_ok_flip d : dfile_ok umask d → dfile_ok umask (flip d).
Proof.
  intros [H1 H2 H3 H4 H5 H6 Hk]. split; try done; unfold flip; cbn [d_acl d_with_acl d_link d_name d_owner d_group d_perms].
  - by apply Forall_rev.
  - by rewrite <- Permutation_rev.
  - destruct (d_link d); [destruct Hk as (?&?&?&?&?& ->)|destruct Hk as [? [?|(?&?&?&Hne)]]]; [done|by auto|].
    split; [done|]. right. split_and!; [done..|]. intros Hr%(f_equal (@rev _)). by rewrite rev_involutive in Hr.
Qed.

Lemma write_files_reads k l :
  Forall (dfile_ok umask) (l ++ k) → NoDup (d_name <$> l ++ k) →
  ∃ s, write_files (map repr k) = Val s ∧ reads s (map repr l) (map repr (l ++ map flip k)).
Proof.
  revert l. induction k as [|d k IH]; intros l Hok Hnd; cbn [map write_files].
  { exists []. rewrite app_nil_r. split; [done|apply reads_nil]. }
  apply Forall_app in Hok as Hok'. destruct Hok' as [Hl [Hd Hk]%Forall_cons].
  assert (Hn : d_name d ∉ d_name <$> l).
  { rewrite fmap_app in Hnd. apply NoDup_app in Hnd as (_ & Hd' & _). intros Hin. apply (Hd' _ Hin). set_solver. }
  destruct (write_file_reads l d Hl Hd Hn) as (s & -> & Hs). run.
  destruct (IH (l ++ [flip d])) as (s' & -> & Hs').
  - rewrite <- app_assoc. apply Forall_app. split; [done|]. constructor; [by apply dfile_ok_flip|done].
  - rewrite <- app_assoc. by rewrite !fmap_app in *.
  - run. exists (s ++ s'). split; [done|]. eapply reads_app; [done|]. by rewrite <- app_assoc in Hs'.
Qed.

(** Writing a list and reading it back. *)
Lemma write_then_read disk permfile k :
  Forall (dfile_ok umask) k → NoDup (d_name <$> k) → k ≠ [] →
  ∃ s, writePermFile true disk permfile (map repr k) = Val (0, <[permfile := s]> disk) ∧
    readPermFile umask (<[permfile := s]> disk) permfile [] = Val (E_OK, map repr (map flip k)).
Proof.
  intros Hok Hnd Hne. destruct (write_files_reads k [] Hok Hnd) as (s & Hs & Hr). exists s.
  unfold writePermFile. destruct (map repr k) as [|f fs] eqn:E; [by destruct k|]. cbn [negb]. rewrite Hs. split; [done|].
  unfold readPermFile. rewrite lookup_insert_eq. by rewrite (reads_all s [] _ Hr).
Qed.

End reading.

(** ** Decisions *)

Lemma land_pow2 p k : 0 ≤ k → Z.land p (2 ^ k) = if Z.testbit p k then 2 ^ k else 0.
Proof.
  intros Hk. apply Z.bits_inj'. intros i Hi. rewrite Z.land_spec, Z.pow2_bits_eqb by done.
  destruct (Z.eqb_spec k i) as [->|Hne].
  - rewrite andb_true_r. destruct (Z.testbit p i); [by rewrite Z.pow2_bits_true|by rewrite Z.bits_0].
  - rewrite andb_false_r. destruct (Z.testbit p k); [by rewrite Z.pow2_bits_false|by rewrite Z.bits_0].
Qed.

(** The bit of the permissions a right needs: read, write or search. *)
Definition right_bit (wanted_right : Z) : option Z :=
  if (wanted_right =? RIGHT_LIST) || (wanted_right =? RIGHT_RETR) then Some 2
  else if modifies wanted_right then Some 1
  else if wanted_right =? RIGHT_CWD then Some 0
  else None.

(** The bits of the owner, the group or the others apply. *)
Definition class_shift (name : list ascii) (gnames : list (list ascii)) (d : dfile) : Z :=
  if bool_decide (name = d_owner d) then 6 else if bool_decide (d_group d ∈ gnames) then 3 else 0.

Definition mode_grants (name : list ascii) (gnames : list (list ascii)) (d : dfile) (wanted_right : Z) : bool :=
  match right_bit wanted_right with
  | Some k => Z.testbit (d_perms d) (class_shift name gnames d + k)
  | None => false
  end.

(** The letter of the access list a right needs; entering and listing are rights
    on the directory itself, and no letter gives [RIGHT_MKDIR] or [RIGHT_RMDIR]. *)
Definition acl_letter (is_dir : bool) (wanted_right : Z) : option (nat * ascii) :=
  if wanted_right =? RIGHT_RETR then Some (0%nat, "r"%char)
  else if (wanted_right =? RIGHT_STOR) || (wanted_right =? RIGHT_RNFR) then Some (1%nat, "w"%char)
  else if is_dir && (wanted_right =? RIGHT_CWD) then Some (2%nat, "x"%char)
  else if is_dir && (wanted_right =? RIGHT_LIST) then Some (0%nat, "r"%char)
  else None.

Definition acl_grants (rights : list ascii) (is_dir : bool) (wanted_right : Z) : bool :=
  match acl_letter is_dir wanted_right with
  | Some (i, c) => bool_decide (rights !! i = Some c)
  | None => false
  end.

(** The line of the user decides, if there is one. *)
Definition file_grants (name : list ascii) (gnames : list (list ascii)) (d : dfile) (is_dir : bool) (wanted_right : Z) : bool :=
  match acl_of name (d_acl d) with
  | Some rights => acl_grants rights is_dir wanted_right
  | None => mode_grants name gnames d wanted_right
  end.

Lemma in_group_spec ch ca w u d n i gnames :
  reg_wf (w_groups w) → 0 < r_max (w_groups w) → nul_free (d_group d) → (length (d_group d) < 256)%nat →
  group_names w (take n (drop i (groups u))) gnames → (i + n ≤ length (groups u))%nat →
  in_group (Some (plaintext ch ca)) n i u w (repr d) = Val (bool_decide (d_group d ∈ gnames)).
Proof.
  intros Hwg Hm Hd Hld. revert i gnames. induction n as [|n IH]; intros i gnames Hg Hlen; cbn [in_group].
  - apply Forall2_nil_inv_l in Hg as ->. by rewrite bool_decide_eq_false_2 by set_solver.
  - destruct (lookup_lt_is_Some_2 (groups u) i) as [g Hi]; [lia|]. rewrite (drop_S _ _ _ Hi) in Hg. simpl in Hg.
    apply Forall2_cons_inv_l in Hg as (name & gnames' & (a & gr & Ha & Hgr & Hname & Hnf & Hln) & Hrest & ->).
    rewrite Hi. run. rewrite (get_group_registered ch ca w g a) by done.
    replace (r_max (w_groups w) =? 0) with false by (symmetry; lia). cbn [mbind outcome_mbind as_struct deref].
    rewrite Hgr. run. rewrite Hname, buf_str_padded by done. run. cbn [group repr].
    rewrite buf_eq_padded by done. run. destruct (decide (d_group d = name)) as [->|Hne].
    + rewrite !bool_decide_eq_true_2 by set_solver. done.
    + rewrite (bool_decide_eq_false_2 (d_group d = name)) by done. rewrite (IH (S i) gnames') by (done || lia). f_equal.
      apply bool_decide_ext. set_solver.
Qed.

Lemma mode_test_bits sh wanted p :
  0 ≤ sh →
  lnot (mode_test (2 ^ (sh + 2)) (2 ^ (sh + 1)) (2 ^ (sh + 0)) wanted p) =
    if match right_bit wanted with Some k => Z.testbit p (sh + k) | None => false end then 0 else 1.
Proof.
  intros Hsh. unfold mode_test, right_bit, lnot. fold (modifies wanted). rewrite !land_pow2 by lia.
  assert (H : ∀ k, 0 ≤ k → (if (if Z.testbit p k then 2 ^ k else 0) =? 0 then 1 else 0) = if Z.testbit p k then 0 else 1).
  { intros k Hk. destruct (Z.testbit p k); [|done]. pose proof (Z.pow_pos_nonneg 2 k). by replace (2 ^ k =? 0) with false by lia. }
  destruct ((wanted =? RIGHT_LIST) || (wanted =? RIGHT_RETR)); [apply H; lia|].
  destruct (modifies wanted); [apply H; lia|]. destruct (wanted =? RIGHT_CWD); [apply H; lia|done].
Qed.

Lemma lacks_spec rights i c :
  (i < length rights)%nat → lacks rights i c = Val (if bool_decide (rights !! i = Some c) then 0 else 1).
Proof.
  intros Hi. unfold lacks. destruct (lookup_lt_is_Some_2 rights i Hi) as [x Hx]. rewrite Hx. run. f_equal.
  destruct (decide (x = c)) as [->|Hne]; [by rewrite !bool_decide_eq_true_2|].
  rewrite !bool_decide_eq_false_2; [done|by intros [=]|done].
Qed.

(** The result is 0 exactly when the right is granted. *)
Definition decides (r : Z) (g : bool) : Prop := if g then r = 0 else r ≠ 0.

Lemma acl_test_spec rights is_dir wanted :
  length rights = 3%nat → ∃ r, acl_test is_dir rights wanted = Val r ∧ decides r (acl_grants rights is_dir wanted).
Proof.
  intros Hr. assert (H : ∀ i c, (i < 3)%nat → ∃ r, lacks rights i c = Val r ∧ decides r (bool_decide (rights !! i = Some c))).
  { intros i c Hi. rewrite lacks_spec by lia. eexists. split; [done|]. by case_bool_decide. }
  unfold acl_test, acl_grants, acl_letter.
  destruct (wanted =? RIGHT_RETR); [apply H; lia|]. destruct (wanted =? RIGHT_STOR); [apply H; lia|]. cbn [orb].
  destruct (Z.eqb_spec wanted RIGHT_CWD) as [->|Hc].
  { replace (RIGHT_CWD =? RIGHT_RNFR) with false by done. destruct is_dir; [apply H; lia|by exists (-1)]. }
  destruct (Z.eqb_spec wanted RIGHT_LIST) as [->|Hl].
  { replace (RIGHT_LIST =? RIGHT_RNFR) with false by done. destruct is_dir; [apply H; lia|by exists (-1)]. }
  destruct (wanted =? RIGHT_RNFR); [apply H; lia|]. destruct is_dir; by exists (-1).
Qed.

Lemma check_listed_spec ch ca umask w u name fl gnames d file wanted :
  reg_wf (w_groups w) → 0 < r_max (w_groups w) → perm_user u w name fl gnames → dfile_ok umask d →
  ∃ r, check_listed (Some (plaintext ch ca)) (repr d) file wanted u w = Val r ∧
    decides r (file_grants name gnames d (streq file (str ".")) wanted).
Proof.
  intros Hwg Hm [Hn Hf Hnum Hg] Hd. pose proof (dfile_ok_nul_free _ _ Hd) as (_ & Hno & Hng).
  unfold check_listed. rewrite Hn. run. unfold find_acl. cbn [acl repr]. rewrite find_acl_repr by (by eapply do_acl). run.
  unfold file_grants, acl_of. pose proof (do_acl _ _ Hd) as Ha.
  destruct (List.find _ (d_acl d)) as [[us r]|] eqn:E; cbn [fmap option_fmap option_map snd].
  - apply acl_test_spec. apply find_some in E as [Hin _]. rewrite Forall_forall in Ha.
    by apply list_elem_of_In, Ha in Hin as (_ & _ & _ & ?).
  - cbn [owner repr]. rewrite buf_eq_padded by (done || by eapply do_owner). run.
    assert (Hdec : ∀ g : bool, decides (if g then 0 else 1) g) by (by intros []).
    unfold mode_grants, class_shift.
    destruct (decide (name = d_owner d)) as [->|Ho].
    { rewrite !bool_decide_eq_true_2 by done. eexists. split; [done|]. rewrite (mode_test_bits 6) by lia. apply Hdec. }
    rewrite !(bool_decide_eq_false_2 (_ = _)) by congruence.
    rewrite (in_group_spec ch ca w u d _ _ gnames) by (done || by eapply do_group). run.
    case_bool_decide; (eexists; split; [done|]); [rewrite (mode_test_bits 3) by lia|rewrite (mode_test_bits 0) by lia]; apply Hdec.
Qed.

(** The permission file [p] holds the files [l]; a missing file holds none. *)
Definition holds (umask : Z) (disk : permdisk) (p : list ascii) (l : list dfile) : Prop :=
  Forall (dfile_ok umask) l ∧ NoDup (d_name <$> l) ∧
  match disk !! p with
  | None => l = []
  | Some _ => readPermFile umask disk p [] = Val (E_OK, map repr l)
  end.

Lemma holds_read umask disk p l :
  holds umask disk p l → ∃ ret, readPermFile umask disk p [] = Val (ret, map repr l) ∧ (ret ≠ E_OK → l = []).
Proof.
  intros (_ & _ & H). unfold readPermFile in *. destruct (disk !! p); [by exists E_OK|]. subst. by exists E_FILE_NOEXIST.
Qed.

(** ** Changes *)

Definition changed (o g : list ascii) (granted : option (list ascii * list ascii)) (perms : Z) (d : dfile) : dfile :=
  mkD (d_name d) o g (if perms =? no_perms then d_perms d else perms)
    (match granted with Some (u, r) => grant u r (d_acl d) | None => d_acl d end) (d_link d).

(** The list with the file of this name changed, or added. *)
Definition set_dfile (umask : Z) (name o g : list ascii) (granted : option (list ascii * list ascii)) (perms : Z) (l : list dfile)
    : list dfile :=
  match by_name name l with
  | Some (i, d) => <[i := changed o g granted perms d]> l
  | None => l ++ [changed o g granted perms (mkD name [] [] umask [] None)]
  end.

Lemma grant_ok user rights a :
  Forall acl_ok a → NoDup a.*1 → acl_ok (user, rights) → Forall acl_ok (grant user rights a) ∧ NoDup (grant user rights a).*1.
Proof.
  intros Ha Hnd Hok. unfold grant. case_bool_decide as Hin.
  - split.
    + apply Forall_fmap. eapply Forall_impl; [done|]. intros p Hp. simpl. by case_bool_decide.
    + replace ((map _ a).*1) with (a.*1); [done|]. clear. induction a as [|p a IH]; [done|]. cbn [map].
      rewrite !fmap_cons, <- IH. f_equal. by case_bool_decide.
  - split; [by constructor|]. rewrite fmap_cons. by constructor.
Qed.

(** A file that is not a link, with any owner. *)
Record changeable (umask : Z) (d : dfile) : Prop := {
  ch_name : spaced (d_name d) ∧ (length (d_name d) < 256)%nat;
  ch_lens : (length (d_owner d) < 256)%nat ∧ (length (d_group d) < 256)%nat;
  ch_perms : 0 ≤ d_perms d < 2 ^ 64;
  ch_acl : Forall acl_ok (d_acl d) ∧ NoDup (d_acl d).*1;
  ch_link : d_link d = None }.

Lemma dfile_ok_changeable umask d : dfile_ok umask d → d_link d = None → changeable umask d.
Proof. intros [H1 H2 H3 H4 H5 H6 Hk] Hl. rewrite Hl in Hk. split; try done; tauto. Qed.

Lemma default_field_set n s t : s ≠ [] → nul_free s → default_field (padded n s) t = padded n s.
Proof.
  intros Hne Hs. destruct s as [|c s]; [done|]. unfold padded. cbn [app default_field].
  rewrite bool_decide_eq_false_2; [done|]. intros ->. solve_nul_free.
Qed.

Section change.
  Context (umask : Z) (o g : list ascii) (granted : option (list ascii * list ascii)) (perms : Z).
  Context (Ho : word o) (Hlo : (length o < 256)%nat) (Hg : word g) (Hlg : (length g < 256)%nat)
          (Hgr : from_option acl_ok True granted) (Hp : perms = no_perms ∨ 0 ≤ perms < 2 ^ 64).

Lemma changed_ok d : changeable umask d → dfile_ok umask (changed o g granted perms d).
Proof using All.
  intros [[H1 H2] [H3 H4] H5 [H6 H7] H8].
  assert (Forall acl_ok (d_acl (changed o g granted perms d)) ∧ NoDup (d_acl (changed o g granted perms d)).*1) as [Ha Hn].
  { simpl. destruct granted as [[u r]|]; [by apply grant_ok|done]. }
  split; try done; cbn [d_name d_owner d_group d_perms d_link changed].
  - destruct (Z.eqb_spec perms no_perms); [done|]. by destruct Hp.
  - rewrite H8. split; [done|by left].
Qed.

Lemma change_repr d :
  changeable umask d →
  (f ← match granted with
       | Some (u, r) => addAcl u r (set_owner_group (Some o) (Some g) (repr d))
       | None => Val (set_owner_group (Some o) (Some g) (repr d))
       end;
   Val (if perms =? no_perms then f else set_permissions f perms))
  = Val (repr (changed o g granted perms d)).
Proof using All.
  intros [[H1 H2] [H3 H4] H5 [H6 H7] H8].
  assert (set_owner_group (Some o) (Some g) (repr d) = repr (mkD (d_name d) o g (d_perms d) (d_acl d) (d_link d))) as ->.
  { unfold set_owner_group, set_owner, set_group, repr. simpl.
    rewrite !strncpy_padded by (rewrite ?length_padded; lia).
    pose proof Ho as [Hno _]. pose proof Hg as [Hng _]. by rewrite !default_field_set by eauto with cstr. }
  destruct granted as [[u r]|].
  - destruct Hgr as (Hu & Hlu & Hr & Hlr). rewrite addAcl_repr by (done || simpl in *; lia). run. unfold changed, d_with_acl. simpl.
    by destruct (perms =? no_perms).
  - run. unfold changed. by destruct (perms =? no_perms).
Qed.

End change.

Lemma strrchr_slash_none base : SLASH ∉ base → strrchr_slash base = None.
Proof.
  induction base as [|c base IH]; intros H; simpl; [done|]. rewrite IH by set_solver.
  by rewrite bool_decide_eq_false_2 by set_solver.
Qed.

Lemma strrchr_slash_app dir base : SLASH ∉ base → strrchr_slash (dir ++ SLASH :: base) = Some (dir, base).
Proof.
  intros H. induction dir as [|c dir IH]; simpl; [by rewrite strrchr_slash_none|by rewrite IH].
Qed.

(** The permission file of a directory. *)
Definition permfile_of (dir : list ascii) : list ascii :=
  (if ends_with_slash dir then dir else dir ++ [SLASH]) ++ HARD_PERMFILE.

Lemma add_slash_fits dir :
  dir ≠ [] → (length dir < MAXPATH)%nat → add_slash dir = Val (if ends_with_slash dir then dir else dir ++ [SLASH]).
Proof.
  intros Hne Hl. unfold add_slash, append. destruct dir as [|c dir]; [done|]. destruct (ends_with_slash _); [done|].
  by rewrite (proj2 (Nat.leb_le _ _)) by (simpl in *; lia).
Qed.

Lemma set_dfile_ok umask name o g granted perms l :
  Forall (dfile_ok umask) l → NoDup (d_name <$> l) → (∀ d, changeable umask d → dfile_ok umask (changed o g granted perms d)) →
  (∀ i d, by_name name l = Some (i, d) → d_link d = None) → spaced name → (length name < 256)%nat → 0 ≤ umask < 2 ^ 64 →
  Forall (dfile_ok umask) (set_dfile umask name o g granted perms l) ∧
  NoDup (d_name <$> set_dfile umask name o g granted perms l).
Proof.
  intros Hl Hnd Hch Hlk Hs Hln Hum. unfold set_dfile. destruct (by_name name l) as [[i d]|] eqn:E.
  - pose proof (Hlk _ _ eq_refl) as Hd. apply list_find_Some in E as (Hi & Hnm & _).
    pose proof (proj1 (Forall_lookup _ _) Hl _ _ Hi) as Hok. split.
    + apply Forall_insert; [done|]. by apply Hch, dfile_ok_changeable.
    + rewrite list_fmap_insert. simpl. rewrite list_insert_id; [done|]. by rewrite list_lookup_fmap, Hi.
  - apply list_find_None in E. split.
    + apply Forall_app. split; [done|]. constructor; [|done]. apply Hch.
      by split; simpl; [|lia|..|split; constructor|].
    + rewrite fmap_app. apply NoDup_app. split_and!; [done| |apply NoDup_singleton]. simpl. intros n Hn Hin.
      apply list_elem_of_singleton in Hin as ->. apply list_elem_of_fmap in Hn as (d & -> & Hd).
      rewrite Forall_forall in E. by apply (E d).
Qed.

(** The file to change, whether it is already listed or not. *)
Lemma find_or_add_repr umask ret name l o g granted perms :
  Forall (dfile_ok umask) l → (ret ≠ E_OK → l = []) → (length name < 256)%nat → spaced name → 0 ≤ umask < 2 ^ 64 →
  (∀ i d, by_name name l = Some (i, d) → d_link d = None) →
  ∃ i l' d, find_or_add umask ret name None None (map repr l) = Val (i, map repr l') ∧ l' !! i = Some d ∧
    changeable umask d ∧ <[i := changed o g granted perms d]> l' = set_dfile umask name o g granted perms l.
Proof.
  intros Hl Hret Hln Hsp Hum Hlk. set (d0 := mkD name [] [] umask [] None).
  assert (Hd0 : changeable umask d0) by (by split; simpl; [|lia|..|split; constructor|]).
  assert (Hadd : by_name name l = None → ∃ i l' d, Val (add_new_file umask name None None (map repr l)) = Val (i, map repr l') ∧
    l' !! i = Some d ∧ changeable umask d ∧ <[i := changed o g granted perms d]> l' = set_dfile umask name o g granted perms l).
  { intros Hb. exists (length l), (l ++ [d0]), d0. unfold add_new_file. rewrite new_file_repr by lia.
    rewrite length_map, map_repr_snoc. split; [done|]. rewrite lookup_snoc, insert_snoc. unfold set_dfile. by rewrite Hb. }
  unfold find_or_add. case_bool_decide as Hr; cbn [negb].
  - unfold find_file. rewrite (find_file_repr umask) by done. run.
    destruct (by_name name l) as [[i d]|] eqn:E; cbn [fmap option_fmap option_map fst Nat.add]; [|by apply Hadd].
    pose proof (Hlk _ _ eq_refl) as Hd. unfold set_dfile. rewrite E. apply list_find_Some in E as (Hi & _).
    exists i, l, d. split_and!; [done|done| |done].
    apply dfile_ok_changeable; [|done]. by eapply (proj1 (Forall_lookup _ _) Hl).
  - apply Hadd. by rewrite (Hret Hr).
Qed.

Lemma checkFileForPerm_spec ch ca umask disk w u name fl gnames dir file l wanted :
  reg_wf (w_groups w) → 0 < r_max (w_groups w) → perm_user u w name fl gnames →
  (length dir + length HARD_PERMFILE < MAXPATH)%nat → holds umask disk (dir ++ HARD_PERMFILE) l →
  ∃ r, _checkFileForPerm (Some (plaintext ch ca)) umask disk dir file wanted u w ⇓ r ∧
    decides r (strchr fl FLAG_SITEOP ||
      match by_name file l with
      | Some (_, d) => file_grants name gnames d (streq file (str ".")) wanted
      | None => negb (Z.land wanted (userperms u) =? 0)
      end).
Proof.
  intros Hwg Hm Hu Hlen Hh. destruct (holds_read _ _ _ _ Hh) as (ret & Hr & Hret). destruct Hh as (Hl & _ & _).
  unfold _checkFileForPerm. rewrite !(proj2 (Nat.leb_gt _ _)) by lia. rewrite (pu_flags _ _ _ _ _ Hu). run.
  destruct (strchr fl FLAG_SITEOP); [by exists 0|]. cbn [orb]. rewrite Hr. run.
  assert (Hdef : decides (_default_perm wanted u) (negb (Z.land wanted (userperms u) =? 0))).
  { unfold _default_perm. by destruct (Z.land wanted (userperms u) =? 0). }
  case_bool_decide as Hok; cbn [negb]; [|rewrite (Hret Hok); by eexists].
  unfold find_file. rewrite (find_file_repr umask) by done. run.
  destruct (by_name file l) as [[i d]|] eqn:E; cbn [fmap option_fmap option_map fst Nat.add]; [|by eexists].
  apply list_find_Some in E as (Hi & _). rewrite list_lookup_fmap, Hi. run.
  apply (check_listed_spec ch ca umask w u name fl gnames); [done..|]. by eapply (proj1 (Forall_lookup _ _) Hl).
Qed.

Lemma check_total ch ca umask disk w u name fl gnames dir file l wanted :
  reg_wf (w_groups w) → 0 < r_max (w_groups w) → perm_user u w name fl gnames →
  holds umask disk (dir ++ HARD_PERMFILE) l → (length dir < MAXPATH)%nat →
  ∃ r, _checkFileForPerm (Some (plaintext ch ca)) umask disk dir file wanted u w = Val r.
Proof.
  intros Hwg Hm Hu Hh Hlen. destruct (decide (length dir + length HARD_PERMFILE < MAXPATH)%nat) as [Hl|Hl].
  - edestruct (checkFileForPerm_spec ch ca umask disk w u) as (r & Hr & _); [done..|]. by exists r.
  - exists (-1). unfold _checkFileForPerm. rewrite (proj2 (Nat.leb_gt _ _)) by done. by rewrite (proj2 (Nat.leb_le _ _)) by lia.
Qed.

Lemma setPerm_spec umask fs writable disk dir base l o g granted perms :
  fs (dir ++ SLASH :: base) = Some FK_REG → dir ≠ [] → SLASH ∉ base → spaced base → (length base < 256)%nat →
  (length dir + 1 + length HARD_PERMFILE < MAXPATH)%nat → (length dir + 1 + length base < MAXPATH)%nat →
  writable (permfile_of dir) = true → 0 ≤ umask < 2 ^ 64 →
  word o → (length o < 256)%nat → word g → (length g < 256)%nat →
  from_option acl_ok True granted → (perms = no_perms ∨ 0 ≤ perms < 2 ^ 64) →
  holds umask disk (permfile_of dir) l → (∀ i d, by_name base l = Some (i, d) → d_link d = None) →
  ∃ disk', _setPerm umask fs writable disk (dir ++ SLASH :: base) (fst <$> granted) (Some o) (Some g) (snd <$> granted) perms
      ⇓ (0, disk') ∧
    holds umask disk' (permfile_of dir) (map flip (set_dfile umask base o g granted perms l)) ∧
    (∀ q, q ≠ permfile_of dir → disk' !! q = disk !! q).
Proof.
  intros Hfs Hne Hsl Hsp Hlb Hl1 Hl2 Hw Hum Ho Hlo Hg Hlg Hgr Hp Hh Hlk.
  destruct (holds_read _ _ _ _ Hh) as (ret & Hr & Hret). destruct Hh as (Hok & Hnd & _).
  destruct (set_dfile_ok umask base o g granted perms l Hok Hnd) as [Hok' Hnd']; [by intros; apply changed_ok|done..|].
  destruct (find_or_add_repr umask ret base l o g granted perms Hok Hret Hlb Hsp Hum Hlk) as (i & l' & d & Hfa & Hi & Hd & Hset).
  destruct (write_then_read umask disk (permfile_of dir) (set_dfile umask base o g granted perms l) Hok' Hnd') as (s & Hwr & Hrd).
  { unfold set_dfile. destruct (by_name base l) as [[j d']|] eqn:E; [|by destruct l].
    apply list_find_Some in E as (E & _). by destruct l, j. }
  exists (<[permfile_of dir := s]> disk). split_and!.
  - unfold _setPerm. destruct (dir ++ SLASH :: base) as [|c fn] eqn:Hfn; [by destruct dir|]. rewrite <- Hfn, Hfs in *.
    rewrite (proj2 (Nat.leb_gt _ _)) by (rewrite Hfn, <- Hfn, length_app; simpl; lia).
    rewrite strrchr_slash_app by done. run. rewrite add_slash_fits by (done || unfold MAXPATH in *; lia). run.
    rewrite (proj2 (Nat.leb_gt _ _)) by (destruct (ends_with_slash dir); rewrite ?length_app; simpl in *; lia).
    fold (permfile_of dir). rewrite Hr. run. rewrite Hfa. run. rewrite list_lookup_fmap, Hi. run.
    pose proof (change_repr umask o g granted perms Ho Hlo Hg Hlg Hgr Hp d Hd) as Hc.
    rewrite Hw. destruct granted as [[us ri]|]; cbn [fmap option_fmap option_map fst snd] in *; run.
    + apply outcome_bind_Val in Hc as (f & Hf & Hc). rewrite Hf. run. apply (inj Val) in Hc as ->. by rewrite insert_repr, Hset, Hwr.
    + apply (inj Val) in Hc as ->. by rewrite insert_repr, Hset, Hwr.
  - split; [|split].
    + apply Forall_fmap. eapply Forall_impl; [done|]. by apply dfile_ok_flip.
    + change (map flip ?x) with (flip <$> x). rewrite <- list_fmap_compose. done.
    + by rewrite lookup_insert_eq.
  - intros q Hq. by rewrite lookup_insert_ne.
Qed.

Lemma by_name_unique l d : NoDup (d_name <$> l) → d ∈ l → ∃ i, by_name (d_name d) l = Some (i, d).
Proof.
  intros Hnd Hd. apply list_elem_of_lookup in Hd as [i Hi]. exists i. apply list_find_Some. split; [done|]. split; [done|].
  intros j d' Hj Hlt Hnm. assert (i = j); [|lia].
  eapply NoDup_lookup; [exact Hnd| |]; rewrite list_lookup_fmap; [by rewrite Hi|by rewrite Hj; simpl; rewrite Hnm].
Qed.

Lemma acl_of_unique user rights a : NoDup a.*1 → (user, rights) ∈ a → acl_of user a = Some rights.
Proof.
  unfold acl_of. induction a as [|[u r] a IH]; intros Hnd Hin; [set_solver|].
  rewrite fmap_cons in Hnd. apply NoDup_cons in Hnd as [Hni Hnd]. simpl in *.
  apply elem_of_cons in Hin as [[= -> ->]|Hin]; [by rewrite bool_decide_eq_true_2|].
  rewrite bool_decide_eq_false_2; [by apply IH|]. intros ->. apply Hni. by apply list_elem_of_fmap_2' with (user, rights).
Qed.

Lemma grant_elem user rights a : (user, rights) ∈ grant user rights a.
Proof.
  unfold grant. case_bool_decide as Hin; [|set_solver]. apply list_elem_of_fmap in Hin as (p & -> & Hp).
  apply list_elem_of_In, in_map_iff. exists p. split; [by rewrite bool_decide_eq_true_2|by apply list_elem_of_In].
Qed.

(** The changed file is in the changed list. *)
Lemma set_dfile_elem umask name o g granted perms l :
  ∃ d, d_name d = name ∧ changed o g granted perms d ∈ set_dfile umask name o g granted perms l.
Proof.
  unfold set_dfile. destruct (by_name name l) as [[i d]|] eqn:E.
  - apply list_find_Some in E as (Hi & Hn & _). exists d. split; [done|].
    apply list_elem_of_lookup. exists i. apply list_lookup_insert_eq. by eapply lookup_lt_Some.
  - eexists (mkD name [] [] umask [] None). split; [done|]. set_solver.
Qed.

(** ** The theorems *)

(** C18. Whatever list of files is written to a permission file, whose names
    (spaces allowed), owners, groups and access lists are well formed, reading the
    file back gives the same files, with each access list in reverse order; no
    other permission file changes. *)
Theorem permfile_roundtrip umask disk permfile l :
  Forall (dfile_ok umask) l → NoDup (d_name <$> l) → l ≠ [] →
  ∃ disk', writePermFile true disk permfile (map repr l) ⇓ (0, disk') ∧
    readPermFile umask disk' permfile [] ⇓ (E_OK, map repr (map flip l)) ∧
    (∀ q, q ≠ permfile → disk' !! q = disk !! q).
Proof.
  intros Hl Hnd Hne. destruct (write_then_read umask disk permfile l Hl Hnd Hne) as (s & Hw & Hr).
  exists (<[permfile := s]> disk). split_and!; [done|done|]. intros q Hq. by rewrite lookup_insert_ne.
Qed.

(** C17. Given what the permission file of a directory holds, [_checkFileForPerm]
    returns 0 exactly when: the user is a siteop, or the file is listed and the
    user's line of its access list gives the right, or there is no such line and
    the permission bits of the user's class (owner, group, others) give it, or the
    file is not listed and the user's default permissions include it. *)
Theorem checkFileForPerm_decides ch ca umask disk w u name fl gnames dir file l wanted :
  reg_wf (w_groups w) → 0 < r_max (w_groups w) → perm_user u w name fl gnames →
  (length dir + length HARD_PERMFILE < MAXPATH)%nat → holds umask disk (dir ++ HARD_PERMFILE) l →
  ∃ r, _checkFileForPerm (Some (plaintext ch ca)) umask disk dir file wanted u w ⇓ r ∧
    decides r (strchr fl FLAG_SITEOP ||
      match by_name file l with
      | Some (_, d) => file_grants name gnames d (streq file (str ".")) wanted
      | None => negb (Z.land wanted (userperms u) =? 0)
      end).
Proof. apply checkFileForPerm_spec. Qed.

(** [_setPerm] on a file with an owner and a group, and possibly an access line
    or permission bits, succeeds: the permission file of its directory then holds
    the files it held before, with this one changed as asked or added, and every
    other permission file is unchanged. *)
Theorem setPerm_correct umask fs writable disk dir base l o g granted perms :
  fs (dir ++ SLASH :: base) = Some FK_REG → dir ≠ [] → SLASH ∉ base → spaced base → (length base < 256)%nat →
  (length dir + 1 + length HARD_PERMFILE < MAXPATH)%nat → (length dir + 1 + length base < MAXPATH)%nat →
  writable (permfile_of dir) = true → 0 ≤ umask < 2 ^ 64 →
  word o → (length o < 256)%nat → word g → (length g < 256)%nat →
  from_option acl_ok True granted → (perms = no_perms ∨ 0 ≤ perms < 2 ^ 64) →
  holds umask disk (permfile_of dir) l → (∀ i d, by_name base l = Some (i, d) → d_link d = None) →
  ∃ disk', _setPerm umask fs writable disk (dir ++ SLASH :: base) (fst <$> granted) (Some o) (Some g) (snd <$> granted) perms
      ⇓ (0, disk') ∧
    holds umask disk' (permfile_of dir) (map flip (set_dfile umask base o g granted perms l)) ∧
    (∀ q, q ≠ permfile_of dir → disk' !! q = disk !! q).
Proof. apply setPerm_spec. Qed.

(** Giving rights takes effect: after [_setPerm] has recorded an access line
    for a user who is not a siteop, [_checkFileForPerm] grants that user exactly the
    rights the three letters of the line give, whatever the line was before, whoever
    owns the file and whatever its permission bits are. *)
Theorem setPerm_grants ch ca umask fs writable disk w u name fl gnames dir base l o g rights perms :
  reg_wf (w_groups w) → 0 < r_max (w_groups w) → perm_user u w name fl gnames → strchr fl FLAG_SITEOP = false →
  fs (dir ++ SLASH :: base) = Some FK_REG → dir ≠ [] → SLASH ∉ base → spaced base → (length base < 256)%nat →
  (length dir + 1 + length HARD_PERMFILE < MAXPATH)%nat → (length dir + 1 + length base < MAXPATH)%nat →
  writable (permfile_of dir) = true → 0 ≤ umask < 2 ^ 64 →
  word o → (length o < 256)%nat → word g → (length g < 256)%nat →
  acl_ok (name, rights) → (perms = no_perms ∨ 0 ≤ perms < 2 ^ 64) →
  holds umask disk (permfile_of dir) l → (∀ i d, by_name base l = Some (i, d) → d_link d = None) →
  ∃ disk', _setPerm umask fs writable disk (dir ++ SLASH :: base) (Some name) (Some o) (Some g) (Some rights) perms ⇓ (0, disk') ∧
    ∀ wanted, ∃ r,
      _checkFileForPerm (Some (plaintext ch ca)) umask disk' (if ends_with_slash dir then dir else dir ++ [SLASH]) base wanted u w ⇓ r ∧
      decides r (acl_grants rights (streq base (str ".")) wanted).
Proof.
  intros Hwg Hm Hu Hop Hfs Hne Hsl Hsp Hlb Hl1 Hl2 Hw Hum Ho Hlo Hg Hlg Hok Hp Hh Hlk.
  destruct (setPerm_spec umask fs writable disk dir base l o g (Some (name, rights)) perms) as (disk' & Hset & Hh' & _); [done..|].
  exists disk'. split; [exact Hset|]. intros wanted.
  edestruct (checkFileForPerm_spec ch ca umask disk' w u name fl gnames) as (r & Hr & Hdec); [done..| |exact Hh'|].
  { destruct (ends_with_slash dir); rewrite ?length_app; simpl in *; lia. }
  exists r. split; [exact Hr|]. rewrite Hop in Hdec. cbn [orb] in Hdec.
  destruct Hh' as (Hok' & Hnd & _). destruct (set_dfile_elem umask base o g (Some (name, rights)) perms l) as (d & Hdn & Hin).
  pose proof (list_elem_of_fmap_2 flip _ _ Hin) as Hfl. destruct (by_name_unique _ _ Hnd Hfl) as [i Hi].
  change (d_name (flip (changed o g (Some (name, rights)) perms d))) with (d_name d) in Hi. rewrite Hdn in Hi. rewrite Hi in Hdec.
  unfold file_grants in Hdec. erewrite acl_of_unique in Hdec; [exact Hdec| |].
  - rewrite Forall_forall in Hok'. by eapply do_users, Hok'.
  - simpl. apply list_elem_of_In, in_rev. rewrite rev_involutive. apply list_elem_of_In, grant_elem.
Qed.

(** A line of three words without a line feed, which can end a file edited by
    hand: [read_token] sets [ptr] to NULL when it returns the third word, and
    [strtok_r] then reads through it. *)
Lemma readPermFile_three_words umask p : readPermFile umask {[p := str "owner file bob"]} p [] = Crash.
Proof. unfold readPermFile. rewrite lookup_singleton_eq. reflexivity. Qed.

(** Every line of a copied access list is the first one. *)
Lemma file_deep_copy_repeats f a l :
  acl f = a :: l → ∃ c, file_deep_copy (Some f) = Some c ∧ acl c = replicate (S (length l)) a.
Proof.
  intros Ha. eexists. split; [done|]. simpl. rewrite Ha. cbn [replicate]. f_equal. clear Ha. induction l; simpl; congruence.
Qed.

(** ** A concrete directory *)

#[global] Instance word_dec s : Decision (word s).
Proof. unfold word. apply _. Defined.
#[global] Instance spaced_dec s : Decision (spaced s).
Proof. unfold spaced. apply _. Defined.
#[global] Instance acl_ok_dec p : Decision (acl_ok p).
Proof. unfold acl_ok. apply _. Defined.

Ltac by_decision := apply (bool_decide_unpack _); by vm_compute.

Definition demo_dir : list dfile :=
  [mkD (str "my file") (str "bob") (str "staff") 416 [(str "eve", str "r--")] None;
   mkD (str "pub") (str "root") (str "adm") 509 [] (Some (str "/srv/my pub"))].

Definition demo_permfile : list ascii := str "/home/bob/.dirinfo".

Definition demo_disk : permdisk :=
  {[demo_permfile := match write_files (map repr demo_dir) with Val s => s | Crash => [] end]}.

Lemma demo_dir_ok : Forall (dfile_ok 509) demo_dir.
Proof.
  constructor; [|constructor; [|constructor]].
  - split; by_decision.
  - split; by_decision.
Qed.

Lemma demo_holds : holds 509 demo_disk demo_permfile demo_dir.
Proof.
  split; [exact demo_dir_ok|]. split; [by_decision|]. unfold demo_disk. rewrite lookup_singleton_eq.
  unfold readPermFile. rewrite lookup_singleton_eq. by vm_compute.
Qed.

Definition demo_bob : wzd_user_t := set_u_backend (demo_user 5 (str "bob")) 1.

Lemma demo_bob_ok : perm_user demo_bob demo_world (str "bob") [] [].
Proof. split; [reflexivity|reflexivity|simpl; lia|constructor]. Qed.

Lemma permfile_roundtrip_witness :
  ∃ disk', writePermFile true demo_disk (str "/tmp/.dirinfo") (map repr demo_dir) ⇓ (0, disk') ∧
    readPermFile 509 disk' (str "/tmp/.dirinfo") [] ⇓ (E_OK, map repr (map flip demo_dir)) ∧
    (∀ q, q ≠ str "/tmp/.dirinfo" → disk' !! q = demo_disk !! q).
Proof. apply (permfile_roundtrip 509 demo_disk); [exact demo_dir_ok|by_decision|done]. Defined.

Lemma checkFileForPerm_decides_witness :
  ∃ r, _checkFileForPerm (Some (plaintext demo_changepass demo_auth)) 509 demo_disk (str "/home/bob/") (str "my file")
         RIGHT_STOR demo_bob demo_world ⇓ r ∧
    decides r (strchr [] FLAG_SITEOP ||
      match by_name (str "my file") demo_dir with
      | Some (_, d) => file_grants (str "bob") [] d (streq (str "my file") (str ".")) RIGHT_STOR
      | None => negb (Z.land RIGHT_STOR (userperms demo_bob) =? 0)
      end).
Proof.
  apply (checkFileForPerm_decides demo_changepass demo_auth 509 demo_disk demo_world demo_bob);
    [exact (proj2 (proj2 demo_world_wf))|by vm_compute|exact demo_bob_ok|apply Nat.ltb_lt; by vm_compute|exact demo_holds].
Defined.

Lemma setPerm_correct_witness :
  ∃ disk', _setPerm 509 (λ _, Some FK_REG) (λ _, true) demo_disk (str "/home/bob" ++ SLASH :: str "my file")
      (Some (str "ann")) (Some (str "bob")) (Some (str "users")) (Some (str "rw-")) 384 ⇓ (0, disk') ∧
    holds 509 disk' (permfile_of (str "/home/bob"))
      (map flip (set_dfile 509 (str "my file") (str "bob") (str "users") (Some (str "ann", str "rw-")) 384 demo_dir)) ∧
    (∀ q, q ≠ permfile_of (str "/home/bob") → disk' !! q = demo_disk !! q).
Proof.
  apply (setPerm_correct 509 (λ _, Some FK_REG) (λ _, true) demo_disk (str "/home/bob") (str "my file") demo_dir
    (str "bob") (str "users") (Some (str "ann", str "rw-")) 384); try by_decision.
  - exact demo_holds.
  - intros i d. vm_compute. intros [= <- <-]. done.
Defined.

(** Renaming a file gives it the default permissions: only the owner, the group
    and the access list are carried over. *)
Example movePerm_resets_permissions :
  (let text := str "owner" ++ [TAB] ++ str "a" ++ [TAB] ++ str "bob" ++ [TAB] ++ str "staff" ++ [TAB] ++ str "600" ++ [LF] in
   '(_, disk) ← _movePerm 509 (λ p, if streq p (str "/d/a") then Some FK_REG else None) (λ _, true)
                  {[str "/d/.dirinfo" := text]} (str "/d/a") (str "/d/b") None None;
   readPermFile 509 disk (str "/d/.dirinfo") [])
  ⇓ (E_OK, [repr (mkD (str "b") (str "bob") (str "staff") 509 [] None)]).
Proof. by vm_compute. Qed.

(** The permission bits of a file that has no owner, no group and no access list
    are not written. *)
Example setPerm_bits_lost :
  ('(r, disk) ← _setPerm 509 (λ _, Some FK_REG) (λ _, true) ∅ (str "/d/a") None None None None 384;
   Val (r, disk !! str "/d/.dirinfo"))
  ⇓ (0, Some []).
Proof. by vm_compute. Qed.

(** A file directly below the root directory: [dir[strlen(dir)-1]] is read with
    an empty [dir]. *)
Example setPerm_in_root : _setPerm 509 (λ _, Some FK_REG) (λ _, true) ∅ (str "/a") None (Some (str "bob")) None None no_perms = Crash.
Proof. by vm_compute. Qed.

Lemma setPerm_grants_witness :
  ∃ disk', _setPerm 509 (λ _, Some FK_REG) (λ _, true) demo_disk (str "/home/bob" ++ SLASH :: str "my file")
      (Some (str "bob")) (Some (str "root")) (Some (str "users")) (Some (str "r--")) 0 ⇓ (0, disk') ∧
    ∀ wanted, ∃ r,
      _checkFileForPerm (Some (plaintext demo_changepass demo_auth)) 509 disk' (str "/home/bob/") (str "my file") wanted
        demo_bob demo_world ⇓ r ∧
      decides r (acl_grants (str "r--") (streq (str "my file") (str ".")) wanted).
Proof.
  apply (setPerm_grants demo_changepass demo_auth 509 (λ _, Some FK_REG) (λ _, true) demo_disk demo_world demo_bob
    (str "bob") [] [] (str "/home/bob") (str "my file") demo_dir (str "root") (str "users") (str "r--") 0); try by_decision.
  - exact (proj2 (proj2 demo_world_wf)).
  - exact demo_bob_ok.
  - exact demo_holds.
  - intros i d. vm_compute. intros [= <- <-]. done.
Defined.
