(* ===== verification/UsersFile.v ===== *)
(** * The users file: backends/plaintext/libplaintext_file.c

    The file holds a section of groups and a section of users, one line for each
    field. A file is the list of its bytes; [fgets] cuts long lines as the C
    library does. Users and groups are written from the registries and read into
    them. Messages to the log are left out. *)

From S2P Require Import Prelude CList Ip Registry Users Backend Str Session Path PermFile.

Definition MAX_LINE : nat := 1024.
Abbreviation bytes := (list ascii).

(** ** Reading lines *)

(** At most [k] bytes, up to and with the first newline. *)
Fixpoint line_of (k : nat) (f : bytes) : bytes * bytes :=
  match k, f with
  | S k, c :: f => if bool_decide (c = LF) then ([LF], f) else let '(l, r) := line_of k f in (c :: l, r)
  | _, _ => ([], f)
  end.

(** [fgets(buf,n,f)], at the end of the file [NULL]; what is read is used as a C
    string. *)
Definition fgets (n : nat) (f : bytes) : option (bytes * bytes) :=
  match f with [] => None | _ => let '(l, r) := line_of (n - 1) f in Some (cstring l, r) end.

(** [regexec] of [^([a-zA-Z0-9_]+)[ \t]*=[ \t]*(.+)]: the two groups. The blanks
    after the equals sign leave a character to the last group. *)
Definition is_word (c : ascii) : bool := isalnum c || bool_decide (c = "_"%char).
Definition is_blank (c : ascii) : bool := bool_decide (c = " "%char) || bool_decide (c = TAB).
Fixpoint take_while (p : ascii → bool) (s : bytes) : bytes :=
  match s with c :: s' => if p c then c :: take_while p s' else [] | [] => [] end.

Definition reg_line (s : bytes) : option (bytes * bytes) :=
  match take_while is_word s with
  | [] => None
  | name =>
    match skip_while is_blank (skip_while is_word s) with
    | "="%char :: r =>
      match skip_while is_blank r, last r with
      | [], None => None
      | [], Some c => Some (name, [c])
      | v, _ => Some (name, v)
      end
    | _ => None
    end
  end.

(** [strtol(s,&end,0)] *)
Definition strtol0 (s : bytes) : Z * bytes :=
  let s1 := skip_spaces s in
  let '(neg, s2) := match s1 with
                    | c :: s' => if bool_decide (c = "-"%char) then (true, s')
                                 else if bool_decide (c = "+"%char) then (false, s') else (false, s1)
                    | [] => (false, [])
                    end in
  let '(base, s3) := base_of s2 in
  match s3 with
  | c :: _ =>
    if xdigit c <? base then
      let '(v, rest) := digits0 base 0 s3 in
      (if neg : bool then Z.max (- v) (- 2 ^ 63) else Z.min v (2 ^ 63 - 1), rest)
    else (0, s)
  | [] => (0, s)
  end.

(** [ptr == value || *ptr != '\0' || num < 0] refuses a number. *)
Definition natural (v : bytes) : option Z :=
  let '(num, rest) := strtol0 v in
  if bool_decide (rest = v) || negb (bool_decide (rest = [])) || (num <? 0) then None else Some num.
(** [ptr == value || *ptr != '\0'] *)
Definition unsigned (v : bytes) : option Z :=
  let '(num, rest) := strtoul0 v in if bool_decide (rest = v) || negb (bool_decide (rest = [])) then None else Some num.
(** The counters of 64 bits must start with a digit. *)
Definition counter (v : bytes) : option Z := match v with c :: _ => if isdigit c then unsigned v else None | [] => None end.

(** ** Fields *)

Inductive user_field :=
  | FUid | FHome | FPass | FFlags | FCreator | FRights | FGroups | FTagline | FMaxUl | FLastLogin | FMaxDl
  | FBytesUl | FBytesDl | FFilesDl | FFilesUl | FCredits | FNumLogins | FLoginsPerIp | FRatio | FUserSlots
  | FLeechSlots | FMaxIdle | FIp.

(** The names in the order of the tests. *)
Definition user_fields : list (bytes * user_field) :=
  [(str "uid", FUid); (str "home", FHome); (str "pass", FPass); (str "flags", FFlags); (str "creator", FCreator);
   (str "rights", FRights); (str "groups", FGroups); (str "tagline", FTagline); (str "max_ul_speed", FMaxUl);
   (str "last_login", FLastLogin); (str "max_dl_speed", FMaxDl); (str "bytes_ul_total", FBytesUl);
   (str "bytes_dl_total", FBytesDl); (str "files_dl_total", FFilesDl); (str "files_ul_total", FFilesUl);
   (str "credits", FCredits); (str "num_logins", FNumLogins); (str "logins_per_ip", FLoginsPerIp); (str "ratio", FRatio);
   (str "user_slots", FUserSlots); (str "leech_slots", FLeechSlots); (str "max_idle_time", FMaxIdle); (str "ip_allowed", FIp)].

Fixpoint field_named {F} (table : list (bytes * F)) (name : bytes) : option F :=
  match table with (n, f) :: table => if streq n name then Some f else field_named table name | [] => None end.

Definition set_last_login (u : wzd_user_t) (n : Z) : wzd_user_t :=
  mkUser (uid u) (u_backend_id u) (username u) (userpass u) (rootpath u) (creator u) (u_tagline u) (group_num u)
    (groups u) (u_max_idle_time u) (userperms u) (flags u) (u_max_ul_speed u) (u_max_dl_speed u) (u_num_logins u)
    (logins_per_ip u) (u_ip_list u) (stats u) (credits u) (u_ratio u) (user_slots u) (leech_slots u) n.

(** A field is changed when the value is a number. *)
Definition when {A} (o : option Z) (f : Z → A) (a : A) : outcome A := Val (match o with Some n => f n | None => a end).

(** [user->groups[user->group_num++] = gid] *)
Definition push_group (u : wzd_user_t) (g : Z) : outcome wzd_user_t :=
  if group_num u <? Z.of_nat (length (groups u)) then Val (set_groups u (group_num u + 1) (<[Z.to_nat (group_num u) := g]> (groups u)))
  else Crash.

(** The names between commas; unknown groups are skipped. *)
Fixpoint add_groups (fuel : nat) (gs : wzd_groups) (u : wzd_user_t) (s : bytes) : outcome wzd_user_t :=
  match fuel with
  | O => Val u
  | S fuel =>
    match strtok (λ c, bool_decide (c = ","%char)) s with
    | (None, _) => Val u
    | (Some name, rest) =>
      a ← group_get_by_name (Some name) gs;
      u ← match a with
          | None => Val u
          | Some a => g ← deref (r_heap gs !! a); push_group u (gid g)
          end;
      add_groups fuel gs u rest
    end
  end.

Definition __user_ip_add (u : wzd_user_t) (ip : bytes) : wzd_user_t :=
  if Z.of_nat (length ip) <? 1 then u else if MAX_IP_LENGTH <=? Z.of_nat (length ip) then u
  else set_u_ip_list u (ip_add_check (u_ip_list u) ip 1).2.

(** A final slash is removed from the home directory. *)
Definition home_value (v : bytes) : bytes :=
  match last v with
  | Some c => if bool_decide (c = "/"%char) && negb (streq v (str "/")) then take (length v - 1) v else v
  | None => v
  end.

Definition set_field (gs : wzd_groups) (f : user_field) (v : bytes) (u : wzd_user_t) : outcome wzd_user_t :=
  let st := stats u in
  match f with
  | FUid => when (natural v) (λ n, set_uid u (u32 n)) u
  | FHome => Val (set_rootpath u (strncpy (rootpath u) (home_value v) (WZD_MAX_PATH - 1)))
  | FPass => Val (set_userpass u (strncpy (userpass u) v (MAX_PASS_LENGTH - 1)))
  | FFlags => if (MAX_FLAGS_NUM <=? length v)%nat then Val u else Val (set_flags u (strncpy (flags u) v MAX_FLAGS_NUM))
  | FCreator => when (natural v) (λ n, set_creator u (u32 n)) u
  | FRights => Val (set_userperms u (Z.lor (strtoul0 v).1 RIGHT_CWD))
  | FGroups => add_groups (S (length v)) gs u v
  | FTagline => Val (set_u_tagline u (strncpy (u_tagline u) v MAX_TAGLINE_LENGTH))
  | FMaxUl => when (natural v) (λ n, set_max_ul_speed u (u32 n)) u
  | FLastLogin => when (natural v) (λ n, set_last_login u n) u
  | FMaxDl => when (natural v) (λ n, set_max_dl_speed u (u32 n)) u
  | FBytesUl => when (counter v) (λ n, set_stats u (mkStats n (bytes_dl_total st) (files_ul_total st) (files_dl_total st))) u
  | FBytesDl => when (counter v) (λ n, set_stats u (mkStats (bytes_ul_total st) n (files_ul_total st) (files_dl_total st))) u
  | FFilesDl => when (unsigned v) (λ n, set_stats u (mkStats (bytes_ul_total st) (bytes_dl_total st) (files_ul_total st) n)) u
  | FFilesUl => when (unsigned v) (λ n, set_stats u (mkStats (bytes_ul_total st) (bytes_dl_total st) n (files_dl_total st))) u
  | FCredits => when (counter v) (λ n, set_credits u n) u
  | FNumLogins => when (natural v) (λ n, set_num_logins u (u16 n)) u
  | FLoginsPerIp => when (natural v) (λ n, set_logins_per_ip u (u16 n)) u
  | FRatio => when (natural v) (λ n, set_ratio u (u32 n)) u
  | FUserSlots => when (unsigned v) (λ n, set_user_slots u (u16 n)) u
  | FLeechSlots => when (unsigned v) (λ n, set_leech_slots u (u16 n)) u
  | FMaxIdle => when (natural v) (λ n, set_max_idle_time u (u32 n)) u
  | FIp => Val (__user_ip_add u v)
  end.

(** One line of a user; a line of another form and an unknown name are ignored. *)
Definition user_line (gs : wzd_groups) (line : bytes) (u : wzd_user_t) : outcome wzd_user_t :=
  match reg_line line with
  | None => Val u
  | Some (name, v) => match field_named user_fields name with Some f => set_field gs f v u | None => Val u end
  end.

(** The lines of a user or a group, up to an empty one. A line takes at least a
    byte off the file. *)
Fixpoint record_loop {A} (read_line : bytes → A → outcome A) (fuel : nat) (a : A) (file : bytes) : outcome (A * bytes) :=
  match fuel with
  | O => Val (a, file)
  | S fuel =>
    match fgets (MAX_LINE - 1) file with
    | None => Val (a, file)
    | Some (line, file) =>
      match chop line with
      | [] => Val (a, file)
      | line => a ← read_line line a; record_loop read_line fuel a file
      end
    end
  end.

Definition read_single_user (w : world) (name : bytes) (file : bytes) : outcome (wzd_user_t * bytes) :=
  i ← user_find_free_uid 0 (w_users w);
  let u := set_username user_init_struct (strncpy (username user_init_struct) name (HARD_USERNAME_LENGTH - 1)) in
  record_loop (user_line (w_groups w)) (length file) (set_uid u i) file.

Inductive group_field := GGid | GMaxIdle | GNumLogins | GIp | GHome | GRatio | GRights | GFlags | GMaxDl | GMaxUl | GTagline.

Definition group_fields : list (bytes * group_field) :=
  [(str "gid", GGid); (str "num_logins", GNumLogins); (str "ip_allowed", GIp); (str "default_home", GHome); (str "ratio", GRatio);
   (str "rights", GRights); (str "flags", GFlags); (str "max_dl_speed", GMaxDl); (str "max_ul_speed", GMaxUl); (str "tagline", GTagline)].

(** One of the names is compared without regard to case. *)
Definition group_field_named (name : bytes) : option group_field :=
  if strcaseeq name (str "max_idle_time") then Some GMaxIdle else field_named group_fields name.

Definition __group_ip_add (g : wzd_group_t) (ip : bytes) : wzd_group_t :=
  if Z.of_nat (length ip) <? 1 then g else if MAX_IP_LENGTH <=? Z.of_nat (length ip) then g
  else set_g_ip_list g (ip_add_check (g_ip_list g) ip 1).2.

Definition set_group_field (f : group_field) (v : bytes) (g : wzd_group_t) : outcome wzd_group_t :=
  match f with
  | GGid => when (natural v) (λ n, set_gid g (u32 n)) g
  | GMaxIdle => when (natural v) (λ n, set_g_idle g (u32 n)) g
  | GNumLogins => when (natural v) (λ n, set_g_num_logins g (u16 n)) g
  | GIp => Val (__group_ip_add g v)
  | GHome => Val (set_defaultpath g (strncpy (defaultpath g) v WZD_MAX_PATH))
  | GRatio => when (natural v) (λ n, set_g_ratio g (u32 n)) g
  | GRights => Val (set_groupperms g (strtoul0 v).1)
  | GFlags => if (MAX_FLAGS_NUM <=? length v)%nat then Val g else Val (set_g_flags g (strncpy (g_flags g) v MAX_FLAGS_NUM))
  | GMaxDl => when (natural v) (λ n, set_g_max_dl g (u32 n)) g
  | GMaxUl => when (natural v) (λ n, set_g_max_ul g (u32 n)) g
  | GTagline => Val (set_g_tagline g (strncpy (g_tagline g) v MAX_TAGLINE_LENGTH))
  end.

Definition group_line (line : bytes) (g : wzd_group_t) : outcome wzd_group_t :=
  match reg_line line with
  | None => Val g
  | Some (name, v) => match group_field_named name with Some f => set_group_field f v g | None => Val g end
  end.

Definition read_single_group (w : world) (name : bytes) (file : bytes) : outcome (wzd_group_t * bytes) :=
  i ← group_find_free_gid 0 (w_groups w);
  let g := set_groupname group_init_struct (strncpy (groupname group_init_struct) name (HARD_GROUPNAME_LENGTH - 1)) in
  record_loop group_line (length file) (set_gid g i) file.

(** ** Sections *)

(** The structure just read is put at an unused address and registered, unless
    its identifier is -1. *)
Definition store_user (u : wzd_user_t) (w : world) : outcome world :=
  if uid u =? INVALID_USER then Val w else
  let us := w_users w in
  let a := fresh (dom (D := gset addr) (r_heap us)) in
  r ← user_register (Some a) 1 (mkReg (r_max us) (r_arr us) (<[a := u]> (r_heap us)));
  Val (with_users w r.2).

Definition store_group (g : wzd_group_t) (w : world) : outcome world :=
  if gid g =? INVALID_USER then Val w else
  let gs := w_groups w in
  let a := fresh (dom (D := gset addr) (r_heap gs)) in
  r ← group_register (Some a) 1 (mkReg (r_max gs) (r_arr gs) (<[a := g]> (r_heap gs)));
  Val (with_groups w r.2).

(** [while (line[strlen(line)-1] == '\r' || ...)]: a line of line ends only is
    read before its first byte. *)
Definition strip_line (s : bytes) : outcome bytes := match chop s with [] => Crash | s => Val s end.

Section sections.
  (** What an earlier line left in the buffer after its first byte, read when the
      file ends with the first byte of a line. *)
  Context (stale : bytes).

(** The rest of the line whose first character was read by [getc]. *)
Definition rest_of_line (c : ascii) (file : bytes) : bytes * bytes :=
  match fgets (MAX_LINE - 2) file with Some (l, file) => (cstring (c :: l), file) | None => (cstring (c :: stale), file) end.

Definition find_directive (line : bytes) : bool :=
  strcaseeq (take (length (str "privgroup")) line) (str "privgroup").

(** [(char)EOF] is also the byte 255. *)
Definition is_eof (c : ascii) : bool := code c =? 255.

Fixpoint read_section_groups (fuel : nat) (file : bytes) (w : world) : outcome (bytes * world) :=
  match fuel, file with
  | S fuel, c :: file' =>
    if is_eof c then Val (file', w)
    else if bool_decide (c = LF) then read_section_groups fuel file' w
    else if bool_decide (c = "#"%char) then read_section_groups fuel (rest_of_line c file').2 w
    else if bool_decide (c = "["%char) then Val (file, w)
    else
      let '(line, file) := rest_of_line c file' in
      line ← strip_line line;
      if find_directive line then
        match strtok is_blank line with
        | (None, _) => read_section_groups fuel file w
        | (Some _, rest) =>
          match (strtok (λ c, is_blank c || bool_decide (c = LF)) rest).1 with
          | None => read_section_groups fuel file w
          | Some name =>
            let w := count_group w in
            if HARD_DEF_GROUP_MAX <=? w_group_count w then read_section_groups fuel file w else
            '(g, file) ← read_single_group w name file;
            w ← store_group g w;
            read_section_groups fuel file w
          end
        end
      else read_section_groups fuel file w
  | _, _ => Val (file, w)
  end.

Fixpoint read_section_users (fuel : nat) (file : bytes) (w : world) : outcome (bytes * world) :=
  match fuel, file with
  | S fuel, c :: file' =>
    if is_eof c then Val (file', w)
    else if bool_decide (c = LF) then read_section_users fuel file' w
    else if bool_decide (c = "#"%char) then read_section_users fuel (rest_of_line c file').2 w
    else if bool_decide (c = "["%char) then Val (file, w)
    else
      let '(line, file) := rest_of_line c file' in
      line ← strip_line line;
      match reg_line line with
      | None => read_section_users fuel file w
      | Some (name, v) =>
        if streq (str "name") name then
          let w := count_user w in
          if HARD_DEF_USER_MAX <=? w_user_count w then read_section_users fuel file w else
          '(u, file) ← read_single_user w v file;
          w ← store_user u w;
          read_section_users fuel file w
        else read_section_users fuel file w
      end
  | _, _ => Val (file, w)
  end.

Fixpoint section_ignore (fuel : nat) (file : bytes) : bytes :=
  match fuel with
  | O => file
  | S fuel =>
    match fgets (MAX_LINE - 1) file with
    | None => file
    | Some (line, file) => match chop line with [] => file | _ => section_ignore fuel file end
    end
  end.

(** The loop of [read_files]; [strcasecmp] is called on the name of the section
    without a test that there is one. *)
Fixpoint read_loop (fuel : nat) (file : bytes) (w : world) : outcome (Z * world) :=
  match fuel with
  | O => Val (0, w)
  | S fuel =>
    match fgets (MAX_LINE - 1) file with
    | None => Val (0, w)
    | Some (line, file) =>
      match chop line with
      | [] => read_loop fuel file w
      | c :: s =>
        if bool_decide (c = "#"%char) then read_loop fuel file w
        else if bool_decide (c = "["%char) then
          token ← deref (strtok (λ c, bool_decide (c = "]"%char)) s).1;
          if strcaseeq (str "USERS") token then '(file, w) ← read_section_users (length file) file w; read_loop fuel file w
          else if strcaseeq (str "GROUPS") token then '(file, w) ← read_section_groups (length file) file w; read_loop fuel file w
          else if strcaseeq (str "HOSTS") token then read_loop fuel (section_ignore (length file) file) w
          else Val (1, w)
        else Val (1, w)
      end
    end
  end.

Definition reset_counts (w : world) : world := mkWorld (w_users w) (w_groups w) (w_contexts w) 0 0 (w_file_writes w).

(** [contents] is the file [fopen] opens; the memory allocated and the compiled
    expression are taken to be available. *)
Definition read_files (filename : option bytes) (contents : option bytes) (w : world) : outcome (Z * world) :=
  match filename with
  | None => Val (-1, w)
  | Some name =>
    if (256 <=? length name)%nat then Val (-1, w) else
    match contents with
    | None => Val (-1, w)
    | Some file => read_loop (S (length file)) file (reset_counts w)
    end
  end.
End sections.

(** ** Writing *)

(** The conversions of [fprintf]: [%.*s] of a buffer, [%u], [%lu] and [PRIu64],
    [%lx], [%hd], [%ld]. *)
Definition upto (n : nat) (buf : bytes) : bytes := cstring (take n buf).
Definition dec (n : Z) : bytes := print_in 10 20 n [].
Definition hexdigit (d : Z) : ascii := if d <? 10 then chr (48 + d) else chr (87 + d).
Fixpoint hex_in (n : nat) (v : Z) (acc : bytes) : bytes :=
  match n with
  | O => acc
  | S n => let acc := hexdigit (v mod 16) :: acc in if v / 16 =? 0 then acc else hex_in n (v / 16) acc
  end.
Definition hex (n : Z) : bytes := hex_in 16 n [].
Definition signed_dec (n : Z) : bytes := if n <? 0 then "-"%char :: dec (- n) else dec n.
Definition short (n : Z) : Z := let w := u16 n in if w <? 2 ^ 15 then w else w - 2 ^ 16.
Definition long (n : Z) : Z := let w := u64 n in if w <? 2 ^ 63 then w else w - 2 ^ 64.

Definition entry (name : string) (v : bytes) : bytes := str name ++ "="%char :: v ++ [LF].
(** A line that is written when the field is not zero. *)
Definition entry_if (name : string) (n : Z) (v : bytes) : bytes := if n =? 0 then [] else entry name v.

(** The name of the [j]-th group, nothing for a group that is not registered. *)
Definition group_name_of (gs : wzd_groups) (i : Z) : outcome (option bytes) :=
  a ← group_get_by_id i gs;
  match a with
  | None => Val None
  | Some a => g ← deref (r_heap gs !! a); n ← buf_str (groupname g); Val (Some n)
  end.

Fixpoint other_groups (gs : wzd_groups) (ids : list Z) : outcome bytes :=
  match ids with
  | [] => Val []
  | i :: ids => n ← group_name_of gs i; r ← other_groups gs ids; Val (","%char :: default [] n ++ r)
  end.

(** The names are put together in a buffer of 4096 bytes. *)
Definition groups_entry (gs : wzd_groups) (u : wzd_user_t) : outcome bytes :=
  if group_num u <=? 0 then Val [] else
  ids ← (if group_num u <=? Z.of_nat (length (groups u)) then Val (take (Z.to_nat (group_num u)) (groups u)) else Crash);
  match ids with
  | [] => Val []
  | i :: ids =>
    n ← group_name_of gs i;
    match n with
    | None => Val []
    | Some n => r ← other_groups gs ids; if (4096 <=? length (n ++ r))%nat then Crash else Val (entry "groups" (n ++ r))
    end
  end.

Definition write_single_user (gs : wzd_groups) (u : wzd_user_t) : outcome bytes :=
  grp ← groups_entry gs u;
  tag ← buf_str (u_tagline u);
  fl ← buf_str (flags u);
  Val (entry "name" (upto HARD_USERNAME_LENGTH (username u)) ++
       entry "pass" (upto MAX_PASS_LENGTH (userpass u)) ++
       entry "home" (upto WZD_MAX_PATH (rootpath u)) ++
       entry "uid" (dec (uid u)) ++
       entry "creator" (dec (creator u)) ++
       grp ++
       entry "rights" (str "0x" ++ hex (userperms u)) ++
       (if (0 <? length tag)%nat then entry "tagline" tag else []) ++
       concat (map (λ e, entry "ip_allowed" (regexp e)) (u_ip_list u)) ++
       entry_if "max_ul_speed" (u_max_ul_speed u) (dec (u_max_ul_speed u)) ++
       entry_if "max_dl_speed" (u_max_dl_speed u) (dec (u_max_dl_speed u)) ++
       entry "credits" (dec (credits u)) ++
       entry "bytes_ul_total" (dec (bytes_ul_total (stats u))) ++
       entry "bytes_dl_total" (dec (bytes_dl_total (stats u))) ++
       entry_if "files_ul_total" (files_ul_total (stats u)) (dec (files_ul_total (stats u))) ++
       entry_if "files_dl_total" (files_dl_total (stats u)) (dec (files_dl_total (stats u))) ++
       entry_if "ratio" (u_ratio u) (dec (u_ratio u)) ++
       entry_if "num_logins" (u_num_logins u) (dec (u_num_logins u)) ++
       entry_if "logins_per_ip" (logins_per_ip u) (dec (logins_per_ip u)) ++
       entry_if "max_idle_time" (u_max_idle_time u) (dec (u_max_idle_time u)) ++
       (if (0 <? length fl)%nat then entry "flags" fl else []) ++
       entry_if "user_slots" (user_slots u) (signed_dec (short (user_slots u))) ++
       entry_if "leech_slots" (leech_slots u) (signed_dec (short (leech_slots u))) ++
       entry_if "last_login" (last_login u) (signed_dec (long (last_login u))) ++ [LF]).

Definition write_single_group (g : wzd_group_t) : outcome bytes :=
  tag ← buf_str (g_tagline g);
  home ← buf_str (defaultpath g);
  fl ← buf_str (g_flags g);
  Val (str "privgroup" ++ TAB :: upto HARD_GROUPNAME_LENGTH (groupname g) ++ [LF] ++
       entry_if "max_idle_time" (g_max_idle_time g) (dec (g_max_idle_time g)) ++
       entry_if "num_logins" (g_num_logins g) (dec (g_num_logins g)) ++
       entry_if "max_ul_speed" (g_max_ul_speed g) (dec (g_max_ul_speed g)) ++
       entry_if "max_dl_speed" (g_max_dl_speed g) (dec (g_max_dl_speed g)) ++
       entry "rights" (str "0x" ++ hex (groupperms g)) ++
       (if (0 <? length tag)%nat then entry "tagline" tag else []) ++
       entry "gid" (dec (gid g)) ++
       concat (map (λ e, entry "ip_allowed" (regexp e)) (g_ip_list g)) ++
       (if (0 <? length home)%nat then entry "default_home" home else []) ++
       entry_if "ratio" (g_ratio g) (dec (g_ratio g)) ++
       (if (0 <? length fl)%nat then entry "flags" fl else []) ++ [LF]).

Definition file_header : list string :=
  ["# general considerations:"; "#"; "# comment lines begin by #"; "# empty lines are removed"; "#";
   "# directives have format: <tagname>=<value>"; "# with the regexp: ^([a-zA-Z0-9_]+)[ \t]*=[ \t]*(.+)"; "#";
   "# directives are grouped into sections"; "# section begins by [SECTIONNAME]"]%string.

Definition text_line (s : string) : bytes := str s ++ [LF].

Fixpoint write_groups (gs : wzd_groups) (ids : list Z) : outcome bytes :=
  match ids with
  | [] => Val []
  | i :: ids =>
    a ← group_get_by_id i gs;
    t ← match a with
        | None => Val []
        | Some a =>
          g ← deref (r_heap gs !! a);
          n ← buf_str (groupname g);
          if bool_decide (n = []) || streq n (str "nogroup") then Val [] else write_single_group g
        end;
    r ← write_groups gs ids;
    Val (t ++ r)
  end.

Fixpoint write_users (us : users) (gs : wzd_groups) (ids : list Z) : outcome bytes :=
  match ids with
  | [] => Val []
  | i :: ids =>
    a ← user_get_by_id i us;
    t ← match a with
        | None => Val []
        | Some a =>
          u ← deref (r_heap us !! a);
          n ← buf_str (username u);
          if bool_decide (n = []) || streq n (str "nobody") then Val [] else write_single_user gs u
        end;
    r ← write_users us gs ids;
    Val (t ++ r)
  end.

(** What [write_user_file] writes once the files are open and the old one is
    copied. *)
Definition users_file_text (w : world) : outcome bytes :=
  gids ← group_get_list (w_groups w);
  gt ← write_groups (w_groups w) gids;
  uids ← user_get_list (w_users w);
  ut ← write_users (w_users w) (w_groups w) uids;
  Val (concat (map text_line file_header) ++ [LF] ++ text_line "# groups definitions" ++ text_line "[GROUPS]" ++ gt ++
       text_line "# users definitions" ++ text_line "# users MUST begin by line name=<>" ++ text_line "[USERS]" ++ ut).
