(* ===== verification/UsersFileProps.v ===== *)
(** * Properties of the users file: what is written is read back *)

From S2P Require Import Prelude CList Ip Registry Users Backend Str Session Path PermFile UsersFile.

(** ** Lines *)

Lemma line_of_line k l rest : LF ∉ l → (length l < k)%nat → line_of k (l ++ LF :: rest) = (l ++ [LF], rest).
Proof.
  revert l. induction k as [|k IH]; intros l Hl Hk; [lia|]. destruct l as [|c l]; cbn [app line_of].
  - by rewrite bool_decide_eq_true_2.
  - simpl in Hk. rewrite bool_decide_eq_false_2 by set_solver. by rewrite IH by (set_solver || lia).
Qed.

Lemma fgets_line n l rest :
  LF ∉ l → nul_free l → (length l + 1 < n)%nat → fgets n (l ++ LF :: rest) = Some (l ++ [LF], rest).
Proof.
  intros Hl Hn Hlen. unfold fgets. rewrite line_of_line by (done || lia).
  rewrite cstring_id by (unfold nul_free in *; set_solver). by destruct l.
Qed.

Lemma skip_while_head p s : (∀ c, head s = Some c → p c = false) → skip_while p s = s.
Proof. destruct s as [|c s]; [done|]. simpl. intros H. by rewrite H. Qed.

Lemma chop_line l : LF ∉ l → last l ≠ Some CR → chop (l ++ [LF]) = l.
Proof.
  intros Hl Hcr. unfold chop. rewrite reverse_snoc. cbn [skip_while is_eol]. change (is_eol LF) with true. cbv iota.
  rewrite skip_while_head; [apply reverse_involutive|]. intros c Hc. destruct l as [|x l] using rev_ind; [done|].
  rewrite reverse_snoc in Hc. injection Hc as ->. rewrite last_snoc in Hcr. unfold is_eol.
  rewrite !bool_decide_eq_false_2; [done|set_solver|congruence].
Qed.

(** A value that fits on a line. *)
Definition value_fits (v : bytes) : Prop :=
  v ≠ [] ∧ (LF ∉ v) ∧ nul_free v ∧ (last v ≠ Some CR) ∧ (∀ c, head v = Some c → is_blank c = false).

(** A name the expression accepts. *)
Definition is_name (n : bytes) : bool := negb (bool_decide (n = [])) && forallb is_word n.

Lemma word_facts c : is_word c = true → c ≠ LF ∧ c ≠ NUL ∧ c ≠ CR ∧ is_blank c = false.
Proof. revert c. all_chars; split_and!; done. Qed.

Lemma take_word n c s : forallb is_word n = true → is_word c = false → take_while is_word (n ++ c :: s) = n ∧ skip_while is_word (n ++ c :: s) = c :: s.
Proof.
  induction n as [|x n IH]; cbn [app forallb take_while skip_while].
  - intros _ Hc. by rewrite Hc.
  - intros [Hx Hn]%andb_true_iff Hc. rewrite Hx. destruct (IH Hn Hc) as [-> ->]. done.
Qed.

Lemma reg_line_entry n v : is_name n = true → (∀ c, head v = Some c → is_blank c = false) →
  reg_line (n ++ "="%char :: v) = match v with [] => None | _ => Some (n, v) end.
Proof.
  intros [Hne Hw]%andb_true_iff Hv. unfold reg_line. destruct (take_word n "="%char v Hw eq_refl) as [-> ->].
  destruct n as [|x n]; [done|]. cbn [skip_while is_blank]. change (is_blank "="%char) with false. cbv iota.
  rewrite (skip_while_head _ v) by done. destruct v; done.
Qed.

Lemma name_line n : is_name n = true → (LF ∉ n) ∧ nul_free n.
Proof.
  intros [_ Hw]%andb_true_iff. rewrite forallb_forall in Hw. split; intros Hi%list_elem_of_In%Hw; by apply word_facts in Hi as (? & ? & _).
Qed.

(** ** Numbers *)

Lemma dec_digits n : ∃ s, dec n = s ∧ s ≠ [] ∧ Forall (λ c, isdigit_in 10 c = true) s ∧ (length s ≤ 20)%nat.
Proof.
  unfold dec. destruct (print_digits 10 20 n [] ltac:(lia)) as (s & -> & Hs & Hl & Hne). rewrite app_nil_r. exists s. auto.
Qed.

Lemma print_head k n acc : 0 < n < 10 ^ Z.of_nat k → ∃ c s, print_in 10 k n acc = c :: s ∧ c ≠ "0"%char ∧ isdigit_in 10 c = true.
Proof.
  revert n acc. induction k as [|k IH]; intros n acc Hn; [simpl in Hn; lia|]. cbn [print_in].
  pose proof (Z.mod_pos_bound n 10 ltac:(lia)). destruct (digit_char 10 (n mod 10) ltac:(lia) ltac:(lia)) as [Hd Hv].
  destruct (Z.eqb_spec (n / 10) 0) as [Hz|Hz].
  - eexists _, _. split; [done|]. split; [|done]. intros E. rewrite E in Hv. change (digit "0"%char) with 0 in Hv.
    pose proof (Z.div_mod n 10 ltac:(lia)). lia.
  - apply IH. rewrite Nat2Z.inj_succ, Z.pow_succ_r in Hn by lia. split; [pose proof (Z.div_pos n 10 ltac:(lia) ltac:(lia)); lia|].
    apply Z.div_lt_upper_bound; lia.
Qed.

Lemma xdigit_dec c : isdigit_in 10 c = true → xdigit c = digit c ∧ (xdigit c <? 10) = true.
Proof.
  unfold isdigit_in. intros [H1 H2]%andb_true_iff. unfold xdigit, digit in *. rewrite H1. unfold isdigit, between in H1. lia.
Qed.

Lemma digits0_dec acc s : Forall (λ c, isdigit_in 10 c = true) s → digits0 10 acc s = digits_value_in 10 acc s.
Proof.
  intros Hs. revert acc. induction Hs as [|c s Hc Hs IH]; intros acc; [done|]. cbn [digits0 digits_value_in].
  rewrite Hc. destruct (xdigit_dec c Hc) as [E Hx]. by rewrite Hx, E, IH.
Qed.

(** The sign, the base and the digits of a printed number. *)
Lemma scan_dec n : 0 ≤ n < 10 ^ 20 → ∃ c s base,
  dec n = c :: s ∧ isspace c = false ∧ c ≠ "-"%char ∧ c ≠ "+"%char ∧ isdigit c = true ∧
  base_of (c :: s) = (base, c :: s) ∧ (xdigit c <? base) = true ∧ digits0 base 0 (c :: s) = (n, []).
Proof.
  intros Hn. destruct (decide (n = 0)) as [->|Hz]; [by exists "0"%char, [], 8|].
  destruct (print_head 20 n [] ltac:(change (Z.of_nat 20) with 20; lia)) as (c & s & E & Hc0 & Hd). exists c, s, 10.
  assert (Hs : Forall (λ c, isdigit_in 10 c = true) (c :: s)).
  { destruct (dec_digits n) as (t & Ht & _ & Hf & _). unfold dec in Ht. rewrite E in Ht. by subst t. }
  destruct (isdigit_in_facts 10 c Hd) as (Hi & Hsp & Hm & Hp & _). split_and!; try done.
  - unfold base_of. destruct (ascii_dec c "0"%char); [done|]. by destruct c as [[] [] [] [] [] [] [] []].
  - by apply xdigit_dec.
  - rewrite digits0_dec by done. pose proof (digits_print 10 20 n [] ltac:(lia) ltac:(change (Z.of_nat 20) with 20; lia)) as H.
    by rewrite E in H.
Qed.

Lemma strtoul0_dec n : 0 ≤ n < 2 ^ 64 → strtoul0 (dec n) = (n, []) ∧ dec n ≠ [].
Proof.
  intros Hn. destruct (scan_dec n ltac:(lia)) as (c & s & base & E & Hsp & Hm & Hp & _ & Hb & Hx & Hd). rewrite E. split; [|done].
  unfold strtoul0. cbn [skip_spaces]. rewrite Hsp, !bool_decide_eq_false_2 by done. rewrite Hb, Hx, Hd.
  rewrite (proj2 (Z.ltb_ge _ _)); [done|unfold ULONG_MAX; lia].
Qed.

Lemma strtoul0_neg n : 0 ≤ n < 2 ^ 64 → strtoul0 ("-"%char :: dec n) = (u64 (- n), []).
Proof.
  intros Hn. destruct (scan_dec n ltac:(lia)) as (c & s & base & E & Hsp & Hm & Hp & _ & Hb & Hx & Hd). rewrite E.
  unfold strtoul0. cbn [skip_spaces]. change (isspace "-"%char) with false. cbv iota. rewrite bool_decide_eq_true_2 by done.
  rewrite Hb, Hx, Hd. rewrite (proj2 (Z.ltb_ge _ _)); [done|unfold ULONG_MAX; lia].
Qed.

Lemma natural_dec n : 0 ≤ n < 2 ^ 63 → natural (dec n) = Some n.
Proof.
  intros Hn. destruct (scan_dec n ltac:(lia)) as (c & s & base & E & Hsp & Hm & Hp & _ & Hb & Hx & Hd). rewrite E.
  unfold natural, strtol0. cbn [skip_spaces]. rewrite Hsp, !bool_decide_eq_false_2 by done. rewrite Hb, Hx, Hd.
  rewrite Z.min_l by lia. rewrite bool_decide_eq_false_2, bool_decide_eq_true_2 by done. cbn [orb negb].
  by rewrite (proj2 (Z.ltb_ge _ _)) by lia.
Qed.

Lemma unsigned_dec n : 0 ≤ n < 2 ^ 64 → unsigned (dec n) = Some n.
Proof.
  intros Hn. destruct (strtoul0_dec n Hn) as [E Hne]. unfold unsigned. rewrite E.
  rewrite bool_decide_eq_false_2 by done. by rewrite bool_decide_eq_true_2.
Qed.

Lemma counter_dec n : 0 ≤ n < 2 ^ 64 → counter (dec n) = Some n.
Proof.
  intros Hn. pose proof (unsigned_dec n Hn) as Hu. destruct (scan_dec n ltac:(lia)) as (c & s & base & E & _ & _ & _ & Hd & _).
  rewrite E in *. unfold counter. by rewrite Hd.
Qed.

(** The slots are printed as signed numbers of 16 bits, and read back. *)
Lemma slots_short n : 0 ≤ n < 2 ^ 16 → ∃ v, unsigned (signed_dec (short n)) = Some v ∧ u16 v = n.
Proof.
  intros Hn. unfold short, signed_dec, u16. rewrite (Z.mod_small n) by lia. destruct (Z.ltb_spec n (2 ^ 15)).
  - rewrite (proj2 (Z.ltb_ge _ _)) by lia. exists n. split; [apply unsigned_dec; lia|apply Z.mod_small; lia].
  - rewrite (proj2 (Z.ltb_lt _ _)) by lia. unfold unsigned. rewrite strtoul0_neg by lia.
    rewrite bool_decide_eq_false_2 by done. rewrite bool_decide_eq_true_2 by done. eexists. split; [done|].
    unfold u64. rewrite <- (Z.mod_add _ 1 (2 ^ 64)), (Z.mod_small (_ + _)) by lia.
    replace (- - (n - 2 ^ 16) + 1 * 2 ^ 64) with (n + (2 ^ 48 - 1) * 2 ^ 16) by lia. rewrite Z.mod_add by lia. apply Z.mod_small. lia.
Qed.

Lemma natural_long n : 0 ≤ n < 2 ^ 63 → natural (signed_dec (long n)) = Some n.
Proof.
  intros Hn. unfold signed_dec, long, u64. rewrite (Z.mod_small n) by lia.
  rewrite (proj2 (Z.ltb_lt n _)), (proj2 (Z.ltb_ge _ _)) by lia. by apply natural_dec.
Qed.

Lemma hexdigit_facts d : 0 ≤ d < 16 → xdigit (hexdigit d) = d ∧ is_word (hexdigit d) = true.
Proof.
  intros Hd. assert (H : ∀ i, i ∈ seq 0 16 → xdigit (hexdigit (Z.of_nat i)) = Z.of_nat i ∧ is_word (hexdigit (Z.of_nat i)) = true).
  { intros i Hi. repeat (apply elem_of_cons in Hi as [->|Hi]; [by split; vm_compute|]). by apply not_elem_of_nil in Hi. }
  specialize (H (Z.to_nat d)). rewrite Z2Nat.id in H by lia. apply H, elem_of_seq. lia.
Qed.

Lemma hex_chars k v acc : ∃ s, hex_in k v acc = s ++ acc ∧ Forall (λ c, is_word c = true) s ∧ (length s ≤ k)%nat ∧ (k ≠ O → s ≠ []).
Proof.
  revert v acc. induction k as [|k IH]; intros v acc; [exists []; naive_solver|]. cbn [hex_in].
  destruct (hexdigit_facts (v mod 16)) as [_ Hw]; [apply Z.mod_pos_bound; lia|]. destruct (v / 16 =? 0).
  - exists [hexdigit (v mod 16)]. split_and!; [done|by repeat constructor|simpl; lia|done].
  - destruct (IH (v / 16) (hexdigit (v mod 16) :: acc)) as (s & -> & Hs & Hl & _). exists (s ++ [hexdigit (v mod 16)]).
    rewrite <- app_assoc, length_app, Forall_app. simpl. split_and!; [done|done|by constructor|lia|by destruct s].
Qed.

Lemma digits0_hex k v acc : 0 ≤ v < 16 ^ Z.of_nat k → digits0 16 0 (hex_in k v acc) = digits0 16 v acc.
Proof.
  revert v acc. induction k as [|k IH]; intros v acc Hv; [simpl in Hv; by replace v with 0 by lia|]. cbn [hex_in].
  pose proof (Z.mod_pos_bound v 16 ltac:(lia)) as Hm. pose proof (Z.div_mod v 16 ltac:(lia)) as Hd.
  destruct (hexdigit_facts (v mod 16) Hm) as [Hx _]. assert (Hlt : (xdigit (hexdigit (v mod 16)) <? 16) = true) by (rewrite Hx; lia).
  destruct (Z.eqb_spec (v / 16) 0) as [Hz|Hz].
  - cbn [digits0]. rewrite Hlt, Hx. f_equal. lia.
  - rewrite IH; [cbn [digits0]; rewrite Hlt, Hx; f_equal; lia|].
    rewrite Nat2Z.inj_succ, Z.pow_succ_r in Hv by lia. split; [apply Z.div_pos; lia|apply Z.div_lt_upper_bound; lia].
Qed.

Lemma hex_first k v acc : k ≠ O → ∃ c s, hex_in k v acc = c :: s ∧ (xdigit c <? 16) = true.
Proof.
  revert v acc. induction k as [|k IH]; intros v acc Hk; [done|]. cbn [hex_in].
  destruct (hexdigit_facts (v mod 16)) as [Hx _]; [apply Z.mod_pos_bound; lia|].
  pose proof (Z.mod_pos_bound v 16 ltac:(lia)). destruct (v / 16 =? 0); [eexists _, _; split; [done|]; rewrite Hx; lia|].
  destruct k; [eexists _, _; split; [done|]; rewrite Hx; lia|]. by apply IH.
Qed.

Lemma strtoul0_hex n : 0 ≤ n < 2 ^ 64 → strtoul0 (str "0x" ++ hex n) = (n, []).
Proof.
  intros Hn. unfold hex. destruct (hex_first 16 n [] ltac:(done)) as (c & s & E & Hc).
  pose proof (digits0_hex 16 n [] ltac:(change (Z.of_nat 16) with 16; lia)) as Hd. rewrite E in *.
  unfold strtoul0. change (skip_spaces (str "0x" ++ c :: s)) with ("0"%char :: "x"%char :: c :: s).
  cbv beta iota zeta. change (bool_decide ("0"%char = "-"%char)) with false. change (bool_decide ("0"%char = "+"%char)) with false.
  cbv beta iota zeta delta [base_of]. change (bool_decide ("x"%char = "x"%char)) with true. rewrite Hc. cbn [orb andb].
  rewrite Hc, Hd. cbn [digits0]. rewrite (proj2 (Z.ltb_ge _ _)); [done|unfold ULONG_MAX; lia].
Qed.

(** *** Numbers fit on a line *)

Lemma word_fits v : v ≠ [] → Forall (λ c, is_word c = true) v → value_fits v.
Proof.
  intros Hne Hv. rewrite Forall_forall in Hv. split_and!; [done|intros Hi%Hv; by apply word_facts in Hi as (? & _)|..].
  - intros Hi%Hv. by apply word_facts in Hi as (_ & ? & _).
  - intros Hl. assert (CR ∈ v) as Hi%Hv by (by apply last_Some_elem_of). by apply word_facts in Hi as (_ & _ & ? & _).
  - intros c Hh. assert (c ∈ v) as Hi%Hv by (by apply head_Some_elem_of). by apply word_facts in Hi as (_ & _ & _ & ?).
Qed.

Lemma digit_word c : isdigit_in 10 c = true → is_word c = true.
Proof. unfold isdigit_in. intros [H _]%andb_true_iff. unfold is_word, isalnum. rewrite H. by rewrite !orb_true_r. Qed.

Lemma dec_fits n : value_fits (dec n) ∧ (length (dec n) ≤ 20)%nat.
Proof.
  destruct (dec_digits n) as (s & -> & Hne & Hs & Hl). split; [|done]. apply word_fits; [done|].
  eapply Forall_impl; [exact Hs|]. intros c. apply digit_word.
Qed.

Lemma hex_fits n : value_fits (str "0x" ++ hex n) ∧ (length (str "0x" ++ hex n) ≤ 18)%nat.
Proof.
  unfold hex. destruct (hex_chars 16 n []) as (s & -> & Hs & Hl & _). rewrite app_nil_r. split; [|simpl; lia].
  apply word_fits; [done|]. apply Forall_app. split; [by repeat constructor|done].
Qed.

Lemma signed_fits n : value_fits (signed_dec n) ∧ (length (signed_dec n) ≤ 21)%nat.
Proof.
  unfold signed_dec. destruct (n <? 0); [|destruct (dec_fits n); split; [done|lia]].
  destruct (dec_fits (- n)) as [(Hne & Hlf & Hnul & Hcr & _) Hl]. split; [|simpl; lia]. split_and!; [done|set_solver|unfold nul_free in *; set_solver| |].
  - destruct (dec (- n)); [done|]. exact Hcr.
  - intros c [= <-]. done.
Qed.

(** ** The lines of a record *)

Lemma line_of_shorter k f l r : line_of (S k) f = (l, r) → f ≠ [] → (length r < length f)%nat.
Proof.
  revert f l r. induction k as [|k IH]; intros [|c f] l r H Hne; [done| |done|].
  - cbn [line_of] in H. destruct (bool_decide (c = LF)); simplify_eq; simpl; lia.
  - cbn [line_of] in H. destruct (bool_decide (c = LF)); [simplify_eq; simpl; lia|].
    destruct f as [|c' f]; [simplify_eq; simpl; lia|]. destruct (line_of (S k) (c' :: f)) as [l' r'] eqn:E.
    cbn [line_of] in E. rewrite E in H. injection H as <- <-. apply (IH (c' :: f) l' r') in E; [|done]. simpl in *. lia.
Qed.

Lemma fgets_shorter n f l r : (2 ≤ n)%nat → fgets n f = Some (l, r) → (length r < length f)%nat.
Proof.
  intros Hn H. unfold fgets in H. destruct f as [|c f]; [done|]. destruct (line_of (n - 1) (c :: f)) as [l' r'] eqn:E.
  injection H as <- <-. destruct n as [|[|n]]; [lia..|]. replace (S (S n) - 1)%nat with (S n) in E by lia. by eapply line_of_shorter.
Qed.

Lemma entry_line name v : is_name (str name) = true → v = [] ∨ value_fits v →
  (LF ∉ str name ++ "="%char :: v) ∧ nul_free (str name ++ "="%char :: v) ∧ last (str name ++ "="%char :: v) ≠ Some CR.
Proof.
  intros Hn Hv. destruct (name_line _ Hn) as [H1 H2]. unfold nul_free in *.
  destruct Hv as [->|(_ & H3 & H4 & H5 & _)]; (split_and!; [set_solver|set_solver|]).
  - by rewrite last_snoc.
  - rewrite last_app_cons. destruct v; [done|exact H5].
Qed.

Section record.
  Context {A : Type} (read_line : bytes → A → outcome A).

(** With as much fuel as the file is long the fuel does not matter. *)
Lemma record_loop_fuel n a f : (length f ≤ n)%nat → record_loop read_line n a f = record_loop read_line (length f) a f.
Proof.
  remember (length f) as m eqn:Hm. revert n a f Hm. induction m as [m IH] using lt_wf_ind. intros n a f -> Hn.
  destruct f as [|c f]; [by destruct n|]. destruct n as [|n]; [simpl in Hn; lia|]. cbn [length] in *.
  unfold record_loop; fold (@record_loop A). destruct (fgets (MAX_LINE - 1) (c :: f)) as [[l r]|] eqn:E; [|done].
  apply fgets_shorter in E; [|unfold MAX_LINE; lia]. simpl in E. destruct (chop l); [done|].
  destruct (read_line _ a) as [a'|]; [|done]. run. rewrite (IH (length r)) by lia. symmetry. apply IH; lia.
Qed.

Definition record (a : A) (f : bytes) : outcome (A * bytes) := record_loop read_line (length f) a f.

Lemma record_step a l rest :
  (LF ∉ l) → nul_free l → (last l ≠ Some CR) → (length l + 1 < 1023)%nat →
  record a (l ++ LF :: rest) = match l with [] => Val (a, rest) | _ => a ← read_line l a; record a rest end.
Proof.
  intros Hlf Hnul Hcr Hlen. unfold record. assert (E : length (l ++ LF :: rest) = S (length l + length rest)) by (rewrite length_app; simpl; lia).
  rewrite E. unfold record_loop at 1; fold (@record_loop A). rewrite fgets_line by (done || (unfold MAX_LINE; lia)).
  rewrite chop_line by done. destruct l as [|c l]; [done|]. destruct (read_line (c :: l) a) as [a'|]; [|done]. run.
  apply record_loop_fuel. simpl. lia.
Qed.

Lemma record_end a rest : record a ([LF] ++ rest) = Val (a, rest).
Proof. apply (record_step a [] rest); [apply not_elem_of_nil|apply not_elem_of_nil|done|simpl; lia]. Qed.

Lemma record_entry a name v rest :
  is_name (str name) = true → v = [] ∨ value_fits v → (length (str name) + length v ≤ 1015)%nat →
  record a (entry name v ++ rest) = a ← read_line (str name ++ "="%char :: v) a; record a rest.
Proof.
  intros Hn Hv Hl. unfold entry. replace ((str name ++ "="%char :: v ++ [LF]) ++ rest) with ((str name ++ "="%char :: v) ++ LF :: rest)
    by (rewrite <- !app_assoc; simpl; by rewrite <- app_assoc).
  destruct (entry_line name v Hn Hv) as (H1 & H2 & H3). rewrite record_step; [|done..|rewrite length_app; simpl; lia].
  by destruct (str name).
Qed.
End record.

(** ** Users *)

Lemma user_line_entry gs name f v u :
  is_name (str name) = true → field_named user_fields (str name) = Some f → value_fits v →
  user_line gs (str name ++ "="%char :: v) u = set_field gs f v u.
Proof.
  intros Hn Hf (Hne & _ & _ & _ & Hb). unfold user_line. rewrite reg_line_entry by done. destruct v; [done|]. by rewrite Hf.
Qed.

Lemma user_entry gs name f v u u' rest :
  is_name (str name) = true → field_named user_fields (str name) = Some f → value_fits v → (length (str name) + length v ≤ 1015)%nat →
  set_field gs f v u = Val u' → record (user_line gs) u (entry name v ++ rest) = record (user_line gs) u' rest.
Proof.
  intros Hn Hf Hv Hl Hs. rewrite record_entry by auto. rewrite (user_line_entry _ _ f) by done. by rewrite Hs.
Qed.

Lemma user_entry_if gs name f n v u u' rest :
  is_name (str name) = true → field_named user_fields (str name) = Some f → value_fits v → (length (str name) + length v ≤ 1015)%nat →
  set_field gs f v u = Val u' → (n = 0 → u' = u) → record (user_line gs) u (entry_if name n v ++ rest) = record (user_line gs) u' rest.
Proof.
  intros Hn Hf Hv Hl Hs Hz. unfold entry_if. destruct (Z.eqb_spec n 0) as [->|]; [by rewrite Hz|]. by eapply user_entry.
Qed.

(** A text that may be empty: the line is then written without a value, or not at
    all, and read as nothing. *)
Lemma user_text gs name f v u u' rest :
  is_name (str name) = true → field_named user_fields (str name) = Some f → v = [] ∨ value_fits v → (length (str name) + length v ≤ 1015)%nat →
  (v ≠ [] → set_field gs f v u = Val u') → (v = [] → u' = u) →
  record (user_line gs) u (entry name v ++ rest) = record (user_line gs) u' rest ∧
  record (user_line gs) u ((if (0 <? length v)%nat then entry name v else []) ++ rest) = record (user_line gs) u' rest.
Proof.
  intros Hn Hf Hv Hl Hs Hz. destruct v as [|c v].
  - rewrite Hz by done. split; [|done]. rewrite record_entry by auto. unfold user_line. by rewrite reg_line_entry.
  - assert (record (user_line gs) u (entry name (c :: v) ++ rest) = record (user_line gs) u' rest) as E; [|done].
    destruct Hv as [|Hv]; [done|]. eapply user_entry; try done. by apply Hs.
Qed.

(** A buffer that holds a text. *)
Definition text_in (cap : nat) (buf s : bytes) : Prop := buf = padded cap s ∧ (length s < cap)%nat ∧ (s = [] ∨ value_fits s).

Lemma fits_nul_free s : s = [] ∨ value_fits s → nul_free s.
Proof. intros [->|(_ & _ & ? & _)]; [apply not_elem_of_nil|done]. Qed.

Lemma upto_padded cap s : nul_free s → (length s < cap)%nat → upto cap (padded cap s) = s.
Proof.
  intros Hs Hl. unfold upto. rewrite take_ge by (by rewrite length_padded by lia). unfold padded.
  destruct (cap - length s)%nat as [|k] eqn:E; [lia|]. by apply cstring_app_nul.
Qed.
Lemma padded_nil n : padded n [] = replicate n NUL.
Proof. unfold padded. simpl. by rewrite Nat.sub_0_r. Qed.

(** *** The list of groups *)

(** [n] is the name of the group [i] where the file is written, and the name of
    [i] where it is read. *)
Definition same_group (src dst : wzd_groups) (i : Z) (n : bytes) : Prop :=
  group_name_of src i = Val (Some n) ∧ value_fits n ∧ (","%char ∉ n) ∧
  ∃ a g, group_get_by_name (Some n) dst = Val (Some a) ∧ r_heap dst !! a = Some g ∧ gid g = i.

Definition joined (names : list bytes) : bytes := match names with [] => [] | n :: ns => n ++ concat (map (λ n, ","%char :: n) ns) end.

Lemma other_groups_names src dst ids names :
  Forall2 (same_group src dst) ids names → other_groups src ids = Val (concat (map (λ n, ","%char :: n) names)).
Proof.
  induction 1 as [|i n ids names (Hn & _) _ IH]; [done|]. cbn [other_groups map concat]. rewrite Hn. run. rewrite IH. done.
Qed.

Lemma push_group_next u ids i k :
  group_num u = Z.of_nat (length ids) → groups u = ids ++ replicate (S k) 0 →
  push_group u i = Val (set_groups u (Z.of_nat (length (ids ++ [i]))) ((ids ++ [i]) ++ replicate k 0)).
Proof.
  intros Hn Hg. unfold push_group. rewrite Hn, Hg, length_app, length_replicate. rewrite (proj2 (Z.ltb_lt _ _)) by lia.
  f_equal. rewrite length_app, Nat2Z.id. simpl. f_equal; [lia|].
  rewrite <- (Nat.add_0_r (length ids)), insert_app_r. simpl. by rewrite <- app_assoc.
Qed.

Lemma strtok_comma n s : n ≠ [] → ","%char ∉ n →
  strtok (λ c, bool_decide (c = ","%char)) (n ++ s) = match s with
    | [] => (Some n, [])
    | c :: s' => strtok (λ c, bool_decide (c = ","%char)) (n ++ c :: s')
    end.
Proof.
  intros Hne Hc. destruct s as [|c s]; [|done]. rewrite app_nil_r. unfold strtok.
  rewrite skip_while_head. 2: { intros c Hh. apply bool_decide_eq_false_2. intros ->. apply Hc. by apply head_Some_elem_of. }
  destruct n as [|x n]; [done|]. assert (H : ∀ l, ","%char ∉ l → take_until (λ c, bool_decide (c = ","%char)) l = (l, [])).
  { induction l as [|y l IH]; intros Hl; [done|]. cbn [take_until]. rewrite bool_decide_eq_false_2 by set_solver. by rewrite IH by set_solver. }
  by rewrite H.
Qed.

(** Skipping a comma that was not consumed by the token before. *)
Lemma add_groups_names src dst fuel u ids0 ids names k :
  Forall2 (same_group src dst) ids names → (length names < fuel)%nat → (length ids ≤ k)%nat →
  group_num u = Z.of_nat (length ids0) → groups u = ids0 ++ replicate k 0 →
  add_groups fuel dst u (joined names) =
    Val (set_groups u (Z.of_nat (length (ids0 ++ ids))) ((ids0 ++ ids) ++ replicate (k - length ids) 0)).
Proof.
  intros Hs. revert fuel u ids0 k. induction Hs as [|i n ids names (_ & Hfit & Hc & a & g & Hget & Hh & Hg) Hs IH]; intros fuel u ids0 k Hfuel Hk Hn Hgr.
  - destruct fuel as [|fuel]; [simpl in Hfuel; lia|]. simpl. rewrite app_nil_r, Nat.sub_0_r, <- Hgr, <- Hn. by destruct u.
  - destruct fuel as [|fuel]; [simpl in Hfuel; lia|]. destruct k as [|k]; [simpl in Hk; lia|]. simpl in Hk, Hfuel.
    assert (Htok : strtok (λ c, bool_decide (c = ","%char)) (joined (n :: names)) = (Some n, joined names)).
    { destruct Hfit as (Hne & _). cbn [joined]. destruct names as [|n' names]; cbn [map concat app].
      - rewrite app_nil_r. pose proof (strtok_comma n [] Hne Hc) as E. by rewrite app_nil_r in E.
      - apply (strtok_app _ [] n ","%char); [constructor|done| |by apply bool_decide_eq_true_2].
        rewrite Forall_forall. intros c Hi. apply bool_decide_eq_false_2. intros ->. done. }
    cbn [add_groups]. rewrite Htok, Hget. run. rewrite Hh. run. rewrite (push_group_next u ids0 (gid g) k) by done. run.
    rewrite (IH fuel _ (ids0 ++ [i]) k); [|lia|lia|by rewrite Hg|by rewrite Hg].
    rewrite <- (app_assoc ids0 [i] ids). reflexivity.
Qed.

(** *** The addresses *)

Definition ip_fits (e : wzd_ip_list_t) : Prop := value_fits (regexp e) ∧ Z.of_nat (length (regexp e)) < MAX_IP_LENGTH.

Lemma ip_entries gs ips u rest :
  Forall ip_fits ips →
  record (user_line gs) u (concat (map (λ e, entry "ip_allowed" (regexp e)) ips) ++ rest) =
    record (user_line gs) (set_u_ip_list u (u_ip_list u ++ map (λ e, mkIpEntry (regexp e) 1) ips)) rest.
Proof.
  intros Hip. revert u. induction Hip as [|e ips [Hf Hl] Hip IH]; intros u; cbn [map concat].
  - rewrite app_nil_r. by destruct u.
  - rewrite <- app_assoc. unfold MAX_IP_LENGTH in Hl.
    rewrite (user_entry gs "ip_allowed" FIp _ _ (set_u_ip_list u (u_ip_list u ++ [mkIpEntry (regexp e) 1]))); [|done|done|done|simpl; lia|].
    + rewrite IH. cbn [u_ip_list set_u_ip_list]. by rewrite <- app_assoc.
    + cbn [set_field]. unfold __user_ip_add, ip_add_check. destruct Hf as (Hne & _). destruct (regexp e); [done|].
      rewrite !(proj2 (Z.ltb_ge _ _)) by (simpl; lia). by rewrite !(proj2 (Z.leb_gt _ _)) by (unfold MAX_IP_LENGTH; lia).
Qed.

(** ** What can be stored *)

Definition is_u16 (n : Z) : Prop := 0 ≤ n < 2 ^ 16.
Definition is_u32 (n : Z) : Prop := 0 ≤ n < 2 ^ 32.
Definition is_u64 (n : Z) : Prop := 0 ≤ n < 2 ^ 64.

Record storable (src dst : wzd_groups) (u : wzd_user_t) : Prop := {
  so_name : ∃ s, username u = padded HARD_USERNAME_LENGTH s ∧ (length s < HARD_USERNAME_LENGTH)%nat ∧ value_fits s;
  so_pass : ∃ s, text_in MAX_PASS_LENGTH (userpass u) s;
  so_home : ∃ s, text_in WZD_MAX_PATH (rootpath u) s ∧ (length s ≤ 1000)%nat ∧ home_value s = s;
  so_tag : ∃ s, text_in MAX_TAGLINE_LENGTH (u_tagline u) s;
  so_flags : ∃ s, text_in MAX_FLAGS_NUM (flags u) s;
  so_groups : ∃ ids names, group_num u = Z.of_nat (length ids) ∧ groups u = ids ++ replicate (MAX_GROUPS_PER_USER - length ids) 0 ∧
    (length ids ≤ MAX_GROUPS_PER_USER)%nat ∧ Forall2 (same_group src dst) ids names ∧ (length (joined names) ≤ 1000)%nat;
  so_ips : Forall ip_fits (u_ip_list u);
  so_u32 : Forall is_u32 [uid u; creator u; u_max_ul_speed u; u_max_dl_speed u; u_ratio u; u_max_idle_time u];
  so_u16 : Forall is_u16 [u_num_logins u; logins_per_ip u; user_slots u; leech_slots u];
  so_u64 : Forall is_u64 [userperms u; credits u; bytes_ul_total (stats u); bytes_dl_total (stats u); files_ul_total (stats u); files_dl_total (stats u)];
  so_login : 0 ≤ last_login u < 2 ^ 63 }.

(** The user as it comes back: the right to change directory is granted, every
    address is an allowed one, and the backend is not set yet. *)
Definition restored (u : wzd_user_t) : wzd_user_t :=
  set_u_ip_list (set_userperms (set_u_backend u 0) (Z.lor (userperms u) RIGHT_CWD)) (map (λ e, mkIpEntry (regexp e) 1) (u_ip_list u)).

Lemma number_field (S : wzd_user_t → Z → wzd_user_t) (w : Z → Z) o n u m :
  o = Some n → w n = m → when o (λ n, S u (w n)) u = Val (S u m).
Proof. intros -> Hw. unfold when. by rewrite Hw. Qed.

Lemma u32_id n : is_u32 n → u32 n = n.
Proof. apply Z.mod_small. Qed.
Lemma u16_id n : is_u16 n → u16 n = n.
Proof. apply Z.mod_small. Qed.
Lemma natural_u32 n : is_u32 n → natural (dec n) = Some n.
Proof. unfold is_u32. intros. apply natural_dec. lia. Qed.
Lemma natural_u16 n : is_u16 n → natural (dec n) = Some n.
Proof. unfold is_u16. intros. apply natural_dec. lia. Qed.

Lemma user_num gs name f n u u' rest :
  is_name (str name) = true → field_named user_fields (str name) = Some f → (length (str name) ≤ 100)%nat →
  set_field gs f (dec n) u = Val u' → record (user_line gs) u (entry name (dec n) ++ rest) = record (user_line gs) u' rest.
Proof. intros Hn Hf Hl Hs. destruct (dec_fits n). eapply user_entry; [done..|lia|done]. Qed.

Lemma user_num_if gs name f n u u' rest :
  is_name (str name) = true → field_named user_fields (str name) = Some f → (length (str name) ≤ 100)%nat →
  set_field gs f (dec n) u = Val u' → (n = 0 → u' = u) →
  record (user_line gs) u (entry_if name n (dec n) ++ rest) = record (user_line gs) u' rest.
Proof. intros Hn Hf Hl Hs Hz. destruct (dec_fits n). eapply user_entry_if; [done..|lia|done|done]. Qed.

Lemma user_signed_if gs name f n m u u' rest :
  is_name (str name) = true → field_named user_fields (str name) = Some f → (length (str name) ≤ 100)%nat →
  set_field gs f (signed_dec m) u = Val u' → (n = 0 → u' = u) →
  record (user_line gs) u (entry_if name n (signed_dec m) ++ rest) = record (user_line gs) u' rest.
Proof. intros Hn Hf Hl Hs Hz. destruct (signed_fits m). eapply user_entry_if; [done..|lia|done|done]. Qed.

Lemma groups_entry_names src dst u ids names :
  group_num u = Z.of_nat (length ids) → groups u = ids ++ replicate (MAX_GROUPS_PER_USER - length ids) 0 →
  Forall2 (same_group src dst) ids names → (length (joined names) ≤ 1000)%nat →
  groups_entry src u = Val (match names with [] => [] | _ => entry "groups" (joined names) end).
Proof.
  intros Hn Hg Hs Hl. unfold groups_entry. rewrite Hn. destruct Hs as [|i n ids names Hi Hs]; [done|].
  rewrite (proj2 (Z.leb_gt _ _)) by (simpl; lia). rewrite (proj2 (Z.leb_le _ _)) by (rewrite Hg, length_app; lia). run.
  rewrite Nat2Z.id, Hg, take_app_length. destruct Hi as (Hin & _). rewrite Hin. run. rewrite (other_groups_names src dst ids names) by done. run.
  destruct (Nat.leb_spec 4096 (length (n ++ concat (map (λ n0, ","%char :: n0) names)))) as [Hbig|_]; [|done].
  cbn [joined] in Hl. lia.
Qed.

Lemma commas_length ns : (length ns ≤ length (concat (map (λ n, ","%char :: n) ns)))%nat.
Proof. induction ns as [|n ns IH]; [done|]. simpl. rewrite length_app. lia. Qed.

Lemma fits_comma a b : value_fits a → value_fits b → value_fits (a ++ ","%char :: b).
Proof.
  intros (Ha & Hlf & Hnul & _ & Hh) (Hb & Hlf' & Hnul' & Hcr & _). unfold nul_free in *. split_and!; [by destruct a|set_solver|unfold nul_free; set_solver| |].
  - rewrite last_app_cons. destruct b; [done|exact Hcr].
  - intros c Hc. apply Hh. by destruct a.
Qed.

Lemma joined_fits names : names ≠ [] → Forall value_fits names → value_fits (joined names).
Proof.
  intros Hne H. induction H as [|n names Hn H IH]; [done|]. cbn [joined]. destruct names as [|n' names]; cbn [map concat app].
  - by rewrite app_nil_r.
  - apply fits_comma; [done|]. by apply IH.
Qed.

Lemma add_groups_step src dst u ids names rest :
  Forall2 (same_group src dst) ids names → (length ids ≤ MAX_GROUPS_PER_USER)%nat → (length (joined names) ≤ 1000)%nat →
  group_num u = 0 → groups u = replicate MAX_GROUPS_PER_USER 0 →
  record (user_line dst) u (match names with [] => [] | _ => entry "groups" (joined names) end ++ rest) =
    record (user_line dst) (set_groups u (Z.of_nat (length ids)) (ids ++ replicate (MAX_GROUPS_PER_USER - length ids) 0)) rest.
Proof.
  intros Hs Hk Hl Hn Hg. assert (Hset : set_field dst FGroups (joined names) u =
    Val (set_groups u (Z.of_nat (length ids)) (ids ++ replicate (MAX_GROUPS_PER_USER - length ids) 0))).
  { cbn [set_field]. apply (add_groups_names src dst _ u [] ids names MAX_GROUPS_PER_USER); [done| |done|done|done].
    destruct Hs as [|i n ids names (_ & (Hne & _) & _) Hs]; [simpl; lia|]. destruct n as [|c n]; [done|].
    pose proof (commas_length names). cbn [joined length app]. rewrite length_app. lia. }
  destruct names as [|n names].
  - inversion Hs; subst. cbn [app length]. rewrite Nat.sub_0_r. destruct u. simpl in *. by subst.
  - eapply user_entry; [done..| | |exact Hset].
    + apply joined_fits; [done|]. clear - Hs. induction Hs as [|i n' ids names' (_ & Hfit & _) Hs IH]; constructor; done.
    + simpl length at 1. lia.
Qed.

Lemma user_text_always gs name f v u u' rest :
  v = [] ∨ value_fits v → is_name (str name) = true → field_named user_fields (str name) = Some f → (length (str name) + length v ≤ 1015)%nat →
  (v ≠ [] → set_field gs f v u = Val u') → (v = [] → u' = u) →
  record (user_line gs) u (entry name v ++ rest) = record (user_line gs) u' rest.
Proof. intros. by eapply (user_text gs name f). Qed.
Lemma user_text_if gs name f v u u' rest :
  v = [] ∨ value_fits v → is_name (str name) = true → field_named user_fields (str name) = Some f → (length (str name) + length v ≤ 1015)%nat →
  (v ≠ [] → set_field gs f v u = Val u') → (v = [] → u' = u) →
  record (user_line gs) u ((if (0 <? length v)%nat then entry name v else []) ++ rest) = record (user_line gs) u' rest.
Proof. intros. by eapply (user_text gs name f). Qed.

(** The steps of the proof below: a number with its bounds, one that is written
    only when it is not zero, a text. *)
Ltac number S w := cbn [set_field]; eapply (number_field S w);
  [first [by apply natural_u32|by apply natural_u16|by apply counter_dec]|first [by apply u32_id|by apply u16_id|done]].
Ltac zero := let E := fresh in intros E; rewrite ?E; reflexivity.

(** The text of a record after its first line, and what it is read as. *)
Lemma user_record src dst u name i :
  storable src dst u → username u = padded HARD_USERNAME_LENGTH name → (length name < HARD_USERNAME_LENGTH)%nat → value_fits name →
  ∃ text, write_single_user src u = Val (entry "name" name ++ text) ∧ ∀ rest,
    record (user_line dst) (set_uid (set_username user_init_struct (padded HARD_USERNAME_LENGTH name)) i) (text ++ rest) = Val (restored u, rest).
Proof.
  intros [_ (pass & Ep & Hpl & Hpf) (home & (Eh & Hhl & Hhf) & Hh1000 & Hhv) (tag & Et & Htl & Htf) (fl & Ef & Hfl & Hff)
    (ids & names & Hn & Hg & Hk & Hs & Hjl) Hip H32 H16 H64 Hlog] Eun Hnl Hnf.
  repeat (apply Forall_cons in H32 as [? H32]). repeat (apply Forall_cons in H16 as [? H16]). repeat (apply Forall_cons in H64 as [? H64]).
  clear H32 H16 H64. unfold write_single_user. rewrite (groups_entry_names src dst u ids names) by done. run.
  rewrite Et, (buf_str_padded _ tag) by (done || by apply fits_nul_free). run.
  rewrite Ef, (buf_str_padded _ fl) by (done || by apply fits_nul_free). run.
  rewrite Eun, Ep, Eh, !upto_padded by (done || (by apply fits_nul_free) || (apply fits_nul_free; by right)).
  eexists. split; [reflexivity|]. intros rest. rewrite <- !app_assoc.
  unfold MAX_PASS_LENGTH, WZD_MAX_PATH, MAX_TAGLINE_LENGTH, MAX_FLAGS_NUM in *.
  set (U0 := set_uid _ i).
  rewrite (user_text_always dst "pass" FPass pass U0 (set_userpass U0 (padded 48 pass)));
    [|done|done|done|simpl length at 1; lia|intros _; exact (f_equal (λ b, Val (set_userpass U0 b)) (strncpy_padded_last pass 48 ltac:(lia) Hpl))|zero].
  set (U1 := set_userpass U0 _).
  rewrite (user_text_always dst "home" FHome home U1 (set_rootpath U1 (padded 1024 home)));
    [|done|done|done|simpl length at 1; lia|intros _; cbn [set_field]; rewrite Hhv; exact (f_equal (λ b, Val (set_rootpath U1 b)) (strncpy_padded_last home 1024 ltac:(lia) Hhl))|zero].
  set (U2 := set_rootpath U1 _).
  rewrite (user_num dst "uid" FUid _ U2 (set_uid U2 (uid u))); [|done|done|simpl; lia|number set_uid u32]. set (U3 := set_uid U2 _).
  rewrite (user_num dst "creator" FCreator _ U3 (set_creator U3 (creator u))); [|done|done|simpl; lia|number set_creator u32]. set (U4 := set_creator U3 _).
  rewrite (add_groups_step src dst U4 ids names) by done. set (U5 := set_groups U4 _ _).
  rewrite (user_entry dst "rights" FRights _ U5 (set_userperms U5 (Z.lor (userperms u) RIGHT_CWD)));
    [|done|done|apply hex_fits|pose proof (proj2 (hex_fits (userperms u))); simpl length at 1; lia|cbn [set_field]; by rewrite strtoul0_hex].
  set (U6 := set_userperms U5 _).
  rewrite (user_text_if dst "tagline" FTagline tag U6 (set_u_tagline U6 (padded 256 tag)));
    [|done|done|done|simpl length at 1; lia|intros _; exact (f_equal (λ b, Val (set_u_tagline U6 b)) (strncpy_padded (u_tagline U6) tag 256 eq_refl ltac:(lia)))|zero].
  set (U7 := set_u_tagline U6 _).
  rewrite ip_entries by done. set (U8 := set_u_ip_list U7 _).
  rewrite (user_num_if dst "max_ul_speed" FMaxUl _ U8 (set_max_ul_speed U8 (u_max_ul_speed u))); [|done|done|simpl; lia|number set_max_ul_speed u32|zero]. set (U9 := set_max_ul_speed U8 _).
  rewrite (user_num_if dst "max_dl_speed" FMaxDl _ U9 (set_max_dl_speed U9 (u_max_dl_speed u))); [|done|done|simpl; lia|number set_max_dl_speed u32|zero]. set (U10 := set_max_dl_speed U9 _).
  rewrite (user_num dst "credits" FCredits _ U10 (set_credits U10 (credits u))); [|done|done|simpl; lia|number set_credits (λ n : Z, n)]. set (U11 := set_credits U10 _).
  rewrite (user_num dst "bytes_ul_total" FBytesUl _ U11 (set_stats U11 (mkStats (bytes_ul_total (stats u)) 0 0 0))); [|done|done|simpl; lia|].
  2: { cbn [set_field]. rewrite counter_dec by done. reflexivity. }
  set (U12 := set_stats U11 _).
  rewrite (user_num dst "bytes_dl_total" FBytesDl _ U12 (set_stats U12 (mkStats (bytes_ul_total (stats u)) (bytes_dl_total (stats u)) 0 0))); [|done|done|simpl; lia|].
  2: { cbn [set_field]. rewrite counter_dec by done. reflexivity. }
  set (U13 := set_stats U12 _).
  rewrite (user_num_if dst "files_ul_total" FFilesUl _ U13 (set_stats U13 (mkStats (bytes_ul_total (stats u)) (bytes_dl_total (stats u)) (files_ul_total (stats u)) 0)));
    [|done|done|simpl; lia| |zero].
  2: { cbn [set_field]. rewrite unsigned_dec by done. reflexivity. }
  set (U14 := set_stats U13 _).
  rewrite (user_num_if dst "files_dl_total" FFilesDl _ U14 (set_stats U14 (mkStats (bytes_ul_total (stats u)) (bytes_dl_total (stats u)) (files_ul_total (stats u)) (files_dl_total (stats u)))));
    [|done|done|simpl; lia| |zero].
  2: { cbn [set_field]. rewrite unsigned_dec by done. reflexivity. }
  set (U15 := set_stats U14 _).
  rewrite (user_num_if dst "ratio" FRatio _ U15 (set_ratio U15 (u_ratio u))); [|done|done|simpl; lia|number set_ratio u32|zero]. set (U16 := set_ratio U15 _).
  rewrite (user_num_if dst "num_logins" FNumLogins _ U16 (set_num_logins U16 (u_num_logins u))); [|done|done|simpl; lia|number set_num_logins u16|zero]. set (U17 := set_num_logins U16 _).
  rewrite (user_num_if dst "logins_per_ip" FLoginsPerIp _ U17 (set_logins_per_ip U17 (logins_per_ip u))); [|done|done|simpl; lia|number set_logins_per_ip u16|zero]. set (U18 := set_logins_per_ip U17 _).
  rewrite (user_num_if dst "max_idle_time" FMaxIdle _ U18 (set_max_idle_time U18 (u_max_idle_time u))); [|done|done|simpl; lia|number set_max_idle_time u32|zero]. set (U19 := set_max_idle_time U18 _).
  rewrite (user_text_if dst "flags" FFlags fl U19 (set_flags U19 (padded 32 fl))); [|done|done|done|simpl length at 1; lia| |zero].
  2: { intros _. cbn [set_field]. unfold MAX_FLAGS_NUM. rewrite (proj2 (Nat.leb_gt _ _)) by lia. exact (f_equal (λ b, Val (set_flags U19 b)) (strncpy_padded (flags U19) fl 32 eq_refl ltac:(lia))). }
  set (U20 := set_flags U19 _).
  destruct (slots_short (user_slots u)) as (v1 & E1 & W1); [done|]. destruct (slots_short (leech_slots u)) as (v2 & E2 & W2); [done|].
  rewrite (user_signed_if dst "user_slots" FUserSlots _ _ U20 (set_user_slots U20 (user_slots u))); [|done|done|simpl; lia|exact (number_field set_user_slots u16 _ v1 U20 _ E1 W1)|zero].
  set (U21 := set_user_slots U20 _).
  rewrite (user_signed_if dst "leech_slots" FLeechSlots _ _ U21 (set_leech_slots U21 (leech_slots u))); [|done|done|simpl; lia|exact (number_field set_leech_slots u16 _ v2 U21 _ E2 W2)|zero].
  set (U22 := set_leech_slots U21 _).
  rewrite (user_signed_if dst "last_login" FLastLogin _ _ U22 (set_last_login U22 (last_login u))); [|done|done|simpl; lia|apply (number_field set_last_login id _ (last_login u)); [by apply natural_long|done]|zero].
  rewrite record_end. f_equal. f_equal. unfold restored. destruct u as [a1 a2 a3 a4 a5 a6 a7 a8 a9 b1 b2 b3 b4 b5 b6 b7 b8 [s1 s2 s3 s4] c1 c2 c3 c4 c5].
  cbn in Eun, Ep, Eh, Et, Ef, Hn, Hg. subst. reflexivity.
Qed.

(** ** Groups *)

Lemma group_line_entry name f v g :
  is_name (str name) = true → group_field_named (str name) = Some f → value_fits v →
  group_line (str name ++ "="%char :: v) g = set_group_field f v g.
Proof.
  intros Hn Hf (Hne & _ & _ & _ & Hb). unfold group_line. rewrite reg_line_entry by done. destruct v; [done|]. by rewrite Hf.
Qed.

Lemma group_entry name f v g g' rest :
  is_name (str name) = true → group_field_named (str name) = Some f → value_fits v → (length (str name) + length v ≤ 1015)%nat →
  set_group_field f v g = Val g' → record group_line g (entry name v ++ rest) = record group_line g' rest.
Proof. intros Hn Hf Hv Hl Hs. rewrite record_entry by auto. rewrite (group_line_entry _ f) by done. by rewrite Hs. Qed.

Lemma group_num_entry name f n g g' rest :
  is_name (str name) = true → group_field_named (str name) = Some f → (length (str name) ≤ 100)%nat →
  set_group_field f (dec n) g = Val g' → record group_line g (entry name (dec n) ++ rest) = record group_line g' rest.
Proof. intros Hn Hf Hl Hs. destruct (dec_fits n). eapply group_entry; [done..|lia|done]. Qed.

Lemma group_num_if name f n g g' rest :
  is_name (str name) = true → group_field_named (str name) = Some f → (length (str name) ≤ 100)%nat →
  set_group_field f (dec n) g = Val g' → (n = 0 → g' = g) →
  record group_line g (entry_if name n (dec n) ++ rest) = record group_line g' rest.
Proof.
  intros Hn Hf Hl Hs Hz. unfold entry_if. destruct (Z.eqb_spec n 0) as [->|]; [by rewrite Hz|]. by eapply group_num_entry.
Qed.

Lemma group_text_if name f v g g' rest :
  v = [] ∨ value_fits v → is_name (str name) = true → group_field_named (str name) = Some f → (length (str name) + length v ≤ 1015)%nat →
  (v ≠ [] → set_group_field f v g = Val g') → (v = [] → g' = g) →
  record group_line g ((if (0 <? length v)%nat then entry name v else []) ++ rest) = record group_line g' rest.
Proof.
  intros Hv Hn Hf Hl Hs Hz. destruct v as [|c v]; [by rewrite Hz|]. destruct Hv as [|Hv]; [done|]. eapply group_entry; [done..|by apply Hs].
Qed.

Lemma group_ip_entries ips g rest :
  Forall ip_fits ips →
  record group_line g (concat (map (λ e, entry "ip_allowed" (regexp e)) ips) ++ rest) =
    record group_line (set_g_ip_list g (g_ip_list g ++ map (λ e, mkIpEntry (regexp e) 1) ips)) rest.
Proof.
  intros Hip. revert g. induction Hip as [|e ips [Hf Hl] Hip IH]; intros g; cbn [map concat].
  - rewrite app_nil_r. by destruct g.
  - rewrite <- app_assoc. unfold MAX_IP_LENGTH in Hl.
    rewrite (group_entry "ip_allowed" GIp _ _ (set_g_ip_list g (g_ip_list g ++ [mkIpEntry (regexp e) 1]))); [|done|done|done|simpl; lia|].
    + rewrite IH. cbn [g_ip_list set_g_ip_list]. by rewrite <- app_assoc.
    + cbn [set_group_field]. unfold __group_ip_add, ip_add_check. destruct Hf as (Hne & _). destruct (regexp e); [done|].
      rewrite !(proj2 (Z.ltb_ge _ _)) by (simpl; lia). by rewrite !(proj2 (Z.leb_gt _ _)) by (unfold MAX_IP_LENGTH; lia).
Qed.

Record storable_group (g : wzd_group_t) : Prop := {
  sg_name : ∃ s, groupname g = padded HARD_GROUPNAME_LENGTH s ∧ (length s < HARD_GROUPNAME_LENGTH)%nat ∧ value_fits s ∧
    Forall (λ c, is_blank c = false) s;
  sg_tag : ∃ s, text_in MAX_TAGLINE_LENGTH (g_tagline g) s;
  sg_flags : ∃ s, text_in MAX_FLAGS_NUM (g_flags g) s;
  sg_home : ∃ s, text_in WZD_MAX_PATH (defaultpath g) s ∧ (length s ≤ 1000)%nat;
  sg_ips : Forall ip_fits (g_ip_list g);
  sg_u32 : Forall is_u32 [gid g; g_max_idle_time g; g_max_ul_speed g; g_max_dl_speed g; g_ratio g];
  sg_u16 : is_u16 (g_num_logins g);
  sg_u64 : is_u64 (groupperms g) }.

Definition restored_group (g : wzd_group_t) : wzd_group_t :=
  set_g_ip_list (set_g_backend g 0) (map (λ e, mkIpEntry (regexp e) 1) (g_ip_list g)).

Lemma group_number (S : wzd_group_t → Z → wzd_group_t) (w : Z → Z) o n g m :
  o = Some n → w n = m → when o (λ n, S g (w n)) g = Val (S g m).
Proof. intros -> Hw. unfold when. by rewrite Hw. Qed.
Ltac gnumber S w := cbn [set_group_field]; eapply (group_number S w);
  [first [by apply natural_u32|by apply natural_u16]|first [by apply u32_id|by apply u16_id]].

Lemma group_record g name i :
  storable_group g → groupname g = padded HARD_GROUPNAME_LENGTH name → (length name < HARD_GROUPNAME_LENGTH)%nat → value_fits name →
  ∃ text, write_single_group g = Val (str "privgroup" ++ TAB :: name ++ LF :: text) ∧ ∀ rest,
    record group_line (set_gid (set_groupname group_init_struct (padded HARD_GROUPNAME_LENGTH name)) i) (text ++ rest) = Val (restored_group g, rest).
Proof.
  intros [_ (tag & Et & Htl & Htf) (fl & Ef & Hfl & Hff) (home & (Eh & Hhl & Hhf) & Hh1000) Hip H32 H16 H64] Eun Hnl Hnf.
  repeat (apply Forall_cons in H32 as [? H32]). clear H32. unfold write_single_group.
  rewrite Et, (buf_str_padded _ tag) by (done || by apply fits_nul_free). run.
  rewrite Eh, (buf_str_padded _ home) by (done || by apply fits_nul_free). run.
  rewrite Ef, (buf_str_padded _ fl) by (done || by apply fits_nul_free). run.
  rewrite Eun, upto_padded by (done || (apply fits_nul_free; by right)).
  eexists. split; [reflexivity|]. intros rest. rewrite <- !app_assoc.
  unfold WZD_MAX_PATH, MAX_TAGLINE_LENGTH, MAX_FLAGS_NUM in *. set (U0 := set_gid _ i).
  rewrite (group_num_if "max_idle_time" GMaxIdle _ U0 (set_g_idle U0 (g_max_idle_time g))); [|done|done|simpl; lia|gnumber set_g_idle u32|zero]. set (U1 := set_g_idle U0 _).
  rewrite (group_num_if "num_logins" GNumLogins _ U1 (set_g_num_logins U1 (g_num_logins g))); [|done|done|simpl; lia|gnumber set_g_num_logins u16|zero]. set (U2 := set_g_num_logins U1 _).
  rewrite (group_num_if "max_ul_speed" GMaxUl _ U2 (set_g_max_ul U2 (g_max_ul_speed g))); [|done|done|simpl; lia|gnumber set_g_max_ul u32|zero]. set (U3 := set_g_max_ul U2 _).
  rewrite (group_num_if "max_dl_speed" GMaxDl _ U3 (set_g_max_dl U3 (g_max_dl_speed g))); [|done|done|simpl; lia|gnumber set_g_max_dl u32|zero]. set (U4 := set_g_max_dl U3 _).
  rewrite (group_entry "rights" GRights _ U4 (set_groupperms U4 (groupperms g)));
    [|done|done|apply hex_fits|pose proof (proj2 (hex_fits (groupperms g))); simpl length at 1; lia|cbn [set_group_field]; by rewrite strtoul0_hex].
  set (U5 := set_groupperms U4 _).
  rewrite (group_text_if "tagline" GTagline tag U5 (set_g_tagline U5 (padded 256 tag)));
    [|done|done|done|simpl length at 1; lia|intros _; exact (f_equal (λ b, Val (set_g_tagline U5 b)) (strncpy_padded (g_tagline U5) tag 256 eq_refl ltac:(lia)))|zero].
  set (U6 := set_g_tagline U5 _).
  rewrite (group_num_entry "gid" GGid _ U6 (set_gid U6 (gid g))); [|done|done|simpl; lia|gnumber set_gid u32]. set (U7 := set_gid U6 _).
  rewrite group_ip_entries by done. set (U8 := set_g_ip_list U7 _).
  rewrite (group_text_if "default_home" GHome home U8 (set_defaultpath U8 (padded 1024 home)));
    [|done|done|done|simpl length at 1; lia|intros _; exact (f_equal (λ b, Val (set_defaultpath U8 b)) (strncpy_padded (defaultpath U8) home 1024 eq_refl ltac:(lia)))|zero].
  set (U9 := set_defaultpath U8 _).
  rewrite (group_num_if "ratio" GRatio _ U9 (set_g_ratio U9 (g_ratio g))); [|done|done|simpl; lia|gnumber set_g_ratio u32|zero]. set (U10 := set_g_ratio U9 _).
  rewrite (group_text_if "flags" GFlags fl U10 (set_g_flags U10 (padded 32 fl))); [|done|done|done|simpl length at 1; lia| |zero].
  2: { intros _. cbn [set_group_field]. unfold MAX_FLAGS_NUM. rewrite (proj2 (Nat.leb_gt _ _)) by lia.
       exact (f_equal (λ b, Val (set_g_flags U10 b)) (strncpy_padded (g_flags U10) fl 32 eq_refl ltac:(lia))). }
  rewrite record_end. f_equal. f_equal. unfold restored_group. destruct g. cbn in Eun, Eh, Et, Ef. subst. reflexivity.
Qed.

(** ** Sections *)

Lemma find_free_defined {E} `{Registered E} (r : registry E) : reg_wf r → ∃ i, find_free_id 0 r = Val i.
Proof.
  intros Hwf. unfold find_free_id. replace (0 =? INVALID_USER) with false by done. rewrite Z.sub_0_r.
  destruct (r_arr r) as [l|] eqn:Hl.
  - pose proof (wf_max _ Hwf). destruct (find_free_spec (Z.to_nat (r_max r)) 0 r l) as (i & Hi & _); [done|done|lia|lia|]. eauto.
  - rewrite (wf_none _ Hwf Hl). simpl. eauto.
Qed.

(** Registering the structures one after the other, as the sections do. *)
Fixpoint load_users (us : list wzd_user_t) (w : world) : outcome world :=
  match us with [] => Val w | u :: us => w ← store_user u (count_user w); load_users us w end.
Fixpoint load_groups (gs : list wzd_group_t) (w : world) : outcome world :=
  match gs with [] => Val w | g :: gs => w ← store_group g (count_group w); load_groups gs w end.

Lemma store_wf {E} `{RegisteredLaws E} (r : registry E) (e : E) b ret r' a :
  reg_wf r → r_heap r !! a = None → 0 ≤ reg_id e → register (Some a) b (mkReg (r_max r) (r_arr r) (<[a := e]> (r_heap r))) = Val (ret, r') → reg_wf r'.
Proof.
  intros Hwf Ha He Hr. refine (register_wf _ a e b ret r' _ _ He Hr); [|apply lookup_insert_eq].
  destruct Hwf as [H1 H2 H3 H4]. split; simpl; [done..|]. intros l i a' Hl Hi. destruct (H4 l i a' Hl Hi) as (e' & He' & Hid).
  exists e'. split; [|done]. rewrite lookup_insert_ne by congruence. done.
Qed.

Lemma store_user_wf u w w' : reg_wf (w_users w) → 0 ≤ uid u → store_user u (count_user w) = Val w' → reg_wf (w_users w') ∧ w_groups w' = w_groups w ∧ w_user_count w' = w_user_count w + 1.
Proof.
  intros Hwf Hu. unfold store_user. destruct (uid u =? INVALID_USER); [by intros [= <-]|].
  set (a := fresh _). destruct (user_register _ _ _) as [[ret r]|] eqn:E; [|done]. intros [= <-]. split; [|done]. simpl.
  eapply (store_wf (w_users w) u 1 ret r a); [done|apply not_elem_of_dom, is_fresh|done|exact E].
Qed.

Lemma store_group_wf g w w' : reg_wf (w_groups w) → 0 ≤ gid g → store_group g (count_group w) = Val w' →
  reg_wf (w_groups w') ∧ w_users w' = w_users w ∧ w_group_count w' = w_group_count w + 1 ∧ w_user_count w' = w_user_count w.
Proof.
  intros Hwf Hu. unfold store_group. destruct (gid g =? INVALID_USER); [by intros [= <-]|].
  set (a := fresh _). destruct (group_register _ _ _) as [[ret r]|] eqn:E; [|done]. intros [= <-]. split; [|done]. simpl.
  eapply (store_wf (w_groups w) g 1 ret r a); [done|apply not_elem_of_dom, is_fresh|done|exact E].
Qed.

Lemma read_user_record src w u name rest :
  storable src (w_groups w) u → username u = padded HARD_USERNAME_LENGTH name → (length name < HARD_USERNAME_LENGTH)%nat → value_fits name →
  reg_wf (w_users w) →
  ∃ text, write_single_user src u = Val (entry "name" name ++ text) ∧ read_single_user (count_user w) name (text ++ rest) = Val (restored u, rest).
Proof.
  intros Hs Hn Hl Hf Hwf. destruct (find_free_defined _ Hwf) as [i Hi]. destruct (user_record src (w_groups w) u name i Hs Hn Hl Hf) as (text & E & Hr).
  exists text. split; [done|]. unfold read_single_user. unfold user_find_free_uid. simpl w_users. rewrite Hi. run.
  change (strncpy (username user_init_struct) name (HARD_USERNAME_LENGTH - 1)) with (strncpy (replicate 256 NUL) name (256 - 1)).
  rewrite (strncpy_padded_last name 256) by (unfold HARD_USERNAME_LENGTH in Hl; lia). apply Hr.
Qed.

Lemma read_group_record w g name rest :
  storable_group g → groupname g = padded HARD_GROUPNAME_LENGTH name → (length name < HARD_GROUPNAME_LENGTH)%nat → value_fits name →
  reg_wf (w_groups w) →
  ∃ text, write_single_group g = Val (str "privgroup" ++ TAB :: name ++ LF :: text) ∧
    read_single_group (count_group w) name (text ++ rest) = Val (restored_group g, rest).
Proof.
  intros Hs Hn Hl Hf Hwf. destruct (find_free_defined _ Hwf) as [i Hi]. destruct (group_record g name i Hs Hn Hl Hf) as (text & E & Hr).
  exists text. split; [done|]. unfold read_single_group, group_find_free_gid. simpl w_groups. rewrite Hi. run.
  change (strncpy (groupname group_init_struct) name (HARD_GROUPNAME_LENGTH - 1)) with (strncpy (replicate 128 NUL) name (128 - 1)).
  rewrite (strncpy_padded_last name 128) by (unfold HARD_GROUPNAME_LENGTH in Hl; lia). apply Hr.
Qed.

(** A line of a section whose first character is [c]. *)
Lemma rest_of_line_line stale c l rest :
  LF ∉ c :: l → nul_free (c :: l) → (length l + 1 < 1022)%nat → rest_of_line stale c (l ++ LF :: rest) = (c :: l ++ [LF], rest).
Proof.
  intros Hlf Hnul Hlen. unfold rest_of_line. rewrite fgets_line; [|set_solver|unfold nul_free in *; set_solver|unfold MAX_LINE; lia].
  f_equal. apply cstring_id. unfold nul_free in *. set_solver.
Qed.
Lemma strip_line_line c l : LF ∉ c :: l → last (c :: l) ≠ Some CR → strip_line (c :: l ++ [LF]) = Val (c :: l).
Proof. intros Hlf Hcr. unfold strip_line. change (c :: l ++ [LF]) with ((c :: l) ++ [LF]). by rewrite chop_line. Qed.

Lemma section_user stale fuel src w u name rest :
  storable src (w_groups w) u → username u = padded HARD_USERNAME_LENGTH name → (length name < HARD_USERNAME_LENGTH)%nat → value_fits name →
  reg_wf (w_users w) → w_user_count w + 1 < HARD_DEF_USER_MAX →
  ∃ t, write_single_user src u = Val t ∧ (length t > 0)%nat ∧
    read_section_users stale (S fuel) (t ++ rest) w = w' ← store_user (restored u) (count_user w); read_section_users stale fuel rest w'.
Proof.
  intros Hs Hn Hl Hf Hwf Hmax. destruct (read_user_record src w u name rest Hs Hn Hl Hf Hwf) as (text & E & Hr).
  exists (entry "name" name ++ text). split; [done|]. split; [simpl; lia|].
  replace ((entry "name" name ++ text) ++ rest) with ("n"%char :: (str "ame=" ++ name) ++ LF :: (text ++ rest))
    by (unfold entry; rewrite <- !app_assoc; simpl; by rewrite <- app_assoc).
  destruct (entry_line "name" name eq_refl (or_intror Hf)) as (H1 & H2 & H3). unfold HARD_USERNAME_LENGTH in Hl.
  cbn [read_section_users]. change (is_eof "n"%char) with false. change (bool_decide ("n"%char = LF)) with false.
  change (bool_decide ("n"%char = "#"%char)) with false. change (bool_decide ("n"%char = "["%char)) with false. cbv iota.
  rewrite rest_of_line_line by (done || (rewrite length_app; simpl; lia)). rewrite strip_line_line by done. run.
  change ("n"%char :: str "ame=" ++ name) with (str "name" ++ "="%char :: name). destruct Hf as (Hne & _ & _ & _ & Hb).
  rewrite reg_line_entry by done. destruct name as [|c0 name]; [done|]. change (streq (str "name") (str "name")) with true. cbv iota.
  rewrite (proj2 (Z.leb_gt _ _)) by (simpl; lia). rewrite Hr. run. done.
Qed.

Lemma section_group stale fuel w g name rest :
  storable_group g → groupname g = padded HARD_GROUPNAME_LENGTH name → (length name < HARD_GROUPNAME_LENGTH)%nat → value_fits name →
  Forall (λ c, is_blank c = false) name → reg_wf (w_groups w) → w_group_count w + 1 < HARD_DEF_GROUP_MAX →
  ∃ t, write_single_group g = Val t ∧ (length t > 0)%nat ∧
    read_section_groups stale (S fuel) (t ++ rest) w = w' ← store_group (restored_group g) (count_group w); read_section_groups stale fuel rest w'.
Proof.
  intros Hs Hn Hl Hf Hnb Hwf Hmax. destruct (read_group_record w g name rest Hs Hn Hl Hf Hwf) as (text & E & Hr).
  exists (str "privgroup" ++ TAB :: name ++ LF :: text). split; [done|]. split; [simpl; lia|].
  replace ((str "privgroup" ++ TAB :: name ++ LF :: text) ++ rest) with ("p"%char :: (str "rivgroup" ++ TAB :: name) ++ LF :: (text ++ rest))
    by (rewrite <- !app_assoc; simpl; by rewrite <- app_assoc).
  destruct Hf as (Hne & Hlf & Hnul & Hcr & Hb). unfold HARD_GROUPNAME_LENGTH in Hl.
  assert (Hl1 : LF ∉ "p"%char :: str "rivgroup" ++ TAB :: name).
  { change ("p"%char :: str "rivgroup" ++ TAB :: name) with ((str "privgroup" ++ [TAB]) ++ name). intros [Hx|?]%elem_of_app; [|done].
    exact (bool_decide_eq_true_1 (LF ∉ str "privgroup" ++ [TAB]) eq_refl Hx). }
  assert (Hl2 : nul_free ("p"%char :: str "rivgroup" ++ TAB :: name)).
  { change ("p"%char :: str "rivgroup" ++ TAB :: name) with ((str "privgroup" ++ [TAB]) ++ name). intros [Hx|?]%elem_of_app; [|done].
    exact (bool_decide_eq_true_1 (NUL ∉ str "privgroup" ++ [TAB]) eq_refl Hx). }
  cbn [read_section_groups]. change (is_eof "p"%char) with false. change (bool_decide ("p"%char = LF)) with false.
  change (bool_decide ("p"%char = "#"%char)) with false. change (bool_decide ("p"%char = "["%char)) with false. cbv iota.
  rewrite rest_of_line_line by (done || (rewrite length_app; simpl; lia)). rewrite strip_line_line; [|done|].
  2: { rewrite app_comm_cons, last_app_cons. destruct name; [done|exact Hcr]. }
  run. change (find_directive ("p"%char :: str "rivgroup" ++ TAB :: name)) with true. cbv iota.
  assert (Ht1 : strtok is_blank ("p"%char :: str "rivgroup" ++ TAB :: name) = (Some (str "privgroup"), name)).
  { apply (strtok_app is_blank [] (str "privgroup") TAB name); [constructor|done|repeat constructor|done]. }
  rewrite Ht1. assert (Ht2 : (strtok (λ c, is_blank c || bool_decide (c = LF)) name).1 = Some name).
  { unfold strtok. assert (Hall : ∀ c, c ∈ name → is_blank c || bool_decide (c = LF) = false).
    { intros c Hc. rewrite Forall_forall in Hnb. rewrite (Hnb c Hc). apply bool_decide_eq_false_2. intros ->. done. }
    rewrite skip_while_head by (intros c Hc; apply Hall; by apply head_Some_elem_of). destruct name as [|c0 name]; [done|].
    assert (Htu : ∀ l, (∀ c, c ∈ l → is_blank c || bool_decide (c = LF) = false) → take_until (λ c, is_blank c || bool_decide (c = LF)) l = (l, [])).
    { clear. induction l as [|c l IH]; intros H; [done|]. cbn [take_until]. rewrite (H c) by set_solver. rewrite IH; [done|]. intros. apply H. set_solver. }
    by rewrite Htu. }
  rewrite Ht2. rewrite (proj2 (Z.leb_gt _ _)) by (simpl; lia). rewrite Hr. run. done.
Qed.

Lemma write_user_defined src dst u : storable src dst u → ∃ t, write_single_user src u = Val t ∧ (0 < length t)%nat.
Proof.
  intros Hu. pose proof (so_name _ _ _ Hu) as (name & Hn & Hl & Hf). destruct (user_record src dst u name 0 Hu Hn Hl Hf) as (text & E & _).
  eexists. split; [exact E|]. simpl. lia.
Qed.
Lemma write_group_defined g : storable_group g → ∃ t, write_single_group g = Val t ∧ (0 < length t)%nat.
Proof.
  intros Hg. pose proof (sg_name _ Hg) as (name & Hn & Hl & Hf & _). destruct (group_record g name 0 Hg Hn Hl Hf) as (text & E & _).
  eexists. split; [exact E|]. simpl. lia.
Qed.

(** Texts of the structures [xs], none of them empty. *)
Definition texts {A} (write : A → outcome bytes) (xs : list A) (ts : list bytes) : Prop :=
  Forall2 (λ x t, write x = Val t ∧ (0 < length t)%nat) xs ts.

Lemma texts_length {A} (write : A → outcome bytes) xs ts : texts write xs ts → (length xs ≤ length (concat ts))%nat.
Proof. induction 1 as [|x t xs ts [_ Ht] _ IH]; [done|]. simpl. rewrite length_app. lia. Qed.

Lemma section_users_read stale src us w rest ts fuel :
  texts (write_single_user src) us ts → Forall (storable src (w_groups w)) us → reg_wf (w_users w) →
  w_user_count w + Z.of_nat (length us) < HARD_DEF_USER_MAX → (length us ≤ fuel)%nat →
  read_section_users stale fuel (concat ts ++ rest) w =
    w' ← load_users (map restored us) w; read_section_users stale (fuel - length us) rest w'.
Proof.
  intros Hts. revert fuel w. induction Hts as [|u t us ts [Et _] Hts IH]; intros fuel w Hs Hwf Hmax Hfuel.
  { simpl. by rewrite Nat.sub_0_r. }
  apply Forall_cons in Hs as [Hu Hs]. cbn [length concat map load_users] in *. destruct fuel as [|fuel]; [lia|].
  pose proof (so_name _ _ _ Hu) as (name & Hn & Hl & Hf). pose proof (so_u32 _ _ _ Hu) as H32. apply Forall_cons in H32 as [Huid _].
  destruct (section_user stale fuel src w u name (concat ts ++ rest)) as (t' & Et' & _ & Hr); [done..|lia|].
  rewrite Et in Et'. injection Et' as <-. rewrite <- app_assoc, Hr.
  destruct (store_user (restored u) (count_user w)) as [w1|] eqn:Est; [|done]. run.
  apply store_user_wf in Est as (Hwf1 & Hg1 & Hc1); [|done|by apply Huid]. apply IH; [by rewrite Hg1|done|lia|lia].
Qed.

Lemma section_groups_read stale gs w rest ts fuel :
  texts write_single_group gs ts → Forall storable_group gs → reg_wf (w_groups w) →
  w_group_count w + Z.of_nat (length gs) < HARD_DEF_GROUP_MAX → (length gs ≤ fuel)%nat →
  read_section_groups stale fuel (concat ts ++ rest) w =
    w' ← load_groups (map restored_group gs) w; read_section_groups stale (fuel - length gs) rest w'.
Proof.
  intros Hts. revert fuel w. induction Hts as [|g t gs ts [Et _] Hts IH]; intros fuel w Hs Hwf Hmax Hfuel.
  { simpl. by rewrite Nat.sub_0_r. }
  apply Forall_cons in Hs as [Hg Hs]. cbn [length concat map load_groups] in *. destruct fuel as [|fuel]; [lia|].
  pose proof (sg_name _ Hg) as (name & Hn & Hl & Hf & Hb). pose proof (sg_u32 _ Hg) as H32. apply Forall_cons in H32 as [Hgid _].
  destruct (section_group stale fuel w g name (concat ts ++ rest)) as (t' & Et' & _ & Hr); [done..|lia|].
  rewrite Et in Et'. injection Et' as <-. rewrite <- app_assoc, Hr.
  destruct (store_group (restored_group g) (count_group w)) as [w1|] eqn:Est; [|done]. run.
  apply store_group_wf in Est as (Hwf1 & _ & Hc1 & _); [|done|by apply Hgid]. apply IH; [done|done|lia|lia].
Qed.

(** ** The whole file *)

(** A comment or an empty line of the file. *)
Definition skipped_line (l : bytes) : bool :=
  bool_decide (LF ∉ l) && bool_decide (NUL ∉ l) && bool_decide (last l ≠ Some CR) && (length l <? 1000)%nat &&
  match l with [] => true | c :: _ => bool_decide (c = "#"%char) end.

Lemma skipped_facts l : skipped_line l = true → (LF ∉ l) ∧ nul_free l ∧ (last l ≠ Some CR) ∧ (length l < 1000)%nat ∧ (l = [] ∨ head l = Some "#"%char).
Proof.
  unfold skipped_line. rewrite !andb_true_iff, !bool_decide_eq_true, Nat.ltb_lt. intros [[[[H1 H2] H3] H4] H5].
  split_and!; try done. destruct l; [by left|]. apply bool_decide_eq_true in H5 as ->. by right.
Qed.

Lemma read_loop_skip stale ls fuel rest w :
  forallb skipped_line ls = true → read_loop stale (length ls + fuel) (concat (map (λ l, l ++ [LF]) ls) ++ rest) w = read_loop stale fuel rest w.
Proof.
  induction ls as [|l ls IH]; [done|]. cbn [forallb map concat length Nat.add]. intros [Hl Hls]%andb_true_iff.
  apply skipped_facts in Hl as (H1 & H2 & H3 & H4 & H5). rewrite <- !app_assoc. cbn [app read_loop].
  rewrite fgets_line by (done || (unfold MAX_LINE; lia)). rewrite chop_line by done. rewrite <- (IH Hls).
  destruct l as [|c l]; [done|]. destruct H5 as [|[= ->]]; [done|]. by rewrite bool_decide_eq_true_2.
Qed.

Lemma section_groups_skip stale ls fuel rest w :
  forallb (λ l, skipped_line l && negb (bool_decide (l = []))) ls = true →
  read_section_groups stale (length ls + fuel) (concat (map (λ l, l ++ [LF]) ls) ++ rest) w = read_section_groups stale fuel rest w.
Proof.
  induction ls as [|l ls IH]; [done|]. cbn [forallb map concat length Nat.add]. intros [[Hl Hne]%andb_true_iff Hls]%andb_true_iff.
  apply skipped_facts in Hl as (H1 & H2 & H3 & H4 & H5). rewrite <- !app_assoc. destruct l as [|c l]; [done|]. destruct H5 as [|[= ->]]; [done|].
  cbn [app read_section_groups]. change (is_eof "#"%char) with false. change (bool_decide ("#"%char = LF)) with false.
  change (bool_decide ("#"%char = "#"%char)) with true. cbv iota. simpl in H4. rewrite rest_of_line_line by (done || lia). by apply IH.
Qed.

Definition group_at (gs : wzd_groups) (i : Z) (g : wzd_group_t) : Prop := ∃ a, group_get_by_id i gs = Val (Some a) ∧ r_heap gs !! a = Some g.
Definition user_at (us : users) (i : Z) (u : wzd_user_t) : Prop := ∃ a, user_get_by_id i us = Val (Some a) ∧ r_heap us !! a = Some u.

(** Two names are never written. *)
Definition kept_group (g : wzd_group_t) : bool := negb (streq (cstring (groupname g)) (str "nogroup")).
Definition kept_user (u : wzd_user_t) : bool := negb (streq (cstring (username u)) (str "nobody")).
Definition kept_groups := List.filter kept_group.
Definition kept_users := List.filter kept_user.

Lemma padded_string n s : nul_free s → (length s < n)%nat → buf_str (padded n s) = Val s ∧ cstring (padded n s) = s.
Proof.
  intros Hs Hl. split; [by apply buf_str_padded|]. unfold padded. destruct (n - length s)%nat as [|k] eqn:E; [lia|]. by apply cstring_app_nul.
Qed.

Lemma write_groups_text gs ids l :
  Forall2 (group_at gs) ids l → Forall storable_group l →
  ∃ ts, texts write_single_group (kept_groups l) ts ∧ write_groups gs ids = Val (concat ts).
Proof.
  intros Hat. induction Hat as [|i g ids l (a & Ha & Hg) Hat IH]; intros Hs; [exists []; split; [constructor|done]|].
  apply Forall_cons in Hs as [Hsg Hs]. destruct (IH Hs) as (ts & Hts & E). pose proof (sg_name _ Hsg) as (name & Hn & Hl & (Hne & _ & Hnul & _) & _).
  destruct (padded_string HARD_GROUPNAME_LENGTH name Hnul Hl) as [Hb Hc]. cbn [write_groups]. rewrite Ha. run. rewrite Hg. run. rewrite Hn, Hb. run.
  rewrite bool_decide_eq_false_2 by done. cbn [orb]. unfold kept_groups in *. cbn [List.filter].
  unfold kept_group at 1. rewrite Hn, Hc. destruct (streq name (str "nogroup")); cbn [negb].
  - run. rewrite E. run. exists ts. done.
  - destruct (write_group_defined g Hsg) as (t & Ht & Htl). rewrite Ht. run. rewrite E. run. exists (t :: ts). split; [by constructor|done].
Qed.

Lemma write_users_text us gs dst ids l :
  Forall2 (user_at us) ids l → Forall (storable gs dst) l →
  ∃ ts, texts (write_single_user gs) (kept_users l) ts ∧ write_users us gs ids = Val (concat ts).
Proof.
  intros Hat. induction Hat as [|i u ids l (a & Ha & Hu) Hat IH]; intros Hs; [exists []; split; [constructor|done]|].
  apply Forall_cons in Hs as [Hsu Hs]. destruct (IH Hs) as (ts & Hts & E). pose proof (so_name _ _ _ Hsu) as (name & Hn & Hl & (Hne & _ & Hnul & _)).
  destruct (padded_string HARD_USERNAME_LENGTH name Hnul Hl) as [Hb Hc]. cbn [write_users]. rewrite Ha. run. rewrite Hu. run. rewrite Hn, Hb. run.
  rewrite bool_decide_eq_false_2 by done. cbn [orb]. unfold kept_users in *. cbn [List.filter].
  unfold kept_user at 1. rewrite Hn, Hc. destruct (streq name (str "nobody")); cbn [negb].
  - run. rewrite E. run. exists ts. done.
  - destruct (write_user_defined gs dst u Hsu) as (t & Ht & Htl). rewrite Ht. run. rewrite E. run. exists (t :: ts). split; [by constructor|done].
Qed.

Lemma Forall_kept {A} (P : A → Prop) (f : A → bool) l : Forall P l → Forall P (List.filter f l) ∧ (length (List.filter f l) ≤ length l)%nat.
Proof. induction 1 as [|x l Hx Hl [IH1 IH2]]; simpl; [done|]. destruct (f x); simpl; (split; [auto|lia]). Qed.

(** The line that opens a section. *)
Lemma read_loop_groups stale fuel rest w :
  read_loop stale (S fuel) (text_line "[GROUPS]" ++ rest) w = '(file, w) ← read_section_groups stale (length rest) rest w; read_loop stale fuel file w.
Proof.
  unfold text_line. rewrite <- app_assoc. cbn [app read_loop]. rewrite fgets_line; [|by apply (bool_decide_eq_true_1 _)|by apply (bool_decide_eq_true_1 (NUL ∉ _))|unfold MAX_LINE; simpl; lia].
  rewrite chop_line by (by apply (bool_decide_eq_true_1 _)). reflexivity.
Qed.
Lemma read_loop_users stale fuel rest w :
  read_loop stale (S fuel) (text_line "[USERS]" ++ rest) w = '(file, w) ← read_section_users stale (length rest) rest w; read_loop stale fuel file w.
Proof.
  unfold text_line. rewrite <- app_assoc. cbn [app read_loop]. rewrite fgets_line; [|by apply (bool_decide_eq_true_1 _)|by apply (bool_decide_eq_true_1 (NUL ∉ _))|unfold MAX_LINE; simpl; lia].
  rewrite chop_line by (by apply (bool_decide_eq_true_1 _)). reflexivity.
Qed.

Lemma load_groups_keeps gs w w1 : load_groups gs w = Val w1 → w_users w1 = w_users w ∧ w_user_count w1 = w_user_count w.
Proof.
  revert w. induction gs as [|g gs IH]; intros w; cbn [load_groups]; [by intros [= ->]|].
  intros (w' & Hs & H)%outcome_bind_Val. apply IH in H as [-> ->]. unfold store_group in Hs.
  destruct (gid g =? INVALID_USER); [by injection Hs as <-|]. apply outcome_bind_Val in Hs as (r & _ & Hs). by injection Hs as <-.
Qed.

Lemma lines_length ls : (length ls ≤ length (concat (map (λ l, l ++ [LF]) ls)))%nat.
Proof. induction ls as [|l ls IH]; [done|]. simpl. rewrite !length_app. simpl. lia. Qed.

Definition listed_groups (gs : wzd_groups) (l : list wzd_group_t) : Prop := ∃ ids, group_get_list gs = Val ids ∧ Forall2 (group_at gs) ids l.
Definition listed_users (us : users) (l : list wzd_user_t) : Prop := ∃ ids, user_get_list us = Val ids ∧ Forall2 (user_at us) ids l.

(** C19. The users file: when every group and user can be stored, writing the file
    is defined, and reading it into another server registers, in order, the same
    groups and then the same users, each with all its fields; a user gets the
    right to change directory, and every address of an access list comes back as
    an allowed one. The names of the groups a user is in must give the same
    groups in the server that reads. *)
Theorem users_file_roundtrip (stale filename : bytes) (w w0 w1 : world) (gs : list wzd_group_t) (us : list wzd_user_t) :
  listed_groups (w_groups w) gs → listed_users (w_users w) us → Forall storable_group gs →
  Forall (storable (w_groups w) (w_groups w1)) us → reg_wf (w_groups w0) → reg_wf (w_users w0) →
  load_groups (map restored_group (kept_groups gs)) (reset_counts w0) = Val w1 →
  Z.of_nat (length gs) < HARD_DEF_GROUP_MAX → Z.of_nat (length us) < HARD_DEF_USER_MAX → (length filename < 256)%nat →
  ∃ text, users_file_text w = Val text ∧
    read_files stale (Some filename) (Some text) w0 = w2 ← load_users (map restored (kept_users us)) w1; Val (0, w2).
Proof.
  intros (gids & Hgl & Hgat) (uids & Hul & Huat) Hgs Hus Hwfg Hwfu Hload Hgm Hum Hfn.
  destruct (write_groups_text _ _ _ Hgat Hgs) as (gts & Hgts & Egt). destruct (write_users_text _ _ _ _ _ Huat Hus) as (uts & Huts & Eut).
  unfold users_file_text. rewrite Hgl. run. rewrite Egt. run. rewrite Hul. run. rewrite Eut. run. eexists. split; [done|].
  unfold read_files. rewrite (proj2 (Nat.leb_gt _ _)) by lia.
  set (tail_lines := [str "# users definitions"; str "# users MUST begin by line name=<>"]).
  set (head_lines := map str file_header ++ [[]; str "# groups definitions"]).
  set (file2 := text_line "[USERS]" ++ concat uts).
  set (file1 := concat gts ++ concat (map (λ l, l ++ [LF]) tail_lines) ++ file2).
  match goal with |- read_loop _ _ ?f _ = _ => replace f with (concat (map (λ l, l ++ [LF]) head_lines) ++ text_line "[GROUPS]" ++ file1) end.
  2: { unfold head_lines, file1, file2, tail_lines, text_line. rewrite map_app, concat_app, map_map. cbn [map concat]. by rewrite <- !app_assoc. }
  assert (Hfuel : ∃ k, S (length (concat (map (λ l, l ++ [LF]) head_lines) ++ text_line "[GROUPS]" ++ file1)) = (length head_lines + S (S (S k)))%nat).
  { exists (length (concat (map (λ l, l ++ [LF]) head_lines) ++ text_line "[GROUPS]" ++ file1) - length head_lines - 2)%nat.
    rewrite !length_app. pose proof (lines_length head_lines). change (length (text_line "[GROUPS]")) with 9%nat. lia. }
  destruct Hfuel as [k ->]. rewrite read_loop_skip by (by vm_compute).
  destruct (Forall_kept storable_group kept_group gs Hgs) as [Hgs' Hgl']. destruct (Forall_kept _ kept_user us Hus) as [Hus' Hul'].
  fold kept_groups in Hgs', Hgl'. fold kept_users in Hus', Hul'. pose proof (texts_length _ _ _ Hgts) as Hglen. pose proof (texts_length _ _ _ Huts) as Hulen.
  rewrite read_loop_groups. unfold file1 at 2. rewrite (section_groups_read stale (kept_groups gs)); [|done|done|done|simpl; lia|].
  2: { unfold file1. rewrite length_app. lia. }
  rewrite Hload. run. set (fuel := (length file1 - length (kept_groups gs))%nat).
  assert (Hfuel2 : ∃ j, fuel = (length tail_lines + S j)%nat).
  { exists (fuel - 3)%nat. unfold fuel, file1. rewrite !length_app. simpl. lia. }
  destruct Hfuel2 as [j ->]. rewrite section_groups_skip by (by vm_compute).
  change (read_section_groups stale (S j) file2 w1) with (Val (file2, w1)). run.
  unfold file2. rewrite read_loop_users. destruct (load_groups_keeps _ _ _ Hload) as [Hu1 Hc1].
  pose proof (section_users_read stale (w_groups w) (kept_users us) w1 [] uts (length (concat uts)) Huts Hus') as Hsec.
  rewrite app_nil_r in Hsec. rewrite Hsec; [|by rewrite Hu1|rewrite Hc1; simpl; lia|done].
  destruct (load_users _ w1) as [w2|]; [|done]. run. destruct (_ - _)%nat; done.
Qed.

(** ** An example *)

Definition fits_b (v : bytes) : bool :=
  negb (bool_decide (v = [])) && bool_decide (LF ∉ v) && bool_decide (NUL ∉ v) && negb (bool_decide (last v = Some CR)) &&
  match v with c :: _ => negb (is_blank c) | [] => true end.
Lemma fits_b_true v : fits_b v = true → value_fits v.
Proof.
  unfold fits_b. rewrite !andb_true_iff, !negb_true_iff, !bool_decide_eq_true, !bool_decide_eq_false. intros [[[[? ?] ?] ?] Hb].
  split_and!; try done. intros c Hc. destruct v; [done|]. injection Hc as ->. by apply negb_true_iff in Hb.
Qed.
Lemma text_in_check cap buf s : buf = padded cap s → (length s < cap)%nat → (bool_decide (s = []) || fits_b s) = true → text_in cap buf s.
Proof.
  intros -> Hl H. split; [done|]. split; [done|]. apply orb_true_iff in H as [H|H]; [left; by apply bool_decide_eq_true in H|right; by apply fits_b_true].
Qed.

Definition demo_staff : wzd_group_t := set_gid (set_groupname group_init_struct (padded HARD_GROUPNAME_LENGTH (str "staff"))) 0.
Definition demo_guests : wzd_group_t :=
  set_g_ip_list (set_g_tagline (set_gid (set_groupname group_init_struct (padded HARD_GROUPNAME_LENGTH (str "guests"))) 5)
    (padded MAX_TAGLINE_LENGTH (str "just looking"))) [mkIpEntry (str "10.0.0.*") 1].
Definition demo_bob : wzd_user_t :=
  set_leech_slots (set_userperms (set_flags (set_groups (set_rootpath (set_uid (set_username user_init_struct
    (padded HARD_USERNAME_LENGTH (str "bob"))) 3) (padded WZD_MAX_PATH (str "/home/ftp"))) 2 (5 :: 0 :: replicate 30 0))
    (padded MAX_FLAGS_NUM (str "G5"))) 0xdeadbeef) 40000.

Definition or_else (m : outcome world) (w : world) : world := match m with Val w => w | Crash => w end.
Definition is_val {A} (m : outcome A) : bool := match m with Val _ => true | Crash => false end.
Lemma is_val_or_else m w : is_val m = true → m = Val (or_else m w).
Proof. by destruct m. Qed.

Definition uf_empty : world := mkWorld (empty_registry ∅) (empty_registry ∅) [] 0 0 0.
Definition uf_world : world :=
  or_else (w ← store_group demo_staff uf_empty; w ← store_group demo_guests w; store_user demo_bob w) uf_empty.
Definition uf_groups : list wzd_group_t := [set_g_backend demo_staff 1; set_g_backend demo_guests 1].
Definition uf_users : list wzd_user_t := [set_u_backend demo_bob 1].
Definition uf_loaded : world := or_else (load_groups (map restored_group (kept_groups uf_groups)) (reset_counts uf_empty)) uf_empty.

Definition same_group_b (src dst : wzd_groups) (i : Z) (n : bytes) : bool :=
  match group_name_of src i with Val (Some m) => streq m n | _ => false end && fits_b n && bool_decide (","%char ∉ n) &&
  match group_get_by_name (Some n) dst with
  | Val (Some a) => match r_heap dst !! a with Some g => gid g =? i | None => false end
  | _ => false
  end.
Lemma same_group_check src dst i n : same_group_b src dst i n = true → same_group src dst i n.
Proof.
  unfold same_group_b. rewrite !andb_true_iff. intros [[[H1 H2] H3] H4]. split_and!.
  - destruct (group_name_of src i) as [[m|]|]; try done. unfold streq in H1. by apply bool_decide_eq_true in H1 as ->.
  - by apply fits_b_true.
  - by apply bool_decide_eq_true in H3.
  - destruct (group_get_by_name (Some n) dst) as [[a|]|]; try done. destruct (r_heap dst !! a) as [g|] eqn:E; [|done].
    apply Z.eqb_eq in H4. eauto.
Qed.

Ltac len := first [apply Nat.ltb_lt; by vm_compute|apply Nat.leb_le; by vm_compute].

Lemma demo_groups_storable : Forall storable_group uf_groups.
Proof.
  constructor; [|constructor; [|constructor]].
  - split; [exists (str "staff")|exists []|exists []|exists []|constructor|by repeat constructor|done|done];
      try (by apply text_in_check; [by vm_compute|len|by vm_compute]); try (split; [by apply text_in_check; [by vm_compute|len|by vm_compute]|len]).
    split_and!; [done|len|by apply fits_b_true; vm_compute|by repeat constructor].
  - split; [exists (str "guests")|exists (str "just looking")|exists []|exists []| |by repeat constructor|done|done];
      try (by apply text_in_check; [by vm_compute|len|by vm_compute]); try (split; [by apply text_in_check; [by vm_compute|len|by vm_compute]|len]).
    + split_and!; [done|len|by apply fits_b_true; vm_compute|by repeat constructor].
    + constructor; [|constructor]. split; [by apply fits_b_true; vm_compute|done].
Qed.

Lemma demo_bob_storable : Forall (storable (w_groups uf_world) (w_groups uf_loaded)) uf_users.
Proof.
  constructor; [|constructor].
  split; [exists (str "bob")|exists []|exists (str "/home/ftp")|exists []|exists (str "G5")|exists [5; 0], [str "guests"; str "staff"]|constructor|by repeat constructor..|done];
    try (by apply text_in_check; [by vm_compute|len|by vm_compute]).
  - split_and!; [done|len|]. by apply fits_b_true; vm_compute.
  - split; [by apply text_in_check; [by vm_compute|len|by vm_compute]|]. split; [len|by vm_compute].
  - split_and!; [done|done|len| |len].
    constructor; [apply same_group_check; by vm_compute|]. constructor; [apply same_group_check; by vm_compute|constructor].
Qed.

Lemma users_file_roundtrip_witness :
  (∃ text, users_file_text uf_world = Val text ∧
    read_files [] (Some (str "users")) (Some text) uf_empty = w2 ← load_users (map restored (kept_users uf_users)) uf_loaded; Val (0, w2)) ∧
  is_val (load_users (map restored (kept_users uf_users)) uf_loaded) = true.
Proof.
  split; [|by vm_compute].
  apply (users_file_roundtrip [] (str "users") uf_world uf_empty uf_loaded uf_groups uf_users).
  - exists [0; 5]. split; [by vm_compute|]. constructor; [exists 1%positive; split; by vm_compute|]. constructor; [exists 2%positive; split; by vm_compute|constructor].
  - exists [3]. split; [by vm_compute|]. constructor; [exists 1%positive; split; by vm_compute|constructor].
  - exact demo_groups_storable.
  - exact demo_bob_storable.
  - apply empty_registry_wf.
  - apply empty_registry_wf.
  - apply is_val_or_else. by vm_compute.
  - done.
  - done.
  - len.
Defined.

(** ** Files the reader does not handle *)

(** An empty line with a carriage return in a section is stripped until nothing
    is left, and the byte before the buffer is then read. *)
Example crlf_line_underruns stale w : read_section_users stale 3 [CR; LF] w = Crash.
Proof. reflexivity. Qed.

(** A section without a name gives [strcasecmp] a null pointer. *)
Example unnamed_section stale w : read_files stale (Some (str "users")) (Some (str "[]")) w = Crash.
Proof. reflexivity. Qed.

(** The byte 255 ends a section: the user after it is not read, and the rest of
    its line ends the file with an error. *)
Example byte_255_ends_section stale w :
  read_files stale (Some (str "users")) (Some (text_line "[USERS]" ++ chr 255 :: text_line "name=bob")) w = Val (1, reset_counts w).
Proof. reflexivity. Qed.
