(* ===== verification/Vfs.v ===== *)
(** * Virtual directories and path resolution: libwzd-core/wzd_vfs.c

    [checkpath_new] turns the path of a client into a path of the host: it is
    simplified, then walked from the user's root one component at a time, through
    the links recorded in permission files and the virtual directories; entering
    a directory is a right that [_checkFileForPerm] checks. The file system is a
    parameter ([fs_file_lstat]). *)

From S2P Require Import Prelude CList Ip Registry Users Backend Perm Path PermFile.

Record wzd_vfs_t := mkVfs {
  virtual_dir : list ascii;
  physical_dir : list ascii;
  vfs_target : option (list ascii) }.

(** ** The list of virtual directories *)

(** [exists_] is the success of [fs_file_stat(path)]. *)
Definition vfs_add_restricted (l : list wzd_vfs_t) (vpath path : list ascii) (target : option (list ascii))
    (exists_ : bool) : Z * list wzd_vfs_t :=
  if existsb (λ v, streq vpath (virtual_dir v)) l then (2, l) else
  if negb exists_ then (1, l) else
  (0, l ++ [mkVfs vpath path target]).

Definition vfs_add (l : list wzd_vfs_t) (vpath path : list ascii) (exists_ : bool) : Z * list wzd_vfs_t :=
  vfs_add_restricted l vpath path None exists_.

Fixpoint vfs_remove (l : list wzd_vfs_t) (vpath : list ascii) : Z * list wzd_vfs_t :=
  match l with
  | [] => (2, [])
  | v :: l' =>
    if streq (virtual_dir v) vpath then (0, l')
    else let '(ret, l') := vfs_remove l' vpath in (ret, v :: l')
  end.

(** ** Path resolution *)

Section resolution.
  (** The backend, the default permissions, the kind of file found at a path,
      the permission files on disk, the users and groups, the virtual
      directories. *)
  Context (b : option wzd_backend_t) (umask : Z)
          (fs_file_lstat : list ascii → option fkind)
          (disk : permdisk) (w : world) (vfs : list wzd_vfs_t).

(** The group looked up at the start of [vfs_replace_cookies]. *)
Definition main_group (user : wzd_user_t) : outcome (option wzd_group_t) :=
  if 0 <? group_num user then
    gid ← deref (groups user !! 0%nat);
    g ← GetGroupByID b gid w;
    a ← as_struct g;
    match a with
    | Some a => g ← deref (r_heap (w_groups w) !! a); Val (Some g)
    | None => Val None
    end
  else Val None.

(** The loop over the characters of the path; [out] is what the buffer of
    [2*WZD_MAX_PATH] bytes holds. The terminating NUL is written without a test.
    Each turn consumes a character. *)
Fixpoint replace_cookies (fuel : nat) (user : wzd_user_t) (grp : option wzd_group_t) (path out : list ascii)
    : outcome (option (list ascii)) :=
  match fuel with
  | O => Crash
  | S fuel =>
    let cookie (n : nat) (value : outcome (list ascii)) :=
      v ← value;
      if (2 * MAXPATH <=? length out + length v)%nat then Val None
      else replace_cookies fuel user grp (drop n path) (out ++ v) in
    match path with
    | [] => if (2 * MAXPATH <=? length out)%nat then Crash else Val (Some out)
    | c :: rest =>
      if (2 * MAXPATH <=? length out)%nat then Val None else
      if bool_decide (c = "%"%char) then
        if starts_with (str "%username") path then cookie 9%nat (buf_str (username user))
        else if starts_with (str "%usergroup") path then
          match grp with
          | Some g => cookie 10%nat (buf_str (groupname g))
          | None => Val None
          end
        else if starts_with (str "%userhome") path then cookie 9%nat (buf_str (rootpath user))
        else Val None
      else replace_cookies fuel user grp rest (out ++ [c])
    end
  end.

Definition vfs_replace_cookies (path : list ascii) (user : wzd_user_t) : outcome (option (list ascii)) :=
  grp ← main_group user;
  replace_cookies (S (length path)) user grp path [].

(** [strcasecmp] of the token with the groups of the user from the [i]-th on. *)
Fixpoint token_group (n i : nat) (token : list ascii) (user : wzd_user_t) : outcome bool :=
  match n with
  | O => Val false
  | S n =>
    gid ← deref (groups user !! i);
    g ← GetGroupByID b gid w;
    a ← as_struct g;
    match a with
    | None => token_group n (S i) token user
    | Some a =>
      g ← deref (r_heap (w_groups w) !! a);
      name ← buf_str (groupname g);
      same ← buf_eq tolower token name;
      if (same : bool) then Val true else token_group n (S i) token user
    end
  end.

(** [None]: the token does not decide. A character that starts no entry is
    skipped by [continue], which does not fetch another token: the scan runs on
    through the NUL, and stops for want of fuel only past the end of the buffer. *)
Fixpoint match_token (fuel : nat) (buf : list ascii) (pos : nat) (user : wzd_user_t) : outcome (option bool) :=
  match fuel with
  | O => Crash
  | S fuel =>
    c ← deref (buf !! pos);
    let negate := bool_decide (c = "!"%char) in
    '(c, pos) ← (if negate then c ← deref (buf !! S pos); Val (c, S (S pos)) else Val (c, S pos));
    let verdict (yes : bool) : option bool := if yes then Some (negb negate) else None in
    if bool_decide (c = "="%char) then
      name ← buf_str (username user); same ← buf_eq tolower (drop pos buf) name; Val (verdict same)
    else if bool_decide (c = "-"%char) then
      same ← token_group (Z.to_nat (group_num user)) 0 (drop pos buf) user; Val (verdict same)
    else if bool_decide (c = "+"%char) then
      fl ← buf_str (flags user); x ← deref (buf !! pos); Val (verdict (strchr fl x))
    else if bool_decide (c = "*"%char) then Val (verdict true)
    else match_token fuel buf pos user
  end.

(** Tokens are read only once, so the mark restored after a negated token that
    does not decide is left out. *)
Fixpoint match_tokens (fuel : nat) (buf : list ascii) (ptr : nat) (user : wzd_user_t) : outcome bool :=
  match fuel with
  | O => Crash
  | S fuel =>
    match strtok_r buf ptr with
    | None => Val false
    | Some (buf, tok, ptr) =>
      r ← match_token (S (length buf)) buf tok user;
      match r with
      | Some yes => Val yes
      | None => match_tokens fuel buf ptr user
      end
    end
  end.

Definition vfs_match_perm (perms : option (list ascii)) (user : wzd_user_t) : outcome bool :=
  match perms with
  | None => Val true
  | Some perms => match_tokens (S (S (length perms))) (perms ++ [NUL]) 0 user
  end.

(** The first absolute link of this name in a permission file. *)
Fixpoint find_link (lpart : list ascii) (l : list wzd_file_t) : outcome (option (list ascii)) :=
  match l with
  | [] => Val None
  | entry :: l =>
    if bool_decide (kind entry = FILE_LNK) then
      same ← buf_eq id (filename entry) lpart;
      if (same : bool) then
        target ← deref (data entry);
        if starts_with [SLASH] target then Val (Some target) else find_link lpart l
      else find_link lpart l
    else find_link lpart l
  end.

(** The first virtual directory that is [lpart] in [syspath]; the buffer its
    path is copied to has [WZD_MAX_PATH+1] bytes. *)
Fixpoint find_vfs (l : list wzd_vfs_t) (syspath lpart : list ascii) (user : wzd_user_t) : outcome (option (list ascii)) :=
  match l with
  | [] => Val None
  | v :: l =>
    r ← vfs_replace_cookies (virtual_dir v) user;
    match r with
    | None => find_vfs l syspath lpart user
    | Some buffer_vfs =>
      if (MAXPATH <=? length buffer_vfs)%nat then Crash else
      if starts_with syspath buffer_vfs then
        ok ← vfs_match_perm (vfs_target v) user;
        if ok && negb (bool_decide (SLASH ∈ drop (length syspath) buffer_vfs))
           && streq lpart (drop (length syspath) buffer_vfs)
        then Val (Some (physical_dir v)) else find_vfs l syspath lpart user
      else find_vfs l syspath lpart user
    end
  end.

(** [wzd_strncpy(path,syspath,WZD_MAX_PATH)] *)
Definition out_path (syspath : list ascii) : list ascii := take MAXPATH syspath.

(** What a component that is not on the disk stands for: a link, or else a
    virtual directory. It is copied by [strncpy(syspath,...,WZD_MAX_PATH)]. *)
Definition find_target (syspath lpart : list ascii) (user : wzd_user_t) : outcome (option (list ascii)) :=
  perm_file ← append syspath HARD_PERMFILE;
  '(_, perm_list) ← readPermFile umask disk perm_file [];
  link ← find_link lpart perm_list;
  found ← match link with
          | Some t => Val (Some t)
          | None => find_vfs vfs syspath lpart user
          end;
  match found with
  | Some t => if (MAXPATH <=? length t)%nat then Crash else Val (Some t)
  | None => Val None
  end.

(** The loop over the components of the simplified path; [cs] are the
    components from [ptr_ftppath] on. *)
Fixpoint walk (cs : list (list ascii)) (syspath : list ascii) (user : wzd_user_t) : outcome (wzd_errno_t * option (list ascii)) :=
  let enter (rest : list (list ascii)) (k : fkind) (full : list ascii) :=
    match k with
    | FK_REG => walk rest full user
    | _ =>
      syspath ← add_slash full;
      denied ← _checkFileForPerm b umask disk syspath (str ".") RIGHT_CWD user w;
      if negb (denied =? 0) then Val (E_NOPERM, None) else walk rest syspath user
    end in
  match cs with
  | [] => Val (E_OK, Some (out_path syspath))
  | [] :: _ => Val (E_OK, Some (out_path syspath))
  | lpart :: rest =>
    full ← append syspath lpart;
    match fs_file_lstat full with
    | Some k => enter rest k full
    | None =>
      found ← find_target syspath lpart user;
      let syspath := match found with Some t => t | None => syspath end in
      match (match found with Some _ => fs_file_lstat syspath | None => None end) with
      | Some k => enter rest k syspath
      | None =>
        match rest with
        | [] | [[]] => p ← append syspath lpart; Val (E_FILE_NOEXIST, Some (out_path p))
        | _ => Val (E_WRONGPATH, None)
        end
      end
    end
  end.

(** The branch for an absolute path. *)
Definition checkpath_abs (rootpath wanted : list ascii) (user : wzd_user_t) : outcome (wzd_errno_t * option (list ascii)) :=
  ftppath ← path_simplify wanted;
  syspath ← add_slash rootpath;
  walk (components [] (if starts_with [SLASH] ftppath then drop 1 ftppath else ftppath)) syspath user.

(** The path a relative path is replaced by: [wanted] is written from the end
    of the current path, or over its final slash when it has one and is not
    the root. *)
Definition relative_path (currentpath wanted : list ascii) : outcome (list ascii) :=
  let cur := take MAXPATH currentpath in
  base ← (if ends_with_slash cur then
            Val (if (length cur =? 1)%nat then cur else take (length cur - 1) cur)
          else append cur [SLASH]);
  append base wanted.

(** The recursion calls itself once: the simplified path is absolute as soon as
    the current path is. *)
Fixpoint checkpath_rec (fuel : nat) (rootpath currentpath wanted : list ascii) (user : wzd_user_t) : outcome (wzd_errno_t * option (list ascii)) :=
  if (MAXPATH <=? length rootpath + length wanted)%nat then Val (E_PARAM_BIG, None) else
  if starts_with [SLASH] wanted then checkpath_abs rootpath (take MAXPATH wanted) user else
  match fuel with
  | O => Crash
  | S fuel =>
    ftppath ← relative_path currentpath wanted;
    if starts_with (str "/../") ftppath then Val (E_WRONGPATH, None) else
    ftppath ← path_simplify ftppath;
    checkpath_rec fuel rootpath currentpath ftppath user
  end.

(** [user] is the user of the context when it exists. *)
Definition checkpath_new (wanted : option (list ascii)) (user : option wzd_user_t) (currentpath : list ascii)
    : outcome (wzd_errno_t * option (list ascii)) :=
  match wanted with
  | None => Val (E_PARAM_NULL, None)
  | Some wanted =>
    if (length currentpath =? 0)%nat then Val (E_PARAM_INVALID, None) else
    match user with
    | None => Val (E_USER_IDONTEXIST, None)
    | Some u => rootpath ← buf_str (rootpath u); checkpath_rec 1 rootpath currentpath wanted u
    end
  end.

(** [trial_path] is not empty. *)
Definition test_path (trial_path : list ascii) (user : option wzd_user_t) : outcome wzd_errno_t :=
  match user with
  | None => Val E_USER_IDONTEXIST
  | Some user =>
    match fs_file_lstat trial_path with
    | None => Val E_FILE_NOEXIST
    | Some FK_REG => Val E_OK
    | Some _ =>
      if negb (ends_with_slash trial_path) then Val E_WRONGPATH else
      denied ← _checkFileForPerm b umask disk trial_path (str ".") RIGHT_CWD user w;
      Val (if denied =? 0 then E_OK else E_NOPERM)
    end
  end.

End resolution.

(** ** Confinement *)

Definition no_dots (c : list ascii) : Prop := c ≠ ["."%char] ∧ c ≠ ["."%char; "."%char].

Lemma components_slash cur p : components cur (p ++ [SLASH]) = components cur p ++ [[]].
Proof.
  revert cur. induction p as [|c p IH]; intros cur; simpl; [done|].
  case_bool_decide; [simpl; by rewrite IH|apply IH].
Qed.

Lemma components_ne cur p : components cur p ≠ [].
Proof. revert cur. induction p as [|c p IH]; intros cur; simpl; [done|]. by case_bool_decide. Qed.

(** Appending characters to a path changes its last component only. *)
Lemma components_append cur p c :
  SLASH ∉ c → ∃ ds d, components cur p = ds ++ [d] ∧ components cur (p ++ c) = ds ++ [d ++ c].
Proof.
  intros Hc. revert cur. induction p as [|x p IH]; intros cur.
  - exists [], cur. split; [done|]. pose proof (components_tail_str cur c [] Hc ltac:(constructor)) as H.
    unfold tail_str in H. simpl in H. by rewrite app_nil_r in H.
  - cbn [app components]. case_bool_decide; [|apply IH].
    destruct (IH []) as (ds & d & -> & ->). by exists (cur :: ds), d.
Qed.

(** What is below the root so far. *)
Definition safe (p : list ascii) : Prop := Forall no_dots (components [] p).

Lemma safe_nil : safe [].
Proof. unfold safe. simpl. apply Forall_singleton. done. Qed.

Lemma safe_slash p : safe p → safe (p ++ [SLASH]).
Proof. unfold safe. rewrite components_slash, Forall_app. intros. split; [done|by repeat constructor]. Qed.

Lemma safe_append p c : kept c → safe p → safe (p ++ c).
Proof.
  intros ([Hs _] & Hne & H1 & H2) Hp. unfold safe in *.
  destruct (components_append [] p c Hs) as (ds & d & Heq & ->). rewrite Heq in Hp.
  apply Forall_app in Hp as [Hds Hd]. apply Forall_app. split; [done|]. apply Forall_cons in Hd as [[Hd1 Hd2] _].
  apply Forall_singleton. split; destruct d as [|x [|y d]], c as [|z [|w c]]; simpl; try done; intros [=]; subst; try done; by destruct d.
Qed.

(** The length the components still add. *)
Definition weight (cs : list (list ascii)) : nat := length (tail_str cs).

Lemma weight_cons c cs : weight (c :: cs) = (S (length c) + weight cs)%nat.
Proof. unfold weight, tail_str. simpl. by rewrite length_app. Qed.

(** The root of a user as the walk starts from it. *)
Definition with_slash (root : list ascii) : list ascii := if ends_with_slash root then root else root ++ [SLASH].

Lemma with_slash_ends root : ends_with_slash (with_slash root) = true.
Proof. unfold with_slash. destruct (ends_with_slash root) eqn:He; [done|]. unfold ends_with_slash. rewrite last_snoc. by apply bool_decide_eq_true_2. Qed.

Lemma append_fits q t : (length q + length t ≤ MAXPATH)%nat → append q t = Val (q ++ t).
Proof. intros H. unfold append. by rewrite (proj2 (Nat.leb_le _ _) H). Qed.

(** The targets of the links the permission files record. *)
Definition linked (umask : Z) (disk : permdisk) (t : list ascii) : Prop :=
  ∃ p l d, holds umask disk p l ∧ d ∈ l ∧ d_link d = Some t.

(** A virtual directory whose path and restriction can be evaluated for a user. *)
Definition vfs_ok (b : option wzd_backend_t) (w : world) (u : wzd_user_t) (v : wzd_vfs_t) : Prop :=
  physical_dir v ≠ [] ∧ (∃ m, vfs_match_perm b w (vfs_target v) u = Val m) ∧
  ∃ r, vfs_replace_cookies b w (virtual_dir v) u = Val r ∧ from_option (λ s, (length s < MAXPATH)%nat) True r.

Lemma find_link_repr umask lpart l :
  Forall (dfile_ok umask) l →
  ∃ o, find_link lpart (map repr l) = Val o ∧
    match o with Some t => t ≠ [] ∧ ∃ d, d ∈ l ∧ d_link d = Some t | None => True end.
Proof.
  induction 1 as [|d l Hd Hl (o & IH & Ho)]; cbn [map find_link]; [by exists None|].
  assert (Hrec : ∃ o, find_link lpart (map repr l) = Val o ∧
    match o with Some t => t ≠ [] ∧ ∃ d', d' ∈ d :: l ∧ d_link d' = Some t | None => True end).
  { exists o. split; [done|]. destruct o; [|done]. destruct Ho as (? & d' & ? & ?). split; [done|]. exists d'. set_solver. }
  cbn [kind repr filename data]. destruct (d_link d) as [t|] eqn:Hlk; [|by rewrite bool_decide_eq_false_2].
  rewrite bool_decide_eq_true_2 by done. rewrite buf_eq_padded; [|by eapply dfile_ok_nul_free|by eapply do_name]. run.
  case_bool_decide; [|done]. destruct (starts_with [SLASH] t) eqn:Hs; [|done].
  exists (Some t). split; [done|]. split; [by intros ->|]. exists d. set_solver.
Qed.

Lemma find_vfs_spec b w l syspath lpart u :
  Forall (vfs_ok b w u) l →
  ∃ o, find_vfs b w l syspath lpart u = Val o ∧
    match o with Some t => ∃ v, v ∈ l ∧ physical_dir v = t | None => True end.
Proof.
  induction 1 as [|v l (Hne & (m & Hm) & r & Hr & Hlen) Hl (o & IH & Ho)]; cbn [find_vfs]; [by exists None|].
  assert (Hrec : ∃ o, find_vfs b w l syspath lpart u = Val o ∧
    match o with Some t => ∃ v', v' ∈ v :: l ∧ physical_dir v' = t | None => True end).
  { exists o. split; [done|]. destruct o; [|done]. destruct Ho as (v' & ? & ?). exists v'. set_solver. }
  rewrite Hr. run. destruct r as [s|]; [|done]. simpl in Hlen. rewrite (proj2 (Nat.leb_gt _ _)) by done.
  destruct (starts_with syspath s); [|done]. rewrite Hm. run.
  destruct (m && _ && _); [|done]. exists (Some (physical_dir v)). split; [done|]. exists v. set_solver.
Qed.

(** ** The walk stays below the places it may start from *)

Section confined.
  Context (ch : list ascii → list ascii → list ascii → nat → Z * list ascii) (ca : list ascii → list ascii → list ascii → Z).
  Context (umask : Z) (lstat : list ascii → option fkind) (disk : permdisk) (w : world) (vfs : list wzd_vfs_t)
          (u : wzd_user_t) (name fl : list ascii) (gnames : list (list ascii)) (root : list ascii).
  Context (Hwg : reg_wf (w_groups w)) (Hm : 0 < r_max (w_groups w)) (Hu : perm_user u w name fl gnames)
          (Hdisk : ∀ p, ∃ l, holds umask disk p l) (Hvfs : Forall (vfs_ok (Some (plaintext ch ca)) w u) vfs).

(** The user's root, the target of a link, the physical place of a virtual
    directory. *)
Definition base_ok (base : list ascii) : Prop :=
  base = with_slash root ∨ linked umask disk base ∨ base ∈ physical_dir <$> vfs.

(** What the walk goes on from with a slash. *)
Definition enterable (k : option fkind) : Prop := match k with Some FK_REG | None => False | Some _ => True end.

(** [p] is below [base], not next to it, when [base] is a directory (or a link
    of the file system). Only after the target of a recorded link, or the place
    of a virtual directory, that is a regular file or is missing does the code
    write the rest without a slash. *)
Definition joined (base p : list ascii) : Prop :=
  ends_with_slash base = true ∨ (∃ p', p = SLASH :: p') ∨ ¬ enterable (lstat base).

Definition below_base (q : list ascii) : Prop := ∃ base p, q = base ++ p ∧ base_ok base ∧ safe p ∧ joined base p.

(** The user's root, a regular file, or a directory the permissions let the
    user enter. *)
Definition vetted (q : list ascii) : Prop :=
  q = with_slash root ∨ lstat q = Some FK_REG ∨
  _checkFileForPerm (Some (plaintext ch ca)) umask disk q (str ".") RIGHT_CWD u w = Val 0.

Definition below (m : outcome (wzd_errno_t * option (list ascii))) : Prop :=
  ∃ ret po, m = Val (ret, po) ∧
    match po with
    | Some q => below_base q ∧ q ≠ [] ∧ (length q + 8 ≤ MAXPATH)%nat ∧ (ret = E_OK ∧ vetted q ∨ ret = E_FILE_NOEXIST)
    | None => ret = E_NOPERM ∨ ret = E_WRONGPATH
    end.

Lemma joined_app base p p' : joined base p → joined base (p ++ p').
Proof using. intros [H|[[r ->]|H]]; [by left|right; left; by exists (r ++ p')|by right; right]. Qed.

Lemma find_target_spec syspath lpart :
  (length syspath + length HARD_PERMFILE ≤ MAXPATH)%nat → (∀ base, base_ok base → (length base < MAXPATH)%nat) →
  ∃ o, find_target (Some (plaintext ch ca)) umask disk w vfs syspath lpart u = Val o ∧
    match o with Some t => base_ok t ∧ t ≠ [] | None => True end.
Proof using Hdisk Hvfs.
  intros Hlen Hmax. unfold find_target. rewrite append_fits by done. run.
  destruct (Hdisk (syspath ++ HARD_PERMFILE)) as (l & Hh). destruct (holds_read _ _ _ _ Hh) as (ret & -> & _). run.
  destruct (find_link_repr umask lpart l (proj1 Hh)) as (o & -> & Ho). run.
  assert (Hfin : ∀ t, base_ok t → t ≠ [] → ∃ o, (if (MAXPATH <=? length t)%nat then Crash else Val (Some t)) = Val o ∧
    match o with Some t => base_ok t ∧ t ≠ [] | None => True end).
  { intros t Ht Hne. rewrite (proj2 (Nat.leb_gt _ _)) by auto. by exists (Some t). }
  destruct o as [t|]; run.
  - destruct Ho as (Hne & d & Hd & Hlk). apply Hfin; [|done]. right. left. by exists (syspath ++ HARD_PERMFILE), l, d.
  - destruct (find_vfs_spec (Some (plaintext ch ca)) w vfs syspath lpart u Hvfs) as (o' & -> & Ho'). run.
    destruct o' as [t|]; [|by exists None]. destruct Ho' as (v & Hv & <-). apply Hfin; [right; right; by apply list_elem_of_fmap_2|].
    rewrite Forall_forall in Hvfs. by apply Hvfs.
Qed.

Lemma walk_below cs base p :
  Forall (λ c, c = [] ∨ kept c) cs → base_ok base → safe p → joined base p → vetted (base ++ p) → base ++ p ≠ [] →
  (length base + length p + weight cs + 8 ≤ MAXPATH)%nat →
  (∀ base', base_ok base' → (length base' + weight cs + 9 ≤ MAXPATH)%nat) →
  below (walk (Some (plaintext ch ca)) umask lstat disk w vfs cs (base ++ p) u).
Proof using Hwg Hm Hu Hdisk Hvfs.
  intros Hcs. revert base p. induction Hcs as [|c cs Hc Hcs IH]; intros base p Hb Hp Hj Hv Hne Hlen Hmax.
  { eexists _, _. split; [done|]. unfold out_path. rewrite take_ge by (rewrite length_app; lia).
    split_and!; [by exists base, p|done|rewrite length_app; lia|by left]. }
  rewrite weight_cons in *. destruct c as [|x c]; [|destruct Hc as [?|Hc]; [done|]].
  { eexists _, _. split; [done|]. unfold out_path. rewrite take_ge by (rewrite length_app; lia).
    split_and!; [by exists base, p|done|rewrite length_app; lia|by left]. }
  cbn [walk]. set (lp := x :: c) in *.
  assert (Hmax' : ∀ base', base_ok base' → (length base' + weight cs + 9 ≤ MAXPATH)%nat).
  { intros base' Hb'. specialize (Hmax base' Hb'). lia. }
  assert (Henter : ∀ k base p, base_ok base → safe p → joined base p ∨ p = [] → lstat (base ++ p) = Some k → base ++ p ≠ [] → (length base + length p + 1 + weight cs + 8 ≤ MAXPATH)%nat →
    below match k with
          | FK_REG => walk (Some (plaintext ch ca)) umask lstat disk w vfs cs (base ++ p) u
          | _ => syspath ← add_slash (base ++ p);
                 denied ← _checkFileForPerm (Some (plaintext ch ca)) umask disk syspath (str ".") RIGHT_CWD u w;
                 if negb (denied =? 0) then Val (E_NOPERM, None)
                 else walk (Some (plaintext ch ca)) umask lstat disk w vfs cs syspath u
          end).
  { clear Hb Hp Hj Hv Hne Hlen p base. intros k base p Hb Hp Hj Hk Hne Hlen.
    assert (Hdir : below (syspath ← add_slash (base ++ p);
      denied ← _checkFileForPerm (Some (plaintext ch ca)) umask disk syspath (str ".") RIGHT_CWD u w;
      if negb (denied =? 0) then Val (E_NOPERM, None)
      else walk (Some (plaintext ch ca)) umask lstat disk w vfs cs syspath u)).
    { assert (Hadd : ∃ p', add_slash (base ++ p) = Val (base ++ p') ∧ safe p' ∧ joined base p' ∧ (length p' ≤ S (length p))%nat ∧ base ++ p' ≠ []).
      { rewrite add_slash_fits by (done || rewrite length_app; lia). destruct (ends_with_slash (base ++ p)) eqn:He.
        - exists p. split_and!; [done|done| |lia|done]. destruct Hj as [Hj| ->]; [done|left; by rewrite app_nil_r in He].
        - exists (p ++ [SLASH]). rewrite length_app. split_and!; [by rewrite app_assoc|by apply safe_slash| |simpl; lia|].
          + destruct Hj as [Hj| ->]; [by apply joined_app|right; left; by exists []].
          + rewrite app_assoc. by destruct (base ++ p). }
      destruct Hadd as (p' & -> & Hp' & Hj' & Hl' & Hne'). run. destruct (Hdisk ((base ++ p') ++ HARD_PERMFILE)) as (l & Hh).
      destruct (check_total ch ca umask disk w u name fl gnames (base ++ p') (str ".") l RIGHT_CWD) as (r & Hr);
        [done..|rewrite length_app; lia|].
      rewrite Hr. run. destruct (Z.eqb_spec r 0) as [->|]; cbn [negb]; [|eexists _, _; split; [done|]; by left].
      apply IH; (done || lia || by right; right). }
    destruct k; [exact Hdir|exact Hdir|]. assert (Hv : vetted (base ++ p)) by (right; by left). apply IH; (done || lia || idtac).
    destruct Hj as [Hj| ->]; [done|]. rewrite app_nil_r in Hk. right. right. rewrite Hk. by intros []. }
  rewrite append_fits by (rewrite length_app; lia). run. rewrite <- app_assoc.
  destruct (lstat (base ++ p ++ lp)) as [k|] eqn:Hk.
  { apply Henter; [done|by apply safe_append|left; by apply joined_app|done|by destruct base, p|rewrite length_app; lia]. }
  destruct (find_target_spec (base ++ p) lp) as (o & -> & Ho).
  { rewrite length_app. unfold HARD_PERMFILE. simpl. lia. }
  { intros base' Hb'. specialize (Hmax' base' Hb'). lia. }
  run.
  assert (Hend : ∀ base p, base_ok base → safe p → joined base (p ++ lp) → (length base + length p + length lp + 8 ≤ MAXPATH)%nat →
    below (match cs with
           | [] | [[]] => p ← append (base ++ p) lp; Val (E_FILE_NOEXIST, Some (out_path p))
           | _ => Val (E_WRONGPATH, None)
           end)).
  { clear Hb Hp Hj Hv Hne Hlen p base Hk. intros base p Hb Hp Hj Hlen.
    assert (Hend' : below (p ← append (base ++ p) lp; Val (E_FILE_NOEXIST, Some (out_path p)))).
    { rewrite append_fits by (rewrite length_app; lia). eexists _, _. split; [done|].
      unfold out_path. rewrite <- app_assoc, take_ge by (rewrite !length_app; lia).
      split_and!; [by exists base, (p ++ lp); split; [|split; [|split; [apply safe_append|]]]|by destruct base, p|rewrite !length_app; lia|by right]. }
    destruct cs as [|[|? ?] [|? ?]]; try exact Hend'; (eexists _, _; split; [done|]; by right). }
  destruct o as [t|]; [|apply Hend; (done || lia || by apply joined_app)]. destruct Ho as [Ht Htn]. pose proof (Hmax t Ht) as Hlt.
  rewrite <- (app_nil_r t). destruct (lstat (t ++ [])) as [k|] eqn:Hkt.
  - apply Henter; [done|apply safe_nil|by right|done|by rewrite app_nil_r|cbn [length]; lia].
  - apply Hend; [done|apply safe_nil| |cbn [length]; lia]. right. right. rewrite app_nil_r in Hkt. rewrite Hkt. by intros [].
Qed.

End confined.

Lemma simplify_loop_length fuel f pos pos2 f' p : simplify_loop fuel f pos pos2 = Val (f', p) → length f' = length f.
Proof.
  revert f pos pos2. induction fuel as [|fuel IH]; intros f pos pos2; cbn [simplify_loop]; [done|].
  destruct (f !! pos) as [c|]; [|done]. run.
  repeat (match goal with |- (if ?x then _ else _) = _ → _ => destruct x end);
    try (intros [= <- <-]; done); intros H%IH; by rewrite ?length_insert in H.
Qed.

Lemma path_simplify_length s p : path_simplify s = Val p → (length p ≤ length s)%nat.
Proof.
  unfold path_simplify. intros H. apply outcome_bind_Val in H as ([f pos2] & Hl & H). apply simplify_loop_length in Hl.
  rewrite length_app in Hl. cbn [length] in Hl.
  assert (Hx : ∃ f2 p2, (if (pos2 =? 0)%nat then (<[0%nat := SLASH]> f, 1%nat) else (f, pos2)) = (f2, p2) ∧ length f2 = length f).
  { destruct (pos2 =? 0)%nat; eexists _, _; (split; [done|]); by rewrite ?length_insert. }
  destruct Hx as (f2 & p2 & Hx & Hlen). rewrite Hx in H. apply outcome_bind_Val in H as (f3 & H3 & H).
  unfold buf_set in H3. destruct (_ && _); [|done]. injection H3 as <-. unfold buf_str in H. case_bool_decide as Hn; [|done].
  injection H as <-. pose proof (cstring_length_lt _ Hn) as Hc. rewrite length_insert in Hc. lia.
Qed.

Lemma canonical_comps_kept cs : Forall comp_ok cs → Forall (λ c, c = [] ∨ kept c) (canonical_comps cs).
Proof.
  intros Hok. pose proof (resolve_kept [] cs Hok ltac:(constructor)) as Hk. unfold canonical_comps.
  destruct (resolve [] cs) as [|a acc]; [repeat constructor; by left|]. apply Forall_app. split.
  - apply Forall_rev. eapply Forall_impl; [exact Hk|]. auto.
  - destruct (ends_empty cs); repeat constructor; by left.
Qed.

(** A relative path that fits is glued to an absolute current path. *)
Lemma relative_path_fits cur wanted :
  nul_free wanted → nul_free cur → (length cur + length wanted + 2 ≤ MAXPATH)%nat →
  ∃ base, relative_path (SLASH :: cur) wanted = Val (SLASH :: base) ∧ nul_free base ∧
    (length base ≤ length cur + length wanted + 1)%nat.
Proof.
  intros Hw Hc Hlen. unfold relative_path. rewrite take_ge by (cbn [length]; lia). destruct (ends_with_slash (SLASH :: cur)).
  - destruct (Nat.eqb_spec (length (SLASH :: cur)) 1) as [H1|H1]; run.
    + destruct cur; [|done]. rewrite append_fits by (cbn [length] in *; lia). exists wanted. split_and!; [done..|lia].
    + cbn [length] in *. replace (S (length cur) - 1)%nat with (S (length cur - 1)) by lia. cbn [take].
      rewrite append_fits by (cbn [length]; rewrite length_take; lia).
      exists (take (length cur - 1) cur ++ wanted). split_and!; [done| |rewrite length_app, length_take; lia].
      apply nul_free_app; [|done]. intros H. by apply (subseteq_take (length cur - 1)) in H.
  - rewrite append_fits by (cbn [length]; lia). run. rewrite append_fits by (rewrite length_app; cbn [length]; lia).
    exists ((cur ++ [SLASH]) ++ wanted). split_and!; [done| |rewrite !length_app; cbn [length]; lia].
    apply nul_free_app; [|done]. apply nul_free_app; [done|by apply nul_free_cons; [|apply nul_free_nil]].
Qed.

Section absolute.
  Context (ch : list ascii → list ascii → list ascii → nat → Z * list ascii) (ca : list ascii → list ascii → list ascii → Z).
  Context (umask : Z) (lstat : list ascii → option fkind) (disk : permdisk) (w : world) (vfs : list wzd_vfs_t)
          (u : wzd_user_t) (name fl : list ascii) (gnames : list (list ascii)) (root : list ascii).
  Context (Hwg : reg_wf (w_groups w)) (Hm : 0 < r_max (w_groups w)) (Hu : perm_user u w name fl gnames)
          (Hdisk : ∀ p, ∃ l, holds umask disk p l) (Hvfs : Forall (vfs_ok (Some (plaintext ch ca)) w u) vfs)
          (Hr : root ≠ []).

Lemma checkpath_abs_below s :
  nul_free s → (∀ base, base_ok umask disk vfs root base → (length base + length s + 11 ≤ MAXPATH)%nat) →
  below ch ca umask lstat disk w vfs u root (checkpath_abs (Some (plaintext ch ca)) umask lstat disk w vfs root (SLASH :: s) u).
Proof using Hwg Hm Hu Hdisk Hvfs Hr.
  intros Hs Hlen. unfold checkpath_abs. set (cs := components [] s).
  assert (Hok : Forall comp_ok cs) by (apply components_ok; [split; set_solver|done]).
  pose proof (path_simplify_spec s Hs) as Hp. fold cs in Hp. pose proof (path_simplify_length _ _ Hp) as Hpl.
  rewrite Hp. run. rewrite canonical_tail_str in *.
  pose proof (canonical_comps_kept cs Hok) as Hk. destruct (canonical_comps_ok cs Hok) as (Hdok & _ & Hne & _).
  destruct (canonical_comps cs) as [|d ds]; [done|]. change (tail_str (d :: ds)) with (SLASH :: d ++ tail_str ds) in *.
  change (starts_with [SLASH] (SLASH :: ?x)) with (streq [SLASH] [SLASH]). rewrite (proj2 (streq_true _ _) eq_refl).
  change (drop 1 (SLASH :: d ++ tail_str ds)) with (d ++ tail_str ds). apply Forall_cons in Hdok as [[Hd _] Hdok].
  rewrite (components_tail_str [] d ds Hd Hdok). cbn [app].
  assert (Hroot : base_ok umask disk vfs root (with_slash root)) by (by left). pose proof (Hlen _ Hroot) as Hlr.
  assert (Hws : (length root ≤ length (with_slash root))%nat ∧ with_slash root ≠ []).
  { unfold with_slash. destruct (ends_with_slash root); [done|]. rewrite length_app. split; [lia|by destruct root]. }
  rewrite add_slash_fits by (done || lia). fold (with_slash root). run. rewrite <- (app_nil_r (with_slash root)).
  cbn [length] in Hpl. rewrite length_app in Hpl. fold (weight ds) in Hpl.
  eapply (walk_below ch ca umask lstat disk w vfs u name fl gnames root); [done..|apply safe_nil| | |rewrite app_nil_r; tauto| |].
  - left. apply with_slash_ends.
  - left. by rewrite app_nil_r.
  - rewrite weight_cons. cbn [length]. lia.
  - intros base Hb. specialize (Hlen base Hb). rewrite weight_cons. lia.
Qed.

End absolute.

Lemma checkpath_below ch ca umask lstat disk w vfs u name fl gnames root cur wanted :
  reg_wf (w_groups w) → 0 < r_max (w_groups w) → perm_user u w name fl gnames →
  buf_str (rootpath u) = Val root → root ≠ [] → nul_free wanted → nul_free cur →
  (∀ p, ∃ l, holds umask disk p l) → Forall (vfs_ok (Some (plaintext ch ca)) w u) vfs →
  (∀ base, base_ok umask disk vfs root base → (length base + length cur + length wanted + 13 ≤ MAXPATH)%nat) →
  below ch ca umask lstat disk w vfs u root
    (checkpath_new (Some (plaintext ch ca)) umask lstat disk w vfs (Some wanted) (Some u) (SLASH :: cur)).
Proof.
  intros Hwg Hm Hu Hroot Hr Hw Hc Hdisk Hvfs Hall. unfold checkpath_new. cbn [length Nat.eqb]. rewrite Hroot. run.
  assert (Hlen : (length root + length cur + length wanted + 13 ≤ MAXPATH)%nat).
  { pose proof (Hall (with_slash root) (or_introl eq_refl)) as H. unfold with_slash in H.
    destruct (ends_with_slash root); [done|]. rewrite length_app in H. lia. }
  cbn [checkpath_rec]. rewrite (proj2 (Nat.leb_gt _ _)) by lia.
  destruct (starts_with [SLASH] wanted) eqn:Habs.
  { apply starts_with_true in Habs as [s ->]. cbn [app length] in *. rewrite take_ge by (cbn [length]; lia).
    eapply checkpath_abs_below; [done..|solve_nul_free|]. intros base Hb. specialize (Hall base Hb). lia. }
  destruct (relative_path_fits cur wanted Hw Hc) as (base & -> & Hb & Hbl); [lia|]. run.
  destruct (starts_with (str "/../") _); [eexists _, _; split; [done|]; by right|].
  destruct (path_simplify_absolute base Hb) as (p & Hp & Hnp). pose proof (path_simplify_length _ _ Hp) as Hpl.
  rewrite Hp. run. cbn [length] in *. rewrite (proj2 (Nat.leb_gt _ _)) by lia.
  change (starts_with [SLASH] (SLASH :: p)) with (streq [SLASH] [SLASH]). rewrite (proj2 (streq_true _ _) eq_refl).
  rewrite take_ge by (cbn [length]; lia). eapply checkpath_abs_below; [done..|].
  intros base' Hb'. specialize (Hall base' Hb'). lia.
Qed.

(** ** Theorems *)


(** A relative path is copied after the current path without a check of
    their common length, which only the root and the path asked for went
    through: when the two together do not fit, the array of [WZD_MAX_PATH]+1
    bytes is overrun. *)
Theorem checkpath_relative_overrun b umask lstat disk w vfs (u : wzd_user_t) (root cur wanted : list ascii) :
  buf_str (rootpath u) = Val root → cur ≠ [] → (length cur ≤ MAXPATH)%nat → ends_with_slash cur = false →
  starts_with [SLASH] wanted = false → (length root + length wanted < MAXPATH)%nat →
  (MAXPATH < length cur + 1 + length wanted)%nat →
  checkpath_new b umask lstat disk w vfs (Some wanted) (Some u) cur = Crash.
Proof.
  intros Hroot Hc Hcl Hce Hrel Hlen Hover. unfold checkpath_new.
  destruct (Nat.eqb_spec (length cur) 0) as [Hz|_]; [by apply nil_length_inv in Hz|].
  rewrite Hroot. cbn [mbind outcome_mbind checkpath_rec]. rewrite (proj2 (Nat.leb_gt _ _)) by lia. rewrite Hrel.
  unfold relative_path. rewrite take_ge by lia. rewrite Hce. unfold append at 2. cbn [length].
  destruct (Nat.leb_spec (length cur + 1) MAXPATH); [|done]. run.
  unfold append. rewrite length_app. cbn [length]. rewrite (proj2 (Nat.leb_gt _ _)) by lia. done.
Qed.

(** A component after a regular file is glued to its name instead of being
    refused: when [root/a] is a regular file, [/a/b] is resolved to [root/ab]. *)
Theorem checkpath_glues_after_file b umask lstat disk w vfs (u : wzd_user_t) (root a c cur : list ascii) :
  buf_str (rootpath u) = Val root → root ≠ [] → kept a → kept c → cur ≠ [] →
  (length root + length a + length c + 12 ≤ MAXPATH)%nat →
  lstat (with_slash root ++ a) = Some FK_REG → lstat (with_slash root ++ a ++ c) = Some FK_REG →
  checkpath_new b umask lstat disk w vfs (Some (SLASH :: a ++ SLASH :: c)) (Some u) cur
    = Val (E_OK, Some (with_slash root ++ a ++ c)).
Proof.
  intros Hroot Hr Ha Hb Hc Hlen Hla Hlb. unfold checkpath_new.
  destruct (Nat.eqb_spec (length cur) 0) as [Hz|_]; [by apply nil_length_inv in Hz|].
  rewrite Hroot. cbn [mbind outcome_mbind checkpath_rec].
  rewrite (proj2 (Nat.leb_gt _ _)) by (cbn [length]; rewrite length_app; cbn [length]; lia).
  change (starts_with [SLASH] (SLASH :: ?x)) with (streq [SLASH] [SLASH]). rewrite (proj2 (streq_true _ _) eq_refl).
  rewrite take_ge by (cbn [length]; rewrite length_app; cbn [length]; lia). unfold checkpath_abs.
  pose proof Ha as ([Has Han] & Hane & _). pose proof Hb as ([Hbs Hbn] & Hbne & _).
  assert (Hcs : components [] (a ++ SLASH :: c) = [a; c]).
  { pose proof (components_tail_str [] a [c] Has ltac:(by apply Forall_singleton)) as H.
    unfold tail_str in H. simpl in H. by rewrite app_nil_r in H. }
  rewrite path_simplify_spec by solve_nul_free. rewrite Hcs, canonical_tail_str. run.
  assert (Hcan : canonical_comps [a; c] = [a; c]).
  { unfold canonical_comps. rewrite (resolve_of_kept [] [a; c]) by (constructor; [done|by apply Forall_singleton]). simpl.
    unfold ends_empty. simpl. rewrite bool_decide_eq_false_2; [done|congruence]. }
  rewrite Hcan. change (tail_str [a; c]) with (SLASH :: a ++ SLASH :: c ++ []). rewrite app_nil_r.
  change (starts_with [SLASH] (SLASH :: ?x)) with (streq [SLASH] [SLASH]). rewrite (proj2 (streq_true _ _) eq_refl).
  change (drop 1 (SLASH :: ?x)) with x. rewrite Hcs.
  assert (Hadd : add_slash root = Val (with_slash root) ∧ (length (with_slash root) ≤ S (length root))%nat).
  { unfold add_slash, with_slash. destruct root as [|x root]; [done|]. destruct (ends_with_slash _); [auto with lia|].
    unfold append. rewrite length_app. rewrite (proj2 (Nat.leb_le _ _)); [split; [done|cbn [length]; lia]|]. cbn [length] in *. lia. }
  destruct Hadd as [-> Hwl]. cbn [mbind outcome_mbind walk].
  assert (Happ : ∀ q t, (length q + length t ≤ MAXPATH)%nat → append q t = Val (q ++ t)).
  { intros q t H. unfold append. by rewrite (proj2 (Nat.leb_le _ _) H). }
  destruct a as [|xa a']; [done|]. destruct c as [|xb b']; [done|].
  rewrite (Happ (with_slash root) (xa :: a')) by lia. run. rewrite Hla.
  rewrite (Happ (with_slash root ++ xa :: a') (xb :: b')) by (rewrite length_app; lia). run. rewrite <- app_assoc, Hlb.
  unfold out_path. rewrite take_ge by (rewrite !length_app; lia). done.
Qed.


(** ** Concrete requests *)

Definition home_user : wzd_user_t :=
  let u := user_init_struct in
  mkUser (uid u) (u_backend_id u) (padded HARD_USERNAME_LENGTH (str "bob")) (userpass u)
    (padded WZD_MAX_PATH (str "/home/bob")) (creator u)
    (u_tagline u) (group_num u) (groups u) (u_max_idle_time u) 0xffffffff (flags u) (u_max_ul_speed u)
    (u_max_dl_speed u) (u_num_logins u) (logins_per_ip u) (u_ip_list u) (stats u) (credits u) (u_ratio u)
    (user_slots u) (leech_slots u) (last_login u).

Definition demo_lstat (p : list ascii) : option fkind :=
  if streq p (str "/home/bob/a") || streq p (str "/home/bob/ab") then Some FK_REG
  else if streq p (str "/srv/my pub") || streq p (str "/data/shared") then Some FK_DIR else None.

Definition demo_vfs : list wzd_vfs_t := [mkVfs (str "%userhome/shared") (str "/data/shared") (Some (str "=bob"))].

Abbreviation demo_backend := (Some (plaintext demo_changepass demo_auth)).

Lemma home_root : buf_str (rootpath home_user) = Val (str "/home/bob").
Proof.
  apply (buf_str_padded WZD_MAX_PATH (str "/home/bob")); [by_decision|]. apply Nat.ltb_lt. by vm_compute.
Qed.

Lemma home_user_ok : perm_user home_user demo_world (str "bob") [] [].
Proof.
  split; [|reflexivity|simpl; lia|constructor].
  apply (buf_str_padded HARD_USERNAME_LENGTH (str "bob")); [by_decision|]. apply Nat.ltb_lt. by vm_compute.
Qed.

Lemma demo_vfs_ok : Forall (vfs_ok demo_backend demo_world home_user) demo_vfs.
Proof.
  constructor; [|constructor]. split; [done|]. split; [exists true; by vm_compute|].
  exists (Some (str "/home/bob/shared")). split; [by vm_compute|]. apply Nat.ltb_lt. by vm_compute.
Qed.

Lemma demo_disk_holds p : ∃ l, holds 509 demo_disk p l.
Proof.
  destruct (decide (p = demo_permfile)) as [->|Hne]; [exists demo_dir; exact demo_holds|].
  exists []. split; [constructor|]. split; [constructor|]. unfold demo_disk. by rewrite lookup_singleton_ne.
Qed.

Lemma demo_bases base : base_ok 509 demo_disk demo_vfs (str "/home/bob") base →
  (length base ≤ 20)%nat ∧ head base = Some SLASH.
Proof.
  intros [->|[(p & l & d & (_ & _ & Hh) & Hd & Hlk)|Hv]].
  - split; [apply Nat.leb_le; by vm_compute|done].
  - destruct (decide (p = demo_permfile)) as [->|Hne].
    + pose proof demo_holds as (_ & _ & Hx). destruct (demo_disk !! demo_permfile); [|by subst; set_solver].
      rewrite Hx in Hh. injection Hh as Hh. apply (f_equal (map data)) in Hh.
      assert (Hin : Some base ∈ map data (map repr l)).
      { apply list_elem_of_In, in_map_iff. exists (repr d). split; [done|]. by apply in_map, list_elem_of_In. }
      rewrite <- Hh in Hin. apply list_elem_of_In in Hin. destruct Hin as [Hin|[Hin|[]]]; [done|]. injection Hin as <-.
      split; [apply Nat.leb_le; by vm_compute|done].
    + unfold demo_disk in Hh. rewrite lookup_singleton_ne in Hh by done. subst. set_solver.
  - apply list_elem_of_singleton in Hv as ->. split; [apply Nat.leb_le; by vm_compute|done].
Qed.


(** Requests that go through the link and through the virtual directory. *)
Example checkpath_link :
  checkpath_new demo_backend 509 demo_lstat demo_disk demo_world demo_vfs (Some (str "pub/song")) (Some home_user) (str "/")
    = Val (E_FILE_NOEXIST, Some (str "/srv/my pub/song")).
Proof. by vm_compute. Qed.

Example checkpath_vfs :
  checkpath_new demo_backend 509 demo_lstat demo_disk demo_world demo_vfs (Some (str "/shared/../shared/")) (Some home_user) (str "/")
    = Val (E_OK, Some (str "/data/shared/")).
Proof. by vm_compute. Qed.

(** What follows a link to a regular file, or to a missing place, is written
    right after its target: the names given are no longer below it. *)
Definition demo_lstat_file (p : list ascii) : option fkind :=
  if streq p (str "/srv/my pub") then Some FK_REG else if streq p (str "/srv/my publicity") then Some FK_DIR else None.

Example checkpath_glues_after_link :
  checkpath_new demo_backend 509 demo_lstat_file demo_disk demo_world demo_vfs (Some (str "pub/licity/song")) (Some home_user) (str "/")
    = Val (E_FILE_NOEXIST, Some (str "/srv/my publicity/song")) ∧
  checkpath_new demo_backend 509 (λ _, None) demo_disk demo_world demo_vfs (Some (str "pub")) (Some home_user) (str "/")
    = Val (E_FILE_NOEXIST, Some (str "/srv/my pubpub")).
Proof. by vm_compute. Qed.

Lemma checkpath_relative_overrun_witness :
  checkpath_new demo_backend 509 demo_lstat demo_disk demo_world demo_vfs
    (Some (replicate 600 "x"%char)) (Some home_user) (SLASH :: replicate 600 "d"%char) = Crash.
Proof.
  apply (checkpath_relative_overrun _ _ _ _ _ _ _ (str "/home/bob"));
    [exact home_root|done|apply Nat.leb_le; by vm_compute|by vm_compute|by vm_compute|apply Nat.ltb_lt; by vm_compute|apply Nat.ltb_lt; by vm_compute].
Defined.

Lemma checkpath_glues_after_file_witness :
  checkpath_new demo_backend 509 demo_lstat demo_disk demo_world demo_vfs
    (Some (str "/a/b")) (Some home_user) (str "/") = Val (E_OK, Some (str "/home/bob/ab")).
Proof.
  apply (checkpath_glues_after_file demo_backend 509 demo_lstat demo_disk demo_world demo_vfs home_user
    (str "/home/bob") (str "a") (str "b") (str "/"));
    [exact home_root|done|by_decision|by_decision|done|apply Nat.leb_le; by vm_compute|by vm_compute|by vm_compute].
Defined.
