(* ===== verification/Chdir.v ===== *)
(** * The current directory: [do_chdir] and [do_cwd] (libwzd-core/wzd_ClientThread.c),
    [stripdir] (wzd_vfs.c), [is_hidden_file] (wzd_misc.c)

    A directory is entered through [checkpath_new]; the path shown to the client
    is computed apart from it, by [stripdir], which removes dots from a copy of
    the path. *)

From S2P Require Import Prelude Inet CList Ip Registry Users Backend Perm Str Session SiteUser SiteUserProps Path PermFile Vfs.

(** ** [stripdir] *)

Section stripdir.
  (** The result of comparing a pointer into [buf], at this offset, with the
      pointer [dir] into another array, and the directory of the process. *)
  Context (outle : Z → bool) (getcwd : option (list ascii)).

(** [while (ldots > 0 && --out > buf)]; [out] counts down. *)
Fixpoint back_dots (fuel : nat) (buf : list ascii) (out ldots : Z) : outcome Z :=
  match fuel with
  | O => Crash
  | S fuel =>
    if ldots <=? 0 then Val out else
    let out := out - 1 in
    if out <=? 0 then Val out else
    c ← mem_get buf out;
    back_dots fuel buf out (if bool_decide (c = SLASH) then ldots - 1 else ldots)
  end.

(** [in] at the last of several slashes. *)
Fixpoint skip_slashes (inp : list ascii) : list ascii :=
  match inp with
  | c :: (d :: _) as rest => if bool_decide (c = SLASH) && bool_decide (d = SLASH) then skip_slashes rest else inp
  | _ => inp
  end.

(** The main loop: what is left of [dir], [out] and the array. Each turn reads a
    character of [dir], or its end. *)
Fixpoint strip_loop (fuel : nat) (inp buf : list ascii) (out last ldots : Z) : outcome (list ascii * list ascii * Z) :=
  match fuel with
  | O => Crash
  | S fuel =>
    if last <=? out then Val (inp, buf, out) else
    let c := default NUL (head inp) in
    buf ← buf_set buf out c;
    let inp := skip_slashes inp in
    '(buf, out, ldots) ← (
      if bool_decide (c = SLASH) || bool_decide (c = NUL) then
        if (ldots =? 1) || (ldots =? 2) then
          ldots ← (if bool_decide (c = NUL) then
                     if outle (out - ldots) then Val 0 else
                     x ← mem_get buf (out - ldots - 1); Val (if bool_decide (x = SLASH) then ldots else 0)
                   else Val ldots);
          out ← back_dots (S (length buf)) buf out ldots;
          buf ← buf_set buf (out + 1) NUL;
          Val (buf, out, 0)
        else Val (buf, out, 0)
      else Val (buf, out, if bool_decide (c = ".")%char then ldots + 1 else 0));
    match inp with
    | [] => Val ([], buf, out + 1)
    | _ :: inp => strip_loop fuel inp buf (out + 1) last ldots
    end
  end.

(** [while (--out != buf && ...)]: slashes and zeros at the end are cleared. *)
Fixpoint strip_end (fuel : nat) (buf : list ascii) (out : Z) : outcome (list ascii) :=
  match fuel with
  | O => Crash
  | S fuel =>
    let out := out - 1 in
    if out =? 0 then Val buf else
    c ← mem_get buf out;
    if bool_decide (c = SLASH) || bool_decide (c = NUL) then buf ← buf_set buf out NUL; strip_end fuel buf out else Val buf
  end.

(** Whether it returns [buf], and the array afterwards. *)
Definition stripdir (dir buf : list ascii) (maxlen : Z) : outcome (bool * list ascii) :=
  buf ← buf_set buf 0 NUL;
  start ← (if starts_with [SLASH] dir then Val (Some (buf, 0)) else
           match getcwd with
           | None => Val None
           | Some d =>
             if (Z.of_nat (length d) <? maxlen - 2) && negb (length d =? 0)%nat then
               buf ← mem_write buf 0 (d ++ [NUL]);
               let out := Z.of_nat (length d) - 1 in
               if ends_with_slash d then Val (Some (buf, out + 1))
               else buf ← buf_set buf (out + 1) SLASH; Val (Some (buf, out + 2))
             else Val None
           end);
  match start with
  | None => Val (false, buf)
  | Some (buf, out) =>
    '(inp, buf, out) ← strip_loop (S (S (length dir))) dir buf out maxlen 0;
    match inp with
    | _ :: _ => Val (false, buf)
    | [] => buf ← strip_end (S (length buf)) buf out; Val (true, buf)
    end
  end.
End stripdir.

(** ** Changing the directory *)

(** [mainConfig->server_opts & CFG_OPT_HIDE_DOTTED_FILES] is an argument. *)
Definition is_hidden_file (hide_dotted : bool) (filename : list ascii) : bool :=
  let base := match strrchr_slash filename with Some (_, base) => base | None => filename end in
  strcaseeq base HARD_PERMFILE || (starts_with (str ".") base && hide_dotted).

(** [REMOVE_TRAILING_SLASH] *)
Definition remove_trailing_slash (s : list ascii) : list ascii :=
  if (1 <? length s)%nat && ends_with_slash s then take (length s - 1) s else s.

Definition set_conn (c : client) (cn : connection) : client :=
  mkClient (c_magic c) (c_userid c) (c_ul_maxspeed c) (c_dl_maxspeed c) (c_pid c) (c_exit c) cn.

Definition upd_conn (f : connection → connection) : M unit := λ s,
  c ← deref (w_contexts (ss_world s) !! ss_ctx s);
  Val (tt, set_world s (with_contexts (ss_world s) (<[ss_ctx s := set_conn c (f (c_conn c))]> (w_contexts (ss_world s))))).

Definition set_path (cn : connection) (p : list ascii) : connection :=
  mkConn (cn_family cn) (cn_hostip cn) (cn_ident cn) (cn_idnt_address cn) (cn_state cn) (cn_socket cn) (cn_tls_data_mode cn) (cn_flags cn) p.

Section chdir.
  Context (b : option wzd_backend_t) (umask : Z) (fs_file_lstat fs_file_stat : list ascii → option fkind)
          (disk : permdisk) (vfs : list wzd_vfs_t) (hide_dotted : bool).
  (** For [stripdir]; [junk] is what the arrays of [WZD_MAX_PATH] bytes hold at
      first. *)
  Context (outle : Z → bool) (getcwd : option (list ascii)) (junk : list ascii).

(** The path of the client in the array [stripdir] works on. *)
Definition new_path (currentpath wanted : list ascii) : outcome (list ascii) :=
  if starts_with [SLASH] wanted then if (length wanted <? MAXPATH)%nat then Val wanted else Crash
  else
    let cur := if ends_with_slash currentpath then currentpath else take (MAXPATH - 1) (currentpath ++ [SLASH]) in
    Val (take (MAXPATH - 1) (cur ++ wanted)).

(** [wzd_strncpy(context->currentpath,...,WZD_MAX_PATH-1)] *)
Definition show_path (buf : list ascii) : M unit :=
  s ← lift (buf_str buf); upd_conn (λ cn, set_path cn (take (MAXPATH - 1) s)).

Definition do_chdir (wanted_path : option (list ascii)) : M wzd_errno_t :=
  c ← my_context;
  p ← getUserByID b (c_userid c);
  a ← lift (deref p);
  user ← user_at a;
  if Z.land (userperms user) RIGHT_CWD =? 0 then mret E_NOPERM else
  match wanted_path with
  | None => mret E_WRONGPATH
  | Some wanted =>
    r ← ask (λ w, checkpath_new b umask fs_file_lstat disk w vfs (Some wanted) (Some user) (cn_path (c_conn c)));
    if negb (bool_decide (r.1 = E_OK)) then mret r.1 else
    path ← lift (deref r.2);
    if is_hidden_file hide_dotted path then mret E_FILE_FORBIDDEN else
    match fs_file_stat (remove_trailing_slash path) with
    | None => mret E_FILE_NOEXIST
    | Some FK_DIR =>
      buffer ← lift (new_path (cn_path (c_conn c)) wanted);
      r ← lift (stripdir outle getcwd buffer junk (Z.of_nat MAXPATH - 1));
      show_path r.2;;
      c ← my_context;
      r ← lift (stripdir outle getcwd (cn_path (c_conn c)) junk (Z.of_nat MAXPATH));
      (if (r.1 : bool) then show_path r.2 else mret tt);;
      mret E_OK
    | Some _ => mret E_NOTDIR
    end
  end.

(** A reply with two arguments, shown one after the other. *)
Definition reply2 (code : Z) (a b : list ascii) : M unit := emit (Reply code (a ++ str ": " ++ b)).

(** [context->resume] is not part of the state. The test on a drive letter reads
    the third character of a path of at most three. *)
Definition do_cwd (name : list ascii) (arg : option (list ascii)) : M unit :=
  let param := if streq name (str "cdup") then str ".." else default [SLASH] arg in
  c ← my_context;
  let cur := cn_path (c_conn c) in
  if streq (str "..") param && (streq [SLASH] cur || ((length cur <=? 3)%nat && bool_decide (cur !! 2%nat = Some ":"%char)))
  then reply2 250 cur (str " now current directory.")
  else
    ret ← do_chdir (Some param);
    match ret with
    | E_OK => c ← my_context; reply2 250 (cn_path (c_conn c)) (str " now current directory.")
    | E_NOTDIR => reply2 501 param (str "Not a directory")
    | E_WRONGPATH => reply2 550 param (str "Invalid path")
    | E_FILE_NOEXIST => reply2 550 param (str "No such file or directory (no access?)")
    | E_FILE_FORBIDDEN | E_NOPERM => reply2 550 param (str "Negative on that, Houston (access denied)")
    | _ => reply2 501 param (str "CWD failed (syntax error?)")
    end.
End chdir.

(** ** What [stripdir] computes *)

(** The dots at the end of a name. *)
Definition trailing_dots (c : list ascii) : nat := length c - length (skip_while (λ x, bool_decide (x = "."%char)) (reverse c)).

(** Names are treated as dot or dot-dot by the dots they end in, save the last
    of the path, which must be dots only, and only when [k] holds. *)
Fixpoint strip_comps (k : bool) (acc cs : list (list ascii)) : list (list ascii) :=
  match cs with
  | [] => acc
  | c :: cs' =>
    if bool_decide (c = []) then strip_comps k acc cs' else
    let dots := match cs' with
                | [] => if k && (bool_decide (c = ["."%char]) || bool_decide (c = ["."%char; "."%char])) then length c else 0%nat
                | _ => trailing_dots c
                end in
    strip_comps k (match dots with 1%nat => acc | 2%nat => tail acc | _ => c :: acc end) cs'
  end.

Definition show (acc : list (list ascii)) : list ascii := match acc with [] => [SLASH] | _ => render acc end.

Lemma mem_get_middle a x tl : mem_get (a ++ x :: tl) (Z.of_nat (length a)) = Val x.
Proof. unfold mem_get. rewrite (proj2 (Z.leb_le _ _)) by lia. rewrite Nat2Z.id, list_lookup_middle by done. done. Qed.

Lemma back_one fuel r cur tl n :
  SLASH ∉ cur → 0 < n → (length cur < fuel)%nat →
  back_dots fuel (r ++ SLASH :: cur ++ tl) (Z.of_nat (length r + 1 + length cur)) n =
  match r with
  | [] => Val 0
  | _ => back_dots (fuel - S (length cur)) (r ++ SLASH :: cur ++ tl) (Z.of_nat (length r)) (n - 1)
  end.
Proof.
  intros Hc Hn. revert fuel tl. induction cur as [|x cur IH] using rev_ind; intros [|fuel] tl Hf; [cbn [length] in *; lia| | |].
  - cbn [back_dots length app]. rewrite (proj2 (Z.leb_gt _ _)) by lia.
    replace (Z.of_nat (length r + 1 + 0) - 1) with (Z.of_nat (length r)) by lia.
    destruct r as [|y r]; [done|]. rewrite (proj2 (Z.leb_gt _ _)) by (cbn [length]; lia).
    rewrite mem_get_middle. run. rewrite bool_decide_eq_true_2 by done. by rewrite Nat.sub_1_r.
  - rewrite length_app in Hf. cbn [length] in Hf. lia.
  - rewrite length_app in *. cbn [length] in *. cbn [back_dots]. rewrite (proj2 (Z.leb_gt _ _)) by lia.
    replace (Z.of_nat (length r + 1 + (length cur + 1)) - 1) with (Z.of_nat (length r + 1 + length cur)) by lia.
    rewrite (proj2 (Z.leb_gt _ _)) by lia. rewrite <- (app_assoc cur [x] tl). cbn [app].
    replace (mem_get _ _) with (Val x). 2: { symmetry. rewrite (app_comm_cons cur _ SLASH), app_assoc.
      replace (length r + 1 + length cur)%nat with (length (r ++ SLASH :: cur)) by (rewrite length_app; cbn [length]; lia).
      apply mem_get_middle. }
    run. rewrite bool_decide_eq_false_2 by set_solver. rewrite IH by (set_solver || lia).
    destruct r; [done|]. f_equal; lia.
Qed.

(** Going back over one or two names. *)
Lemma back_names fuel acc cur tl n :
  Forall comp_ok acc → SLASH ∉ cur → (length (render acc) + length cur + 1 < fuel)%nat → (n = 1 ∨ n = 2) →
  back_dots fuel (render acc ++ SLASH :: cur ++ tl) (Z.of_nat (length (render acc) + 1 + length cur)) n =
  Val (Z.of_nat (length (render (if n =? 1 then acc else tail acc)))).
Proof.
  intros Ha Hc Hf Hn. rewrite back_one by (done || lia).
  destruct acc as [|a acc]; [by destruct Hn as [-> | ->]|]. apply Forall_cons in Ha as [[Has _] _].
  destruct (render (a :: acc)) as [|x r] eqn:E; [rewrite render_cons in E; by destruct (render acc)|]. rewrite <- E in *. clear E x r.
  assert (∃ f, (fuel - S (length cur) = S f)%nat ∧ (length (render (a :: acc)) < S f)%nat) as (f & -> & Hf2)
    by (exists (fuel - S (length cur) - 1)%nat; lia).
  destruct Hn as [-> | ->]; [done|]. change (2 - 1) with 1. change (2 =? 1) with false. cbn [tail].
  rewrite render_cons in *. rewrite length_app in *. cbn [length] in *. rewrite <- app_assoc. cbn [app].
  replace (length (render acc) + S (length a))%nat with (length (render acc) + 1 + length a)%nat by lia.
  rewrite back_one by (done || lia). destruct (render acc) as [|x r]; [done|].
  destruct (S f - S (length a))%nat eqn:E; [cbn [length] in *; lia|]. done.
Qed.

Lemma trailing_dots_snoc cur x :
  trailing_dots (cur ++ [x]) = if bool_decide (x = "."%char) then S (trailing_dots cur) else 0%nat.
Proof.
  unfold trailing_dots. rewrite reverse_snoc, length_app. cbn [length skip_while].
  assert (Hle : (length (skip_while (λ x, bool_decide (x = "."%char)) (reverse cur)) ≤ length cur)%nat).
  { rewrite <- (length_reverse cur). generalize (reverse cur). induction l as [|y l IH]; simpl; [lia|]. case_bool_decide; simpl; lia. }
  case_bool_decide; [lia|]. cbn [length]. rewrite length_reverse. lia.
Qed.

Lemma trailing_dots_split cur : ∃ pre, cur = pre ++ replicate (trailing_dots cur) "."%char ∧ last pre ≠ Some "."%char.
Proof.
  induction cur as [|x cur (pre & Hp & Hl)] using rev_ind; [by exists []|]. rewrite trailing_dots_snoc. case_bool_decide as Hx.
  - exists pre. split; [|done]. rewrite replicate_S_end, app_assoc, <- Hp. by subst.
  - exists (cur ++ [x]). rewrite app_nil_r, last_snoc. split; [done|congruence].
Qed.

Lemma skip_slashes_spec s :
  ∃ r, skip_slashes (SLASH :: s) = SLASH :: r ∧ head r ≠ Some SLASH ∧ (length r ≤ length s)%nat ∧ (nul_free s → nul_free r) ∧
    ∀ k acc, strip_comps k acc (components [] s) = strip_comps k acc (components [] r).
Proof.
  induction s as [|x s (r & Hr & Hh & Hl & Hn & Hk)]; [by exists []|].
  cbn [skip_slashes]. rewrite (bool_decide_eq_true_2 (SLASH = SLASH)) by done. cbn [andb]. case_bool_decide as Hx.
  - subst x. exists r. split_and!; [done..|cbn [length]; lia| |].
    + intros H. apply Hn. unfold nul_free in *. set_solver.
    + intros k acc. rewrite <- Hk. cbn [components]. by rewrite bool_decide_eq_true_2 by done.
  - exists (x :: s). split_and!; [done| |done..]. simpl. congruence.
Qed.

Section strip.
  Context (outle : Z → bool).

(** The array at a place the loop goes back to. *)
Lemma render_prefix acc acc' cur tl :
  acc' = acc ∨ acc' = tail acc → ∃ rest, render acc ++ SLASH :: cur ++ tl = render acc' ++ SLASH :: rest ∧
    (length (cur ++ tl) ≤ length rest)%nat.
Proof.
  intros [-> | ->]; [by exists (cur ++ tl)|]. destruct acc as [|a acc]; [by exists (cur ++ tl)|].
  cbn [tail]. exists (a ++ SLASH :: cur ++ tl). rewrite render_cons, <- app_assoc. cbn [app]. split; [done|].
  rewrite (length_app a). cbn [length]. lia.
Qed.

Lemma set_after r x rest : (0 < length rest)%nat →
  ∃ rest', buf_set (r ++ x :: rest) (Z.of_nat (length r) + 1) NUL = Val (r ++ x :: NUL :: rest') ∧ S (length rest') = length rest.
Proof.
  intros H. destruct rest as [|y rest]; [cbn [length] in H; lia|]. exists rest. split; [|done].
  change (r ++ x :: y :: rest) with (r ++ [x] ++ y :: rest). rewrite (app_assoc r).
  replace (Z.of_nat (length r) + 1) with (Z.of_nat (length (r ++ [x]))) by (rewrite length_app; cbn [length]; lia).
  rewrite buf_set_app. by rewrite <- app_assoc.
Qed.

(** Going back over one or two names and ending the string there. *)
Lemma go_back acc cur x tl d :
  Forall comp_ok acc → SLASH ∉ cur → d = 1 ∨ d = 2 →
  let acc' := if d =? 1 then acc else tail acc in
  let a := render acc ++ SLASH :: cur in
  let buf := a ++ x :: tl in
  ∃ rest, (out ← back_dots (S (length buf)) buf (Z.of_nat (length a)) d; buf ← buf_set buf (out + 1) NUL; Val (buf, out, 0))
      = Val (render acc' ++ SLASH :: NUL :: rest, Z.of_nat (length (render acc')), 0) ∧
    length (render acc' ++ SLASH :: NUL :: rest) = length buf.
Proof.
  intros Ha Hc Hd acc' a buf.
  assert (Hla : (length (render acc) + 1 + length cur)%nat = length a) by (unfold a; rewrite length_app; cbn [length]; lia).
  assert (Hbuf : buf = render acc ++ SLASH :: cur ++ x :: tl) by (unfold buf, a; by rewrite <- app_assoc).
  assert (Hback : back_dots (S (length buf)) buf (Z.of_nat (length a)) d = Val (Z.of_nat (length (render acc')))).
  { rewrite Hbuf at 2. rewrite <- Hla. apply back_names; [done..| |done]. unfold buf. rewrite length_app, <- Hla. lia. }
  rewrite Hback. run. destruct (render_prefix acc acc' cur (x :: tl)) as (rest & Hrest & Hrl).
  { unfold acc'. destruct (d =? 1); [by left|by right]. }
  rewrite Hbuf, Hrest. destruct (set_after (render acc') SLASH rest) as (rest' & -> & Hl').
  { rewrite length_app in Hrl. cbn [length] in Hrl. lia. }
  run. exists rest'. split; [done|]. rewrite !length_app. cbn [length]. lia.
Qed.

(** What the loop leaves: the path, its end and where [out] is. *)
Definition stripped (n : nat) (acc : list (list ascii)) (m : outcome (list ascii * list ascii * Z)) : Prop :=
  ∃ t tl out, m = Val ([], t ++ NUL :: tl, out) ∧ length (t ++ NUL :: tl) = n ∧
    (out = Z.of_nat (length t) ∨ out = Z.of_nat (length t) + 1) ∧
    (t = render acc ∧ acc ≠ [] ∨ t = render acc ++ [SLASH]).

Lemma strip_last fuel acc cur tl last :
  Forall comp_ok acc → comp_ok cur → (length (render acc) + length cur + 1 < Z.to_nat last)%nat → (1 < length tl)%nat →
  ∃ k, ((∀ z, outle z = false) → k = true) ∧
    stripped (length (render acc ++ SLASH :: cur ++ tl)) (strip_comps k acc [cur])
      (strip_loop outle (S fuel) [] (render acc ++ SLASH :: cur ++ tl) (Z.of_nat (length (render acc) + 1 + length cur)) last
         (Z.of_nat (trailing_dots cur))).
Proof.
  intros Ha [Hcs Hcn] Hlast Htl. cbn [strip_loop]. rewrite (proj2 (Z.leb_gt _ _)) by lia. cbn [head default skip_slashes].
  set (a := render acc ++ SLASH :: cur).
  replace (render acc ++ SLASH :: cur ++ tl) with (a ++ tl) by (unfold a; by rewrite <- app_assoc).
  assert (Hla : (length (render acc) + 1 + length cur)%nat = length a) by (unfold a; rewrite length_app; cbn [length]; lia).
  rewrite Hla. destruct tl as [|y tl]; [cbn [length] in Htl; lia|]. rewrite buf_set_app. run.
  rewrite (bool_decide_eq_true_2 (NUL = NUL)) by done. rewrite orb_true_r.
  assert (Hdone : stripped (length (a ++ y :: tl)) (if bool_decide (cur = []) then acc else cur :: acc)
                    (Val ([], a ++ NUL :: tl, Z.of_nat (length a) + 1))).
  { exists a, tl, (Z.of_nat (length a) + 1). split_and!; [done|by rewrite !length_app|by right|]. unfold a. case_bool_decide as Hc.
    - right. by subst.
    - left. by rewrite render_cons. }
  destruct ((_ =? 1) || (_ =? 2)) eqn:Hd.
  2: { exists true. split; [done|]. cbn [strip_comps]. run. replace (_ : list (list ascii)) with (if bool_decide (cur = []) then acc else cur :: acc); [done|].
    case_bool_decide; [done|]. repeat case_bool_decide; subst; [vm_compute in Hd; done..|done]. }
  assert (Hne : cur ≠ []) by (intros ->; vm_compute in Hd; done).
  rewrite bool_decide_eq_false_2 in Hdone by done.
  assert (Hkeep : ∃ b', buf_set (a ++ NUL :: tl) (Z.of_nat (length a) + 1) NUL = Val b' ∧
      stripped (length (a ++ y :: tl)) (cur :: acc) (Val ([], b', Z.of_nat (length a) + 1))).
  { destruct (set_after a NUL tl) as (rest & -> & Hr); [cbn [length] in Htl; lia|]. eexists. split; [done|].
    exists a, (NUL :: rest), (Z.of_nat (length a) + 1). split_and!; [done|rewrite !length_app; cbn [length]; lia|by right|left].
    unfold a. by rewrite render_cons. }
  destruct Hkeep as (b' & Hset & Hkeep).
  assert (Hb0 : back_dots (S (length (a ++ NUL :: tl))) (a ++ NUL :: tl) (Z.of_nat (length a)) 0 = Val (Z.of_nat (length a))) by done.
  destruct (outle _) eqn:Hout.
  { exists false. split; [intros H; by rewrite H in Hout|]. run. rewrite Hb0. run. rewrite Hset. run.
    cbn [strip_comps andb]. by rewrite bool_decide_eq_false_2 by done. }
  exists true. split; [done|]. cbn [strip_comps andb]. rewrite bool_decide_eq_false_2 by done.
  destruct (trailing_dots_split cur) as (pre & Hpre & Hlp). destruct pre as [|x pre _] using rev_ind.
  - (* only dots *)
    assert (Hdots : trailing_dots cur = 1%nat ∧ cur = ["."%char] ∨ trailing_dots cur = 2%nat ∧ cur = ["."%char; "."%char]).
    { apply orb_true_iff in Hd as [Hd%Z.eqb_eq|Hd%Z.eqb_eq]; [left|right];
        rewrite Hpre at 2; (split; [lia|]); [replace (trailing_dots cur) with 1%nat by lia|replace (trailing_dots cur) with 2%nat by lia]; done. }
    set (d := trailing_dots cur) in *. assert (Hdl : d = length cur) by (by destruct Hdots as [[-> ->]|[-> ->]]).
    assert (Hget : mem_get (a ++ NUL :: tl) (Z.of_nat (length a) - Z.of_nat d - 1) = Val SLASH).
    { replace (Z.of_nat (length a) - Z.of_nat d - 1) with (Z.of_nat (length (render acc))) by (unfold a; rewrite length_app; cbn [length]; lia).
      unfold a. rewrite <- app_assoc. cbn [app]. apply mem_get_middle. }
    rewrite Hget. run. rewrite (bool_decide_eq_true_2 (SLASH = SLASH)) by done.
    destruct (go_back acc cur NUL tl (Z.of_nat d)) as (rest & Hgo & Hl); [done..|lia|]. fold a in Hgo, Hl. rewrite Hgo. run.
    set (acc' := if Z.of_nat d =? 1 then acc else tail acc) in *.
    assert (Hacc : match (if bool_decide (cur = ["."%char]) || bool_decide (cur = ["."%char; "."%char]) then length cur else 0%nat) with
                        | 1%nat => acc | 2%nat => tail acc | _ => cur :: acc end = acc').
    { unfold acc'. destruct Hdots as [[-> ->]|[-> ->]]; done. }
    rewrite Hacc. exists (render acc' ++ [SLASH]), rest, (Z.of_nat (length (render acc')) + 1).
    rewrite !length_app in *. cbn [length] in *. split_and!; [by rewrite <- app_assoc|lia|left; lia|by right].
  - (* other characters before the dots *)
    assert (Hx : x ≠ SLASH ∧ x ≠ "."%char).
    { rewrite last_snoc in Hlp. split; [rewrite Hpre in Hcs; set_solver|congruence]. }
    assert (Hget : mem_get (a ++ NUL :: tl) (Z.of_nat (length a) - Z.of_nat (trailing_dots cur) - 1) = Val x).
    { assert (Hlc : length cur = (length pre + 1 + trailing_dots cur)%nat)
        by (rewrite Hpre at 1; rewrite !length_app, length_replicate; done).
      replace (Z.of_nat (length a) - Z.of_nat (trailing_dots cur) - 1) with (Z.of_nat (length (render acc ++ SLASH :: pre)))
        by (unfold a; rewrite !length_app; cbn [length]; lia).
      unfold a. rewrite Hpre, <- !app_assoc. cbn [app]. rewrite <- !app_assoc, (app_comm_cons pre), (app_assoc (render acc)). apply mem_get_middle. }
    rewrite Hget. run. rewrite (bool_decide_eq_false_2 (x = SLASH)) by tauto. run. rewrite Hb0. run. rewrite Hset. run.
    assert (Hin : x ∈ cur) by (rewrite Hpre; set_solver).
    rewrite !bool_decide_eq_false_2 by (intros Hcur; rewrite Hcur in Hin; set_solver). done.
Qed.

(** A name that ends at a slash. *)
Lemma strip_slash acc cur tl :
  Forall comp_ok acc → comp_ok cur → cur ≠ [] → (1 < length tl)%nat →
  let acc' := match trailing_dots cur with 1%nat => acc | 2%nat => tail acc | _ => cur :: acc end in
  let ldots := Z.of_nat (trailing_dots cur) in
  let buf := render acc ++ SLASH :: cur ++ tl in
  ∃ buf1 buf2 rest, buf_set buf (Z.of_nat (length (render acc) + 1 + length cur)) SLASH = Val buf1 ∧
    (if (ldots =? 1) || (ldots =? 2) then
       out ← back_dots (S (length buf1)) buf1 (Z.of_nat (length (render acc) + 1 + length cur)) ldots;
       buf ← buf_set buf1 (out + 1) NUL; Val (buf, out, 0)
     else Val (buf1, Z.of_nat (length (render acc) + 1 + length cur), 0))
    = Val (buf2, Z.of_nat (length (render acc')), 0) ∧
    buf2 = render acc' ++ SLASH :: rest ∧ length buf2 = length buf ∧ (length buf1 = length buf).
Proof.
  intros Ha [Hcs Hcn] Hne Htl acc' ldots buf. destruct tl as [|y tl]; [cbn [length] in Htl; lia|].
  set (a := render acc ++ SLASH :: cur).
  assert (Hla : (length (render acc) + 1 + length cur)%nat = length a) by (unfold a; rewrite length_app; cbn [length]; lia).
  assert (Hbuf : buf = a ++ y :: tl) by (unfold buf, a; by rewrite <- app_assoc).
  exists (a ++ SLASH :: tl). rewrite Hbuf, Hla, buf_set_app.
  assert (Hacc : (ldots = 1 ∧ acc' = acc) ∨ (ldots = 2 ∧ acc' = tail acc) ∨ ((ldots =? 1) || (ldots =? 2) = false ∧ acc' = cur :: acc)).
  { unfold acc', ldots. destruct (trailing_dots cur) as [|[|[|n]]]; [by right; right|by left|by right; left|right; right].
    split; [|done]. apply orb_false_iff. split; apply Z.eqb_neq; lia. }
  destruct (decide (ldots = 1 ∨ ldots = 2)) as [Hd|Hd].
  - assert (Hacc2 : (if ldots =? 1 then acc else tail acc) = acc').
    { destruct Hd as [Hd|Hd]; rewrite Hd in *; simpl in Hacc; naive_solver. }
    replace ((ldots =? 1) || (ldots =? 2)) with true by lia.
    destruct (go_back acc cur SLASH tl ldots) as (rest & Hgo & Hl); [done..|]. fold a in Hgo, Hl. rewrite Hacc2 in Hgo, Hl.
    rewrite Hgo. eexists _, _. split_and!; [done..|rewrite Hl|]; by rewrite !length_app.
  - assert (Hacc2 : acc' = cur :: acc ∧ (ldots =? 1) || (ldots =? 2) = false) by (destruct Hacc as [[??]|[[??]|[??]]]; tauto).
    destruct Hacc2 as [-> ->]. exists (a ++ SLASH :: tl), tl.
    split_and!; [done|unfold a; rewrite render_cons; done|unfold a; rewrite render_cons; by rewrite <- app_assoc|by rewrite !length_app..].
Qed.

Lemma strip_loop_spec n : ∀ inp fuel acc cur tl last,
  (length inp ≤ n)%nat → (length inp < fuel)%nat → Forall comp_ok acc → comp_ok cur → nul_free inp →
  (cur = [] → head inp ≠ Some SLASH) →
  (length (render acc) + length cur + length inp + 1 < Z.to_nat last)%nat → (length inp + 1 < length tl)%nat →
  ∃ k, ((∀ z, outle z = false) → k = true) ∧
    stripped (length (render acc ++ SLASH :: cur ++ tl)) (strip_comps k acc (components cur inp))
      (strip_loop outle fuel inp (render acc ++ SLASH :: cur ++ tl) (Z.of_nat (length (render acc) + 1 + length cur)) last
         (Z.of_nat (trailing_dots cur))).
Proof.
  induction n as [|n IH]; intros inp [|fuel] acc cur tl last Hn Hf Ha Hc Hnf Hh Hlast Htl;
    [lia|destruct inp; [|cbn [length] in Hn; lia]; apply strip_last; cbn [length] in *; by try lia|lia|].
  destruct inp as [|x inp]; [apply strip_last; cbn [length] in *; by try lia|].
  cbn [length] in *. cbn [strip_loop]. rewrite (proj2 (Z.leb_gt _ _)) by lia. cbn [head from_option id].
  assert (Hx0 : x ≠ NUL) by (unfold nul_free in Hnf; set_solver).
  destruct (decide (x = SLASH)) as [->|Hx].
  - destruct (skip_slashes_spec inp) as (r & Hr & Hhr & Hlr & Hnr & Hk).
    destruct (strip_slash acc cur tl) as (b1 & b2 & rest & H1 & H2 & H3 & Hl2 & Hl1); [done..|naive_solver|lia|].
    rewrite H1. run. rewrite Hr. rewrite (bool_decide_eq_true_2 (SLASH = SLASH)), (bool_decide_eq_false_2 (SLASH = NUL)) by done.
    cbn [orb]. run.
    set (acc' := match trailing_dots cur with 1%nat => acc | 2%nat => tail acc | _ => cur :: acc end) in *.
    assert (Ha' : Forall comp_ok acc').
    { unfold acc'. destruct (trailing_dots cur) as [|[|[|?]]]; [by constructor|done|by destruct Ha|by constructor]. }
    rewrite H2. run. subst b2.
    assert (Hle : (length (render acc') ≤ length (render acc) + 1 + length cur)%nat).
    { assert (Ht : (length (render (tail acc)) ≤ length (render acc))%nat).
      { destruct acc as [|a acc0]; [done|]. cbn [tail]. rewrite render_cons, length_app. lia. }
      unfold acc'. destruct (trailing_dots cur) as [|[|[|?]]]; rewrite ?render_cons, ?length_app; cbn [length]; lia. }
    destruct (IH r fuel acc' [] rest last) as (k & Hk1 & Hs); try done; [lia..|split; set_solver|apply Hnr; unfold nul_free in *; set_solver| | |].
    { cbn [length]. lia. }
    { rewrite !length_app in Hl2. cbn [length] in Hl2. rewrite length_app in Hl2. lia. }
    exists k. split; [done|]. rewrite <- Hl2. cbn [components]. rewrite bool_decide_eq_true_2 by done.
    cbn [app length] in Hs. replace (Z.of_nat (length (render acc')) + 1) with (Z.of_nat (length (render acc') + 1 + 0)) by lia.
    replace (strip_comps k acc (cur :: components [] inp)) with (strip_comps k acc' (components [] r)); [exact Hs|].
    cbn [strip_comps]. rewrite bool_decide_eq_false_2 by naive_solver. fold acc'. rewrite <- Hk.
    pose proof (components_ne [] inp) as Hcne. destruct (components [] inp); done.
  - replace (skip_slashes (x :: inp)) with (x :: inp).
    2: { symmetry. cbn [skip_slashes]. destruct inp; [done|]. by rewrite bool_decide_eq_false_2 by done. }
    rewrite (bool_decide_eq_false_2 (x = SLASH)), (bool_decide_eq_false_2 (x = NUL)) by done. cbn [orb].
    destruct tl as [|y tl]; [cbn [length] in Htl; lia|].
    assert (Hset : buf_set (render acc ++ SLASH :: cur ++ y :: tl) (Z.of_nat (length (render acc) + 1 + length cur)) x
                   = Val (render acc ++ SLASH :: (cur ++ [x]) ++ tl)).
    { replace (length (render acc) + 1 + length cur)%nat with (length (render acc ++ SLASH :: cur)) by (rewrite length_app; cbn [length]; lia).
      rewrite (app_comm_cons cur), (app_assoc (render acc)), buf_set_app. by rewrite <- !app_assoc. }
    rewrite Hset. run.
    destruct (IH inp fuel acc (cur ++ [x]) tl last) as (k & Hk1 & Hs); try done; [lia|lia| | | | | |].
    { destruct Hc. split; set_solver. }
    { unfold nul_free in *; set_solver. }
    { by destruct cur. }
    { rewrite length_app. cbn [length]. lia. }
    { cbn [length] in Htl. lia. }
    exists k. split; [done|]. cbn [components]. rewrite bool_decide_eq_false_2 by done.
    rewrite trailing_dots_snoc in Hs.
    replace (if bool_decide (x = "."%char) then Z.of_nat (trailing_dots cur) + 1 else 0)
      with (Z.of_nat (if bool_decide (x = "."%char) then S (trailing_dots cur) else 0%nat)) by (case_bool_decide; lia).
    replace (Z.of_nat (length (render acc) + 1 + length cur) + 1) with (Z.of_nat (length (render acc) + 1 + length (cur ++ [x])))
      by (rewrite length_app; cbn [length]; lia).
    replace (length (render acc ++ SLASH :: cur ++ y :: tl)) with (length (render acc ++ SLASH :: (cur ++ [x]) ++ tl)); [exact Hs|].
    rewrite !length_app. cbn [length]. rewrite !length_app. cbn [length]. lia.
Qed.

(** A name as they are kept. *)
Definition proper_name (c : list ascii) : Prop := comp_ok c ∧ c ≠ [].

Lemma strip_comps_named k acc cs : Forall comp_ok cs → Forall proper_name acc → Forall proper_name (strip_comps k acc cs).
Proof.
  intros Hcs. revert acc. induction Hcs as [|c cs Hc Hcs IH]; intros acc Ha; [done|]. cbn [strip_comps].
  case_bool_decide; [by apply IH|]. apply IH.
  destruct (match cs with [] => _ | _ => _ end) as [|[|[|?]]]; [by constructor|done|by destruct Ha|by constructor].
Qed.

(** The last character of a path that is not empty. *)
Lemma render_last acc : Forall proper_name acc → acc ≠ [] →
  ∃ t x, render acc = t ++ [x] ∧ t ≠ [] ∧ x ≠ SLASH ∧ x ≠ NUL.
Proof.
  intros Ha Hne. destruct Ha as [|c acc [[Hs Hn] Hc] _]; [done|]. rewrite render_cons.
  destruct (exists_last Hc) as (c' & x & ->). exists (render acc ++ SLASH :: c'), x.
  split_and!; [by rewrite <- app_assoc|by destruct (render acc)|set_solver..].
Qed.

Lemma strip_end_stop fuel acc tl : Forall proper_name acc → acc ≠ [] →
  strip_end (S fuel) (render acc ++ tl) (Z.of_nat (length (render acc))) = Val (render acc ++ tl).
Proof.
  intros Ha Hne. destruct (render_last acc Ha Hne) as (t & x & -> & Ht & Hx1 & Hx2). cbn [strip_end].
  rewrite length_app. cbn [length]. replace (Z.of_nat (length t + 1) - 1) with (Z.of_nat (length t)) by lia.
  destruct t as [|y t]; [done|]. rewrite (proj2 (Z.eqb_neq _ _)) by (cbn [length]; lia).
  rewrite <- app_assoc. change ([x] ++ tl) with (x :: tl). rewrite mem_get_middle. run. by rewrite !bool_decide_eq_false_2 by done.
Qed.

(** A slash or a NUL before [out] is cleared. *)
Lemma strip_end_clear fuel t x tl : t ≠ [] → x = SLASH ∨ x = NUL →
  strip_end (S fuel) (t ++ x :: tl) (Z.of_nat (length t) + 1) = strip_end fuel (t ++ NUL :: tl) (Z.of_nat (length t)).
Proof.
  intros Ht Hx. cbn [strip_end]. replace (Z.of_nat (length t) + 1 - 1) with (Z.of_nat (length t)) by lia.
  destruct t as [|y t]; [done|]. rewrite (proj2 (Z.eqb_neq _ _)) by (cbn [length]; lia). rewrite mem_get_middle. run.
  replace (bool_decide (x = SLASH) || bool_decide (x = NUL)) with true by (symmetry; apply orb_true_iff; rewrite !bool_decide_eq_true; done).
  rewrite buf_set_app. done.
Qed.

Lemma strip_end_out acc tl fuel : Forall proper_name acc → (1 < fuel)%nat →
  ∃ rest, strip_end fuel (render acc ++ SLASH :: NUL :: tl) (Z.of_nat (length (render acc)) + 1) = Val (show acc ++ NUL :: rest) ∧
    length (show acc ++ NUL :: rest) = length (render acc ++ SLASH :: NUL :: tl).
Proof.
  intros Ha Hf. destruct fuel as [|[|fuel]]; [lia..|]. destruct acc as [|c acc]; [by exists tl|].
  rewrite strip_end_clear; [|rewrite render_cons; by destruct (render acc)|by left].
  rewrite strip_end_stop by done. exists (NUL :: tl). split; [done|]. cbn [show]. by rewrite !length_app.
Qed.

Lemma strip_end_spec n acc m : (2 < n)%nat → Forall proper_name acc → stripped n acc m →
  ∃ buf out rest, m = Val ([], buf, out) ∧ length buf = n ∧
    strip_end (S (length buf)) buf out = Val (show acc ++ NUL :: rest) ∧ length (show acc ++ NUL :: rest) = n.
Proof.
  intros Hn Ha (t & tl & out & -> & Hlen & Hout & Ht). exists (t ++ NUL :: tl), out. rewrite Hlen.
  assert (Hb : ∀ f, (1 < f)%nat → ∃ rest, strip_end f (t ++ NUL :: tl) (Z.of_nat (length t)) = Val (show acc ++ NUL :: rest) ∧
              length (show acc ++ NUL :: rest) = n).
  { intros f Hf. destruct Ht as [[-> Hne] | ->].
    - destruct f as [|f]; [lia|]. rewrite strip_end_stop by done. exists tl. destruct acc; [done|by split].
    - rewrite length_app. cbn [length]. replace (Z.of_nat (length (render acc) + 1)) with (Z.of_nat (length (render acc)) + 1) by lia.
      rewrite <- app_assoc in *. cbn [app] in *. destruct (strip_end_out acc tl f Ha Hf) as (rest & -> & Hr).
      exists rest. split; [done|]. by rewrite Hr. }
  destruct Hout as [-> | ->].
  - destruct (Hb (S n)) as (rest & ? & ?); [lia|]. by exists rest.
  - assert (Hne : t ≠ []) by (destruct Ht as [[-> Hne] | ->]; [|by destruct (render acc)]; destruct acc as [|c acc]; [done|]; rewrite render_cons; by destruct (render acc)).
    rewrite strip_end_clear by (done || by right). destruct (Hb n) as (rest & ? & ?); [lia|]. by exists rest.
Qed.

Lemma buf_set_head b buf c : buf_set (b :: buf) 0 c = Val (c :: buf).
Proof. exact (buf_set_app [] b buf c). Qed.

Lemma strip_loop_first fuel s r b buf last :
  skip_slashes (SLASH :: s) = SLASH :: r → 0 < last →
  strip_loop outle (S fuel) (SLASH :: s) (b :: buf) 0 last 0 = strip_loop outle fuel r (SLASH :: buf) 1 last 0.
Proof.
  intros Hr Hl. cbn [strip_loop]. rewrite (proj2 (Z.leb_gt _ _)) by lia. cbn [head from_option id].
  rewrite buf_set_head. run. rewrite Hr. by rewrite (bool_decide_eq_true_2 (SLASH = SLASH)) by done.
Qed.

(** [stripdir] on an absolute path that fits: no access out of the array. *)
Lemma stripdir_spec getcwd s buf maxlen :
  nul_free s → (length s + 3 < length buf)%nat → (length s + 2 < Z.to_nat maxlen)%nat →
  ∃ k buf', ((∀ z, outle z = false) → k = true) ∧ stripdir outle getcwd (SLASH :: s) buf maxlen = Val (true, buf') ∧
    length buf' = length buf ∧ buf_str buf' = Val (show (strip_comps k [] (components [] s))).
Proof.
  intros Hs Hlen Hmax. unfold stripdir. destruct buf as [|b0 buf]; [cbn [length] in Hlen; lia|].
  rewrite buf_set_head. run.
  change (starts_with [SLASH] (SLASH :: s)) with (streq [SLASH] [SLASH]). rewrite (proj2 (streq_true _ _) eq_refl). run.
  cbn [length] in *. destruct (skip_slashes_spec s) as (r & Hr & Hhr & Hlr & Hnr & Hk).
  rewrite (strip_loop_first _ s r) by (done || lia).
  destruct (strip_loop_spec (length r) r (S (S (length s))) [] [] buf maxlen) as (k & Hk1 & Hst);
    [lia|lia|constructor|split; set_solver|by apply Hnr|done|cbn [render length]; simpl; lia|lia|].
  cbn [app] in Hst.
  apply strip_end_spec in Hst as (buf2 & out & rest & Hm & Hl2 & He & Hlr2); [|simpl; lia|].
  2: { apply strip_comps_named; [|constructor]. apply components_ok; [split; set_solver|by apply Hnr]. }
  exists k. rewrite <- Hk in *. eexists. split; [done|].
  change (Z.of_nat (length (render []) + 1 + length (@nil ascii))) with 1 in Hm. change (Z.of_nat (trailing_dots [])) with 0 in Hm.
  change (render [] ++ SLASH :: buf) with (SLASH :: buf) in Hm. rewrite Hm. run.
  rewrite He. run. split_and!; [done|exact Hlr2|]. unfold buf_str. rewrite bool_decide_eq_true_2 by set_solver. f_equal.
  apply cstring_app_nul.
  assert (Hn : Forall proper_name (strip_comps k [] (components [] s))).
  { apply strip_comps_named; [|constructor]. apply components_ok; [split; set_solver|done]. }
  revert Hn. generalize (strip_comps k [] (components [] s)) as acc. intros acc Hn. destruct acc as [|c acc]; [unfold nul_free; set_solver|].
  cbn [show]. unfold render. apply tail_str_nul, Forall_rev. eapply Forall_impl; [exact Hn|by intros ? [? _]].
Qed.
End strip.

(** A name that [stripdir] takes for what it is. *)
Definition plain_name (c : list ascii) : Prop :=
  c = ["."%char] ∨ c = ["."%char; "."%char] ∨ (trailing_dots c ≠ 1%nat ∧ trailing_dots c ≠ 2%nat).

Lemma strip_comps_resolve acc cs : Forall plain_name cs → strip_comps true acc cs = resolve acc cs.
Proof.
  intros Hcs. revert acc. induction Hcs as [|c cs Hc _ IH]; intros acc; [done|]. cbn [strip_comps resolve andb].
  destruct (bool_decide_reflect (c = [])) as [->|Hne]; [apply IH|]. cbn [orb]. rewrite IH.
  destruct (bool_decide_reflect (c = ["."%char])) as [->|H1]; [by destruct cs|].
  destruct (bool_decide_reflect (c = ["."%char; "."%char])) as [->|H2]; [by destruct cs|]. cbn [orb].
  destruct Hc as [?|[?|[Hd1 Hd2]]]; [done..|]. destruct cs; [done|]. by destruct (trailing_dots c) as [|[|[|?]]].
Qed.

Lemma render_tail acc : (length (render (tail acc)) ≤ length (render acc))%nat.
Proof. destruct acc as [|a acc]; [done|]. cbn [tail]. rewrite render_cons, length_app. lia. Qed.

Lemma strip_comps_length k acc cs : (length (render (strip_comps k acc cs)) ≤ length (render acc) + length (tail_str cs))%nat.
Proof.
  revert acc. induction cs as [|c cs IH]; intros acc; [apply Nat.le_add_r|].
  change (tail_str (c :: cs)) with (SLASH :: c ++ tail_str cs). cbn [strip_comps length]. rewrite length_app.
  case_bool_decide; [specialize (IH acc); lia|]. etrans; [apply IH|]. pose proof (render_tail acc).
  destruct (match cs with [] => _ | _ => _ end) as [|[|[|?]]]; rewrite ?render_cons, ?length_app; cbn [length]; lia.
Qed.

(** The path shown is absolute and no longer than the one given. *)
Lemma show_absolute k s : nul_free s → ∃ p, show (strip_comps k [] (components [] s)) = SLASH :: p ∧ nul_free p ∧
  (length p ≤ length s)%nat ∧ ∀ c, c ∈ components [] p → c = [] ∨ c ∈ strip_comps k [] (components [] s).
Proof.
  intros Hs. pose proof (strip_comps_length k [] (components [] s)) as Hl. rewrite tail_str_components in Hl. simpl in Hl.
  assert (Hn : Forall proper_name (strip_comps k [] (components [] s))).
  { apply strip_comps_named; [|constructor]. apply components_ok; [split; set_solver|done]. }
  revert Hn Hl. generalize (strip_comps k [] (components [] s)). intros [|c acc] Hn Hl.
  { exists []. split_and!; [done|apply nul_free_nil|simpl; lia|]. simpl. intros c Hc. left. set_solver. }
  cbn [show]. unfold render in *. fold (tail_str (rev (c :: acc))) in *.
  assert (Hr : Forall proper_name (rev (c :: acc))) by (by apply Forall_rev).
  assert (Hok : Forall comp_ok (rev (c :: acc))) by (eapply Forall_impl; [exact Hr|by intros ? [? _]]).
  assert (Hin : ∀ x, x ∈ rev (c :: acc) → x ∈ c :: acc) by (intros x; rewrite !list_elem_of_In; apply in_rev).
  pose proof (tail_str_nul _ Hok) as Hnul.
  destruct (rev (c :: acc)) as [|d ds] eqn:E; [apply (f_equal length) in E; rewrite length_rev in E; done|].
  change (tail_str (d :: ds)) with (SLASH :: d ++ tail_str ds) in *. exists (d ++ tail_str ds).
  apply Forall_cons in Hok as [[Hd _] Hds]. cbn [length] in Hl. split_and!; [done|unfold nul_free in *; set_solver|lia|].
  rewrite components_tail_str by done. intros x Hx. right. apply Hin. done.
Qed.

Lemma strip_comps_subset k acc cs x : x ∈ strip_comps k acc cs → x ∈ acc ∨ x ∈ cs.
Proof.
  revert acc. induction cs as [|c cs IH]; intros acc; cbn [strip_comps]; [by left|].
  assert (Ht : x ∈ tail acc → x ∈ acc) by (destruct acc; set_solver).
  case_bool_decide; intros Hx; apply IH in Hx as [Hx|Hx]; try set_solver.
  destruct (match cs with [] => _ | _ => _ end) as [|[|[|?]]]; set_solver.
Qed.

Lemma plain_empty : plain_name [].
Proof. by right; right. Qed.

(** Stripping a path twice: names that are plain come out as they are. *)
Lemma show_twice s p : nul_free s → Forall plain_name (components [] s) →
  show (resolve [] (components [] s)) = SLASH :: p → resolve [] (components [] p) = resolve [] (components [] s).
Proof.
  intros Hs Hpl. assert (Hok : Forall comp_ok (components [] s)) by (apply components_ok; [split; set_solver|done]).
  pose proof (resolve_kept [] _ Hok ltac:(constructor)) as Hk. revert Hk.
  generalize (resolve [] (components [] s)). intros [|c acc] Hk; [by intros [= <-]|].
  cbn [show]. unfold render. fold (tail_str (rev (c :: acc))). assert (Hr : Forall kept (rev (c :: acc))) by (by apply Forall_rev).
  intros Hp. rewrite <- (app_nil_r (c :: acc)), <- (rev_involutive (c :: acc)), <- (resolve_of_kept [] _ Hr). f_equal.
  assert (Hrok : Forall comp_ok (rev (c :: acc))) by (eapply Forall_impl; [exact Hr|by intros ? [? _]]).
  destruct (rev (c :: acc)) as [|d ds]; [done|]. change (tail_str (d :: ds)) with (SLASH :: d ++ tail_str ds) in Hp.
  injection Hp as <-. apply Forall_cons in Hrok as [[Hd _] Hds]. by rewrite components_tail_str.
Qed.

(** ** Changing the directory *)

(** The path the client asks for, without its first slash. *)
Definition destination (cur wanted : list ascii) : list ascii :=
  match wanted with
  | c :: w => if bool_decide (c = SLASH) then w else cur ++ (if ends_with_slash (SLASH :: cur) then [] else [SLASH]) ++ wanted
  | [] => cur ++ (if ends_with_slash (SLASH :: cur) then [] else [SLASH])
  end.

Lemma new_path_spec cur wanted :
  nul_free cur → nul_free wanted → (length cur + length wanted + 4 < MAXPATH)%nat →
  new_path (SLASH :: cur) wanted = Val (SLASH :: destination cur wanted) ∧ nul_free (destination cur wanted) ∧
  (length (destination cur wanted) ≤ length cur + length wanted + 1)%nat.
Proof.
  intros Hc Hw Hl. unfold new_path.
  assert (Hrel : Val (take (MAXPATH - 1) ((if ends_with_slash (SLASH :: cur) then SLASH :: cur else take (MAXPATH - 1) ((SLASH :: cur) ++ [SLASH])) ++ wanted))
                 = Val (SLASH :: cur ++ (if ends_with_slash (SLASH :: cur) then [] else [SLASH]) ++ wanted)).
  { destruct (ends_with_slash (SLASH :: cur)); rewrite ?(take_ge ((SLASH :: cur) ++ [SLASH])) by (rewrite length_app; cbn [length]; lia).
    - rewrite take_ge by (rewrite length_app; cbn [length]; lia). done.
    - rewrite take_ge by (rewrite !length_app; cbn [length]; lia). by rewrite <- app_assoc. }
  assert (Hs : ∀ b : bool, nul_free (if b then [] else [SLASH]) ∧ (length (if b then [] else [SLASH]) ≤ 1)%nat).
  { intros []; (split; [unfold nul_free; set_solver|simpl; lia]). }
  destruct (Hs (ends_with_slash (SLASH :: cur))) as [Hs1 Hs2]. destruct wanted as [|x w].
  - cbn [starts_with destination]. rewrite Hrel, app_nil_r. split_and!; [done|by apply nul_free_app|rewrite length_app; lia].
  - cbn [destination]. destruct (bool_decide_reflect (x = SLASH)) as [->|Hx].
    + change (starts_with [SLASH] (SLASH :: w)) with (streq [SLASH] [SLASH]). rewrite (proj2 (streq_true _ _) eq_refl).
      rewrite (proj2 (Nat.ltb_lt _ _)) by (cbn [length] in *; lia). split_and!; [done|unfold nul_free in *; set_solver|cbn [length]; lia].
    + replace (starts_with [SLASH] (x :: w)) with false.
      2: { symmetry. apply not_true_iff_false. rewrite starts_with_true. intros [k Hk]. by injection Hk. }
      rewrite Hrel. split_and!; [done|by repeat apply nul_free_app|rewrite !length_app in *; lia].
Qed.

(** The session after its current path has become [p]. *)
Definition at_path (s : session) (c : client) (p : list ascii) : session :=
  set_world s (with_contexts (ss_world s) (<[ss_ctx s := set_conn c (set_path (c_conn c) p)]> (w_contexts (ss_world s)))).

Lemma at_path_context s c c' p : w_contexts (ss_world s) !! ss_ctx s = Some c' →
  w_contexts (ss_world (at_path s c p)) !! ss_ctx (at_path s c p) = Some (set_conn c (set_path (c_conn c) p)).
Proof. intros H. simpl. apply list_lookup_insert_eq. by apply lookup_lt_Some in H. Qed.

Lemma at_path_again s c p p' : at_path (at_path s c p) (set_conn c (set_path (c_conn c) p)) p' = at_path s c p'.
Proof. unfold at_path, set_world, with_contexts, set_conn, set_path. simpl. by rewrite list_insert_insert_eq. Qed.

Lemma run_my_context s c : w_contexts (ss_world s) !! ss_ctx s = Some c → my_context s = Val (c, s).
Proof. intros H. unfold my_context. by rewrite H. Qed.

Lemma run_lift {A} (o : outcome A) a s : o = Val a → lift o s = Val (a, s).
Proof. intros ->. done. Qed.

Lemma run_show_path s c buf p : w_contexts (ss_world s) !! ss_ctx s = Some c →
  buf_str buf = Val p → (length p < MAXPATH)%nat → show_path buf s = Val (tt, at_path s c p).
Proof.
  intros Hc Hp Hl. unfold show_path. rewrite (bind_run _ _ s p s (run_lift _ _ s Hp)).
  rewrite take_ge by lia. unfold upd_conn. by rewrite Hc.
Qed.

Section enter.
  Context (outle : Z → bool) (getcwd : option (list ascii)) (junk : list ascii) (Hjunk : length junk = MAXPATH).

(** What [do_chdir] does to the current path once the directory is accepted. *)
Lemma enter_run (s : session) (c : client) (d : list ascii) :
  w_contexts (ss_world s) !! ss_ctx s = Some c → nul_free d → (length d + 4 < MAXPATH)%nat →
  ∃ p, (r ← lift (stripdir outle getcwd (SLASH :: d) junk (Z.of_nat MAXPATH - 1));
        show_path r.2;;
        c ← my_context;
        r ← lift (stripdir outle getcwd (cn_path (c_conn c)) junk (Z.of_nat MAXPATH));
        (if (r.1 : bool) then show_path r.2 else mret tt);;
        mret E_OK) s = Val (E_OK, at_path s c (SLASH :: p)) ∧
    nul_free p ∧ (length p ≤ length d)%nat ∧
    ((∀ z, outle z = false) → Forall plain_name (components [] d) → SLASH :: p = show (resolve [] (components [] d))).
Proof using Hjunk.
  intros Hc Hd Hl.
  destruct (stripdir_spec outle getcwd d junk (Z.of_nat MAXPATH - 1)) as (k1 & b1 & Hk1 & Hs1 & _ & Hb1); [done|lia..|].
  destruct (show_absolute k1 d Hd) as (p1 & Hp1 & Hn1 & Hl1 & Hc1). rewrite Hp1 in Hb1.
  destruct (stripdir_spec outle getcwd p1 junk (Z.of_nat MAXPATH)) as (k2 & b2 & Hk2 & Hs2 & _ & Hb2); [done|lia..|].
  destruct (show_absolute k2 p1 Hn1) as (p2 & Hp2 & Hn2 & Hl2 & _). rewrite Hp2 in Hb2.
  exists p2. split_and!; [|done|lia|].
  - rewrite (bind_run _ _ s _ s (run_lift _ _ s Hs1)). cbn [snd].
    rewrite (bind_run _ _ s _ _ (run_show_path s c b1 (SLASH :: p1) Hc Hb1 ltac:(cbn [length]; lia))).
    rewrite (bind_run _ _ _ _ _ (run_my_context _ _ (at_path_context s c c (SLASH :: p1) Hc))).
    cbn [c_conn set_conn cn_path set_path].
    rewrite (bind_run _ _ _ _ _ (run_lift _ _ _ Hs2)). cbn [fst snd].
    rewrite (bind_run _ _ _ _ _ (run_show_path _ _ b2 (SLASH :: p2) (at_path_context s c c (SLASH :: p1) Hc) Hb2 ltac:(cbn [length]; lia))).
    by rewrite at_path_again.
  - intros Ho Hpl. rewrite (Hk1 Ho) in *. rewrite (Hk2 Ho) in *. rewrite <- Hp2.
    assert (Hpl1 : Forall plain_name (components [] p1)).
    { apply Forall_forall. intros x Hx. destruct (Hc1 x Hx) as [->|Hx']; [apply plain_empty|].
      apply strip_comps_subset in Hx' as [Hx'|Hx']; [set_solver|]. by eapply Forall_forall. }
    rewrite strip_comps_resolve in Hp1 |- * by done. f_equal. by apply show_twice.
Qed.
End enter.

(** The directory a change of directory may go to: the user has the right, the
    path resolves to something that is there, and it is a directory. *)
Definition may_enter (b : option wzd_backend_t) (umask : Z) (lstat stat : list ascii → option fkind) (disk : permdisk) (vfs : list wzd_vfs_t)
    (w : world) (m : wzd_user_t) (cur wanted dir : list ascii) : Prop :=
  Z.land (userperms m) RIGHT_CWD ≠ 0 ∧ checkpath_new b umask lstat disk w vfs (Some wanted) (Some m) (SLASH :: cur) = Val (E_OK, Some dir) ∧
  stat (remove_trailing_slash dir) = Some FK_DIR.



(** Names that end in dots are lost: the path shown after entering them is that
    of another directory. *)
Definition stripped_text (outle : Z → bool) (s : string) : outcome (list ascii) :=
  r ← stripdir outle None (str s) (replicate 64 NUL) 63; buf_str r.2.

Example stripdir_dotted_names :
  stripped_text (λ _, false) "/foo./bar" = Val (str "/bar") ∧ stripped_text (λ _, false) "/a/foo../bar/x" = Val (str "/bar/x") ∧
  stripped_text (λ _, false) "/foo.../bar" = Val (str "/foo.../bar").
Proof. by vm_compute. Qed.

(** The end of a path depends on where the compiler puts the arrays. *)
Example stripdir_pointers :
  stripped_text (λ _, false) "/a/b/.." = Val (str "/a") ∧ stripped_text (λ _, true) "/a/b/.." = Val (str "/a/b/..").
Proof. by vm_compute. Qed.

(** ** Concrete states *)

Definition cw_user : wzd_user_t :=
  let u := home_user in
  mkUser 1 0 (username u) (padded MAX_PASS_LENGTH (str "secret")) (rootpath u) (creator u)
    (u_tagline u) 1 (7 :: replicate 31 0) (u_max_idle_time u) (userperms u) (flags u) (u_max_ul_speed u)
    (u_max_dl_speed u) 2 (logins_per_ip u) [mkIpEntry (str "192.0.2.*") 1] (stats u) (credits u) (u_ratio u)
    (user_slots u) (leech_slots u) (last_login u).
Definition cw_users : users := after (user_register (Some 1%positive) 1 (empty_registry {[ 1%positive := cw_user ]})).
Definition cw_world : world := mkWorld cw_users dw_groups [demo_client 1 11] 1 1 0.
Definition cw_session : session := mkSession cw_world 0 [] [].
Definition cw_me : wzd_user_t := default user_init_struct (r_heap cw_users !! 1%positive).
Definition cw_stat (p : list ascii) : option fkind :=
  if streq p (str "/home/bob") || streq p (str "/srv/my pub") then Some FK_DIR else demo_lstat p.

Lemma cw_stat_reg q : demo_lstat q = Some FK_REG → cw_stat (remove_trailing_slash q) = Some FK_REG.
Proof.
  unfold demo_lstat at 1. destruct (streq q (str "/home/bob/a")) eqn:Ha; [apply streq_true in Ha as ->; by_vm|].
  destruct (streq q (str "/home/bob/ab")) eqn:Hb; [apply streq_true in Hb as ->; by_vm|]. cbn [orb]. by destruct (_ || _).
Qed.

Lemma cw_world_wf : world_wf cw_world.
Proof. split_and!; [|by vm_compute|apply demo_world_wf]. apply after_wf; [apply empty_registry_wf|by vm_compute]. Qed.

Lemma cw_session_user : session_user cw_session 1%positive cw_me.
Proof. split_and!; [apply cw_world_wf|reflexivity|reflexivity|]. by exists (demo_client 1 11). Qed.

Lemma cw_user_ok : perm_user cw_me cw_world (str "bob") [] [str "staff"].
Proof.
  split; [exact (pu_name _ _ _ _ _ home_user_ok)|reflexivity|by_vm|].
  apply Forall2_cons. split; [|constructor]. exists 1%positive, (set_g_backend demo_group 1). split_and!; [by_vm|reflexivity|reflexivity|by_decision|by_vm].
Qed.

Lemma cw_vfs_ok : Forall (vfs_ok su_backend cw_world cw_me) demo_vfs.
Proof.
  constructor; [|constructor]. split; [done|]. split; [exists true; by vm_compute|].
  exists (Some (str "/home/bob/shared")). split; [by vm_compute|apply Nat.ltb_lt; by vm_compute].
Qed.


(** The same request, run. *)
Example chdir_enters :
  match do_chdir su_backend 509 demo_lstat cw_stat demo_disk demo_vfs false (λ _, false) None (replicate MAXPATH NUL)
      (Some (str "x/../pub/./")) cw_session with
  | Val (ret, s') => bool_decide (ret = E_OK) && bool_decide ((λ c, cn_path (c_conn c)) <$> w_contexts (ss_world s') = [str "/pub"])
  | Crash => false
  end = true.
Proof. by vm_compute. Qed.

(** A directory whose name begins with a dot is entered although dotted names
    are hidden: the path that is tested ends with a slash, after which
    [is_hidden_file] finds an empty name. *)
Example chdir_enters_hidden :
  let dotted p := if streq p (str "/home/bob/.x") then Some FK_DIR else None in
  match do_chdir su_backend 509 dotted dotted demo_disk demo_vfs true (λ _, false) None (replicate MAXPATH NUL) (Some (str ".x")) cw_session with
  | Val (ret, s') => bool_decide (ret = E_OK) && bool_decide ((λ c, cn_path (c_conn c)) <$> w_contexts (ss_world s') = [str "/.x"])
  | Crash => false
  end = true ∧ is_hidden_file true (str "/home/bob/.x") = true.
Proof. by vm_compute. Qed.

