(* ===== verification/Login.v ===== *)
(** * The login sequence: libwzd-core/wzd_login.c, with [do_opts] of
    wzd_ClientThread.c and [ip_is_bnc] of wzd_ip.c

    [do_login_loop] reads lines from the control connection until the client has
    given a name and a password that are accepted, or something wrong. What the
    connection delivers is a list of reads, the end of which is the end of the
    connection. The TLS library, the name service and the tests on files are
    parameters; the server is compiled with TLS and without Kerberos. *)

From S2P Require Import Prelude Inet CList Hash Ip Registry Users Backend Perm Str Commands Session SiteUser Path PermFile Vfs Chdir.

Definition FLAG_ALWAYS_ALLOW_LOGIN : ascii := "a".
Definition FLAG_TLS : ascii := "k".
Definition CONNECTION_TLS : Z := 0x40.
Definition CONNECTION_UTF8 : Z := 0x100.

Inductive tls_type_t := TLS_NOTYPE | TLS_EXPLICIT | TLS_STRICT_EXPLICIT | TLS_IMPLICIT.

(** What [mainConfig] says about logins. *)
Record login_config := mkLoginConfig {
  site_closed : bool;
  max_users : Z;
  reject_unknown : bool;              (** [CFG_OPT_REJECT_UNKNOWN_USERS] *)
  disable_tls : bool;                 (** [CFG_OPT_DISABLE_TLS] *)
  tls_type : tls_type_t;
  bnc_list : option (list (list ascii)) }.

Definition set_userid (c : client) (id : Z) : client :=
  mkClient (c_magic c) id (c_ul_maxspeed c) (c_dl_maxspeed c) (c_pid c) (c_exit c) (c_conn c).
Definition set_state (cn : connection) (st : connection_state_t) : connection :=
  mkConn (cn_family cn) (cn_hostip cn) (cn_ident cn) (cn_idnt_address cn) st (cn_socket cn) (cn_tls_data_mode cn) (cn_flags cn) (cn_path cn).
Definition set_data_mode (cn : connection) (m : tls_data_mode_t) : connection :=
  mkConn (cn_family cn) (cn_hostip cn) (cn_ident cn) (cn_idnt_address cn) (cn_state cn) (cn_socket cn) m (cn_flags cn) (cn_path cn).
Definition set_cn_flags (cn : connection) (f : Z) : connection :=
  mkConn (cn_family cn) (cn_hostip cn) (cn_ident cn) (cn_idnt_address cn) (cn_state cn) (cn_socket cn) (cn_tls_data_mode cn) f (cn_path cn).
Definition set_ident (cn : connection) (ident address : list ascii) : connection :=
  mkConn (cn_family cn) (cn_hostip cn) (Some ident) (Some address) (cn_state cn) (cn_socket cn) (cn_tls_data_mode cn) (cn_flags cn) (cn_path cn).

(** [context->userid = *id] when the backend stores one. *)
Definition store_userid (id : option Z) : M unit := λ s,
  match id with
  | None => Val (tt, s)
  | Some id =>
    c ← deref (w_contexts (ss_world s) !! ss_ctx s);
    Val (tt, set_world s (with_contexts (ss_world s) (<[ss_ctx s := set_userid c id]> (w_contexts (ss_world s)))))
  end.

Section login.
  Context (b : option wzd_backend_t) (cfg : login_config).
  Context (umask : Z) (fs_file_lstat fs_file_stat : list ascii → option fkind) (disk : permdisk) (vfs : list wzd_vfs_t)
          (hide_dotted : bool) (outle : Z → bool) (getcwd : option (list ascii)) (junk : list ascii).
  Context (socket_getipbyname gethostbyaddr : list ascii → option (list ascii)).
  (** Whether the negotiation succeeds, and the lookup of an address. *)
  Context (tls_auth : list ascii → Z) (iptohostname : list ascii → Z).

(** *** Checks on the user *)

Definition backend_validate_login (username : list ascii) : M Z :=
  r ← on_world (λ w, '(ret, id, w) ← validate_login b username None w; Val ((ret, id), w));
  store_userid r.2;; mret r.1.

Definition backend_validate_pass (username pass : list ascii) : M Z :=
  r ← on_world (λ w, '(ret, id, w) ← validate_pass b username pass None w; Val ((ret, id), w));
  store_userid r.2;; mret r.1.

Definition check_tls_forced : M bool :=
  c ← my_context;
  p ← getUserByID b (c_userid c);
  a ← lift (deref p);
  forced ← is_flagged FLAG_TLS a;
  mret (forced && (Z.land (cn_flags (c_conn c)) CONNECTION_TLS =? 0)).

(** The other clients logged in as the same user, and those of them at the same
    address. *)
Definition same_user (me c : client) : bool :=
  c_magic c && (c_userid me =? c_userid c) && negb (cn_socket (c_conn me) =? cn_socket (c_conn c)).
Definition count_logins (me : client) (l : list client) : Z := Z.of_nat (length (List.filter (same_user me) l)).
Definition count_fromip (me : client) (l : list client) : Z :=
  Z.of_nat (length (List.filter (λ c, same_user me c && bool_decide (cn_hostip (c_conn me) = cn_hostip (c_conn c))) l)).

(** [user->groups[j]] for [j] below [group_num]. *)
Fixpoint read_groups (n i : nat) (l : list Z) : outcome (list Z) :=
  match n with
  | O => Val []
  | S n => g ← deref (l !! i); gs ← read_groups n (S i) l; Val (g :: gs)
  end.
Definition user_groups (u : wzd_user_t) : outcome (list Z) := read_groups (Z.to_nat (group_num u)) 0 (groups u).

(** The counters of the groups [mine], raised for each group in [theirs]. *)
Definition bump (mine : list Z) (counts : list Z) (g : Z) : list Z := zip_with (λ m n, if g =? m then u32 (n + 1) else n) mine counts.

Fixpoint count_groups (mine : list Z) (l : list client) (counts : list Z) : M (list Z) :=
  match l with
  | [] => mret counts
  | c :: l =>
    if c_magic c then
      p ← getUserByID b (c_userid c);
      match p with
      | None => count_groups mine l counts
      | Some a => u ← user_at a; theirs ← lift (user_groups u); count_groups mine l (foldl (bump mine) counts theirs)
      end
    else count_groups mine l counts
  end.

(** Whether a group has more logins than it allows. *)
Fixpoint group_full (mine counts : list Z) : M bool :=
  match mine, counts with
  | g :: mine, n :: counts =>
    p ← getGroupByID b g;
    match p with
    | None => group_full mine counts
    | Some a =>
      gr ← group_at a;
      if negb (g_num_logins gr =? 0) && (g_num_logins gr <? n) then mret true else group_full mine counts
    end
  | _, _ => mret false
  end.

Definition do_user (username : list ascii) : M wzd_errno_t :=
  ret ← backend_validate_login username;
  if negb (ret =? 0) then mret E_USER_REJECTED else
  c ← my_context;
  p ← getUserByID b (c_userid c);
  match p with
  | None => mret E_USER_IDONTEXIST
  | Some me =>
    deleted ← is_flagged FLAG_DELETED me;
    if (deleted : bool) then mret E_USER_DELETED else
    siteop ← is_flagged FLAG_SITEOP me;
    if site_closed cfg && negb siteop then mret E_USER_CLOSED else
    always ← is_flagged FLAG_ALWAYS_ALLOW_LOGIN me;
    u ← user_at me;
    l ← contexts;
    let bypass := always || siteop in
    if negb bypass && negb (max_users cfg =? 0) && (max_users cfg <? Z.of_nat (length l)) then mret E_USER_TOOMANYUSERS else
    if negb bypass && negb (u_num_logins u =? 0) && (u_num_logins u <=? count_logins c l) then mret E_USER_NUMLOGINS else
    if negb bypass && negb (logins_per_ip u =? 0) && (logins_per_ip u <=? count_fromip c l) then mret E_USER_LOGINSPERIP else
    mine ← lift (user_groups u);
    counts ← count_groups mine l (map (λ _, 0) mine);
    full ← group_full mine counts;
    if (full : bool) then mret E_GROUP_NUMLOGINS else
    forced ← check_tls_forced;
    mret (if (forced : bool) then E_USER_TLSFORCED else E_OK)
  end.

Definition do_pass (username pass : list ascii) : M wzd_errno_t :=
  c ← my_context;
  p ← getUserByID b (c_userid c);
  match p with
  | None => mret E_USER_REJECTED
  | Some user =>
    deleted ← is_flagged FLAG_DELETED user;
    if (deleted : bool) then mret E_USER_DELETED else
    ret ← backend_validate_pass username pass;
    if negb (ret =? 0) then mret E_PASS_REJECTED else
    upd_conn (λ cn, set_path cn [SLASH]);;
    ret ← do_chdir b umask fs_file_lstat fs_file_stat disk vfs hide_dotted outle getcwd junk (Some [SLASH]);
    mret (if bool_decide (ret = E_OK) then E_OK else E_USER_NO_HOME)
  end.

(** The address of the client as text; the array is not set when [inet_ntop]
    fails. *)
Definition host_text (cn : connection) : outcome (list ascii) :=
  deref (match cn_family cn with
         | WZD_INET6 => inet_ntop WZD_INET6 (cn_hostip cn) INET6_ADDRSTRLEN
         | _ => inet_ntop WZD_INET4 (cn_hostip cn) INET_ADDRSTRLEN
         end).

Fixpoint group_allows (gs : list Z) (ip : list ascii) (ident : option (list ascii)) : M bool :=
  match gs with
  | [] => mret false
  | g :: gs =>
    p ← getGroupByID b g;
    match p with
    | None => group_allows gs ip ident
    | Some a =>
      gr ← group_at a;
      if ip_list_check_ident socket_getipbyname gethostbyaddr (g_ip_list gr) ip ident =? 1 then mret true else group_allows gs ip ident
    end
  end.

Definition do_user_ip : M wzd_errno_t :=
  c ← my_context;
  p ← getUserByID b (c_userid c);
  match p with
  | None => mret (if reject_unknown cfg then E_USER_IDONTEXIST else E_OK)
  | Some a =>
    user ← user_at a;
    ip ← lift (host_text (c_conn c));
    if 0 <? ip_list_check_ident socket_getipbyname gethostbyaddr (u_ip_list user) ip (cn_ident (c_conn c)) then mret E_OK else
    gs ← lift (user_groups user);
    ok ← group_allows gs ip (cn_ident (c_conn c));
    mret (if (ok : bool) then E_OK else E_USER_NOIP)
  end.

(** *** The other commands of the loop *)

(** [strncasecmp(s,p,n)==0] for a [p] of at least [n] characters. *)
Definition icase_prefix (p s : list ascii) (n : nat) : bool := strcaseeq (take n s) (take n p).

Definition SUPPORTED_FEATURES : list ascii :=
  concat (map (λ l, str l ++ [LF]) [" NON-FREE FTPD SUCKS"; " MDTM"; " SIZE"; " SITE"; " REST STREAM"; " PRET"; " XCRC"; " XMD5"; " MODA modify*;accessed*;";
    " MLST Type*;Size*;Modify*;Perm*;Unique*;UNIX.mode;"; " AUTH TLS"; " PBSZ"; " PROT"; " SSCN"; " CPSV"; " UTF8"]) ++ str "End".

Definition opts_error : M unit := reply 501 "OPTS option not recognized".
Definition opts_mlst (p : list ascii) : M unit :=
  if icase_prefix (str "MLST") p 4 then reply 200 "MLST OPTS Type;Size;Modify;Perm;UNIX.mode;" else opts_error.

(** Two characters of ON and OFF are compared. *)
Definition do_opts (param : option (list ascii)) : M unit :=
  p ← lift (deref param);
  if icase_prefix (str "UTF8") p 4 then
    if negb (bool_decide (head (drop 4 p) = Some " "%char)) then opts_error else
    let p := drop 5 p in
    if icase_prefix (str "ON") p 2 then
      upd_conn (λ cn, set_cn_flags cn (Z.lor (cn_flags cn) CONNECTION_UTF8));; reply 200 "UTF8 OPTS ON"
    else if icase_prefix (str "OFF") p 2 then
      upd_conn (λ cn, set_cn_flags cn (Z.ldiff (cn_flags cn) CONNECTION_UTF8));; reply 200 "UTF8 OPTS OFF"
    else opts_mlst p
  else opts_mlst p.

Definition ip_is_bnc (remote : list ascii) : bool :=
  match bnc_list cfg with
  | None => false
  | Some l => existsb (λ bnc, ip_compare socket_getipbyname gethostbyaddr (Some remote) (Some bnc) =? 1) l
  end.

(** *** One line of the dialogue *)

(** The variables of the loop; [pass_ok] is never set. *)
Record login_vars := mkVars { user_ok : bool; tls_ok : bool; v_username : list ascii }.

(** The value [do_login_loop] returns, or its variables after the line. *)
Abbreviation verdict_or_vars := (Z + login_vars)%type.

Definition refuse (code : Z) (text : string) : M verdict_or_vars := reply code text;; mret (inl 1).
Definition continue (v : login_vars) (m : M unit) : M verdict_or_vars := m;; mret (inr v).

(** After [do_user] has not refused the name. [strncpy] leaves no room for a NUL
    when the name has 255 characters or more. *)
Definition accept_name (v : login_vars) (name : list ascii) : M verdict_or_vars :=
  ret ← do_user_ip;
  if negb (bool_decide (ret = E_OK)) then refuse 421 "IP not allowed" else
  username ← lift (if (length name <? HARD_USERNAME_LENGTH - 1)%nat then Val name else Crash);
  continue (mkVars true (tls_ok v) username) (emit (Reply 331 username)).

Definition login_user (v : login_vars) (token : option (list ascii)) : M verdict_or_vars :=
  if user_ok v then refuse 421 "USER command issued twice" else
  match token with
  | None => refuse 421 "Give me a user name!"
  | Some name =>
    ret ← do_user name;
    match ret with
    | E_OK => accept_name v name
    | E_USER_REJECTED => if reject_unknown cfg then refuse 421 "User rejected" else accept_name v name
    | E_USER_DELETED => if reject_unknown cfg then refuse 421 "User deleted" else accept_name v name
    | E_USER_NUMLOGINS => refuse 421 "Too many connections with this login account"
    | E_USER_LOGINSPERIP => refuse 421 "Too many connections with this IP address"
    | E_USER_CLOSED => refuse 421 "Site is closed, try again later"
    | E_USER_IDONTEXIST => refuse 501 "Mama says I don't exist! (problem with backend?)"
    | E_USER_TLSFORCED => refuse 421 "User MUST connect in TLS/SSL mode"
    | E_GROUP_NUMLOGINS => refuse 421 "Too many connections for your group"
    | E_USER_TOOMANYUSERS => refuse 421 "Too many connections to the server"
    | _ => refuse 421 "User rejected (unknown error)"
    end
  end.

Definition login_pass (v : login_vars) (token : option (list ascii)) : M verdict_or_vars :=
  if negb (user_ok v) then refuse 421 "Incorrect login sequence" else
  match token with
  | None => refuse 421 "Give me a password!"
  | Some pass =>
    ret ← do_pass (v_username v) pass;
    match ret with
    | E_OK =>
      match tls_type cfg with
      | TLS_STRICT_EXPLICIT => if tls_ok v then mret (inl 0) else refuse 421 "TLS session MUST be engaged"
      | _ => mret (inl 0)
      end
    | E_USER_REJECTED => refuse 421 "User rejected"
    | E_PASS_REJECTED => refuse 421 "Password rejected"
    | E_USER_DELETED => refuse 421 "User deleted"
    | E_USER_NO_HOME => refuse 421 "Could not go to my home directory!"
    | _ => refuse 421 "User rejected (unknown error)"
    end
  end.

Definition login_auth (v : login_vars) (token : option (list ascii)) : M verdict_or_vars :=
  match token with
  | None => emit (Reply 421 (str "Invalid token in AUTH command" ++ [LF]));; mret (inl 1)
  | Some t =>
    if disable_tls cfg then continue v (reply 502 "TLS Disabled by config") else
    let implicit := match tls_type cfg with TLS_IMPLICIT => true | _ => false end in
    upd_conn (λ cn, set_data_mode cn (if strcaseeq t (str "SSL") || implicit then TLS_PRIV else TLS_CLEAR));;
    (if implicit then mret tt else emit (Reply 234 t));;
    if negb (tls_auth t =? 0) then refuse 431 "Failed TLS negotiation" else
    continue (mkVars (user_ok v) true (v_username v))
      (upd_conn (λ cn, set_cn_flags cn (Z.lor (cn_flags cn) CONNECTION_TLS)))
  end.

(** [strcasecmp] is called on the argument without a test. *)
Definition login_prot (v : login_vars) (token : option (list ascii)) : M verdict_or_vars :=
  t ← lift (deref token);
  if strcaseeq (str "P") t then
    upd_conn (λ cn, set_data_mode cn TLS_PRIV);; continue v (reply 200 "PROT command okay")
  else if strcaseeq (str "C") t then
    upd_conn (λ cn, set_data_mode cn TLS_CLEAR);; continue v (reply 200 "PROT command okay")
  else continue v (reply2 550 (str "PROT") (str "must be C or P")).

Definition login_idnt (v : login_vars) (rest : list ascii) : M verdict_or_vars :=
  c ← my_context;
  if negb (bool_decide (cn_idnt_address (c_conn c) = None)) then refuse 530 "Multiple IDNT commands" else
  ip ← lift (host_text (c_conn c));
  if negb (ip_is_bnc ip) then refuse 530 "Permission denied" else
  let '(ident, rest) := strtok (λ c, bool_decide (c = "@"%char)) rest in
  let '(address, rest) := strtok (λ c, bool_decide (c = ":"%char)) rest in
  match ident, address, rest with
  | Some ident, Some address, _ :: _ =>
    if negb (iptohostname address =? 0) then refuse 501 "IDNT failed"
    else continue v (upd_conn (λ cn, set_ident cn ident address))
  | _, _, _ => refuse 501 "Syntax error"
  end.

(** [set_action], which records the line for the list of clients, is left out. *)
Definition login_line (v : login_vars) (line : list ascii) : M verdict_or_vars :=
  let '(token, rest) := strtok is_delim line in
  let arg := (strtok is_eol rest).1 in
  command ← lift (identify_token token);
  if command =? TOK_HELP then continue v (reply 530 "Login with USER and PASS")
  else if command =? TOK_USER then login_user v arg
  else if command =? TOK_PASS then login_pass v arg
  else if command =? TOK_AUTH then login_auth v arg
  else if command =? TOK_PBSZ then continue v (reply 200 "Command okay")
  else if command =? TOK_PROT then login_prot v arg
  else if command =? TOK_FEAT then continue v (emit (Reply 211 (str "Extensions supported:" ++ [LF] ++ SUPPORTED_FEATURES)))
  else if command =? TOK_OPTS then continue v (do_opts arg)
  else if command =? TOK_IDNT then login_idnt v rest
  else refuse 530 "Invalid login sequence".

(** *** The loop *)

Definition LOGIN_BUFFER_LEN : nat := 4096.

(** Each element of [reads] is what one call of [read_fct] delivers; an empty
    one, and the end of the list, close the connection. *)
Fixpoint login_loop (reads : list (list ascii)) (v : login_vars) : M Z :=
  match reads with
  | [] | [] :: _ => mret 1
  | data :: reads =>
    if (LOGIN_BUFFER_LEN <=? length data)%nat then lift Crash else
    match chop (cstring (data ++ [NUL])) with
    | [] => login_loop reads v
    | line =>
      r ← login_line v line;
      match r with
      | inl ret => mret ret
      | inr v => login_loop reads v
      end
    end
  end.

Definition do_login_loop (reads : list (list ascii)) : M Z :=
  upd_conn (λ cn, set_state cn STATE_LOGGING);;
  login_loop reads (mkVars false false []).

(** The line that is logged at the end is left out. *)
Definition do_login (reads : list (list ascii)) : M Z :=
  emit (Reply 220 []);; do_login_loop reads.

End login.
