(* ===== verification/LoginProps.v ===== *)
(** * The login sequence: who gets in

    The server lets a client in only when a registered user, not deleted, has
    the name that was given, its password was accepted, its address is allowed,
    the limits on logins are respected and the connection is encrypted where it
    must be. The proofs follow the client's context through the dialogue: each
    command changes nothing but that context ([evolves]), and keeps what the
    checks at USER were made on ([keeps]). *)

From S2P Require Import Prelude Inet CList Hash Ip Registry Users Backend Perm Str Commands Session SiteUser SiteUserProps Path PermFile Vfs Chdir Login.

(** ** Looking users and groups up *)

Lemma get_by_id_Val {E} `{RegisteredLaws E} (r : registry E) i p :
  reg_wf r → 0 < r_max r → 0 ≤ i → get_by_id i r = Val p → p = registered r i.
Proof.
  intros Hwf Hm Hge. unfold get_by_id. destruct (Z.eqb_spec i INVALID_USER) as [->|Hi].
  { intros [= <-]. pose proof (wf_max _ Hwf). symmetry. apply registered_beyond. unfold INVALID_USER, INT_MAX in *. lia. }
  destruct (Z.ltb_spec (r_max r) i); [intros [= <-]; by rewrite registered_beyond|].
  replace (r_max r =? 0) with false by (symmetry; lia).
  destruct (r_arr r) as [l|] eqn:El; [|rewrite (wf_none _ Hwf El) in Hm; lia].
  rewrite (slot_registered r _ l) by auto with lia. congruence.
Qed.

(** The identifiers are unsigned. *)
Definition ids_unsigned (w : world) : Prop :=
  Forall (λ c, 0 ≤ c_userid c) (w_contexts w) ∧ ∀ a u, r_heap (w_users w) !! a = Some u → Forall (λ g, 0 ≤ g) (groups u).

Section lookups.
  Context (changepass : list ascii → list ascii → list ascii → nat → Z * list ascii)
          (check_auth : list ascii → list ascii → list ascii → Z).
  #[local] Abbreviation pb := (Some (plaintext changepass check_auth)).

Lemma getUserByID_Val i s p s' :
  world_wf (ss_world s) → 0 ≤ i → getUserByID pb i s = Val (p, s') → s' = s ∧ p = registered (w_users (ss_world s)) i.
Proof.
  intros (Hwf & Hm & _) Hi. unfold getUserByID, ask, GetUserByID. destruct (Z.eqb_spec i INVALID_USER) as [->|Hne].
  { intros [= <- <-]. split; [done|]. pose proof (wf_max _ Hwf). symmetry. apply registered_beyond. unfold INVALID_USER, INT_MAX in *. lia. }
  simpl. unfold FCN_GET_USER. destruct (i =? GET_USER_LIST).
  { destruct (user_get_list _); simpl; done. }
  replace (i =? INVALID_USER) with false by (symmetry; lia).
  destruct (user_get_by_id i _) as [q|] eqn:Hq; [|done]. run. intros [= <- <-]. split; [done|]. by apply get_by_id_Val.
Qed.

Lemma getGroupByID_Val i s p s' :
  reg_wf (w_groups (ss_world s)) → 0 < r_max (w_groups (ss_world s)) → 0 ≤ i → getGroupByID pb i s = Val (p, s') →
  s' = s ∧ p = registered (w_groups (ss_world s)) i.
Proof.
  intros Hwf Hm Hi. unfold getGroupByID, ask, GetGroupByID. simpl. unfold FCN_GET_GROUP. destruct (i =? GET_USER_LIST).
  { destruct (group_get_list _); simpl; done. }
  destruct (Z.eqb_spec i INVALID_USER) as [->|Hne].
  { intros [= <- <-]. split; [done|]. pose proof (wf_max _ Hwf). symmetry. apply registered_beyond. unfold INVALID_USER, INT_MAX in *. lia. }
  destruct (group_get_by_id i _) as [q|] eqn:Hq; [|done]. run. intros [= <- <-]. split; [done|]. by apply get_by_id_Val.
Qed.

(** A name the backend accepts belongs to a registered user, the first with it. *)
Definition owner (w : world) (name : list ascii) (me : addr) (m : wzd_user_t) : Prop :=
  user_get_by_name (Some name) (w_users w) = Val (Some me) ∧ r_heap (w_users w) !! me = Some m ∧
  registered (w_users w) (uid m) = Some me ∧ cstring (username m) = name.

Lemma user_by_name_owner w name me :
  world_wf w → user_get_by_name (Some name) (w_users w) = Val (Some me) → ∃ m, owner w name me m.
Proof.
  intros (Hwf & Hm & _) H. destruct name as [|x n]; [done|].
  destruct (get_by_name_spec (w_users w) (x :: n) Hwf) as (p & Hp & Hs); [done|]. unfold user_get_by_name in H.
  rewrite Hp in H. injection H as ->. destruct Hs as (i & Hi & Hreg & (a' & e & Ha' & He & Hn) & _).
  rewrite Hreg in Ha'. injection Ha' as <-. destruct (registered_heap _ _ _ Hwf Hreg) as (u & Hu & Hid).
  rewrite He in Hu. injection Hu as <-. exists e. split_and!; [by rewrite <- Hp|done| |done].
  change (uid e = i) in Hid. by rewrite Hid.
Qed.

Lemma FCN_VALIDATE_LOGIN_Val w name i :
  world_wf w → FCN_VALIDATE_LOGIN name w = Val i → i ≠ INVALID_USER → ∃ me m, owner w name me m ∧ i = uid m.
Proof.
  intros Hwf. unfold FCN_VALIDATE_LOGIN. destruct (user_get_by_name (Some name) (w_users w)) as [[me|]|] eqn:Hn; [|by intros [= <-]|done].
  destruct (user_by_name_owner w name me Hwf Hn) as (m & Ho). pose proof Ho as (_ & Hm & _). run. rewrite Hm. run.
  intros [= <-] _. by exists me, m.
Qed.

Lemma FCN_VALIDATE_PASS_Val w name pass i me m :
  owner w name me m → FCN_VALIDATE_PASS check_auth name pass w = Val i → i ≠ INVALID_USER →
  i = uid m ∧ (strcaseeq (cstring (userpass m)) (str "%") = true ∨ check_auth name pass (cstring (userpass m)) = 1).
Proof.
  intros (Hn & Hm & _). unfold FCN_VALIDATE_PASS. rewrite Hn. run. rewrite Hm. run. unfold buf_str.
  case_bool_decide; [|done]. run. destruct (strcaseeq _ _) eqn:Hc; [intros [= <-] _; auto|].
  destruct (Z.eqb_spec (check_auth name pass (cstring (userpass m))) 1); [intros [= <-] _; auto|by intros [= <-]].
Qed.
End lookups.

(** ** The conditions of a login *)

Definition flagged (c : ascii) (u : wzd_user_t) : bool := strchr (cstring (flags u)) c.

Lemma has_flag_Val c u r : has_flag c u = Val r → r = flagged c u.
Proof. unfold has_flag, buf_str. case_bool_decide; [|done]. run. by intros [= <-]. Qed.

Definition occurrences (g : Z) (l : list Z) : Z := Z.of_nat (length (List.filter (Z.eqb g) l)).

(** The groups of a user, and of the user a client is logged in as. *)
Definition member_of (u : wzd_user_t) : list Z := take (Z.to_nat (group_num u)) (groups u).
Definition client_groups (w : world) (c : client) : list Z :=
  if c_magic c then
    match registered (w_users w) (c_userid c) with
    | Some a => match r_heap (w_users w) !! a with Some u => member_of u | None => [] end
    | None => []
    end
  else [].
Definition logins_of_group (w : world) (l : list client) (g : Z) : Z := occurrences g (concat (map (client_groups w) l)).

Definition tls_on (c : client) : Prop := Z.land (cn_flags (c_conn c)) CONNECTION_TLS ≠ 0.

Section conditions.
  Context (cfg : login_config) (socket_getipbyname gethostbyaddr : list ascii → option (list ascii)).

(** Whether the address of a client is one the user, or one of its groups, may
    come from. *)
Definition address_allowed (w : world) (c : client) (m : wzd_user_t) : Prop :=
  ∃ ip ident, host_text (c_conn c) = Val ip ∧
    (0 < ip_list_check_ident socket_getipbyname gethostbyaddr (u_ip_list m) ip ident ∨
     ∃ g a gr, g ∈ member_of m ∧ registered (w_groups w) g = Some a ∧ r_heap (w_groups w) !! a = Some gr ∧
       ip_list_check_ident socket_getipbyname gethostbyaddr (g_ip_list gr) ip ident = 1).

Definition within_limits (w : world) (c : client) (m : wzd_user_t) : Prop :=
  (max_users cfg = 0 ∨ Z.of_nat (length (w_contexts w)) ≤ max_users cfg) ∧
  (u_num_logins m = 0 ∨ count_logins c (w_contexts w) < u_num_logins m) ∧
  (logins_per_ip m = 0 ∨ count_fromip c (w_contexts w) < logins_per_ip m).

(** What [do_user] decides. *)
Record login_allowed (w : world) (c : client) (m : wzd_user_t) : Prop := {
  la_deleted : flagged FLAG_DELETED m = false;
  la_closed : site_closed cfg = true → flagged FLAG_SITEOP m = true;
  la_limits : flagged FLAG_SITEOP m = true ∨ flagged FLAG_ALWAYS_ALLOW_LOGIN m = true ∨ within_limits w c m;
  la_groups : ∀ g a gr, g ∈ member_of m → registered (w_groups w) g = Some a → r_heap (w_groups w) !! a = Some gr →
    g_num_logins gr = 0 ∨ u32 (logins_of_group w (w_contexts w) g) ≤ g_num_logins gr;
  la_tls : flagged FLAG_TLS m = true → tls_on c }.

(** *** What they depend on *)

Definition key (c : client) : bool * Z * Z * list Z * net_family_t :=
  (c_magic c, c_userid c, cn_socket (c_conn c), cn_hostip (c_conn c), cn_family (c_conn c)).

Definition keeps (c c' : client) : Prop := key c' = key c ∧ (tls_on c → tls_on c').

Lemma filter_pairs {A} (P Q : A → bool) (l l' : list A) (f : A → bool * Z * Z * list Z * net_family_t) :
  (∀ x y, f x = f y → P x = Q y) → map f l = map f l' → length (List.filter P l) = length (List.filter Q l').
Proof.
  intros H. revert l'. induction l as [|x l IH]; intros [|y l'] Hm; [done..|]. injection Hm as Hx Hm. simpl.
  rewrite (H x y Hx). destruct (Q y); simpl; by rewrite (IH l' Hm).
Qed.

Lemma map_key_insert (l : list client) i c c' : l !! i = Some c → key c' = key c → map key (<[i := c']> l) = map key l.
Proof.
  intros Hi Hk. change (map key) with (fmap (M:=list) key). rewrite list_fmap_insert. apply list_insert_id.
  by rewrite list_lookup_fmap, Hi, Hk.
Qed.

Lemma same_user_key me me' c c' : key me = key me' → key c = key c' → same_user me c = same_user me' c'.
Proof. unfold key, same_user. intros H1 H2. injection H1; injection H2; intros; congruence. Qed.

Lemma counts_key me me' l l' : key me = key me' → map key l = map key l' →
  count_logins me l = count_logins me' l' ∧ count_fromip me l = count_fromip me' l'.
Proof.
  intros Hme Hl. unfold count_logins, count_fromip. split; apply (f_equal Z.of_nat), (filter_pairs _ _ _ _ key); [|done| |done].
  - intros. by apply same_user_key.
  - intros x y Hxy. rewrite (same_user_key me me' x y) by done. unfold key in *. simplify_eq.
    f_equal. by apply bool_decide_ext; split; congruence.
Qed.

Lemma logins_of_group_key w w' l l' g : w_users w' = w_users w → map key l = map key l' →
  logins_of_group w' l' g = logins_of_group w l g.
Proof.
  intros Hu Hl. unfold logins_of_group. do 2 f_equal. revert l' Hl.
  induction l as [|x l IH]; intros [|y l'] Hl; [done..|]. injection Hl as Hm Hi _ _ _ Hl. cbn [map]. f_equal; [|by apply IH].
  unfold client_groups. rewrite Hu. by rewrite Hm, Hi.
Qed.

(** The conditions stay true while the context keeps what they depend on. *)
Lemma login_allowed_keeps w i c c' m :
  w_contexts w !! i = Some c → keeps c c' → login_allowed w c m → login_allowed (with_contexts w (<[i := c']> (w_contexts w))) c' m.
Proof.
  intros Hi [Hk Ht] [Hd Hc Hl Hg Htls]. pose proof (map_key_insert _ _ _ _ Hi Hk) as Hm.
  destruct (counts_key c' c _ _ Hk Hm) as [H1 H2]. split; [done..| | |auto].
  - unfold within_limits. cbn [w_contexts with_contexts]. rewrite H1, H2, length_insert. exact Hl.
  - cbn [w_contexts with_contexts w_groups]. intros g a gr. rewrite (logins_of_group_key w _ (w_contexts w)) by done. apply Hg.
Qed.

Lemma address_allowed_keeps w l c c' m : key c' = key c → address_allowed w c m → address_allowed (with_contexts w l) c' m.
Proof.
  intros Hk (ip & ident & Hip & H). exists ip, ident. split; [|done]. unfold key in Hk. injection Hk as _ _ _ Hh Hf.
  unfold host_text in *. by rewrite Hf, Hh.
Qed.
End conditions.

(** ** Following the context *)

Definition moves (s s' : session) (c c' : client) : Prop :=
  w_contexts (ss_world s) !! ss_ctx s = Some c ∧ ss_ctx s' = ss_ctx s ∧
  ss_world s' = with_contexts (ss_world s) (<[ss_ctx s := c']> (w_contexts (ss_world s))).

Definition evolves {A} (m : M A) : Prop := ∀ s c a s',
  w_contexts (ss_world s) !! ss_ctx s = Some c → m s = Val (a, s') → ∃ c', keeps c c' ∧ moves s s' c c'.

Lemma keeps_refl c : keeps c c.
Proof. by split. Qed.
Lemma keeps_trans c1 c2 c3 : keeps c1 c2 → keeps c2 c3 → keeps c1 c3.
Proof. intros [H1 H2] [H3 H4]. split; [congruence|auto]. Qed.

Lemma moves_refl s c : w_contexts (ss_world s) !! ss_ctx s = Some c → moves s s c c.
Proof. intros H. split_and!; [done..|]. rewrite list_insert_id by done. by destruct (ss_world s). Qed.
Lemma moves_context s s' c c' : moves s s' c c' → w_contexts (ss_world s') !! ss_ctx s' = Some c'.
Proof. intros (H & -> & ->). apply list_lookup_insert_eq. by apply lookup_lt_Some in H. Qed.
Lemma moves_trans s1 s2 s3 c1 c2 c3 : moves s1 s2 c1 c2 → moves s2 s3 c2 c3 → moves s1 s3 c1 c3.
Proof.
  intros (H1 & Hx & Hw) (_ & Hx' & Hw'). split_and!; [done|congruence|]. rewrite Hw', Hw, Hx. unfold with_contexts. simpl.
  by rewrite list_insert_insert_eq.
Qed.
Lemma moves_wf s s' c c' : moves s s' c c' → world_wf (ss_world s) → world_wf (ss_world s').
Proof. intros (_ & _ & ->). done. Qed.

Lemma quiet_moves {A} (m : M A) s c a s' : quiet m → w_contexts (ss_world s) !! ss_ctx s = Some c → m s = Val (a, s') → moves s s' c c.
Proof.
  intros Hq Hc Hm. destruct (Hq _ _ _ Hm) as [Hw Hx]. destruct (moves_refl s c Hc) as (H1 & H2 & H3).
  split_and!; [done..|]. congruence.
Qed.

Lemma evolves_quiet {A} (m : M A) : quiet m → evolves m.
Proof. intros Hq s c a s' Hc Hm. exists c. split; [apply keeps_refl|by eapply quiet_moves]. Qed.

Lemma evolves_bind {A B} (m : M A) (f : A → M B) : evolves m → (∀ a, evolves (f a)) → evolves (m ≫= f).
Proof.
  intros Hm Hf s c b s' Hc (a & s1 & H1 & H2)%M_bind_Val. destruct (Hm s c a s1 Hc H1) as (c1 & Hk1 & Hmv1).
  destruct (Hf a s1 c1 b s' (moves_context _ _ _ _ Hmv1) H2) as (c2 & Hk2 & Hmv2). exists c2.
  split; [by eapply keeps_trans|by eapply moves_trans].
Qed.

Lemma evolves_upd_conn f : (∀ c, keeps c (set_conn c (f (c_conn c)))) → evolves (upd_conn f).
Proof.
  intros Hf s c a s' Hc. unfold upd_conn. rewrite Hc. run. intros [= <- <-]. exists (set_conn c (f (c_conn c))). by split; [|split].
Qed.

Lemma land_lor_tls x y : Z.land x CONNECTION_TLS ≠ 0 → Z.land (Z.lor x y) CONNECTION_TLS ≠ 0.
Proof.
  intros H. rewrite Z.land_lor_distr_l. intros H0. apply Z.lor_eq_0_iff in H0 as [H0 _]. done.
Qed.

Lemma land_ldiff_tls x : Z.land x CONNECTION_TLS ≠ 0 → Z.land (Z.ldiff x CONNECTION_UTF8) CONNECTION_TLS ≠ 0.
Proof.
  intros H. replace (Z.land (Z.ldiff x CONNECTION_UTF8) CONNECTION_TLS) with (Z.land x CONNECTION_TLS); [done|].
  apply Z.bits_inj'. intros n Hn. rewrite !Z.land_spec, Z.ldiff_spec.
  destruct (decide (n = 6)) as [->|Hne]; [by destruct (Z.testbit x 6)|].
  replace (Z.testbit CONNECTION_TLS n) with false; [by rewrite !andb_false_r|].
  symmetry. change CONNECTION_TLS with (2 ^ 6). apply Z.pow2_bits_false. lia.
Qed.

Create HintDb evolves.
#[export] Hint Resolve evolves_quiet keeps_refl : evolves.

Ltac solve_evolves :=
  repeat match goal with
  | |- evolves (_ ≫= _) => apply evolves_bind; [|intros]
  | |- evolves (if ?b then _ else _) => destruct b
  | |- evolves (match ?x with _ => _ end) => destruct x
  | |- evolves (upd_conn _) => apply evolves_upd_conn; intros ?c; split; [reflexivity|first [done|apply land_lor_tls|apply land_ldiff_tls]]
  | |- evolves _ => apply evolves_quiet; solve [solve_quiet]
  end.

Section evolution.
  Context (b : option wzd_backend_t) (cfg : login_config).
  Context (umask : Z) (lstat stat : list ascii → option fkind) (disk : permdisk) (vfs : list wzd_vfs_t)
          (hide : bool) (outle : Z → bool) (getcwd : option (list ascii)) (junk : list ascii)
          (socket_getipbyname gethostbyaddr : list ascii → option (list ascii)) (tls_auth iptohostname : list ascii → Z).

Lemma evolves_show_path buf : evolves (show_path buf).
Proof. unfold show_path. solve_evolves. Qed.
#[local] Hint Resolve evolves_show_path : evolves.

Lemma evolves_chdir p : evolves (do_chdir b umask lstat stat disk vfs hide outle getcwd junk p).
Proof. unfold do_chdir. solve_evolves; auto with evolves. Qed.

Lemma evolves_opts p : evolves (do_opts p).
Proof. unfold do_opts, opts_mlst, opts_error. solve_evolves. Qed.

End evolution.

(** ** USER *)

Lemma read_groups_Val n i l r : read_groups n i l = Val r → r = take n (drop i l).
Proof.
  revert i r. induction n as [|n IH]; intros i r; cbn [read_groups]; [by intros [= <-]|].
  intros (g & Hg%deref_Val & H)%outcome_bind_Val. apply outcome_bind_Val in H as (gs & Hgs & H). injection H as <-.
  rewrite (IH _ _ Hgs). by rewrite (drop_S l g i Hg).
Qed.

Lemma user_groups_Val u r : user_groups u = Val r → r = member_of u.
Proof. unfold user_groups. intros H%read_groups_Val. done. Qed.

Lemma occurrences_app g l l' : occurrences g (l ++ l') = occurrences g l + occurrences g l'.
Proof. unfold occurrences. rewrite List.filter_app, length_app. lia. Qed.
Lemma occurrences_cons g x l : occurrences g (x :: l) = (if g =? x then 1 else 0) + occurrences g l.
Proof. unfold occurrences. simpl. destruct (g =? x); simpl; lia. Qed.

Lemma u32_add x y : u32 (u32 x + y) = u32 (x + y).
Proof. unfold u32. by rewrite Zplus_mod_idemp_l. Qed.

Definition raised (mine counts theirs : list Z) : list Z := zip_with (λ g n, u32 (n + occurrences g theirs)) mine counts.

Lemma raised_raised mine counts l l' : raised mine (raised mine counts l) l' = raised mine counts (l ++ l').
Proof.
  unfold raised. revert counts. induction mine as [|g mine IH]; intros [|n counts]; [done..|]. simpl. f_equal; [|apply IH].
  rewrite u32_add, occurrences_app. f_equal. lia.
Qed.

Lemma raised_nil mine counts : length mine = length counts → Forall (λ n, 0 ≤ n < 2 ^ 32) counts → raised mine counts [] = counts.
Proof.
  unfold raised. revert counts. induction mine as [|g mine IH]; intros [|n counts] Hl Hc; [done..|]. apply Forall_cons in Hc as [Hn Hc].
  simpl. f_equal; [|apply IH; [by injection Hl|done]]. unfold u32, occurrences. simpl. rewrite Z.add_0_r. by apply Z.mod_small.
Qed.

Lemma raised_range mine counts l : Forall (λ n, 0 ≤ n < 2 ^ 32) (raised mine counts l).
Proof.
  unfold raised. revert counts. induction mine as [|g mine IH]; intros [|n counts]; simpl; try constructor; [|apply IH].
  apply Z.mod_pos_bound. lia.
Qed.

Lemma length_raised mine counts l : length mine = length counts → length (raised mine counts l) = length mine.
Proof. intros H. unfold raised. rewrite length_zip_with. lia. Qed.

Lemma bump_raised mine counts g :
  length mine = length counts → Forall (λ n, 0 ≤ n < 2 ^ 32) counts → bump mine counts g = raised mine counts [g].
Proof.
  revert counts. unfold bump, raised. induction mine as [|m mine IH]; intros [|n counts] Hl Hc; [done..|].
  apply Forall_cons in Hc as [Hn Hc]. simpl. f_equal; [|apply IH; [by injection Hl|done]].
  rewrite occurrences_cons. change (occurrences m []) with 0. rewrite (Z.eqb_sym m g). destruct (g =? m); [f_equal; lia|].
  symmetry. unfold u32. rewrite Z.mod_small; lia.
Qed.

Lemma foldl_bump mine counts theirs :
  length mine = length counts → Forall (λ n, 0 ≤ n < 2 ^ 32) counts → foldl (bump mine) counts theirs = raised mine counts theirs.
Proof.
  revert counts. induction theirs as [|g theirs IH]; intros counts Hl Hc; [symmetry; by apply raised_nil|]. cbn [foldl].
  rewrite bump_raised by done.
  rewrite IH; [apply (raised_raised mine counts [g])|by rewrite length_raised|apply raised_range].
Qed.

Lemma group_at_Val a s g s' : group_at a s = Val (g, s') ↔ r_heap (w_groups (ss_world s)) !! a = Some g ∧ s' = s.
Proof. unfold group_at, ask. destruct (_ !! a) as [v|]; simpl; naive_solver. Qed.

Lemma my_context_Val s c s' : my_context s = Val (c, s') ↔ w_contexts (ss_world s) !! ss_ctx s = Some c ∧ s' = s.
Proof. unfold my_context. destruct (_ !! _); simpl; naive_solver. Qed.

Section user.
  Context (changepass : list ascii → list ascii → list ascii → nat → Z * list ascii)
          (check_auth : list ascii → list ascii → list ascii → Z).
  #[local] Abbreviation pb := (Some (plaintext changepass check_auth)).
  Context (cfg : login_config) (socket_getipbyname gethostbyaddr : list ascii → option (list ascii)).

(** What the theorems need of the users and groups. *)
Definition login_world (w : world) : Prop := world_wf w ∧ 0 < r_max (w_groups w) ∧ ids_unsigned w.

Lemma moves_login_world s s' c c' : 0 ≤ c_userid c' → moves s s' c c' → login_world (ss_world s) → login_world (ss_world s').
Proof.
  intros Hid (_ & _ & ->) (Hwf & Hm & Hc & Hu). split_and!; [done..|]. split; [|done].
  cbn [w_contexts with_contexts]. by apply Forall_insert.
Qed.

Lemma count_groups_Val mine l counts s counts' s' :
  world_wf (ss_world s) → Forall (λ c, 0 ≤ c_userid c) l →
  length mine = length counts → Forall (λ n, 0 ≤ n < 2 ^ 32) counts → count_groups pb mine l counts s = Val (counts', s') →
  s' = s ∧ counts' = raised mine counts (concat (map (client_groups (ss_world s)) l)).
Proof.
  intros Hwf Hl. revert counts. induction Hl as [|c l Hc _ IH]; intros counts Hlen Hr; cbn [count_groups].
  { intros [= <- <-]. split; [done|]. symmetry. by apply raised_nil. }
  cbn [map concat]. unfold client_groups at 1. destruct (c_magic c); [|by intros; apply IH].
  intros H. step H p s1 H1. apply getUserByID_Val in H1 as [-> ->]; [|done..].
  destruct (registered _ _) as [a|]; [|by apply IH].
  step H u s1 H1. apply user_at_Val in H1 as [Hu ->]. step H theirs s1 H1. apply lift_Val in H1 as [->%user_groups_Val ->].
  rewrite foldl_bump in H by done. rewrite Hu. apply IH in H as [-> ->]; [|by rewrite length_raised|apply raised_range].
  split; [done|]. apply raised_raised.
Qed.

Lemma group_full_Val mine counts s r s' :
  reg_wf (w_groups (ss_world s)) → 0 < r_max (w_groups (ss_world s)) → Forall (λ g, 0 ≤ g) mine →
  group_full pb mine counts s = Val (r, s') →
  s' = s ∧ (r = false → ∀ k g n a gr, mine !! k = Some g → counts !! k = Some n → registered (w_groups (ss_world s)) g = Some a →
    r_heap (w_groups (ss_world s)) !! a = Some gr → g_num_logins gr = 0 ∨ n ≤ g_num_logins gr).
Proof.
  intros Hwf Hm Hmine. revert counts. induction Hmine as [|g mine Hg _ IH]; intros [|n counts]; cbn [group_full];
    [by intros [= <- <-]; split; [done|]; intros _ [|k]..|].
  intros H. step H p s1 H1. apply getGroupByID_Val in H1 as [-> ->]; [|done..].
  destruct (registered (w_groups (ss_world s)) g) as [a|] eqn:Hreg.
  - step H gr s1 H1. apply group_at_Val in H1 as [Hgr ->].
    destruct (negb _ && _) eqn:Hfull; [by injection H as <- <-|]. apply IH in H as [-> IH2]. split; [done|].
    intros Hr [|k] g' n' a' gr' Hk Hn Ha Hh; [|by eapply IH2]. simplify_eq/=.
    destruct (Z.eqb_spec (g_num_logins gr) 0); [by left|]. right. simpl in Hfull. apply Z.ltb_ge in Hfull. lia.
  - apply IH in H as [-> IH2]. split; [done|]. intros Hr [|k] g' n' a' gr' Hk Hn Ha Hh; [|by eapply IH2]. simplify_eq/=.
Qed.

Lemma backend_validate_login_Val name s c ret s' :
  world_wf (ss_world s) → w_contexts (ss_world s) !! ss_ctx s = Some c →
  Login.backend_validate_login pb name s = Val (ret, s') →
  ret ≠ 0 ∧ s' = s ∨ ret = 0 ∧ ∃ me m, owner (ss_world s) name me m ∧ moves s s' c (set_userid c (uid m)).
Proof.
  intros Hwf Hc H. unfold Login.backend_validate_login in H. step H r s1 H1. step H t s2 H2. injection H as <- <-.
  unfold on_world, validate_login in H1. simpl in H1.
  destruct (FCN_VALIDATE_LOGIN name (ss_world s)) as [i|] eqn:Hi; [|done]. simpl in H1. unfold fetch_validated in H1.
  destruct (Z.eqb_spec i INVALID_USER) as [->|Hne]; simpl in H1; injection H1 as <- <-; rewrite set_world_id in H2; simpl in H2.
  - injection H2 as <- <-. by left.
  - right. split; [done|]. rewrite Hc in H2. run in H2. injection H2 as <- <-.
    destruct (FCN_VALIDATE_LOGIN_Val (ss_world s) name i Hwf Hi Hne) as (me & m & Ho & ->). exists me, m. by split; [|split].
Qed.
Lemma contexts_Val s l s' : contexts s = Val (l, s') ↔ l = w_contexts (ss_world s) ∧ s' = s.
Proof. unfold contexts, ask. simpl. naive_solver. Qed.

Lemma check_tls_forced_Val s c me m r s' :
  login_world (ss_world s) → w_contexts (ss_world s) !! ss_ctx s = Some c → 0 ≤ c_userid c →
  registered (w_users (ss_world s)) (c_userid c) = Some me → r_heap (w_users (ss_world s)) !! me = Some m →
  check_tls_forced pb s = Val (r, s') → s' = s ∧ (r = false → flagged FLAG_TLS m = true → tls_on c).
Proof.
  intros (Hwf & _) Hc Hid Hreg Hm H. unfold check_tls_forced in H. step H c' s1 H1. apply my_context_Val in H1 as [Hc' ->].
  assert (c' = c) as -> by congruence. step H p s1 H1. apply getUserByID_Val in H1 as [-> ->]; [|done..].
  step H a s1 H1. apply lift_Val in H1 as [Ha%deref_Val ->]. assert (a = me) as -> by congruence.
  step H f s1 H1. apply is_flagged_Val in H1 as (u & Hu & Hf%has_flag_Val & ->). assert (u = m) as -> by congruence.
  injection H as <- <-. split; [done|]. rewrite Hf. intros Hr Ht. rewrite Ht in Hr. simpl in Hr. by apply Z.eqb_neq in Hr.
Qed.

(** The limits, once the checks on them have passed. *)
Lemma limits_passed w c m (always siteop : bool) :
  let bypass := always || siteop in
  negb bypass && negb (max_users cfg =? 0) && (max_users cfg <? Z.of_nat (length (w_contexts w))) = false →
  negb bypass && negb (u_num_logins m =? 0) && (u_num_logins m <=? count_logins c (w_contexts w)) = false →
  negb bypass && negb (logins_per_ip m =? 0) && (logins_per_ip m <=? count_fromip c (w_contexts w)) = false →
  siteop = true ∨ always = true ∨ within_limits cfg w c m.
Proof.
  destruct siteop; [by left|]. destruct always; [by right; left|]. cbn [orb negb andb]. intros H1 H2 H3. right; right.
  unfold within_limits. split_and!; lia.
Qed.

Lemma do_user_Val name s c ret s' :
  login_world (ss_world s) → w_contexts (ss_world s) !! ss_ctx s = Some c → do_user pb cfg name s = Val (ret, s') →
  ret = E_USER_REJECTED ∧ s' = s ∨
  ret ≠ E_USER_REJECTED ∧ ∃ me m, owner (ss_world s) name me m ∧ moves s s' c (set_userid c (uid m)) ∧
    (ret = E_USER_DELETED → flagged FLAG_DELETED m = true) ∧
    (ret = E_OK → login_allowed cfg (ss_world s') (set_userid c (uid m)) m).
Proof.
  intros Hlw Hc H. unfold do_user in H. step H r s1 H1. apply (backend_validate_login_Val name s c) in H1; [|by destruct Hlw|done].
  destruct H1 as [[Hr ->]|[-> (me & m & Ho & Hmv)]].
  { left. replace (r =? 0) with false in H by (symmetry; by apply Z.eqb_neq). by injection H as <- <-. }
  right. pose proof Ho as (_ & Hm & Hreg & _). set (c1 := set_userid c (uid m)) in *.
  destruct (registered_range _ _ _ (proj1 Hlw) Hreg) as [Hrange _].
  assert (Hlw1 : login_world (ss_world s1)) by (eapply moves_login_world; [|done..]; simpl; lia).
  pose proof (moves_context _ _ _ _ Hmv) as Hc1.
  assert (Husers : w_users (ss_world s1) = w_users (ss_world s)) by (by destruct Hmv as (_ & _ & ->)).
  rewrite <- Husers in Hm, Hreg. cbn [Z.eqb negb] in H.
  step H c' s2 H1. apply my_context_Val in H1 as [Hc' ->]. assert (c' = c1) as -> by congruence.
  step H p s2 H1. apply getUserByID_Val in H1 as [-> ->]; [|by destruct Hlw1|simpl; lia].
  change (c_userid c1) with (uid m) in H. rewrite Hreg in H.
  assert (Hflag : ∀ x s2 f s3, s2 = s1 → is_flagged x me s2 = Val (f, s3) → s3 = s1 ∧ f = flagged x m).
  { intros x s2 f s3 -> (u & Hu & Hf%has_flag_Val & ->)%is_flagged_Val. split; [done|]. congruence. }
  assert (Hfin : ret ≠ E_USER_REJECTED → s' = s1 → ret ≠ E_OK → (ret = E_USER_DELETED → flagged FLAG_DELETED m = true) →
    ret ≠ E_USER_REJECTED ∧ ∃ me m, owner (ss_world s) name me m ∧ moves s s' c (set_userid c (uid m)) ∧
    (ret = E_USER_DELETED → flagged FLAG_DELETED m = true) ∧
    (ret = E_OK → login_allowed cfg (ss_world s') (set_userid c (uid m)) m)).
  { intros ? -> ? ?. split; [done|]. exists me, m. by split_and!. }
  step H del s2 H1. apply Hflag in H1 as [-> Hdel]; [|done].
  destruct del; [injection H as <- <-; by apply Hfin|].
  step H sop s2 H1. apply Hflag in H1 as [-> Hsop]; [|done].
  destruct (site_closed cfg && negb sop) eqn:Hclosed; [injection H as <- <-; by apply Hfin|].
  step H alw s2 H1. apply Hflag in H1 as [-> Halw]; [|done].
  step H u s2 H1. apply user_at_Val in H1 as [Hu ->]. assert (u = m) as -> by congruence. clear Hu.
  step H l s2 H1. apply contexts_Val in H1 as [-> ->]. cbn zeta in H.
  destruct (negb (alw || sop) && negb (max_users cfg =? 0) && _) eqn:L1; [injection H as <- <-; by apply Hfin|].
  destruct (negb (alw || sop) && negb (u_num_logins m =? 0) && _) eqn:L2; [injection H as <- <-; by apply Hfin|].
  destruct (negb (alw || sop) && negb (logins_per_ip m =? 0) && _) eqn:L3; [injection H as <- <-; by apply Hfin|].
  pose proof (limits_passed (ss_world s1) c1 m alw sop L1 L2 L3) as Hlim.
  step H mine s2 H1. apply lift_Val in H1 as [->%user_groups_Val ->].
  destruct Hlw1 as (Hwf1 & Hgm1 & Hctx1 & Hgr1). pose proof (Hgr1 _ _ Hm) as Hg0.
  step H counts s2 H1. apply count_groups_Val in H1 as [-> ->]; [|done..|by rewrite length_map|apply Forall_fmap, Forall_true; simpl; lia].
  step H full s2 H1. apply group_full_Val in H1 as [-> Hfull]; [|by destruct Hwf1 as (_ & _ & ?)|done|by apply Forall_take].
  destruct full; [injection H as <- <-; by apply Hfin|].
  step H forced s2 H1. apply (check_tls_forced_Val s1 c1 me m) in H1 as [-> Hforced]; [|exact (conj Hwf1 (conj Hgm1 (conj Hctx1 Hgr1)))|done|simpl; lia|done..].
  destruct forced; injection H as <- <-; [by apply Hfin|]. split; [done|]. exists me, m. split_and!; [done..|]. intros _.
  split; [done| |naive_solver| |by apply Hforced].
  - intros Hcl. rewrite Hcl in Hclosed. simpl in Hclosed. rewrite <- Hsop. by destruct sop.
  - intros g a gr Hg Ha Hgr. apply list_elem_of_lookup in Hg as [k Hk].
    assert (Hn : raised (member_of m) (map (λ _, 0) (member_of m)) (concat (map (client_groups (ss_world s1)) (w_contexts (ss_world s1)))) !! k
                 = Some (u32 (logins_of_group (ss_world s1) (w_contexts (ss_world s1)) g))).
    { unfold raised. apply lookup_zip_with_Some. exists g, 0. split_and!; [done..|].
      change (map ?f) with (fmap (M:=list) f). by rewrite list_lookup_fmap, Hk. }
    exact (Hfull eq_refl k g _ a gr Hk Hn Ha Hgr).
Qed.
(** ** The address, and PASS *)

Lemma group_allows_Val gs ip ident s r s' :
  reg_wf (w_groups (ss_world s)) → 0 < r_max (w_groups (ss_world s)) → Forall (λ g, 0 ≤ g) gs →
  group_allows pb socket_getipbyname gethostbyaddr gs ip ident s = Val (r, s') →
  s' = s ∧ (r = true → ∃ g a gr, g ∈ gs ∧ registered (w_groups (ss_world s)) g = Some a ∧ r_heap (w_groups (ss_world s)) !! a = Some gr ∧
    ip_list_check_ident socket_getipbyname gethostbyaddr (g_ip_list gr) ip ident = 1).
Proof.
  intros Hwf Hm Hgs. induction Hgs as [|g gs Hg _ IH]; cbn [group_allows]; [by intros [= <- <-]|].
  intros H. step H p s1 H1. apply getGroupByID_Val in H1 as [-> ->]; [|done..].
  assert (Hrest : group_allows pb socket_getipbyname gethostbyaddr gs ip ident s = Val (r, s') →
    s' = s ∧ (r = true → ∃ g' a gr, g' ∈ g :: gs ∧ registered (w_groups (ss_world s)) g' = Some a ∧ r_heap (w_groups (ss_world s)) !! a = Some gr ∧
    ip_list_check_ident socket_getipbyname gethostbyaddr (g_ip_list gr) ip ident = 1)).
  { intros [-> Hr]%IH. split; [done|]. intros (g' & a & gr & ? & ?)%Hr. exists g', a, gr. split; [by right|done]. }
  destruct (registered (w_groups (ss_world s)) g) as [a|] eqn:Ha; [|by apply Hrest].
  step H gr s1 H1. apply group_at_Val in H1 as [Hgr ->].
  destruct (Z.eqb_spec (ip_list_check_ident socket_getipbyname gethostbyaddr (g_ip_list gr) ip ident) 1) as [He|]; [|by apply Hrest].
  injection H as <- <-. split; [done|]. intros _. exists g, a, gr. split; [by left|done].
Qed.

Lemma do_user_ip_Val s c ret s' :
  login_world (ss_world s) → w_contexts (ss_world s) !! ss_ctx s = Some c → 0 ≤ c_userid c →
  do_user_ip pb cfg socket_getipbyname gethostbyaddr s = Val (ret, s') →
  s' = s ∧ (ret = E_OK → ∀ me m, registered (w_users (ss_world s)) (c_userid c) = Some me → r_heap (w_users (ss_world s)) !! me = Some m →
    address_allowed socket_getipbyname gethostbyaddr (ss_world s) c m).
Proof.
  intros (Hwf & Hgm & _ & Hgr) Hc Hid H. unfold do_user_ip in H. step H c' s1 H1. apply my_context_Val in H1 as [Hc' ->].
  assert (c' = c) as -> by congruence. step H p s1 H1. apply getUserByID_Val in H1 as [-> ->]; [|done..].
  destruct (registered (w_users (ss_world s)) (c_userid c)) as [me|]; [|by injection H as <- <-].
  step H m s1 H1. apply user_at_Val in H1 as [Hm ->]. step H ip s1 H1. apply lift_Val in H1 as [Hip ->].
  destruct (Z.ltb_spec 0 (ip_list_check_ident socket_getipbyname gethostbyaddr (u_ip_list m) ip (cn_ident (c_conn c)))) as [Hok|].
  { injection H as <- <-. split; [done|]. intros _ me' m' [= <-] Hm'. rewrite Hm in Hm'. injection Hm' as <-.
    exists ip, (cn_ident (c_conn c)). split; [done|by left]. }
  step H gs s1 H1. apply lift_Val in H1 as [->%user_groups_Val ->]. step H ok s1 H1.
  apply group_allows_Val in H1 as [-> Hok]; [|by destruct Hwf as (_ & _ & ?)|done|apply Forall_take; by eapply Hgr].
  injection H as <- <-. split; [done|]. destruct ok; [|done]. intros _ me' m' [= <-] Hm'. rewrite Hm in Hm'. injection Hm' as <-.
  exists ip, (cn_ident (c_conn c)). split; [done|right]. by apply Hok.
Qed.

Lemma backend_validate_pass_Val name pass s c ret s' :
  w_contexts (ss_world s) !! ss_ctx s = Some c → Login.backend_validate_pass pb name pass s = Val (ret, s') →
  ret ≠ 0 ∧ s' = s ∨
  ret = 0 ∧ ∃ i, FCN_VALIDATE_PASS check_auth name pass (ss_world s) = Val i ∧ i ≠ INVALID_USER ∧ moves s s' c (set_userid c i).
Proof.
  intros Hc H. unfold Login.backend_validate_pass in H. step H r s1 H1. step H t s2 H2. injection H as <- <-.
  unfold on_world, validate_pass in H1. simpl in H1.
  destruct (FCN_VALIDATE_PASS check_auth name pass (ss_world s)) as [i|] eqn:Hi; [|done]. simpl in H1. unfold fetch_validated in H1.
  destruct (Z.eqb_spec i INVALID_USER) as [->|Hne]; simpl in H1; injection H1 as <- <-; rewrite set_world_id in H2; simpl in H2.
  - injection H2 as <- <-. by left.
  - right. split; [done|]. rewrite Hc in H2. run in H2. injection H2 as <- <-. exists i. by split_and!.
Qed.
End user.

(** ** The dialogue *)

#[local] Abbreviation verdict_or_vars := (Z + login_vars)%type.

Section dialogue.
  Context (changepass : list ascii → list ascii → list ascii → nat → Z * list ascii)
          (check_auth : list ascii → list ascii → list ascii → Z).
  #[local] Abbreviation pb := (Some (plaintext changepass check_auth)).
  Context (cfg : login_config).
  Context (umask : Z) (lstat stat : list ascii → option fkind) (disk : permdisk) (vfs : list wzd_vfs_t)
          (hide : bool) (outle : Z → bool) (getcwd : option (list ascii)) (junk : list ascii)
          (socket_getipbyname gethostbyaddr : list ascii → option (list ascii)) (tls_auth iptohostname : list ascii → Z).

(** The password was accepted. *)
Definition pass_accepted (m : wzd_user_t) (name pass : list ascii) : Prop :=
  strcaseeq (cstring (userpass m)) (str "%") = true ∨ check_auth name pass (cstring (userpass m)) = 1.

Lemma set_userid_own c : set_userid c (c_userid c) = c.
Proof. by destruct c. Qed.

Lemma do_pass_Val name pass s c ret s' :
  login_world (ss_world s) → w_contexts (ss_world s) !! ss_ctx s = Some c → 0 ≤ c_userid c →
  do_pass pb umask lstat stat disk vfs hide outle getcwd junk name pass s = Val (ret, s') →
  ∃ c', moves s s' c c' ∧
    (ret = E_OK → ∃ me m, registered (w_users (ss_world s)) (c_userid c) = Some me ∧ r_heap (w_users (ss_world s)) !! me = Some m ∧
      flagged FLAG_DELETED m = false ∧
      ∀ me' m', owner (ss_world s) name me' m' → uid m' = c_userid c → keeps c c' ∧ pass_accepted m' name pass).
Proof.
  intros Hlw Hc Hid H. unfold do_pass in H. step H c0 s1 H1. apply my_context_Val in H1 as [Hc0 ->].
  assert (c0 = c) as -> by congruence. step H p s1 H1. apply getUserByID_Val in H1 as [-> ->]; [|by destruct Hlw|done].
  destruct (registered (w_users (ss_world s)) (c_userid c)) as [me|] eqn:Hreg.
  2: { injection H as <- <-. exists c. split; [by apply moves_refl|done]. }
  step H del s1 H1. apply is_flagged_Val in H1 as (m & Hm & Hdel%has_flag_Val & ->).
  destruct del; [injection H as <- <-; exists c; split; [by apply moves_refl|done]|].
  step H r s1 H1. apply (backend_validate_pass_Val _ _ _ _ _ c) in H1; [|done].
  destruct H1 as [[Hr ->]|[-> (i & Hi & Hne & Hmv)]].
  { replace (r =? 0) with false in H by (symmetry; by apply Z.eqb_neq). injection H as <- <-. exists c. split; [by apply moves_refl|done]. }
  cbn [Z.eqb negb] in H.
  assert (Hev : evolves (upd_conn (λ cn, set_path cn [SLASH]);;
      ret ← do_chdir pb umask lstat stat disk vfs hide outle getcwd junk (Some [SLASH]);
      mret (if bool_decide (ret = E_OK) then E_OK else E_USER_NO_HOME))).
  { apply evolves_bind; [solve_evolves|intros _]. apply evolves_bind; [apply evolves_chdir|intros ?; solve_evolves]. }
  destruct (Hev _ _ _ _ (moves_context _ _ _ _ Hmv) H) as (c2 & Hk & Hmv2).
  exists c2. split; [by eapply moves_trans|]. intros _. exists me, m. split_and!; [done..|].
  intros me' m' Ho Hu. destruct (FCN_VALIDATE_PASS_Val _ _ _ _ _ _ _ Ho Hi Hne) as [-> Hacc]. split; [|done].
  by rewrite Hu, set_userid_own in Hk.
Qed.
(** Between two lines: before USER nobody is logged in; after it the name was
    rejected, or it belongs to a deleted user, or the checks have passed. *)
Record login_inv (v : login_vars) (s : session) (c : client) : Prop := {
  li_world : login_world (ss_world s);
  li_context : w_contexts (ss_world s) !! ss_ctx s = Some c;
  li_tls : tls_ok v = true → tls_on c;
  li_user :
    c_userid c = INVALID_USER ∨
    user_ok v = true ∧ ∃ me m, owner (ss_world s) (v_username v) me m ∧ c_userid c = uid m ∧
      (flagged FLAG_DELETED m = true ∨
       login_allowed cfg (ss_world s) c m ∧ address_allowed socket_getipbyname gethostbyaddr (ss_world s) c m) }.

(** The line of a read: the command it asks for, and its argument. *)
Definition line_asks (line : list ascii) (cmd : Z) (arg : list ascii) : Prop :=
  identify_token (strtok is_delim line).1 = Val cmd ∧ (strtok is_eol (strtok is_delim line).2).1 = Some arg.
Definition asks (data : list ascii) (cmd : Z) (arg : list ascii) : Prop := line_asks (chop (cstring (data ++ [NUL]))) cmd arg.

(** What a login with a name and a password stands for. *)
Definition logged_in (name pass : list ascii) (s : session) (c : client) : Prop :=
  ∃ me m, owner (ss_world s) name me m ∧ c_userid c = uid m ∧ pass_accepted m name pass ∧
    login_allowed cfg (ss_world s) c m ∧ address_allowed socket_getipbyname gethostbyaddr (ss_world s) c m ∧
    (tls_type cfg = TLS_STRICT_EXPLICIT → tls_on c).

(** After a line; [N] and [Q] say of a name, of a password, that the line gave
    it. *)
Definition line_post (v : login_vars) (N Q : list ascii → Prop) (s : session) (c : client) (r : verdict_or_vars) (s' : session) : Prop :=
  ∃ c', moves s s' c c' ∧
    match r with
    | inl z => z = 0 → ∃ pass, Q pass ∧ user_ok v = true ∧ logged_in (v_username v) pass s' c'
    | inr v' => login_inv v' s' c' ∧ (user_ok v' = true → user_ok v = true ∧ v_username v' = v_username v ∨ N (v_username v'))
    end.

Lemma login_inv_id v s c : login_inv v s c → 0 ≤ c_userid c.
Proof.
  intros [(Hwf & _) _ _ [->|(_ & me & m & (_ & _ & Hreg & _) & -> & _)]]; [done|].
  by destruct (registered_range _ _ _ Hwf Hreg) as [[? _] _].
Qed.

Lemma moves_owner s s' c c' name me m : moves s s' c c' → owner (ss_world s) name me m → owner (ss_world s') name me m.
Proof. by intros (_ & _ & ->). Qed.

Lemma keeps_userid c c' : keeps c c' → c_userid c' = c_userid c.
Proof. intros [Hk _]. unfold key in Hk. by injection Hk. Qed.

Lemma login_inv_moves v v' s s' c c' :
  login_inv v s c → moves s s' c c' → keeps c c' → user_ok v' = user_ok v → v_username v' = v_username v →
  (tls_ok v' = true → tls_ok v = true ∨ tls_on c') → login_inv v' s' c'.
Proof.
  intros Hinv Hmv Hk Huo Hun Htls. pose proof (login_inv_id _ _ _ Hinv) as Hid. destruct Hinv as [Hlw Hc Ht Hu].
  pose proof (keeps_userid _ _ Hk) as Hui. split.
  - eapply moves_login_world; [|done..]. lia.
  - by eapply moves_context.
  - intros Hv. destruct (Htls Hv) as [Hv'|]; [|done]. apply Hk. auto.
  - rewrite Hui, Huo, Hun. destruct Hu as [?|(? & me & m & Ho & Hm & Hd)]; [by left|right]. split; [done|]. exists me, m.
    split_and!; [by eapply moves_owner|done|]. destruct Hd as [?|[Hla Haa]]; [by left|right]. destruct Hmv as (_ & _ & ->).
    split; [by apply (login_allowed_keeps cfg (ss_world s) (ss_ctx s) c)|by eapply address_allowed_keeps; [apply Hk|]].
Qed.

(** Commands that neither check names nor passwords. *)
Definition minor (v : login_vars) (m : M verdict_or_vars) : Prop := ∀ s c r s',
  w_contexts (ss_world s) !! ss_ctx s = Some c → m s = Val (r, s') → ∃ c', keeps c c' ∧ moves s s' c c' ∧
    match r with
    | inl z => z ≠ 0
    | inr v' => user_ok v' = user_ok v ∧ v_username v' = v_username v ∧ (tls_ok v' = true → tls_ok v = true ∨ tls_on c')
    end.

Lemma minor_post v m N Q s c r s' : minor v m → login_inv v s c → m s = Val (r, s') → line_post v N Q s c r s'.
Proof.
  intros Hm Hi H. destruct (Hm s c r s' (li_context _ _ _ Hi) H) as (c' & Hk & Hmv & Hr). exists c'. split; [done|].
  destruct r; [done|]. destruct Hr as (Huo & ? & ?). split; [by eapply login_inv_moves|]. rewrite Huo. by left.
Qed.

Lemma minor_bind {A} v (q : M A) f : evolves q → (∀ a, minor v (f a)) → minor v (q ≫= f).
Proof.
  intros Hq Hf s c r s' Hc (a & s1 & H1 & H2)%M_bind_Val. destruct (Hq s c a s1 Hc H1) as (c1 & Hk1 & Hmv1).
  destruct (Hf a s1 c1 r s' (moves_context _ _ _ _ Hmv1) H2) as (c2 & Hk2 & Hmv2 & Hr). exists c2.
  split_and!; [by eapply keeps_trans|by eapply moves_trans|done].
Qed.

Lemma minor_refuse v code text : minor v (refuse code text).
Proof.
  intros s c r s' Hc H. exists c. split; [apply keeps_refl|]. split.
  - eapply quiet_moves; [|done..]. unfold refuse. solve_quiet.
  - unfold refuse in H. step H t s1 H1. by injection H as <- <-.
Qed.

Lemma minor_inl v : minor v (mret (inl 1)).
Proof. intros s c r s' Hc [= <- <-]. exists c. split_and!; [apply keeps_refl|by apply moves_refl|done]. Qed.

Lemma minor_inr v v' : user_ok v' = user_ok v → v_username v' = v_username v → tls_ok v' = tls_ok v → minor v (mret (inr v')).
Proof.
  intros ? ? Ht s c r s' Hc [= <- <-]. exists c. split_and!; [apply keeps_refl|by apply moves_refl|done..|]. rewrite Ht. by left.
Qed.

Lemma minor_continue v q : evolves q → minor v (continue v q).
Proof. intros Hq. unfold continue. apply minor_bind; [done|intros _]. by apply minor_inr. Qed.

Lemma minor_auth v token : minor v (login_auth cfg tls_auth v token).
Proof.
  unfold login_auth. destruct token as [t|]; [|apply minor_bind; [solve_evolves|intros _; apply minor_inl]].
  destruct (disable_tls cfg); [apply minor_continue; solve_evolves|]. cbn zeta.
  apply minor_bind; [solve_evolves|intros _]. apply minor_bind; [solve_evolves|intros _].
  destruct (negb _); [apply minor_refuse|]. unfold continue. intros s c r s' Hc H. step H u s1 H1. injection H as <- <-.
  unfold upd_conn in H1. rewrite Hc in H1. run in H1. injection H1 as <- <-.
  exists (set_conn c (set_cn_flags (c_conn c) (Z.lor (cn_flags (c_conn c)) CONNECTION_TLS))).
  split; [split; [done|apply land_lor_tls]|]. split; [by split|]. split_and!; [done..|]. intros _. right. unfold tls_on. cbn [c_conn set_conn cn_flags set_cn_flags].
  rewrite Z.land_lor_distr_l, Z.land_diag. intros [_ H]%Z.lor_eq_0_iff. done.
Qed.

Lemma minor_prot v token : minor v (login_prot v token).
Proof.
  unfold login_prot. apply minor_bind; [solve_evolves|intros t].
  assert (Hset : ∀ mode, minor v (upd_conn (λ cn, set_data_mode cn mode);; continue v (reply 200 "PROT command okay"))).
  { intros mode. apply minor_bind; [solve_evolves|intros _]. apply minor_continue. solve_evolves. }
  destruct (strcaseeq _ _); [apply Hset|]. destruct (strcaseeq _ _); [apply Hset|]. apply minor_continue. unfold reply2. solve_evolves.
Qed.

Lemma minor_idnt v rest : minor v (login_idnt cfg socket_getipbyname gethostbyaddr iptohostname v rest).
Proof.
  unfold login_idnt. apply minor_bind; [solve_evolves|intros c]. destruct (negb _); [apply minor_refuse|].
  apply minor_bind; [solve_evolves|intros ip]. destruct (negb _); [apply minor_refuse|].
  destruct (strtok _ rest) as [ident rest1]. destruct (strtok _ rest1) as [address rest2].
  destruct ident, address, rest2; try apply minor_refuse. destruct (negb _); [apply minor_refuse|]. apply minor_continue. solve_evolves.
Qed.

(** After a name that [do_user] has not refused outright. *)
Definition name_checked (s : session) (c : client) (name : list ascii) : Prop :=
  c_userid c = INVALID_USER ∨ ∃ me m, owner (ss_world s) name me m ∧ c_userid c = uid m ∧
    (flagged FLAG_DELETED m = true ∨ login_allowed cfg (ss_world s) c m).

Lemma accept_name_post v name (N Q : list ascii → Prop) s c r s' :
  N name → login_world (ss_world s) → w_contexts (ss_world s) !! ss_ctx s = Some c → 0 ≤ c_userid c → (tls_ok v = true → tls_on c) →
  name_checked s c name → accept_name pb cfg socket_getipbyname gethostbyaddr v name s = Val (r, s') → line_post v N Q s c r s'.
Proof.
  intros HN Hlw Hc Hid Ht Hn H. unfold accept_name in H. step H ret s1 H1.
  apply (do_user_ip_Val _ _ _ _ _ _ c) in H1 as [-> Hip]; [|done..].
  case_bool_decide as Hret; cbn [negb] in H.
  2: { destruct (minor_refuse v _ _ s c r s' Hc H) as (c' & _ & Hmv & Hr). exists c'. split; [done|]. by destruct r. }
  step H un s1 H1. apply lift_Val in H1 as [Hun ->]. destruct (_ <? _)%nat; [|done]. injection Hun as <-.
  unfold continue in H. step H t s1 H1. injection H as <- <-. injection H1 as <- <-.
  exists c. split; [split_and!; [done..|]; by destruct (moves_refl s c Hc) as (_ & _ & ?)|]. split; [|by right]. split; [done..|].
  destruct Hn as [?|(me & m & Ho & Hm & Hd)]; [by left|right]. split; [done|]. exists me, m. split_and!; [done..|].
  destruct Hd as [?|?]; [by left|right]. split; [done|]. destruct Ho as (_ & Hh & Hreg & _). apply (Hip Hret me m); [by rewrite Hm|done].
Qed.

Lemma login_user_post v token (N Q : list ascii → Prop) s c r s' :
  (∀ name, token = Some name → N name) → login_inv v s c → login_user pb cfg socket_getipbyname gethostbyaddr v token s = Val (r, s') → line_post v N Q s c r s'.
Proof.
  intros HN Hi H. unfold login_user in H. destruct (user_ok v) eqn:Huo; [by eapply minor_post; [apply minor_refuse|..]|].
  destruct token as [name|]; [|by eapply minor_post; [apply minor_refuse|..]]. pose proof Hi as [Hlw Hc Ht Hu].
  destruct Hu as [Hu|[? _]]; [|congruence].
  step H ret s1 H1. apply do_user_Val with (c := c) in H1; [|done..].
  destruct H1 as [[-> ->]|(Hnr & me & m & Ho & Hmv & Hdel & Hok)].
  { destruct (reject_unknown cfg); [by eapply minor_post; [apply minor_refuse|..]|].
    eapply accept_name_post; [by apply HN|done..|rewrite Hu; done|done|by left|done]. }
  destruct (registered_range _ _ _ (proj1 Hlw) ltac:(apply Ho)) as [Hrange _].
  set (c1 := set_userid c (uid m)) in *. pose proof (moves_context _ _ _ _ Hmv) as Hc1.
  assert (Hlw1 : login_world (ss_world s1)) by (eapply moves_login_world; [|done..]; simpl; lia).
  assert (Hacc : ret = E_OK ∨ ret = E_USER_DELETED → accept_name pb cfg socket_getipbyname gethostbyaddr v name s1 = Val (r, s') → line_post v N Q s c r s').
  { intros Hret Ha. destruct (accept_name_post v name N Q s1 c1 r s') as (c2 & Hmv2 & Hp); try done; [by apply HN|simpl; lia| |].
    - right. exists me, m. split_and!; [by eapply moves_owner|done|]. destruct Hret as [Hret|Hret]; [right|left]; auto.
    - exists c2. split; [by eapply moves_trans|done]. }
  assert (Href : ∀ code text, refuse code text s1 = Val (r, s') → line_post v N Q s c r s').
  { intros code text Ha. destruct (minor_refuse v code text s1 c1 r s' Hc1 Ha) as (c2 & _ & Hmv2 & Hr). exists c2.
    split; [by eapply moves_trans|]. unfold refuse in Ha. step Ha t s2 Ha1. by injection Ha as <- <-. }
  destruct ret; first [done|by eapply Href|idtac]; [by apply Hacc; [left|]|].
  destruct (reject_unknown cfg); [by eapply Href|]. by apply Hacc; [right|].
Qed.

Lemma login_pass_post v token (N Q : list ascii → Prop) s c r s' :
  (∀ pass, token = Some pass → Q pass) → login_inv v s c → login_pass pb cfg umask lstat stat disk vfs hide outle getcwd junk v token s = Val (r, s') → line_post v N Q s c r s'.
Proof.
  intros HQ Hi H. unfold login_pass in H. destruct (user_ok v) eqn:Huo; cbn [negb] in H; [|by eapply minor_post; [apply minor_refuse|..]].
  destruct token as [pass|]; [|by eapply minor_post; [apply minor_refuse|..]].
  pose proof (login_inv_id _ _ _ Hi) as Hid. pose proof Hi as [Hlw Hc Ht Hu].
  step H ret s1 H1. apply do_pass_Val with (c := c) in H1 as (c1 & Hmv & Hok); [|done..]. pose proof (moves_context _ _ _ _ Hmv) as Hc1.
  assert (Href : ∀ code text, refuse code text s1 = Val (r, s') → line_post v N Q s c r s').
  { intros code text Ha. destruct (minor_refuse v code text s1 c1 r s' Hc1 Ha) as (c2 & _ & Hmv2 & Hr). exists c2.
    split; [by eapply moves_trans|]. unfold refuse in Ha. step Ha t s2 Ha1. by injection Ha as <- <-. }
  destruct ret; first [done|by eapply Href|idtac]. destruct (Hok eq_refl) as (me & m & Hreg & Hm & Hdel & Hpass).
  destruct Hu as [Hu|(_ & me' & m' & Ho & Hui & Hd)].
  { exfalso. destruct (registered_range _ _ _ (proj1 Hlw) Hreg) as [_ Hne]. congruence. }
  destruct (Hpass me' m' Ho ltac:(done)) as [Hk Hacc].
  assert (m' = m) as -> by (destruct Ho as (_ & Hh & Hr & _); rewrite <- Hui in Hr; congruence).
  destruct Hd as [?|Hd]; [congruence|].
  assert (Hin : (tls_type cfg = TLS_STRICT_EXPLICIT → tls_ok v = true) → logged_in (v_username v) pass s1 c1).
  { intros Hs. destruct (login_inv_moves v v s s1 c c1 Hi Hmv Hk) as [_ _ Ht1 Hu1]; [done..|by left|].
    destruct Hu1 as [Hx|(_ & me2 & m2 & Ho2 & Hui2 & Hd2)].
    { exfalso. rewrite (keeps_userid _ _ Hk) in Hx. destruct (registered_range _ _ _ (proj1 Hlw) Hreg) as [_ Hne]. congruence. }
    assert (m2 = m) as ->.
    { destruct Ho2 as (_ & Hh & Hr & _). rewrite <- Hui2, (keeps_userid _ _ Hk) in Hr. destruct Hmv as (_ & _ & Hw).
      rewrite Hw in Hh, Hr. simpl in Hh, Hr. congruence. }
    destruct Hd2 as [?|[Hla Haa]]; [congruence|]. exists me2, m. split_and!; [done..|]. auto. }
  assert (Hret : (mret (inl 0) : M verdict_or_vars) s1 = Val (r, s') → (tls_type cfg = TLS_STRICT_EXPLICIT → tls_ok v = true) → line_post v N Q s c r s').
  { intros [= <- <-] Hs. exists c1. split; [done|]. intros _. exists pass. auto. }
  destruct (tls_type cfg); try (by apply Hret). destruct (tls_ok v); [by apply Hret|by eapply Href].
Qed.

Lemma login_line_post v line s c r s' :
  login_inv v s c →
  login_line pb cfg umask lstat stat disk vfs hide outle getcwd junk socket_getipbyname gethostbyaddr tls_auth iptohostname v line s = Val (r, s') →
  line_post v (line_asks line TOK_USER) (line_asks line TOK_PASS) s c r s'.
Proof.
  intros Hi H. unfold login_line in H. unfold line_asks. destruct (strtok is_delim line) as [token rest]. cbn zeta in H. cbn [fst snd].
  step H cmd s1 H1. apply lift_Val in H1 as [Hcmd ->].
  destruct (cmd =? TOK_HELP); [eapply minor_post; [|done..]; apply minor_continue; solve_evolves|].
  destruct (Z.eqb_spec cmd TOK_USER) as [->|_]; [by eapply login_user_post|].
  destruct (Z.eqb_spec cmd TOK_PASS) as [->|_]; [by eapply login_pass_post|].
  destruct (cmd =? TOK_AUTH); [by eapply minor_post; [apply minor_auth|..]|].
  destruct (cmd =? TOK_PBSZ); [eapply minor_post; [|done..]; apply minor_continue; solve_evolves|].
  destruct (cmd =? TOK_PROT); [by eapply minor_post; [apply minor_prot|..]|].
  destruct (cmd =? TOK_FEAT); [eapply minor_post; [|done..]; apply minor_continue; solve_evolves|].
  destruct (cmd =? TOK_OPTS); [eapply minor_post; [|done..]; apply minor_continue, evolves_opts|].
  destruct (cmd =? TOK_IDNT); [by eapply minor_post; [apply minor_idnt|..]|].
  by eapply minor_post; [apply minor_refuse|..].
Qed.

Lemma login_loop_post reads v s c ret s' :
  login_inv v s c →
  login_loop pb cfg umask lstat stat disk vfs hide outle getcwd junk socket_getipbyname gethostbyaddr tls_auth iptohostname reads v s = Val (ret, s') →
  ∃ c', moves s s' c c' ∧
    (ret = 0 → ∃ r1 dp r2 name pass, reads = r1 ++ dp :: r2 ∧ asks dp TOK_PASS pass ∧ logged_in name pass s' c' ∧
       (user_ok v = true ∧ name = v_username v ∨ ∃ du, du ∈ r1 ∧ asks du TOK_USER name)).
Proof.
  revert v s c. induction reads as [|[|x data] reads IH]; intros v s c Hi; cbn [login_loop];
    [intros [= <- <-]; exists c; split; [apply moves_refl, Hi|done]..|].
  destruct (LOGIN_BUFFER_LEN <=? length (x :: data))%nat; [done|].
  destruct (chop _) as [|y line] eqn:Hline.
  { intros H. destruct (IH v s c Hi H) as (c' & Hmv & Hz). exists c'. split; [done|].
    intros (r1 & dp & r2 & name & pass & -> & Hp & Hl & Hn)%Hz. exists ((x :: data) :: r1), dp, r2, name, pass.
    split_and!; [done..|]. destruct Hn as [?|(du & ? & ?)]; [by left|right]. exists du. split; [by right|done]. }
  intros H. step H r s1 H1. apply login_line_post with (c := c) in H1 as (c1 & Hmv & Hr); [|done]. rewrite <- Hline in Hr. destruct r as [z|v'].
  - injection H as <- <-. exists c1. split; [done|]. intros (pass & Hp & Huo & Hl)%Hr.
    exists [], (x :: data), reads, (v_username v), pass. split_and!; [done..|by left].
  - destruct Hr as [Hi' Hname]. destruct (IH v' s1 c1 Hi' H) as (c2 & Hmv2 & Hz). exists c2. split; [by eapply moves_trans|].
    intros (r1 & dp & r2 & name & pass & -> & Hp & Hl & Hn)%Hz. exists ((x :: data) :: r1), dp, r2, name, pass. split_and!; [done..|].
    destruct Hn as [[Huo ->]|(du & ? & ?)]; [|right; exists du; split; [by right|done]].
    destruct (Hname Huo) as [[? ?]|Ha]; [by left|right]. exists (x :: data). split; [by left|done].
Qed.
End dialogue.

(** C2. Nobody gets in without the right to: when [do_login_loop] ends with
    success for a client that was not logged in, the lines read have a USER line
    and after it a PASS line; there is a registered user with the name given to
    USER, whose identifier the client has now got, and the backend accepted the
    password given to PASS for it; the user is not deleted, and it is let in by
    the limits on its logins, its addresses and the logins of
    its groups; a closed site admits site operators only; a user that must use TLS
    and a server that demands it have an encrypted connection. Users, groups and
    the contexts of other clients are as they were, whatever the result. *)
Theorem login_authenticates changepass check_auth cfg umask lstat stat disk vfs hide outle getcwd junk getip gethost tls_auth iptohostname
    reads s c ret s' :
  login_world (ss_world s) → w_contexts (ss_world s) !! ss_ctx s = Some c → c_userid c = INVALID_USER →
  do_login_loop (Some (plaintext changepass check_auth)) cfg umask lstat stat disk vfs hide outle getcwd junk getip gethost tls_auth
    iptohostname reads s = Val (ret, s') →
  ∃ c', moves s s' c c' ∧
    (ret = 0 → ∃ r1 du r2 dp r3 name pass me m, reads = r1 ++ du :: r2 ++ dp :: r3 ∧ asks du TOK_USER name ∧ asks dp TOK_PASS pass ∧
       owner (ss_world s) name me m ∧ c_userid c' = uid m ∧ pass_accepted check_auth m name pass ∧
       login_allowed cfg (ss_world s') c' m ∧ address_allowed getip gethost (ss_world s') c' m ∧
       (tls_type cfg = TLS_STRICT_EXPLICIT → tls_on c')).
Proof.
  intros Hlw Hc Hid H. unfold do_login_loop in H. step H u s1 H1.
  assert (Hev : evolves (upd_conn (λ cn, set_state cn STATE_LOGGING))) by solve_evolves.
  destruct (Hev s c u s1 Hc H1) as (c1 & Hk & Hmv). pose proof (keeps_userid _ _ Hk) as Hid1.
  apply login_loop_post with (c := c1) (cfg := cfg) in H as (c2 & Hmv2 & Hin).
  - pose proof (moves_trans _ _ _ _ _ _ Hmv Hmv2) as Hm. exists c2. split; [done|]. intros Hret.
    destruct (Hin Hret) as (ra & dp & r3 & name & pass & -> & Hp & (me & m & Ho & Hr) & [[? _]|(du & Hdu & Ha)]); [done|].
    apply list_elem_of_split in Hdu as (r1 & r2 & ->). exists r1, du, r2, dp, r3, name, pass, me, m. split; [by rewrite <- app_assoc|].
    split; [done|]. split; [done|]. split; [|exact Hr]. destruct Hm as (_ & _ & Hw). by rewrite Hw in Ho.
  - split; [|by eapply moves_context|done|left; congruence]. eapply moves_login_world; [|done..]. rewrite Hid1, Hid. done.
Qed.

(** ** A login *)

Definition lw_config : login_config := mkLoginConfig false 10 true false TLS_EXPLICIT None.
Definition lw_client : client := demo_client INVALID_USER 11.
Definition lw_session : session := mkSession (mkWorld cw_users dw_groups [lw_client; demo_client 1 12] 1 1 0) 0 [] [].
Definition lw_line (s : string) : list ascii := str s ++ [CR; LF].
Definition lw_login (cfg : login_config) (lines : list string) : outcome (Z * session) :=
  do_login_loop su_backend cfg 509 demo_lstat cw_stat demo_disk demo_vfs false (λ _, false) None (replicate MAXPATH NUL)
    Some (λ _, None) (λ _, 0) (λ _, 0) (map lw_line lines) lw_session.

(** The results of some dialogues: the right password, a wrong one, an unknown
    user when such users are not refused at once, a password first, a server
    that demands TLS. *)
Definition lw_result (cfg : login_config) (lines : list string) : option (Z * list Z) :=
  match lw_login cfg lines with
  | Val (ret, s') => Some (ret, map c_userid (w_contexts (ss_world s')))
  | Crash => None
  end.

Example logins :
  lw_result lw_config ["FEAT"; "USER bob"; "PASS secret"] = Some (0, [1; 1]) ∧
  lw_result lw_config ["USER bob"; "PASS guess"] = Some (1, [1; 1]) ∧
  lw_result lw_config ["USER eve"] = Some (1, [INVALID_USER; 1]) ∧
  lw_result (mkLoginConfig false 10 false false TLS_EXPLICIT None) ["USER eve"; "PASS secret"] = Some (1, [INVALID_USER; 1]) ∧
  lw_result lw_config ["PASS secret"] = Some (1, [INVALID_USER; 1]) ∧
  lw_result (mkLoginConfig false 10 true false TLS_STRICT_EXPLICIT None) ["USER bob"; "PASS secret"] = Some (1, [1; 1]) ∧
  lw_result (mkLoginConfig false 10 true false TLS_STRICT_EXPLICIT None) ["AUTH TLS"; "USER bob"; "PASS secret"] = Some (0, [1; 1]) ∧
  lw_result (mkLoginConfig true 10 true false TLS_EXPLICIT None) ["USER bob"; "PASS secret"] = Some (1, [1; 1]).
Proof. by vm_compute. Qed.

(** What the lines of a dialogue ask for. *)
Example line_asks_for :
  asks (lw_line "USER bob") TOK_USER (str "bob") ∧ asks (lw_line "pass my secret") TOK_PASS (str "my secret").
Proof. by repeat split; vm_compute. Qed.

(** PROT and OPTS without an argument read through a null pointer, before any
    login. *)
Example login_null_argument : lw_login lw_config ["PROT"] = Crash ∧ lw_login lw_config ["OPTS"] = Crash.
Proof. by vm_compute. Qed.

(** An entry of the user's own list that refuses an address does not end the
    check: a group may still allow it. *)
Definition deny_user : wzd_user_t :=
  let u := cw_user in
  mkUser 1 0 (username u) (userpass u) (rootpath u) (creator u) (u_tagline u) (group_num u) (groups u) (u_max_idle_time u)
    (userperms u) (flags u) (u_max_ul_speed u) (u_max_dl_speed u) (u_num_logins u) (logins_per_ip u)
    [mkIpEntry (str "192.0.2.*") 0] (stats u) (credits u) (u_ratio u) (user_slots u) (leech_slots u) (last_login u).
Definition allow_group : wzd_group_t :=
  mkGroup 7 0 (groupname demo_group) (replicate MAX_TAGLINE_LENGTH NUL) 0 (replicate MAX_FLAGS_NUM NUL) 0 0 0 0 0
    [mkIpEntry (str "192.0.2.1") 1] (padded WZD_MAX_PATH (str "/home")).
Definition deny_world : world :=
  mkWorld (after (user_register (Some 1%positive) 1 (empty_registry {[ 1%positive := deny_user ]})))
    (match group_register (Some 1%positive) 1 (empty_registry {[ 1%positive := allow_group ]}) with
     | Val (_, r) => r | Crash => empty_registry ∅ end) [demo_client 1 11] 1 1 0.

Example denied_address_let_in :
  ip_list_check_ident Some (λ _, None) (u_ip_list deny_user) (str "192.0.2.1") None = 0 ∧
  match do_user_ip su_backend lw_config Some (λ _, None) (mkSession deny_world 0 [] []) with
  | Val (ret, _) => bool_decide (ret = E_OK)
  | Crash => false
  end = true.
Proof. by vm_compute. Qed.

Lemma lw_world_ok : login_world (ss_world lw_session).
Proof.
  split; [exact cw_world_wf|]. split; [by vm_compute|]. split; [by_vm|].
  change (map_Forall (λ _ u, Forall (λ g, 0 ≤ g) (groups u)) (r_heap cw_users)). by_vm.
Qed.

Definition lw_lines : list string := ["USER bob"; "PASS secret"].
Definition lw_after : session := match lw_login lw_config lw_lines with Val (_, s) => s | Crash => lw_session end.

Lemma lw_login_ok : lw_login lw_config lw_lines = Val (0, lw_after).
Proof.
  assert (H : match lw_login lw_config lw_lines with Val (ret, _) => ret =? 0 | Crash => false end = true) by (by vm_compute).
  unfold lw_after. destruct (lw_login lw_config lw_lines) as [[ret s]|]; [|done]. by apply Z.eqb_eq in H as ->.
Qed.

Lemma login_authenticates_witness :
  ∃ c', moves lw_session lw_after lw_client c' ∧
    (0 = 0 → ∃ r1 du r2 dp r3 name pass me m, map lw_line lw_lines = r1 ++ du :: r2 ++ dp :: r3 ∧
       asks du TOK_USER name ∧ asks dp TOK_PASS pass ∧
       owner (ss_world lw_session) name me m ∧ c_userid c' = uid m ∧ pass_accepted demo_auth m name pass ∧
       login_allowed lw_config (ss_world lw_after) c' m ∧ address_allowed Some (λ _, None) (ss_world lw_after) c' m ∧
       (tls_type lw_config = TLS_STRICT_EXPLICIT → tls_on c')).
Proof.
  apply (login_authenticates demo_changepass demo_auth lw_config 509 demo_lstat cw_stat demo_disk demo_vfs false (λ _, false) None
    (replicate MAXPATH NUL) Some (λ _, None) (λ _, 0) (λ _, 0) (map lw_line lw_lines) lw_session lw_client 0 lw_after);
    [exact lw_world_ok|reflexivity|reflexivity|exact lw_login_ok].
Defined.
