(* ===== verification/Sections.v ===== *)
(** * Sections of the file tree: libwzd-core/wzd_section.c

    A section is a mask of paths and an expression that the names of new
    directories in it must match. The list of sections is kept in the order of
    the chain. The regular expressions are parameters: [regcomp] of a text, and
    whether an expression matches. *)
From S2P Require Import Prelude Ip.

Section sections.
  Context {R : Type} (regcomp : list ascii → option R) (regexec : R → list ascii → bool).

Record wzd_section_t := mkSection {
  sectionname : list ascii;
  sectionmask : list ascii;
  sectionre : list ascii;
  pathfilter : option R }.

Definition section_getname (s : option wzd_section_t) : option (list ascii) := sectionname <$> s.

(** The new section goes to the end. The text of the filter is copied even when
    there is none. *)
Definition section_add (section_list : list wzd_section_t) (name mask filter : option (list ascii)) : outcome (Z * list wzd_section_t) :=
  match name, mask with
  | Some name, Some mask =>
    match filter with
    | None => Crash
    | Some filter =>
      match regcomp filter with
      | None => Val (-1, section_list)
      | Some re =>
        if existsb (λ s, streq name (sectionname s)) section_list then Val (1, section_list)
        else Val (0, section_list ++ [mkSection name mask filter (Some re)])
      end
    end
  | _, _ => Val (-1, section_list)
  end.

Definition section_free (section_list : list wzd_section_t) : Z * list wzd_section_t := (0, []).

Definition section_check (s : wzd_section_t) (path : list ascii) : bool := my_str_compare path (sectionmask s).

Definition section_check_filter (s : wzd_section_t) (path : list ascii) : bool :=
  match pathfilter s with None => true | Some re => regexec re path end.

Fixpoint section_find (section_list : list wzd_section_t) (path : list ascii) : option wzd_section_t :=
  match section_list with
  | [] => None
  | s :: l => if my_str_compare path (sectionmask s) then Some s else section_find l path
  end.

(** The section of a path is the first whose mask matches it, and stays it when
    sections are added. *)
Lemma section_find_first l path :
  match section_find l path with
  | Some s => ∃ l1 l2, l = l1 ++ s :: l2 ∧ section_check s path = true ∧ Forall (λ s, section_check s path = false) l1
  | None => Forall (λ s, section_check s path = false) l
  end.
Proof.
  induction l as [|s l IH]; cbn [section_find]; [done|].
  destruct (my_str_compare path (sectionmask s)) eqn:E; [by exists [], l|].
  destruct (section_find l path) as [t|]; [|by constructor].
  destruct IH as (l1 & l2 & -> & Ht & Hl). exists (s :: l1), l2. split_and!; [done..|by constructor].
Qed.

Lemma section_add_keeps l name mask filter r l' path s :
  section_add l name mask filter = Val (r, l') → section_find l path = Some s → section_find l' path = Some s.
Proof.
  unfold section_add. destruct name as [n|], mask as [k|]; [|by intros [= _ <-]..].
  destruct filter as [f|]; [|done]. destruct (regcomp f) as [re|]; [|by intros [= _ <-]].
  destruct (existsb _ l); intros [= _ <-]; [done|]. clear. induction l as [|t l IH]; [done|]. cbn [section_find app].
  by destruct (my_str_compare path (sectionmask t)).
Qed.
End sections.
Arguments wzd_section_t R : clear implicits.

(** A filter that is missing is copied as if it were there. *)
Example section_without_filter {R} (regcomp : list ascii → option R) l :
  section_add regcomp l (Some (str "MP3")) (Some (str "/mp3/*")) None = Crash.
Proof. reflexivity. Qed.
