(* ===== verification/FileOps.v ===== *)
(** * Operations on files: libwzd-core/wzd_file.c, wzd_ratio.c

    What the handlers of FTP commands do to files: opening, creating and removing
    directories, renaming, deleting. Each operation checks the rights the
    permission files of PermFile.v give, and then calls the system. The file
    system is the state of a [FileSystem], a class of operations; the calls that
    change it are recorded in the order they are made. The state also holds the
    part of a client's context that concerns its data connection. *)
From S2P Require Import Prelude Inet Registry Users Backend Perm Path PermFile Vfs Session Commands Chdir.

Abbreviation bytes := (list ascii).

(** ** The file system *)

(** [sys_lstat] and [sys_stat] give the kind and the size of a file; [sys_perms]
    the contents of the permission files; [sys_readdir] the names in a directory,
    [None] when it cannot be read; [sys_rename] is [safe_rename]. Results are those
    of the calls: 0 or -1, a descriptor or -1. [sys_islocked] is [F_GETLK]. *)
Class FileSystem (F : Type) := {
  sys_lstat : F → bytes → option (fkind * Z);
  sys_stat : F → bytes → option (fkind * Z);
  sys_perms : F → permdisk;
  sys_set_perms : F → permdisk → F;
  sys_writable : F → bytes → bool;
  sys_readdir : F → bytes → option (list bytes);
  sys_mkdir : F → bytes → Z → Z * F;
  sys_rmdir : F → bytes → Z * F;
  sys_unlink : F → bytes → Z * F;
  sys_rename : F → bytes → bytes → Z * F;
  sys_open : F → bytes → Z → Z * F;
  sys_close : F → Z → F;
  sys_islocked : F → Z → Z;
  sys_lock : F → Z → F;
  sys_unlock : F → Z → F;
  sys_lseek : F → Z → Z → Z → Z * F;
  sys_read : F → Z → nat → option bytes * F;
  sys_write : F → Z → bytes → Z * F;
  sys_ftruncate : F → Z → Z → F }.

Definition O_RDONLY : Z := 0.
Definition O_WRONLY : Z := 1.
Definition O_CREAT : Z := 0x40.
Definition SEEK_SET : Z := 0.
Definition SEEK_CUR : Z := 1.
Definition SEEK_END : Z := 2.

Inductive syscall :=
  | SysMkdir (path : bytes) (mode : Z)
  | SysRmdir (path : bytes)
  | SysUnlink (path : bytes)
  | SysRename (old new : bytes)
  | SysOpen (path : bytes) (mode : Z)
  | SysSymlink (existing link : bytes)
  | SysUtime (path : bytes) (actime modtime : Z)
  | SysSend (data : bytes).          (** on the data connection *)

(** ** The rest of the context *)

Inductive data_mode_t := DATA_PORT | DATA_PASV.
Inductive xfer_t := ASCII | BINARY.

(** [current_action]; [arg] is an array of [HARD_LAST_COMMAND_LENGTH] bytes. *)
Record wzd_action_t := mkAction {
  a_token : Z;
  a_arg : bytes;
  a_file : Z;
  a_bytesnow : Z }.

Record last_file_t := mkLast { l_name : bytes; l_size : Z; l_token : Z }.

(** [dataip] has 16 bytes; a descriptor is -1 when it is closed. *)
Record transfer := mkTransfer {
  x_action : wzd_action_t;
  x_last : last_file_t;
  x_resume : Z;
  x_pasv : Z;
  x_data : Z;
  x_datamode : data_mode_t;
  x_family : net_family_t;
  x_port : Z;
  x_ip : list Z;
  x_type : xfer_t;
  x_thread : bool;
  x_transferring : bool;
  x_idle : Z;
  x_idle_data : Z }.

Definition set_action (x : transfer) (a : wzd_action_t) : transfer :=
  mkTransfer a (x_last x) (x_resume x) (x_pasv x) (x_data x) (x_datamode x) (x_family x) (x_port x) (x_ip x) (x_type x)
    (x_thread x) (x_transferring x) (x_idle x) (x_idle_data x).
Definition set_last (x : transfer) (l : last_file_t) : transfer :=
  mkTransfer (x_action x) l (x_resume x) (x_pasv x) (x_data x) (x_datamode x) (x_family x) (x_port x) (x_ip x) (x_type x)
    (x_thread x) (x_transferring x) (x_idle x) (x_idle_data x).
Definition set_resume (x : transfer) (n : Z) : transfer :=
  mkTransfer (x_action x) (x_last x) n (x_pasv x) (x_data x) (x_datamode x) (x_family x) (x_port x) (x_ip x) (x_type x)
    (x_thread x) (x_transferring x) (x_idle x) (x_idle_data x).
Definition set_sockets (x : transfer) (pasv data : Z) : transfer :=
  mkTransfer (x_action x) (x_last x) (x_resume x) pasv data (x_datamode x) (x_family x) (x_port x) (x_ip x) (x_type x)
    (x_thread x) (x_transferring x) (x_idle x) (x_idle_data x).
Definition set_datamode (x : transfer) (m : data_mode_t) : transfer :=
  mkTransfer (x_action x) (x_last x) (x_resume x) (x_pasv x) (x_data x) m (x_family x) (x_port x) (x_ip x) (x_type x)
    (x_thread x) (x_transferring x) (x_idle x) (x_idle_data x).
Definition set_peer (x : transfer) (f : net_family_t) (port : Z) (ip : list Z) : transfer :=
  mkTransfer (x_action x) (x_last x) (x_resume x) (x_pasv x) (x_data x) (x_datamode x) f port ip (x_type x)
    (x_thread x) (x_transferring x) (x_idle x) (x_idle_data x).
Definition set_type (x : transfer) (t : xfer_t) : transfer :=
  mkTransfer (x_action x) (x_last x) (x_resume x) (x_pasv x) (x_data x) (x_datamode x) (x_family x) (x_port x) (x_ip x) t
    (x_thread x) (x_transferring x) (x_idle x) (x_idle_data x).
Definition set_thread (x : transfer) (started running : bool) : transfer :=
  mkTransfer (x_action x) (x_last x) (x_resume x) (x_pasv x) (x_data x) (x_datamode x) (x_family x) (x_port x) (x_ip x) (x_type x)
    started running (x_idle x) (x_idle_data x).
Definition set_idle (x : transfer) (idle idle_data : Z) : transfer :=
  mkTransfer (x_action x) (x_last x) (x_resume x) (x_pasv x) (x_data x) (x_datamode x) (x_family x) (x_port x) (x_ip x) (x_type x)
    (x_thread x) (x_transferring x) idle idle_data.

(** ** State and effects *)

Record hstate (F : Type) := mkH {
  h_s : session;
  h_x : transfer;
  h_fs : F;
  h_calls : list syscall }.
Arguments mkH {F} _ _ _ _.
Arguments h_s {F} _.
Arguments h_x {F} _.
Arguments h_fs {F} _.
Arguments h_calls {F} _.

Definition H (F A : Type) : Type := hstate F → outcome (A * hstate F).

#[global] Instance H_ret {F} : MRet (H F) := λ A a h, Val (a, h).
#[global] Instance H_bind {F} : MBind (H F) := λ A B f m h,
  match m h with Val (a, h') => f a h' | Crash => Crash end.

Section state.
  Context {F : Type} `{!FileSystem F}.

Definition sess {A} (m : M A) : H F A := λ h,
  '(a, s) ← m (h_s h); Val (a, mkH s (h_x h) (h_fs h) (h_calls h)).
Definition must {A} (o : outcome A) : H F A := λ h, a ← o; Val (a, h).
Definition get : H F (hstate F) := λ h, Val (h, h).
Definition xfer : H F transfer := λ h, Val (h_x h, h).
Definition upd_x (f : transfer → transfer) : H F unit := λ h, Val (tt, mkH (h_s h) (f (h_x h)) (h_fs h) (h_calls h)).
Definition put_fs (fs : F) : H F unit := λ h, Val (tt, mkH (h_s h) (h_x h) fs (h_calls h)).
Definition call {A} (c : syscall) (f : F → A * F) : H F A := λ h,
  let '(a, fs) := f (h_fs h) in Val (a, mkH (h_s h) (h_x h) fs (h_calls h ++ [c])).

Definition fs_mkdir (path : bytes) (mode : Z) : H F Z := call (SysMkdir path mode) (λ f, sys_mkdir f path mode).
Definition rmdir (path : bytes) : H F Z := call (SysRmdir path) (λ f, sys_rmdir f path).
Definition unlink (path : bytes) : H F Z := call (SysUnlink path) (λ f, sys_unlink f path).
Definition safe_rename (old new : bytes) : H F Z := call (SysRename old new) (λ f, sys_rename f old new).
Definition fs_open (path : bytes) (mode : Z) : H F Z := call (SysOpen path mode) (λ f, sys_open f path mode).

Definition lstat_kind (fs : F) (path : bytes) : option fkind := fst <$> sys_lstat fs path.
Definition stat_kind (fs : F) (path : bytes) : option fkind := fst <$> sys_stat fs path.

(** [fs_dir_open] and [fs_dir_read] (wzd_fs.c): opening does not fail, and a
    directory that cannot be read has no entry. *)
Definition fs_dir_names (fs : F) (path : bytes) : list bytes := default [] (sys_readdir fs path).

(** A function of PermFile.v that changes a permission file. *)
Definition on_perms {A} (f : F → outcome (A * permdisk)) : H F A := λ h,
  '(a, d) ← f (h_fs h); Val (a, mkH (h_s h) (h_x h) (sys_set_perms (h_fs h) d) (h_calls h)).
End state.

(** ** Operations *)

Section files.
  Context {F : Type} `{!FileSystem F}.
  Context (b : option wzd_backend_t) (umask : Z) (vfs : list wzd_vfs_t) (cmds : ctable) (deny_uploaded : bool).

(** [GetUserByID(context->userid)]; the callers read the structure. *)
Definition context_user : M wzd_user_t := a ← get_me b; user_at a.

Definition checkPerm (path : bytes) (right : Z) (user : wzd_user_t) : H F Z := λ h,
  r ← _checkPerm b umask (stat_kind (h_fs h)) (sys_perms (h_fs h)) path right user (ss_world (h_s h)); Val (r, h).

Definition file_open (filename : bytes) (mode : Z) : H F Z :=
  let writing := negb (Z.land mode O_WRONLY =? 0) in
  user ← sess context_user;
  ret ← checkPerm filename (if writing then RIGHT_STOR else RIGHT_RETR) user;
  if negb (ret =? 0) then mret (-1) else
  h ← get;
  if bool_decide (stat_kind (h_fs h) filename = Some FK_DIR) then mret (-1) else
  file ← fs_open filename mode;
  if file =? -1 then mret (-1) else
  h ← get;
  let is_locked := sys_islocked (h_fs h) file in
  if is_locked =? -1 then mret file else
  if writing then
    if negb (is_locked =? 0) then put_fs (sys_close (h_fs h) file);; mret (-1)
    else put_fs (sys_lock (h_fs h) file);; mret file
  else if negb (is_locked =? 0) && deny_uploaded then put_fs (sys_close (h_fs h) file);; mret (-1)
  else mret file.

Definition file_chown_at (filename : bytes) (own grp : option bytes) : H F Z :=
  on_perms (λ fs, file_chown umask (stat_kind fs) (sys_writable fs) (sys_perms fs) filename own grp).

Definition file_mkdir (dirname : bytes) : H F wzd_errno_t :=
  user ← sess context_user;
  ret ← checkPerm dirname RIGHT_MKDIR user;
  if negb (ret =? 0) then mret E_NOPERM else
  ret ← fs_mkdir dirname 0x1ed;
  mret (if ret =? 0 then E_OK else E_COMMAND_FAILED).

Definition listed (name : bytes) : bool :=
  negb (streq name (str ".") || streq name (str "..") || streq name HARD_PERMFILE).

(** A directory that cannot be read counts as empty. The permission file goes first. The test on the kind of the directory itself
    reads the result of [lstat], which must succeed. *)
Definition file_rmdir (dirname : bytes) : H F Z :=
  user ← sess context_user;
  ret ← checkPerm dirname RIGHT_RMDIR user;
  if negb (ret =? 0) then mret (-1) else
  h ← get;
  if negb (bool_decide (stat_kind (h_fs h) dirname = Some FK_DIR)) then mret (-1) else
  if existsb listed (fs_dir_names (h_fs h) dirname) then mret 1 else
  let dir := if ends_with_slash dirname then dirname else dirname ++ [SLASH] in
  if (2048 <=? length dir)%nat then must Crash else
  unlink (take 2047 (dir ++ HARD_PERMFILE));;
  h ← get;
  k ← must (deref (lstat_kind (h_fs h) dirname));
  if bool_decide (k = FK_LNK) then unlink dirname else rmdir dirname.

Definition file_rename (old_filename new_filename : bytes) : H F Z :=
  user ← sess context_user;
  if (2048 <=? length new_filename)%nat then must Crash else
  match strrchr_slash new_filename with
  | None => mret 1
  | Some (path, _) =>
    ret ← checkPerm old_filename RIGHT_RNFR user;
    if negb (ret =? 0) then mret 1 else
    ret ← checkPerm path RIGHT_STOR user;
    if negb (ret =? 0) then mret 1 else
    on_perms (λ fs, _movePerm umask (stat_kind fs) (sys_writable fs) (sys_perms fs) old_filename new_filename None None);;
    ret ← safe_rename old_filename new_filename;
    mret (if ret =? -1 then 1 else 0)
  end.

(** The first virtual directory whose path is the name. *)
Fixpoint vfs_named (l : list wzd_vfs_t) (w : world) (user : wzd_user_t) (filename : bytes) : outcome (option bytes) :=
  match l with
  | [] => Val None
  | v :: l =>
    buffer_vfs ← vfs_replace_cookies b w (virtual_dir v) user;
    if bool_decide (buffer_vfs = Some filename) then Val (Some (physical_dir v)) else vfs_named l w user filename
  end.

Definition kind_of (k : fkind) : wzd_file_kind_t :=
  match k with FK_DIR => FILE_DIR | FK_LNK => FILE_LNK | FK_REG => FILE_REG end.
Definition set_kind (f : wzd_file_t) (k : wzd_file_kind_t) : wzd_file_t :=
  mkFile (filename f) (owner f) (group f) (permissions f) (acl f) k (data f).

(** What the permission file of the directory says about the file, once the
    virtual directories are replaced. For a file that does not exist the kind is
    that of its directory. *)
Definition file_stat_at (fs : F) (name : bytes) : outcome (option wzd_file_t) :=
  if (MAXPATH <=? length name)%nat then Crash else
  let perm_filename := remove_trailing_slash name in
  match strrchr_slash perm_filename with
  | None => Val None
  | Some (dir, base) =>
    '(nx, k, dir, stripped) ← match lstat_kind fs name with
      | Some FK_DIR => Val (false, Some FK_DIR, perm_filename, str ".")
      | Some k => Val (false, Some k, dir, base)
      | None => Val (true, lstat_kind fs dir, dir, base)
      end;
    match k with
    | None => Val None
    | Some k =>
      if (MAXPATH <=? length dir + (length HARD_PERMFILE + 1))%nat then Val None else
      match dir with
      | [] => Crash
      | _ =>
        let dir := if ends_with_slash dir then dir else dir ++ [SLASH] in
        '(ret, l) ← readPermFile umask (sys_perms fs) (dir ++ HARD_PERMFILE) [];
        i ← (if bool_decide (ret = E_OK) then find_file stripped l else Val None);
        let file := file_deep_copy (i ≫= λ i, l !! i) in
        match file with
        | None =>
          if (nx : bool) then Val None
          else Val (Some (mkFile (wzd_strncpy (replicate 256 NUL) stripped 256) (replicate 256 NUL) (replicate 256 NUL) umask [] (kind_of k) None))
        | Some f => Val (Some (set_kind f (kind_of k)))
        end
      end
    end
  end.

(** A virtual directory may lead to another one: a cycle does not end. *)
Fixpoint file_stat (fuel : nat) (fs : F) (w : world) (user : wzd_user_t) (name : bytes) : outcome (option wzd_file_t) :=
  match fuel with
  | O => Crash
  | S fuel =>
    v ← vfs_named vfs w user name;
    match v with
    | Some physical => file_stat fuel fs w user physical
    | None => file_stat_at fs name
    end
  end.

(** The owner of a file, a siteop, or a user with the permission delete. The
    name of the permission file is not cut after a slash that comes first. *)
Definition may_remove (filename : bytes) : H F bool := λ h,
  '(c, _) ← my_context (h_s h);
  '(user, _) ← context_user (h_s h);
  let w := ss_world (h_s h) in
  siteop ← has_flag FLAG_SITEOP user;
  if (siteop : bool) then Val (true, h) else
  f ← file_stat (S (length vfs)) (h_fs h) w user filename;
  owner ← match f with
          | None => Val false
          | Some f => n ← buf_str (username user); buf_eq id (owner f) n
          end;
  found ← commands_find cmds (Some (Some (str "delete")));
  com ← match found.1 with None => Val None | Some a => c ← deref (ct_heap cmds !! a); Val (Some c) end;
  denied ← commands_check_permission b com (c_userid c) w;
  Val (owner || (denied =? 0), h).

Definition file_remove (filename : bytes) : H F Z :=
  if (BUFFER_LEN <=? length filename)%nat then must Crash else
  match strrchr_slash filename with
  | None | Some (_, []) => mret (-1)
  | Some (dir, stripped) =>
    let dir := match dir with [] => filename | _ => dir ++ [SLASH] end in
    if (4095 <? length dir + length HARD_PERMFILE)%nat then mret (-1) else
    let perm_filename := dir ++ HARD_PERMFILE in
    ok ← may_remove filename;
    if negb ok then mret 1 else
    on_perms (λ fs,
      '(ret, l) ← readPermFile umask (sys_perms fs) perm_filename [];
      if negb (bool_decide (ret = E_OK)) then Val (tt, sys_perms fs) else
      '(_, l) ← remove_file stripped l;
      '(_, d) ← writePermFile (sys_writable fs perm_filename) (sys_perms fs) perm_filename l;
      Val (tt, d));;
    ret ← unlink filename;
    mret (if ret =? -1 then 1 else 0)
  end.

(** ** Credits: wzd_ratio.c *)

Definition ratio_get_credits (user : wzd_user_t) : Z := if u_ratio user =? 0 then ULONG_MAX else credits user.

Definition ratio_check_download (path : bytes) : H F Z := λ h,
  '(c, _) ← my_context (h_s h);
  '(p, _) ← getUserByID b (c_userid c) (h_s h);
  match p with
  | None => Val (-1, h)
  | Some a =>
  '(user, _) ← user_at a (h_s h);
  if u_ratio user =? 0 then Val (0, h) else
  match sys_stat (h_fs h) path with
  | None => Val (-1, h)
  | Some (_, needed) => Val (if needed <=? ratio_get_credits user then 0 else 1, h)
  end
  end.
End files.
