(* ===== verification/Posix.v ===== *)
(** * What the code relies on of the file system when it removes files

    A file system stands for a tree: what is at a location, the list of the names
    that lead to it from the root. A path is resolved to a location through the
    dots, the dot-dots and the symbolic links in it, so that many paths name one
    location. [PosixLaws] states what lstat, readdir, unlink and rmdir do to the
    tree, in these terms; the tree at the end of the file is a file system with
    links for which the laws hold. *)
From S2P Require Import Prelude Path PermFile Vfs FileOps.

Abbreviation loc := (list bytes).

(** A path without the slashes at its end. *)
Fixpoint drop_slashes (s : bytes) : bytes :=
  match s with c :: s' => if bool_decide (c = SLASH) then drop_slashes s' else s | [] => [] end.
Definition strip (p : bytes) : bytes := rev (drop_slashes (rev p)).

(** What is at a location; the location a path leads to, a link at its end not
    being followed; the locations that are looked at on the way. *)
Class Posix (F : Type) `{!FileSystem F} := {
  at_ : F → loc → option fkind;
  resolve_path : F → bytes → option loc;
  trail : F → bytes → list loc }.

Section posix.
  Context {F : Type} `{!FileSystem F, !Posix F}.

(** The locations of [S] have been emptied: nothing else has changed, and every
    path that does not go through one of them still leads where it did. *)
Record gone (S : loc → Prop) (fs fs' : F) : Prop := {
  gn_gone l : S l → at_ fs' l = None;
  gn_rest l : ¬ S l → at_ fs' l = at_ fs l;
  gn_paths p : (∀ t, t ∈ trail fs p → ¬ S t) → resolve_path fs' p = resolve_path fs p ∧ trail fs' p = trail fs p }.

(** [p] is a name of the directory at [d] itself: not a link to it, even with
    slashes after it, and no dot or dot-dot at the end. *)
Record names_dir (fs : F) (p : bytes) (d : loc) : Prop := {
  nd_path : resolve_path fs p = Some d;
  nd_strip : resolve_path fs (strip p) = Some d;
  nd_last : ∃ n, last (components [] (strip p)) = Some n ∧ Path.kept n }.

(** For a process that nothing forbids to read and to remove (rights, mount
    points, files in use), and paths below PATH_MAX. *)
Class PosixLaws : Prop := {
  px_lstat fs p : lstat_kind fs p = resolve_path fs p ≫= at_ fs;
  px_tree fs l n : at_ fs (l ++ [n]) ≠ None → at_ fs l = Some FK_DIR ∧ Path.kept n;
  px_readdir fs p l : resolve_path fs p = Some l → at_ fs l = Some FK_DIR →
    ∃ names, sys_readdir fs p = Some names ∧ ∀ n, no_dots n → n ∈ names ↔ at_ fs (l ++ [n]) ≠ None;
  px_name fs p l n : resolve_path fs p = Some l → at_ fs l = Some FK_DIR → Path.kept n →
    resolve_path fs (p ++ SLASH :: n) = Some (l ++ [n]) ∧ trail fs (p ++ SLASH :: n) ⊆ l :: trail fs p;
  px_unlink fs p l k : resolve_path fs p = Some l → at_ fs l = Some k → k ≠ FK_DIR →
    ∃ fs', sys_unlink fs p = (0, fs') ∧ gone (eq l) fs fs';
  px_rmdir fs p l : names_dir fs p l → at_ fs l = Some FK_DIR → (∀ n, at_ fs (l ++ [n]) = None) →
    ∃ fs', sys_rmdir fs p = (0, fs') ∧ gone (eq l) fs fs' }.

Lemma gone_refl fs : gone (λ _, False) fs fs.
Proof. by split. Qed.

Lemma gone_trans (S1 S2 : loc → Prop) fs1 fs2 fs3 : (∀ l, Decision (S1 l)) → (∀ l, Decision (S2 l)) →
  gone S1 fs1 fs2 → gone S2 fs2 fs3 → gone (λ l, S1 l ∨ S2 l) fs1 fs3.
Proof.
  intros D1 D2 [G1 R1 P1] [G2 R2 P2]. split.
  - intros l Hl. destruct (D2 l) as [H2|H2]; [by apply G2|]. rewrite R2 by done. apply G1. tauto.
  - intros l Hl. rewrite R2, R1; tauto.
  - intros p Hp. destruct (P1 p) as [Hr Ht]; [intros t ?; specialize (Hp t); tauto|].
    destruct (P2 p) as [Hr' Ht']; [rewrite Ht; intros t ?; specialize (Hp t); tauto|]. split; congruence.
Qed.

Lemma gone_iff (S S' : loc → Prop) fs fs' : (∀ l, S l ↔ S' l) → gone S fs fs' → gone S' fs fs'.
Proof.
  intros H [G R P]. split.
  - intros l ?%H. auto.
  - intros l Hl. apply R. by rewrite H.
  - intros p Hp. apply P. intros t Ht. rewrite H. auto.
Qed.

(** Nothing is below what is not there. *)
Lemma tree_above `{!PosixLaws} fs l s : at_ fs (l ++ s) ≠ None → s ≠ [] → at_ fs l = Some FK_DIR.
Proof.
  induction s as [|n s IH] using rev_ind; [done|]. intros H _. rewrite app_assoc in H. apply px_tree in H as [H _].
  destruct s as [|x s]; [by rewrite app_nil_r in H|]. apply IH; [by rewrite H|done].
Qed.

Lemma tree_below `{!PosixLaws} fs l s : at_ fs l = None → at_ fs (l ++ s) = None.
Proof.
  intros H. destruct s as [|n s]; [by rewrite app_nil_r|]. destruct (at_ fs (l ++ n :: s)) eqn:E; [|done].
  assert (Hd : at_ fs l = Some FK_DIR) by (apply (tree_above fs l (n :: s)); [by rewrite E|done]). congruence.
Qed.
End posix.
#[global] Arguments PosixLaws F {_ _}.

(** ** A tree with links *)

Inductive node := NDir | NReg | NLnk (target : bytes).
#[global] Instance node_eq_dec : EqDecision node.
Proof. solve_decision. Defined.

Definition node_kind (k : node) : fkind := match k with NDir => FK_DIR | NReg => FK_REG | NLnk _ => FK_LNK end.

Abbreviation tree := (gmap loc node).

(** What is at a location, given from its last name to its first: the directories
    above have to be there. *)
Fixpoint node_rev (m : tree) (r : loc) : option node :=
  match r with
  | [] => Some NDir
  | n :: r' => if bool_decide (Path.kept n) && bool_decide (node_rev m r' = Some NDir) then m !! rev r else None
  end.
Definition node_at (m : tree) (l : loc) : option node := node_rev m (rev l).

Lemma node_at_snoc m l n :
  node_at m (l ++ [n]) = if bool_decide (Path.kept n) && bool_decide (node_at m l = Some NDir) then m !! (l ++ [n]) else None.
Proof. unfold node_at. rewrite rev_unit. cbn [node_rev rev]. by rewrite rev_involutive. Qed.

(** The resolution of the components [cs] from the directory [here]; an empty
    component, which comes from two slashes or from a slash at the end, counts as
    a dot. [fuel] is the number of links that may be followed. *)
Fixpoint walk_tree (follow : bool) (fuel : nat) (m : tree) : loc → list bytes → option loc * list loc :=
  fix go (here : loc) (cs : list bytes) {struct cs} :=
    match cs with
    | [] => (Some here, [])
    | c :: cs =>
      let next :=
        if bool_decide (node_at m here = Some NDir) then
          if bool_decide (c = []) || bool_decide (c = ["."%char]) then go here cs
          else if bool_decide (c = ["."%char; "."%char]) then go (removelast here) cs
          else
            let l := here ++ [c] in
            if bool_decide (cs = []) && negb follow then (Some l, [])
            else
              let r := match node_at m l with
                       | Some (NLnk t) =>
                         match fuel with
                         | O => (None, [])
                         | S fuel => walk_tree follow fuel m (if starts_with [SLASH] t then [] else here) (components [] t ++ cs)
                         end
                       | _ => go l cs
                       end in (r.1, l :: r.2)
        else (None, []) in
      (next.1, here :: next.2)
    end.

(** Forty links, as in Linux; relative paths start from the root. *)
Definition walk_path (follow : bool) (m : tree) (p : bytes) : option loc * list loc :=
  if bool_decide (p = []) then (None, []) else walk_tree follow 40 m [] (components [] p).

Definition child_name (m : tree) (l k : loc) : option bytes :=
  n ← last k; if bool_decide (k = l ++ [n]) && negb (bool_decide (node_at m k = None)) then Some n else None.
Definition child_names (m : tree) (l : loc) : list bytes := omap (child_name m l) (fst <$> map_to_list m).

Definition tree_unlink (m : tree) (p : bytes) : Z * tree :=
  match (walk_path false m p).1 with
  | Some l => match node_at m l with None | Some NDir => (-1, m) | Some _ => (0, delete l m) end
  | None => (-1, m)
  end.

Definition tree_rmdir (m : tree) (p : bytes) : Z * tree :=
  match (walk_path false m p).1, last (components [] (strip p)) with
  | Some l, Some n =>
    if bool_decide ((walk_path false m (strip p)).1 = Some l) && bool_decide (Path.kept n) && bool_decide (node_at m l = Some NDir) &&
       bool_decide (l ≠ []) && bool_decide (child_names m l = []) then (0, delete l m) else (-1, m)
  | _, _ => (-1, m)
  end.

(** The calls that do not matter here do nothing. *)
#[global] Instance tree_FileSystem : FileSystem tree := {|
  sys_lstat m q := k ← ((walk_path false m q).1 ≫= node_at m); Some (node_kind k, 0);
  sys_stat m q := k ← ((walk_path true m q).1 ≫= node_at m); Some (node_kind k, 0);
  sys_perms _ := ∅;
  sys_set_perms m _ := m;
  sys_writable _ _ := true;
  sys_readdir m q := l ← (walk_path true m q).1;
    if bool_decide (node_at m l = Some NDir) then Some ([str "."; str ".."] ++ child_names m l) else None;
  sys_mkdir m q _ := (-1, m);
  sys_rmdir := tree_rmdir;
  sys_unlink := tree_unlink;
  sys_rename m q q' := (-1, m);
  sys_open m q _ := (-1, m);
  sys_close m _ := m;
  sys_islocked _ _ := 0;
  sys_lock m _ := m;
  sys_unlock m _ := m;
  sys_lseek m _ _ _ := (-1, m);
  sys_read m _ _ := (None, m);
  sys_write m _ _ := (-1, m);
  sys_ftruncate m _ _ := m |}.

#[global] Instance tree_Posix : Posix tree := {|
  at_ m l := node_kind <$> node_at m l;
  resolve_path m p := (walk_path false m p).1;
  trail m p := (walk_path false m p).2 |}.

(** *** Resolution *)

Definition is_dot (c : bytes) : bool := bool_decide (c = []) || bool_decide (c = ["."%char]).

Lemma walk_nil follow fuel m here : walk_tree follow fuel m here [] = (Some here, []).
Proof. by destruct fuel. Qed.

(** A component: refused below what is no directory, a dot, a dot-dot, the last
    name, a link, or another name. *)
Lemma walk_cons follow fuel m here c cs :
  walk_tree follow fuel m here (c :: cs) =
    (let r := if bool_decide (node_at m here = Some NDir) then
                if is_dot c then walk_tree follow fuel m here cs
                else if bool_decide (c = ["."%char; "."%char]) then walk_tree follow fuel m (removelast here) cs
                else if bool_decide (cs = []) && negb follow then (Some (here ++ [c]), [])
                else let r := match node_at m (here ++ [c]), fuel with
                              | Some (NLnk t), O => (None, [])
                              | Some (NLnk t), S fuel => walk_tree follow fuel m (if starts_with [SLASH] t then [] else here) (components [] t ++ cs)
                              | _, _ => walk_tree follow fuel m (here ++ [c]) cs
                              end in (r.1, (here ++ [c]) :: r.2)
              else (None, []) in (r.1, here :: r.2)).
Proof.
  destruct fuel; cbn [walk_tree]; unfold is_dot; (destruct (bool_decide (node_at m here = Some NDir)); [|done]);
    (destruct (_ || _); [done|]); (destruct (bool_decide (c = _)); [done|]); (destruct (_ && _); [done|]);
    by destruct (node_at m (here ++ [c])) as [[]|].
Qed.

(** One case for each way a component is walked. *)
Lemma walk_ind (m : tree) (P : nat → loc → list bytes → Prop) :
  (∀ fuel here, P fuel here []) →
  (∀ fuel here c cs, node_at m here ≠ Some NDir → P fuel here (c :: cs)) →
  (∀ fuel here c cs, node_at m here = Some NDir → is_dot c = true → P fuel here cs → P fuel here (c :: cs)) →
  (∀ fuel here cs, node_at m here = Some NDir → P fuel (removelast here) cs → P fuel here (["."%char; "."%char] :: cs)) →
  (∀ fuel here c cs, node_at m here = Some NDir → is_dot c = false → c ≠ ["."%char; "."%char] →
     P fuel (here ++ [c]) cs →
     (∀ t fuel', fuel = S fuel' → node_at m (here ++ [c]) = Some (NLnk t) → P fuel' (if starts_with [SLASH] t then [] else here) (components [] t ++ cs)) →
     P fuel here (c :: cs)) →
  ∀ fuel here cs, P fuel here cs.
Proof.
  intros Hnil Hno Hdot Hup Hname. induction fuel as [|fuel IHf]; intros here cs; revert here; induction cs as [|c cs IH]; intros here; [done| |done|].
  all: destruct (decide (node_at m here = Some NDir)) as [Hd|Hd]; [|by apply Hno]; destruct (is_dot c) eqn:Ec; [by apply Hdot|];
    destruct (decide (c = ["."%char; "."%char])) as [->|Hc]; [by apply Hup|]; apply Hname; try done; intros t fuel' [=]. by subst.
Qed.

(** What is found only depends on what is at the locations of the trail. *)
Lemma walk_same follow fuel m m' here cs :
  (∀ t, t ∈ (walk_tree follow fuel m here cs).2 → node_at m' t = node_at m t) →
  walk_tree follow fuel m' here cs = walk_tree follow fuel m here cs.
Proof.
  induction fuel, here, cs as [fuel here|fuel here c cs Hd|fuel here c cs Hd Hc IH|fuel here cs Hd IH|fuel here c cs Hd Hc Hu IH IHl] using (walk_ind m); intros H.
  - by rewrite !walk_nil.
  - rewrite !walk_cons, (bool_decide_eq_false_2 _ Hd) in *. rewrite (H here) by (by left). by rewrite bool_decide_eq_false_2.
  - rewrite !walk_cons, Hc, Hd, bool_decide_eq_true_2 in * by done. cbn [fst snd] in *.
    rewrite (H here) by (by left). rewrite bool_decide_eq_true_2, IH by (done || (intros t Ht; apply H; by right)). done.
  - rewrite !walk_cons, Hd, bool_decide_eq_true_2 in * by done. cbn [is_dot fst snd] in *.
    change (is_dot ["."%char; "."%char]) with false in *. rewrite (bool_decide_eq_true_2 (_ = _)) in * by done.
    rewrite (H here) by (by left). rewrite (bool_decide_eq_true_2 (_ = Some NDir)), IH by (done || (intros t Ht; apply H; by right)). done.
  - rewrite !walk_cons, Hc, Hd, bool_decide_eq_true_2, (bool_decide_eq_false_2 (c = _)) in * by done.
    cbn [fst snd] in *. rewrite (H here) by (by left). rewrite bool_decide_eq_true_2 by done. destruct (bool_decide (cs = []) && negb follow); [done|].
    cbn [fst snd] in *. rewrite (H (here ++ [c])) by (right; by left).
    destruct (node_at m (here ++ [c])) as [[| |t]|] eqn:En; [rewrite IH; [done|intros x Hx; apply H; right; by right]..| |rewrite IH; [done|intros x Hx; apply H; right; by right]].
    destruct fuel as [|fuel]; [done|]. rewrite (IHl t fuel); [done..|]. intros x Hx. apply H. right. by right.
Qed.

(** A directory is found whether links at the end are followed or not. *)
Lemma walk_follow fuel m here cs l :
  (walk_tree false fuel m here cs).1 = Some l → node_at m l = Some NDir → (walk_tree true fuel m here cs).1 = Some l.
Proof.
  intros H Hl. induction fuel, here, cs as [fuel here|fuel here c cs Hd|fuel here c cs Hd Hc IH|fuel here cs Hd IH|fuel here c cs Hd Hc Hu IH IHl] using (walk_ind m).
  - by rewrite walk_nil in *.
  - by rewrite !walk_cons, (bool_decide_eq_false_2 _ Hd) in *.
  - rewrite !walk_cons, Hc, Hd, bool_decide_eq_true_2 in * by done. auto.
  - rewrite !walk_cons, Hd, bool_decide_eq_true_2 in * by done. change (is_dot ["."%char; "."%char]) with false in *.
    rewrite (bool_decide_eq_true_2 (_ = _)) in * by done. auto.
  - rewrite !walk_cons, Hc, Hd, bool_decide_eq_true_2, (bool_decide_eq_false_2 (c = _)) in * by done. rewrite andb_false_r. cbn [fst snd] in *.
    case_bool_decide as Hcs; cbn [negb andb fst] in H.
    + injection H as ->. subst cs. rewrite Hl, walk_nil. by destruct fuel.
    + destruct (node_at m (here ++ [c])) as [[| |t]|] eqn:En; [auto..| |auto]. destruct fuel as [|fuel]; [done|]. by eapply IHl.
Qed.

Lemma is_dot_kept n : Path.kept n → is_dot n = false ∧ n ≠ ["."%char; "."%char].
Proof. intros (_ & ? & ? & ?). split; [|done]. unfold is_dot. by rewrite !bool_decide_eq_false_2. Qed.

(** A name in a directory that was found. *)
Lemma walk_snoc fuel m here cs l n :
  (walk_tree false fuel m here cs).1 = Some l → node_at m l = Some NDir → Path.kept n →
  (walk_tree false fuel m here (cs ++ [n])).1 = Some (l ++ [n]) ∧
  (walk_tree false fuel m here (cs ++ [n])).2 ⊆ l :: (walk_tree false fuel m here cs).2.
Proof.
  intros H Hl Hn. pose proof (is_dot_kept n Hn) as [Hnd Hnu].
  assert (Hone : ∀ fuel, walk_tree false fuel m l [n] = (Some (l ++ [n]), [l])).
  { intros f. rewrite walk_cons, Hl, Hnd, bool_decide_eq_true_2, (bool_decide_eq_false_2 (n = _)) by done. done. }
  induction fuel, here, cs as [fuel here|fuel here c cs Hd|fuel here c cs Hd Hc IH|fuel here cs Hd IH|fuel here c cs Hd Hc Hu IH IHl] using (walk_ind m);
    cbn [app].
  - rewrite walk_nil in *. injection H as ->. rewrite Hone. split; [done|]. set_solver.
  - by rewrite !walk_cons, (bool_decide_eq_false_2 _ Hd) in *.
  - rewrite !walk_cons, Hc, Hd, bool_decide_eq_true_2 in * by done. cbn [fst snd] in *. destruct (IH H) as [? ?]. split; [done|]. set_solver.
  - rewrite !walk_cons, Hd, bool_decide_eq_true_2 in * by done. change (is_dot ["."%char; "."%char]) with false in *.
    rewrite (bool_decide_eq_true_2 (_ = _)) in * by done. cbn [fst snd] in *. destruct (IH H) as [? ?]. split; [done|]. set_solver.
  - rewrite !walk_cons, Hc, Hd, bool_decide_eq_true_2, (bool_decide_eq_false_2 (c = _)) in * by done. cbn [fst snd] in *.
    rewrite (bool_decide_eq_false_2 (cs ++ [n] = [])) by (by destruct cs). cbn [andb negb].
    case_bool_decide as Hcs; cbn [negb andb fst snd] in *.
    + injection H as <-. subst cs. cbn [app]. rewrite Hl, Hone. destruct fuel; (split; [done|]; set_solver).
    + destruct (node_at m (here ++ [c])) as [[| |t]|] eqn:En; [destruct (IH H); split; [done|set_solver]..| |destruct (IH H); split; [done|set_solver]].
      destruct fuel as [|fuel]; [done|]. destruct (IHl t fuel eq_refl eq_refl H) as [H1 H2]. rewrite app_assoc. split; [done|]. set_solver.
Qed.

(** The last name is the last name of the location, when it is not followed. *)
Lemma walk_last fuel m here cs l n :
  (walk_tree false fuel m here (cs ++ [n])).1 = Some l → Path.kept n → ∃ l', l = l' ++ [n].
Proof.
  intros H Hn. pose proof (is_dot_kept n Hn) as [Hnd Hnu].
  induction fuel, here, cs as [fuel here|fuel here c cs Hd|fuel here c cs Hd Hc IH|fuel here cs Hd IH|fuel here c cs Hd Hc Hu IH IHl] using (walk_ind m);
    cbn [app] in *.
  - rewrite walk_cons, Hnd, (bool_decide_eq_false_2 (n = _)) in H by done. case_bool_decide; [|done]. injection H as <-. by exists here.
  - by rewrite walk_cons, (bool_decide_eq_false_2 _ Hd) in H.
  - rewrite walk_cons, Hc, Hd, bool_decide_eq_true_2 in H by done. auto.
  - rewrite walk_cons, Hd, bool_decide_eq_true_2 in H by done. change (is_dot ["."%char; "."%char]) with false in H.
    rewrite (bool_decide_eq_true_2 (_ = _)) in H by done. auto.
  - rewrite walk_cons, Hc, Hd, bool_decide_eq_true_2, (bool_decide_eq_false_2 (c = _)) in H by done. cbn [fst snd] in H.
    rewrite (bool_decide_eq_false_2 (cs ++ [n] = [])) in H by (by destruct cs). cbn [andb fst] in H.
    destruct (node_at m (here ++ [c])) as [[| |t]|] eqn:En; [auto..| |auto]. destruct fuel as [|fuel]; [done|].
    rewrite app_assoc in H. by eapply IHl.
Qed.

(** *** The laws hold *)

Lemma components_name cur p n : SLASH ∉ n → components cur (p ++ SLASH :: n) = components cur p ++ [n].
Proof.
  intros Hn. assert (E : ∀ cur, components cur n = [cur ++ n]).
  { clear cur. induction n as [|c n IH]; intros cur; [by rewrite app_nil_r|]. cbn [components]. rewrite bool_decide_eq_false_2 by set_solver.
    rewrite IH by set_solver. by rewrite <- app_assoc. }
  revert cur. induction p as [|c p IH]; intros cur; cbn [app components].
  - rewrite bool_decide_eq_true_2 by done. by rewrite E.
  - case_bool_decide; [|apply IH]. by rewrite IH.
Qed.

Lemma node_at_above m l n : node_at m (l ++ [n]) ≠ None → node_at m l = Some NDir ∧ Path.kept n.
Proof. rewrite node_at_snoc. repeat case_bool_decide; cbn [andb]; done. Qed.

(** The same of paths. *)
Lemma walk_path_same follow m m' p :
  (∀ t, t ∈ (walk_path follow m p).2 → node_at m' t = node_at m t) → walk_path follow m' p = walk_path follow m p.
Proof. unfold walk_path. case_bool_decide; [done|]. apply walk_same. Qed.

Lemma walk_path_follow m p l : (walk_path false m p).1 = Some l → node_at m l = Some NDir → (walk_path true m p).1 = Some l.
Proof. unfold walk_path. case_bool_decide; [done|]. apply walk_follow. Qed.

Lemma walk_path_name m p l n : (walk_path false m p).1 = Some l → node_at m l = Some NDir → Path.kept n →
  (walk_path false m (p ++ SLASH :: n)).1 = Some (l ++ [n]) ∧ (walk_path false m (p ++ SLASH :: n)).2 ⊆ l :: (walk_path false m p).2.
Proof.
  unfold walk_path. case_bool_decide as Hp; [done|]. intros H Hl Hn. pose proof Hn as ((Hs & _) & _).
  rewrite bool_decide_eq_false_2 by (by destruct p). rewrite components_name by done. by apply walk_snoc.
Qed.

Lemma walk_path_last m p l n : (walk_path false m p).1 = Some l → last (components [] p) = Some n → Path.kept n → l ≠ [].
Proof.
  unfold walk_path. case_bool_decide as Hp; [done|]. intros H [cs E]%last_Some Hn. rewrite E in H.
  destruct (walk_last _ _ _ _ _ _ H Hn) as [l' ->]. by destruct l'.
Qed.
#[local] Opaque walk_path.

(** Nothing but a leaf is gone when it is taken out of the tree. *)
Lemma node_at_delete m l l' : l ≠ [] → (∀ n, node_at m (l ++ [n]) = None) →
  node_at (delete l m) l' = if decide (l' = l) then None else node_at m l'.
Proof.
  intros Hl Hleaf. induction l' as [|n l' IH] using rev_ind; [by case_decide; [subst|]|]. rewrite (node_at_snoc (delete l m)), IH.
  destruct (decide (l' = l)) as [->|Hl'].
  - rewrite (bool_decide_eq_false_2 (None = _)), andb_false_r by done. case_decide; [done|]. by rewrite Hleaf.
  - case_decide as E; [|by rewrite node_at_snoc, lookup_delete_ne by congruence]. rewrite E, lookup_delete_eq. by destruct (_ && _).
Qed.

Lemma child_names_spec m l n : n ∈ child_names m l ↔ node_at m (l ++ [n]) ≠ None.
Proof.
  unfold child_names. rewrite list_elem_of_omap. setoid_rewrite list_elem_of_fmap. split.
  - intros (k & _ & Hk). unfold child_name in Hk. destruct (last k) as [n'|]; [|done]. cbn in Hk. case_bool_decide as E; [|done].
    case_bool_decide; [done|]. cbn in Hk. injection Hk as ->. by rewrite <- E.
  - intros Hn. exists (l ++ [n]). unfold child_name. rewrite last_snoc. cbn. rewrite bool_decide_eq_true_2, bool_decide_eq_false_2 by done.
    split; [|done]. rewrite node_at_snoc in Hn. destruct (_ && _); [|done]. destruct (m !! (l ++ [n])) as [k|] eqn:E; [|done].
    exists (l ++ [n], k). split; [done|]. by apply elem_of_map_to_list.
Qed.

Lemma tree_gone m l : l ≠ [] → (∀ n, node_at m (l ++ [n]) = None) → gone (eq l) m (delete l m).
Proof.
  intros Hl Hleaf. split; cbn [at_ resolve_path trail tree_Posix].
  - intros l' <-. by rewrite node_at_delete, decide_True.
  - intros l' Hl'. by rewrite node_at_delete, decide_False by naive_solver.
  - intros p Hp. rewrite (walk_path_same _ m); [done|].
    intros t Ht. rewrite node_at_delete by done. rewrite decide_False; [done|]. intros ->. by eapply Hp.
Qed.

Lemma node_kind_dir k : node_kind k = FK_DIR → k = NDir.
Proof. by destruct k. Qed.
Lemma node_kind_at m l : node_kind <$> node_at m l = Some FK_DIR → node_at m l = Some NDir.
Proof. destruct (node_at m l) as [k|]; [|done]. intros [= E]. by rewrite (node_kind_dir k). Qed.

#[global] Instance tree_laws : PosixLaws tree.
Proof.
  split; cbn [at_ resolve_path trail tree_Posix sys_lstat sys_readdir sys_unlink sys_rmdir tree_FileSystem].
  - intros m p. unfold lstat_kind. cbn [sys_lstat tree_FileSystem]. destruct (walk_path false m p).1 as [l|]; [|done]. cbn. by destruct (node_at m l).
  - intros m l n H. destruct (node_at_above m l n) as [-> ?]; [|done]. by destruct (node_at m (l ++ [n])).
  - intros m p l Hp Hl%node_kind_at. rewrite (walk_path_follow _ _ l) by done. cbn. rewrite bool_decide_eq_true_2 by done.
    eexists. split; [done|]. intros n [Hn1 Hn2]. rewrite !elem_of_cons, child_names_spec.
    destruct (node_at m (l ++ [n])); naive_solver.
  - intros m p l n Hp Hl%node_kind_at Hn. by apply walk_path_name.
  - intros m p l k Hp Hk Hd. unfold tree_unlink. rewrite Hp. destruct (node_at m l) as [x|] eqn:El; [|done]. injection Hk as <-. exists (delete l m).
    split; [by destruct x|]. apply tree_gone; [intros ->; cbn in El; injection El as <-; done|].
    intros n. destruct (node_at m (l ++ [n])) eqn:En; [|done]. destruct (node_at_above m l n) as [E _]; [by rewrite En|].
    rewrite El in E. by injection E as ->.
  - intros m p l [Hp Hs (n & Hn & Hk)] Hl%node_kind_at Hleaf. cbn [resolve_path tree_Posix] in Hp, Hs. exists (delete l m). unfold tree_rmdir. rewrite Hp, Hn, Hs.
    assert (Hne : l ≠ []) by (by eapply walk_path_last).
    assert (Hleaf' : ∀ n, node_at m (l ++ [n]) = None) by (intros x; specialize (Hleaf x); by destruct (node_at m (l ++ [x]))).
    assert (Hcn : child_names m l = []) by (apply elem_of_nil_inv; intros x Hx%child_names_spec; by apply Hx).
    rewrite !bool_decide_eq_true_2 by done.
    split; [done|]. by apply tree_gone.
Qed.
