(* ===== verification/Transfer.v ===== *)
(** * Data connections and transfers: libwzd-core/wzd_data.c

    With [waitaccept], [waitconnect] and the checks on the other end of a data
    connection of wzd_ClientThread.c, in the configuration with TLS and without
    [IPV6_SUPPORT]. The sockets, the TLS negotiation and the hooks that modules
    register for events are parameters; what is sent on the data connection is
    recorded with the system calls. Speed limits and logs are left out. *)
From S2P Require Import Prelude Inet CList Registry Users Backend Perm Path PermFile Vfs Session Commands Chdir Login FileOps.

Definition FLAG_FXP_DISABLE : ascii := "F".
Definition FLAG_TLS_DATA : ascii := "K".

Definition EVENT_OK : Z := 0.
Definition EVENT_BREAK : Z := 1.
Definition EVENT_DENY : Z := 2.
Definition EVENT_PREUPLOAD : Z := 0x10.
Definition EVENT_POSTUPLOAD : Z := 0x20.
Definition EVENT_PREDOWNLOAD : Z := 0x40.
Definition EVENT_POSTDOWNLOAD : Z := 0x80.
Definition EVENT_PREMKDIR : Z := 0x100.
Definition EVENT_PRERENAME : Z := 0x40000.

#[global] Instance tls_data_mode_t_eq_dec : EqDecision tls_data_mode_t.
Proof. solve_decision. Defined.
#[global] Instance connection_state_t_eq_dec : EqDecision connection_state_t.
Proof. solve_decision. Defined.

Definition ARG_LEN : nat := 4096.  (** [HARD_LAST_COMMAND_LENGTH] *)

Definition set_token (x : transfer) (t : Z) : transfer :=
  set_action x (mkAction t (a_arg (x_action x)) (a_file (x_action x)) (a_bytesnow (x_action x))).
Definition set_arg (x : transfer) (s : bytes) : transfer :=
  set_action x (mkAction (a_token (x_action x)) (strncpy (a_arg (x_action x)) s ARG_LEN) (a_file (x_action x)) (a_bytesnow (x_action x))).
Definition set_file (x : transfer) (fd n : Z) : transfer :=
  set_action x (mkAction (a_token (x_action x)) (a_arg (x_action x)) fd n).

Section transfer.
  Context {F : Type} `{!FileSystem F}.
  Context (b : option wzd_backend_t) (umask : Z) (vfs : list wzd_vfs_t) (cmds : ctable).
  (** The answer of the hooks to an event, and [time(NULL)]. *)
  Context (event_send : Z → list bytes → Z) (now : Z).

Definition answer (code : Z) (text : string) : H F unit := sess (reply code text).

(** ** Who is at the other end *)

Definition context_userp : M (option wzd_user_t) :=
  c ← my_context; p ← getUserByID b (c_userid c);
  match p with None => mret None | Some a => u ← user_at a; mret (Some u) end.

Definition fxp_is_denied (user : wzd_user_t) : outcome bool := has_flag FLAG_FXP_DISABLE user.

(** 0 when the address is the client's. *)
Definition test_fxp (remote : list Z) (family : net_family_t) (cn : connection) : Z :=
  match family with
  | WZD_INET4 => if bool_decide (take 4 remote = take 4 (cn_hostip cn)) then 0 else 1
  | WZD_INET6 => if bool_decide (take 16 remote = take 16 (cn_hostip cn)) then 0 else 1
  | WZD_INET_NONE => -1
  end.

(** [user && strchr(user->flags,FLAG_TLS_DATA) && tls_data_mode != TLS_PRIV] *)
Definition needs_tls (user : option wzd_user_t) (cn : connection) : outcome bool :=
  match user with
  | None => Val false
  | Some u => k ← has_flag FLAG_TLS_DATA u; Val (k && match cn_tls_data_mode cn with TLS_PRIV => false | TLS_CLEAR => true end)
  end.

Section sockets.
  (** Whether the client connects in time, [socket_accept] with the address and
      the family of the other end, [socket_connect], and [tls_init_datamode]. *)
  Context (pasv_ready : bool) (socket_accept : Z → option (Z * list Z * net_family_t)).
  Context (socket_connect : list Z → net_family_t → Z → Z) (tls_init_datamode : Z → Z).

Definition close_pasv : H F unit := upd_x (λ x, set_sockets x (-1) (x_data x)).

Definition refuse_data (code : Z) (text : string) : H F Z := answer code text;; mret (-1).

Definition waitaccept : H F Z :=
  c ← sess my_context; user ← sess context_userp;
  tls ← must (needs_tls user (c_conn c));
  if (tls : bool) then refuse_data 501 "Your class must use encrypted data connections" else
  if negb pasv_ready then close_pasv;; refuse_data 501 "PASV timeout" else
  x ← xfer;
  match socket_accept (x_pasv x) with
  | None => close_pasv;; refuse_data 501 "PASV timeout"
  | Some (sock, remote_host, family) =>
    upd_x (λ x, set_peer x family (x_port x) (x_ip x));;
    user ← must (deref user);
    denied ← must (fxp_is_denied user);
    if denied && negb (test_fxp remote_host family (c_conn c) =? 0) then
      upd_x (λ x, set_peer x (x_family x) (x_port x) (replicate 16 0));; close_pasv;;
      refuse_data 501 "FXP not allowed"
    else if bool_decide (cn_tls_data_mode (c_conn c) = TLS_PRIV) && negb (tls_init_datamode sock =? 0) then
      close_pasv;; refuse_data 426 "Data connection closed (SSL/TLS negotiation failed)."
    else upd_x (λ x, set_datamode (set_sockets x sock sock) DATA_PASV);; mret sock
  end.

Definition waitconnect : H F Z :=
  c ← sess my_context; user ← sess context_userp;
  tls ← must (needs_tls user (c_conn c));
  if (tls : bool) then refuse_data 501 "Your class must use encrypted data connections" else
  x ← xfer;
  match x_family x with
  | WZD_INET4 =>
    answer 150 "";;
    let sock := socket_connect (x_ip x) (x_family x) (x_port x) in
    if sock =? -1 then refuse_data 425 ""
    else if bool_decide (cn_tls_data_mode (c_conn c) = TLS_PRIV) && negb (tls_init_datamode sock =? 0) then
      refuse_data 426 "Data connection closed (SSL/TLS negotiation failed)."
    else mret sock
  | _ => refuse_data 425 ""
  end.
End sockets.

(** ** The end of a transfer *)

Definition update_last_file : H F unit :=
  x ← xfer;
  arg ← must (buf_str (a_arg (x_action x)));
  upd_x (λ x, set_last x (mkLast (strncpy (l_name (x_last x)) arg MAXPATH) (a_bytesnow (x_action x)) (a_token (x_action x)))).

Definition data_close : H F unit :=
  upd_x (λ x, set_sockets x (-1) (-1));; sess (upd_conn (λ cn, set_state cn STATE_UNKNOWN)).

(** The hooks may refuse an uploaded file, which is then removed. *)
Definition data_end_transfer (is_upload : bool) : H F unit :=
  h ← get;
  let fd := a_file (x_action (h_x h)) in
  put_fs (sys_close (sys_unlock (h_fs h) fd) fd);;
  update_last_file;;
  upd_x (λ x, set_file x (-1) 0);;
  sess (upd_conn (λ cn, set_state cn STATE_COMMAND));;
  data_close;;
  upd_x (λ x, set_token x TOK_UNKNOWN);;
  user ← sess (context_user b);
  name ← must (buf_str (username user));
  x ← xfer;
  arg ← must (buf_str (a_arg (x_action x)));
  if (event_send (if is_upload then EVENT_POSTUPLOAD else EVENT_POSTDOWNLOAD) [name; arg] =? EVENT_DENY) && is_upload
  then file_remove b umask vfs cmds arg;; mret tt
  else mret tt.

(** ** One step of a transfer *)

Definition count_down (n : Z) (u : wzd_user_t) : wzd_user_t :=
  let st := stats u in
  let u := set_stats u (mkStats (bytes_ul_total st) (u64 (bytes_dl_total st + n)) (files_ul_total st) (files_dl_total st)) in
  if u_ratio u =? 0 then u else set_credits u (if n <=? credits u then credits u - n else 0).

(** [user->ratio * n] is an [unsigned int]. *)
Definition count_up (n : Z) (u : wzd_user_t) : wzd_user_t :=
  let st := stats u in
  let u := set_stats u (mkStats (u64 (bytes_ul_total st + n)) (bytes_dl_total st) (files_ul_total st) (files_dl_total st)) in
  if u_ratio u =? 0 then u
  else set_credits u (if ULONG_MAX - u32 (u_ratio u * n) <=? credits u then ULONG_MAX else credits u + u32 (u_ratio u * n)).

Definition count_file_up (u : wzd_user_t) : wzd_user_t :=
  let st := stats u in
  set_stats u (mkStats (bytes_ul_total st) (bytes_dl_total st) (u64 (files_ul_total st + 1)) (files_dl_total st)).
Definition count_file_down (u : wzd_user_t) : wzd_user_t :=
  let st := stats u in
  set_stats u (mkStats (bytes_ul_total st) (bytes_dl_total st) (files_ul_total st) (u64 (files_dl_total st + 1))).

Definition add_bytes (x : transfer) (n : Z) : transfer := set_file x (a_file (x_action x)) (u64 (a_bytesnow (x_action x) + n)).

Definition finished (me : addr) (mod_type : Z) : H F Z :=
  answer 226 "";;
  u ← sess (user_at me);
  sess (modUser b (uid u) (Some me) mod_type);;
  upd_x (λ x, set_idle (set_token x TOK_UNKNOWN) now (x_idle_data x));;
  mret 0.

(** [buflen] is [mainConfig->data_buffer_length]; [sent] the result of the write
    on the data connection, [received] what was read from it, nothing at its end
    or after an error. A failed write to the file is only logged. *)
Definition data_execute (buflen : nat) (me : addr) (sent : Z) (received : bytes) : H F Z :=
  h ← get;
  let act := x_action (h_x h) in
  let fd := a_file act in
  if a_token act =? TOK_RETR then
    let '(r, fs) := sys_read (h_fs h) fd buflen in
    put_fs fs;;
    match r with
    | Some ((_ :: _) as data) =>
      let n := Z.of_nat (length data) in
      call (SysSend data) (λ f, (tt, f));;
      if sent <=? 0 then
        data_end_transfer false;; answer 426 "";; upd_x (λ x, set_idle x now (x_idle_data x));; mret 1
      else
        upd_x (λ x, add_bytes x n);;
        sess (user_upd me (count_down n));;
        upd_x (λ x, set_idle x (x_idle x) now);; mret 0
    | _ => data_end_transfer false;; finished me (2 ^ _USER_BYTESDL + 2 ^ _USER_CREDITS)
    end
  else if a_token act =? TOK_STOR then
    match received with
    | _ :: _ =>
      let n := Z.of_nat (length received) in
      let '(_, fs) := sys_write (h_fs h) fd received in
      put_fs fs;;
      upd_x (λ x, add_bytes x n);;
      sess (user_upd me (count_up n));;
      upd_x (λ x, set_idle x (x_idle x) now);; mret 0
    | [] =>
      let '(pos, fs) := sys_lseek (h_fs h) fd 0 SEEK_CUR in
      put_fs (sys_unlock (sys_ftruncate fs fd pos) fd);;
      data_end_transfer true;;
      answer 226 "";;
      sess (user_upd me count_file_up);;
      u ← sess (user_at me);
      sess (modUser b (uid u) (Some me) (2 ^ _USER_BYTESUL + 2 ^ _USER_CREDITS));;
      upd_x (λ x, set_idle (set_token x TOK_UNKNOWN) now (x_idle_data x));;
      mret 0
    end
  else mret 0.

(** Which descriptors the loop of the client waits for: the one to read from and
    the one to write to; and what it finds ready. *)
Definition data_set_fd (x : transfer) (st : connection_state_t) : option Z * option Z :=
  let go := bool_decide (st = STATE_XFER) && negb (x_data x =? -1) in
  if a_token (x_action x) =? TOK_RETR then (None, if go then Some (x_data x) else None)
  else if a_token (x_action x) =? TOK_STOR then (if go then Some (x_data x) else None, None)
  else (None, None).

Definition data_check_fd (x : transfer) (readable writable : bool) : Z :=
  if a_token (x_action x) =? TOK_RETR then if writable then 1 else -1
  else if a_token (x_action x) =? TOK_STOR then if readable then 1 else x_data x
  else -1.
End transfer.
