(* ===== verification/TransferProps.v ===== *)
(** * Transfers: what is sent, what is stored, what is counted

    Running [data_execute] until a transfer ends: a download sends the file from
    the place where it starts to its end, an upload writes what is received, and
    the statistics and credits of the user change accordingly. The file system
    is any one whose open files behave as POSIX says, the class [OpenFiles]. *)
From S2P Require Import Prelude Inet CList Registry Users Backend Perm Path PermFile Vfs Session SiteUserProps Commands Chdir Login FileOps Transfer.

(** ** Open files *)

(** [opened fs fd] is the path and the position of a descriptor, [stored fs q]
    the contents of a file. *)
Class OpenFiles (F : Type) `{!FileSystem F} (opened : F → Z → option (bytes * nat)) (stored : F → bytes → bytes) : Prop := {
  of_read fs fd q p n : opened fs fd = Some (q, p) →
    ∃ fs', sys_read fs fd n = (Some (take n (drop p (stored fs q))), fs') ∧
      opened fs' fd = Some (q, (p + length (take n (drop p (stored fs q))))%nat) ∧ ∀ q', stored fs' q' = stored fs q';
  of_tell fs fd q p : opened fs fd = Some (q, p) →
    ∃ fs', sys_lseek fs fd 0 SEEK_CUR = (Z.of_nat p, fs') ∧ opened fs' fd = Some (q, p) ∧ ∀ q', stored fs' q' = stored fs q';
  of_truncate fs fd q p n : opened fs fd = Some (q, p) → (n ≤ length (stored fs q))%nat →
    stored (sys_ftruncate fs fd (Z.of_nat n)) q = take n (stored fs q) ∧
    ∀ q', q' ≠ q → stored (sys_ftruncate fs fd (Z.of_nat n)) q' = stored fs q';
  of_unlock fs fd q : stored (sys_unlock fs fd) q = stored fs q;
  of_close fs fd q : stored (sys_close fs fd) q = stored fs q }.

(** [room fs] is a number of bytes the file system still takes: POSIX promises
    that a write is complete, and succeeds, when there is room for what it
    writes, and of nothing else here is it known what it does. *)
Class WritesInRoom (F : Type) `{!FileSystem F} (opened : F → Z → option (bytes * nat)) (stored : F → bytes → bytes) (room : F → nat) : Prop :=
  wr_write fs fd q p d : opened fs fd = Some (q, p) → (p ≤ length (stored fs q))%nat → (length d ≤ room fs)%nat →
    ∃ fs', sys_write fs fd d = (Z.of_nat (length d), fs') ∧ opened fs' fd = Some (q, (p + length d)%nat) ∧
      stored fs' q = take p (stored fs q) ++ d ++ drop (p + length d) (stored fs q) ∧
      (∀ q', q' ≠ q → stored fs' q' = stored fs q') ∧ (room fs ≤ room fs' + length d)%nat.

(** ** Running in the state of a client *)

Lemma hbind {F A B} (m : H F A) (f : A → H F B) h a h1 : m h = Val (a, h1) → (m ≫= f) h = f a h1.
Proof. intros Hm. unfold mbind, H_bind. by rewrite Hm. Qed.

Definition with_s {F} (h : hstate F) (s : session) : hstate F := mkH s (h_x h) (h_fs h) (h_calls h).
Definition with_x {F} (h : hstate F) (x : transfer) : hstate F := mkH (h_s h) x (h_fs h) (h_calls h).
Definition with_fs {F} (h : hstate F) (fs : F) : hstate F := mkH (h_s h) (h_x h) fs (h_calls h).

Lemma run_sess {F A} (m : M A) (h : hstate F) a s : m (h_s h) = Val (a, s) → sess m h = Val (a, with_s h s).
Proof. intros Hm. unfold sess. by rewrite Hm. Qed.
Lemma run_must {F A} (o : outcome A) (h : hstate F) a : o = Val a → must o h = Val (a, h).
Proof. by intros ->. Qed.

(** The session with the structure of a user changed, or its own connection. *)
Definition with_user (s : session) (me : addr) (m : wzd_user_t) : session := set_world s (put_user (ss_world s) me m).
Definition with_conn (s : session) (c : client) (cn : connection) : session :=
  set_world s (with_contexts (ss_world s) (<[ss_ctx s := set_conn c cn]> (w_contexts (ss_world s)))).

Lemma run_upd_conn s c f : w_contexts (ss_world s) !! ss_ctx s = Some c → upd_conn f s = Val (tt, with_conn s c (f (c_conn c))).
Proof. intros Hc. unfold upd_conn. by rewrite Hc. Qed.

Lemma session_user_put s me m m' : session_user s me m → uid m' = uid m → session_user (with_user s me m') me m'.
Proof.
  intros (Hwf & Hm & Hreg & c & Hc & Hi) Hid. split_and!.
  - by eapply put_user_wf.
  - apply lookup_insert_eq.
  - by rewrite Hid.
  - exists c. by rewrite Hid.
Qed.
Lemma session_user_conn s me m c cn :
  session_user s me m → w_contexts (ss_world s) !! ss_ctx s = Some c → session_user (with_conn s c cn) me m.
Proof.
  intros (Hwf & Hm & Hreg & c' & Hc' & Hi) Hc. assert (c' = c) as -> by congruence. split_and!; [done..|].
  exists (set_conn c cn). split; [|done]. apply list_lookup_insert_eq. by apply lookup_lt_Some in Hc.
Qed.
Lemma with_conn_context s c cn : w_contexts (ss_world s) !! ss_ctx s = Some c →
  w_contexts (ss_world (with_conn s c cn)) !! ss_ctx (with_conn s c cn) = Some (set_conn c cn).
Proof. intros Hc. apply list_lookup_insert_eq. by apply lookup_lt_Some in Hc. Qed.
Lemma with_conn_again s c cn cn' : with_conn (with_conn s c cn) (set_conn c cn) cn' = with_conn s c cn'.
Proof. unfold with_conn, set_world, with_contexts, set_conn. simpl. by rewrite list_insert_insert_eq. Qed.
Lemma with_user_again s me m m' : with_user (with_user s me m) me m' = with_user s me m'.
Proof. unfold with_user, put_user, set_world, with_users, set_heap. simpl. by rewrite insert_insert_eq. Qed.

(** Execution step by step, innermost call first. *)
Lemma step_bind {F A B C} (m : H F A) (f : A → H F B) (g : B → H F C) h : ((m ≫= f) ≫= g) h = (m ≫= λ a, f a ≫= g) h.
Proof. unfold mbind, H_bind. by destruct (m h) as [[]|]. Qed.
Lemma step_ret {F A B} (a : A) (f : A → H F B) h : (mret a ≫= f) h = f a h.
Proof. done. Qed.
Lemma step_get {F B} (f : hstate F → H F B) h : (get ≫= f) h = f h h.
Proof. done. Qed.
Lemma step_xfer {F B} (f : transfer → H F B) h : (xfer ≫= f) h = f (h_x h) h.
Proof. done. Qed.
Lemma step_upd_x {F B} g (f : unit → H F B) h : (upd_x g ≫= f) h = f tt (with_x h (g (h_x h))).
Proof. done. Qed.
Lemma step_put_fs {F B} fs (f : unit → H F B) h : (put_fs fs ≫= f) h = f tt (with_fs h fs).
Proof. done. Qed.
Lemma step_answer {F B} code text (f : unit → H F B) h : (answer code text ≫= f) h = f tt (with_s h (add_event (h_s h) (Reply code (str text)))).
Proof. done. Qed.
Lemma step_must {F A B} (o : outcome A) a (f : A → H F B) h : o = Val a → (must o ≫= f) h = f a h.
Proof. by intros ->. Qed.
Lemma step_sess {F A B} (m : M A) a s (f : A → H F B) h : m (h_s h) = Val (a, s) → (sess m ≫= f) h = f a (with_s h s).
Proof. intros Hm. apply hbind. by apply run_sess. Qed.

Ltac fields := cbn [with_s with_x with_fs h_s h_x h_fs h_calls set_action set_last set_sockets set_file set_token set_idle add_bytes
  x_action x_last x_idle x_idle_data a_arg a_token a_file a_bytesnow ss_out add_event].
Ltac hrun := repeat (first [rewrite step_bind|rewrite step_ret|rewrite step_get|rewrite step_xfer|rewrite step_upd_x|rewrite step_put_fs
  |rewrite step_answer]; fields).

Section run.
  Context {F : Type} `{!FileSystem F}.
  Context (changepass : list ascii → list ascii → list ascii → nat → Z * list ascii) (check_auth : list ascii → list ascii → list ascii → Z).
  #[local] Abbreviation pb := (Some (plaintext changepass check_auth)).

Lemma run_context_user s me m : session_user s me m → context_user pb s = Val (m, s).
Proof.
  intros Hs. unfold context_user. rewrite (bind_run _ _ s me s (run_get_me changepass check_auth s me m Hs)).
  destruct Hs as (_ & Hm & _). by apply run_user_at.
Qed.

Context (umask : Z) (vfs : list wzd_vfs_t) (cmds : ctable) (event_send : Z → list bytes → Z) (now : Z).

(** The end of a transfer that the hooks do not refuse. *)
Definition ended (h : hstate F) (c : client) (arg : bytes) : hstate F :=
  let x := h_x h in
  let act := x_action x in
  mkH (with_conn (h_s h) c (set_state (c_conn c) STATE_UNKNOWN))
    (set_action (set_sockets (set_last x (mkLast (strncpy (l_name (x_last x)) arg MAXPATH) (a_bytesnow act) (a_token act))) (-1) (-1))
       (mkAction TOK_UNKNOWN (a_arg act) (-1) 0))
    (sys_close (sys_unlock (h_fs h) (a_file act)) (a_file act)) (h_calls h).

Lemma run_end_transfer h me m c name arg is_upload :
  session_user (h_s h) me m → w_contexts (ss_world (h_s h)) !! ss_ctx (h_s h) = Some c →
  buf_str (username m) = Val name → buf_str (a_arg (x_action (h_x h))) = Val arg →
  is_upload = false ∨ event_send EVENT_POSTUPLOAD [name; arg] ≠ EVENT_DENY →
  data_end_transfer pb umask vfs cmds event_send is_upload h = Val (tt, ended h c arg).
Proof.
  intros Hs Hc Hn Ha Hup. unfold data_end_transfer, update_last_file, data_close. hrun. rewrite (step_must _ _ _ _ Ha). hrun.
  erewrite step_sess by (by apply (run_upd_conn _ c)). hrun.
  erewrite step_sess by (apply run_upd_conn; by apply (with_conn_context _ c)). hrun. rewrite (with_conn_again _ c).
  erewrite step_sess by (eapply run_context_user; by apply (session_user_conn _ me m)).
  rewrite (step_must _ _ _ _ Hn). hrun. rewrite (step_must _ _ _ _ Ha).
  replace (_ && is_upload) with false; [by destruct h as [s [] fs cl]|].
  destruct Hup as [->|Hup]; [by rewrite andb_false_r|]. destruct is_upload; [|by rewrite andb_false_r].
  by rewrite (proj2 (Z.eqb_neq _ _) Hup).
Qed.

(** ** Steps *)

Context (opened : F → Z → option (bytes * nat)) (stored : F → bytes → bytes) `{!OpenFiles F opened stored} (buflen : nat).

#[local] Abbreviation execute := (data_execute pb umask vfs cmds event_send now buflen).

(** A client in the middle of a transfer, with the file [q] open at the place
    [p]. *)
Record transferring (tok : Z) (h : hstate F) (me : addr) (m : wzd_user_t) (c : client) (name arg : bytes) (fd : Z) (q : bytes) (p : nat) : Prop := {
  tr_user : session_user (h_s h) me m;
  tr_context : w_contexts (ss_world (h_s h)) !! ss_ctx (h_s h) = Some c;
  tr_name : buf_str (username m) = Val name;
  tr_arg : buf_str (a_arg (x_action (h_x h))) = Val arg;
  tr_token : a_token (x_action (h_x h)) = tok;
  tr_file : a_file (x_action (h_x h)) = fd;
  tr_open : opened (h_fs h) fd = Some (q, p) }.

(** The state after [data] has gone through, in either direction. *)
Definition moved (h : hstate F) (me : addr) (m : wzd_user_t) (n : nat) (fs : F) (sent : list syscall) : hstate F :=
  mkH (with_user (h_s h) me m) (set_idle (add_bytes (h_x h) (Z.of_nat n)) (x_idle (h_x h)) now) fs (h_calls h ++ sent).

Lemma transferring_moved tok h me m c name arg fd q p m' n fs l p' :
  transferring tok h me m c name arg fd q p → uid m' = uid m → username m' = username m → opened fs fd = Some (q, p') →
  transferring tok (moved h me m' n fs l) me m' c name arg fd q p'.
Proof.
  intros [H1 H2 H3 H4 H5 H6 H7] Hid Hn Ho. split; try done; [by eapply session_user_put|by rewrite Hn].
Qed.

Lemma retr_step h me m c name arg fd q p sent received data :
  transferring TOK_RETR h me m c name arg fd q p → 0 < sent → data = take buflen (drop p (stored (h_fs h) q)) → data ≠ [] →
  ∃ fs, execute me sent received h = Val (0, moved h me (count_down (Z.of_nat (length data)) m) (length data) fs [SysSend data]) ∧
    opened fs fd = Some (q, (p + length data)%nat) ∧ ∀ q', stored fs q' = stored (h_fs h) q'.
Proof using All.
  intros [Hs Hc Hn Ha Ht Hf Ho] Hsent Hdata Hne. destruct (of_read _ _ _ _ buflen Ho) as (fs & Hr & Ho' & Hst). rewrite <- Hdata in Hr, Ho'.
  exists fs. split; [|done]. unfold data_execute. hrun. rewrite Ht, Hf, Hr. cbn [Z.eqb TOK_RETR Pos.eqb]. hrun.
  destruct data as [|x data]; [done|]. rewrite (hbind _ _ _ _ _ eq_refl). cbn [h_s h_x h_fs h_calls].
  rewrite (proj2 (Z.leb_gt _ _)) by done. hrun. destruct Hs as (_ & Hm & _).
  erewrite step_sess by (by apply run_user_upd). hrun. done.
Qed.

(** The state after a transfer has ended well. *)
Definition done_with (h : hstate F) (c : client) (arg : bytes) : hstate F :=
  let h1 := ended h c arg in
  mkH (add_event (h_s h1) (Reply 226 [])) (set_idle (h_x h1) now (x_idle_data (h_x h1))) (h_fs h1) (h_calls h1).

Lemma run_finish_mod s me m mt :
  session_user s me m → mt ≠ _USER_CREATE → Z.testbit mt _USER_USERPASS = false → Z.testbit mt _USER_MAX_ULS = false →
  Z.testbit mt _USER_MAX_DLS = false → modUser pb (uid m) (Some me) mt s = Val (0, s).
Proof. intros (Hwf & Hm & Hreg & _). intros. by eapply run_modUser. Qed.

Lemma session_user_event s me m e : session_user s me m → session_user (add_event s e) me m.
Proof. done. Qed.

Lemma retr_end h me m c name arg fd q p sent received :
  transferring TOK_RETR h me m c name arg fd q p → (length (stored (h_fs h) q) ≤ p)%nat →
  ∃ fs, execute me sent received h = Val (0, done_with (with_fs h fs) c arg) ∧ ∀ q', stored fs q' = stored (h_fs h) q'.
Proof using All.
  intros [Hs Hc Hn Ha Ht Hf Ho] Hp. destruct (of_read _ _ _ _ buflen Ho) as (fs & Hr & _ & Hst).
  rewrite drop_ge, take_nil in Hr by done. exists fs. split; [|done].
  unfold data_execute. hrun. rewrite Ht, Hf, Hr. cbn [Z.eqb TOK_RETR Pos.eqb]. hrun.
  rewrite (hbind _ _ _ _ _ (run_end_transfer (with_fs h fs) me m c name arg false Hs Hc Hn Ha (or_introl eq_refl))).
  pose proof (session_user_conn _ me m c (set_state (c_conn c) STATE_UNKNOWN) Hs Hc) as Hs'. unfold finished. hrun.
  erewrite step_sess by (apply run_user_at; apply Hs'). fields.
  by erewrite step_sess by (by apply run_finish_mod).
Qed.

Lemma stor_step room h me m c name arg fd q p sent data :
  WritesInRoom F opened stored room → (length data ≤ room (h_fs h))%nat →
  transferring TOK_STOR h me m c name arg fd q p → data ≠ [] → (p ≤ length (stored (h_fs h) q))%nat →
  ∃ fs, execute me sent data h = Val (0, moved h me (count_up (Z.of_nat (length data)) m) (length data) fs []) ∧
    opened fs fd = Some (q, (p + length data)%nat) ∧
    stored fs q = take p (stored (h_fs h) q) ++ data ++ drop (p + length data) (stored (h_fs h) q) ∧
    (∀ q', q' ≠ q → stored fs q' = stored (h_fs h) q') ∧ (room (h_fs h) ≤ room fs + length data)%nat.
Proof using All.
  intros HW Hroom [Hs Hc Hn Ha Ht Hf Ho] Hne Hp. destruct (wr_write _ _ _ _ data Ho Hp Hroom) as (fs & Hw & Ho' & Hst).
  exists fs. split; [|done]. unfold data_execute. hrun. rewrite Ht, Hf. cbn [Z.eqb TOK_RETR TOK_STOR Pos.eqb].
  destruct data as [|x data]; [done|]. rewrite Hw. hrun. destruct Hs as (_ & Hm & _).
  erewrite step_sess by (by apply run_user_upd). hrun. unfold moved. by rewrite app_nil_r.
Qed.

Lemma stor_end h me m c name arg fd q p sent :
  transferring TOK_STOR h me m c name arg fd q p → (p ≤ length (stored (h_fs h) q))%nat →
  event_send EVENT_POSTUPLOAD [name; arg] ≠ EVENT_DENY →
  ∃ fs, execute me sent [] h = Val (0, let h' := done_with (with_fs h fs) c arg in with_s h' (with_user (h_s h') me (count_file_up m))) ∧
    stored fs q = take p (stored (h_fs h) q) ∧ ∀ q', q' ≠ q → stored fs q' = stored (h_fs h) q'.
Proof using All.
  intros [Hs Hc Hn Ha Ht Hf Ho] Hp Hok. destruct (of_tell _ _ _ _ Ho) as (fs1 & Hl & Ho1 & Hst1).
  destruct (of_truncate fs1 fd q p p Ho1) as [Ht1 Ht2]; [by rewrite Hst1|].
  exists (sys_unlock (sys_ftruncate fs1 fd (Z.of_nat p)) fd). split.
  2: { setoid_rewrite of_unlock. split; [by rewrite Ht1, Hst1|]. intros q' Hq. by rewrite Ht2, Hst1. }
  unfold data_execute. hrun. rewrite Ht, Hf. cbn [Z.eqb TOK_RETR TOK_STOR Pos.eqb]. rewrite Hl. hrun.
  rewrite (hbind _ _ _ _ _ (run_end_transfer (with_fs h _) me m c name arg true Hs Hc Hn Ha (or_intror Hok))).
  pose proof (session_user_conn _ me m c (set_state (c_conn c) STATE_UNKNOWN) Hs Hc) as Hs'. hrun.
  erewrite step_sess by (apply run_user_upd; apply Hs'). fields.
  pose proof (session_user_put _ me m (count_file_up m) Hs' eq_refl) as Hs2.
  erewrite step_sess by (apply run_user_at; apply Hs2). fields.
  by erewrite step_sess by (by apply run_finish_mod).
Qed.

(** ** Whole transfers *)

(** The turns of the client's loop that find the data connection ready: what the
    write returned, what was read. *)
Fixpoint run_transfer (me : addr) (net : list (Z * bytes)) : H F unit :=
  match net with
  | [] => mret tt
  | (sent, received) :: net => execute me sent received;; run_transfer me net
  end.

(** A transfer of [n] bytes that has ended: the descriptors are closed, the state
    of the connection is no longer that of a transfer, the client has its reply,
    and the user's structure is [m]. *)
Record completed (h h' : hstate F) (me : addr) (m : wzd_user_t) (c : client) (n : nat) : Prop := {
  co_session : h_s h' = add_event (with_conn (with_user (h_s h) me m) c (set_state (c_conn c) STATE_UNKNOWN)) (Reply 226 []);
  co_action : a_token (x_action (h_x h')) = TOK_UNKNOWN ∧ a_file (x_action (h_x h')) = -1;
  co_sockets : x_pasv (h_x h') = -1 ∧ x_data (h_x h') = -1;
  co_size : l_size (x_last (h_x h')) = a_bytesnow (x_action (h_x h)) + Z.of_nat n }.

Definition sends (l : list syscall) : bytes := concat (omap (λ c, match c with SysSend d => Some d | _ => None end) l).

Lemma with_user_id s me m : session_user s me m → with_user s me m = s.
Proof.
  intros (_ & Hm & _). unfold with_user, put_user, set_heap. rewrite insert_id by done. by destruct s as [[[] ? ? ? ? ?] ? ? ?].
Qed.

Lemma completed_ended h fs me m c arg :
  session_user (h_s h) me m → completed h (done_with (with_fs h fs) c arg) me m c 0.
Proof.
  intros Hs. split; [|done|done|].
  - by rewrite with_user_id.
  - cbn. lia.
Qed.

Lemma completed_moved h me m m' n fs l h' c k :
  completed (moved h me m n fs l) h' me m' c k → 0 ≤ a_bytesnow (x_action (h_x h)) →
  a_bytesnow (x_action (h_x h)) + Z.of_nat (n + k) < 2 ^ 64 → completed h h' me m' c (n + k).
Proof.
  intros [H1 H2 H3 H4] H0 Hlt. split; [|done..|].
  - rewrite H1. unfold moved. fields. by rewrite with_user_again.
  - rewrite H4. unfold moved. fields. simpl. rewrite u64_small by lia. lia.
Qed.

(** Counting in pieces. *)
Lemma u64_add a n : u64 (u64 a + n) = u64 (a + n).
Proof. unfold u64. by rewrite Zplus_mod_idemp_l. Qed.

Lemma count_down_add a n u : 0 ≤ a → 0 ≤ n → 0 ≤ credits u → count_down n (count_down a u) = count_down (a + n) u.
Proof.
  intros Ha Hn Hc. unfold count_down. destruct u; cbn. destruct (u_ratio =? 0) eqn:E; cbn; rewrite E, u64_add, Z.add_assoc; [done|].
  f_equal. destruct (Z.leb_spec a credits), (Z.leb_spec (a + n) credits);
    repeat match goal with |- context [?x <=? ?y] => destruct (Z.leb_spec x y) end; lia.
Qed.

Lemma count_down_same n u : uid (count_down n u) = uid u ∧ username (count_down n u) = username u.
Proof. unfold count_down. by destruct (_ =? 0). Qed.
Lemma count_up_same n u : uid (count_up n u) = uid u ∧ username (count_up n u) = username u.
Proof. unfold count_up. by destruct (_ =? 0). Qed.

Lemma count_down_0 u : 0 ≤ bytes_dl_total (stats u) < 2 ^ 64 → 0 ≤ credits u → count_down 0 u = u.
Proof.
  intros Hd Hc. unfold count_down. destruct u as [? ? ? ? ? ? ? ? ? ? ? ? ? ? ? ? ? [] ? ? ? ? ?]. cbn in *.
  rewrite Z.add_0_r, u64_small by done. destruct (u_ratio =? 0); [done|]. cbn. rewrite (proj2 (Z.leb_le _ _)) by done. by rewrite Z.sub_0_r.
Qed.

(** The counters fit, with what the transfer adds. *)
Lemma count_down_credits a u : 0 ≤ a → 0 ≤ credits u → 0 ≤ credits (count_down a u).
Proof. intros. unfold count_down. destruct (_ =? 0); cbn; [done|]. destruct (Z.leb_spec a (credits u)); lia. Qed.

(** What [read] returns, one buffer at a time. *)
Fixpoint pieces (fuel : nat) (l : bytes) : list bytes :=
  match fuel, l with
  | S fuel, _ :: _ => take buflen l :: pieces fuel (drop buflen l)
  | _, _ => []
  end.

Lemma concat_pieces fuel l : (0 < buflen)%nat → (length l ≤ fuel)%nat → concat (pieces fuel l) = l.
Proof.
  intros Hb. revert l. induction fuel as [|fuel IH]; intros [|x l] Hl; try done; [simpl in Hl; lia|].
  cbn [pieces concat]. rewrite IH; [apply take_drop|]. rewrite length_drop. simpl in *. lia.
Qed.

Lemma download_loop me c name arg fd q fuel : (0 < buflen)%nat → ∀ net h m p,
  transferring TOK_RETR h me m c name arg fd q p → let data := drop p (stored (h_fs h) q) in
  (length data ≤ fuel)%nat →
  0 ≤ a_bytesnow (x_action (h_x h)) → a_bytesnow (x_action (h_x h)) + Z.of_nat (length data) < 2 ^ 64 →
  0 ≤ bytes_dl_total (stats m) < 2 ^ 64 → 0 ≤ credits m →
  Forall (λ r, 0 < r.1) net → length net = S (length (pieces fuel data)) →
  ∃ h', run_transfer me net h = Val (tt, h') ∧ completed h h' me (count_down (Z.of_nat (length data)) m) c (length data) ∧
    h_calls h' = h_calls h ++ map SysSend (pieces fuel data) ∧ ∀ q', stored (h_fs h') q' = stored (h_fs h) q'.
Proof using All.
  intros Hb. induction fuel as [|fuel IH]; intros net h m p Htr data Hlen Hb0 Hb1 Hd Hc Hnet Hk;
    destruct net as [|[sent received] net]; try done; cbn [run_transfer];
    destruct data as [|x data'] eqn:Edata; try (cbn [length] in Hlen; lia).
  1, 2: destruct (retr_end h me m c name arg fd q p sent received Htr) as (fs & Hrun & Hst);
    [apply (f_equal length) in Edata; unfold data in Edata; rewrite length_drop in Edata; simpl in Edata; lia|];
    destruct net; [|done]; rewrite (hbind _ _ _ _ _ Hrun);
    eexists; split; [done|]; cbn [length pieces map]; rewrite app_nil_r; change (Z.of_nat 0) with 0; rewrite count_down_0 by done;
    split_and!; [apply completed_ended, Htr|done|]; intros q'; cbn; by rewrite of_close, of_unlock.
  rewrite <- Edata in *. set (d := take buflen data).
  assert (Hd0 : d ≠ []) by (unfold d; rewrite Edata; intros E; apply (f_equal length) in E; rewrite length_take in E; simpl in E; lia).
  apply Forall_cons in Hnet as [Hsent Hnet]. cbn [fst] in Hsent.
  destruct (retr_step h me m c name arg fd q p sent received d Htr Hsent eq_refl Hd0) as (fs & Hrun & Ho & Hst).
  rewrite (hbind _ _ _ _ _ Hrun). set (n := length d) in *. set (m1 := count_down (Z.of_nat n) m) in *.
  assert (Hn : (n + length (drop buflen data) = length data)%nat).
  { unfold n, d. rewrite <- (take_drop buflen data) at 3. by rewrite length_app. }
  assert (Hnext : drop (p + n) (stored fs q) = drop buflen data).
  { rewrite Hst, <- drop_drop. fold data. unfold n, d. rewrite length_take. destruct (Nat.min_spec buflen (length data)) as [[_ ->]|[? ->]]; [done|].
    by rewrite !drop_ge by lia. }
  assert (Hpc : pieces (S fuel) data = d :: pieces fuel (drop buflen data)) by (unfold d; by rewrite Edata).
  assert (Hbl : (0 < n)%nat) by (unfold n; destruct d; [done|simpl; lia]).
  destruct (IH net (moved h me m1 n fs [SysSend d]) m1 (p + n)%nat) as (h' & Hrun' & Hco & Hca & Hst'); try done.
  - destruct (count_down_same (Z.of_nat n) m). by eapply transferring_moved.
  - cbn [h_fs moved]. rewrite Hnext. lia.
  - apply u64_range.
  - cbn [h_fs moved]. rewrite Hnext. unfold moved. fields. rewrite u64_small by lia. lia.
  - unfold m1, count_down. destruct (_ =? 0); cbn; apply u64_range.
  - apply count_down_credits; lia.
  - cbn [h_fs moved]. rewrite Hnext. rewrite Hpc in Hk. cbn [length] in Hk. lia.
  - cbn [h_fs moved] in Hco, Hca, Hst'. rewrite Hnext in Hco, Hca. exists h'. split_and!; [done|..].
    + unfold m1 in Hco. rewrite count_down_add in Hco by lia. rewrite <- Hn at 2. replace (Z.of_nat (length data)) with (Z.of_nat n + Z.of_nat (length (drop buflen data))) by lia.
      eapply completed_moved; [done..|]. lia.
    + rewrite Hca. cbn [h_calls moved]. rewrite <- app_assoc. by rewrite Hpc.
    + intros q'. by rewrite Hst', <- Hst.
Qed.

(** What an upload of [n] bytes gives: the credits stop at the largest value. *)
Definition credit_up (n : Z) (u : wzd_user_t) : wzd_user_t :=
  let st := stats u in
  let u := set_stats u (mkStats (u64 (bytes_ul_total st + n)) (bytes_dl_total st) (files_ul_total st) (files_dl_total st)) in
  if u_ratio u =? 0 then u else set_credits u (Z.min ULONG_MAX (credits u + u_ratio u * n)).

Lemma count_up_credit n u : 0 ≤ u_ratio u * n < 2 ^ 32 → credits u ≤ ULONG_MAX → count_up n u = credit_up n u.
Proof.
  intros Hr Hc. unfold count_up, credit_up. destruct u; cbn in *. destruct (u_ratio =? 0); [done|]. cbn. unfold u32.
  rewrite Z.mod_small by done. f_equal. destruct (Z.leb_spec (ULONG_MAX - u_ratio * n) credits); lia.
Qed.

Lemma credit_up_add a n u : 0 ≤ u_ratio u → 0 ≤ n → credit_up n (credit_up a u) = credit_up (a + n) u.
Proof.
  intros Hr Hn. unfold credit_up. destruct u; cbn in *. destruct (u_ratio =? 0) eqn:E; cbn; rewrite E, u64_add, Z.add_assoc; [done|].
  f_equal. rewrite Z.mul_add_distr_l. pose proof (Z.mul_nonneg_nonneg u_ratio n Hr Hn). lia.
Qed.

Lemma credit_up_0 u : 0 ≤ bytes_ul_total (stats u) < 2 ^ 64 → credits u ≤ ULONG_MAX → credit_up 0 u = u.
Proof.
  intros Hd Hc. unfold credit_up. destruct u as [? ? ? ? ? ? ? ? ? ? ? ? ? ? ? ? ? [] ? ? ? ? ?]. cbn in *.
  rewrite Z.add_0_r, u64_small by done. destruct (u_ratio =? 0); [done|]. cbn. rewrite Z.mul_0_r, Z.add_0_r. by rewrite Z.min_r.
Qed.

Lemma credit_up_fits n u : credits u ≤ ULONG_MAX → 0 ≤ bytes_ul_total (stats u) < 2 ^ 64 →
  credits (credit_up n u) ≤ ULONG_MAX ∧ 0 ≤ bytes_ul_total (stats (credit_up n u)) < 2 ^ 64 ∧ u_ratio (credit_up n u) = u_ratio u.
Proof.
  intros Hc Hd. unfold credit_up. destruct (_ =? 0); cbn; split_and!; (done || apply u64_range || lia).
Qed.

Lemma upload_loop room me c name arg fd q ds : WritesInRoom F opened stored room → event_send EVENT_POSTUPLOAD [name; arg] ≠ EVENT_DENY → ∀ h m p,
  (length (concat ds) ≤ room (h_fs h))%nat →
  transferring TOK_STOR h me m c name arg fd q p → (p ≤ length (stored (h_fs h) q))%nat → Forall (.≠ []) ds →
  Forall (λ d, u_ratio m * Z.of_nat (length d) < 2 ^ 32) ds → 0 ≤ u_ratio m → credits m ≤ ULONG_MAX →
  0 ≤ bytes_ul_total (stats m) < 2 ^ 64 → 0 ≤ a_bytesnow (x_action (h_x h)) →
  a_bytesnow (x_action (h_x h)) + Z.of_nat (length (concat ds)) < 2 ^ 64 →
  ∃ h', run_transfer me (map (pair 0) ds ++ [(0, [])]) h = Val (tt, h') ∧
    completed h h' me (count_file_up (credit_up (Z.of_nat (length (concat ds))) m)) c (length (concat ds)) ∧
    stored (h_fs h') q = take p (stored (h_fs h) q) ++ concat ds ∧ (∀ q', q' ≠ q → stored (h_fs h') q' = stored (h_fs h) q') ∧
    h_calls h' = h_calls h.
Proof using All.
  intros HW Hhook. induction ds as [|d ds IH]; intros h m p Hroom Htr Hp Hne Hr Hr0 Hc Hu Hb0 Hb1; cbn [map app run_transfer concat length] in *.
  - destruct (stor_end h me m c name arg fd q p 0 Htr Hp Hhook) as (fs & Hrun & Hst & Hst'). rewrite (hbind _ _ _ _ _ Hrun).
    eexists. split; [done|]. change (Z.of_nat 0) with 0. rewrite credit_up_0, app_nil_r by done. split_and!; try done.
    + destruct (completed_ended h fs me m c arg (tr_user _ _ _ _ _ _ _ _ _ _ Htr)) as [H1 H2 H3 H4]. split; [|done..].
      cbn [h_s with_s]. rewrite H1. by rewrite (with_user_id _ me m) by apply Htr.
    + cbn. by rewrite of_close, of_unlock.
    + intros q' Hq. cbn. rewrite of_close, of_unlock. by apply Hst'.
  - apply Forall_cons in Hne as [Hd Hne]. apply Forall_cons in Hr as [Hrd Hr]. rewrite length_app in *.
    destruct (stor_step room h me m c name arg fd q p 0 d HW ltac:(lia) Htr Hd Hp) as (fs & Hrun & Ho & Hst & Hst' & Hroom'). rewrite (hbind _ _ _ _ _ Hrun).
    rewrite count_up_credit by first [done|split; [apply Z.mul_nonneg_nonneg; lia|done]].
    set (m1 := credit_up (Z.of_nat (length d)) m).
    destruct (credit_up_fits (Z.of_nat (length d)) m Hc Hu) as (Hc1 & Hu1 & Hr1). fold m1 in Hc1, Hu1, Hr1.
    assert (Hlen : length (take p (stored (h_fs h) q) ++ d) = (p + length d)%nat) by (rewrite length_app, length_take; lia).
    destruct (IH (moved h me m1 (length d) fs []) m1 (p + length d)%nat) as (h' & Hrun' & Hco & Hs1 & Hs2 & Hca); rewrite ?Hr1; try done.
    + cbn [h_fs moved]. lia.
    + eapply transferring_moved; [done| | |done]; unfold m1, credit_up; by destruct (_ =? 0).
    + cbn [h_fs moved]. rewrite Hst, app_assoc, length_app, Hlen. lia.
    + apply u64_range.
    + unfold moved. fields. rewrite u64_small by lia. lia.
    + exists h'. unfold m1 in Hco. rewrite credit_up_add in Hco by lia. rewrite Nat2Z.inj_add. split_and!; [done|..].
      * eapply completed_moved; [done..|]. lia.
      * rewrite Hs1. cbn [h_fs moved]. rewrite Hst, app_assoc, take_app_le by lia. by rewrite take_ge, <- app_assoc by lia.
      * intros q' Hq. rewrite Hs2 by done. by apply Hst'.
      * rewrite Hca. cbn [h_calls moved]. by rewrite app_nil_r.
Qed.
End run.

(** C6. A download ends and delivers: when every write on the data connection
    succeeds, the file is read a buffer at a time from the place where the
    transfer starts, exactly those bytes are sent, in order, and after the number
    of turns it takes to read them and find the end, the transfer is closed with
    reply 226 and the bytes are counted and taken from the credits. *)
Theorem download_delivers {F : Type} `{!FileSystem F} (opened : F → Z → option (bytes * nat)) (stored : F → bytes → bytes)
    changepass check_auth umask vfs cmds event_send now buflen net (h : hstate F) me m c name arg fd q p :
  OpenFiles F opened stored → (0 < buflen)%nat → transferring opened TOK_RETR h me m c name arg fd q p →
  let data := drop p (stored (h_fs h) q) in
  0 ≤ a_bytesnow (x_action (h_x h)) → a_bytesnow (x_action (h_x h)) + Z.of_nat (length data) < 2 ^ 64 →
  0 ≤ bytes_dl_total (stats m) < 2 ^ 64 → 0 ≤ credits m →
  Forall (λ r, 0 < r.1) net → length net = S (length (pieces buflen (length data) data)) →
  ∃ h' ds, run_transfer changepass check_auth umask vfs cmds event_send now buflen me net h = Val (tt, h') ∧
    completed h h' me (count_down (Z.of_nat (length data)) m) c (length data) ∧
    h_calls h' = h_calls h ++ map SysSend ds ∧ concat ds = data ∧ ∀ q', stored (h_fs h') q' = stored (h_fs h) q'.
Proof.
  intros HO Hb Htr data H1 H2 H3 H4 Hnet Hk.
  destruct (download_loop changepass check_auth umask vfs cmds event_send now opened stored buflen me c name arg fd q (length data) Hb net h m p)
    as (h' & Hrun & Hco & Hca & Hst); try done.
  exists h', (pieces buflen (length data) data). split_and!; try done. by apply concat_pieces.
Qed.

(** C5. What is uploaded is what is downloaded: an upload that starts at the
    beginning of a file, received in pieces of any size for which the file system
    has room, leaves the file with exactly those bytes and no other file changed,
    gives the credits they are worth and ends; any client that then downloads the
    file is sent the same bytes. No POSTUPLOAD hook denies the upload, which would
    delete the file, and the pieces and the totals are small enough for the
    arithmetic of the counters: the ratio times a piece is below 2^32. Without
    room the code counts, credits and acknowledges what was not written. *)
Theorem upload_download_roundtrip {F : Type} `{!FileSystem F} (opened : F → Z → option (bytes * nat)) (stored : F → bytes → bytes)
    (room : F → nat) changepass check_auth umask vfs cmds event_send now buflen ds (h : hstate F) me m c name arg fd q :
  OpenFiles F opened stored → WritesInRoom F opened stored room → (length (concat ds) ≤ room (h_fs h))%nat → (0 < buflen)%nat → event_send EVENT_POSTUPLOAD [name; arg] ≠ EVENT_DENY →
  transferring opened TOK_STOR h me m c name arg fd q 0 → Forall (.≠ []) ds →
  Forall (λ d, u_ratio m * Z.of_nat (length d) < 2 ^ 32) ds → 0 ≤ u_ratio m → credits m ≤ ULONG_MAX →
  0 ≤ bytes_ul_total (stats m) < 2 ^ 64 → 0 ≤ a_bytesnow (x_action (h_x h)) →
  a_bytesnow (x_action (h_x h)) + Z.of_nat (length (concat ds)) < 2 ^ 64 →
  ∃ h', run_transfer changepass check_auth umask vfs cmds event_send now buflen me (map (pair 0) ds ++ [(0, [])]) h = Val (tt, h') ∧
    completed h h' me (count_file_up (credit_up (Z.of_nat (length (concat ds))) m)) c (length (concat ds)) ∧
    stored (h_fs h') q = concat ds ∧ (∀ q', q' ≠ q → stored (h_fs h') q' = stored (h_fs h) q') ∧
    ∀ net (h2 : hstate F) me2 m2 c2 name2 arg2 fd2,
      transferring opened TOK_RETR h2 me2 m2 c2 name2 arg2 fd2 q 0 → stored (h_fs h2) q = stored (h_fs h') q →
      a_bytesnow (x_action (h_x h2)) = 0 → Z.of_nat (length (concat ds)) < 2 ^ 64 →
      0 ≤ bytes_dl_total (stats m2) < 2 ^ 64 → 0 ≤ credits m2 →
      Forall (λ r, 0 < r.1) net → length net = S (length (pieces buflen (length (concat ds)) (concat ds))) →
      ∃ h3 sent, run_transfer changepass check_auth umask vfs cmds event_send now buflen me2 net h2 = Val (tt, h3) ∧
        h_calls h3 = h_calls h2 ++ map SysSend sent ∧ concat sent = concat ds.
Proof.
  intros HO HW Hroom Hb Hhook Htr Hne Hr Hr0 Hc Hu Hb0 Hb1.
  destruct (upload_loop changepass check_auth umask vfs cmds event_send now opened stored buflen room me c name arg fd q ds HW Hhook h m 0%nat Hroom)
    as (h' & Hrun & Hco & Hst & Hst' & _); try done; [lia|]. cbn [take app] in Hst.
  exists h'. split_and!; try done. intros net h2 me2 m2 c2 name2 arg2 fd2 Htr2 Hs2 Hb2 Hlt Hd2 Hc2 Hnet Hk.
  rewrite Hst in Hs2. assert (Hdata : drop 0 (stored (h_fs h2) q) = concat ds) by done.
  destruct (download_loop changepass check_auth umask vfs cmds event_send now opened stored buflen me2 c2 name2 arg2 fd2 q (length (concat ds)) Hb net h2 m2 0%nat)
    as (h3 & Hrun3 & _ & Hca & _); rewrite ?Hdata, ?Hb2; try done.
  rewrite Hdata in Hca. exists h3, (pieces buflen (length (concat ds)) (concat ds)). split_and!; try done. by apply concat_pieces.
Qed.

(** ** Concrete states: a file system in memory *)

Record memfs := mkMem {
  mf_kind : bytes → option fkind;
  mf_data : bytes → bytes;
  mf_fds : Z → option (bytes * nat);
  mf_perms : permdisk }.

Definition store_at (f : bytes → bytes) (q d : bytes) : bytes → bytes := λ q', if bool_decide (q' = q) then d else f q'.
Definition fd_at (f : Z → option (bytes * nat)) (fd : Z) (o : option (bytes * nat)) : Z → option (bytes * nat) :=
  λ fd', if fd' =? fd then o else f fd'.
Definition kind_at (f : bytes → option fkind) (q : bytes) (k : option fkind) : bytes → option fkind :=
  λ q', if bool_decide (q' = q) then k else f q'.

(** The file behind an open descriptor. *)
Definition mem_on {A} (fs : memfs) (fd : Z) (none : A) (f : bytes → nat → A) : A :=
  match mf_fds fs fd with Some (q, p) => f q p | None => none end.

#[global] Instance memfs_FileSystem : FileSystem memfs := {|
  sys_lstat fs q := (λ k, (k, Z.of_nat (length (mf_data fs q)))) <$> mf_kind fs q;
  sys_stat fs q := (λ k, (k, Z.of_nat (length (mf_data fs q)))) <$> mf_kind fs q;
  sys_perms := mf_perms;
  sys_set_perms fs d := mkMem (mf_kind fs) (mf_data fs) (mf_fds fs) d;
  sys_writable _ _ := true;
  sys_readdir _ _ := Some [];
  sys_mkdir fs q _ := if streq q [] then (-1, fs) else (0, mkMem (kind_at (mf_kind fs) q (Some FK_DIR)) (mf_data fs) (mf_fds fs) (mf_perms fs));
  sys_rmdir fs q := (0, mkMem (kind_at (mf_kind fs) q None) (mf_data fs) (mf_fds fs) (mf_perms fs));
  sys_unlink fs q := (0, mkMem (kind_at (mf_kind fs) q None) (store_at (mf_data fs) q []) (mf_fds fs) (mf_perms fs));
  sys_rename fs q q' :=
    (0, mkMem (kind_at (kind_at (mf_kind fs) q' (mf_kind fs q)) q None) (store_at (store_at (mf_data fs) q' (mf_data fs q)) q [])
          (mf_fds fs) (mf_perms fs));
  sys_open fs q mode :=
    (3, mkMem (kind_at (mf_kind fs) q (Some FK_REG)) (mf_data fs) (fd_at (mf_fds fs) 3 (Some (q, 0%nat))) (mf_perms fs));
  sys_close fs fd := mkMem (mf_kind fs) (mf_data fs) (fd_at (mf_fds fs) fd None) (mf_perms fs);
  sys_islocked _ _ := 0;
  sys_lock fs _ := fs;
  sys_unlock fs _ := fs;
  sys_lseek fs fd off whence := mem_on fs fd (-1, fs) (λ q p,
    let base := if whence =? SEEK_SET then 0 else if whence =? SEEK_CUR then Z.of_nat p else Z.of_nat (length (mf_data fs q)) in
    (base + off, mkMem (mf_kind fs) (mf_data fs) (fd_at (mf_fds fs) fd (Some (q, Z.to_nat (base + off)))) (mf_perms fs)));
  sys_read fs fd n := mem_on fs fd (None, fs) (λ q p,
    let d := take n (drop p (mf_data fs q)) in
    (Some d, mkMem (mf_kind fs) (mf_data fs) (fd_at (mf_fds fs) fd (Some (q, (p + length d)%nat))) (mf_perms fs)));
  sys_write fs fd d := mem_on fs fd (-1, fs) (λ q p,
    let c := mf_data fs q in
    (Z.of_nat (length d), mkMem (mf_kind fs) (store_at (mf_data fs) q (take p c ++ d ++ drop (p + length d) c))
       (fd_at (mf_fds fs) fd (Some (q, (p + length d)%nat))) (mf_perms fs)));
  sys_ftruncate fs fd n := mem_on fs fd fs (λ q p,
    mkMem (mf_kind fs) (store_at (mf_data fs) q (take (Z.to_nat n) (mf_data fs q))) (mf_fds fs) (mf_perms fs)) |}.

#[global] Instance memfs_OpenFiles : OpenFiles memfs mf_fds mf_data.
Proof.
  split; try done; intros fs fd q p; cbn [sys_read sys_write sys_lseek sys_ftruncate memfs_FileSystem]; unfold mem_on.
  - intros n ->. eexists. split; [done|]. unfold fd_at. cbn. by rewrite Z.eqb_refl.
  - intros ->. cbn. rewrite Z.add_0_r, Nat2Z.id. eexists. split; [done|]. unfold fd_at. cbn. by rewrite Z.eqb_refl.
  - intros n -> _. rewrite Nat2Z.id. unfold store_at. cbn. rewrite bool_decide_eq_true_2 by done. split; [done|].
    intros q' Hq. by rewrite bool_decide_eq_false_2.
Qed.

(** It always has room for a thousand bytes. *)
#[global] Instance memfs_WritesInRoom : WritesInRoom memfs mf_fds mf_data (λ _, 1000%nat).
Proof.
  intros fs fd q p d. cbn [sys_write memfs_FileSystem]. unfold mem_on. intros -> _ _. eexists. split; [done|]. unfold fd_at, store_at. cbn [mf_fds mf_data].
  rewrite Z.eqb_refl, bool_decide_eq_true_2 by done. split_and!; try done; [|lia]. intros q' Hq. by rewrite bool_decide_eq_false_2.
Qed.

(** An empty table of commands. *)
Definition tw_cmds : ctable := match commands_init as o return match o with Some _ => ctable | None => unit end with Some ct => ct | None => tt end.

Definition tw_path : bytes := str "/home/bob/notes".
Definition tw_action (tok : Z) : wzd_action_t := mkAction tok (padded ARG_LEN tw_path) 3 0.
Definition tw_xfer (tok : Z) : transfer :=
  mkTransfer (tw_action tok) (mkLast (replicate MAXPATH NUL) 0 0) 0 9 9 DATA_PASV WZD_INET4 0 (replicate 16 0) BINARY false false 0 0.
Definition tw_fs (d : bytes) : memfs :=
  mkMem (λ q, if streq q tw_path then Some FK_REG else None) (store_at (λ _, []) tw_path d) (fd_at (λ _, None) 3 (Some (tw_path, 0%nat))) ∅.
Definition tw_state (tok : Z) (d : bytes) : hstate memfs := mkH cw_session (tw_xfer tok) (tw_fs d) [].

Lemma tw_transferring tok d :
  transferring mf_fds tok (tw_state tok d) 1%positive cw_me (demo_client 1 11) (str "bob") tw_path 3 tw_path 0.
Proof.
  split; [exact cw_session_user|reflexivity|exact (pu_name _ _ _ _ _ cw_user_ok)| |done|done|done].
  cbn [a_arg x_action h_x tw_state tw_xfer tw_action]. by apply buf_str_padded; [by_decision|apply Nat.ltb_lt; by vm_compute].
Qed.

Lemma download_delivers_witness :
  ∃ h' ds, run_transfer demo_changepass demo_auth 509 [] tw_cmds (λ _ _, 0) 0 4 1%positive [(4, []); (4, []); (2, []); (1, [])] (tw_state TOK_RETR (str "0123456789")) = Val (tt, h') ∧
    completed (tw_state TOK_RETR (str "0123456789")) h' 1%positive (count_down 10 cw_me) (demo_client 1 11) 10 ∧
    h_calls h' = map SysSend ds ∧ concat ds = str "0123456789" ∧ ∀ q', mf_data (h_fs h') q' = mf_data (tw_fs (str "0123456789")) q'.
Proof.
  apply (download_delivers mf_fds mf_data demo_changepass demo_auth 509 [] tw_cmds (λ _ _, 0) 0 4 [(4, []); (4, []); (2, []); (1, [])]
    (tw_state TOK_RETR (str "0123456789")) 1%positive cw_me (demo_client 1 11) (str "bob") tw_path 3 tw_path 0);
    [exact _|lia|apply tw_transferring|done|done|by_vm|by_vm|by repeat constructor|by vm_compute].
Defined.

Lemma upload_download_roundtrip_witness :
  ∃ h', run_transfer demo_changepass demo_auth 509 [] tw_cmds (λ _ _, 0) 0 4 1%positive [(0, str "hello "); (0, str "world"); (0, [])]
      (tw_state TOK_STOR (str "older and longer")) = Val (tt, h') ∧ mf_data (h_fs h') tw_path = str "hello world" ∧
    ∃ h3 sent, run_transfer demo_changepass demo_auth 509 [] tw_cmds (λ _ _, 0) 0 4 1%positive [(4, []); (4, []); (3, []); (1, [])]
      (tw_state TOK_RETR (str "hello world")) = Val (tt, h3) ∧ h_calls h3 = map SysSend sent ∧ concat sent = str "hello world".
Proof.
  destruct (upload_download_roundtrip mf_fds mf_data (λ _, 1000%nat) demo_changepass demo_auth 509 [] tw_cmds (λ _ _, 0) 0 4 [str "hello "; str "world"]
    (tw_state TOK_STOR (str "older and longer")) 1%positive cw_me (demo_client 1 11) (str "bob") tw_path 3 tw_path)
    as (h' & Hrun & _ & Hst & _ & Hdown);
    [exact _|exact _|apply Nat.leb_le; by vm_compute|lia|done|apply tw_transferring|by repeat constructor|by repeat constructor|by_vm|by_vm|by_vm|done|done|].
  exists h'. split; [exact Hrun|]. split; [exact Hst|].
  apply (Hdown _ (tw_state TOK_RETR (str "hello world")) 1%positive cw_me (demo_client 1 11) (str "bob") tw_path 3);
    [apply tw_transferring|by rewrite Hst|done|done|by_vm|by_vm|by repeat constructor|by vm_compute].
Defined.
