(* ===== verification/FileOpsProps.v ===== *)
(** * Operations on files are defined

    On absolute paths that fit their arrays, with permission files that can be
    read and a user whose arrays are terminated, the operations of PermFile.v and
    FileOps.v never read or write out of bounds, whatever the file system
    answers; and what they ask of the system concerns the path they are given. *)
From S2P Require Import Prelude Inet CList Registry Users Backend Perm Path PermFile Vfs Session SiteUserProps Commands Chdir Login FileOps Transfer TransferProps.

(** ** Paths *)

Definition absolute (p : bytes) : Prop := ∃ s, p = SLASH :: s.

Lemma strrchr_slash_split p d n : strrchr_slash p = Some (d, n) → p = d ++ SLASH :: n ∧ SLASH ∉ n.
Proof.
  revert d n. induction p as [|c p IH]; intros d n; cbn [strrchr_slash]; [done|].
  destruct (strrchr_slash p) as [[d' n']|] eqn:E.
  - intros [= <- <-]. destruct (IH _ _ eq_refl) as [-> Hn]. done.
  - case_bool_decide as Hc; [|done]. intros [= <- <-]. subst c. split; [done|]. clear IH.
    induction p as [|c p IH]; [set_solver|]. cbn [strrchr_slash] in E. destruct (strrchr_slash p) as [[]|]; [done|].
    case_bool_decide; [done|]. apply not_elem_of_cons. split; [congruence|by apply IH].
Qed.

Lemma strrchr_slash_some p : SLASH ∈ p → is_Some (strrchr_slash p).
Proof.
  induction p as [|c p IH]; [set_solver|]. cbn [strrchr_slash]. intros Hp. destruct (strrchr_slash p) as [[]|] eqn:E; [done|].
  case_bool_decide as Hc; [done|]. apply elem_of_cons in Hp as [Hc2|Hp]; [congruence|]. by destruct (IH Hp).
Qed.

Lemma strrchr_absolute p : absolute p → ∃ d n, strrchr_slash p = Some (d, n) ∧ (d = [] ∨ absolute d) ∧ (length d + length n < length p)%nat.
Proof.
  intros [s ->]. destruct (strrchr_slash_some (SLASH :: s)) as [[d n] E]; [set_solver|]. exists d, n.
  destruct (strrchr_slash_split _ _ _ E) as [Hp _]. split_and!; [done| |rewrite Hp, length_app; simpl; lia].
  destruct d as [|c d]; [by left|]. injection Hp as <- _. right. by exists d.
Qed.

(** ** Rights *)

Section total.
  Context (ch : list ascii → list ascii → list ascii → nat → Z * list ascii) (ca : list ascii → list ascii → list ascii → Z).
  Context (umask : Z) (disk : permdisk) (w : world) (u : wzd_user_t) (name fl : bytes) (gnames : list bytes).
  Context (Hwg : reg_wf (w_groups w)) (Hmax : 0 < r_max (w_groups w)) (Hu : perm_user u w name fl gnames)
          (Hdisk : ∀ p, ∃ l, holds umask disk p l).
  #[local] Abbreviation pb := (Some (plaintext ch ca)).

Lemma check_in_total dir n right : dir ≠ [] → (length dir + 1 < MAXPATH)%nat → ∃ r, check_in pb umask disk dir n right u w = Val r.
Proof using All.
  intros Hd Hl. unfold check_in. rewrite add_slash_fits by (done || lia). run.
  set (d := if ends_with_slash dir then dir else dir ++ [SLASH]).
  assert ((length d < MAXPATH)%nat) by (unfold d; destruct (ends_with_slash dir); rewrite ?length_app; simpl; lia).
  destruct (Hdisk (d ++ HARD_PERMFILE)) as [l Hl']. by eapply check_total.
Qed.

Context (stat : bytes → option fkind) (Hroot : stat [SLASH] ≠ None).

Lemma check_perm_total fuel path right :
  absolute path → (length path + 1 < MAXPATH)%nat → (length path < fuel)%nat → ∃ r, check_perm pb umask stat fuel disk path right u w = Val r.
Proof using All.
  revert path. induction fuel as [|fuel IH]; intros path Ha Hl Hf; [lia|].
  destruct (strrchr_absolute path Ha) as (d & n & Hs & Hd & Hdl). cbn [check_perm]. destruct Ha as [s ->].
  rewrite (pu_flags _ _ _ _ _ Hu). run. destruct (strchr fl FLAG_ANONYMOUS && modifies right); [by eexists|].
  assert (Hpar : parent d ≠ [] ∧ (length (parent d) + 1 < MAXPATH)%nat).
  { unfold parent. case_bool_decide; [split; [done|unfold MAXPATH; simpl; lia]|]. split; [done|lia]. }
  destruct Hpar as [Hp1 Hp2]. rewrite (proj2 (Nat.leb_gt MAXPATH _)) by lia.
  destruct (stat (SLASH :: s)) as [[]|] eqn:E.
  - apply check_in_total; [done|lia].
  - rewrite Hs. by apply check_in_total.
  - rewrite Hs. by apply check_in_total.
  - destruct (negb _ && negb _); [by eexists|]. rewrite Hs.
    assert (Hrec : ∃ r, check_perm pb umask stat fuel disk (parent d) right u w = Val r).
    { unfold parent in *. destruct (bool_decide (d = [])) eqn:Ed.
      - destruct fuel as [|fuel]; [simpl in Hf; lia|]. cbn [check_perm]. rewrite (pu_flags _ _ _ _ _ Hu). run.
        destruct (strchr fl FLAG_ANONYMOUS && modifies right); [by eexists|].
        rewrite (proj2 (Nat.leb_gt MAXPATH _)) by (unfold MAXPATH; simpl; lia).
        destruct (stat [SLASH]) as [[]|]; [| | |done]; apply check_in_total; (done || unfold MAXPATH; simpl; lia).
      - apply bool_decide_eq_false in Ed. destruct Hd as [->|Hd]; [done|]. apply IH; [done|lia..]. }
    destruct Hrec as [r ->]. run. destruct (negb (r =? 0)); [by eexists|]. by apply check_in_total.
Qed.

Lemma checkPerm_total path right :
  path = [] ∨ absolute path → (length path + 1 < MAXPATH)%nat → ∃ r, _checkPerm pb umask stat disk path right u w = Val r.
Proof using All. intros [->|Ha] Hl; [by eexists|]. apply check_perm_total; [done..|lia]. Qed.
End total.

(** ** Permission files can be written *)

Definition terminated (f : wzd_file_t) : Prop :=
  NUL ∈ filename f ∧ NUL ∈ owner f ∧ NUL ∈ group f ∧ Forall (λ a, NUL ∈ acl_user a) (acl f) ∧ (kind f = FILE_LNK → data f ≠ None).

Lemma buf_str_total b : NUL ∈ b → buf_str b = Val (cstring b).
Proof. intros Hb. unfold buf_str. by rewrite bool_decide_eq_true_2. Qed.

Lemma nul_padded n s : (length s < n)%nat → NUL ∈ padded n s.
Proof.
  intros Hs. unfold padded. apply elem_of_app. right. replace (n - length s)%nat with (S (n - length s - 1)) by lia. set_solver.
Qed.

Lemma repr_terminated umask d : dfile_ok umask d → terminated (repr d).
Proof.
  intros [Hn Ho Hg _ Ha _ _].
  split_and!; try by apply nul_padded.
  - cbn [acl repr]. apply Forall_fmap. eapply Forall_impl; [exact Ha|]. intros a (_ & Hl & _). by apply nul_padded.
  - cbn [kind data repr]. by destruct (d_link d).
Qed.

Lemma write_files_total l : Forall terminated l → ∃ s, write_files l = Val s.
Proof.
  induction 1 as [|f l (Hn & Ho & Hg & Ha & Hk) Hl (s & IH)]; [by eexists|]. cbn [write_files].
  assert (Hacl : ∀ nm, ∃ s, write_acl nm (acl f) = Val s).
  { intros nm. induction Ha as [|a l' Ha _ (s' & IHa)]; [by eexists|]. cbn [write_acl]. rewrite buf_str_total, IHa by done. by eexists. }
  assert (Hf : ∃ s, write_file f = Val s).
  { unfold write_file. rewrite !buf_str_total by done. run. case_bool_decide as Hlk.
    - destruct (data f); [by eexists|]. by destruct (Hk Hlk).
    - destruct (Hacl (cstring (filename f))) as [s' ->]. by eexists. }
  destruct Hf as [s' ->]. run. rewrite IH. by eexists.
Qed.

Lemma writePermFile_total writable disk p l : Forall terminated l → ∃ r, writePermFile writable disk p l = Val r.
Proof.
  intros Hl. unfold writePermFile. destruct l as [|f l]; [by eexists|]. destruct (negb writable); [by eexists|].
  destruct (write_files_total _ Hl) as [s ->]. by eexists.
Qed.

Lemma nul_strncpy dst s n : (length s < n)%nat → (n ≤ length dst)%nat → NUL ∈ strncpy dst s n.
Proof.
  intros Hs Hd. unfold strncpy. apply elem_of_app. left.
  replace (take n (s ++ replicate n NUL)) with (s ++ replicate (n - length s) NUL).
  - apply elem_of_app. right. replace (n - length s)%nat with (S (n - length s - 1)) by lia. set_solver.
  - rewrite take_app_ge by lia. by rewrite take_replicate, Nat.min_l by lia.
Qed.

(** A structure whose arrays have their size. *)
Definition sized (f : wzd_file_t) : Prop := terminated f ∧ length (owner f) = 256%nat ∧ length (group f) = 256%nat.

Lemma repr_sized umask d : dfile_ok umask d → sized (repr d).
Proof.
  intros Hd. split; [by eapply repr_terminated|]. destruct Hd as [_ Ho Hg _ _ _ _]. cbn [owner group repr]. rewrite !length_padded by lia. done.
Qed.
Lemma repr_all_sized umask l : Forall (dfile_ok umask) l → Forall sized (map repr l).
Proof. intros Hl. apply Forall_fmap. eapply Forall_impl; [exact Hl|]. intros d. apply repr_sized. Qed.
Lemma sized_all_terminated l : Forall sized l → Forall terminated l.
Proof. intros Hl. eapply Forall_impl; [exact Hl|]. by intros f [? _]. Qed.

Lemma field256_sized s : (length s < 256)%nat → NUL ∈ field256 s ∧ length (field256 s) = 256%nat.
Proof.
  intros Hs. unfold field256. rewrite strncpy_padded by (rewrite ?length_replicate; lia). split; [by apply nul_padded|apply length_padded; lia].
Qed.

Definition short_opt (o : option bytes) : Prop := from_option (λ s, (length s < 256)%nat) True o.

Lemma nul_replicate n : (0 < n)%nat → NUL ∈ replicate n NUL.
Proof. destruct n; [lia|]. set_solver. Qed.

Lemma new_file_sized umask s own grp : (length s < 256)%nat → short_opt own → short_opt grp → sized (new_file umask s own grp).
Proof.
  intros Hs Ho Hg. unfold new_file. destruct (field256_sized s Hs) as [Hn _].
  assert (Hf : ∀ o, short_opt o → let f := match o with Some x => field256 x | None => replicate 256 NUL end in NUL ∈ f ∧ length f = 256%nat).
  { intros [x|] Hx; cbv zeta; [by apply field256_sized|]. split; [apply nul_replicate; lia|apply length_replicate]. }
  destruct (Hf own Ho), (Hf grp Hg). split; [|done]. split_and!; try done.
Qed.

Lemma default_field_sized f s : (length s < 255)%nat → NUL ∈ f → length f = 256%nat → NUL ∈ default_field f s ∧ length (default_field f s) = 256%nat.
Proof.
  intros Hs Hf Hl. unfold default_field. destruct f as [|c f]; [done|]. case_bool_decide; [|done].
  split; [set_solver|]. rewrite !length_app, length_drop. cbn [length] in *. lia.
Qed.

Lemma set_owner_group_sized f own grp : sized f → short_opt own → short_opt grp → sized (set_owner_group own grp f).
Proof.
  intros [(Hn & Ho & Hg & Ha & Hk) [Hlo Hlg]] Hso Hsg.
  assert (Hset : ∀ fld o, NUL ∈ fld → length fld = 256%nat → short_opt o →
    let fld' := match o with Some x => strncpy fld x 256 | None => fld end in NUL ∈ fld' ∧ length fld' = 256%nat).
  { intros fld [x|] Hf Hl Hx; cbv zeta; [|done]. cbn in Hx. split; [apply nul_strncpy; lia|].
    rewrite strncpy_padded by lia. apply length_padded. lia. }
  destruct (Hset (owner f) own Ho Hlo Hso) as [Ho1 Ho2], (Hset (group f) grp Hg Hlg Hsg) as [Hg1 Hg2].
  destruct (default_field_sized _ (str "nobody") ltac:(simpl; lia) Ho1 Ho2) as [Ho3 Ho4].
  destruct (default_field_sized _ (str "nogroup") ltac:(simpl; lia) Hg1 Hg2) as [Hg3 Hg4].
  unfold set_owner_group. destruct own, grp; cbn [set_owner set_group owner group filename permissions acl kind data] in *;
    (split; [split_and!; try done|done]).
Qed.

(** The file of this name, in a list that can be written. *)
Lemma find_or_add_total umask ret s own grp l :
  Forall (dfile_ok umask) l → (length s < 256)%nat → short_opt own → short_opt grp →
  ∃ i l' f, find_or_add umask ret s own grp (map repr l) = Val (i, l') ∧ l' !! i = Some f ∧ sized f ∧ Forall sized l'.
Proof.
  intros Hl Hs Ho Hg. pose proof (repr_all_sized _ _ Hl) as Hsz.
  assert (Hadd : ∃ i l' f, Val (add_new_file umask s own grp (map repr l)) = Val (i, l') ∧ l' !! i = Some f ∧ sized f ∧ Forall sized l').
  { pose proof (new_file_sized umask s own grp Hs Ho Hg) as Hnew. eexists _, _, (new_file umask s own grp). split; [done|].
    split_and!; [apply lookup_snoc|done|]. apply Forall_app. auto. }
  unfold find_or_add. destruct (negb _); [exact Hadd|]. unfold find_file. rewrite (find_file_repr umask) by done. run.
  destruct (by_name s l) as [[i d]|] eqn:E; cbn [fmap option_fmap option_map fst Nat.add]; [|exact Hadd].
  apply list_find_Some in E as (Hi & _). eexists _, _, (repr d). split; [done|].
  split_and!; [by rewrite list_lookup_fmap, Hi|eapply repr_sized, (proj1 (Forall_lookup _ _) Hl _ _ Hi)|done].
Qed.

Lemma file_chown_total umask stat writable disk path own grp :
  (∀ p, ∃ l, holds umask disk p l) → absolute path → (length path + 1 < MAXPATH)%nat → short_opt own → short_opt grp →
  (stat path = Some FK_DIR ∨ ∀ d n, strrchr_slash path = Some (d, n) → d ≠ [] ∧ (length n < 256)%nat) →
  ∃ r, file_chown umask stat writable disk path own grp = Val r.
Proof.
  intros Hdisk Ha Hl Ho Hg Hk. unfold file_chown, _setPerm. destruct (strrchr_absolute path Ha) as (d & n & Hs & _ & Hdn). destruct Ha as [s ->].
  destruct (stat (SLASH :: s)) as [k|] eqn:Est; [|by eexists]. rewrite (proj2 (Nat.leb_gt MAXPATH _)) by lia.
  assert (Hdir : ∃ dir st, (match k with FK_DIR => Val (SLASH :: s, str ".") | _ => deref (strrchr_slash (SLASH :: s)) end) = Val (dir, st) ∧
    dir ≠ [] ∧ (length dir < MAXPATH)%nat ∧ (length st < 256)%nat).
  { destruct k; [by eexists _, _; split; [done|split; [done|split; [lia|cbn; lia]]]|..]; rewrite Hs; exists d, n; (split; [done|]);
      destruct Hk as [Hk|Hk]; try done; destruct (Hk d n Hs); (split_and!; [done|lia|done]). }
  destruct Hdir as (dir & st & -> & Hd & Hdl & Hst). run. rewrite add_slash_fits by done. run.
  destruct (MAXPATH <=? _)%nat; [by eexists|]. set (p := (if ends_with_slash dir then _ else _) ++ HARD_PERMFILE).
  destruct (Hdisk p) as (l & Hh). destruct (holds_read _ _ _ _ Hh) as (ret & -> & _). run. destruct Hh as (Hok & _).
  destruct (find_or_add_total umask ret st None None l Hok Hst I I) as (i & l' & f & -> & Hi & Hf & Hl'). run. rewrite Hi. run.
  rewrite Z.eqb_refl. run.
  destruct (writePermFile_total (writable p) disk p (<[i := set_owner_group own grp f]> l')) as [[r dk] ->]; [|by eexists].
  apply sized_all_terminated, Forall_insert; [done|by apply set_owner_group_sized].
Qed.

(** ** The operations run *)

(** The calls made between two states satisfy [P]. *)
Definition only {F} (P : syscall → Prop) (h h' : hstate F) : Prop := ∃ l, h_calls h' = h_calls h ++ l ∧ Forall P l.

Lemma only_refl {F} P (h h' : hstate F) : h_calls h' = h_calls h → only P h h'.
Proof. intros Hc. exists []. by rewrite app_nil_r. Qed.
Lemma only_one {F} (P : syscall → Prop) (h h' : hstate F) c : h_calls h' = h_calls h ++ [c] → P c → only P h h'.
Proof. intros Hc Hp. exists [c]. auto. Qed.
Lemma only_trans {F} P (h1 h2 h3 : hstate F) : only P h1 h2 → only P h2 h3 → only P h1 h3.
Proof.
  intros (l1 & H1 & HP1) (l2 & H2 & HP2). exists (l1 ++ l2). rewrite H2, H1, app_assoc. split; [done|by apply Forall_app].
Qed.

Lemma step_call {F A B} c (f : F → A * F) (k : A → H F B) h :
  (call c f ≫= k) h = k (f (h_fs h)).1 (mkH (h_s h) (h_x h) (f (h_fs h)).2 (h_calls h ++ [c])).
Proof. unfold mbind, H_bind, call. by destruct (f (h_fs h)). Qed.

Lemma step_same {F A B} (m : M A) a (k : A → H F B) h : m (h_s h) = Val (a, h_s h) → (sess m ≫= k) h = k a h.
Proof. intros Hm. rewrite (step_sess _ _ _ _ _ Hm). by destruct h. Qed.

(** A path that fits the arrays of the checks. *)
Definition good_path (p : bytes) : Prop := (p = [] ∨ absolute p) ∧ (length p + 1 < MAXPATH)%nat.

Section ops.
  Context {F : Type} `{!FileSystem F}.
  Context (ch : list ascii → list ascii → list ascii → nat → Z * list ascii) (ca : list ascii → list ascii → list ascii → Z).
  Context (umask : Z) (vfs : list wzd_vfs_t) (cmds : ctable).
  #[local] Abbreviation pb := (Some (plaintext ch ca)).

(** A client whose user is known, on a server whose permission files can be
    read; the root directory of the system exists. *)
Record ready (h : hstate F) (me : addr) (m : wzd_user_t) (c : client) (name fl : bytes) (gnames : list bytes) : Prop := {
  rd_user : session_user (h_s h) me m;
  rd_context : w_contexts (ss_world (h_s h)) !! ss_ctx (h_s h) = Some c;
  rd_max : 0 < r_max (w_groups (ss_world (h_s h)));
  rd_perm : perm_user m (ss_world (h_s h)) name fl gnames;
  rd_disk : ∀ p, ∃ l, holds umask (sys_perms (h_fs h)) p l;
  rd_root : stat_kind (h_fs h) [SLASH] ≠ None }.

Lemma ready_x h me m c name fl gnames x calls : ready h me m c name fl gnames → ready (mkH (h_s h) x (h_fs h) calls) me m c name fl gnames.
Proof. by intros []. Qed.

Lemma run_checkPerm h me m c name fl gnames path right :
  ready h me m c name fl gnames → good_path path → ∃ r, checkPerm pb umask path right m h = Val (r, h).
Proof.
  intros [(Hwf & _) _ Hmax Hp Hd Hr] [Hpath Hl]. unfold checkPerm.
  destruct (checkPerm_total ch ca umask (sys_perms (h_fs h)) (ss_world (h_s h)) m name fl gnames) with (stat := stat_kind (h_fs h)) (path := path) (right := right)
    as [r Hrun]; [apply Hwf|done..|].
  exists r. by rewrite Hrun.
Qed.

Ltac ready_user H := erewrite step_same by (eapply run_context_user; apply (rd_user _ _ _ _ _ _ _ H)).
Ltac quit_with := eexists _, _; split; [reflexivity|]; split_and!; first [done|by apply only_refl|by eapply only_one|idtac].

Lemma file_open_runs deny h me m c name fl gnames path mode (P : syscall → Prop) :
  ready h me m c name fl gnames → good_path path → P (SysOpen path mode) →
  ∃ r h', file_open pb umask deny path mode h = Val (r, h') ∧ h_s h' = h_s h ∧ h_x h' = h_x h ∧ only P h h'.
Proof.
  intros Hrd Hp HP. unfold file_open. cbv zeta. ready_user Hrd.
  destruct (run_checkPerm h me m c name fl gnames path (if negb (Z.land mode O_WRONLY =? 0) then RIGHT_STOR else RIGHT_RETR) Hrd Hp) as [r Hr].
  rewrite (hbind _ _ _ _ _ Hr). destruct (negb (r =? 0)); [quit_with|]. hrun. case_bool_decide; [quit_with|].
  unfold fs_open. rewrite step_call. destruct (_ =? -1); [quit_with|]. hrun.
  destruct (_ =? -1); [quit_with|]. destruct (negb (Z.land mode O_WRONLY =? 0)).
  - destruct (negb _); hrun; quit_with.
  - destruct (negb _ && deny); hrun; quit_with.
Qed.

Lemma file_mkdir_runs h me m c name fl gnames path (P : syscall → Prop) :
  ready h me m c name fl gnames → good_path path → P (SysMkdir path 0x1ed) →
  ∃ r h', file_mkdir pb umask path h = Val (r, h') ∧ h_s h' = h_s h ∧ h_x h' = h_x h ∧ only P h h' ∧
    (r = E_OK → ∃ fs, sys_mkdir (h_fs h) path 0x1ed = (0, fs) ∧ h_fs h' = fs).
Proof.
  intros Hrd Hp HP. unfold file_mkdir. ready_user Hrd.
  destruct (run_checkPerm h me m c name fl gnames path RIGHT_MKDIR Hrd Hp) as [r Hr].
  rewrite (hbind _ _ _ _ _ Hr). destruct (negb (r =? 0)); [quit_with|].
  unfold fs_mkdir. rewrite step_call. destruct (sys_mkdir (h_fs h) path 0x1ed) as [z fs] eqn:E. cbn [fst snd].
  eexists _, _. split; [reflexivity|]. split_and!; [done..|by eapply only_one|]. destruct (Z.eqb_spec z 0) as [->|]; [|done]. by exists fs.
Qed.

(** The permission file of a directory that is removed. *)
Lemma file_rmdir_runs h me m c name fl gnames path (P : syscall → Prop) :
  ready h me m c name fl gnames → good_path path → P (SysUnlink (permfile_of path)) → P (SysUnlink path) → P (SysRmdir path) →
  (∀ fs p, stat_kind fs p ≠ None → lstat_kind (sys_unlink fs (permfile_of p)).2 p ≠ None) →
  ∃ r h', file_rmdir pb umask path h = Val (r, h') ∧ h_s h' = h_s h ∧ h_x h' = h_x h ∧ only P h h'.
Proof.
  intros Hrd Hp HP1 HP2 HP3 Hlaw. unfold file_rmdir. ready_user Hrd.
  destruct (run_checkPerm h me m c name fl gnames path RIGHT_RMDIR Hrd Hp) as [r Hr].
  rewrite (hbind _ _ _ _ _ Hr). destruct (negb (r =? 0)); [quit_with|]. hrun.
  case_bool_decide as Hdir; cbn [negb]; [|quit_with]. destruct (existsb _ _); [quit_with|].
  destruct Hp as [_ Hl]. unfold MAXPATH in Hl.
  rewrite (proj2 (Nat.leb_gt 2048 _)) by (destruct (ends_with_slash path); rewrite ?length_app; simpl; lia).
  rewrite (take_ge (_ ++ HARD_PERMFILE)) by (rewrite length_app; destruct (ends_with_slash path); rewrite ?length_app; simpl; lia).
  fold (permfile_of path). unfold unlink, rmdir. rewrite step_call. hrun.
  destruct (lstat_kind (sys_unlink (h_fs h) (permfile_of path)).2 path) as [k|] eqn:Ek; [|by destruct (Hlaw (h_fs h) path); [rewrite Hdir|]].
  rewrite (step_must _ k) by done.
  set (h1 := mkH _ _ _ _). assert (Ho1 : only P h h1) by (by eapply only_one).
  assert (Hlast : ∀ (g : F → Z * F) s, P s → ∃ r h', call s g h1 = Val (r, h') ∧ h_s h' = h_s h ∧ h_x h' = h_x h ∧ only P h h').
  { intros g s Hs. unfold call. destruct (g (h_fs h1)) as [z fs]. eexists _, _. split; [reflexivity|]. split_and!; [done..|].
    eapply only_trans; [exact Ho1|]. by eapply only_one. }
  case_bool_decide; by apply Hlast.
Qed.
End ops.
