(* ===== verification/Handlers.v ===== *)
(** * The handlers of FTP commands: libwzd-core/wzd_ClientThread.c

    The commands that name a file (MKD, RMD, RETR, STOR, APPE, DELE, RNFR, RNTO,
    SIZE, MDTM), those that open data connections (PORT, PASV) and those that set
    the parameters of a session, in the configuration with TLS and without
    [IPV6_SUPPORT]. A handler runs in the state of FileOps.v and returns what the
    function returns. The file system, the sockets, the regular expressions of
    the sections and the hooks are parameters; logs are left out. *)
From S2P Require Import Prelude Inet CList Registry Users Backend Perm Path PermFile Vfs Session Commands Chdir Login Sections FileOps Transfer.

Definition RIGHT_DELE : Z := 0x10.
Definition CONNECTION_SSCN : Z := 0x80.

(** [wzd_errno_t] as a number, for the replies that show it. *)
Definition errnos : list wzd_errno_t :=
  [E_OK; E_NO_DATA_CTX; E_PARAM_NULL; E_PARAM_BIG; E_PARAM_INVALID; E_PARAM_EXIST; E_WRONGPATH; E_NOTDIR; E_ISDIR; E_NOPERM;
   E_TIMEOUT; E_DATATIMEOUT; E_CONNECTTIMEOUT; E_PASV_FAILED; E_PORT_INVALIDIP; E_XFER_PROGRESS; E_XFER_REJECTED; E_CREDS_INSUFF;
   E_USER_REJECTED; E_USER_NO_HOME; E_USER_NOIP; E_USER_MAXUSERIP; E_USER_MAXGROUPIP; E_USER_CLOSED; E_USER_DELETED;
   E_USER_NUMLOGINS; E_USER_LOGINSPERIP; E_USER_TOOMANYUSERS; E_USER_TLSFORCED; E_GROUP_NUMLOGINS; E_PASS_REJECTED;
   E_FILE_NOEXIST; E_FILE_FORBIDDEN; E_FILE_TYPE; E_USER_IDONTEXIST; E_USER_ICANTSUICIDE; E_USER_NOBODY; E_MKDIR_PARSE;
   E_MKDIR_PATHFILTER; E_COMMAND_FAILED; E_NOMEM].
Definition errno_num (e : wzd_errno_t) : Z := from_option (λ p, Z.of_nat p.1) 0 (list_find (e =.) errnos).

Definition num (n : Z) : bytes := print_in 10 20 n [].

(** ** Configuration and environment *)

Record server (R : Type) := mkServer {
  sv_umask : Z;
  sv_vfs : list wzd_vfs_t;
  sv_commands : ctable;
  sv_sections : list (wzd_section_t R);
  sv_regexec : R → bytes → bool;
  sv_hide_dotted : bool;       (** [CFG_OPT_HIDE_DOTTED_FILES] *)
  sv_deny_uploaded : bool;     (** [CFG_OPT_DENY_ACCESS_FILES_UPLOADED] *)
  sv_experimental : bool;      (** [CFG_OPT_EXPERIMENTAL] *)
  sv_pasv_low : Z;
  sv_pasv_high : Z;
  sv_pasv_ip : list Z }.
Arguments sv_umask {R} _.
Arguments sv_vfs {R} _.
Arguments sv_commands {R} _.
Arguments sv_sections {R} _.
Arguments sv_regexec {R} _.
Arguments sv_hide_dotted {R} _.
Arguments sv_deny_uploaded {R} _.
Arguments sv_experimental {R} _.
Arguments sv_pasv_low {R} _.
Arguments sv_pasv_high {R} _.
Arguments sv_pasv_ip {R} _.

(** The answers of hooks and of the network; [nt_bind] tells which ports are
    free, [nt_random] is [random()]. *)
Record network := mkNetwork {
  nt_event : Z → list bytes → Z;
  nt_now : Z;
  nt_pasv_ready : bool;
  nt_accept : Z → option (Z * list Z * net_family_t);
  nt_connect : list Z → net_family_t → Z → Z;
  nt_tls : Z → Z;
  nt_socket : Z;
  nt_myip : list Z;
  nt_random : Z;
  nt_bind : Z → bool;
  nt_listen : bool;
  nt_mtime : bytes → bytes     (** the time of a file as [strftime] shows it *) }.

Section handlers.
  Context {F R : Type} `{!FileSystem F}.
  Context (b : option wzd_backend_t) (sv : server R) (nt : network).

(** *** Common steps *)

Definition say (code : Z) (text : bytes) : H F unit := sess (emit (Reply code text)).
Definition ends {A} (code : Z) (text : string) (e : A) : H F A := answer code text;; mret e.
Definition hook (event : Z) (args : list bytes) : Z := nt_event nt event args.
Definition allows (r : Z) : bool := (r =? EVENT_OK) || (r =? EVENT_BREAK).

Definition checklength (arg : option bytes) : option bytes :=
  match arg with
  | Some s => if (1 <=? length s)%nat && (length s <=? MAXPATH - 1)%nat then Some s else None
  | None => None
  end.

(** [checkpath_new(param,path,context)]: the result, and the path when it is
    written. *)
Definition checkpath (param : bytes) : H F (wzd_errno_t * option bytes) := λ h,
  '(c, _) ← my_context (h_s h);
  '(user, _) ← context_userp b (h_s h);
  r ← checkpath_new b (sv_umask sv) (lstat_kind (h_fs h)) (sys_perms (h_fs h)) (ss_world (h_s h)) (sv_vfs sv) (Some param) user (cn_path (c_conn c));
  Val (r, h).

(** [if (path[strlen(path)-1]=='/') path[strlen(path)-1]=0] *)
Definition cut_slash (path : bytes) : bytes := if ends_with_slash path then take (length path - 1) path else path.

Definition hidden (path : bytes) : bool := is_hidden_file (sv_hide_dotted sv) path.

(** The main group of a user, for the owner of a new file. *)
Definition main_group_name (user : wzd_user_t) : M (option bytes) :=
  if 0 <? group_num user then
    g ← lift (deref (head (groups user)));
    p ← getGroupByID b g;
    match p with None => mret None | Some a => gr ← group_at a; n ← lift (buf_str (groupname gr)); mret (Some n) end
  else mret None.

Definition idle_now : H F unit := upd_x (λ x, set_idle x (nt_now nt) (x_idle_data x)).

(** *** Directories *)

Definition mkdir_error (param : bytes) (ret : wzd_errno_t) : H F wzd_errno_t :=
  say 553 (if bool_decide (ret = E_NOPERM) then str "Could not create dir: permission denied"
           else take (MAXPATH - 2) (str "Could not create dir '" ++ param ++ str "' (" ++ num (errno_num ret) ++ str ")"));;
  mret ret.

(** The path only the test on hidden files sees, for a relative and an absolute
    name. *)
Definition mkdir_path (param : bytes) : H F (wzd_errno_t + bytes) :=
  if starts_with [SLASH] param then
    r ← checkpath param;
    if negb (bool_decide (r.1 = E_FILE_NOEXIST)) then mret (inl E_WRONGPATH) else
    path ← must (deref r.2);
    path ← must (add_slash path);
    mret (inr (remove_trailing_slash path))
  else
    r ← checkpath (str ".");
    if negb (bool_decide (r.1 = E_OK)) then mret (inl E_WRONGPATH) else
    path ← must (deref r.2);
    path ← must (add_slash path);
    mret (inr (remove_trailing_slash (take (MAXPATH - 1) (path ++ param)))).

(** The path of the new directory as the client sees it, in an array that is not
    always terminated. *)
Definition ftp_path (currentpath param : bytes) : outcome bytes :=
  if starts_with [SLASH] param then Val param else
  if (MAXPATH - 1 - length param <=? length currentpath)%nat then Crash else
  let cmd := if ends_with_slash currentpath then currentpath else currentpath ++ [SLASH] in
  if (MAXPATH - 1 - length cmd <=? length param)%nat then Crash else Val (cmd ++ param).

(** Whether the name is refused by the filter of its section. *)
Definition filtered (buffer currentpath param : bytes) : outcome bool :=
  match strrchr_slash (take (MAXPATH - 1) buffer) with
  | Some ((_ :: _), name) =>
    cmd ← ftp_path currentpath param;
    Val (match section_find (sv_sections sv) cmd with Some s => negb (section_check_filter (sv_regexec sv) s name) | None => false end)
  | _ => Val false
  end.

Definition do_mkdir (arg : option bytes) : H F wzd_errno_t :=
  match checklength arg with
  | None => ends 501 "Invalid path" E_PARAM_INVALID
  | Some param =>
    user ← sess (context_user b);
    if Z.land (userperms user) RIGHT_MKDIR =? 0 then mkdir_error param E_NOPERM else
    if streq param [SLASH] then mkdir_error param E_WRONGPATH else
    p ← mkdir_path param;
    match p with
    | inl e => mkdir_error param e
    | inr path =>
      r ← checkpath param;
      if negb (bool_decide (r.1 = E_FILE_NOEXIST)) then mkdir_error param r.1 else
      buffer ← must (deref r.2);
      name ← must (buf_str (username user));
      if negb (allows (hook EVENT_PREMKDIR [name; buffer])) then ends 501 "MKDIR denied" E_XFER_REJECTED else
      let buffer := cut_slash buffer in
      if hidden path then ends 553 "Forbidden!" E_FILE_FORBIDDEN else
      c ← sess my_context;
      no ← must (filtered buffer (cn_path (c_conn c)) param);
      if (no : bool) then ends 553 "Dirname does not match pathfilter" E_MKDIR_PATHFILTER else
      upd_x (λ x, set_file (set_arg (set_token x TOK_MKD) buffer) (-1) (a_bytesnow (x_action x)));;
      ret ← file_mkdir b (sv_umask sv) buffer;
      if negb (bool_decide (ret = E_OK)) then mkdir_error param ret else
      group ← sess (main_group_name user);
      file_chown_at (sv_umask sv) buffer (Some name) group;;
      sess (raw "257- Command okay");;
      sess (reply2 257 param (str "created"));;
      idle_now;;
      mret E_OK
    end
  end.

Definition rmdir_error (param : bytes) (ret : wzd_errno_t) : H F wzd_errno_t :=
  say 553 (take (MAXPATH - 2) (str "Could not delete dir '" ++ param ++ str "'"));; mret ret.

Definition do_rmdir (arg : option bytes) : H F wzd_errno_t :=
  match checklength arg with
  | None => ends 501 "Invalid path" E_PARAM_INVALID
  | Some param =>
    user ← sess (context_user b);
    if Z.land (userperms user) RIGHT_RMDIR =? 0 then rmdir_error param E_NOPERM else
    r ← checkpath param;
    if negb (bool_decide (r.1 = E_OK)) then rmdir_error param E_WRONGPATH else
    path ← must (deref r.2);
    let path := cut_slash path in
    if hidden path then ends 553 "Forbidden!" E_FILE_FORBIDDEN else
    h ← get;
    match lstat_kind (h_fs h) path with
    | None => rmdir_error param E_FILE_NOEXIST
    | Some FK_DIR =>
      ret ← file_rmdir b (sv_umask sv) path;
      if negb (ret =? 0) then rmdir_error param E_PARAM_INVALID else
      sess (raw "258- Command okay");;
      sess (reply2 258 param (str "Removed"));;
      idle_now;;
      mret E_OK
    | Some _ => ends 553 "Not a directory" E_NOTDIR
    end
  end.

(** *** Transfers *)

Definition end_transfer (is_upload : bool) : H F unit :=
  data_end_transfer b (sv_umask sv) (sv_vfs sv) (sv_commands sv) (nt_event nt) is_upload.

(** The data connection: to the address of PORT, or from a client that was given
    a port by PASV. *)
Definition open_data : H F Z :=
  x ← xfer;
  if x_pasv x =? -1 then waitconnect b (nt_connect nt) (nt_tls nt)
  else answer 150 "";; waitaccept b (nt_pasv_ready nt) (nt_accept nt) (nt_tls nt).

Definition data_error (x : transfer) : wzd_errno_t := if x_pasv x =? -1 then E_CONNECTTIMEOUT else E_PASV_FAILED.

Definition file_close (fd : Z) : H F unit := h ← get; put_fs (sys_close (h_fs h) fd).
Definition file_seek (fd off whence : Z) : H F Z :=
  h ← get; let '(r, fs) := sys_lseek (h_fs h) fd off whence in put_fs fs;; mret r.

(** The transfer is left to the loop of the client, or to a thread of its own. *)
Definition start_transfer : H F wzd_errno_t :=
  if negb (sv_experimental sv) then mret E_OK else
  x ← xfer;
  if x_thread x then end_transfer false;; ends 426 "" E_XFER_PROGRESS
  else upd_x (λ x, set_thread x true true);; mret E_OK.

Definition set_speeds (c : client) (ul dl : Z) : client :=
  mkClient (c_magic c) (c_userid c) ul dl (c_pid c) (c_exit c) (c_conn c).
Definition upd_client (f : client → client) : M unit := λ s,
  c ← deref (w_contexts (ss_world s) !! ss_ctx s);
  Val (tt, set_world s (with_contexts (ss_world s) (<[ss_ctx s := f c]> (w_contexts (ss_world s))))).

(** The path of the file is not set when the user may not enter one of its
    directories. *)
Definition do_retr (arg : option bytes) : H F wzd_errno_t :=
  me ← sess (get_me b);
  user ← sess (user_at me);
  if Z.land (userperms user) RIGHT_RETR =? 0 then sess (reply2 550 (str "RETR") (str "No access"));; mret E_NOPERM else
  x ← xfer;
  if (x_pasv x =? -1) && (x_port x =? 0) then ends 501 "No data connection available - issue PORT or PASV first" E_NO_DATA_CTX else
  c ← sess my_context;
  if bool_decide (cn_state (c_conn c) = STATE_XFER) then ends 491 "" E_XFER_PROGRESS else
  match arg with
  | None | Some [] => ends 501 "Incorrect filename" E_PARAM_INVALID
  | Some param =>
    if (MAXPATH - 1 <? length param)%nat then ends 501 "Filename too long" E_PARAM_BIG else
    r ← checkpath param;
    if negb (bool_decide (r.1 = E_OK)) && negb (bool_decide (r.1 = E_NOPERM)) && negb (bool_decide (r.1 = E_FILE_NOEXIST))
    then ends 501 "Invalid file name" E_PARAM_INVALID else
    path ← must (deref r.2);
    let restorestate := a_token (x_action x) in
    upd_x (λ x, set_arg (set_token x TOK_RETR) path);;
    name ← must (buf_str (username user));
    let ret := hook EVENT_PREDOWNLOAD [name; path] in
    upd_x (λ x, set_token x restorestate);;
    if negb (allows ret) then ends 501 "Download denied" E_XFER_REJECTED else
    h ← get;
    t ← must (test_path b (sv_umask sv) (lstat_kind (h_fs h)) (sys_perms (h_fs h)) (ss_world (h_s h)) path (Some user));
    if negb (bool_decide (t = E_OK)) then ends 501 "Invalid file name" E_PARAM_INVALID else
    let path := cut_slash path in
    if hidden path then ends 501 "Forbidden" E_FILE_FORBIDDEN else
    credit ← ratio_check_download b path;
    if negb (credit =? 0) then ends 501 "Insufficient credits - Upload first" E_CREDS_INSUFF else
    fd ← file_open b (sv_umask sv) (sv_deny_uploaded sv) path O_RDONLY;
    if fd =? -1 then sess (reply2 550 param (str "nonexistant file or permission denied"));; mret E_FILE_NOEXIST else
    file_seek fd 0 SEEK_END;;
    upd_x (λ x, set_token x TOK_RETR);;
    sock ← open_data;
    if sock =? -1 then upd_x (λ x, set_token x restorestate);; file_close fd;; mret (data_error x) else
    upd_x (λ x, set_sockets x (x_pasv x) sock);;
    file_seek fd (x_resume x) SEEK_SET;;
    sess (upd_conn (λ cn, set_state cn STATE_XFER));;
    upd_x (λ x, set_idle (set_resume (set_file (set_arg (set_token x TOK_RETR) path) fd 0) 0) (nt_now nt) (nt_now nt));;
    sess (upd_client (λ c, set_speeds c (c_ul_maxspeed c) (u_max_dl_speed user)));;
    sess (user_upd me count_file_down);;
    start_transfer
  end.

(** The path is not resolved: it is glued to the user's root, or to the current
    directory. *)
Definition stor_path (user : wzd_user_t) (param : bytes) : H F (option bytes) :=
  if starts_with [SLASH] param then
    root ← must (buf_str (rootpath user));
    mret (Some (take (MAXPATH - 1) (root ++ param)))
  else
    r ← checkpath (str ".");
    if negb (bool_decide (r.1 = E_OK)) then mret None else
    path ← must (deref r.2);
    path ← must (add_slash path);
    if (MAXPATH <=? length path)%nat then must Crash else mret (Some (take (MAXPATH - 1) (path ++ param))).

(** [context->resume = (unsigned long)-1] stands for the end of the file. The
    group of a user without groups is not set. *)
Definition do_stor (name : bytes) (arg : option bytes) : H F wzd_errno_t :=
  c ← sess my_context;
  p ← sess (getUserByID b (c_userid c));
  let no_access : H F wzd_errno_t := sess (reply2 550 (str "STOR") (str "No access"));; mret E_NOPERM in
  match p with
  | None => no_access
  | Some me =>
    user ← sess (user_at me);
    if Z.land (userperms user) RIGHT_STOR =? 0 then no_access else
    x ← xfer;
    if (x_pasv x =? -1) && (x_port x =? 0) then ends 503 "Issue PORT or PASV First" E_NO_DATA_CTX else
    if bool_decide (cn_state (c_conn c) = STATE_XFER) then ends 491 "" E_XFER_PROGRESS else
    match arg with
    | None | Some [] => ends 501 "Incorrect filename" E_PARAM_INVALID
    | Some param =>
      if (MAXPATH - 1 <? length param)%nat then ends 501 "Filename too long" E_PARAM_BIG else
      po ← stor_path user param;
      match po with
      | None => ends 501 "Incorrect filename" E_PARAM_INVALID
      | Some path =>
        if hidden path then ends 501 "Forbidden" E_FILE_FORBIDDEN else
        uname ← must (buf_str (username user));
        if negb (allows (hook EVENT_PREUPLOAD [uname; path])) then ends 501 "Upload denied" E_XFER_REJECTED else
        (if strcaseeq name (str "appe") then upd_x (λ x, set_resume x ULONG_MAX) else mret tt);;
        fd ← file_open b (sv_umask sv) (sv_deny_uploaded sv) path (Z.lor O_WRONLY O_CREAT);
        if fd =? -1 then ends 501 "Nonexistant file or permission denied" E_FILE_NOEXIST else
        let restorestate := a_token (x_action x) in
        upd_x (λ x, set_token x TOK_STOR);;
        sock ← open_data;
        if sock =? -1 then upd_x (λ x, set_token x restorestate);; file_close fd;; mret (data_error x) else
        upd_x (λ x, set_sockets x (x_pasv x) sock);;
        group ← (if 0 <? group_num user then sess (main_group_name user) else must Crash);
        file_chown_at (sv_umask sv) path (Some uname) group;;
        x ← xfer;
        (if x_resume x =? ULONG_MAX then file_seek fd 0 SEEK_END else file_seek fd (x_resume x) SEEK_SET);;
        sess (upd_conn (λ cn, set_state cn STATE_XFER));;
        upd_x (λ x, set_idle (set_resume (set_file (set_arg (set_token x TOK_STOR) path) fd 0) 0) (nt_now nt) (nt_now nt));;
        sess (upd_client (λ c, set_speeds c (u_max_ul_speed user) (c_dl_maxspeed c)));;
        start_transfer
      end
    end
  end.

Definition do_abor : H F wzd_errno_t :=
  x ← xfer;
  (if negb (x_pasv x =? -1) && negb (x_data x =? x_pasv x) then upd_x (λ x, set_sockets x (-1) (x_data x)) else mret tt);;
  (if negb (a_file (x_action x) =? -1) then
     answer 426 "";;
     if (a_token (x_action x) =? TOK_STOR) || (a_token (x_action x) =? TOK_RETR) then end_transfer (a_token (x_action x) =? TOK_STOR)
     else mret tt
   else mret tt);;
  ends 226 "" E_OK.

(** *** Files *)

Definition do_size (arg : option bytes) : H F wzd_errno_t :=
  match checklength arg with
  | None => ends 501 "Incorrect argument" E_PARAM_INVALID
  | Some param =>
    let missing : H F wzd_errno_t := ends 501 "File inexistent or no access?" E_FILE_NOEXIST in
    r ← checkpath param;
    if negb (bool_decide (r.1 = E_OK)) then missing else
    path ← must (deref r.2);
    let path := cut_slash path in
    if hidden path then ends 501 "Forbidden" E_FILE_FORBIDDEN else
    h ← get;
    match sys_stat (h_fs h) path with
    | Some (_, size) => say 213 (num size);; mret E_OK
    | None => missing
    end
  end.

Definition do_mdtm (arg : option bytes) : H F wzd_errno_t :=
  match checklength arg with
  | None => ends 501 "Incorrect argument" E_PARAM_INVALID
  | Some param =>
    let missing : H F wzd_errno_t := ends 501 "File inexistent or no access?" E_FILE_NOEXIST in
    r ← checkpath param;
    if negb (bool_decide (r.1 = E_OK)) then missing else
    path ← must (deref r.2);
    let path := cut_slash path in
    if hidden path then ends 501 "Forbidden" E_FILE_FORBIDDEN else
    h ← get;
    match sys_stat (h_fs h) path with
    | Some _ => upd_x (λ x, set_resume x 0);; say 213 (nt_mtime nt path);; mret E_OK
    | None => missing
    end
  end.

(** What the owner of a deleted file loses; [ratio*file_size] wraps. *)
Definition uncount (file_size : Z) (u : wzd_user_t) : wzd_user_t :=
  let u := if u_ratio u =? 0 then u
           else set_credits u (if u64 (u_ratio u * file_size) <? credits u then credits u - u64 (u_ratio u * file_size) else 0) in
  let st := stats u in
  set_stats u (mkStats (if file_size <? bytes_ul_total st then bytes_ul_total st - file_size else 0) (bytes_dl_total st)
                 (if files_ul_total st =? 0 then 0 else files_ul_total st - 1) (files_dl_total st)).

(** [None]: the result of [send_message_with_args]. *)
Definition do_dele (arg : option bytes) : H F (option wzd_errno_t) :=
  match checklength arg with
  | None => ends 501 "Syntax error" (Some E_PARAM_INVALID)
  | Some param =>
    p ← sess (context_userp b);
    match p with
    | None => ends 501 "Mama says I don't exist!" (Some E_USER_IDONTEXIST)
    | Some user =>
      if Z.land (userperms user) RIGHT_DELE =? 0 then ends 501 "Permission denied" (Some E_NOPERM) else
      r ← checkpath param;
      if negb (bool_decide (r.1 = E_OK)) then ends 501 "Permission denied or inexistant file" (Some E_FILE_NOEXIST) else
      path ← must (deref r.2);
      let path := cut_slash path in
      if hidden path then ends 501 "Forbidden" (Some E_FILE_FORBIDDEN) else
      h ← get;
      match sys_lstat (h_fs h) path with
      | None => ends 501 "File does not exist" (Some E_FILE_NOEXIST)
      | Some (FK_DIR, _) => ends 501 "This is a directory!" (Some E_ISDIR)
      | Some (k, size) =>
        let file_size := match k with FK_REG => size | _ => 0 end in
        owner ← must (g ← file_getowner b (sv_umask sv) (stat_kind (h_fs h)) (sys_perms (h_fs h)) path (ss_world (h_s h)); as_struct g);
        upd_x (λ x, set_arg (set_token x TOK_DELE) path);;
        ret ← file_remove b (sv_umask sv) (sv_vfs sv) (sv_commands sv) path;
        (match owner with
         | Some a =>
           if (ret =? 0) && negb (file_size =? 0) then
             u ← sess (user_at a);
             n ← must (buf_str (username u));
             if streq n (str "nobody") then mret tt else sess (user_upd a (uncount file_size))
           else mret tt
         | None => mret tt
         end);;
        (if ret =? 0 then sess (reply2 250 (str "DELE") (str " command successful"));; idle_now else answer 501 "DELE failed");;
        upd_x (λ x, set_token x TOK_UNKNOWN);;
        mret None
      end
    end
  end.

Definition named_file (filename : option bytes) : option bytes :=
  match filename with
  | Some s => if (1 <=? length s)%nat && (length s <? MAXPATH)%nat then Some s else None
  | None => None
  end.

Definition do_rnfr (filename : option bytes) : H F wzd_errno_t :=
  let no_file : H F wzd_errno_t := sess (reply2 550 (str "RNFR") (str "file does not exist"));; mret E_FILE_NOEXIST in
  p ← sess (context_userp b);
  if match p with Some u => Z.land (userperms u) RIGHT_RNFR =? 0 | None => true end
  then sess (reply2 550 (str "RNFR") (str "permission denied"));; mret E_FILE_NOEXIST else
  match named_file filename with
  | None => no_file
  | Some param =>
    r ← checkpath param;
    if negb (bool_decide (r.1 = E_OK)) then no_file else
    path ← must (deref r.2);
    let path := cut_slash path in
    if hidden path then ends 501 "Forbidden" E_FILE_FORBIDDEN else
    upd_x (λ x, set_file (set_arg (set_token x TOK_RNFR) path) (-1) 0);;
    ends 350 "OK, send RNTO" E_OK
  end.

(** Whether the new path could be resolved is not tested. *)
Definition do_rnto (filename : option bytes) : H F wzd_errno_t :=
  p ← sess (context_userp b);
  match p with
  | None => sess (reply2 550 (str "RNTO") (str "permission denied"));; mret E_FILE_NOEXIST
  | Some user =>
    if Z.land (userperms user) RIGHT_RNFR =? 0
    then sess (reply2 550 (str "RNTO") (str "permission denied"));; mret E_FILE_NOEXIST else
    match named_file filename with
    | None => sess (reply2 553 (str "RNTO") (str "wrong file name?"));; mret E_PARAM_INVALID
    | Some param =>
      x ← xfer;
      if negb (a_token (x_action x) =? TOK_RNFR)
      then sess (reply2 553 (str "RNTO") (str "send RNFR before!"));; mret E_PARAM_INVALID else
      r ← checkpath param;
      path ← must (deref r.2);
      let path := cut_slash path in
      if hidden path then ends 501 "Forbidden" E_FILE_FORBIDDEN else
      name ← must (buf_str (username user));
      old ← must (buf_str (a_arg (x_action x)));
      if hook EVENT_PRERENAME [name; old; path] =? EVENT_DENY then ends 501 "Forbidden" E_FILE_FORBIDDEN else
      upd_x (λ x, set_file (set_token x TOK_UNKNOWN) (-1) 0);;
      ret ← file_rename b (sv_umask sv) old path;
      (if negb (ret =? 0) then sess (reply2 550 (str "RNTO") (str "command failed"))
       else sess (reply2 250 (str "RNTO") (str " command okay"));; idle_now);;
      mret E_OK
    end
  end.

(** *** Data connections *)

(** [%d] and [%u] of [sscanf]: the number and what follows it. *)
Definition scan_num (signed : bool) (s : bytes) : option (Z * bytes) :=
  let s1 := skip_spaces s in
  let '(neg, s2) := match s1 with
                    | c :: s' => if bool_decide (c = "-"%char) then (true, s') else if bool_decide (c = "+"%char) then (false, s') else (false, s1)
                    | [] => (false, [])
                    end in
  match s2 with
  | c :: _ =>
    if isdigit c then
      let '(v, rest) := digits0 10 0 s2 in
      Some (if signed then (if neg : bool then Z.max (- 2 ^ 63) (- v) else Z.min (2 ^ 63 - 1) v)
            else if ULONG_MAX <? v then ULONG_MAX else if neg then u64 (- v) else v, rest)
    else None
  | [] => None
  end.

Definition scan_comma (s : bytes) : option bytes :=
  match s with c :: s => if bool_decide (c = ","%char) then Some s else None | [] => None end.

(** The numbers of [%d,%d,%d,%d,%u,%u], when the six are there. *)
Fixpoint scan_nums (kinds : list bool) (s : bytes) : option (list Z) :=
  match kinds with
  | [] => Some []
  | k :: kinds =>
    '(v, s) ← scan_num k s;
    match kinds with
    | [] => Some [v]
    | _ => s ← scan_comma s; l ← scan_nums kinds s; Some (v :: l)
    end
  end.

Definition clear_ip : H F unit := upd_x (λ x, set_peer x (x_family x) (x_port x) (replicate 16 0)).

Definition do_port (args : option bytes) : H F wzd_errno_t :=
  upd_x (λ x, set_sockets x (-1) (x_data x));;
  match args with
  | None => ends 501 "Invalid parameters" E_PARAM_NULL
  | Some args =>
    match scan_nums [true; true; true; true; false; false] args with
    | Some [a0; a1; a2; a3; p1; p2] =>
      upd_x (λ x, set_peer x (x_family x) (x_port x) ([a0 mod 256; a1 mod 256; a2 mod 256; a3 mod 256] ++ drop 4 (x_ip x)));;
      let port := Z.lor (Z.shiftl (Z.land p1 0xff) 8) (Z.land p2 0xff) in
      user ← sess (context_user b);
      denied ← must (fxp_is_denied user);
      x ← xfer;
      c ← sess my_context;
      if denied && negb (test_fxp (x_ip x) WZD_INET4 (c_conn c) =? 0) then clear_ip;; ends 501 "FXP not allowed" E_NOPERM else
      if port <? 1024 then clear_ip;; ends 501 "Port not allowed" E_NOPERM else
      upd_x (λ x, set_peer x WZD_INET4 port (x_ip x));;
      ends 200 "Command okay" E_OK
    | _ => ends 502 "" E_PARAM_INVALID
    end
  end.

(** The ports of the range are tried in turn, from a random one on; the number
    given to [bind] has 16 bits. *)
Fixpoint find_port (count : nat) (port : Z) : option Z :=
  match count with
  | O => None
  | S count =>
    if nt_bind nt (u16 port) then Some port
    else find_port count (if sv_pasv_high sv <? port + 1 then sv_pasv_low sv else port + 1)
  end.

(** A private address of the client, to which the public one is not given. *)
Definition is_private (ip : list Z) : bool :=
  match ip with
  | a :: b :: c :: d :: _ =>
    (a =? 10) || ((a =? 172) && (b =? 16)) || ((a =? 192) && (b =? 168) && (c =? 0)) || ((a =? 127) && (b =? 0) && (c =? 0) && (d =? 1))
  | _ => false
  end.

Definition pasv_address (c : client) : list Z :=
  if (default 0 (head (sv_pasv_ip sv)) =? 0) || is_private (cn_hostip (c_conn c)) then take 4 (nt_myip nt) else take 4 (sv_pasv_ip sv).

Definition numbers (l : list Z) : bytes := concat (cons (num (default 0 (head l))) (map (λ n, ","%char :: num n) (tail l))).

Definition no_pasv : H F wzd_errno_t := upd_x (λ x, set_sockets x (-1) (x_data x));; ends 425 "" E_NO_DATA_CTX.

Definition do_pasv (name : bytes) : H F wzd_errno_t :=
  c ← sess my_context;
  upd_x (λ x, set_sockets x (nt_socket nt) (x_data x));;
  if nt_socket nt =? -1 then no_pasv else
  let count := sv_pasv_high sv - sv_pasv_low sv + 1 in
  if count =? 0 then must Crash else
  match find_port (Z.to_nat count) (sv_pasv_low sv + Z.rem (nt_random nt) count) with
  | None => no_pasv
  | Some port =>
    if (port <? sv_pasv_low sv) || (sv_pasv_high sv <? port) then no_pasv else
    if 65536 <=? port then no_pasv else
    if negb (nt_listen nt) then no_pasv else
    upd_x (λ x, set_peer x WZD_INET4 (x_port x) (x_ip x));;
    say 227 (numbers (pasv_address c ++ [Z.land (Z.shiftr port 8) 0xff; Z.land port 0xff]));;
    (if strcaseeq (str "cpsv") name then sess (upd_conn (λ cn, set_cn_flags cn (Z.lor (cn_flags cn) CONNECTION_SSCN))) else mret tt);;
    mret E_OK
  end.

(** *** Parameters of the session *)

(** The marker is read in base 0. *)
Definition do_rest (arg : option bytes) : H F wzd_errno_t :=
  let bad : H F wzd_errno_t := ends 501 "Invalid REST marker" E_PARAM_INVALID in
  match arg with
  | Some ((c :: _) as s) =>
    if negb (isdigit c) then bad else
    let '(ull, rest) := strtoul0 s in
    match rest with
    | [] =>
      if ull =? ULONG_MAX then bad else
      say 350 (take 255 (str "Restarting at " ++ num ull ++ str ". Send STORE or RETRIEVE."));;
      upd_x (λ x, set_resume x ull);;
      mret E_OK
    | _ => bad
    end
  | _ => bad
  end.

Definition do_type (param : option bytes) : H F wzd_errno_t :=
  upd_x (λ x, set_resume x 0);;
  match param with
  | None => ends 501 "Invalid TYPE marker" E_PARAM_INVALID
  | Some s =>
    if strcaseeq s (str "I") then upd_x (λ x, set_type x BINARY);; ends 200 "Command okay" E_OK
    else if strcaseeq s (str "A") then upd_x (λ x, set_type x ASCII);; ends 200 "Command okay" E_OK
    else ends 502 "" E_PARAM_INVALID
  end.

Definition do_pbsz : H F wzd_errno_t := ends 200 "PBSZ command okay" E_OK.

(** A missing argument is compared as if it were there. *)
Definition do_prot (param : option bytes) : H F wzd_errno_t :=
  arg ← must (deref param);
  if strcaseeq (str "P") arg then sess (upd_conn (λ cn, set_data_mode cn TLS_PRIV));; ends 200 "PROT command okay" E_OK
  else if strcaseeq (str "C") arg then sess (upd_conn (λ cn, set_data_mode cn TLS_CLEAR));; ends 200 "PROT command okay" E_OK
  else sess (reply2 550 (str "PROT") (str "must be C or P"));; mret E_PARAM_INVALID.

Definition do_sscn (param : option bytes) : H F wzd_errno_t :=
  let arg := default [] param in
  if streq arg [] || strcaseeq arg (str "off") then
    sess (upd_conn (λ cn, set_cn_flags cn (Z.ldiff (cn_flags cn) CONNECTION_SSCN)));; ends 200 "SSCN:SERVER METHOD" E_OK
  else if strcaseeq arg (str "on") then
    sess (upd_conn (λ cn, set_cn_flags cn (Z.lor (cn_flags cn) CONNECTION_SSCN)));; ends 200 "SSCN:CLIENT METHOD" E_OK
  else sess (reply2 550 (str "SSCN") (str "Invalid argument"));; mret E_PARAM_INVALID.

Definition do_quit : H F wzd_errno_t :=
  answer 221 "";;
  sess (upd_client (λ c, mkClient (c_magic c) (c_userid c) (c_ul_maxspeed c) (c_dl_maxspeed c) (c_pid c) true (c_conn c)));;
  mret E_OK.
End handlers.
