(* ===== verification/HandlersProps.v ===== *)
(** * The handlers that name files stay in the client's tree

    Whatever name a client sends, MKD, RMD, RETR, RNFR, SIZE and MDTM run to an
    answer without an access out of their arrays, and every change they ask of
    the file system, and every file they open, is at a place [checkpath_new] may
    lead to: below the user's root, a recorded link or a virtual directory, with
    no dot-dot in what follows. STOR does not go through [checkpath_new] for an
    absolute name: [stor_escapes]. *)
From S2P Require Import Prelude Inet CList Registry Users Backend UsersFileProps Perm Path PermFile Vfs Session SiteUserProps Commands Chdir Login Sections FileOps Transfer TransferProps FileOpsProps Handlers.

(** What is used of directories: a directory that was made is there and leaves
    the permission files as they were; removing the permission file of a
    directory does not remove the directory. *)
Class Directories (F : Type) `{!FileSystem F} : Prop := {
  mkdir_made fs p mode fs' : sys_mkdir fs p mode = (0, fs') → p ≠ [] ∧ stat_kind fs' p = Some FK_DIR ∧ sys_perms fs' = sys_perms fs;
  unlink_keeps fs p : stat_kind fs p ≠ None → lstat_kind (sys_unlink fs (permfile_of p)).2 p ≠ None }.

(** ** Runs that end and make only certain calls *)

Definition serves {F A} (P : syscall → Prop) (m : H F A) (h : hstate F) : Prop := ∃ r h', m h = Val (r, h') ∧ only P h h'.

Lemma serves_ret {F A} P (a : A) (h : hstate F) : serves P (mret a) h.
Proof. exists a, h. split; [done|]. by apply only_refl. Qed.

Lemma serves_bind {F A B} P (m : H F A) (f : A → H F B) h a h1 :
  m h = Val (a, h1) → only P h h1 → serves P (f a) h1 → serves P (m ≫= f) h.
Proof.
  intros Hm Ho (r & h' & Hf & Ho'). exists r, h'. rewrite (hbind _ _ _ _ _ Hm). split; [done|]. by eapply only_trans.
Qed.

Lemma serves_silent {F A B} P (m : H F A) (f : A → H F B) h a h1 :
  m h = Val (a, h1) → h_calls h1 = h_calls h → serves P (f a) h1 → serves P (m ≫= f) h.
Proof. intros Hm Hc. by apply serves_bind; [|apply only_refl]. Qed.

Lemma serves_eq {F A} P (m : H F A) h r h' : m h = Val (r, h') → h_calls h' = h_calls h → serves P m h.
Proof. intros Hm Hc. exists r, h'. split; [done|by apply only_refl]. Qed.

Lemma serves_ends {F A} P code text (e : A) (h : hstate F) : serves P (ends code text e) h.
Proof. by eapply serves_eq. Qed.

Lemma serves_emits {F A} P ev (m : H F A) (h : hstate F) : (∀ h, serves P m h) → serves P (sess (emit ev);; m) h.
Proof. intros Hm. eapply serves_silent; [reflexivity|done|apply Hm]. Qed.

Lemma serves_asks {F A B} P (m : M A) (f : A → H F B) h a : m (h_s h) = Val (a, h_s h) → serves P (f a) h → serves P (sess m ≫= f) h.
Proof. intros Hm Hf. unfold serves. by rewrite (step_same _ _ _ _ Hm). Qed.
Lemma serves_must {F A B} P (o : outcome A) (f : A → H F B) h a : o = Val a → serves P (f a) h → serves P (must o ≫= f) h.
Proof. by intros ->. Qed.
Lemma serves_get {F B} P (f : hstate F → H F B) h : serves P (f h) h → serves P (get ≫= f) h.
Proof. done. Qed.
Lemma serves_xfer {F B} P (f : transfer → H F B) h : serves P (f (h_x h)) h → serves P (xfer ≫= f) h.
Proof. done. Qed.
Lemma serves_upd_x {F B} P g (f : unit → H F B) h : serves P (f tt) (with_x h (g (h_x h))) → serves P (upd_x g ≫= f) h.
Proof. done. Qed.
Lemma serves_put_fs {F B} P fs (f : unit → H F B) h : serves P (f tt) (with_fs h fs) → serves P (put_fs fs ≫= f) h.
Proof. done. Qed.

Create HintDb serves.
#[export] Hint Resolve serves_ret serves_ends serves_emits : serves.

(** ** Paths and their permission files *)

Lemma cut_slash_good q : absolute q → (length q + 8 ≤ MAXPATH)%nat → good_path (cut_slash q).
Proof.
  intros [s ->] Hl. unfold cut_slash, good_path. destruct (ends_with_slash _); [|split; [right; by exists s|lia]].
  rewrite length_take. cbn [length] in *. split; [|lia]. destruct s as [|c s]; [by left|right]. cbn [length].
  replace (S (S (length s)) - 1)%nat with (S (length s)) by lia. cbn [take]. by eexists.
Qed.

Lemma good_not_nil p : good_path p → p ≠ [] → absolute p.
Proof. by intros [[->|] _]. Qed.

(** Steps that make no call and leave the state shared by the clients alone. *)
Definition quiet {F} (h1 h2 : hstate F) : Prop :=
  h_calls h2 = h_calls h1 ∧ ss_world (h_s h2) = ss_world (h_s h1) ∧ ss_ctx (h_s h2) = ss_ctx (h_s h1) ∧
  x_thread (h_x h2) = x_thread (h_x h1).

Lemma quiet_refl {F} (h : hstate F) : quiet h h.
Proof. done. Qed.
Lemma quiet_trans {F} (h1 h2 h3 : hstate F) : quiet h1 h2 → quiet h2 h3 → quiet h1 h3.
Proof. unfold quiet. intuition congruence. Qed.

Definition quietly {F A} (m : H F A) (h : hstate F) : Prop := ∃ r h', m h = Val (r, h') ∧ quiet h h'.

Lemma quietly_ret {F A} (a : A) (h : hstate F) : quietly (mret a) h.
Proof. by exists a, h. Qed.
Lemma quietly_bind {F A B} (m : H F A) (f : A → H F B) h a h1 : m h = Val (a, h1) → quiet h h1 → quietly (f a) h1 → quietly (m ≫= f) h.
Proof.
  intros Hm Hq (r & h' & Hf & Hq'). exists r, h'. rewrite (hbind _ _ _ _ _ Hm). split; [done|]. by eapply quiet_trans.
Qed.
Lemma quietly_asks {F A B} (m : M A) (f : A → H F B) h a : m (h_s h) = Val (a, h_s h) → quietly (f a) h → quietly (sess m ≫= f) h.
Proof. intros Hm Hf. unfold quietly. by rewrite (step_same _ _ _ _ Hm). Qed.
Lemma quietly_must {F A B} (o : outcome A) (f : A → H F B) h a : o = Val a → quietly (f a) h → quietly (must o ≫= f) h.
Proof. by intros ->. Qed.

Lemma run_context_userp ch ca s me m : session_user s me m → context_userp (Some (plaintext ch ca)) s = Val (Some m, s).
Proof.
  intros (Hwf & Hm & Hreg & c' & Hc & Hid). unfold context_userp. rewrite (bind_run _ _ _ _ _ (run_my_context _ _ Hc)), Hid.
  rewrite (bind_run _ _ _ (Some me) s) by (rewrite getUserByID_spec by (done || by eapply registered_range); by rewrite Hreg).
  by rewrite (bind_run _ _ _ _ _ (run_user_at _ _ _ Hm)).
Qed.

Section confined.
  Context {F R : Type} `{!FileSystem F, !Directories F}.
  Context (ch : list ascii → list ascii → list ascii → nat → Z * list ascii) (ca : list ascii → list ascii → list ascii → Z).
  Context (sv : server R) (nt : network) (h : hstate F) (me : addr) (m : wzd_user_t) (c : client) (name fl : bytes) (gnames : list bytes)
          (root cur : bytes).
  #[local] Abbreviation pb := (Some (plaintext ch ca)).
  #[local] Abbreviation umask := (sv_umask sv).

(** A client in its directory [/cur], on a server where the places a path may
    lead to are absolute and leave room for the path. *)
Record browsing (n : nat) : Prop := {
  br_ready : ready umask h me m c name fl gnames;
  br_name : (length name < 256)%nat;
  br_root : buf_str (rootpath m) = Val root ∧ root ≠ [];
  br_cur : cn_path (c_conn c) = SLASH :: cur ∧ nul_free cur;
  br_vfs : Forall (vfs_ok pb (ss_world (h_s h)) m) (sv_vfs sv);
  br_bases base : base_ok umask (sys_perms (h_fs h)) (sv_vfs sv) root base →
    absolute base ∧ (length base + length cur + n + 13 ≤ MAXPATH)%nat }.

Definition inside (q : bytes) : Prop := below_base umask (lstat_kind (h_fs h)) (sys_perms (h_fs h)) (sv_vfs sv) root q.

(** A call on a path the client may reach, or on a permission file there. *)
Definition inside_call (s : syscall) : Prop :=
  ∃ q, inside q ∧ match s with
       | SysMkdir p _ | SysRmdir p | SysOpen p _ => p = cut_slash q
       | SysUnlink p => p = cut_slash q ∨ p = permfile_of (cut_slash q)
       | SysRename _ _ | SysSymlink _ _ | SysUtime _ _ _ | SysSend _ => False
       end.

Lemma inside_absolute n q : browsing n → inside q → absolute q.
Proof.
  intros Hb (base & p & -> & Hbase & _). destruct (br_bases n Hb base Hbase) as [[s ->] _]. by exists (s ++ p).
Qed.

(** What [checkpath] gives for a name that fits. *)
Definition resolved (r : wzd_errno_t * option bytes) : Prop :=
  match r.2 with
  | Some q => inside q ∧ q ≠ [] ∧ (length q + 8 ≤ MAXPATH)%nat ∧ (r.1 = E_OK ∨ r.1 = E_FILE_NOEXIST)
  | None => r.1 = E_NOPERM ∨ r.1 = E_WRONGPATH
  end.

Lemma run_checkpath n wanted :
  browsing n → nul_free wanted → (length wanted ≤ n)%nat → ∃ r, checkpath pb sv wanted h = Val (r, h) ∧ resolved r.
Proof using All.
  intros [[(Hwf & Hrest) Hc Hmax Hp Hd _] _ [Hroot Hr] [Hcur Hcu] Hvfs Hb] Hw Hn. unfold checkpath.
  rewrite (run_my_context _ _ Hc). run. rewrite (run_context_userp ch ca _ me m) by done. run. rewrite Hcur.
  destruct (checkpath_below ch ca umask (lstat_kind (h_fs h)) (sys_perms (h_fs h)) (ss_world (h_s h)) (sv_vfs sv) m name fl gnames root cur wanted)
    as (ret & po & -> & Hpo); try done; [by destruct Hwf as (_ & _ & ?)|intros base Hbase; destruct (Hb base Hbase); lia|].
  exists (ret, po). split; [done|]. destruct po; unfold resolved; cbn; naive_solver.
Qed.

Lemma resolved_found r : resolved r → r.1 = E_OK ∨ r.1 = E_FILE_NOEXIST → ∃ q, r = (r.1, Some q) ∧ inside q ∧ q ≠ [] ∧ (length q + 8 ≤ MAXPATH)%nat.
Proof. destruct r as [e [q|]]; cbn; [intros (? & ? & ? & ?) _; by exists q|]. intros [|] [|]; congruence. Qed.

(** The argument of a command. *)
Definition named (n : nat) (arg : option bytes) : Prop := from_option (λ p, nul_free p ∧ (length p ≤ n)%nat) True arg.

Lemma checklength_some arg p : checklength arg = Some p → arg = Some p ∧ (1 ≤ length p)%nat.
Proof. destruct arg as [s|]; unfold checklength; [|done]. destruct (Nat.leb_spec 1 (length s)); cbn [andb]; [|done]. destruct (_ <=? _)%nat; [|done]. by intros [= <-]. Qed.
Lemma named_file_some arg p : named_file arg = Some p → arg = Some p.
Proof. destruct arg as [s|]; unfold named_file; [|done]. destruct (_ && _); [|done]. by intros [= <-]. Qed.

Lemma serves_refused (code : Z) (a d : bytes) P {A} (e : A) (h' : hstate F) : serves P (sess (reply2 code a d);; mret e) h'.
Proof. unfold reply2. auto with serves. Qed.
#[local] Hint Resolve serves_refused : serves.

Lemma serves_mkdir_error P param ret (h' : hstate F) : serves P (mkdir_error param ret) h'.
Proof. unfold mkdir_error, say. auto with serves. Qed.
Lemma serves_rmdir_error P param ret (h' : hstate F) : serves P (rmdir_error param ret) h'.
Proof. unfold rmdir_error, say. auto with serves. Qed.
#[local] Hint Resolve serves_mkdir_error serves_rmdir_error : serves.

(** The name of the main group fits the array of a permission file. *)
Lemma run_main_group : ready umask h me m c name fl gnames → ∃ g, main_group_name pb m (h_s h) = Val (g, h_s h) ∧ short_opt g.
Proof.
  intros [(Hwf & _) _ Hmax [_ _ Hnum Hg] _ _]. unfold main_group_name. destruct (Z.ltb_spec 0 (group_num m)); [|by exists None].
  destruct (groups m) as [|g gs]; [simpl in Hnum; lia|]. rewrite (bind_run _ _ (h_s h) g (h_s h)) by done.
  destruct (Z.to_nat (group_num m)) as [|k] eqn:E; [lia|]. cbn [take] in Hg. apply Forall2_cons_inv_l in Hg as (n & ns & (a & gr & Ha & Hgr & Hgn & Hn & Hl) & _ & _).
  destruct Hwf as (_ & _ & Hwg). rewrite (bind_run _ _ (h_s h) (Some a) (h_s h)).
  2:{ unfold getGroupByID, ask. rewrite (get_group_registered ch ca _ _ _ Hwg Ha). rewrite (proj2 (Z.eqb_neq _ _)) by lia. done. }
  cbn beta iota. rewrite (bind_run _ _ (h_s h) gr (h_s h)) by (unfold group_at, ask; by rewrite Hgr).
  rewrite (bind_run _ _ (h_s h) n (h_s h)); [|unfold lift; rewrite Hgn, buf_str_padded by done; done].
  exists (Some n). split; [done|]. cbn. unfold HARD_GROUPNAME_LENGTH in Hl. lia.
Qed.

(** The path of a name below the current directory, for the test on hidden
    files. *)
Lemma run_mkdir_path n param : browsing n → nul_free param → (1 ≤ length param ≤ n)%nat → ∃ p, mkdir_path pb sv param h = Val (p, h).
Proof using All.
  intros Hb Hw Hn. unfold mkdir_path.
  assert (Hadd : ∀ q, q ≠ [] → (length q + 8 ≤ MAXPATH)%nat → ∃ q', add_slash q = Val q').
  { intros q Hq Hl. rewrite add_slash_fits by (done || lia). by eexists. }
  destruct (starts_with [SLASH] param).
  - destruct (run_checkpath n param Hb Hw ltac:(lia)) as (r & Hr & Hres). rewrite (hbind _ _ _ _ _ Hr).
    case_bool_decide as He; cbn [negb]; [|by eexists]. destruct (resolved_found r Hres (or_intror He)) as (q & -> & _ & Hq & Hl).
    rewrite (step_must _ q) by done. destruct (Hadd q Hq Hl) as [q' Hq']. rewrite (step_must _ q') by done. by eexists.
  - destruct (run_checkpath n (str ".") Hb ltac:(by_decision) ltac:(cbn; lia)) as (r & Hr & Hres). rewrite (hbind _ _ _ _ _ Hr).
    case_bool_decide as He; cbn [negb]; [|by eexists]. destruct (resolved_found r Hres (or_introl He)) as (q & -> & _ & Hq & Hl).
    rewrite (step_must _ q) by done. destruct (Hadd q Hq Hl) as [q' Hq']. rewrite (step_must _ q') by done. by eexists.
Qed.

Lemma run_filtered n buffer param : browsing n → (length param ≤ n)%nat → ∃ no, filtered sv buffer (cn_path (c_conn c)) param = Val no.
Proof using All.
  intros Hb Hn. unfold filtered. destruct (strrchr_slash _) as [[[|x d] nm]|]; [by eexists| |by eexists].
  assert (Hl : (length cur + n + 13 < MAXPATH)%nat).
  { destruct (br_bases n Hb (with_slash root) (or_introl eq_refl)) as [[s E] Hl]. rewrite E in Hl. cbn [length] in Hl. lia. }
  destruct (br_cur n Hb) as [-> _]. unfold ftp_path. destruct (starts_with [SLASH] param); [by eexists|]. cbn [length].
  rewrite (proj2 (Nat.leb_gt _ _)) by lia. rewrite (proj2 (Nat.leb_gt _ (length param))); [by eexists|].
  destruct (ends_with_slash _); rewrite ?length_app; cbn [length]; lia.
Qed.
Lemma inside_good n q : browsing n → inside q → (length q + 8 ≤ MAXPATH)%nat → good_path (cut_slash q).
Proof using All. intros Hb Hq Hl. apply cut_slash_good; [by eapply inside_absolute|done]. Qed.

Lemma serves_mkd n arg : browsing n → named n arg → serves inside_call (do_mkdir pb sv nt arg) h.
Proof using All.
  intros Hb Hn. pose proof (br_ready _ Hb) as Hrd. unfold do_mkdir. destruct (checklength arg) as [param|] eqn:Ea; [|auto with serves].
  apply checklength_some in Ea as [-> Hlen]. destruct Hn as [Hw Hn].
  eapply serves_asks; [by eapply run_context_user, rd_user|]. destruct (_ =? 0); [auto with serves|]. destruct (streq _ _); [auto with serves|].
  destruct (run_mkdir_path n param Hb Hw ltac:(lia)) as [p Hp]. eapply serves_silent; [exact Hp|done|]. destruct p as [|path]; [auto with serves|].
  destruct (run_checkpath n param Hb Hw Hn) as (r & Hr & Hres). eapply serves_silent; [exact Hr|done|].
  case_bool_decide as He; cbn [negb]; [|auto with serves]. destruct (resolved_found r Hres (or_intror He)) as (q & -> & Hq & _ & Hl).
  eapply serves_must; [done|]. eapply serves_must; [by eapply pu_name, rd_perm|]. destruct (negb _); [auto with serves|].
  destruct (hidden sv path); [auto with serves|]. eapply serves_asks; [by eapply run_my_context, rd_context|].
  destruct (run_filtered n (cut_slash q) param Hb Hn) as [no Hno]. eapply serves_must; [exact Hno|]. destruct no; [auto with serves|].
  eapply serves_upd_x. set (x := set_file _ _ _).
  destruct (file_mkdir_runs ch ca umask (with_x h x) me m c name fl gnames (cut_slash q) inside_call) as (ret & h1 & Hmk & Hs & _ & Ho & Hok);
    [by apply ready_x|by eapply inside_good|by exists q|]. eapply serves_bind; [exact Hmk|exact Ho|].
  case_bool_decide as Hret; cbn [negb]; [|auto with serves]. destruct (Hok Hret) as (fs & Hsys & Hfs).
  destruct (mkdir_made _ _ _ _ Hsys) as (Hne & Hdir & Hperm). destruct (run_main_group Hrd) as (g & Hg & Hgs).
  eapply serves_asks; [by rewrite Hs; cbn [with_x h_s]; exact Hg|].
  pose proof (inside_good n q Hb Hq Hl) as Hgood.
  destruct (file_chown_total umask (stat_kind fs) (sys_writable fs) (sys_perms fs) (cut_slash q) (Some name) g) as [[z d] Hch];
    [rewrite Hperm; apply Hrd|by apply good_not_nil|apply Hgood|exact (br_name _ Hb)|done|by left|].
  eapply serves_silent; [by unfold file_chown_at, on_perms; rewrite Hfs, Hch|done|]. unfold raw, idle_now. by eapply serves_eq.
Qed.
Lemma serves_rmd n arg : browsing n → named n arg → serves inside_call (do_rmdir pb sv nt arg) h.
Proof using All.
  intros Hb Hn. pose proof (br_ready _ Hb) as Hrd. unfold do_rmdir. destruct (checklength arg) as [param|] eqn:Ea; [|auto with serves].
  apply checklength_some in Ea as [-> _]. destruct Hn as [Hw Hn].
  eapply serves_asks; [by eapply run_context_user, rd_user|]. destruct (_ =? 0); [auto with serves|].
  destruct (run_checkpath n param Hb Hw Hn) as (r & Hr & Hres). eapply serves_silent; [exact Hr|done|].
  case_bool_decide as He; cbn [negb]; [|auto with serves]. destruct (resolved_found r Hres (or_introl He)) as (q & -> & Hq & _ & Hl).
  eapply serves_must; [done|]. cbv zeta. destruct (hidden sv _); [auto with serves|]. apply serves_get.
  destruct (lstat_kind _ _) as [[]|]; auto with serves.
  destruct (file_rmdir_runs ch ca umask h me m c name fl gnames (cut_slash q) inside_call) as (ret & h1 & Hrm & _ & _ & Ho);
    [done|by eapply inside_good|exists q; auto..|apply unlink_keeps|].
  eapply serves_bind; [exact Hrm|exact Ho|]. destruct (negb _); [auto with serves|]. unfold raw, idle_now. by eapply serves_eq.
Qed.

(** SIZE, MDTM and RNFR read the file system and make no call. *)
Lemma serves_size n arg : browsing n → named n arg → serves inside_call (do_size pb sv arg) h.
Proof using All.
  intros Hb Hn. unfold do_size. destruct (checklength arg) as [param|] eqn:Ea; [|auto with serves].
  apply checklength_some in Ea as [-> _]. destruct Hn as [Hw Hn]. cbv zeta.
  destruct (run_checkpath n param Hb Hw Hn) as (r & Hr & Hres). eapply serves_silent; [exact Hr|done|].
  case_bool_decide as He; cbn [negb]; [|auto with serves]. destruct (resolved_found r Hres (or_introl He)) as (q & -> & _).
  eapply serves_must; [done|]. destruct (hidden sv _); [auto with serves|]. apply serves_get.
  destruct (sys_stat _ _) as [[]|]; unfold say; auto with serves.
Qed.

Lemma serves_mdtm n arg : browsing n → named n arg → serves inside_call (do_mdtm pb sv nt arg) h.
Proof using All.
  intros Hb Hn. unfold do_mdtm. destruct (checklength arg) as [param|] eqn:Ea; [|auto with serves].
  apply checklength_some in Ea as [-> _]. destruct Hn as [Hw Hn]. cbv zeta.
  destruct (run_checkpath n param Hb Hw Hn) as (r & Hr & Hres). eapply serves_silent; [exact Hr|done|].
  case_bool_decide as He; cbn [negb]; [|auto with serves]. destruct (resolved_found r Hres (or_introl He)) as (q & -> & _).
  eapply serves_must; [done|]. destruct (hidden sv _); [auto with serves|]. apply serves_get.
  destruct (sys_stat _ _) as [[]|]; unfold say; [apply serves_upd_x|]; auto with serves.
Qed.

Lemma serves_rnfr n arg : browsing n → named n arg → serves inside_call (do_rnfr pb sv arg) h.
Proof using All.
  intros Hb Hn. unfold do_rnfr. eapply serves_asks; [by eapply run_context_userp, rd_user, br_ready|]. cbv beta iota zeta.
  destruct (Z.land _ _ =? 0); [auto with serves|]. destruct (named_file arg) as [param|] eqn:Ea; [|auto with serves].
  apply named_file_some in Ea as ->. destruct Hn as [Hw Hn].
  destruct (run_checkpath n param Hb Hw Hn) as (r & Hr & Hres). eapply serves_silent; [exact Hr|done|].
  case_bool_decide as He; cbn [negb]; [|auto with serves]. destruct (resolved_found r Hres (or_introl He)) as (q & -> & _).
  eapply serves_must; [done|]. destruct (hidden sv _); [auto with serves|]. apply serves_upd_x. auto with serves.
Qed.
(** Opening a data connection. *)
Lemma open_data_quietly (h1 : hstate F) : session_user (h_s h1) me m → w_contexts (ss_world (h_s h1)) !! ss_ctx (h_s h1) = Some c → buf_str (flags m) = Val fl →
  quietly (open_data pb nt) h1.
Proof using.
  intros Hs Hc Hf. unfold open_data. eapply quietly_bind; [done|done|].
  assert (Htls : ∃ k, needs_tls (Some m) (c_conn c) = Val k) by (unfold needs_tls, has_flag; rewrite Hf; by eexists). destruct Htls as [k Htls].
  assert (Hfxp : ∃ k, fxp_is_denied m = Val k) by (unfold fxp_is_denied, has_flag; rewrite Hf; by eexists). destruct Hfxp as [d Hfxp].
  destruct (x_pasv (h_x h1) =? -1).
  - unfold waitconnect. eapply quietly_asks; [by apply run_my_context|]. eapply quietly_asks; [by eapply run_context_userp|].
    eapply quietly_must; [exact Htls|]. destruct k; [by eexists _, _|]. eapply quietly_bind; [done|done|].
    destruct (x_family _); [by eexists _, _| |by eexists _, _]. eapply quietly_bind; [done|done|]. cbv zeta.
    destruct (_ =? -1); [by eexists _, _|]. destruct (_ && _); by eexists _, _.
  - eapply quietly_bind; [done|done|]. unfold waitaccept. eapply quietly_asks; [by apply run_my_context|].
    eapply quietly_asks; [by eapply run_context_userp|]. eapply quietly_must; [exact Htls|]. destruct k; [by eexists _, _|].
    destruct (negb _); [by eexists _, _|]. eapply quietly_bind; [done|done|]. destruct (nt_accept _ _) as [[[sock host] fam]|]; [|by eexists _, _].
    eapply quietly_bind; [done|done|]. eapply quietly_must; [done|]. eapply quietly_must; [exact Hfxp|].
    destruct (_ && _); [by eexists _, _|]. destruct (_ && _); by eexists _, _.
Qed.
Lemma file_seek_quietly fd off whence (h1 : hstate F) : quietly (file_seek fd off whence) h1.
Proof using. unfold file_seek. eapply quietly_bind; [done|done|]. destruct (sys_lseek _ _ _ _). by eexists _, _. Qed.

Lemma serves_quietly {A B} P (k : H F A) (f : A → H F B) h1 :
  quietly k h1 → (∀ a h2, quiet h1 h2 → serves P (f a) h2) → serves P (k ≫= f) h1.
Proof using. intros (a & h2 & Hk & Hq) Hf. eapply serves_silent; [exact Hk|apply Hq|by apply Hf]. Qed.

Lemma run_upd_client s c' f : w_contexts (ss_world s) !! ss_ctx s = Some c' →
  upd_client f s = Val (tt, set_world s (with_contexts (ss_world s) (<[ss_ctx s := f c']> (w_contexts (ss_world s))))).
Proof using. intros Hc. unfold upd_client. by rewrite Hc. Qed.

(** The transfer is set up. *)
Lemma serves_started P (h1 : hstate F) now fd path :
  sv_experimental sv = false ∨ x_thread (h_x h1) = false →
  r_heap (w_users (ss_world (h_s h1))) !! me = Some m → w_contexts (ss_world (h_s h1)) !! ss_ctx (h_s h1) = Some c →
  serves P (sess (upd_conn (λ cn, set_state cn STATE_XFER));;
    upd_x (λ x, set_idle (set_resume (set_file (set_arg (set_token x TOK_RETR) path) fd 0) 0) now now);;
    sess (upd_client (λ c, set_speeds c (c_ul_maxspeed c) (u_max_dl_speed m)));;
    sess (user_upd me count_file_down);;
    start_transfer pb sv nt) h1.
Proof using.
  intros Hexp Hm Hc. eapply serves_silent; [by eapply run_sess, run_upd_conn|done|]. apply serves_upd_x.
  eapply serves_silent; [eapply run_sess, run_upd_client, list_lookup_insert_eq; by eapply lookup_lt_Some|done|].
  eapply serves_silent; [eapply run_sess, run_user_upd; exact Hm|done|]. unfold start_transfer.
  destruct (sv_experimental sv); [|apply serves_ret]. destruct Hexp as [|Hexp]; [done|]. apply serves_xfer.
  cbn [h_x with_s with_x set_idle set_resume set_file set_arg set_token set_action x_thread negb]. rewrite Hexp. by eapply serves_eq.
Qed.

Lemma ratio_check_total (h1 : hstate F) path : session_user (h_s h1) me m → ∃ r, ratio_check_download pb path h1 = Val (r, h1).
Proof using.
  intros (Hwf & Hm & Hreg & c' & Hc & Hid). unfold ratio_check_download. rewrite (run_my_context _ _ Hc). run. rewrite Hid.
  rewrite getUserByID_spec by (done || by eapply registered_range). rewrite Hreg. run. rewrite (run_user_at _ _ _ Hm). run.
  destruct (_ =? 0); [by eexists|]. destruct (sys_stat _ _) as [[]|]; by eexists.
Qed.

Lemma test_path_total n q : browsing n → (length q < MAXPATH)%nat →
  ∃ t, test_path pb umask (lstat_kind (h_fs h)) (sys_perms (h_fs h)) (ss_world (h_s h)) q (Some m) = Val t.
Proof using All.
  intros Hb Hl. destruct (br_ready _ Hb) as [(Hwf & _) _ Hmax Hp Hd _]. unfold test_path.
  assert (Hk : ∃ t, (if negb (ends_with_slash q) then Val E_WRONGPATH else
      denied ← _checkFileForPerm pb umask (sys_perms (h_fs h)) q (str ".") RIGHT_CWD m (ss_world (h_s h));
      Val (if denied =? 0 then E_OK else E_NOPERM)) = Val t).
  { destruct (negb _); [by eexists|]. destruct (Hd (q ++ HARD_PERMFILE)) as [l Hl'].
    destruct (check_total ch ca umask (sys_perms (h_fs h)) (ss_world (h_s h)) m name fl gnames q (str ".") l RIGHT_CWD) as [r ->];
      [apply Hwf|done|done|exact Hl'|done|]. by eexists. }
  destruct (lstat_kind _ _) as [[]|]; first [exact Hk|by eexists].
Qed.
(** The path RETR reads is not set when a directory of the path is closed to the
    user. *)
Definition opens (arg : option bytes) : Prop :=
  (sv_experimental sv = false ∨ x_thread (h_x h) = false) ∧
  ∀ param, arg = Some param → checkpath pb sv param h ≠ Val ((E_NOPERM, None), h).

Lemma serves_retr n arg : browsing n → named n arg → opens arg → serves inside_call (do_retr pb sv nt arg) h.
Proof using All.
  intros Hb Hn [Hexp Hperm]. pose proof (br_ready _ Hb) as Hrd. pose proof (rd_user _ _ _ _ _ _ _ _ Hrd) as Hs. unfold do_retr.
  eapply serves_asks; [by eapply run_get_me|]. eapply serves_asks; [by eapply run_user_at, Hs|]. destruct (Z.land _ _ =? 0); [auto with serves|].
  apply serves_xfer. destruct (_ && _); [auto with serves|]. eapply serves_asks; [by eapply run_my_context, rd_context|].
  case_bool_decide; [auto with serves|]. destruct arg as [[|x0 param0]|]; [auto with serves| |auto with serves].
  set (param := x0 :: param0) in *. destruct (_ <? _)%nat; [auto with serves|]. destruct Hn as [Hw Hn].
  destruct (run_checkpath n param Hb Hw Hn) as (r & Hr & Hres). specialize (Hperm param eq_refl). rewrite Hr in Hperm.
  eapply serves_silent; [exact Hr|done|]. destruct (_ && _ && _) eqn:He; [auto with serves|].
  assert (Hfound : ∃ q, r = (r.1, Some q) ∧ inside q ∧ q ≠ [] ∧ (length q + 8 ≤ MAXPATH)%nat).
  { apply resolved_found; [done|]. destruct r as [e [q|]]; [apply Hres|]. destruct Hres as [Hres|Hres]; cbn in Hres; subst e; [by destruct Hperm|done]. }
  clear He. destruct Hfound as (q & -> & Hq & _ & Hl). eapply serves_must; [done|]. apply serves_upd_x. eapply serves_must; [by eapply pu_name, rd_perm|].
  apply serves_upd_x. destruct (negb _); [auto with serves|]. apply serves_get.
  destruct (test_path_total n q Hb ltac:(lia)) as [t Ht]. eapply serves_must; [exact Ht|]. destruct (negb _); [auto with serves|]. cbv zeta.
  destruct (hidden sv _); [auto with serves|]. set (h1 := with_x _ _). destruct (ratio_check_total h1 (cut_slash q) Hs) as [k Hk].
  eapply serves_silent; [exact Hk|done|]. destruct (negb _); [auto with serves|].
  destruct (file_open_runs ch ca umask (sv_deny_uploaded sv) h1 me m c name fl gnames (cut_slash q) O_RDONLY inside_call)
    as (fd & h2 & Hopen & Hs2 & Hx2 & Ho); [by apply (ready_x umask h)|by eapply inside_good|by exists q|].
  eapply serves_bind; [exact Hopen|exact Ho|]. destruct (fd =? -1); [auto with serves|].
  apply serves_quietly; [apply file_seek_quietly|]. intros _ h3 (_ & Hw3 & Hc3 & Hx3). apply serves_upd_x. rewrite Hs2 in Hw3, Hc3.
  apply serves_quietly.
  { apply open_data_quietly; [|cbn [with_x h_s]; rewrite Hw3, Hc3; apply Hrd|by eapply pu_flags, rd_perm].
    unfold session_user in *. cbn [with_x h_s]. by rewrite Hw3, Hc3. }
  intros sock h4 (_ & Hw4 & Hc4 & Hx4). destruct (sock =? -1); [by eapply serves_eq|]. apply serves_upd_x.
  apply serves_quietly; [apply file_seek_quietly|]. intros _ h5 (_ & Hw5 & Hc5 & Hx5).
  apply serves_started; [|rewrite Hw5; cbn [with_x h_s]; rewrite Hw4; cbn [with_x h_s]; rewrite Hw3; apply Hs|].
  - destruct Hexp as [Hexp|Hexp]; [by left|right]. rewrite Hx5. cbn. rewrite Hx4. cbn. by rewrite Hx3, Hx2.
  - rewrite Hw5, Hc5; cbn [with_x h_s]; rewrite Hw4, Hc4; cbn [with_x h_s]; rewrite Hw3, Hc3. apply Hrd.
Qed.
End confined.

(** ** Ports *)

Section ports.
  Context {R : Type} (sv : server R) (nt : network).
  Context (Hrange : 0 ≤ sv_pasv_low sv ≤ sv_pasv_high sv) (Hport : sv_pasv_high sv < 65536).
  #[local] Abbreviation low := (sv_pasv_low sv).
  #[local] Abbreviation high := (sv_pasv_high sv).

Lemma find_port_sound n port q : low ≤ port ≤ high → find_port sv nt n port = Some q → low ≤ q ≤ high ∧ nt_bind nt q = true.
Proof using All.
  revert port. induction n as [|n IH]; intros port Hp; cbn [find_port]; [done|].
  unfold u16 at 1. rewrite Z.mod_small by lia. destruct (nt_bind nt port) eqn:Hb; [by intros [= <-]|].
  apply IH. destruct (Z.ltb_spec high (port + 1)); lia.
Qed.

(** How far a port is from another one, in the order they are tried. *)
Definition ahead (port p : Z) : Z := if port <=? p then p - port else p - port + (high - low + 1).

Lemma find_port_complete n port p :
  low ≤ port ≤ high → low ≤ p ≤ high → nt_bind nt p = true → ahead port p < Z.of_nat n → is_Some (find_port sv nt n port).
Proof using All.
  revert port. induction n as [|n IH]; intros port Hp Hp' Hb Ha.
  { unfold ahead in Ha. destruct (Z.leb_spec port p); lia. }
  cbn [find_port]. unfold u16 at 1. rewrite Z.mod_small by lia. destruct (nt_bind nt port) eqn:Hb'; [done|].
  assert (port ≠ p) by congruence. unfold ahead in *.
  destruct (Z.ltb_spec high (port + 1)); (apply IH; [lia|lia|done|]);
    repeat match goal with |- context [?a <=? ?b] => destruct (Z.leb_spec a b) | _ : context [?a <=? ?b] |- _ => destruct (Z.leb_spec a b) end; lia.
Qed.
End ports.

(** *** Numbers of an address *)

Lemma digits0_app acc s v rest : Forall (λ c, isdigit_in 10 c = true) s → digits0 10 acc s = (v, []) → digits0 10 acc (s ++ rest) = digits0 10 v rest.
Proof.
  intros Hs. revert acc. induction Hs as [|c s Hc Hs IH]; intros acc; cbn [digits0 app]; [by intros [= ->]|].
  destruct (xdigit_dec c Hc) as [_ ->]. apply IH.
Qed.

Definition after_number (rest : bytes) : Prop := rest = [] ∨ ∃ s, rest = ","%char :: s.

Lemma scan_num_print signed n rest : 0 ≤ n < 256 → after_number rest → scan_num signed (num n ++ rest) = Some (n, rest).
Proof.
  intros Hn Hrest. destruct (scan_dec n ltac:(lia)) as (c & s & base & E & Hsp & Hm & Hp & Hd & _ & _ & _). unfold UsersFile.dec in E. unfold num.
  destruct (print_digits 10 20 n [] ltac:(lia)) as (t & Ht & Hf & _). rewrite app_nil_r, E in Ht. subst t.
  pose proof (digits_print 10 20 n [] ltac:(lia) ltac:(change (Z.of_nat 20) with 20; lia)) as Hv. rewrite E in *.
  rewrite <- digits0_dec in Hv by done. cbn [digits_value_in] in Hv. unfold scan_num. cbn [app skip_spaces]. rewrite Hsp.
  cbv beta iota zeta. rewrite !bool_decide_eq_false_2 by done. rewrite Hd.
  assert (Hall : digits0 10 0 (c :: s ++ rest) = (n, rest)).
  { change (c :: s ++ rest) with ((c :: s) ++ rest). rewrite (digits0_app 0 _ n) by done. by destruct Hrest as [->|[s' ->]]. }
  rewrite Hall. f_equal. f_equal. unfold ULONG_MAX. destruct signed; [lia|]. destruct (Z.ltb_spec (2 ^ 64 - 1) n); lia.
Qed.

Lemma scan_nums_print kinds l : length kinds = length l → l ≠ [] → Forall (λ n, 0 ≤ n < 256) l → scan_nums kinds (numbers l) = Some l.
Proof.
  intros Hlen Hne Hl. revert kinds Hlen. destruct l as [|n l]; [done|]. clear Hne. unfold numbers. cbn [head tail concat map from_option id]. unfold id.
  revert n Hl. induction l as [|n' l IH]; intros n Hl [|k kinds] Hlen; try done; apply Forall_cons in Hl as [Hn Hl];
    cbn [scan_nums default from_option id].
  - destruct kinds; [|done]. cbn [map concat]. rewrite (scan_num_print k n []) by (done || by left). done.
  - destruct kinds as [|k' kinds]; [done|]. cbn [map concat].
    rewrite (scan_num_print k n) by (done || right; by eexists). cbn [mbind option_bind app scan_comma].
    rewrite bool_decide_eq_true_2 by done. cbn [mbind option_bind]. by rewrite (IH n' Hl (k' :: kinds)) by (cbn [length] in *; lia).
Qed.

Lemma port_split port : 0 ≤ port < 65536 →
  0 ≤ Z.land (Z.shiftr port 8) 0xff < 256 ∧ 0 ≤ Z.land port 0xff < 256 ∧
  Z.lor (Z.shiftl (Z.land (Z.land (Z.shiftr port 8) 0xff) 0xff) 8) (Z.land (Z.land port 0xff) 0xff) = port.
Proof.
  intros Hp. change 0xff with (Z.ones 8). rewrite !Z.land_ones by lia. rewrite !Z.mod_mod by lia.
  rewrite Z.shiftr_div_pow2 by lia. change (2 ^ 8) with 256.
  pose proof (Z.mod_pos_bound port 256 ltac:(lia)). pose proof (Z.div_mod port 256 ltac:(lia)).
  assert (0 ≤ port / 256 < 256) by (split; [apply Z.div_pos; lia|apply Z.div_lt_upper_bound; lia]).
  rewrite (Z.mod_small (port / 256)) by lia. split; [lia|]. split; [lia|].
  assert (Hdis : Z.land (Z.shiftl (port / 256) 8) (port mod 256) = 0).
  { apply Z.bits_inj'. intros i Hi. rewrite Z.land_spec, Z.bits_0. change 256 with (2 ^ 8) at 2. rewrite <- Z.land_ones by lia.
    rewrite Z.land_spec, Z.shiftl_spec by lia. destruct (Z.lt_ge_cases i 8).
    - by rewrite (Z.testbit_neg_r _ (i - 8)) by lia.
    - rewrite (Z.ones_spec_high 8 i) by lia. by rewrite !andb_false_r. }
  pose proof (Z.add_lor_land (Z.shiftl (port / 256) 8) (port mod 256)) as Hsum. rewrite Hdis in Hsum.
  rewrite Z.shiftl_mul_pow2 in * by lia. change (2 ^ 8) with 256 in *. lia.
Qed.

(** The six numbers of an address and a port. *)
Definition endpoint (ip : list Z) (port : Z) : bytes := numbers (ip ++ [Z.land (Z.shiftr port 8) 0xff; Z.land port 0xff]).

Lemma run_do_port {F} `{!FileSystem F} ch ca (h : hstate F) me m c fl ip port :
  session_user (h_s h) me m → w_contexts (ss_world (h_s h)) !! ss_ctx (h_s h) = Some c → buf_str (flags m) = Val fl →
  length ip = 4%nat → Forall (λ n, 0 ≤ n < 256) ip → 1024 ≤ port < 65536 →
  strchr fl FLAG_FXP_DISABLE = false ∨ take 4 (cn_hostip (c_conn c)) = ip →
  ∃ h', do_port (Some (plaintext ch ca)) (Some (endpoint ip port)) h = Val (E_OK, h') ∧
    x_family (h_x h') = WZD_INET4 ∧ x_port (h_x h') = port ∧ take 4 (x_ip (h_x h')) = ip.
Proof.
  intros Hs Hc Hfl Hlen Hip Hp Hfxp. destruct (port_split port ltac:(lia)) as (Hhi & Hlo & Hglue). unfold do_port, endpoint. rewrite step_upd_x.
  rewrite scan_nums_print; [|rewrite length_app, Hlen; done|by destruct ip|by apply Forall_app_2; [|apply Forall_cons; split; [|apply Forall_cons; split]]].
  destruct ip as [|i0 [|i1 [|i2 [|i3 []]]]]; try done. cbn [app]. repeat (apply Forall_cons in Hip as [? Hip]).
  rewrite step_upd_x, Hglue, !Z.mod_small by lia. cbv zeta.
  rewrite (step_same _ m) by (by eapply run_context_user). rewrite (step_must _ (strchr fl FLAG_FXP_DISABLE)) by (unfold fxp_is_denied, has_flag; by rewrite Hfl).
  rewrite step_xfer, (step_same _ c) by (by apply run_my_context).
  assert (Hok : (strchr fl FLAG_FXP_DISABLE && negb (test_fxp ([i0; i1; i2; i3] ++ drop 4 (x_ip (h_x h))) WZD_INET4 (c_conn c) =? 0)) = false).
  { destruct Hfxp as [->|Hhost]; [done|]. cbn [test_fxp take app]. rewrite Hhost, bool_decide_eq_true_2 by done. by rewrite andb_false_r. }
  fields. cbn [with_x h_x set_peer x_ip set_sockets app] in *. rewrite Hok. rewrite (proj2 (Z.ltb_ge port 1024)) by lia.
  rewrite step_upd_x. unfold ends. rewrite step_answer. eexists. split; [reflexivity|]. done.
Qed.

Lemma run_do_pasv {F R} `{!FileSystem F} (sv : server R) (nt : network) (h : hstate F) c name :
  0 ≤ sv_pasv_low sv ≤ sv_pasv_high sv → sv_pasv_high sv < 65536 → nt_socket nt ≠ -1 → nt_listen nt = true → 0 ≤ nt_random nt →
  w_contexts (ss_world (h_s h)) !! ss_ctx (h_s h) = Some c →
  (∃ p, sv_pasv_low sv ≤ p ≤ sv_pasv_high sv ∧ nt_bind nt p = true) →
  ∃ port h', do_pasv sv nt name h = Val (E_OK, h') ∧ sv_pasv_low sv ≤ port ≤ sv_pasv_high sv ∧ nt_bind nt port = true ∧
    x_pasv (h_x h') = nt_socket nt ∧ ss_out (h_s h') = ss_out (h_s h) ++ [Reply 227 (endpoint (pasv_address sv nt c) port)].
Proof.
  intros Hr Hh Hsock Hlis Hrnd Hc (p & Hp & Hbind). unfold do_pasv. rewrite (step_same _ c) by (by apply run_my_context).
  rewrite step_upd_x, (proj2 (Z.eqb_neq _ _)) by done. cbv zeta. set (count := sv_pasv_high sv - sv_pasv_low sv + 1).
  rewrite (proj2 (Z.eqb_neq count 0)) by lia. rewrite Z.rem_mod_nonneg by lia. pose proof (Z.mod_pos_bound (nt_random nt) count ltac:(lia)) as Hmod.
  set (start := sv_pasv_low sv + nt_random nt mod count). assert (Hst : sv_pasv_low sv ≤ start ≤ sv_pasv_high sv) by lia.
  destruct (find_port_complete sv nt Hr Hh (Z.to_nat count) start p) as [port Hf]; [done..| |].
  { unfold ahead. destruct (Z.leb_spec start p); lia. }
  destruct (find_port_sound sv nt Hr Hh _ _ _ Hst Hf) as [Hport Hfree]. rewrite Hf.
  rewrite (proj2 (Z.ltb_ge port _)), (proj2 (Z.ltb_ge (sv_pasv_high sv) port)), (proj2 (Z.leb_gt 65536 port)), Hlis by lia. cbn [orb negb].
  rewrite step_upd_x. unfold say. rewrite (step_sess _ tt (add_event (h_s h) (Reply 227 (endpoint (pasv_address sv nt c) port)))) by done.
  exists port. destruct (strcaseeq (str "cpsv") name).
  - erewrite step_sess by (apply run_upd_conn; exact Hc). eexists. split; [reflexivity|]. done.
  - eexists. split; [reflexivity|]. done.
Qed.

(** ** Theorems *)

Inductive path_command := MKD | RMD | RETR | RNFR | SIZE | MDTM.

Definition serve {F R} `{!FileSystem F} (b : option wzd_backend_t) (sv : server R) (nt : network) (cmd : path_command) (arg : option bytes) :
    H F wzd_errno_t :=
  match cmd with
  | MKD => do_mkdir b sv nt arg
  | RMD => do_rmdir b sv nt arg
  | RETR => do_retr b sv nt arg
  | RNFR => do_rnfr b sv arg
  | SIZE => do_size b sv arg
  | MDTM => do_mdtm b sv nt arg
  end.


(** C30. PASV finds a port whenever one of its range is free, and its reply is
    understood by PORT: another client that is given the six numbers of the reply
    will connect to the address of the first server and to the port that was
    found, unless the port is a reserved one or it may not use FXP. *)
Theorem pasv_port_roundtrip {F R : Type} `{!FileSystem F} changepass check_auth (sv : server R) (nt : network) (h : hstate F) c name :
  0 ≤ sv_pasv_low sv ≤ sv_pasv_high sv → sv_pasv_high sv < 65536 → nt_socket nt ≠ -1 → nt_listen nt = true → 0 ≤ nt_random nt →
  w_contexts (ss_world (h_s h)) !! ss_ctx (h_s h) = Some c →
  length (pasv_address sv nt c) = 4%nat → Forall (λ n, 0 ≤ n < 256) (pasv_address sv nt c) →
  (∃ p, sv_pasv_low sv ≤ p ≤ sv_pasv_high sv ∧ nt_bind nt p = true) →
  ∃ port text h', do_pasv sv nt name h = Val (E_OK, h') ∧ sv_pasv_low sv ≤ port ≤ sv_pasv_high sv ∧ nt_bind nt port = true ∧
    x_pasv (h_x h') = nt_socket nt ∧ ss_out (h_s h') = ss_out (h_s h) ++ [Reply 227 text] ∧
    ∀ (h2 : hstate F) me m c2 fl, session_user (h_s h2) me m → w_contexts (ss_world (h_s h2)) !! ss_ctx (h_s h2) = Some c2 →
      buf_str (flags m) = Val fl → 1024 ≤ port →
      strchr fl FLAG_FXP_DISABLE = false ∨ take 4 (cn_hostip (c_conn c2)) = pasv_address sv nt c →
      ∃ h3, do_port (Some (plaintext changepass check_auth)) (Some text) h2 = Val (E_OK, h3) ∧
        x_family (h_x h3) = WZD_INET4 ∧ x_port (h_x h3) = port ∧ take 4 (x_ip (h_x h3)) = pasv_address sv nt c.
Proof.
  intros Hr Hh Hsock Hlis Hrnd Hc Hlen Hip Hfree. destruct (run_do_pasv sv nt h c name) as (port & h' & Hrun & Hport & Hb & Hx & Hout); [done..|].
  exists port, (endpoint (pasv_address sv nt c) port), h'. split_and!; try done; [lia..|]. intros h2 me m c2 fl Hs Hc2 Hfl Hres Hfxp.
  eapply run_do_port; (done || lia).
Qed.

(** ** Concrete states *)

#[global] Instance memfs_Directories : Directories memfs.
Proof.
  split.
  - intros fs p mode fs'. cbn [sys_mkdir memfs_FileSystem]. destruct (streq p []) eqn:E; [done|]. intros [= <-].
    split; [intros ->; discriminate|]. split; [|done]. unfold stat_kind. cbn. unfold kind_at. by rewrite bool_decide_eq_true_2.
  - intros fs p. unfold stat_kind, lstat_kind. cbn. unfold kind_at. rewrite bool_decide_eq_false_2; [by destruct (mf_kind fs p)|].
    unfold permfile_of. intros E. apply (f_equal length) in E. rewrite length_app in E. destruct (ends_with_slash p); rewrite ?length_app in E; simpl in E; lia.
Qed.

Definition hw_server : server unit :=
  mkServer unit 509 demo_vfs tw_cmds [] (λ _ _, true) false false false 2000 2009 (replicate 16 0).
Definition hw_network : network :=
  mkNetwork (λ _ _, 0) 0 true (λ _, None) (λ _ _ _, 7) (λ _, 0) 5 [192; 0; 2; 1] 7 (λ p, p =? 2003) true (λ _, []).
Definition hw_fs : memfs :=
  mkMem (λ q, if streq q [SLASH] then Some FK_DIR else cw_stat q) (λ _, []) (λ _, None) demo_disk.
Definition hw_xfer : transfer :=
  mkTransfer (mkAction 0 (replicate ARG_LEN NUL) (-1) 0) (mkLast (replicate MAXPATH NUL) 0 0) 0 (-1) (-1) DATA_PORT WZD_INET4 3000
    (replicate 16 0) BINARY false false 0 0.
Definition hw_state : hstate memfs := mkH cw_session hw_xfer hw_fs [].

Lemma hw_browsing n : (n ≤ 100)%nat →
  browsing demo_changepass demo_auth hw_server hw_state 1%positive cw_me (demo_client 1 11) (str "bob") [] [str "staff"] (str "/home/bob") [] n.
Proof.
  intros Hn. split; [|apply Nat.ltb_lt; by vm_compute|by split; [exact home_root|]|by split; [|by_decision]|exact cw_vfs_ok|].
  - split; [exact cw_session_user|reflexivity|by_vm|exact cw_user_ok|exact demo_disk_holds|done].
  - intros base [Hl Hs]%demo_bases. split; [destruct base as [|x s]; [done|]; injection Hs as ->; by exists s|].
    unfold MAXPATH. simpl. lia.
Qed.


(** The calls of a command, and the replies it sends. *)
Definition calls_of (m : outcome (wzd_errno_t * hstate memfs)) : option (wzd_errno_t * list syscall) :=
  match m with Val (r, h) => Some (r, h_calls h) | Crash => None end.

(** A directory is made below the root whatever dot-dots the name has. *)
Example mkd_confined :
  calls_of (serve su_backend hw_server hw_network MKD (Some (str "x/../../../etc")) hw_state)
    = Some (E_OK, [SysMkdir (str "/home/bob/etc") 0x1ed]).
Proof. by vm_compute. Qed.

(** RETR below a directory the user may not enter reads the array [path], which
    [checkpath_new] leaves unset. *)
Definition hw_closed : hstate memfs :=
  let closed := match write_files (map repr [mkD (str ".") (str "root") (str "adm") 0x1c0 [] None]) with Val t => t | Crash => [] end in
  mkH cw_session hw_xfer (mkMem (mf_kind hw_fs) (mf_data hw_fs) (mf_fds hw_fs) (<[str "/srv/my pub/.dirinfo" := closed]> demo_disk)) [].

Example retr_not_permitted :
  match checkpath su_backend hw_server (str "pub/song") hw_closed with Val (r, _) => Some r | Crash => None end = Some (E_NOPERM, None) ∧
  match serve su_backend hw_server hw_network RETR (Some (str "pub/song")) hw_closed with Crash => true | Val _ => false end = true.
Proof. by vm_compute. Qed.

(** STOR of an absolute name opens, and creates, a file outside of the user's
    root. *)
Example stor_escapes :
  calls_of (do_stor su_backend hw_server hw_network (str "stor") (Some (str "/../eve")) hw_state)
    = Some (E_OK, [SysOpen (str "/home/bob/../eve") (Z.lor O_WRONLY O_CREAT)]).
Proof. by vm_compute. Qed.

Lemma pasv_port_roundtrip_witness :
  ∃ port text h', do_pasv hw_server hw_network (str "pasv") hw_state = Val (E_OK, h') ∧ 2000 ≤ port ≤ 2009 ∧
    (port =? 2003) = true ∧ x_pasv (h_x h') = 5 ∧ ss_out (h_s h') = [Reply 227 text] ∧
    ∀ (h2 : hstate memfs) me m c2 fl, session_user (h_s h2) me m → w_contexts (ss_world (h_s h2)) !! ss_ctx (h_s h2) = Some c2 →
      buf_str (flags m) = Val fl → 1024 ≤ port →
      strchr fl FLAG_FXP_DISABLE = false ∨ take 4 (cn_hostip (c_conn c2)) = [192; 0; 2; 1] →
      ∃ h3, do_port su_backend (Some text) h2 = Val (E_OK, h3) ∧
        x_family (h_x h3) = WZD_INET4 ∧ x_port (h_x h3) = port ∧ take 4 (x_ip (h_x h3)) = [192; 0; 2; 1].
Proof.
  apply (pasv_port_roundtrip demo_changepass demo_auth hw_server hw_network hw_state (demo_client 1 11) (str "pasv"));
    [by vm_compute|by vm_compute|done|done|by vm_compute|reflexivity|done|by repeat constructor|].
  exists 2003. split; [by vm_compute|done].
Defined.

(** A marker of REST in base 0, and the reply of PASV. *)
Example rest_octal :
  match do_rest (Some (str "010")) hw_state with Val (r, h) => Some (r, x_resume (h_x h), ss_out (h_s h)) | Crash => None end
    = Some (E_OK, 8, [Reply 350 (str "Restarting at 8. Send STORE or RETRIEVE.")]).
Proof. by vm_compute. Qed.

Example prot_without_argument : do_prot None hw_state = Crash.
Proof. reflexivity. Qed.
