(* ===== verification/Digests.v ===== *)
(** * Digests: libwzd-auth/wzd_md5.c, wzd_sha1.c, wzd_md5crypt.c

    MD5 and SHA-1 as the server computes them, in pieces, with the partial block
    kept in the context between two calls; the MD5 of a part of a file; digests in
    text; passwords hashed with MD5. On a little-endian machine, where
    [byteReverse] does nothing. Bytes and words are numbers. *)
From S2P Require Import Prelude Codec Path.

(** ** Words *)

Definition rotl (x n : Z) : Z := Z.lor (u32 (Z.shiftl x n)) (Z.shiftr x (32 - n)).
Definition not32 (x : Z) : Z := Z.lxor x 0xffffffff.

(** Reading and writing words, low byte first and high byte first. *)
Definition le32 (b0 b1 b2 b3 : Z) : Z := b0 + 0x100 * b1 + 0x10000 * b2 + 0x1000000 * b3.
Definition le_bytes (w : Z) : list Z := [w mod 256; (w / 0x100) mod 256; (w / 0x10000) mod 256; (w / 0x1000000) mod 256].
Fixpoint le_words (l : list Z) : list Z :=
  match l with b0 :: b1 :: b2 :: b3 :: l => le32 b0 b1 b2 b3 :: le_words l | _ => [] end.
Definition be_bytes (w : Z) : list Z := reverse (le_bytes w).
Fixpoint be_words (l : list Z) : list Z :=
  match l with b0 :: b1 :: b2 :: b3 :: l => le32 b3 b2 b1 b0 :: be_words l | _ => [] end.

Definition word_at (l : list Z) (i : nat) : Z := nth i l 0.

(** [memcpy(buf+off,data,length data)] *)
Definition copy_at (buf : list Z) (off : nat) (data : list Z) : list Z := take off buf ++ data ++ drop (off + length data) buf.

(** ** MD5 *)

Record MD5Context := mkMD5 {
  md_buf : Z * Z * Z * Z;
  md_bits0 : Z;
  md_bits1 : Z;
  md_in : list Z    (** 64 bytes *) }.

Definition F1 (x y z : Z) : Z := Z.lxor z (Z.land x (Z.lxor y z)).
Definition F2 (x y z : Z) : Z := F1 z x y.
Definition F3 (x y z : Z) : Z := Z.lxor (Z.lxor x y) z.
Definition F4 (x y z : Z) : Z := Z.lxor y (Z.lor x (not32 z)).

(** [MD5STEP(f,w,x,y,z,data,s)]. The step that follows has its arguments turned
    by one: [z,w,x,y]. *)
Definition MD5STEP (f : Z → Z → Z → Z) (st : Z * Z * Z * Z) (data s : Z) : Z * Z * Z * Z :=
  let '(w, x, y, z) := st in
  (z, u32 (rotl (u32 (w + u32 (f x y z + data))) s + x), x, y).

(** The word, the constant and the rotation of each step. *)
Definition md5_round1 : list (nat * Z * Z) :=
  [(0%nat, 0xd76aa478, 7); (1%nat, 0xe8c7b756, 12); (2%nat, 0x242070db, 17); (3%nat, 0xc1bdceee, 22);
   (4%nat, 0xf57c0faf, 7); (5%nat, 0x4787c62a, 12); (6%nat, 0xa8304613, 17); (7%nat, 0xfd469501, 22);
   (8%nat, 0x698098d8, 7); (9%nat, 0x8b44f7af, 12); (10%nat, 0xffff5bb1, 17); (11%nat, 0x895cd7be, 22);
   (12%nat, 0x6b901122, 7); (13%nat, 0xfd987193, 12); (14%nat, 0xa679438e, 17); (15%nat, 0x49b40821, 22)].
Definition md5_round2 : list (nat * Z * Z) :=
  [(1%nat, 0xf61e2562, 5); (6%nat, 0xc040b340, 9); (11%nat, 0x265e5a51, 14); (0%nat, 0xe9b6c7aa, 20);
   (5%nat, 0xd62f105d, 5); (10%nat, 0x02441453, 9); (15%nat, 0xd8a1e681, 14); (4%nat, 0xe7d3fbc8, 20);
   (9%nat, 0x21e1cde6, 5); (14%nat, 0xc33707d6, 9); (3%nat, 0xf4d50d87, 14); (8%nat, 0x455a14ed, 20);
   (13%nat, 0xa9e3e905, 5); (2%nat, 0xfcefa3f8, 9); (7%nat, 0x676f02d9, 14); (12%nat, 0x8d2a4c8a, 20)].
Definition md5_round3 : list (nat * Z * Z) :=
  [(5%nat, 0xfffa3942, 4); (8%nat, 0x8771f681, 11); (11%nat, 0x6d9d6122, 16); (14%nat, 0xfde5380c, 23);
   (1%nat, 0xa4beea44, 4); (4%nat, 0x4bdecfa9, 11); (7%nat, 0xf6bb4b60, 16); (10%nat, 0xbebfbc70, 23);
   (13%nat, 0x289b7ec6, 4); (0%nat, 0xeaa127fa, 11); (3%nat, 0xd4ef3085, 16); (6%nat, 0x04881d05, 23);
   (9%nat, 0xd9d4d039, 4); (12%nat, 0xe6db99e5, 11); (15%nat, 0x1fa27cf8, 16); (2%nat, 0xc4ac5665, 23)].
Definition md5_round4 : list (nat * Z * Z) :=
  [(0%nat, 0xf4292244, 6); (7%nat, 0x432aff97, 10); (14%nat, 0xab9423a7, 15); (5%nat, 0xfc93a039, 21);
   (12%nat, 0x655b59c3, 6); (3%nat, 0x8f0ccc92, 10); (10%nat, 0xffeff47d, 15); (1%nat, 0x85845dd1, 21);
   (8%nat, 0x6fa87e4f, 6); (15%nat, 0xfe2ce6e0, 10); (6%nat, 0xa3014314, 15); (13%nat, 0x4e0811a1, 21);
   (4%nat, 0xf7537e82, 6); (11%nat, 0xbd3af235, 10); (2%nat, 0x2ad7d2bb, 15); (9%nat, 0xeb86d391, 21)].

Definition md5_round (f : Z → Z → Z → Z) (input : list Z) (st : Z * Z * Z * Z) (steps : list (nat * Z * Z)) : Z * Z * Z * Z :=
  fold_left (λ st '(k, c, s), MD5STEP f st (word_at input k + c) s) steps st.

Definition MD5Transform (buf : Z * Z * Z * Z) (input : list Z) : Z * Z * Z * Z :=
  let '(b0, b1, b2, b3) := buf in
  let st := md5_round F1 input (b0, b1, b2, b3) md5_round1 in
  let st := md5_round F2 input st md5_round2 in
  let st := md5_round F3 input st md5_round3 in
  let '(a, b, c, d) := md5_round F4 input st md5_round4 in
  (u32 (b0 + a), u32 (b1 + b), u32 (b2 + c), u32 (b3 + d)).

(** The 64 bytes of [in] are read as words. *)
Definition md5_block (buf : Z * Z * Z * Z) (block : list Z) : Z * Z * Z * Z := MD5Transform buf (le_words block).

Definition MD5_IV : Z * Z * Z * Z := (0x67452301, 0xefcdab89, 0x98badcfe, 0x10325476).

(** [in] is not set. *)
Definition MD5Init (ctx : MD5Context) : MD5Context := mkMD5 MD5_IV 0 0 (md_in ctx).

(** The loop on whole blocks, and what is left. *)
Fixpoint md5_blocks (fuel : nat) (buf : Z * Z * Z * Z) (inp : list Z) (data : list Z) : Z * Z * Z * Z * list Z * list Z :=
  match fuel with
  | O => (buf, inp, data)
  | S fuel =>
    if (64 <=? length data)%nat then
      let inp := copy_at inp 0 (take 64 data) in
      md5_blocks fuel (md5_block buf inp) inp (drop 64 data)
    else (buf, inp, data)
  end.

Definition MD5Update (ctx : MD5Context) (data : list Z) : MD5Context :=
  let len := Z.of_nat (length data) in
  let t := md_bits0 ctx in
  let bits0 := u32 (t + u32 (Z.shiftl len 3)) in
  let bits1 := if bits0 <? t then u32 (md_bits1 ctx + 1) else md_bits1 ctx in
  let bits1 := u32 (bits1 + Z.shiftr len 29) in
  let t := Z.to_nat (Z.land (Z.shiftr t 3) 0x3f) in
  let rest buf inp data :=
    let '(buf, inp, data) := md5_blocks (length data) buf inp data in
    mkMD5 buf bits0 bits1 (copy_at inp 0 data) in
  if (t =? 0)%nat then rest (md_buf ctx) (md_in ctx) data else
  if (length data <? 64 - t)%nat then mkMD5 (md_buf ctx) bits0 bits1 (copy_at (md_in ctx) t data) else
  let inp := copy_at (md_in ctx) t (take (64 - t) data) in
  rest (md5_block (md_buf ctx) inp) inp (drop (64 - t) data).

Definition MD5Final (ctx : MD5Context) : list Z :=
  let count := Z.to_nat (Z.land (Z.shiftr (md_bits0 ctx) 3) 0x3f) in
  let inp := copy_at (md_in ctx) count [0x80] in
  let left := (64 - 1 - count)%nat in
  let '(buf, inp) :=
    if (left <? 8)%nat then
      let inp := copy_at inp (count + 1) (replicate left 0) in
      (md5_block (md_buf ctx) inp, copy_at inp 0 (replicate 56 0))
    else (md_buf ctx, copy_at inp (count + 1) (replicate (left - 8) 0)) in
  let inp := copy_at inp 56 (le_bytes (md_bits0 ctx) ++ le_bytes (md_bits1 ctx)) in
  let '(a, b, c, d) := md5_block buf inp in
  le_bytes a ++ le_bytes b ++ le_bytes c ++ le_bytes d.

(** The contents of the context before it is set, as any 64 bytes. *)
Definition fresh (junk : list Z) : MD5Context := mkMD5 (0, 0, 0, 0) 0 0 junk.

Definition md5_digest (junk msg : list Z) : list Z := MD5Final (MD5Update (MD5Init (fresh junk)) msg).

(** ** SHA-1 *)

Record SHA1_CONTEXT := mkSHA {
  sh_H : Z * Z * Z * Z * Z;
  sh_blk : list Z;    (** 64 bytes *)
  sh_ptr : nat }.

Definition SHA1_IV : Z * Z * Z * Z * Z := (0x67452301, 0xEFCDAB89, 0x98BADCFE, 0x10325476, 0xC3D2E1F0).
Definition sha1_context_init (c : SHA1_CONTEXT) : SHA1_CONTEXT := mkSHA SHA1_IV (sh_blk c) 0.

Definition sha1_K (t : nat) : Z :=
  if (t <? 20)%nat then 0x5A827999 else if (t <? 40)%nat then 0x6ED9EBA1 else if (t <? 60)%nat then 0x8F1BBCDC else 0xCA62C1D6.
Definition sha1_f (t : nat) (b c d : Z) : Z :=
  if (t <? 20)%nat then Z.lor (Z.land b c) (Z.land (not32 b) d)
  else if (40 <=? t)%nat && (t <? 60)%nat then Z.lor (Z.lor (Z.land b c) (Z.land b d)) (Z.land c d)
  else Z.lxor (Z.lxor b c) d.

(** The words of the schedule, the last one first. *)
Fixpoint sha1_extend (n : nat) (w : list Z) : list Z :=
  match n with
  | O => w
  | S n => sha1_extend n (rotl (Z.lxor (Z.lxor (Z.lxor (word_at w 2) (word_at w 7)) (word_at w 13)) (word_at w 15)) 1 :: w)
  end.

Definition sha1_schedule (blk : list Z) : list Z := reverse (sha1_extend 64 (reverse (be_words blk))).

Definition sha1_round (w : list Z) (st : Z * Z * Z * Z * Z) (t : nat) : Z * Z * Z * Z * Z :=
  let '(a, b, c, d, e) := st in
  (u32 (rotl a 5 + sha1_f t b c d + e + word_at w t + sha1_K t), a, rotl b 30, c, d).

Definition sha1_context_hash (h : Z * Z * Z * Z * Z) (blk : list Z) : Z * Z * Z * Z * Z :=
  let w := sha1_schedule blk in
  let '(a, b, c, d, e) := fold_left (sha1_round w) (seq 0 80) h in
  let '(h0, h1, h2, h3, h4) := h in
  (u32 (h0 + a), u32 (h1 + b), u32 (h2 + c), u32 (h3 + d), u32 (h4 + e)).

Fixpoint sha1_hashstream_loop (fuel : nat) (c : SHA1_CONTEXT) (data : list Z) : SHA1_CONTEXT :=
  match fuel, data with
  | O, _ | _, [] => c
  | S fuel, _ =>
    if (sh_ptr c =? 0)%nat && (64 <=? length data)%nat then
      sha1_hashstream_loop fuel (mkSHA (sha1_context_hash (sh_H c) (take 64 data)) (sh_blk c) (sh_ptr c)) (drop 64 data)
    else
      let ll := Nat.min (length data) (64 - sh_ptr c) in
      let blk := copy_at (sh_blk c) (sh_ptr c) (take ll data) in
      let ptr := (sh_ptr c + ll)%nat in
      let c := if (64 <=? ptr)%nat then mkSHA (sha1_context_hash (sh_H c) blk) blk 0 else mkSHA (sh_H c) blk ptr in
      sha1_hashstream_loop fuel c (drop ll data)
  end.
Definition sha1_context_hashstream (c : SHA1_CONTEXT) (data : list Z) : SHA1_CONTEXT := sha1_hashstream_loop (length data) c data.

(** Zeros up to the last eight bytes of a block: at most two turns. *)
Fixpoint sha1_zeros (fuel : nat) (c : SHA1_CONTEXT) : outcome SHA1_CONTEXT :=
  if (sh_ptr c =? 56)%nat then Val c else
  match fuel with
  | O => Crash
  | S fuel =>
    if (56 <? sh_ptr c)%nat then sha1_zeros fuel (sha1_context_hashstream c (replicate (64 - sh_ptr c) 0))
    else sha1_zeros fuel (sha1_context_hashstream c (replicate (56 - sh_ptr c) 0))
  end.

(** Only the low 32 bits of the length are written. *)
Definition sha1_context_endstream (c : SHA1_CONTEXT) (l : Z) : outcome SHA1_CONTEXT :=
  c ← sha1_zeros 2 (sha1_context_hashstream c [0x80]);
  let l := u64 (l * 8) in
  Val (sha1_context_hashstream c ([0; 0; 0; 0] ++ be_bytes l)).

Definition sha1_context_digest (c : SHA1_CONTEXT) : list Z :=
  let '(a, b, c, d, e) := sh_H c in be_bytes a ++ be_bytes b ++ be_bytes c ++ be_bytes d ++ be_bytes e.

Definition sha1_context_restore (c : SHA1_CONTEXT) (d : list Z) : SHA1_CONTEXT :=
  match be_words d with
  | [h0; h1; h2; h3; h4] => mkSHA (h0, h1, h2, h3, h4) (sh_blk c) 0
  | _ => c
  end.

Definition sha1_digest (junk msg : list Z) : outcome (list Z) :=
  let c := sha1_context_hashstream (sha1_context_init (mkSHA SHA1_IV junk 0)) msg in
  c ← sha1_context_endstream c (Z.of_nat (length msg));
  Val (sha1_context_digest c).

(** [sha1_hash]: the digest in base 64. *)
Definition sha1_hash (junk : list Z) (passw : list ascii) : outcome (list ascii) :=
  d ← sha1_digest junk (map code passw); Val (sha1_b64 d).

(** ** Digests in text *)

Definition hex_value (c : ascii) : option Z :=
  if isdigit c then Some (code c - 48)
  else if between 97 102 c then Some (code c - 97 + 10)
  else if between 65 70 c then Some (code c - 65 + 10)
  else None.

(** [strtomd5]: the bytes, and what follows them when there are sixteen. A digit
    that is followed by a space is forgotten; [crc] has sixteen bytes. *)
Definition crc_set (crc : list Z) (i : nat) (v : Z) : outcome (list Z) := if (i <? length crc)%nat then Val (<[i := v]> crc) else Crash.
Fixpoint strtomd5_loop (s : list ascii) (i : nat) (crc : list Z) {struct s} : outcome (nat * list Z * list ascii) :=
  match s with
  | [] => Val (i, crc, [])
  | c1 :: s1 =>
    match hex_value c1 with
    | Some v =>
      crc ← crc_set crc i (u8 (Z.shiftl v 4));
      match s1 with
      | [] => Val (i, crc, [])
      | c2 :: s2 =>
        match hex_value c2 with
        | Some v => crc ← crc_set crc i (u8 (word_at crc i + v)); strtomd5_loop s2 (S i) crc
        | None => if isspace c2 then strtomd5_loop s2 i crc else Val (i, crc, s1)
        end
      end
    | None => if isspace c1 then strtomd5_loop s1 i crc else Val (i, crc, s)
    end
  end.
Definition strtomd5 (s : list ascii) (crc : list Z) : outcome (list Z * option (list ascii)) :=
  '(i, crc, rest) ← strtomd5_loop s 0 crc; Val (crc, if (i =? 16)%nat then Some rest else None).

Definition hex_char (v : Z) : ascii := if v <? 10 then chr (48 + v) else chr (87 + v).
Definition hex2 (b : Z) : list ascii := [hex_char (b / 16); hex_char (b mod 16)].
Definition hex_text (d : list Z) : list ascii := concat (map hex2 d).

Definition md5_hash_r (junk : list Z) (pw : option (list ascii)) (len : Z) : option (list ascii) :=
  match pw with
  | None => None
  | Some pw => if len <=? 32 then None else Some (hex_text (md5_digest junk (map code pw)))
  end.

(** ** The digest of a part of a file *)

(** [fread] of at most [len] bytes, until there is no more. *)
Fixpoint calc_md5_loop (bufsiz : Z) (fuel : nat) (ctx : MD5Context) (data : list Z) (length_ len : Z) : MD5Context :=
  match fuel with
  | O => ctx
  | S fuel =>
    let got := take (Z.to_nat len) data in
    match got with
    | [] => ctx
    | _ =>
      let length_ := length_ - Z.of_nat (length got) in
      let ctx := MD5Update ctx got in
      let len := Z.min length_ bufsiz in
      if len <=? 0 then ctx else calc_md5_loop bufsiz fuel ctx (drop (length got) data) length_ len
    end
  end.

Definition calc_md5 (bufsiz : Z) (junk : list Z) (file : option (list Z)) (startpos length_ : Z) : option (list Z) :=
  match file with
  | None => None
  | Some data =>
    let data := drop (Z.to_nat startpos) data in
    Some (MD5Final (calc_md5_loop bufsiz (S (length data)) (MD5Init (fresh junk)) data length_ (Z.min length_ bufsiz)))
  end.

(** ** Passwords hashed with MD5 *)

Definition itoa64 : list ascii := str "./0123456789ABCDEFGHIJKLMNOPQRSTUVWXYZabcdefghijklmnopqrstuvwxyz".

Fixpoint to64 (v : Z) (n : nat) : list ascii :=
  match n with O => [] | S n => nth (Z.to_nat (Z.land v 0x3f)) itoa64 NUL :: to64 (Z.shiftr v 6) n end.

Definition MAGIC : list ascii := str "$1$".

(** The salt stops at the first dollar, eight characters at most. *)
Fixpoint salt_of (n : nat) (s : list ascii) : list ascii :=
  match n, s with
  | S n, c :: s => if bool_decide (c = "$"%char) then [] else c :: salt_of n s
  | _, _ => []
  end.
Definition true_salt (salt : list ascii) : list ascii :=
  salt_of 8 (if starts_with MAGIC salt then drop 3 salt else salt).

(** A digest of pieces. The context is set again before each; what is left in its
    buffer does not count. *)
Definition md5_of (junk : list Z) (pieces : list (list Z)) : list Z := MD5Final (foldl MD5Update (MD5Init (fresh junk)) pieces).

(** As many bytes of [final] as the password has, sixteen at a time. *)
Fixpoint repeated (fuel : nat) (final : list Z) (pl : nat) : list (list Z) :=
  match fuel, pl with
  | S fuel, S _ => take (Nat.min 16 pl) final :: repeated fuel final (pl - 16)
  | _, _ => []
  end.

(** One byte for each bit of the length: zero, or the first of the password. *)
Fixpoint bit_bytes (fuel : nat) (pw : list Z) (i : Z) : list (list Z) :=
  match fuel with
  | O => []
  | S fuel => if i =? 0 then [] else (if Z.testbit i 0 then [0] else take 1 pw) :: bit_bytes fuel pw (Z.shiftr i 1)
  end.

Definition crypt_round (junk pw salt final : list Z) (i : nat) : list Z :=
  md5_of junk ([if Nat.odd i then pw else final] ++ (if (i mod 3 =? 0)%nat then [] else [salt]) ++
               (if (i mod 7 =? 0)%nat then [] else [pw]) ++ [if Nat.odd i then final else pw]).

Definition crypt_text (f : list Z) : list ascii :=
  let w a b c := Z.lor (Z.lor (Z.shiftl (word_at f a) 16) (Z.shiftl (word_at f b) 8)) (word_at f c) in
  to64 (w 0 6 12)%nat 4 ++ to64 (w 1 7 13)%nat 4 ++ to64 (w 2 8 14)%nat 4 ++ to64 (w 3 9 15)%nat 4 ++ to64 (w 4 10 5)%nat 4 ++
  to64 (word_at f 11) 2.

Definition md5_crypt (junk : list Z) (pw salt : list ascii) : list ascii :=
  let sp := true_salt salt in
  let p := map code pw in
  let s := map code sp in
  let final := md5_of junk [p; s; p] in
  let final := md5_of junk ([p; map code MAGIC; s] ++ repeated (length p) final (length p) ++
                            bit_bytes (S (length p)) p (Z.of_nat (length p))) in
  let final := fold_left (crypt_round junk p s) (seq 0 1000) final in
  MAGIC ++ sp ++ str "$" ++ crypt_text final.

Definition bytes_of (s : string) : list Z := map code (str s).
Definition junk64 : list Z := replicate 64 0.

Example md5_abc : md5_digest junk64 (bytes_of "abc") =
  [0x90; 0x01; 0x50; 0x98; 0x3c; 0xd2; 0x4f; 0xb0; 0xd6; 0x96; 0x3f; 0x7d; 0x28; 0xe1; 0x7f; 0x72].
Proof. by vm_compute. Qed.

Example sha1_abc : sha1_digest junk64 (bytes_of "abc") = Val
  [0xa9; 0x99; 0x3e; 0x36; 0x47; 0x06; 0x81; 0x6a; 0xba; 0x3e; 0x25; 0x71; 0x78; 0x50; 0xc2; 0x6c; 0x9c; 0xd0; 0xd8; 0x9d].
Proof. by vm_compute. Qed.

Example md5_crypt_salt : true_salt (str "$1$abc$G//4kete") = str "abc" ∧ true_salt (str "abcdefghij") = str "abcdefgh".
Proof. by vm_compute. Qed.
