(* ===== verification/DigestsProps.v ===== *)
(** * Digests in pieces are digests of the whole

    A message given to MD5 or to SHA-1 in pieces of any size has the digest of
    the message in one piece, which is the compression of the blocks of the padded
    message; so is the MD5 of a part of a file. A digest written in hexadecimal is
    read back. *)
From S2P Require Import Prelude Codec Path Digests.

(** ** The blocks of a message *)

Section absorb.
  Context {S : Type} (compress : S → list Z → S).

Fixpoint absorb_in (fuel : nat) (s : S) (data : list Z) : S * list Z :=
  match fuel with
  | O => (s, data)
  | Datatypes.S fuel => if (64 <=? length data)%nat then absorb_in fuel (compress s (take 64 data)) (drop 64 data) else (s, data)
  end.

(** The state after the whole blocks of [data], and what follows them. *)
Definition absorb (s : S) (data : list Z) : S * list Z := absorb_in (length data) s data.

Lemma absorb_enough fuel s data : (length data ≤ fuel)%nat → absorb_in fuel s data = absorb s data.
Proof.
  intros Hf. unfold absorb. assert (Hl : (length data ≤ length data)%nat) by lia. revert Hl. generalize (length data) at 2 3 as n. intros n Hl.
  revert n s data Hl Hf. induction fuel as [|fuel IH]; intros [|n] s data Hl Hf; cbn [absorb_in]; try done;
    destruct (Nat.leb_spec 64 (length data)); try done; try lia. apply IH; rewrite length_drop; lia.
Qed.

Lemma absorb_short s data : (length data < 64)%nat → absorb s data = (s, data).
Proof.
  intros Hl. unfold absorb. destruct (length data) as [|n] eqn:E; [done|]. cbn [absorb_in]. rewrite E.
  by rewrite (proj2 (Nat.leb_gt _ _)) by lia.
Qed.

Lemma absorb_block s block data : length block = 64%nat → absorb s (block ++ data) = absorb (compress s block) data.
Proof.
  intros Hb. unfold absorb at 1. rewrite length_app, Hb. change (64 + length data)%nat with (Datatypes.S (63 + length data)).
  cbn [absorb_in]. rewrite length_app, Hb, (proj2 (Nat.leb_le _ _)) by lia. rewrite take_app_length', drop_app_length' by done. apply absorb_enough. lia.
Qed.

Lemma absorb_ind (P : S → list Z → Prop) :
  (∀ s data, (length data < 64)%nat → P s data) →
  (∀ s block data, length block = 64%nat → P (compress s block) data → P s (block ++ data)) → ∀ s data, P s data.
Proof.
  intros H1 H2 s data. remember (length data) as n eqn:Hn. revert s data Hn.
  induction n as [n IH] using lt_wf_ind. intros s data ->. destruct (le_lt_dec 64 (length data)) as [Hle|Hlt]; [|by apply H1].
  rewrite <- (take_drop 64 data). apply H2; [rewrite length_take; lia|]. eapply IH; [|reflexivity]. rewrite length_drop. lia.
Qed.

Lemma absorb_app s a b : absorb s (a ++ b) = absorb (absorb s a).1 ((absorb s a).2 ++ b).
Proof.
  pattern s, a. apply absorb_ind; clear s a.
  - intros s a Ha. by rewrite (absorb_short s a).
  - intros s block a Hb IH. rewrite <- app_assoc, (absorb_block s block (a ++ b)), (absorb_block s block a) by done. exact IH.
Qed.

Lemma absorb_rest s a : length (absorb s a).2 = (length a mod 64)%nat.
Proof.
  pattern s, a. apply absorb_ind; clear s a.
  - intros s a Ha. rewrite absorb_short by done. symmetry. by apply Nat.mod_small.
  - intros s block a Hb IH. rewrite absorb_block by done. rewrite IH, length_app, Hb.
    replace (64 + length a)%nat with (length a + 1 * 64)%nat by lia. by rewrite Nat.Div0.mod_add.
Qed.
End absorb.

(** The end of a message of [n] bytes: one byte, zeros, and the length in eight
    bytes, up to the end of a block. *)
Definition padding (n : nat) (len8 : list Z) : list Z := 0x80 :: replicate ((119 - n mod 64) mod 64) 0 ++ len8.

Lemma padding_whole n len8 : length len8 = 8%nat → ((n + length (padding n len8)) mod 64 = 0)%nat.
Proof.
  intros Hl. unfold padding. cbn [length]. rewrite length_app, length_replicate, Hl.
  pose proof (Nat.mod_upper_bound n 64 ltac:(lia)) as Hm. pose proof (Nat.div_mod n 64 ltac:(lia)) as Hd.
  set (r := (n mod 64)%nat) in *. destruct (le_lt_dec r 55) as [Hr|Hr].
  - replace (119 - r)%nat with ((55 - r) + 1 * 64)%nat by lia. rewrite Nat.Div0.mod_add, (Nat.mod_small (55 - r)) by lia.
    replace (n + _)%nat with (0 + (n / 64 + 1) * 64)%nat by lia. by rewrite Nat.Div0.mod_add.
  - rewrite (Nat.mod_small (119 - r)) by lia. replace (n + _)%nat with (0 + (n / 64 + 2) * 64)%nat by lia. by rewrite Nat.Div0.mod_add.
Qed.

(** ** Buffers *)

Lemma copy_at_length buf off data : (off + length data ≤ length buf)%nat → length (copy_at buf off data) = length buf.
Proof. intros Hl. unfold copy_at. rewrite !length_app, length_take, length_drop. lia. Qed.

Lemma copy_at_take buf off data : (off + length data ≤ length buf)%nat → take (off + length data) (copy_at buf off data) = take off buf ++ data.
Proof.
  intros Hl. unfold copy_at. rewrite app_assoc. apply take_app_length'. rewrite length_app, length_take. lia.
Qed.

Lemma copy_at_all buf data : length data = length buf → copy_at buf 0 data = data.
Proof. intros Hl. unfold copy_at. cbn [take app Nat.add]. by rewrite Hl, drop_all, app_nil_r. Qed.

Lemma copy_at_fill buf off data : (off + length data = length buf)%nat → copy_at buf off data = take off buf ++ data.
Proof. intros Hl. unfold copy_at. by rewrite Hl, drop_all, app_nil_r. Qed.

(** ** MD5 *)

(** The digest of a message as a whole. *)
Definition md5 (m : list Z) : list Z :=
  let n := 8 * Z.of_nat (length m) in
  let '(a, b, c, d) := (absorb md5_block MD5_IV (m ++ padding (length m) (le_bytes (u32 n) ++ le_bytes (u32 (n / 2 ^ 32))))).1 in
  le_bytes a ++ le_bytes b ++ le_bytes c ++ le_bytes d.

(** What a context holds once [m] went through it. *)
Record md5_state (ctx : MD5Context) (m : list Z) : Prop := {
  ms_len : length (md_in ctx) = 64%nat;
  ms_buf : absorb md5_block MD5_IV m = (md_buf ctx, take (length m mod 64) (md_in ctx));
  ms_bits0 : md_bits0 ctx = u32 (8 * Z.of_nat (length m));
  ms_bits1 : md_bits1 ctx = u32 (8 * Z.of_nat (length m) / 2 ^ 32) }.

Lemma pending n : 0 ≤ n → Z.land (Z.shiftr (u32 (8 * n)) 3) 0x3f = n mod 64.
Proof.
  intros Hn. change 0x3f with (Z.ones 6). rewrite Z.land_ones, Z.shiftr_div_pow2 by lia. unfold u32.
  change (2 ^ 32) with (8 * 2 ^ 29). rewrite Z.mul_mod_distr_l by lia. change (2 ^ 3) with 8. rewrite Z.mul_comm, Z.div_mul by lia.
  change (2 ^ 6) with 64. apply Z.mod_mod_divide. by exists (2 ^ 23).
Qed.

Lemma pending_nat (m : list Z) : Z.to_nat (Z.land (Z.shiftr (u32 (8 * Z.of_nat (length m))) 3) 0x3f) = (length m mod 64)%nat.
Proof. rewrite pending by lia. change 64 with (Z.of_nat 64). by rewrite <- Nat2Z.inj_mod, Nat2Z.id. Qed.

Lemma count_bits n k :
  0 ≤ n → 0 ≤ k < 2 ^ 32 →
  let t := u32 (8 * n) in let b0 := u32 (t + u32 (Z.shiftl k 3)) in
  let b1 := if b0 <? t then u32 (u32 (8 * n / 2 ^ 32) + 1) else u32 (8 * n / 2 ^ 32) in
  b0 = u32 (8 * (n + k)) ∧ u32 (b1 + Z.shiftr k 29) = u32 (8 * (n + k) / 2 ^ 32).
Proof.
  intros Hn Hk. cbv zeta. rewrite Z.shiftl_mul_pow2, Z.shiftr_div_pow2 by lia. change (2 ^ 3) with 8. unfold u32.
  set (q := 8 * n / 2 ^ 32). set (r := (8 * n) mod 2 ^ 32).
  assert (Hnr : 8 * n = 2 ^ 32 * q + r) by (apply Z.div_mod; lia). assert (Hr : 0 ≤ r < 2 ^ 32) by (apply Z.mod_pos_bound; lia).
  set (kq := k / 2 ^ 29). set (kr := k mod 2 ^ 29).
  assert (Hkk : k = 2 ^ 29 * kq + kr) by (apply Z.div_mod; lia). assert (Hkr : 0 ≤ kr < 2 ^ 29) by (apply Z.mod_pos_bound; lia).
  assert (E1 : (k * 8) mod 2 ^ 32 = 8 * kr).
  { symmetry. apply (Z.mod_unique_pos _ _ kq); lia. }
  rewrite E1. destruct (Z.lt_ge_cases (r + 8 * kr) (2 ^ 32)) as [Hc|Hc].
  - rewrite (Z.mod_small (r + 8 * kr)) by lia. rewrite (proj2 (Z.ltb_ge _ _)) by lia. split.
    + apply (Z.mod_unique_pos _ _ (q + kq)); lia.
    + rewrite Z.add_mod_idemp_l by lia. f_equal. apply (Z.div_unique_pos _ _ _ (r + 8 * kr)); lia.
  - replace ((r + 8 * kr) mod 2 ^ 32) with (r + 8 * kr - 2 ^ 32) by (apply (Z.mod_unique_pos _ _ 1); lia).
    rewrite (proj2 (Z.ltb_lt _ _)) by lia. split.
    + apply (Z.mod_unique_pos _ _ (q + kq + 1)); lia.
    + rewrite Z.add_mod_idemp_l, <- Z.add_assoc, Z.add_mod_idemp_l by lia. f_equal.
      rewrite Z.add_assoc. apply (Z.div_unique_pos _ _ _ (r + 8 * kr - 2 ^ 32)); lia.
Qed.

Lemma md5_blocks_absorb fuel buf inp data :
  (length data ≤ fuel)%nat → length inp = 64%nat →
  ∃ inp', md5_blocks fuel buf inp data = ((absorb md5_block buf data).1, inp', (absorb md5_block buf data).2) ∧ length inp' = 64%nat.
Proof.
  revert buf inp data. induction fuel as [|fuel IH]; intros buf inp data Hf Hi; cbn [md5_blocks].
  - rewrite absorb_short by lia. by exists inp.
  - destruct (Nat.leb_spec 64 (length data)) as [Hl|Hl]; [|rewrite absorb_short by done; by exists inp].
    assert (Ht : length (take 64 data) = 64%nat) by (rewrite length_take; lia).
    rewrite (copy_at_all inp (take 64 data)) by lia.
    assert (Ha : absorb md5_block buf data = absorb md5_block (md5_block buf (take 64 data)) (drop 64 data))
      by (rewrite <- (take_drop 64 data) at 1; by apply absorb_block).
    rewrite Ha.
    apply IH; [rewrite length_drop; lia|done].
Qed.

Lemma md5_rest buf inp data bits0 bits1 m :
  length inp = 64%nat → absorb md5_block MD5_IV m = (buf, []) →
  bits0 = u32 (8 * Z.of_nat (length (m ++ data))) → bits1 = u32 (8 * Z.of_nat (length (m ++ data)) / 2 ^ 32) →
  md5_state (let '(buf, inp, data) := md5_blocks (length data) buf inp data in mkMD5 buf bits0 bits1 (copy_at inp 0 data)) (m ++ data).
Proof.
  intros Hi Hm H0 H1. destruct (md5_blocks_absorb (length data) buf inp data) as (inp' & -> & Hi'); [lia|done|].
  assert (Ha : absorb md5_block MD5_IV (m ++ data) = absorb md5_block buf data) by (by rewrite absorb_app, Hm).
  pose proof (absorb_rest md5_block MD5_IV (m ++ data)) as Hr. rewrite Ha in Hr. pose proof (Nat.mod_upper_bound (length (m ++ data)) 64 ltac:(lia)).
  split; cbn [md_in md_buf md_bits0 md_bits1]; [rewrite copy_at_length; lia| |done|done].
  rewrite Ha, <- Hr. rewrite (surjective_pairing (absorb md5_block buf data)) at 1. f_equal. symmetry.
  change (length ?l) with (0 + length l)%nat. rewrite copy_at_take by lia. done.
Qed.

Lemma md5_update ctx m d : md5_state ctx m → Z.of_nat (length d) < 2 ^ 32 → md5_state (MD5Update ctx d) (m ++ d).
Proof.
  intros [Hl Hb H0 H1] Hd. unfold MD5Update. cbv zeta.
  pose proof (count_bits (Z.of_nat (length m)) (Z.of_nat (length d)) ltac:(lia) ltac:(lia)) as [E0 E1]. cbv zeta in E0, E1.
  rewrite H0, H1, pending_nat. rewrite E1, E0. rewrite <- Nat2Z.inj_add, <- length_app. clear E0 E1.
  pose proof (Nat.mod_upper_bound (length m) 64 ltac:(lia)) as Ht. set (t := (length m mod 64)%nat) in *.
  destruct (Nat.eqb_spec t 0) as [Hz|Hz]; [apply md5_rest; try done; by rewrite Hb, Hz|].
  destruct (Nat.ltb_spec (length d) (64 - t)) as [Hs|Hs].
  - assert (Hmod : (length (m ++ d) mod 64 = t + length d)%nat).
    { rewrite length_app. pose proof (Nat.div_mod (length m) 64 ltac:(lia)). fold t in H.
      symmetry. apply (Nat.mod_unique _ _ (length m / 64)); lia. }
    split; cbn [md_in md_buf md_bits0 md_bits1]; [rewrite copy_at_length; lia| |done|done].
    rewrite absorb_app, Hb, Hmod. cbn [fst snd]. rewrite copy_at_take by lia. apply absorb_short. rewrite length_app, length_take. lia.
  - assert (Hmd : m ++ d = (m ++ take (64 - t) d) ++ drop (64 - t) d) by (by rewrite <- app_assoc, take_drop). rewrite Hmd.
    assert (Hlt : length (take (64 - t) d) = (64 - t)%nat) by (rewrite length_take; lia).
    apply md5_rest; [rewrite copy_at_length; lia| |done..].
    rewrite absorb_app, Hb. cbn [fst snd]. rewrite copy_at_fill by lia.
    rewrite <- (app_nil_r (take t (md_in ctx) ++ take (64 - t) d)) at 1. rewrite absorb_block by (rewrite length_app, length_take; lia).
    by rewrite absorb_short by (simpl; lia).
Qed.

Lemma copy_at_copy buf off a b : (off + length a + length b ≤ length buf)%nat →
  copy_at (copy_at buf off a) (off + length a) b = copy_at buf off (a ++ b).
Proof.
  intros Hl. unfold copy_at at 1. rewrite copy_at_take by lia. unfold copy_at. rewrite <- !app_assoc. do 3 f_equal.
  rewrite length_app, drop_app_ge by (rewrite length_take; lia). rewrite length_take, drop_app_ge by lia. rewrite drop_drop. f_equal. lia.
Qed.

Lemma absorb_last {S} compress (s : S) block : length block = 64%nat → absorb compress s block = (compress s block, []).
Proof. intros Hb. rewrite <- (app_nil_r block) at 1. rewrite absorb_block by done. by rewrite absorb_short by (simpl; lia). Qed.

Lemma length_le_bytes w : length (le_bytes w) = 4%nat.
Proof. done. Qed.

(** The last blocks, as the end of a buffer is filled. *)
Lemma md5_final ctx m : md5_state ctx m → MD5Final ctx = md5 m.
Proof.
  intros [Hl Hb H0 H1]. unfold MD5Final, md5. cbv zeta. rewrite H0, H1, pending_nat. rewrite absorb_app, Hb. cbn [fst snd].
  unfold padding. set (t := (length m mod 64)%nat). set (len8 := le_bytes _ ++ le_bytes _). set (inp := md_in ctx) in *.
  assert (Ht : (t < 64)%nat) by (apply Nat.mod_upper_bound; lia). assert (H8 : length len8 = 8%nat) by done.
  assert (Htl : length (take t inp) = t) by (rewrite length_take; lia).
  destruct (Nat.ltb_spec (64 - 1 - t) 8) as [Hs|Hs].
  - rewrite (Nat.mod_small (119 - t)) by lia.
    rewrite (copy_at_copy inp t [0x80]) by (rewrite length_replicate; simpl; lia). cbn [app].
    rewrite (copy_at_fill inp t) by (cbn [length]; rewrite length_replicate; lia).
    replace (119 - t)%nat with ((64 - 1 - t) + 56)%nat by lia. rewrite replicate_add.
    set (block := take t inp ++ 0x80 :: replicate (64 - 1 - t) 0).
    assert (Hbl : length block = 64%nat) by (unfold block; rewrite length_app; cbn [length]; rewrite length_replicate; lia).
    replace (take t inp ++ 0x80 :: (replicate (64 - 1 - t) 0 ++ replicate 56 0) ++ len8) with (block ++ replicate 56 0 ++ len8)
      by (unfold block; by rewrite <- !app_assoc).
    rewrite absorb_block, absorb_last by (done || rewrite length_app, length_replicate; lia). cbn [fst].
    rewrite (copy_at_copy block 0 (replicate 56 0)) by (rewrite length_replicate; lia). by rewrite copy_at_all by (rewrite length_app, length_replicate; lia).
  - replace (119 - t)%nat with ((55 - t) + 1 * 64)%nat by lia. rewrite Nat.Div0.mod_add, (Nat.mod_small (55 - t)) by lia.
    rewrite (copy_at_copy inp t [0x80]) by (rewrite length_replicate; simpl; lia). cbn [app].
    replace (64 - 1 - t - 8)%nat with (55 - t)%nat by lia.
    rewrite <- (copy_at_fill inp t (0x80 :: replicate (55 - t) 0 ++ len8)) by (cbn [length]; rewrite length_app, length_replicate; lia).
    rewrite absorb_last by (rewrite copy_at_length; [done|cbn [length]; rewrite length_app, length_replicate; lia]). cbn [fst].
    pose proof (copy_at_copy inp t (0x80 :: replicate (55 - t) 0) len8) as Hc. cbn [length] in Hc. rewrite length_replicate in Hc.
    replace (t + S (55 - t))%nat with 56%nat in Hc by lia. rewrite Hc by lia. done.
Qed.

Lemma md5_init junk : length junk = 64%nat → md5_state (MD5Init (fresh junk)) [].
Proof. intros Hj. by split. Qed.

(** C27. MD5 in pieces: whatever the sizes of the pieces a message is given in,
    and whatever was in the context before, the digest is the one of the whole
    message: the compression of the blocks of the message padded with its length. *)
Theorem md5_in_pieces junk pieces :
  length junk = 64%nat → Forall (λ d, Z.of_nat (length d) < 2 ^ 32) pieces →
  MD5Final (foldl MD5Update (MD5Init (fresh junk)) pieces) = md5 (concat pieces).
Proof.
  intros Hj Hp. apply md5_final. change (concat pieces) with ([] ++ concat pieces). pose proof (md5_init junk Hj) as Hs. revert Hs.
  generalize (MD5Init (fresh junk)) (@nil Z). induction Hp as [|d pieces Hd Hp IH]; intros ctx m Hs; cbn [foldl concat].
  - by rewrite app_nil_r.
  - rewrite app_assoc. apply IH. by apply md5_update.
Qed.

Lemma md5_in_pieces_witness :
  MD5Final (foldl MD5Update (MD5Init (fresh (replicate 64 255))) [bytes_of "ab"; []; replicate 70 0; bytes_of "c"])
    = md5 (bytes_of "ab" ++ replicate 70 0 ++ bytes_of "c").
Proof.
  apply (md5_in_pieces (replicate 64 255) [bytes_of "ab"; []; replicate 70 0; bytes_of "c"]); [done|]. by repeat constructor.
Defined.

(** ** SHA-1 *)

(** The digest of a message as a whole, with the low 32 bits of its length. *)
Definition sha1 (m : list Z) : list Z :=
  let n := 8 * Z.of_nat (length m) in
  let '(a, b, c, d, e) := (absorb sha1_context_hash SHA1_IV (m ++ padding (length m) ([0; 0; 0; 0] ++ be_bytes (u64 n)))).1 in
  be_bytes a ++ be_bytes b ++ be_bytes c ++ be_bytes d ++ be_bytes e.

Record sha_state (c : SHA1_CONTEXT) (m : list Z) : Prop := {
  ss_len : length (sh_blk c) = 64%nat;
  ss_ptr : sh_ptr c = (length m mod 64)%nat;
  ss_H : absorb sha1_context_hash SHA1_IV m = (sh_H c, take (sh_ptr c) (sh_blk c)) }.

Lemma mod_step (n k p : nat) : p = (n mod 64)%nat → (p + k < 64 → (n + k) mod 64 = p + k)%nat ∧ (p + k = 64 → (n + k) mod 64 = 0)%nat.
Proof.
  intros ->. pose proof (Nat.div_mod n 64 ltac:(lia)). split; intros Hk; symmetry.
  - apply (Nat.mod_unique _ _ (n / 64)); lia.
  - apply (Nat.mod_unique _ _ (n / 64 + 1)); lia.
Qed.

(** Some bytes go to the partial block. *)
Lemma sha1_fill c m d : sha_state c m → (sh_ptr c + length d ≤ 64)%nat →
  sha_state (let blk := copy_at (sh_blk c) (sh_ptr c) d in let ptr := (sh_ptr c + length d)%nat in
             if (64 <=? ptr)%nat then mkSHA (sha1_context_hash (sh_H c) blk) blk 0 else mkSHA (sh_H c) blk ptr) (m ++ d).
Proof.
  intros [Hl Hp HH] Hd. cbv zeta. pose proof (mod_step (length m) (length d) (sh_ptr c) Hp) as [Hm1 Hm2].
  destruct (Nat.leb_spec 64 (sh_ptr c + length d)) as [H64|H64]; split; cbn [sh_blk sh_ptr sh_H]; rewrite ?length_app.
  - by rewrite copy_at_length by lia.
  - symmetry. apply Hm2. lia.
  - rewrite absorb_app, HH, copy_at_fill by lia. apply absorb_last. cbn [snd]. rewrite length_app, length_take. lia.
  - by rewrite copy_at_length by lia.
  - symmetry. by apply Hm1.
  - rewrite absorb_app, HH, copy_at_take by lia. apply absorb_short. cbn [snd]. rewrite length_app, length_take. lia.
Qed.

Lemma sha1_loop fuel c m data : sha_state c m → (length data ≤ fuel)%nat → sha_state (sha1_hashstream_loop fuel c data) (m ++ data).
Proof.
  revert c m data. induction fuel as [|fuel IH]; intros c m data Hs Hf; [destruct data; [by rewrite app_nil_r|simpl in Hf; lia]|].
  destruct data as [|x data0]; [by rewrite app_nil_r|]. set (data := x :: data0) in *.
  assert (Hne : (0 < length data)%nat) by (simpl; lia). change (sha1_hashstream_loop (Datatypes.S fuel) c data) with
    (if (sh_ptr c =? 0)%nat && (64 <=? length data)%nat then
      sha1_hashstream_loop fuel (mkSHA (sha1_context_hash (sh_H c) (take 64 data)) (sh_blk c) (sh_ptr c)) (drop 64 data)
    else
      let ll := Nat.min (length data) (64 - sh_ptr c) in
      let blk := copy_at (sh_blk c) (sh_ptr c) (take ll data) in
      let ptr := (sh_ptr c + ll)%nat in
      let c := if (64 <=? ptr)%nat then mkSHA (sha1_context_hash (sh_H c) blk) blk 0 else mkSHA (sh_H c) blk ptr in
      sha1_hashstream_loop fuel c (drop ll data)).
  clearbody data. assert (Hmd : ∀ k, m ++ data = (m ++ take k data) ++ drop k data) by (intros k; by rewrite <- app_assoc, take_drop).
  pose proof Hs as [Hl Hp HH]. pose proof (Nat.mod_upper_bound (length m) 64 ltac:(lia)) as Hpt. rewrite <- Hp in Hpt.
  destruct (Nat.eqb_spec (sh_ptr c) 0) as [H0|H0]; [destruct (Nat.leb_spec 64 (length data)) as [H64|H64]|]; cbn [andb].
  { rewrite (Hmd 64%nat). apply IH; [|rewrite length_drop; lia].
    assert (Htk : length (take 64 data) = 64%nat) by (rewrite length_take; lia).
    split; cbn [sh_blk sh_ptr sh_H]; [done| |].
    - rewrite length_app, Htk. symmetry. rewrite (proj2 (mod_step (length m) 64 0 ltac:(lia))) by lia. lia.
    - rewrite absorb_app, HH, H0. cbn [fst snd take app]. by rewrite absorb_last. }
  all: cbv zeta; rewrite (Hmd (Nat.min (length data) (64 - sh_ptr c))); apply IH; [|rewrite length_drop; lia].
  all: pose proof (sha1_fill c m (take (Nat.min (length data) (64 - sh_ptr c)) data) Hs) as Hfill; rewrite length_take, Nat.min_l in Hfill by lia;
    apply Hfill; lia.
Qed.

Lemma sha1_hashstream c m data : sha_state c m → sha_state (sha1_context_hashstream c data) (m ++ data).
Proof. intros Hs. by apply sha1_loop. Qed.

(** The loop that pads ends. *)
Lemma sha1_zeros_pad c m : sha_state c m →
  ∃ c', sha1_zeros 2 c = Val c' ∧ sha_state c' (m ++ replicate ((120 - length m mod 64) mod 64) 0).
Proof.
  intros Hs. pose proof (ss_ptr _ _ Hs) as Hp. pose proof (Nat.mod_upper_bound (length m) 64 ltac:(lia)) as Hb. rewrite <- Hp in *.
  cbn [sha1_zeros]. destruct (Nat.eqb_spec (sh_ptr c) 56) as [->|H56]; [exists c; split; [done|by rewrite app_nil_r]|].
  set (k := if (56 <? sh_ptr c)%nat then (64 - sh_ptr c)%nat else (56 - sh_ptr c)%nat).
  destruct (Nat.ltb_spec 56 (sh_ptr c)) as [Hlt|Hge].
  - pose proof (sha1_hashstream c m (replicate (64 - sh_ptr c) 0) Hs) as Hs1. pose proof (ss_ptr _ _ Hs1) as Hp1.
    rewrite length_app, length_replicate, (proj2 (mod_step (length m) (64 - sh_ptr c) (sh_ptr c) Hp)) in Hp1 by lia. rewrite Hp1.
    cbn [Nat.eqb Nat.ltb Nat.leb Nat.sub]. pose proof (sha1_hashstream _ _ (replicate 56 0) Hs1) as Hs2. pose proof (ss_ptr _ _ Hs2) as Hp2.
    rewrite length_app, length_replicate in Hp2. pose proof (ss_ptr _ _ Hs1) as Hp1'. rewrite Hp1 in Hp1'.
    rewrite (proj1 (mod_step (length (m ++ replicate (64 - sh_ptr c) 0)) 56 0 Hp1')) in Hp2 by lia.
    rewrite Hp2. eexists. split; [done|]. rewrite (Nat.mod_small (120 - sh_ptr c)) by lia.
    replace (120 - sh_ptr c)%nat with ((64 - sh_ptr c) + 56)%nat by lia. by rewrite replicate_add, app_assoc.
  - pose proof (sha1_hashstream c m (replicate (56 - sh_ptr c) 0) Hs) as Hs1. pose proof (ss_ptr _ _ Hs1) as Hp1.
    rewrite length_app, length_replicate, (proj1 (mod_step (length m) (56 - sh_ptr c) (sh_ptr c) Hp)) in Hp1 by lia. rewrite Hp1.
    replace (sh_ptr c + (56 - sh_ptr c))%nat with 56%nat by lia. eexists. split; [done|].
    replace (120 - sh_ptr c)%nat with ((56 - sh_ptr c) + 1 * 64)%nat by lia. by rewrite Nat.Div0.mod_add, Nat.mod_small by lia.
Qed.

Lemma zeros_padding n : ((120 - (n + 1) mod 64) mod 64 = (119 - n mod 64) mod 64)%nat.
Proof.
  pose proof (Nat.mod_upper_bound n 64 ltac:(lia)) as Hr. pose proof (mod_step n 1 (n mod 64) eq_refl) as [H1 H2].
  destruct (decide (n mod 64 = 63)%nat) as [E|E]; [rewrite H2, E by lia; done|]. rewrite H1 by lia.
  replace (120 - (n mod 64 + 1))%nat with (119 - n mod 64)%nat by lia. done.
Qed.

Lemma sha1_endstream c m :
  sha_state c m → ∃ c', sha1_context_endstream c (Z.of_nat (length m)) = Val c' ∧ sha1_context_digest c' = sha1 m.
Proof.
  intros Hs. unfold sha1_context_endstream. pose proof (sha1_hashstream c m [0x80] Hs) as Hs1.
  destruct (sha1_zeros_pad _ _ Hs1) as (c1 & -> & Hs2). run. eexists. split; [done|].
  pose proof (sha1_hashstream c1 _ ([0; 0; 0; 0] ++ be_bytes (u64 (Z.of_nat (length m) * 8))) Hs2) as [_ _ HH].
  unfold sha1_context_digest, sha1, padding. rewrite length_app in HH. cbn [length] in HH. rewrite zeros_padding in HH.
  replace (8 * Z.of_nat (length m)) with (Z.of_nat (length m) * 8) by lia.
  replace (m ++ 0x80 :: _ ++ _) with
    (((m ++ [0x80]) ++ replicate ((119 - length m mod 64) mod 64) 0) ++ [0; 0; 0; 0] ++ be_bytes (u64 (Z.of_nat (length m) * 8)))
    by (by rewrite <- !app_assoc). rewrite HH. done.
Qed.

(** SHA-1 in pieces: whatever the sizes of the pieces, the padding loop ends
    and the digest is the one of the whole message, which is the standard one
    as long as the message has less than 2^29 bytes. *)
Theorem sha1_in_pieces junk pieces :
  length junk = 64%nat →
  ∃ c, sha1_context_endstream (foldl sha1_context_hashstream (sha1_context_init (mkSHA SHA1_IV junk 0)) pieces) (Z.of_nat (length (concat pieces)))
         = Val c ∧ sha1_context_digest c = sha1 (concat pieces) ∧ sha1_digest junk (concat pieces) = Val (sha1 (concat pieces)).
Proof.
  intros Hj. set (c0 := sha1_context_init _). assert (H0 : sha_state c0 []) by (by split).
  assert (Hp : ∀ ps c m, sha_state c m → sha_state (foldl sha1_context_hashstream c ps) (m ++ concat ps)).
  { induction ps as [|d ps IH]; intros c m Hs; cbn [foldl concat]; [by rewrite app_nil_r|]. rewrite app_assoc. by apply IH, sha1_hashstream. }
  destruct (sha1_endstream _ _ (Hp pieces c0 [] H0)) as (c & Hc & Hd). exists c. split_and!; [done..|].
  unfold sha1_digest. destruct (sha1_endstream _ _ (sha1_hashstream c0 [] (concat pieces) H0)) as (c' & Hc' & Hd').
  fold c0. cbn [app] in Hc'. rewrite Hc'. run. by rewrite Hd'.
Qed.

Lemma sha1_in_pieces_witness :
  ∃ c, sha1_context_endstream (foldl sha1_context_hashstream (sha1_context_init (mkSHA SHA1_IV junk64 0)) [bytes_of "a"; replicate 130 7])
         (Z.of_nat (length (bytes_of "a" ++ replicate 130 7))) = Val c ∧
    sha1_context_digest c = sha1 (bytes_of "a" ++ replicate 130 7) ∧
    sha1_digest junk64 (bytes_of "a" ++ replicate 130 7) = Val (sha1 (bytes_of "a" ++ replicate 130 7)).
Proof. apply (sha1_in_pieces junk64 [bytes_of "a"; replicate 130 7]). reflexivity. Defined.

(** ** The digest of a part of a file *)

Lemma calc_md5_loop_state bufsiz fuel ctx m data n :
  0 < bufsiz < 2 ^ 32 → md5_state ctx m → 0 ≤ n → (length data < fuel)%nat →
  md5_state (calc_md5_loop bufsiz fuel ctx data n (Z.min n bufsiz)) (m ++ take (Z.to_nat n) data).
Proof.
  intros Hb. revert ctx m data n. induction fuel as [|fuel IH]; intros ctx m data n Hs Hn Hf; [lia|]. cbn [calc_md5_loop].
  set (len := Z.to_nat (Z.min n bufsiz)). destruct (take len data) as [|x got0] eqn:Egot.
  - replace (take (Z.to_nat n) data) with (@nil Z); [by rewrite app_nil_r|].
    destruct data as [|y data]; [by rewrite take_nil|]. destruct len as [|k] eqn:El; [|done]. by replace (Z.to_nat n) with 0%nat by lia.
  - rewrite <- Egot. set (got := take len data).
    assert (Hg : length got = Nat.min len (length data)) by (unfold got; apply length_take).
    assert (Hpos : (0 < length got)%nat) by (unfold got; rewrite Egot; simpl; lia).
    assert (Hup : md5_state (MD5Update ctx got) (m ++ got)) by (apply md5_update; [done|lia]).
    assert (Hsplit : take (Z.to_nat n) data = got ++ take (Z.to_nat (n - Z.of_nat (length got))) (drop (length got) data)).
    { assert (Hd : data = got ++ drop (length got) data).
      { rewrite Hg. destruct (le_lt_dec len (length data)); [rewrite Nat.min_l by lia; symmetry; apply take_drop|].
        rewrite Nat.min_r, drop_all, app_nil_r by lia. symmetry. unfold got. apply take_ge. lia. }
      rewrite Hd at 1. rewrite take_app. rewrite (take_ge got) by lia. do 2 f_equal. lia. }
    destruct (Z.leb_spec (Z.min (n - Z.of_nat (length got)) bufsiz) 0).
    + rewrite Hsplit. replace (Z.to_nat (n - Z.of_nat (length got))) with 0%nat by lia. cbn [take]. by rewrite app_nil_r.
    + rewrite Hsplit, app_assoc. apply IH; [done|lia|rewrite length_drop; lia].
Qed.

(** [calc_md5] gives the digest of the part of the file that was asked for,
    whatever the size of the reads. *)
Theorem calc_md5_range bufsiz junk data startpos n :
  0 < bufsiz < 2 ^ 32 → length junk = 64%nat → 0 ≤ n →
  calc_md5 bufsiz junk (Some data) startpos n = Some (md5 (take (Z.to_nat n) (drop (Z.to_nat startpos) data))).
Proof.
  intros Hb Hj Hn. unfold calc_md5. f_equal. apply md5_final.
  apply (calc_md5_loop_state bufsiz _ _ [] _ n Hb (md5_init junk Hj) Hn). lia.
Qed.

Lemma calc_md5_range_witness :
  calc_md5 4 junk64 (Some (bytes_of "0123456789")) 2 7 = Some (md5 (bytes_of "2345678")).
Proof. apply (calc_md5_range 4 junk64 (bytes_of "0123456789") 2 7); [lia|reflexivity|lia]. Defined.

(** ** Digests in text *)

Lemma hex_char_value v : 0 ≤ v < 16 → hex_value (hex_char v) = Some v.
Proof.
  intros Hv. assert (Hin : In v (map Z.of_nat (seq 0 16))).
  { replace v with (Z.of_nat (Z.to_nat v)) by lia. apply in_map, in_seq. lia. }
  revert v Hin Hv. assert (Hall : Forall (λ v, hex_value (hex_char v) = Some v) (map Z.of_nat (seq 0 16))) by (by repeat constructor).
  intros v Hin _. rewrite Forall_forall in Hall. apply Hall. by apply list_elem_of_In.
Qed.

Lemma crc_set_in crc i v : (i < length crc)%nat → crc_set crc i v = Val (<[i := v]> crc).
Proof. intros Hi. unfold crc_set. by rewrite (proj2 (Nat.ltb_lt _ _)). Qed.

Lemma strtomd5_loop_hex d i crc rest :
  Forall is_byte d → (i + length d ≤ length crc)%nat → hd_error rest = None →
  strtomd5_loop (hex_text d ++ rest) i crc = Val ((i + length d)%nat, copy_at crc i d, rest).
Proof.
  intros Hd. revert i crc. induction Hd as [|b d Hb Hd IH]; intros i crc Hi Hr.
  - destruct rest; [|done]. cbn. rewrite Nat.add_0_r. unfold copy_at. cbn [app]. rewrite Nat.add_0_r, take_drop. done.
  - unfold hex_text. cbn [map concat hex2 app]. unfold is_byte in Hb.
    pose proof (Z.div_mod b 16 ltac:(lia)) as Hdm. pose proof (Z.mod_pos_bound b 16 ltac:(lia)) as Hm.
    assert (0 ≤ b / 16 < 16) by (split; [apply Z.div_pos; lia|apply Z.div_lt_upper_bound; lia]).
    cbn [strtomd5_loop]. cbn [length] in Hi. rewrite hex_char_value by lia. rewrite crc_set_in by lia. run.
    rewrite hex_char_value by lia. rewrite crc_set_in by (rewrite length_insert; lia). run.
    rewrite Z.shiftl_mul_pow2 by lia. change (2 ^ 4) with 16. unfold word_at.
    rewrite nth_lookup, list_lookup_insert_eq by lia. cbn [default from_option id]. unfold u8.
    rewrite (Z.mod_small (b / 16 * 16)) by lia. rewrite Z.mod_small by lia. replace (b / 16 * 16 + b mod 16) with b by lia.
    rewrite list_insert_insert_eq. fold (hex_text d). rewrite IH; [|rewrite length_insert; cbn in *; lia|done]. do 2 f_equal.
    f_equal; [cbn [length]; lia|]. unfold copy_at. cbn [length app].
    rewrite (insert_take_drop crc i b) by lia.
    assert (Ht : length (take i crc) = i) by (rewrite length_take; lia).
    replace (S i) with (length (take i crc ++ [b]))%nat at 1 by (rewrite length_app; simpl; lia).
    replace (take i crc ++ b :: drop (S i) crc) with ((take i crc ++ [b]) ++ drop (S i) crc) by (by rewrite <- app_assoc).
    rewrite take_app_length. rewrite drop_app_ge by (rewrite length_app; simpl; lia). rewrite drop_drop, length_app, Ht. cbn [length].
    rewrite <- app_assoc. do 3 f_equal. f_equal. lia.
Qed.

(** A digest of sixteen bytes written in hexadecimal by [md5_hash_r] is read
    back by [strtomd5], without a write past its array. *)
Theorem hex_digest_roundtrip d crc :
  Forall is_byte d → length d = 16%nat → length crc = 16%nat → strtomd5 (hex_text d) crc = Val (d, Some []).
Proof.
  intros Hd Hl Hc. unfold strtomd5. pose proof (strtomd5_loop_hex d 0 crc [] Hd) as H. rewrite app_nil_r in H. rewrite H by (done || lia). run.
  rewrite Hl, copy_at_all by lia. done.
Qed.

Lemma hex_digest_roundtrip_witness : strtomd5 (hex_text (replicate 16 173)) (replicate 16 0) = Val (replicate 16 173, Some []).
Proof. apply (hex_digest_roundtrip (replicate 16 173) (replicate 16 0)); [by repeat constructor|reflexivity..]. Defined.

(** A text of more than 32 digits is written past the end of the array. *)
Example strtomd5_overflow : strtomd5 (replicate 33 "a"%char) (replicate 16 0) = Crash.
Proof. by vm_compute. Qed.

(** ** The salt of a password *)

Lemma salt_of_dollar n s rest : ("$"%char ∉ s) → (length s ≤ n)%nat → (length s < n → hd_error rest = Some "$"%char)%nat → salt_of n (s ++ rest) = s.
Proof.
  revert s. induction n as [|n IH]; intros s Hs Hn Hr; [destruct s; [done|simpl in Hn; lia]|].
  destruct s as [|c s]; cbn [app salt_of].
  - destruct rest as [|c rest]; [done|]. injection (Hr ltac:(simpl; lia)) as ->. by rewrite bool_decide_eq_true_2.
  - rewrite bool_decide_eq_false_2 by set_solver. f_equal. apply IH; [set_solver|simpl in *; lia|intros; apply Hr; simpl; lia].
Qed.

(** A salt as it is taken from a salt or a hashed password. *)
Definition plain_salt (s : list ascii) : Prop := ("$"%char ∉ s) ∧ (length s ≤ 8)%nat.

Lemma salt_of_plain n s : (n ≤ 8)%nat → plain_salt (salt_of n s).
Proof.
  intros Hn. split.
  - clear Hn. revert s. induction n as [|n IH]; intros [|c s]; cbn [salt_of]; try set_solver. case_bool_decide; [set_solver|].
    apply not_elem_of_cons. split; [congruence|apply IH].
  - transitivity n; [|done]. clear Hn. revert s. induction n as [|n IH]; intros [|c s]; cbn [salt_of]; try (simpl; lia).
    case_bool_decide; [simpl; lia|]. cbn [length]. specialize (IH s). lia.
Qed.

Lemma true_salt_again s rest : plain_salt s → true_salt (MAGIC ++ s ++ "$"%char :: rest) = s.
Proof.
  intros [Hs Hl]. unfold true_salt, starts_with. change (take (length MAGIC) (MAGIC ++ ?x)) with MAGIC.
  rewrite (proj2 (streq_true MAGIC MAGIC) eq_refl). change (drop 3 (MAGIC ++ ?x)) with x. by apply salt_of_dollar.
Qed.

(** A password hashed with a hashed password as its salt is the same. *)
Lemma md5_crypt_again junk pw salt : md5_crypt junk pw (md5_crypt junk pw salt) = md5_crypt junk pw salt.
Proof.
  set (r := md5_crypt junk pw salt) at 1. assert (Hr : true_salt r = true_salt salt).
  { unfold r, md5_crypt. cbn zeta. apply true_salt_again. unfold true_salt. by apply salt_of_plain. }
  unfold md5_crypt. by rewrite Hr.
Qed.
