(* ===== verification/Crypt.v ===== *)
(** * Passwords hashed with DES: libwzd-auth/wzd_crypt.c

    The [crypt] of systems that have none: the cipher on blocks of 64 bits, one
    per number, its key schedule, and the hash of a password. The tables that are
    global variables are a record. A bit is 0 or 1, so that a box is never read
    past its end. *)
From S2P Require Import Prelude Codec Path Digests.

Definition at_ (l : list Z) (i : nat) : Z := nth i l 0.

(** ** Tables *)

Definition PC1 : list nat :=
  [56; 48; 40; 32; 24; 16; 8; 0; 57; 49; 41; 33; 25; 17; 9; 1;
   58; 50; 42; 34; 26; 18; 10; 2; 59; 51; 43; 35; 62; 54; 46; 38;
   30; 22; 14; 6; 61; 53; 45; 37; 29; 21; 13; 5; 60; 52; 44; 36;
   28; 20; 12; 4; 27; 19; 11; 3]%nat.
Definition PC2 : list nat :=
  [13; 16; 10; 23; 0; 4; 2; 27; 14; 5; 20; 9; 22; 18; 11; 3;
   25; 7; 15; 6; 26; 19; 12; 1; 40; 51; 30; 36; 46; 54; 29; 39;
   50; 44; 32; 47; 43; 48; 38; 55; 33; 52; 45; 41; 49; 35; 28; 31]%nat.
Definition IP : list nat :=
  [57; 49; 41; 33; 25; 17; 9; 1; 59; 51; 43; 35; 27; 19; 11; 3;
   61; 53; 45; 37; 29; 21; 13; 5; 63; 55; 47; 39; 31; 23; 15; 7;
   56; 48; 40; 32; 24; 16; 8; 0; 58; 50; 42; 34; 26; 18; 10; 2;
   60; 52; 44; 36; 28; 20; 12; 4; 62; 54; 46; 38; 30; 22; 14; 6]%nat.
Definition EP : list nat :=
  [7; 39; 15; 47; 23; 55; 31; 63; 6; 38; 14; 46; 22; 54; 30; 62;
   5; 37; 13; 45; 21; 53; 29; 61; 4; 36; 12; 44; 20; 52; 28; 60;
   3; 35; 11; 43; 19; 51; 27; 59; 2; 34; 10; 42; 18; 50; 26; 58;
   1; 33; 9; 41; 17; 49; 25; 57; 0; 32; 8; 40; 16; 48; 24; 56]%nat.
Definition E0 : list nat :=
  [31; 0; 1; 2; 3; 4; 3; 4; 5; 6; 7; 8; 7; 8; 9; 10;
   11; 12; 11; 12; 13; 14; 15; 16; 15; 16; 17; 18; 19; 20; 19; 20;
   21; 22; 23; 24; 23; 24; 25; 26; 27; 28; 27; 28; 29; 30; 31; 0]%nat.
Definition PERM : list nat :=
  [15; 6; 19; 20; 28; 11; 27; 16; 0; 14; 22; 25; 4; 17; 30; 9;
   1; 7; 23; 13; 31; 26; 2; 8; 18; 12; 29; 5; 21; 10; 3; 24]%nat.

Definition S_BOX : list (list Z) :=
  [[14; 0; 4; 15; 13; 7; 1; 4; 2; 14; 15; 2; 11; 13; 8; 1;
    3; 10; 10; 6; 6; 12; 12; 11; 5; 9; 9; 5; 0; 3; 7; 8;
    4; 15; 1; 12; 14; 8; 8; 2; 13; 4; 6; 9; 2; 1; 11; 7;
    15; 5; 12; 11; 9; 3; 7; 14; 3; 10; 10; 0; 5; 6; 0; 13];
   [15; 3; 1; 13; 8; 4; 14; 7; 6; 15; 11; 2; 3; 8; 4; 14;
    9; 12; 7; 0; 2; 1; 13; 10; 12; 6; 0; 9; 5; 11; 10; 5;
    0; 13; 14; 8; 7; 10; 11; 1; 10; 3; 4; 15; 13; 4; 1; 2;
    5; 11; 8; 6; 12; 7; 6; 12; 9; 0; 3; 5; 2; 14; 15; 9];
   [10; 13; 0; 7; 9; 0; 14; 9; 6; 3; 3; 4; 15; 6; 5; 10;
    1; 2; 13; 8; 12; 5; 7; 14; 11; 12; 4; 11; 2; 15; 8; 1;
    13; 1; 6; 10; 4; 13; 9; 0; 8; 6; 15; 9; 3; 8; 0; 7;
    11; 4; 1; 15; 2; 14; 12; 3; 5; 11; 10; 5; 14; 2; 7; 12];
   [7; 13; 13; 8; 14; 11; 3; 5; 0; 6; 6; 15; 9; 0; 10; 3;
    1; 4; 2; 7; 8; 2; 5; 12; 11; 1; 12; 10; 4; 14; 15; 9;
    10; 3; 6; 15; 9; 0; 0; 6; 12; 10; 11; 1; 7; 13; 13; 8;
    15; 9; 1; 4; 3; 5; 14; 11; 5; 12; 2; 7; 8; 2; 4; 14];
   [2; 14; 12; 11; 4; 2; 1; 12; 7; 4; 10; 7; 11; 13; 6; 1;
    8; 5; 5; 0; 3; 15; 15; 10; 13; 3; 0; 9; 14; 8; 9; 6;
    4; 11; 2; 8; 1; 12; 11; 7; 10; 1; 13; 14; 7; 2; 8; 13;
    15; 6; 9; 15; 12; 0; 5; 9; 6; 10; 3; 4; 0; 5; 14; 3];
   [12; 10; 1; 15; 10; 4; 15; 2; 9; 7; 2; 12; 6; 9; 8; 5;
    0; 6; 13; 1; 3; 13; 4; 14; 14; 0; 7; 11; 5; 3; 11; 8;
    9; 4; 14; 3; 15; 2; 5; 12; 2; 9; 8; 5; 12; 15; 3; 10;
    7; 11; 0; 14; 4; 1; 10; 7; 1; 6; 13; 0; 11; 8; 6; 13];
   [4; 13; 11; 0; 2; 11; 14; 7; 15; 4; 0; 9; 8; 1; 13; 10;
    3; 14; 12; 3; 9; 5; 7; 12; 5; 2; 10; 15; 6; 8; 1; 6;
    1; 6; 4; 11; 11; 13; 13; 8; 12; 1; 3; 4; 7; 10; 14; 7;
    10; 9; 15; 5; 6; 0; 8; 15; 0; 14; 5; 2; 9; 3; 2; 12];
   [13; 1; 2; 15; 8; 13; 4; 8; 6; 10; 15; 3; 11; 7; 1; 4;
    10; 12; 9; 5; 3; 6; 14; 11; 5; 0; 0; 14; 12; 9; 7; 2;
    7; 2; 11; 1; 4; 14; 1; 7; 9; 4; 12; 10; 14; 8; 2; 13;
    0; 15; 6; 12; 10; 9; 13; 0; 15; 3; 3; 5; 5; 6; 8; 11]].

(** ** The cipher *)

(** [schluessel], sixteen keys of 48 bits, and [E]. *)
Record des_tables := mkDes { schluessel : list (list Z); des_E : list nat }.

(** [perm(a,e,pc,n)] with [n] entries in [pc]. *)
Definition perm (e : list Z) (pc : list nat) : list Z := map (λ i, at_ e i) pc.

(** Six bits of the expanded half, with the key. *)
Definition sbval (e : list nat) (r schl : list Z) (i : nat) : Z :=
  fold_left (λ v j, Z.lor (Z.shiftl v 1) (Z.lxor (at_ r (nth (6 * i + j) e 0%nat)) (at_ schl (6 * i + j)))) (seq 0 6) 0.

(** The four bits of a box, the high one first. *)
Definition sbits (e : list nat) (r schl : list Z) (i : nat) : list Z :=
  let v := nth (Z.to_nat (sbval e r schl i)) (nth i S_BOX []) 0 in
  map (λ k, Z.land (Z.shiftr v k) 1) [3; 2; 1; 0].

Definition des_f (e : list nat) (r schl : list Z) : list Z := perm (concat (map (sbits e r schl) (seq 0 8))) PERM.

(** [crypt_main(nachr_l,nachr_r,schl)] changes [nachr_l]. *)
Definition crypt_main (e : list nat) (l r schl : list Z) : list Z := zip_with Z.lxor l (des_f e r schl).

(** Two rounds with the keys [k1] and [k2]. *)
Definition two_rounds (e : list nat) (lr : list Z * list Z) (k1 k2 : list Z) : list Z * list Z :=
  let l := crypt_main e lr.1 lr.2 k1 in (l, crypt_main e lr.2 l k2).

Fixpoint rounds (e : list nat) (lr : list Z * list Z) (keys : list (list Z)) : list Z * list Z :=
  match keys with k1 :: k2 :: keys => rounds e (two_rounds e lr k1 k2) keys | _ => lr end.

Definition encrypt (t : des_tables) (nachr : list Z) (decr : bool) : list Z :=
  let tmp := perm nachr IP in
  let keys := if decr then reverse (schluessel t) else schluessel t in
  let '(l, r) := rounds (des_E t) (take 32 tmp, drop 32 tmp) keys in
  perm (l ++ r) EP.

(** ** The keys *)

(** [ls] tells how many places each key is turned by. *)
Definition turned (shval : nat) (k : nat) : nat :=
  if (28 <=? k)%nat then (if (56 <=? k + shval)%nat then ((k + shval - 28) mod 28 + 28)%nat else (k + shval)%nat)
  else if (28 <=? k + shval)%nat then ((k + shval) mod 28)%nat else (k + shval)%nat.

Fixpoint des_keys (n : nat) (ls : Z) (shval : nat) (tmp1 : list Z) : list (list Z) :=
  match n with
  | O => []
  | S n =>
    let shval := (shval + 1 + Z.to_nat (Z.land ls 1))%nat in
    perm tmp1 (map (turned shval) PC2) :: des_keys n (Z.shiftr ls 1) shval tmp1
  end.

Definition wzd_setkey (schl : list Z) : des_tables := mkDes (des_keys 16 0x7efc 0 (perm schl PC1)) E0.

(** ** The hash of a password *)

(** Seven bits of each of the first eight characters, the high one first. *)
Definition char_bits (c : ascii) : list Z := map (λ k, Z.land (Z.shiftr (code c) k) 1) [6; 5; 4; 3; 2; 1; 0].
Definition key_bits (wort : list ascii) : list Z :=
  let bits := concat (map (λ c, char_bits c ++ [0]) (take 8 wort)) in bits ++ replicate (66 - length bits) 0.

(** A character of a salt as a number of six bits, or more; a [char] is signed. *)
Definition salt_bits (c : ascii) : Z :=
  let k := if code c <? 128 then code c else code c - 256 in
  let k := if 90 <? k then k - 6 else k in
  let k := if 57 <? k then k - 7 else k in
  k - 46.

(** [k[0]] and [k[24]] are exchanged for each bit set. *)
Definition swap24 (e : list nat) (k : nat) : list nat := <[k := nth (k + 24) e 0%nat]> (<[(k + 24)%nat := nth k e 0%nat]> e).
Definition salted_char (e : list nat) (i : nat) (c : ascii) : list nat :=
  fold_left (λ e j, if Z.testbit (salt_bits c) (Z.of_nat j) then swap24 e (6 * i + j) else e) (seq 0 6) e.

Definition out_char (bits : list Z) : ascii :=
  let k := fold_left (λ v b, Z.lor (Z.shiftl v 1) b) bits 0 + 46 in
  let k := if 57 <? k then k + 7 else k in
  chr (if 90 <? k then k + 6 else k).

Fixpoint out_chars (n : nat) (key : list Z) : list ascii :=
  match n with O => [] | S n => out_char (take 6 key) :: out_chars n (drop 6 key) end.

(** [salt] has two characters, or one and the NUL at its end; an empty one is
    read past its end. The result is the contents of [retkey]. *)
Definition des_crypt (wort salt : list ascii) : outcome (list ascii) :=
  s0 ← deref (head salt);
  let s1 := default NUL (head (tail salt)) in
  let t := wzd_setkey (key_bits wort) in
  let t := mkDes (schluessel t) (salted_char (salted_char (des_E t) 0 s0) 1 s1) in
  let key := replicate 66 0 in
  let key := Nat.iter 25 (λ key, encrypt t (take 64 key) false ++ drop 64 key) key in
  let s1 := if bool_decide (s1 = NUL) then s0 else s1 in
  Val (s0 :: s1 :: out_chars 11 key).

Definition MD5_MAGIC : list ascii := str "$1$".

Definition crypt (junk : list Z) (pw salt : list ascii) : outcome (list ascii) :=
  if (3 <? length salt)%nat && streq (take 3 salt) MD5_MAGIC then Val (md5_crypt junk pw salt) else des_crypt pw salt.

Example des_password : des_crypt (str "password") (str "ab") = Val (str "abJnggxhB/yWI").
Proof. by vm_compute. Qed.
Example des_hello : des_crypt (str "hello") (str "zH") = Val (str "zHp9BKHvdAlSA").
Proof. by vm_compute. Qed.

(** ** Decryption *)

Definition bit (z : Z) : Prop := z = 0 ∨ z = 1.
Definition bits (n : nat) (l : list Z) : Prop := length l = n ∧ Forall bit l.

Record des_ok (t : des_tables) : Prop := {
  dk_keys : length (schluessel t) = 16%nat ∧ Forall (bits 48) (schluessel t);
  dk_E : length (des_E t) = 48%nat ∧ Forall (λ i, i < 32)%nat (des_E t) }.

Lemma bit_lxor a b : bit a → bit b → bit (Z.lxor a b).
Proof. intros [->| ->] [->| ->]; cbn; unfold bit; auto. Qed.

Lemma bit_land z : bit (Z.land z 1).
Proof. change 1 with (Z.ones 1). rewrite Z.land_ones by lia. pose proof (Z.mod_pos_bound z (2 ^ 1) ltac:(lia)). unfold bit. lia. Qed.

Lemma bits_at n l i : bits n l → bit (at_ l i).
Proof.
  intros [_ Hl]. unfold at_. rewrite nth_lookup. destruct (l !! i) as [b|] eqn:E; [|by left]. by eapply Forall_lookup in E.
Qed.

Lemma perm_bits n l pc : bits n l → bits (length pc) (perm l pc).
Proof.
  intros Hl. split; [apply length_map|]. unfold perm. apply Forall_fmap, Forall_true. intros i. cbn. by eapply bits_at.
Qed.

(** The boxes are read at an index of six bits, and have 64 entries of four. *)
Lemma sbval_range n k e r schl i : bits n r → bits k schl → 0 ≤ sbval e r schl i < 64.
Proof.
  intros Hr Hk. unfold sbval. assert (H : ∀ js v a, 0 ≤ v < 2 ^ Z.of_nat a →
    0 ≤ fold_left (λ v j, Z.lor (Z.shiftl v 1) (Z.lxor (at_ r (nth (6 * i + j) e 0%nat)) (at_ schl (6 * i + j)))) js v < 2 ^ Z.of_nat (a + length js)).
  { induction js as [|j js IH]; intros v a Hv; cbn [fold_left length]; [by rewrite Nat.add_0_r|].
    rewrite Nat.add_succ_r, <- Nat.add_succ_l. apply IH. rewrite Nat2Z.inj_succ, Z.pow_succ_r by lia.
    assert (Hb : bit (Z.lxor (at_ r (nth (6 * i + j) e 0%nat)) (at_ schl (6 * i + j)))) by (apply bit_lxor; by eapply bits_at).
    rewrite Z.shiftl_mul_pow2 by lia. change (2 ^ 1) with 2. destruct Hb as [->| ->].
    - rewrite Z.lor_0_r. lia.
    - replace (Z.lor (v * 2) 1) with (v * 2 + 1); [lia|]. rewrite <- Z.add_lor_land.
      replace (Z.land (v * 2) 1) with 0; [lia|]. change 1 with (Z.ones 1). rewrite Z.land_ones by lia. by rewrite Z.mod_mul. }
  apply (H (seq 0 6) 0 0%nat). by cbn.
Qed.

Lemma des_f_bits n k e r schl : bits n r → bits k schl → bits 32 (des_f e r schl).
Proof.
  intros Hr Hk. unfold des_f. apply (perm_bits 32). split.
  - reflexivity.
  - apply Forall_concat, Forall_fmap, Forall_true. intros i. unfold compose, sbits. apply Forall_fmap, Forall_true. intros j. apply bit_land.
Qed.

Lemma crypt_main_bits k e l r schl : bits 32 l → bits 32 r → bits k schl → bits 32 (crypt_main e l r schl).
Proof.
  intros [Hl Hlb] Hr Hk. destruct (des_f_bits 32 k e r schl Hr Hk) as [Hf Hfb]. split; [unfold crypt_main; by rewrite length_zip_with, Hl, Hf|].
  unfold crypt_main. clear Hl Hf. revert Hfb. generalize (des_f e r schl). induction Hlb as [|a l Ha Hl IH]; intros [|b f] Hf; try constructor;
    apply Forall_cons in Hf as [Hb Hf]; [by apply bit_lxor|by apply IH].
Qed.

Lemma xor_twice l f : (length l ≤ length f)%nat → zip_with Z.lxor (zip_with Z.lxor l f) f = l.
Proof.
  revert f. induction l as [|a l IH]; intros [|b f] Hl; simpl in *; try done; [lia|]. rewrite IH by lia.
  by rewrite Z.lxor_assoc, Z.lxor_nilpotent, Z.lxor_0_r.
Qed.

Lemma crypt_main_twice k e l r schl : bits 32 l → bits 32 r → bits k schl → crypt_main e (crypt_main e l r schl) r schl = l.
Proof. intros [Hl _] Hr Hk. destruct (des_f_bits 32 k e r schl Hr Hk) as [Hf _]. apply xor_twice. lia. Qed.

Lemma rounds_app e lr ks1 ks2 : Nat.Even (length ks1) → rounds e lr (ks1 ++ ks2) = rounds e (rounds e lr ks1) ks2.
Proof.
  intros [n Hn]. revert lr ks1 Hn. induction n as [|n IH]; intros lr ks1 Hn; [by destruct ks1|].
  destruct ks1 as [|k1 [|k2 ks1]]; cbn [length] in Hn; [lia..|]. cbn [app rounds]. apply IH. lia.
Qed.

(** The rounds done backwards, on the exchanged halves. *)
Lemma rounds_back e n ks l r : length ks = (2 * n)%nat → Forall (bits 48) ks → bits 32 l → bits 32 r →
  let lr := rounds e (l, r) ks in bits 32 lr.1 ∧ bits 32 lr.2 ∧ rounds e (lr.2, lr.1) (reverse ks) = (r, l).
Proof.
  revert ks l r. induction n as [|n IH]; intros ks l r Hn Hk Hl Hr; [by destruct ks|].
  destruct ks as [|k1 [|k2 ks]]; cbn [length] in Hn; [lia..|]. cbn [rounds]. unfold two_rounds. cbn [fst snd].
  apply Forall_cons in Hk as [Hk1 Hk]. apply Forall_cons in Hk as [Hk2 Hk].
  set (l' := crypt_main e l r k1). assert (Hl' : bits 32 l') by (by eapply crypt_main_bits).
  set (r' := crypt_main e r l' k2). assert (Hr' : bits 32 r') by (by eapply crypt_main_bits).
  destruct (IH ks l' r' ltac:(lia) Hk Hl' Hr') as (H1 & H2 & H3). cbv zeta in *. split_and!; [done..|].
  rewrite !reverse_cons, <- app_assoc, rounds_app by (rewrite length_reverse; exists n; lia). rewrite H3. cbn [app rounds]. unfold two_rounds. cbn [fst snd].
  assert (E1 : crypt_main e r' l' k2 = r) by (by eapply crypt_main_twice). assert (E2 : crypt_main e l' r k1 = l) by (by eapply crypt_main_twice).
  by rewrite E1, E2.
Qed.

Lemma perm_perm l p q : Forall (λ i, i < length p)%nat q → perm (perm l p) q = perm l (map (λ i, nth i p 0%nat) q).
Proof.
  intros Hq. unfold perm. rewrite map_map. apply map_ext_in. intros i Hi. apply list_elem_of_In in Hi.
  unfold at_. rewrite Forall_forall in Hq. rewrite (nth_indep _ 0 (nth 0 l 0)) by (rewrite length_map; by apply Hq).
  apply (map_nth (λ j, nth j l 0)).
Qed.

Lemma length_perm l p : length (perm l p) = length p.
Proof. apply length_map. Qed.

Lemma perm_seq l a n : (a + n ≤ length l)%nat → perm l (seq a n) = take n (drop a l).
Proof.
  intros Hl. apply list_eq. intros i. unfold perm. destruct (lt_dec i n) as [Hi|Hi].
  - rewrite list_lookup_fmap, lookup_seq_lt, lookup_take_lt, lookup_drop by done. cbn. unfold at_.
    destruct (l !! (a + i)%nat) as [x|] eqn:E; [by rewrite (nth_lookup_Some _ _ _ _ E)|]. apply lookup_ge_None in E. lia.
  - rewrite !lookup_ge_None_2; [done|rewrite length_take; lia|]. change (map ?f ?x) with (f <$> x). rewrite length_fmap, length_seq. lia.
Qed.

Lemma perm_app l p q : perm l (p ++ q) = perm l p ++ perm l q.
Proof. apply map_app. Qed.

Lemma ip_ep l r : length l = 32%nat → length r = 32%nat → perm (perm (l ++ r) EP) IP = r ++ l.
Proof.
  intros Hl Hr. rewrite perm_perm by (apply (bool_decide_unpack _); by vm_compute).
  replace (map (λ i, nth i EP 0%nat) IP) with (seq 32 32 ++ seq 0 32) by (by vm_compute).
  rewrite perm_app, !perm_seq by (rewrite length_app; lia). rewrite drop_0, take_app_length' by done.
  rewrite drop_app_length' by done. by rewrite take_ge by lia.
Qed.

Lemma ep_ip b : length b = 64%nat → perm (drop 32 (perm b IP) ++ take 32 (perm b IP)) EP = b.
Proof.
  intros Hb. assert (Ht : length (perm b IP) = 64%nat) by (by rewrite length_perm).
  assert (E1 : drop 32 (perm b IP) = perm (perm b IP) (seq 32 32)) by (rewrite perm_seq by lia; rewrite take_ge; [done|rewrite length_drop; lia]).
  assert (E2 : take 32 (perm b IP) = perm (perm b IP) (seq 0 32)) by (by rewrite perm_seq by lia).
  rewrite E1, E2, <- perm_app, perm_perm by (apply (bool_decide_unpack _); by vm_compute).
  rewrite perm_perm by (apply (bool_decide_unpack _); by vm_compute).
  replace (map _ (map _ EP)) with (seq 0 64) by (by vm_compute). rewrite perm_seq by lia. rewrite drop_0. by rewrite take_ge by lia.
Qed.

(** Both directions at once. *)
Lemma encrypt_both t b :
  des_ok t → bits 64 b → bits 64 (encrypt t b false) ∧ encrypt t (encrypt t b false) true = b.
Proof.
  intros [[Hk Hkb] _] Hb. pose proof (perm_bits 64 b IP Hb) as [Ht Htb]. unfold encrypt. set (tmp := perm b IP) in *.
  change (length IP) with 64%nat in Ht.
  assert (Hl : bits 32 (take 32 tmp)) by (split; [rewrite length_take; lia|by apply Forall_take]).
  assert (Hr : bits 32 (drop 32 tmp)) by (split; [rewrite length_drop; lia|by apply Forall_drop]).
  destruct (rounds_back (des_E t) 8 (schluessel t) _ _ Hk Hkb Hl Hr) as ([Hl' Hlb] & [Hr' Hrb] & Hback). cbv zeta in *.
  destruct (rounds (des_E t) (take 32 tmp, drop 32 tmp) (schluessel t)) as [l r] eqn:E. cbn [fst snd] in *. split.
  - apply (perm_bits 64). split; [rewrite length_app; lia|by apply Forall_app].
  - rewrite ip_ep by done. rewrite take_app_length', drop_app_length' by done. rewrite Hback. apply ep_ip, Hb.
Qed.

Lemma encrypt_bits t b : des_ok t → bits 64 b → bits 64 (encrypt t b false).
Proof. intros Ht Hb. by apply encrypt_both. Qed.

(** C28. The cipher is a permutation of blocks of bits: it maps 64 bits to 64 bits,
    and decryption with the same keys gives the block back. *)
Theorem des_inverse t b :
  des_ok t → bits 64 b → bits 64 (encrypt t b false) ∧ encrypt t (encrypt t b false) true = b.
Proof. apply encrypt_both. Qed.

(** ** The hash of a password *)

Lemma des_keys_bits n ls shval tmp1 : bits 56 tmp1 → length (des_keys n ls shval tmp1) = n ∧ Forall (bits 48) (des_keys n ls shval tmp1).
Proof.
  intros Ht. revert ls shval. induction n as [|n IH]; intros ls shval; cbn [des_keys length]; [done|].
  destruct (IH (Z.shiftr ls 1) (shval + 1 + Z.to_nat (Z.land ls 1))%nat) as [H1 H2]. rewrite H1. split; [done|].
  constructor; [|done]. by apply (perm_bits 56).
Qed.

Lemma key_bits_ok wort : bits 66 (key_bits wort).
Proof.
  unfold key_bits. assert (Hl : ∀ w, (length w ≤ 8)%nat → bits (8 * length w) (concat (map (λ c, char_bits c ++ [0]) w))).
  { induction w as [|c w IH]; intros Hw; [by split|]. cbn [map concat length]. destruct IH as [H1 H2]; [simpl in Hw; lia|]. split.
    - rewrite length_app, H1. cbn. lia.
    - apply Forall_app. split; [|done]. apply Forall_app. split; [|constructor; [by left|done]].
      apply Forall_fmap, Forall_true. intros k. apply bit_land. }
  destruct (Hl (take 8 wort)) as [H1 H2]; [rewrite length_take; lia|]. split.
  - rewrite length_app, length_replicate, H1, length_take. lia.
  - apply Forall_app. split; [done|]. apply Forall_replicate. by left.
Qed.

Definition E_ok (e : list nat) : Prop := length e = 48%nat ∧ Forall (λ i, i < 32)%nat e.

Lemma swap24_ok e k : E_ok e → E_ok (swap24 e k).
Proof.
  intros [Hl He]. assert (Hn : ∀ i, (nth i e 0 < 32)%nat).
  { intros i. rewrite nth_lookup. destruct (e !! i) eqn:E; [rewrite Forall_lookup in He; by apply (He _ _ E)|cbn; lia]. }
  split; [unfold swap24; by rewrite !length_insert|]. unfold swap24. by repeat apply Forall_insert.
Qed.

Lemma salted_ok e i c : E_ok e → E_ok (salted_char e i c).
Proof.
  unfold salted_char. generalize (seq 0 6). intros js. revert e. induction js as [|j js IH]; intros e He; cbn [fold_left]; [done|].
  apply IH. destruct (Z.testbit _ _); [by apply swap24_ok|done].
Qed.

Lemma setkey_ok wort : des_ok (wzd_setkey (key_bits wort)).
Proof.
  split.
  - apply des_keys_bits, (perm_bits 66), key_bits_ok.
  - split; [reflexivity|]. apply (bool_decide_unpack _). by vm_compute.
Qed.

(** The characters of a hash are the 64 of its alphabet. *)
Lemma out_char_range l : bits 6 l → 46 ≤ code (out_char l) ≤ 122.
Proof.
  intros [Hl Hb]. destruct l as [|b0 [|b1 [|b2 [|b3 [|b4 [|b5 [|]]]]]]]; try done.
  repeat (apply Forall_cons in Hb as [? Hb]). unfold bit in *.
  repeat match goal with H : _ ∨ _ |- _ => destruct H; subst end; apply (bool_decide_unpack _); by vm_compute.
Qed.

Lemma out_chars_range n key : bits (6 * n) key → length (out_chars n key) = n ∧ Forall (λ c, 46 ≤ code c ≤ 122) (out_chars n key).
Proof.
  revert key. induction n as [|n IH]; intros key [Hl Hb]; cbn [out_chars length]; [done|].
  destruct (IH (drop 6 key)) as [H1 H2]; [split; [rewrite length_drop; lia|by apply Forall_drop]|]. rewrite H1. split; [done|].
  constructor; [|done]. apply out_char_range. split; [rewrite length_take; lia|by apply Forall_take].
Qed.

Lemma des_crypt_shape wort s0 s1 rest : s1 ≠ NUL →
  ∃ out, des_crypt wort (s0 :: s1 :: rest) = Val (s0 :: s1 :: out) ∧ length out = 11%nat ∧ Forall (λ c, 46 ≤ code c ≤ 122) out.
Proof.
  intros Hs. unfold des_crypt. cbn [head deref mbind outcome_mbind tail default from_option id]. cbv zeta. rewrite bool_decide_eq_false_2 by done.
  eexists. split; [reflexivity|]. set (t := mkDes _ _).
  assert (Ht : des_ok t).
  { destruct (setkey_ok wort) as [Hk [HE1 HE2]]. split; [done|]. apply salted_ok, salted_ok. by split. }
  apply (out_chars_range 11). assert (Hi : ∀ n key, bits 66 key → bits 66 (Nat.iter n (λ key, encrypt t (take 64 key) false ++ drop 64 key) key)).
  { induction n as [|n IH]; intros key Hk; [done|]. rewrite Nat.iter_succ. destruct (IH key Hk) as [H1 H2]. set (k := Nat.iter n _ key) in *.
    assert (H64 : bits 64 (take 64 k)) by (split; [rewrite length_take; lia|by apply Forall_take]).
    destruct (encrypt_bits t (take 64 k) Ht H64) as [H3 H4]. split; [rewrite length_app, length_drop; lia|].
    apply Forall_app. split; [done|by apply Forall_drop]. }
  apply Hi. split; [done|]. apply Forall_replicate. by left.
Qed.

(** A password hashed with its own hash as the salt has the same hash. *)
Lemma des_crypt_again wort s0 s1 rest r : s1 ≠ NUL → des_crypt wort (s0 :: s1 :: rest) = Val r → des_crypt wort r = Val r.
Proof.
  intros Hs Hr. destruct (des_crypt_shape wort s0 s1 rest Hs) as (out & E & _). rewrite E in Hr. injection Hr as <-. rewrite <- E. reflexivity.
Qed.

Lemma des_inverse_witness : bits 64 (encrypt (wzd_setkey (key_bits (str "password"))) (replicate 64 1) false) ∧
  encrypt (wzd_setkey (key_bits (str "password"))) (encrypt (wzd_setkey (key_bits (str "password"))) (replicate 64 1) false) true = replicate 64 1.
Proof.
  apply (des_inverse (wzd_setkey (key_bits (str "password"))) (replicate 64 1)); [apply setkey_ok|].
  split; [reflexivity|]. apply Forall_replicate. by right.
Defined.
