(* ===== verification/Auth.v ===== *)
(** * Passwords: libwzd-auth/wzd_auth.c, and the passwords of wzd_pam.c and wzd_tls.c

    How a password is stored, by the form its first characters ask for, and how
    the password of a client is compared with what is stored, on a system without
    a [crypt] of its own. The answers of PAM, the check of a certificate and of
    Kerberos are parameters. *)
From S2P Require Import Prelude Codec Path Str Digests DigestsProps Crypt.

Definition AUTH_SIG_MD5 : list ascii := str "$1$".
Definition AUTH_SIG_PAM : list ascii := str "{pam}".
Definition AUTH_SIG_SHA : list ascii := str "{SHA}".
Definition AUTH_SIG_CERT : list ascii := str "{cert}".
Definition AUTH_SIG_KRB : list ascii := str "{kerberos}".

(** [strncpy(buf+off,src,n)], every byte of which is written. *)
Definition strncpy_at (buf : list ascii) (off : nat) (src : list ascii) (n : nat) : outcome (list ascii) :=
  mem_write buf (Z.of_nat off) (take n (src ++ replicate n NUL)).

Section auth.
  (** What is in the memory a digest starts from; [pam_start] succeeds;
      [pam_authenticate]; how changing a password by PAM ends; the checks of
      other forms. *)
  Context (junk : list Z) (pam_start : bool) (pam_authenticate : list ascii → option (list ascii) → bool)
          (pam_chauth : list ascii → list ascii → list ascii → Z)
          (check_certificate check_krb5 : list ascii → list ascii → Z).

(** *** Comparing *)

Definition checkpass_crypt (pass encrypted : option (list ascii)) : outcome Z :=
  match pass, encrypted with
  | Some pass, Some encrypted => cipher ← crypt junk pass encrypted; Val (if streq cipher encrypted then 1 else 0)
  | _, _ => Val 0
  end.

Definition checkpass_md5 (pass encrypted : option (list ascii)) : outcome Z :=
  match pass, encrypted with
  | Some pass, Some encrypted => Val (if streq (drop 3 (md5_crypt junk pass encrypted)) encrypted then 1 else 0)
  | _, _ => Val 0
  end.

Definition checkpass_sha (pass encrypted : option (list ascii)) : outcome Z :=
  match pass, encrypted with
  | Some pass, Some encrypted => cipher ← sha1_hash junk pass; Val (if streq cipher encrypted then 1 else 0)
  | _, _ => Val 0
  end.

(** When PAM cannot be started the password is accepted. *)
Definition checkpass_pam (user : list ascii) (pass : option (list ascii)) : Z :=
  if pam_start then (if pam_authenticate user pass then 1 else -1) else 1.

Definition checkpass (user pass challenge : option (list ascii)) : Z :=
  match user, pass, challenge with
  | Some user, Some pass, Some challenge => if streq challenge (str "pam") then checkpass_pam user (Some pass) else 0
  | _, _, _ => 0
  end.

Definition check_auth (user data challenge : option (list ascii)) : outcome Z :=
  match user, challenge with
  | Some user, Some c =>
    if starts_with AUTH_SIG_MD5 c then checkpass_md5 data (Some (drop 3 c))
    else if starts_with AUTH_SIG_SHA c then checkpass_sha data (Some (drop 5 c))
    else if starts_with AUTH_SIG_PAM c then Val (checkpass_pam user data)
    else if starts_with AUTH_SIG_CERT c then Val (check_certificate user (drop 6 c))
    else if starts_with AUTH_SIG_KRB c then Val (check_krb5 user (drop 10 c))
    else checkpass_crypt data challenge
  | _, _ => Val 0
  end.

(** *** Storing *)

(** [salt] is an array of three characters, the last of which, [last], is not
    set; [r0] and [r1] are what [rand] gives. *)
Definition s32 (z : Z) : Z := if u32 z <? 2 ^ 31 then u32 z else u32 z - 2 ^ 32.
Definition salt_chars (r0 r1 : Z) : ascii * ascii := (chr (97 + Z.rem r0 26), chr (97 + Z.rem (s32 (r1 * 72 + 3)) 26)).

Definition changepass_crypt (r0 r1 : Z) (last : ascii) (pass : list ascii) (buffer : list ascii) (len : nat) : outcome (Z * list ascii) :=
  if (len =? 0)%nat then Val (-1, buffer) else
  let '(s0, s1) := salt_chars r0 r1 in
  salt ← buf_str [s0; s1; last];
  cipher ← crypt junk pass salt;
  b ← strncpy_at buffer 0 cipher len;
  Val (0, b).

(** Eight bytes of a digest as indices of [itoa64], whose 65 characters are not
    enough for a byte; what follows in [rest] is not set. *)
Definition _pass_get_random (d : list Z) : outcome (list ascii) :=
  mapM (λ b, if b <? 65 then Val (nth (Z.to_nat b) itoa64 NUL) else Crash) (take 8 d).

Definition changepass_md5 (d : list Z) (rest : list ascii) (pass : list ascii) (buffer : list ascii) (len : nat) : outcome (Z * list ascii) :=
  if (len =? 0)%nat then Val (-1, buffer) else
  salt ← _pass_get_random d;
  b ← strncpy_at buffer 0 (md5_crypt junk pass (cstring (salt ++ rest))) len;
  Val (0, b).

(** The second copy has the length of the whole buffer. *)
Definition changepass_sha (pass : list ascii) (buffer : list ascii) (len : nat) : outcome (Z * list ascii) :=
  if (len =? 0)%nat then Val (-1, buffer) else
  if (len <? 25)%nat then Val (-1, buffer) else
  b ← strncpy_at buffer 0 AUTH_SIG_SHA len;
  cipher ← sha1_hash junk pass;
  b ← strncpy_at b 5 cipher len;
  Val (0, b).

(** [oldpass|newpass], or nothing when PAM is only to be used. *)
Fixpoint split_bar (s : list ascii) : option (list ascii * list ascii) :=
  match s with
  | [] => None
  | c :: s => if bool_decide (c = "|"%char) then Some ([], s) else (λ '(a, b), (c :: a, b)) <$> split_bar s
  end.

Definition changepass_pam (user pass : list ascii) (buffer : list ascii) (len : nat) : outcome (Z * list ascii) :=
  if (len =? 0)%nat then Val (-1, buffer) else
  match pass with
  | [] => b ← strncpy_at buffer 0 AUTH_SIG_PAM len; Val (0, b)
  | _ =>
    match split_bar pass with
    | None => Val (-1, buffer)
    | Some (oldpass, newpass) =>
      let r := pam_chauth user oldpass newpass in
      if r =? 0 then b ← strncpy_at buffer 0 AUTH_SIG_PAM len; Val (0, b) else Val (r, buffer)
    end
  end.

Definition changepass_cert (pass : list ascii) (buffer : list ascii) (len : nat) : outcome (Z * list ascii) :=
  if (len =? 0)%nat then Val (-1, buffer) else
  if (len <? 6)%nat then Val (-1, buffer) else
  b ← strncpy_at buffer 0 AUTH_SIG_CERT len;
  r ← strlcat b pass (Z.of_nat len);
  Val (0, r.1).

Definition changepass (r0 r1 : Z) (last : ascii) (d : list Z) (rest : list ascii) (user : option (list ascii)) (pass buffer : list ascii)
    (len : nat) : outcome (Z * list ascii) :=
  match user with
  | None => Val (-1, buffer)
  | Some user =>
    if starts_with AUTH_SIG_MD5 pass then changepass_md5 d rest (drop 3 pass) buffer len
    else if starts_with AUTH_SIG_SHA pass then changepass_sha (drop 5 pass) buffer len
    else if starts_with AUTH_SIG_PAM pass then changepass_pam user (drop 5 pass) buffer len
    else if starts_with AUTH_SIG_CERT pass then changepass_cert (drop 6 pass) buffer len
    else changepass_crypt r0 r1 last pass buffer len
  end.

(** ** A password that was set is accepted *)

Lemma strncpy_at_ok buf off src n :
  (length src < n)%nat → (off + n ≤ length buf)%nat →
  ∃ tl, strncpy_at buf off src n = Val (take off buf ++ src ++ NUL :: tl) ∧ length (take off buf ++ src ++ NUL :: tl) = length buf.
Proof.
  intros Hs Hn. unfold strncpy_at, mem_write.
  assert (Hl : length (take n (src ++ replicate n NUL)) = n) by (rewrite length_take, length_app, length_replicate; lia).
  rewrite Hl. rewrite (proj2 (Z.leb_le _ _)), (proj2 (Z.leb_le _ _)) by lia. cbn [andb]. rewrite Nat2Z.id.
  rewrite take_app_ge in * by lia. destruct n as [|n]; [lia|].
  replace (S n - length src)%nat with (S (n - length src)) in * by lia. cbn [replicate take] in *. eexists. split; [by rewrite <- app_assoc|].
  rewrite length_app in Hl. cbn [length] in Hl.
  repeat (rewrite length_app || rewrite length_take || rewrite length_drop || cbn [length]). rewrite length_take in Hl. lia.
Qed.

Lemma strncpy_at_start buf src n :
  (length src < n)%nat → (n ≤ length buf)%nat → nul_free src → ∃ b, strncpy_at buf 0 src n = Val b ∧ cstring b = src.
Proof.
  intros Hs Hn Hf. destruct (strncpy_at_ok buf 0 src n Hs Hn) as (tl & Hb & _). eexists. split; [done|]. by apply cstring_app_nul.
Qed.

Lemma starts_with_head p x c s : head p = Some x → x ≠ c → starts_with p (c :: s) = false.
Proof.
  destruct p as [|y p]; [done|]. intros [= ->] Hx. unfold starts_with. cbn [length take]. destruct (streq _ _) eqn:E; [|done].
  apply streq_true in E. congruence.
Qed.

(** A character that starts no signature. *)
Lemma not_signature p c s :
  p ∈ [AUTH_SIG_MD5; AUTH_SIG_SHA; AUTH_SIG_PAM; AUTH_SIG_CERT; AUTH_SIG_KRB] → 46 ≤ code c ≤ 122 → starts_with p (c :: s) = false.
Proof.
  intros Hp Hc. assert (Hx : ∀ x, code x < 46 ∨ 122 < code x → x ≠ c) by (intros x Hx ->; lia).
  assert (Ha : Forall (λ p, default 100 (code <$> head p) < 46 ∨ 122 < default 100 (code <$> head p))
    [AUTH_SIG_MD5; AUTH_SIG_SHA; AUTH_SIG_PAM; AUTH_SIG_CERT; AUTH_SIG_KRB]) by (repeat constructor; vm_compute; auto).
  rewrite Forall_forall in Ha. specialize (Ha p Hp). destruct (head p) as [x|] eqn:E; [|cbn in Ha; lia].
  apply (starts_with_head p x); [done|]. by apply Hx.
Qed.

Lemma code_chr z : 0 ≤ z < 256 → code (chr z) = z.
Proof. intros Hz. unfold code, chr. rewrite N_ascii_embedding by lia. lia. Qed.

Lemma rem_26 x : -26 < Z.rem x 26 < 26.
Proof. pose proof (Z.rem_bound_abs x 26 ltac:(lia)). change (Z.abs 26) with 26 in *. lia. Qed.

Lemma salt_chars_range r0 r1 : 0 ≤ r0 → 97 ≤ code (salt_chars r0 r1).1 ≤ 122 ∧ 72 ≤ code (salt_chars r0 r1).2 ≤ 122.
Proof.
  intros H0. unfold salt_chars. cbn [fst snd]. pose proof (Z.rem_bound_pos r0 26 H0 ltac:(lia)) as Hr.
  pose proof (rem_26 (s32 (r1 * 72 + 3))) as Hs. revert Hr Hs. generalize (Z.rem r0 26), (Z.rem (s32 (r1 * 72 + 3)) 26).
  intros a b Hr Hs. rewrite !code_chr by lia. lia.
Qed.

Lemma code_nul_free l a b : 0 < a → Forall (λ c, a ≤ code c ≤ b) l → nul_free l.
Proof. intros Ha Hl Hin. rewrite Forall_forall in Hl. specialize (Hl NUL Hin). change (code NUL) with 0 in Hl. lia. Qed.

Lemma crypt_accepted r0 r1 user pass buffer len :
  0 ≤ r0 → (14 ≤ len ≤ length buffer)%nat →
  ∃ b, changepass_crypt r0 r1 NUL pass buffer len = Val (0, b) ∧ check_auth (Some user) (Some pass) (Some (cstring b)) = Val 1.
Proof.
  intros H0 Hlen. unfold changepass_crypt. rewrite (proj2 (Nat.eqb_neq _ _)) by lia.
  destruct (salt_chars_range r0 r1 H0) as [Hs0 Hs1]. destruct (salt_chars r0 r1) as [s0 s1]. cbn [fst snd] in *.
  assert (Hn0 : s0 ≠ NUL) by (intros ->; change (code NUL) with 0 in Hs0; lia). assert (Hn1 : s1 ≠ NUL) by (intros ->; change (code NUL) with 0 in Hs1; lia).
  change [s0; s1; NUL] with ([s0; s1] ++ NUL :: []). unfold buf_str. rewrite bool_decide_eq_true_2 by set_solver.
  rewrite cstring_app_nul by (unfold nul_free; set_solver). run. unfold crypt at 1. cbn [length Nat.ltb Nat.leb andb].
  destruct (des_crypt_shape pass s0 s1 [] Hn1) as (out & Hr & Hol & Ho). rewrite Hr. run.
  assert (Hnf : nul_free (s0 :: s1 :: out)) by (apply (code_nul_free _ 46 122); [lia|]; repeat constructor; (lia || done)).
  destruct (strncpy_at_start buffer (s0 :: s1 :: out) len) as (b & Hb & Hc); [cbn [length]; lia|lia|done|]. rewrite Hb. run.
  exists b. split; [done|]. rewrite Hc. unfold check_auth.
  rewrite !(not_signature _ s0) by (lia || set_solver). cbn [checkpass_crypt]. unfold crypt.
  replace (streq (take 3 (s0 :: s1 :: out)) MD5_MAGIC) with false.
  2:{ symmetry. apply (not_signature AUTH_SIG_MD5 s0 (s1 :: out)); [set_solver|lia]. }
  rewrite andb_false_r, (des_crypt_again pass s0 s1 [] _ Hn1 Hr). run. by rewrite (proj2 (streq_true _ _) eq_refl).
Qed.

(** *** With MD5 *)

Lemma itoa64_in i : (i < 64)%nat → 46 ≤ code (nth i itoa64 NUL) ≤ 122.
Proof.
  intros Hi. assert (Hall : Forall (λ i, 46 ≤ code (nth i itoa64 NUL) ≤ 122) (seq 0 64)) by (apply (bool_decide_unpack _); by vm_compute).
  rewrite Forall_forall in Hall. apply Hall, elem_of_seq. lia.
Qed.

Lemma to64_range v n : length (to64 v n) = n ∧ Forall (λ c, 46 ≤ code c ≤ 122) (to64 v n).
Proof.
  revert v. induction n as [|n IH]; intros v; cbn [to64 length]; [done|]. destruct (IH (Z.shiftr v 6)) as [H1 H2]. rewrite H1. split; [done|].
  constructor; [|done]. apply itoa64_in. change 0x3f with (Z.ones 6). rewrite Z.land_ones by lia.
  pose proof (Z.mod_pos_bound v (2 ^ 6) ltac:(lia)). lia.
Qed.

Lemma crypt_text_range f : length (crypt_text f) = 22%nat ∧ Forall (λ c, 46 ≤ code c ≤ 122) (crypt_text f).
Proof.
  unfold crypt_text. cbv zeta. repeat match goal with |- context [to64 ?v ?n] =>
    let H1 := fresh in let H2 := fresh in destruct (to64_range v n) as [H1 H2]; generalize dependent (to64 v n); intros end.
  rewrite !length_app, !Forall_app. split_and!; (done || lia).
Qed.

Lemma random_salt d : (8 ≤ length d)%nat → Forall (λ b, 0 ≤ b < 64) (take 8 d) →
  ∃ salt, _pass_get_random d = Val salt ∧ length salt = 8%nat ∧ Forall (λ c, 46 ≤ code c ≤ 122) salt.
Proof.
  intros Hd Hb. unfold _pass_get_random. assert (Hl : length (take 8 d) = 8%nat) by (rewrite length_take; lia). revert Hl Hb. clear Hd.
  generalize (take 8 d). intros l <- Hb.
  induction Hb as [|b l Hb Hl IH]; [by exists []|]. destruct IH as (salt & Hs & H1 & H2).
  exists (nth (Z.to_nat b) itoa64 NUL :: salt). cbn [mapM length]. rewrite (proj2 (Z.ltb_lt _ _)) by lia. run. rewrite Hs. run.
  split_and!; [done|lia|]. constructor; [|done]. apply itoa64_in. lia.
Qed.

(** What follows the salt in a stored password. *)
Definition md5_crypt_tail (pw sp : list ascii) : list Z :=
  let p := map code pw in
  let s := map code sp in
  let final := md5_of junk [p; s; p] in
  let final := md5_of junk ([p; map code MAGIC; s] ++ repeated (length p) final (length p) ++
                            bit_bytes (S (length p)) p (Z.of_nat (length p))) in
  fold_left (crypt_round junk p s) (seq 0 1000) final.

Lemma md5_crypt_salted pw sp salt : true_salt salt = sp → md5_crypt junk pw salt = MAGIC ++ sp ++ str "$" ++ crypt_text (md5_crypt_tail pw sp).
Proof. intros <-. unfold md5_crypt, md5_crypt_tail. cbv zeta. reflexivity. Qed.

Lemma starts_with_salt salt s : (0 < length salt)%nat → Forall (λ c, 46 ≤ code c ≤ 122) salt → starts_with MAGIC (salt ++ s) = false.
Proof. destruct salt as [|c salt]; cbn [length]; [lia|]. intros _ Hc. apply Forall_cons in Hc as [Hc _]. apply (not_signature AUTH_SIG_MD5); [set_solver|done]. Qed.

Lemma cstring_app_nul_free s t : nul_free s → cstring (s ++ t) = s ++ cstring t.
Proof.
  induction s as [|c s IH]; intros Hs; [done|]. cbn [app cstring]. unfold nul_free in *. rewrite bool_decide_eq_false_2 by set_solver.
  f_equal. apply IH. set_solver.
Qed.

Lemma md5_accepted d rest user pass buffer len :
  (8 ≤ length d)%nat → Forall (λ b, 0 ≤ b < 64) (take 8 d) → (35 ≤ len ≤ length buffer)%nat →
  ∃ b, changepass_md5 d rest pass buffer len = Val (0, b) ∧ check_auth (Some user) (Some pass) (Some (cstring b)) = Val 1.
Proof.
  intros Hd Hb Hlen. unfold changepass_md5. rewrite (proj2 (Nat.eqb_neq _ _)) by lia.
  destruct (random_salt d Hd Hb) as (salt & Hs & Hsl & Hsr). rewrite Hs. run.
  assert (Hsp : plain_salt salt).
  { split; [|lia]. intros Hin. rewrite Forall_forall in Hsr. specialize (Hsr _ Hin). change (code "$"%char) with 36 in Hsr. lia. }
  assert (Hnf : nul_free salt) by (by apply (code_nul_free _ 46 122)).
  assert (Hts : ∀ s, true_salt (salt ++ s) = salt).
  { intros s. unfold true_salt. rewrite starts_with_salt by (done || lia). apply salt_of_dollar; [apply Hsp|lia|lia]. }
  rewrite cstring_app_nul_free by done. set (f := md5_crypt_tail pass salt).
  assert (Hmd : ∀ s, md5_crypt junk pass (salt ++ s) = MAGIC ++ salt ++ str "$" ++ crypt_text f).
  { intros s. apply md5_crypt_salted, Hts. }
  rewrite Hmd. destruct (crypt_text_range f) as [Hfl Hfr]. revert Hfl Hfr Hmd. generalize (crypt_text f). intros tx Hfl Hfr Hmd.
  destruct (strncpy_at_start buffer (MAGIC ++ salt ++ str "$" ++ tx) len) as (b & Hb' & Hc).
  { rewrite !length_app, Hsl, Hfl. cbn [length MAGIC str list_ascii_of_string]. lia. }
  { lia. }
  { repeat apply nul_free_app; [by vm_compute; set_solver|done|vm_compute; set_solver|by apply (code_nul_free _ 46 122)]. }
  rewrite Hb'. run. exists b. split; [done|]. rewrite Hc. unfold check_auth.
  replace (starts_with AUTH_SIG_MD5 (MAGIC ++ salt ++ str "$" ++ tx)) with true by done.
  change (drop 3 (MAGIC ++ ?x)) with x. cbn [checkpass_md5]. rewrite Hmd. change (drop 3 (MAGIC ++ ?x)) with x.
  by rewrite (proj2 (streq_true _ _) eq_refl).
Qed.

(** *** With SHA *)

Lemma radix_char_six k : six k = true → radix_char k ≠ NUL.
Proof.
  intros Hk Hc. assert (Hd : digit_ok k = true) by (apply (below_all digit_ok 64); [by vm_compute|unfold six in Hk; lia]).
  unfold digit_ok in Hd. rewrite Hc in Hd. by rewrite andb_comm in Hd.
Qed.

Lemma six_join1 a b : is_byte a → is_byte b → six (Z.lor (Z.shiftl (Z.land a 3) 4) (Z.shiftr b 4)) = true.
Proof. intros. apply (below_all2 (λ a b, six (Z.lor (Z.shiftl (Z.land a 3) 4) (Z.shiftr b 4))) 256 256); [by vm_compute|unfold is_byte in *; lia..]. Qed.
Lemma six_join2 a b : is_byte a → is_byte b → six (Z.lor (Z.shiftl (Z.land a 15) 2) (Z.shiftr b 6)) = true.
Proof. intros. apply (below_all2 (λ a b, six (Z.lor (Z.shiftl (Z.land a 15) 2) (Z.shiftr b 6))) 256 256); [by vm_compute|unfold is_byte in *; lia..]. Qed.

Lemma sha1_b64_nul_free n bs : (length bs ≤ n)%nat → Forall is_byte bs → nul_free (sha1_b64 bs).
Proof.
  revert bs. induction n as [|n IH]; intros bs Hn Hbs; [destruct bs; [apply nul_free_nil|simpl in Hn; lia]|].
  assert (H0 : is_byte 0) by (unfold is_byte; lia). assert (He : "="%char ≠ NUL) by done.
  destruct bs as [|a [|b [|c bs]]]; rewrite ?Forall_cons in Hbs; destruct_and?; cbn [sha1_b64 default app];
    repeat (apply nul_free_cons; [first [done|apply radix_char_six; by auto using six_first, six_last, six_join1, six_join2]|]); [apply nul_free_nil..|].
  apply IH; [simpl in Hn; lia|done].
Qed.

Lemma be_bytes_range w : Forall is_byte (be_bytes w) ∧ length (be_bytes w) = 4%nat.
Proof.
  unfold be_bytes. rewrite length_reverse. split; [|apply length_le_bytes]. apply Forall_reverse. unfold is_byte. repeat constructor; apply Z.mod_pos_bound; lia.
Qed.

Lemma sha1_range m : Forall is_byte (sha1 m) ∧ length (sha1 m) = 20%nat.
Proof.
  unfold sha1. cbv zeta. generalize (absorb sha1_context_hash SHA1_IV (m ++ padding (length m) ([0; 0; 0; 0] ++ be_bytes (u64 (8 * Z.of_nat (length m)))))).
  intros [[[[[a b] c] d] e] rest]. cbn [fst]. rewrite !length_app, !Forall_app.
  pose proof (be_bytes_range a). pose proof (be_bytes_range b). pose proof (be_bytes_range c).
  pose proof (be_bytes_range d). pose proof (be_bytes_range e). destruct_and!. split_and!; [done..|lia].
Qed.

Lemma sha1_digest_value m : length junk = 64%nat → sha1_digest junk m = Val (sha1 m).
Proof.
  intros Hj. unfold sha1_digest. set (c0 := sha1_context_init _). assert (H0 : sha_state c0 []) by (by split).
  destruct (sha1_endstream _ _ (sha1_hashstream c0 [] m H0)) as (c & Hc & Hd). cbn [app] in Hc. rewrite Hc. run. by rewrite Hd.
Qed.

Lemma sha1_hash_text pass : length junk = 64%nat → ∃ t, sha1_hash junk pass = Val t ∧ nul_free t ∧ length t = 28%nat.
Proof.
  intros Hj. unfold sha1_hash. rewrite (sha1_digest_value _ Hj). run. destruct (sha1_range (map code pass)) as [Hb Hl].
  revert Hb Hl. generalize (sha1 (map code pass)). intros d Hb Hl. eexists. split_and!; [done|by apply (sha1_b64_nul_free (length d))|].
  do 20 (destruct d as [|? d]; [done|]). by destruct d.
Qed.

Lemma sha_accepted user pass buffer len :
  length junk = 64%nat → (29 ≤ len)%nat → (5 + len ≤ length buffer)%nat →
  ∃ b, changepass_sha pass buffer len = Val (0, b) ∧ check_auth (Some user) (Some pass) (Some (cstring b)) = Val 1.
Proof.
  intros Hj Hlen Hbuf. unfold changepass_sha. rewrite (proj2 (Nat.eqb_neq _ _)), (proj2 (Nat.ltb_ge _ _)) by lia.
  destruct (sha1_hash_text pass Hj) as (t & Ht & Htf & Htl).
  destruct (strncpy_at_ok buffer 0 AUTH_SIG_SHA len) as (tl & Hb & Hbl); [change (length AUTH_SIG_SHA) with 5%nat; lia|lia|]. rewrite Hb. run. rewrite Ht. run.
  rewrite take_0 in *. rewrite ?app_nil_l in *. set (b := AUTH_SIG_SHA ++ NUL :: tl) in *.
  destruct (strncpy_at_ok b 5 t len) as (tl' & Hb' & _); [lia|lia|]. rewrite Hb'. run. eexists. split; [done|].
  change (take 5 b) with AUTH_SIG_SHA. rewrite app_assoc, cstring_app_nul by (apply nul_free_app; [solve_nul_free|done]).
  change (check_auth (Some user) (Some pass) (Some (AUTH_SIG_SHA ++ t))) with (checkpass_sha (Some pass) (Some t)).
  cbn [checkpass_sha]. rewrite Ht. run. by rewrite (proj2 (streq_true _ _) eq_refl).
Qed.

(** The password that [changepass] is asked to store, without the signature of its form. *)
Definition clear_text (pass : list ascii) : list ascii :=
  if starts_with AUTH_SIG_MD5 pass then drop 3 pass else if starts_with AUTH_SIG_SHA pass then drop 5 pass else pass.

(** C9. A password that was set is accepted: what [changepass] stores for a
    password of the forms crypt, MD5 and SHA, [check_auth] accepts with the same
    password. The salts must be what the code takes them to be: the third
    character of the array of [changepass_crypt] is zero, and the bytes of the
    digest of the time are less than 64. For SHA the buffer must have five bytes
    more than it is said to have. *)
Theorem password_accepted r0 r1 d rest user pass buffer len :
  length junk = 64%nat → 0 ≤ r0 → (8 ≤ length d)%nat → Forall (λ b, 0 ≤ b < 64) (take 8 d) →
  (35 ≤ len ≤ length buffer)%nat → (starts_with AUTH_SIG_SHA pass → 5 + len ≤ length buffer)%nat →
  starts_with AUTH_SIG_PAM pass = false → starts_with AUTH_SIG_CERT pass = false →
  ∃ b, changepass r0 r1 NUL d rest (Some user) pass buffer len = Val (0, b) ∧
       check_auth (Some user) (Some (clear_text pass)) (Some (cstring b)) = Val 1.
Proof.
  intros Hj H0 Hd Hb Hlen Hsha Hpam Hcert. unfold changepass, clear_text. rewrite Hpam, Hcert.
  destruct (starts_with AUTH_SIG_MD5 pass); [by apply md5_accepted|].
  destruct (starts_with AUTH_SIG_SHA pass); [apply sha_accepted; [done|lia|by apply Hsha]|].
  apply crypt_accepted; [done|lia].
Qed.
End auth.

Lemma password_accepted_witness :
  ∃ b, changepass junk64 (λ _ _ _, 0) 25 3 NUL (replicate 16 10) (replicate 8 NUL) (Some (str "john")) (str "$1$secret") (replicate 48 NUL) 47 = Val (0, b) ∧
       check_auth junk64 true (λ _ _, false) (λ _ _, 0) (λ _ _, 0) (Some (str "john")) (Some (str "secret")) (Some (cstring b)) = Val 1.
Proof.
  apply (password_accepted junk64 true (λ _ _, false) (λ _ _ _, 0) (λ _ _, 0) (λ _ _, 0) 25 3 (replicate 16 10) (replicate 8 NUL) (str "john")
           (str "$1$secret") (replicate 48 NUL) 47); [reflexivity|lia|cbn; lia|by repeat constructor|cbn; lia|done|reflexivity|reflexivity].
Defined.

(** The file of users gives 47 as the length of its array of 48 characters: the
    second copy of [changepass_sha] goes past its end. *)
Example sha_overflow : changepass_sha junk64 (str "secret") (replicate 48 NUL) 47 = Crash.
Proof. by vm_compute. Qed.

(** A byte of the digest above 64 reads past the end of [itoa64]. *)
Example salt_overflow d : _pass_get_random (200 :: d) = Crash.
Proof. reflexivity. Qed.

(** Without PAM running, any password is accepted. *)
Example pam_down user data : check_auth junk64 false (λ _ _, false) (λ _ _, 0) (λ _ _, 0) (Some user) data (Some AUTH_SIG_PAM) = Val 1.
Proof. reflexivity. Qed.
