(* ===== verification/Cache.v ===== *)
(** * Reading files: libwzd-core/wzd_cache.c

    The cache as it is configured, without [ENABLE_CACHE]: a wrapper of a file
    descriptor. Descriptors are kept in a table, each with the text of its file and
    its position. [wzd_cache_gets] reads through a buffer of 4096 bytes and puts the
    position back after the line; here it is shown to give the lines that
    [PermFile.wzd_cache_gets] defines on the text. *)
From S2P Require Import Prelude PermFile.

Abbreviation bytes := (list ascii).

(** ** Descriptors of regular files *)

Abbreviation fds := (gmap nat (bytes * nat)).

Definition fs_open (files : bytes → option bytes) (t : fds) (file : bytes) : option (nat * fds) :=
  text ← files file; let fd := fresh (dom t) in Some (fd, <[fd := (text, 0%nat)]> t).

Definition sys_close (t : fds) (fd : nat) : fds := delete fd t.
Definition sys_fstat_size (t : fds) (fd : nat) : outcome Z := f ← deref (t !! fd); Val (Z.of_nat (length f.1)).

(** [read]: all that is asked for, or all that is left. *)
Definition sys_read (t : fds) (fd : nat) (count : nat) : outcome (bytes * fds) :=
  f ← deref (t !! fd);
  let data := take count (drop f.2 f.1) in
  Val (data, <[fd := (f.1, (f.2 + length data)%nat)]> t).

Definition sys_tell (t : fds) (fd : nat) : outcome nat := f ← deref (t !! fd); Val f.2.
Definition sys_seek (t : fds) (fd : nat) (pos : nat) : outcome fds := f ← deref (t !! fd); Val (<[fd := (f.1, pos)]> t).

(** ** The cache *)

(** [wzd_cache_t] with the [wzd_internal_cache_t] it points to. *)
Record wzd_cache_t := mkCache { current_location : Z; c_fd : nat; c_use : Z; c_datasize : Z }.

Definition wzd_cache_open (files : bytes → option bytes) (t : fds) (file : option bytes) : outcome (option wzd_cache_t * fds) :=
  match file with
  | None => Val (None, t)
  | Some file =>
    match fs_open files t file with
    | None => Val (None, t)
    | Some (fd, t) => size ← sys_fstat_size t fd; Val (Some (mkCache 0 fd 1 size), t)
    end
  end.

Definition wzd_cache_getsize (c : option wzd_cache_t) : Z := match c with None => -1 | Some c => c_datasize c end.

Definition wzd_cache_read (t : fds) (c : wzd_cache_t) (count : nat) : outcome (bytes * wzd_cache_t * fds) :=
  '(data, t) ← sys_read t (c_fd c) count;
  let n := Z.of_nat (length data) in
  Val (data, if 0 <? n then mkCache (current_location c + n) (c_fd c) (c_use c) (c_datasize c) else c, t).

Definition wzd_cache_write (c : wzd_cache_t) (buf : bytes) : Z := -1.

(** The loop: [ptr] is what is left of [buffer], [ret] of what was read, and [dst]
    what is written from here on. *)
Fixpoint cache_gets_loop (size : nat) (t : fds) (fd : nat) (ret size_to_read : nat) (ptr : bytes) : outcome bytes :=
  match size with
  | S ((S _) as size) =>
    match ret with
    | O => Val []
    | S ret =>
      match ptr with
      | [] => Crash
      | c :: ptr =>
        if bool_decide (c = LF) then Val [c]
        else if (size_to_read - 1 =? 0)%nat then
          let n := if (size <? 4096)%nat then size else 4096%nat in
          '(buffer, t) ← sys_read t fd n;
          dst ← cache_gets_loop size t fd (length buffer) n buffer; Val (c :: dst)
        else dst ← cache_gets_loop size t fd ret (size_to_read - 1) ptr; Val (c :: dst)
      end
    end
  | _ => Val []
  end.

(** The line, or [None]. *)
Definition cache_gets (t : fds) (c : option wzd_cache_t) (size : nat) : outcome (option (bytes * wzd_cache_t) * fds) :=
  match c with
  | None => Val (None, t)
  | Some c =>
    position ← sys_tell t (c_fd c);
    let n := if (size <? 4096)%nat then size else 4096%nat in
    '(buffer, t) ← sys_read t (c_fd c) n;
    if (length buffer =? 0)%nat then Val (None, t) else
    dst ← cache_gets_loop size t (c_fd c) (length buffer) n buffer;
    t ← sys_seek t (c_fd c) (position + length dst);
    Val (Some (dst, mkCache (current_location c + Z.of_nat (length (cstring dst))) (c_fd c) (c_use c) (c_datasize c)), t)
  end.

(** The structures are released; [use] has 16 bits. *)
Definition wzd_cache_close (t : fds) (c : option wzd_cache_t) : fds :=
  match c with
  | None => t
  | Some c => if (c_use c - 1) mod 2 ^ 16 =? 0 then sys_close t (c_fd c) else t
  end.

(** [malloc] says whether there is memory. *)
Definition wzd_cache_read_file_fast (malloc : bool) (files : bytes → option bytes) (t : fds) (filename : bytes) : outcome (option bytes * fds) :=
  '(fp, t) ← wzd_cache_open files t (Some filename);
  match fp with
  | None => Val (None, t)
  | Some c =>
    let sz64 := wzd_cache_getsize fp in
    if INT_MAX <? sz64 then Val (None, wzd_cache_close t fp) else
    let filesize := Z.to_nat (u32 sz64) in
    if negb malloc then Val (None, wzd_cache_close t fp) else
    '(file_buffer, c, t) ← wzd_cache_read t c filesize;
    if negb (length file_buffer =? filesize)%nat then Val (None, wzd_cache_close t (Some c)) else
    Val (Some file_buffer, wzd_cache_close t (Some c))
  end.

(** ** Theorems *)

Lemma sys_read_open t fd text pos n : t !! fd = Some (text, pos) →
  sys_read t fd n = Val (take n (drop pos text), <[fd := (text, (pos + length (take n (drop pos text)))%nat)]> t).
Proof. intros Ht. unfold sys_read. by rewrite Ht. Qed.

Lemma take_rest n (s : bytes) : take n s ++ drop (length (take n s)) s = s.
Proof.
  rewrite length_take. destruct (le_lt_dec n (length s)); [rewrite Nat.min_l by lia; apply take_drop|].
  rewrite Nat.min_r, drop_ge, app_nil_r, take_ge by lia. done.
Qed.

Lemma cache_gets_step n t fd size_to_read c ptr :
  cache_gets_loop (S (S n)) t fd (length (c :: ptr)) size_to_read (c :: ptr) =
    if bool_decide (c = LF) then Val [c]
    else if (size_to_read - 1 =? 0)%nat then
      let k := if (S n <? 4096)%nat then S n else 4096%nat in
      '(buffer, t) ← sys_read t fd k;
      dst ← cache_gets_loop (S n) t fd (length buffer) k buffer; Val (c :: dst)
    else dst ← cache_gets_loop (S n) t fd (length ptr) (size_to_read - 1) ptr; Val (c :: dst).
Proof. reflexivity. Qed.

Lemma gets_step n c s : (gets (S n) (c :: s)).1 = if bool_decide (c = LF) then [c] else c :: (gets n s).1.
Proof. cbn [gets]. case_bool_decide; [done|]. by destruct (gets n s). Qed.

(** The loop gives the rest of the line: [ptr] was read, the file goes on at [pos];
    less was read than asked for only at the end of the file. *)
Lemma cache_gets_loop_refines size t fd size_to_read ptr text pos :
  t !! fd = Some (text, pos) → (length ptr ≤ size_to_read)%nat → (0 < size_to_read)%nat →
  ((length ptr < size_to_read)%nat → drop pos text = []) →
  cache_gets_loop size t fd (length ptr) size_to_read ptr = Val (gets (size - 1) (ptr ++ drop pos text)).1.
Proof.
  revert t size_to_read ptr pos. induction size as [|[|n] IH]; intros t size_to_read ptr pos Ht Hle Hpos Hend; [done..|].
  change (S (S n) - 1)%nat with (S n). replace (S n - 1)%nat with n in IH by lia.
  destruct ptr as [|c ptr]; [cbn [app]; by rewrite Hend by (cbn [length]; lia)|].
  rewrite cache_gets_step. cbn [app]. rewrite gets_step. case_bool_decide as Hlf; [done|]. cbn [length] in *. cbv zeta.
  destruct (Nat.eqb_spec (size_to_read - 1) 0) as [E|E].
  - assert (Hp : ptr = []) by (destruct ptr; [done|cbn [length] in Hle; lia]). subst ptr. cbn [app].
    set (k := if (S n <? 4096)%nat then S n else 4096%nat).
    assert (Hk : (0 < k)%nat) by (unfold k; case_match; lia).
    rewrite (sys_read_open t fd text pos k Ht). run. rewrite (IH _ k _ (pos + length (take k (drop pos text)))%nat).
    + run. by rewrite <- drop_drop, take_rest.
    + by rewrite lookup_insert_eq.
    + rewrite length_take. lia.
    + done.
    + rewrite length_take. intros Hl. apply drop_ge. rewrite length_drop in *. lia.
  - rewrite (IH t (size_to_read - 1)%nat ptr pos Ht) by (lia || (intros; apply Hend; lia)). done.
Qed.

Lemma gets_split n s : (gets n s).1 ++ (gets n s).2 = s ∧ (length (gets n s).1 ≤ n)%nat.
Proof.
  revert s. induction n as [|n IH]; intros [|c s]; try (split; [done|cbn; lia]). cbn [gets]. case_bool_decide; [split; [done|cbn; lia]|].
  destruct (IH s) as [H1 H2]. destruct (gets n s) as [l r]. cbn in *. split; [by rewrite H1|lia].
Qed.

(** Through a buffer of 4096 bytes, read again whenever it is used up,
    [wzd_cache_gets] gives the line that is defined on the text of the file, and the
    position of the file and the rest of the text agree afterwards. *)
Lemma cache_gets_refines t c size text pos :
  (0 < size)%nat → t !! c_fd c = Some (text, pos) →
  match wzd_cache_gets (drop pos text) size with
  | None => cache_gets t (Some c) size = Val (None, t)
  | Some (line, rest) =>
    cache_gets t (Some c) size = Val (Some (line, mkCache (current_location c + Z.of_nat (length (cstring line))) (c_fd c) (c_use c) (c_datasize c)),
                                      <[c_fd c := (text, (pos + length line)%nat)]> t) ∧
    rest = drop (pos + length line) text
  end.
Proof.
  intros Hs Ht. unfold cache_gets, sys_tell. rewrite Ht. run. cbv zeta. cbn [snd].
  set (k := if (size <? 4096)%nat then size else 4096%nat). assert (Hk : (0 < k)%nat) by (unfold k; case_match; lia).
  rewrite (sys_read_open t (c_fd c) text pos k Ht). run. unfold wzd_cache_gets.
  destruct (drop pos text) as [|x s] eqn:Es.
  { rewrite take_nil. cbn [length Nat.eqb]. by rewrite Nat.add_0_r, insert_id. }
  destruct (Nat.eqb_spec (length (take k (x :: s))) 0) as [E|_]; [rewrite length_take in E; cbn [length] in E; lia|].
  rewrite (cache_gets_loop_refines size _ _ k _ text (pos + length (take k (x :: s)))%nat).
  - run. rewrite <- drop_drop, Es, take_rest. destruct (gets_split (size - 1) (x :: s)) as [Hsp _].
    destruct (gets (size - 1) (x :: s)) as [line rest]. cbn [fst snd] in *. unfold sys_seek. rewrite lookup_insert_eq. run. cbn [fst].
    rewrite insert_insert_eq. split; [done|]. rewrite <- drop_drop, Es, <- Hsp. by rewrite drop_app_length.
  - by rewrite lookup_insert_eq.
  - rewrite length_take. lia.
  - done.
  - rewrite length_take. intros Hl. apply drop_ge. assert (length (drop pos text) = length (x :: s)) as Hd by (by rewrite Es). rewrite length_drop in Hd. lia.
Qed.

Definition demo_text : bytes := str "ab" ++ [LF] ++ str "cd".


(** *** Reading line by line *)

(** [while (wzd_cache_gets(fp,buf,size)) ...] *)
Fixpoint all_lines (fuel : nat) (t : fds) (c : wzd_cache_t) (size : nat) : outcome (list bytes * fds) :=
  match fuel with
  | O => Crash
  | S fuel =>
    '(r, t) ← cache_gets t (Some c) size;
    match r with
    | None => Val ([], t)
    | Some (line, c) => '(ls, t) ← all_lines fuel t c size; Val (line :: ls, t)
    end
  end.

Lemma all_lines_text fuel t c size text pos :
  (1 < size)%nat → t !! c_fd c = Some (text, pos) → (pos ≤ length text)%nat → (length text - pos < fuel)%nat →
  ∃ ls p, all_lines fuel t c size = Val (ls, <[c_fd c := (text, p)]> t) ∧ concat ls = drop pos text ∧ Forall (λ l, 0 < length l < size)%nat ls.
Proof.
  intros Hs. revert t c pos. induction fuel as [|fuel IH]; intros t c pos Ht Hp Hf; [lia|]. cbn [all_lines].
  pose proof (cache_gets_refines t c size text pos ltac:(lia) Ht) as Hg. unfold wzd_cache_gets in Hg. destruct (drop pos text) as [|x s] eqn:Es.
  { rewrite Hg. run. exists [], pos. by rewrite insert_id. }
  destruct (gets_split (size - 1) (x :: s)) as [Hsp Hlen]. destruct (gets (size - 1) (x :: s)) as [line rest] eqn:Eg. destruct Hg as [Hg Hr]. rewrite Hg. run.
  assert (Hne : line ≠ []) by (replace (size - 1)%nat with (S (size - 2)) in Eg by lia; cbn [gets] in Eg; case_bool_decide; [|destruct (gets (size - 2) s)]; by simplify_eq).
  assert (Hd : length (drop pos text) = length (x :: s)) by (by rewrite Es). rewrite length_drop in Hd. cbn [fst snd] in *.
  assert (Hll : (0 < length line ≤ length (x :: s))%nat) by (rewrite <- Hsp, length_app; destruct line; [done|cbn; lia]).
  edestruct (IH (<[c_fd c := (text, (pos + length line)%nat)]> t) (mkCache (current_location c + Z.of_nat (length (cstring line))) (c_fd c) (c_use c) (c_datasize c)))
    as (ls & p & Hal & Hc & Hls); [by rewrite lookup_insert_eq|lia|lia|]. cbn [c_fd] in *. rewrite Hal. run.
  exists (line :: ls), p. rewrite insert_insert_eq. split_and!; [done| |constructor; [lia|done]]. cbn [concat]. by rewrite Hc, <- Hr.
Qed.

Lemma fs_open_fresh files t file fd t' : fs_open files t file = Some (fd, t') →
  ∃ text, files file = Some text ∧ t !! fd = None ∧ t' = <[fd := (text, 0%nat)]> t.
Proof.
  unfold fs_open. destruct (files file) as [text|]; [|done]. cbn. intros [= <- <-]. exists text. split_and!; [done| |done].
  apply not_elem_of_dom, is_fresh.
Qed.

(** C40. A file that is opened, read with [wzd_cache_gets] until there is no more,
    and closed: the loop ends, the pieces put together are the text of the file,
    each fits in the buffer it is read into, and no descriptor is left open or
    closed by mistake. *)
Theorem file_lines files t file text size :
  files file = Some text → (1 < size)%nat →
  ∃ c t' ls, wzd_cache_open files t (Some file) = Val (Some c, t') ∧ concat ls = text ∧ Forall (λ l, 0 < length l < size)%nat ls ∧
    ∃ t'', all_lines (S (length text)) t' c size = Val (ls, t'') ∧ wzd_cache_close t'' (Some c) = t.
Proof.
  intros Hf Hs. unfold wzd_cache_open. destruct (fs_open files t file) as [[fd t']|] eqn:Eo; [|unfold fs_open in Eo; by rewrite Hf in Eo].
  destruct (fs_open_fresh _ _ _ _ _ Eo) as (text' & Hf' & Hfd & ->). rewrite Hf in Hf'. injection Hf' as <-.
  unfold sys_fstat_size. rewrite lookup_insert_eq. run. eexists _, _.
  edestruct (all_lines_text (S (length text)) (<[fd := (text, 0%nat)]> t) (mkCache 0 fd 1 (Z.of_nat (length text))) size text 0) as (ls & p & Hal & Hc & Hls);
    [done|by rewrite lookup_insert_eq|lia|lia|].
  exists ls. split_and!; [done|done|done|]. eexists. split; [done|]. cbn [wzd_cache_close c_use c_fd]. change ((1 - 1) mod 2 ^ 16 =? 0) with true. cbv iota.
  unfold sys_close. by rewrite insert_insert_eq, delete_insert_id.
Qed.

Lemma file_lines_witness :
  ∃ c t' ls, wzd_cache_open (λ _, Some demo_text) ∅ (Some (str "f")) = Val (Some c, t') ∧ concat ls = demo_text ∧ Forall (λ l, 0 < length l < 100)%nat ls ∧
    ∃ t'', all_lines (S (length demo_text)) t' c 100 = Val (ls, t'') ∧ wzd_cache_close t'' (Some c) = ∅.
Proof. apply (file_lines (λ _, Some demo_text) ∅ (str "f") demo_text 100); [reflexivity|lia]. Defined.

(** [wzd_cache_read_file_fast] gives the whole file, or fails, and closes it in
    every case. *)
Lemma read_file_fast_correct malloc files t file :
  wzd_cache_read_file_fast malloc files t file =
    Val (match files file with Some text => if malloc && (Z.of_nat (length text) <=? INT_MAX) then Some text else None | None => None end, t).
Proof.
  unfold wzd_cache_read_file_fast, wzd_cache_open. destruct (fs_open files t file) as [[fd t']|] eqn:Eo.
  2:{ unfold fs_open in Eo. destruct (files file); done. }
  destruct (fs_open_fresh _ _ _ _ _ Eo) as (text & -> & Hfd & ->). unfold sys_fstat_size. rewrite lookup_insert_eq. run. cbn [fst wzd_cache_getsize c_datasize].
  assert (Hclose : ∀ loc size pos, wzd_cache_close (<[fd := (text, pos)]> t) (Some (mkCache loc fd 1 size)) = t).
  { intros. cbn [wzd_cache_close c_use c_fd]. change ((1 - 1) mod 2 ^ 16 =? 0) with true. cbv iota. unfold sys_close. by rewrite delete_insert_id. }
  destruct (Z.ltb_spec INT_MAX (Z.of_nat (length text))) as [Hb|Hb].
  { rewrite (proj2 (Z.leb_gt _ _)) by lia. rewrite andb_false_r. f_equal. f_equal. apply Hclose. }
  rewrite (proj2 (Z.leb_le _ _)) by lia. rewrite andb_true_r. destruct malloc; cbn [negb]; [|f_equal; f_equal; apply Hclose].
  unfold wzd_cache_read, sys_read. cbn [c_fd]. rewrite lookup_insert_eq. run. cbn [fst snd]. rewrite u32_small by (unfold INT_MAX in Hb; lia).
  rewrite Nat2Z.id. change (drop 0 text) with text. rewrite take_ge by lia. rewrite insert_insert_eq, Nat.eqb_refl. cbn [negb]. f_equal. f_equal. destruct (0 <? _); apply Hclose.
Qed.
