(* ===== verification/Events.v ===== *)
(** * Events and external commands: libwzd-core/wzd_events.c and the hooks of
    libwzd-core/wzd_mod.c

    Callbacks and external commands connected to events, the arguments they get,
    and how a command line becomes a file sent to the client, a call of a protocol
    of a module, or a process: its special characters are escaped, and the line is
    cut into arguments. What callbacks, modules and processes answer is a
    parameter, and so are the cookies of templates; the calls are recorded.
    On Unix. *)
From S2P Require Import Prelude Inet Path Str.

Abbreviation bytes := (list ascii).

(** ** Event identifiers *)

Definition EVENT_OK : Z := 0.
Definition EVENT_ERROR : Z := 255.

Definition event_tab : list (Z * bytes) :=
  [(0x1, str "LOGIN"); (0x2, str "LOGOUT"); (0x10, str "PREUPLOAD"); (0x20, str "POSTUPLOAD");
   (0x20000, str "POSTUPLOAD_DENIED"); (0x40, str "PREDOWNLOAD"); (0x80, str "POSTDOWNLOAD");
   (0x100, str "PREMKDIR"); (0x200, str "MKDIR"); (0x800, str "RMDIR"); (0x2000, str "DELE");
   (0x40000, str "PRERENAME"); (0x80000, str "POSTRENAME"); (0x10000, str "SITE"); (0x8000, str "WIPE"); (0x4000, str "PREWIPE")].

Fixpoint find_mask (mask : Z) (tab : list (Z * bytes)) : option bytes :=
  match tab with [] => None | (m, n) :: tab => if m =? mask then Some n else find_mask mask tab end.
Fixpoint find_name (s : bytes) (tab : list (Z * bytes)) : Z :=
  match tab with [] => 0 | (m, n) :: tab => if strcaseeq s n then m else find_name s tab end.
Definition event2str (mask : Z) : option bytes := find_mask mask event_tab.
Definition str2event (s : bytes) : Z := find_name s event_tab.

(** ** Lists of hooks *)

(** A function is an identifier. *)
Record wzd_hook_t := mkHook { hk_mask : Z; hk_hook : option nat; hk_opt : option bytes; hk_command : option bytes }.

(** [malloc] says whether there is memory. *)
Definition hook_add (malloc : bool) (hook_list : list wzd_hook_t) (mask : Z) (hook : option nat) : Z * list wzd_hook_t :=
  if malloc then (0, hook_list ++ [mkHook mask hook None None]) else (1, hook_list).

Definition hook_add_external (malloc : bool) (hook_list : list wzd_hook_t) (mask : Z) (command : bytes) : Z * list wzd_hook_t :=
  if malloc then (0, hook_list ++ [mkHook mask None None (Some command)]) else (1, hook_list).

Fixpoint hook_unlink (hook_list : list wzd_hook_t) (mask : Z) (hook : nat) : option (list wzd_hook_t) :=
  match hook_list with
  | [] => None
  | h :: l => if (hk_mask h =? mask) && bool_decide (hk_hook h = Some hook) then Some l else cons h <$> hook_unlink l mask hook
  end.
Definition hook_remove (hook_list : list wzd_hook_t) (mask : Z) (hook : option nat) : Z * list wzd_hook_t :=
  match hook with
  | None => (1, hook_list)
  | Some f => match hook_unlink hook_list mask f with Some l => (0, l) | None => (1, hook_list) end
  end.
Definition hook_free (hook_list : list wzd_hook_t) : list wzd_hook_t := [].

(** ** Protocols *)

Record protocol_handler_t := mkProto { p_sig : bytes; p_siglen : nat; p_handler : nat }.

(** The signature has at least [sig_len] bytes. *)
Definition hook_add_protocol (l : list protocol_handler_t) (signature : option bytes) (sig_len : nat) (handler : option nat) : Z * list protocol_handler_t :=
  match signature, handler with
  | Some s, Some h => if (sig_len =? 0)%nat then (-1, l) else (0, mkProto (take sig_len s) sig_len h :: l)
  | _, _ => (-1, l)
  end.
Definition hook_free_protocols (l : list protocol_handler_t) : list protocol_handler_t := [].

Fixpoint hook_check_protocol (l : list protocol_handler_t) (s : bytes) : option protocol_handler_t :=
  match l with
  | [] => None
  | p :: l => if streq (take (p_siglen p) s) (take (p_siglen p) (p_sig p)) then Some p else hook_check_protocol l s
  end.

(** ** Command lines *)

Definition BACKSLASH : ascii := ascii_of_nat 92.
Definition QUOTE : ascii := ascii_of_nat 34.

Definition specials : bytes := str "$|;!`()'#,:*?{}[]&<>~".

(** The loop of [_cleanup_shell_command]: what it writes from the index [j] on, when
    the line goes on with [s]. *)
Fixpoint escape (length : nat) (j : nat) (s : bytes) : bytes :=
  match s with
  | [] => []
  | c :: s =>
    if (length <=? j)%nat then []
    else if bool_decide (c ∈ specials) then
      if (length <=? j + 1)%nat then [] else BACKSLASH :: c :: escape length (j + 2) s
    else c :: escape length (j + 1) s
  end.

(** The string in the buffer of [length] bytes afterwards: when all of them are
    used, it is not terminated. *)
Definition _cleanup_shell_command (s : bytes) (size : nat) : outcome bytes :=
  let buf2 := escape size 0 s in
  if (length buf2 <? size)%nat then Val buf2 else Crash.

(** [_argv_chr_is_escape]: the character before is a backslash. *)
Definition is_escape (prev : option ascii) : bool := bool_decide (prev = Some BACKSLASH).

(** The character [c], after [p1], which is after [p2]. *)
Definition _argv_add_char (token : option bytes) (c : ascii) (p1 p2 : option ascii) : option bytes :=
  let t := default [] token in
  if negb (is_escape p1) && bool_decide (c = BACKSLASH) then Some t
  else if is_escape p2 && is_escape p1 && bool_decide (c = BACKSLASH) then Some t
  else Some (t ++ [c]).

Definition is_blank (c : ascii) : bool := bool_decide (c = TAB) || bool_decide (c = " "%char).

(** An argument that was not begun is a null pointer. *)
Fixpoint argv_loop (s : bytes) (p1 p2 : option ascii) (token : option bytes) (quote : bool) (argv : list (option bytes)) : list (option bytes) :=
  match s with
  | [] => match token with Some t => argv ++ [Some t] | None => argv end
  | c :: s =>
    let next := argv_loop s (Some c) p1 in
    let is_quote := negb (is_escape p1) && bool_decide (c = QUOTE) in
    if is_quote && negb quote then next token true argv
    else
      let quote' := if is_quote then false else quote in
      if is_quote || (is_blank c && bool_decide (is_Some token) && negb quote') then next None quote' (argv ++ [token])
      else if is_blank c && bool_decide (token = None) && negb quote' then next token quote' argv
      else next (_argv_add_char token c p1 p2) quote' argv
  end.
Definition _argv_parse (command : bytes) : list (option bytes) := argv_loop command None None None false [].

(** What the program gets: the arguments before the first null pointer; there is
    no call without a first one. *)
Fixpoint arguments (argv : list (option bytes)) : list bytes :=
  match argv with Some a :: argv => a :: arguments argv | _ => [] end.
Definition my_spawn_nowait (command : bytes) : option (list bytes) :=
  match arguments (_argv_parse command) with [] => None | argv => Some argv end.

(** ** Calls *)

Inductive action :=
  | Callback (f : nat) (args : bytes)
  | Protocol (p : nat) (command args : option bytes)
  | Spawned (argv : option (list bytes))     (** a process, by [wzd_popen] *)
  | Popen (line : bytes)                     (** a process of the shell *)
  | SendRaw (text : bytes)
  | SendTemplate (text : bytes)              (** its cookies are replaced *)
  | Replied (code : Z) (text : bytes).

(** What is outside: the answers may depend on all that was done before. *)
Record world := mkWorld {
  callback : list action → nat → bytes → Z;
  protocol : list action → nat → option bytes → option bytes → Z;
  pipes : list action → bool;                            (** [pipe] succeeds *)
  program : list action → option (list bytes) → list bytes * Z;  (** the lines written and the status of [waitpid], 255 after a signal *)
  shell : list action → bytes → option Z;                (** [popen] and [pclose] *)
  cookies : bytes → nat → bytes;                         (** the text written in a buffer of that size *)
  contents : bytes → option bytes;                       (** of a file *)
  context_user : bool;                                   (** the user of the context exists *)
  protocols : list protocol_handler_t;
  stack : bytes                                          (** what is in memory *) }.

Definition E (A : Type) : Type := list action → outcome (A * list action).
#[global] Instance E_ret : MRet E := λ A a h, Val (a, h).
#[global] Instance E_bind : MBind E := λ A B f m h, match m h with Val (a, h') => f a h' | Crash => Crash end.

Definition act (a : action) : E () := λ h, Val (tt, h ++ [a]).
Definition asks {A} (f : list action → A) : E A := λ h, Val (f h, h).
Definition must {A} (o : outcome A) : E A := λ h, a ← o; Val (a, h).

Section events.
  Context (w : world).

Definition call (p : protocol_handler_t) (command args : option bytes) : E Z :=
  r ← asks (λ h, protocol w h (p_handler p) command args);
  act (Protocol (p_handler p) command args);; mret r.

(** The file is read as a whole. *)
Definition _event_print_file (filename : bytes) : E Z :=
  if negb (context_user w) then must Crash else
  match contents w filename with
  | None => act (SendRaw (str "200 Inexistant file" ++ [CR; LF]));; mret EVENT_ERROR
  | Some text =>
    if 2 ^ 31 - 1 <? Z.of_nat (length text) then act (SendRaw (str "200 Internal error" ++ [CR; LF]));; mret EVENT_ERROR else
    act (SendRaw (str "200-" ++ [CR; LF]));;
    act (SendTemplate (cstring text));;
    act (SendRaw (str "200 Command OK" ++ [CR; LF]));;
    mret EVENT_OK
  end.

Fixpoint send_lines (lines : list bytes) : E () :=
  match lines with [] => mret tt | l :: lines => act (SendRaw l);; send_lines lines end.

Definition _event_exec_shell (commandline : bytes) : E Z :=
  ok ← asks (pipes w);
  if negb ok then mret EVENT_ERROR else
  let argv := my_spawn_nowait commandline in
  r ← asks (λ h, program w h argv);
  act (Spawned argv);; send_lines r.1;; mret r.2.

Definition event_exec (commandline : bytes) : E Z :=
  buffer ← must (buf_str (wzd_strncpy (stack w) commandline 1024));
  match buffer with
  | "!"%char :: name => _event_print_file name
  | _ =>
    match hook_check_protocol (protocols w) buffer with
    | Some p =>
      match drop (p_siglen p) buffer with
      | q :: rest =>
        if bool_decide (q = QUOTE) || bool_decide (q = "'"%char) then
          if bool_decide (q ∈ rest) then
            let '(command, args) := take_until (λ c, bool_decide (c = q)) rest in call p (Some command) (Some (skip_while is_blank args))
          else mret EVENT_ERROR
        else let '(command, args) := strtok is_blank (q :: rest) in call p command (Some args)
      | [] => call p None (Some [])
      end
    | None =>
      line ← must (_cleanup_shell_command buffer 1024);
      ret ← _event_exec_shell line;
      (if ret =? 0 then mret tt else act (Replied 501 (str "Error during external command")));;
      mret ret
    end
  end.

(** ** Connecting and sending events *)

Record wzd_event_t := mkEvent { ev_id : Z; ev_callback : option nat; ev_command : option bytes; ev_params : option bytes }.

Definition event_mgr_init : list wzd_event_t := [].
Definition event_connect_function (mgr : list wzd_event_t) (event_id : Z) (f : option nat) (params : option bytes) : list wzd_event_t :=
  mgr ++ [mkEvent event_id f None params].
Definition event_connect_external (mgr : list wzd_event_t) (event_id : Z) (command params : option bytes) : list wzd_event_t :=
  mgr ++ [mkEvent event_id None command params].

Definition ARGS_LEN : nat := 4096.

(** [buffer_args]. *)
Definition sent_params (params : option bytes) : bytes := match params with Some p => chop (cookies w p ARGS_LEN) | None => [] end.

Definition strcat (buf text : bytes) : outcome bytes := r ← strlcat buf text (Z.of_nat ARGS_LEN); Val r.1.

(** [fixed_args]. The length is not made smaller after the name of the command:
    [args] is at its end, where there is an empty string. *)
Definition event_args (fixed_args : bytes) (ev : wzd_event_t) (params : option bytes) : outcome bytes :=
  buf ← buf_set fixed_args 0 NUL;
  start ← match ev_command ev with
          | Some command =>
            b ← mem_strncpy buf command (Z.of_nat ARGS_LEN);
            b ← strcat b (str " ");
            s ← buf_str b;
            Val (b, length s)
          | None => Val (buf, 0%nat)
          end;
  let '(buf, args) := start in
  buf ← match ev_params ev with
        | Some p =>
          let text := cookies w p ARGS_LEN in
          b ← mem_write buf (Z.of_nat args) (text ++ [NUL]);
          b ← mem_write b (Z.of_nat args) (chop text ++ [NUL]);
          match params with
          | Some _ => b ← strcat b (str " "); strcat b (sent_params params)
          | None => Val b
          end
        | None =>
          match params with
          | Some _ =>
            s ← buf_str buf;
            b ← (if bool_decide (s = []) then Val buf else strcat buf (str " "));
            strcat b (sent_params params)
          | None => Val buf
          end
        end;
  buf_str buf.

(** The array [fixed_args] is used again for each event. *)
Fixpoint send_loop (mgr : list wzd_event_t) (event_id : Z) (fixed_args : bytes) (params : option bytes) (ret : Z) : E Z :=
  match mgr with
  | [] => mret ret
  | ev :: mgr =>
    if Z.land (ev_id ev) event_id =? 0 then send_loop mgr event_id fixed_args params ret else
    args ← must (event_args fixed_args ev params);
    ret ← match ev_callback ev with
          | Some f => r ← asks (λ h, callback w h f args); act (Callback f args);; mret r
          | None => event_exec args
          end;
    if negb (ret =? EVENT_OK) then mret ret else send_loop mgr event_id fixed_args params ret
  end.

Definition event_send (mgr : list wzd_event_t) (event_id : Z) (params : option bytes) : E Z :=
  if negb (context_user w) then mret (-1) else
  send_loop mgr event_id (take ARGS_LEN (stack w ++ replicate ARGS_LEN NUL)) params EVENT_OK.

(** ** Hooks with a command *)

(** A job of the crontab has no context. *)
Definition hook_call_external (in_context : bool) (hook : wzd_hook_t) : E Z :=
  match hk_command hook with
  | None => mret 1
  | Some command =>
    if (1022 <=? length command)%nat then mret 1 else
    if in_context && negb (context_user w) then must Crash else
    let buffer := chop (cookies w command 1024) in
    match hook_check_protocol (protocols w) buffer with
    | Some p =>
      let after := drop (p_siglen p) buffer in
      match after with
      | q :: rest =>
        if bool_decide (q = QUOTE) then
          if bool_decide (QUOTE ∈ rest) then
            let '(cmd, args) := take_until (λ c, bool_decide (c = QUOTE)) rest in
            call p (Some cmd) (Some (match args with " "%char :: args => args | _ => args end))
          else must Crash
        else
          if bool_decide (" "%char ∈ after) then
            let '(cmd, args) := take_until (λ c, bool_decide (c = " "%char)) after in call p (Some cmd) (Some args)
          else call p (Some after) None
      | [] => call p (Some []) None
      end
    | None =>
      line ← must (_cleanup_shell_command buffer 1024);
      r ← asks (λ h, shell w h line);
      match r with None => mret 1 | Some status => act (Popen line);; mret status end
    end
  end.
End events.

(** ** A command line is cut into the arguments it was made of *)

(** A character that is neither a blank, a quote nor a backslash. *)
Definition plain (c : ascii) : bool := negb (is_blank c || bool_decide (c = QUOTE) || bool_decide (c = BACKSLASH)).
Definition escaped (s : bytes) : bytes := concat (map (λ c, if bool_decide (c ∈ specials) then [BACKSLASH; c] else [c]) s).

Lemma escape_all size j s : (j + length (escaped s) < size)%nat → escape size j s = escaped s.
Proof.
  revert j. induction s as [|c s IH]; intros j Hj; [done|]. unfold escaped in *. cbn [map concat] in *. rewrite length_app in Hj. cbn [escape].
  case_bool_decide; cbn [length app] in *; rewrite ?(proj2 (Nat.leb_gt _ _)) by lia; rewrite IH by lia; done.
Qed.

Lemma cleanup_escapes s size : (length (escaped s) < size)%nat → _cleanup_shell_command s size = Val (escaped s).
Proof. intros Hs. unfold _cleanup_shell_command. rewrite escape_all by done. by rewrite (proj2 (Nat.ltb_lt _ _)). Qed.

Lemma escaped_app s t : escaped (s ++ t) = escaped s ++ escaped t.
Proof. unfold escaped. by rewrite map_app, concat_app. Qed.

Lemma specials_plain : Forall (λ c, plain c = true) specials.
Proof. by repeat constructor. Qed.

Lemma plain_inv c : plain c = true → is_blank c = false ∧ bool_decide (c = QUOTE) = false ∧ bool_decide (c = BACKSLASH) = false.
Proof. unfold plain. by destruct (is_blank c), (bool_decide (c = QUOTE)), (bool_decide (c = BACKSLASH)). Qed.

(** A plain character that is not escaped goes to the argument. *)
Lemma argv_plain c s p1 p2 token argv : plain c = true →
  argv_loop (c :: s) p1 p2 token false argv = argv_loop s (Some c) p1 (Some (default [] token ++ [c])) false argv.
Proof.
  intros Hc. destruct (plain_inv c Hc) as (Hb & Hq & Hs). cbn [argv_loop]. rewrite Hq, Hb, !andb_false_r. cbn [andb orb negb].
  unfold _argv_add_char. by rewrite Hs, !andb_false_r.
Qed.

Lemma argv_backslash s p1 p2 token argv : is_escape p1 = false →
  argv_loop (BACKSLASH :: s) p1 p2 token false argv = argv_loop s (Some BACKSLASH) p1 (Some (default [] token)) false argv.
Proof. intros H1. cbn [argv_loop]. unfold _argv_add_char. rewrite H1. reflexivity. Qed.

Lemma plain_not_escape c : plain c = true → is_escape (Some c) = false.
Proof. intros Hc. destruct (plain_inv c Hc) as (_ & _ & Hs). apply bool_decide_eq_false in Hs. apply bool_decide_eq_false. congruence. Qed.

Lemma argv_word wd rest p1 p2 token argv :
  Forall (λ c, plain c = true) wd → is_escape p1 = false →
  ∃ p1' p2', is_escape p1' = false ∧ argv_loop (escaped wd ++ rest) p1 p2 token false argv =
    argv_loop rest p1' p2' (match wd with [] => token | _ => Some (default [] token ++ wd) end) false argv.
Proof.
  intros Hw. revert p1 p2 token. induction Hw as [|c wd Hc Hw IH]; intros p1 p2 token H1; [by exists p1, p2|].
  unfold escaped. cbn [map concat]. fold (escaped wd). rewrite <- app_assoc.
  assert (Hgo : ∃ p1' p2', is_escape p1' = false ∧ argv_loop ((if bool_decide (c ∈ specials) then [BACKSLASH; c] else [c]) ++ escaped wd ++ rest) p1 p2 token false argv =
      argv_loop (escaped wd ++ rest) p1' p2' (Some (default [] token ++ [c])) false argv).
  { case_bool_decide; cbn [app]; rewrite ?argv_backslash, argv_plain by done; eexists _, _; (split; [by apply plain_not_escape|reflexivity]). }
  destruct Hgo as (q1 & q2 & Hq & ->). destruct (IH q1 q2 (Some (default [] token ++ [c])) Hq) as (p1' & p2' & Hp & ->).
  exists p1', p2'. split; [done|]. f_equal. destruct wd; [done|]. cbn [default from_option id]. by rewrite <- app_assoc.
Qed.

Lemma argv_words words p1 p2 argv :
  words ≠ [] → Forall (λ wd, wd ≠ [] ∧ Forall (λ c, plain c = true) wd) words → is_escape p1 = false →
  argv_loop (escaped (join " "%char words)) p1 p2 None false argv = argv ++ map Some words.
Proof.
  intros Hne Hw. revert p1 p2 argv. induction Hw as [|wd words [Hwd Hp] Hw IH]; intros p1 p2 argv H1; [done|]. destruct words as [|wd' words].
  - cbn [join map]. rewrite <- (app_nil_r (escaped wd)). destruct (argv_word wd [] p1 p2 None argv Hp H1) as (? & ? & _ & ->). by destruct wd.
  - change (join " "%char (wd :: wd' :: words)) with (wd ++ " "%char :: join " "%char (wd' :: words)). rewrite escaped_app.
    destruct (argv_word wd (escaped (" "%char :: join " "%char (wd' :: words))) p1 p2 None argv Hp H1) as (p1' & p2' & Hp' & ->).
    change (escaped (" "%char :: ?x)) with (" "%char :: escaped x). destruct wd as [|c wd]; [done|]. cbn [default from_option id app argv_loop].
    change (bool_decide (" "%char = QUOTE)) with false. rewrite andb_false_r. cbn [andb orb negb]. change (is_blank " ") with true.
    rewrite bool_decide_eq_true_2 by done. cbn [andb negb]. rewrite (IH ltac:(done)) by done. by rewrite <- app_assoc.
Qed.

(** C10. Special characters in the arguments of an external command reach the
    program as they are: for words without blanks, quotes and backslashes, the line
    made of them is escaped by [_cleanup_shell_command], and [_argv_parse] cuts the
    escaped line into the same words. *)
Theorem command_line_roundtrip words size :
  words ≠ [] → Forall (λ wd, wd ≠ [] ∧ Forall (λ c, plain c = true) wd) words →
  (length (escaped (join " "%char words)) < size)%nat →
  ∃ line, _cleanup_shell_command (join " "%char words) size = Val line ∧ my_spawn_nowait line = Some words.
Proof.
  intros Hne Hw Hs. rewrite cleanup_escapes by done. eexists. split; [done|]. unfold my_spawn_nowait, _argv_parse.
  rewrite argv_words by done. cbn [app]. assert (Ha : arguments (map Some words) = words) by (clear; induction words as [|wd words IH]; [done|cbn; by rewrite IH]).
  rewrite Ha. by destruct words.
Qed.

Lemma command_line_roundtrip_witness :
  ∃ line, _cleanup_shell_command (join " "%char [str "/bin/echo"; str "a;rm"; str "$(x)|y"]) 1024 = Val line ∧
    my_spawn_nowait line = Some [str "/bin/echo"; str "a;rm"; str "$(x)|y"].
Proof. apply (command_line_roundtrip [str "/bin/echo"; str "a;rm"; str "$(x)|y"] 1024); [done|by repeat constructor|by vm_compute; repeat constructor]. Defined.

(** An empty argument in quotes ends the arguments. *)
Example empty_argument : my_spawn_nowait (str "cmd " ++ [QUOTE; QUOTE] ++ str " more") = Some [str "cmd"].
Proof. reflexivity. Qed.

(** Four backslashes make one. *)
Example four_backslashes : my_spawn_nowait (str "a" ++ replicate 4 BACKSLASH) = Some [str "a" ++ [BACKSLASH]].
Proof. reflexivity. Qed.

(** A backslash is not escaped: before a special character it makes two
    backslashes, and the special character is no more escaped for a shell. *)
Example backslash_unescapes : _cleanup_shell_command (str "x" ++ [BACKSLASH] ++ str ";y") 1024 = Val (str "x" ++ [BACKSLASH; BACKSLASH] ++ str ";y").
Proof. by vm_compute. Qed.

(** A line that needs the whole array when it is escaped is left without an end. *)
Example cleanup_unterminated : _cleanup_shell_command (replicate 16 "a"%char) 16 = Crash ∧ _cleanup_shell_command (replicate 7 ";"%char ++ str "abc") 16 = Crash.
Proof. by vm_compute. Qed.

(** ** The arguments of events *)

(** An array of [ARGS_LEN] bytes that starts with [a]. *)
Definition starts (buf a : bytes) : Prop := ∃ tl, buf = a ++ tl ∧ length buf = ARGS_LEN.
Definition holds (buf a : bytes) : Prop := nul_free a ∧ starts buf (a ++ [NUL]).

Lemma holds_text buf a : holds buf a → buf_str buf = Val a.
Proof. intros (Ha & tl & -> & _). rewrite <- app_assoc. by apply buf_str_held. Qed.

Lemma holds_starts buf a : holds buf a → starts buf a.
Proof. intros (_ & tl & -> & Hl). exists (NUL :: tl). split; [by rewrite <- app_assoc|done]. Qed.

Lemma strcat_holds buf a t : holds buf a → nul_free t → (length a + length t < ARGS_LEN)%nat →
  ∃ b, strcat buf t = Val b ∧ holds b (a ++ t).
Proof.
  intros (Ha & tl & -> & Hl) Ht Hlen. unfold strcat. rewrite <- app_assoc. cbn [app].
  rewrite !length_app in Hl. cbn [length] in Hl. rewrite strlcat_fits by (done || lia). run. eexists. split; [reflexivity|].
  split; [by apply nul_free_app|]. exists (drop (length t) tl). rewrite <- !app_assoc. split; [done|].
  cbn [fst]. rewrite !length_app. cbn [length]. rewrite length_drop. lia.
Qed.

Lemma write_holds buf a t : starts buf a → nul_free a → nul_free t → (length a + length t < ARGS_LEN)%nat →
  ∃ b, mem_write buf (Z.of_nat (length a)) (t ++ [NUL]) = Val b ∧ holds b (a ++ t).
Proof.
  intros (tl & -> & Hl) Ha Ht Hlen. rewrite length_app in Hl. rewrite <- (take_drop (length (t ++ [NUL])) tl).
  assert (Hk : (length (t ++ [NUL]) ≤ length tl)%nat) by (rewrite length_app; simpl; lia).
  rewrite mem_write_app by (rewrite length_take; lia). eexists. split; [reflexivity|]. split; [by apply nul_free_app|].
  exists (drop (length (t ++ [NUL])) tl). split; [by rewrite <- !app_assoc|].
  rewrite length_app in Hk. repeat (rewrite length_app || rewrite length_drop). lia.
Qed.

Lemma chop_prefix t : ∃ rest, t = chop t ++ rest.
Proof.
  unfold chop. assert (Hs : ∀ l, ∃ pre, l = pre ++ skip_while is_eol l).
  { induction l as [|c l [pre IH]]; [by exists []|]. cbn [skip_while]. destruct (is_eol c); [|by exists []]. exists (c :: pre). cbn. by rewrite <- IH. }
  destruct (Hs (reverse t)) as [pre Hp]. exists (reverse pre). rewrite <- reverse_app, <- Hp. by rewrite reverse_involutive.
Qed.

Lemma chop_nul_free t : nul_free t → nul_free (chop t) ∧ (length (chop t) ≤ length t)%nat.
Proof. intros Ht. destruct (chop_prefix t) as [rest Hr]. rewrite Hr in Ht. split; [unfold nul_free in *; set_solver|]. rewrite Hr at 2. rewrite length_app. lia. Qed.

Section delivery.
  Context (w : world).
  (** [cookie_parse_buffer] keeps to the buffer it is given. *)
  Hypothesis cookies_fit : ∀ t n, (0 < n)%nat → nul_free (cookies w t n) ∧ (length (cookies w t n) < n)%nat.

Definition command_prefix (ev : wzd_event_t) : bytes := match ev_command ev with Some c => c ++ str " " | None => [] end.

(** The command, the parameters it was connected with, and those of the event. *)
Definition args_of (ev : wzd_event_t) (params : option bytes) : bytes :=
  let a := command_prefix ev in
  match ev_params ev, params with
  | Some p, Some _ => (a ++ chop (cookies w p ARGS_LEN)) ++ str " " ++ sent_params w params
  | Some p, None => a ++ chop (cookies w p ARGS_LEN)
  | None, Some _ => (a ++ if bool_decide (a = []) then [] else str " ") ++ sent_params w params
  | None, None => a
  end.

(** The texts are shorter than the array. *)
Definition args_fit (ev : wzd_event_t) (params : option bytes) : Prop :=
  nul_free (command_prefix ev) ∧
  (length (command_prefix ev) + match ev_params ev with Some p => length (cookies w p ARGS_LEN) | None => 0 end +
   length (sent_params w params) + 1 < ARGS_LEN)%nat.

Lemma sent_params_nul_free params : nul_free (sent_params w params).
Proof using cookies_fit. destruct params as [p|]; [|apply nul_free_nil]. apply chop_nul_free. apply cookies_fit. unfold ARGS_LEN. lia. Qed.

Lemma event_args_fit fixed ev params :
  length fixed = ARGS_LEN → args_fit ev params → event_args w fixed ev params = Val (args_of ev params).
Proof using cookies_fit.
  intros Hfix [Hnf Hlen]. unfold event_args. destruct fixed as [|c fixed]; [unfold ARGS_LEN in Hfix; discriminate|].
  change (buf_set (c :: fixed) 0 NUL) with (Val (NUL :: fixed)). run.
  assert (H0 : holds (NUL :: fixed) []) by (split; [apply nul_free_nil|exists fixed; by split]).
  assert (Hstart : ∃ b, (match ev_command ev with
     | Some command => b ← mem_strncpy (NUL :: fixed) command (Z.of_nat ARGS_LEN); b ← strcat b (str " "); s ← buf_str b; Val (b, length s)
     | None => Val (NUL :: fixed, 0%nat) end) = Val (b, length (command_prefix ev)) ∧ holds b (command_prefix ev)).
  { unfold command_prefix in *. destruct (ev_command ev) as [cmd|]; [|by eexists].
    assert (Hc : nul_free cmd) by (unfold nul_free in *; set_solver). rewrite length_app in Hlen. change (length (str " ")) with 1%nat in Hlen.
    unfold mem_strncpy. rewrite Nat2Z.id, take_ge by (rewrite length_app; cbn [length]; lia).
    destruct (write_holds (NUL :: fixed) [] cmd (holds_starts _ _ H0) nul_free_nil Hc) as (b & Hb & Hh); [cbn [length]; lia|].
    change (Z.of_nat (length [])) with 0 in Hb. rewrite Hb. run.
    destruct (strcat_holds b cmd (str " ") Hh) as (b' & Hb' & Hh'); [by vm_compute; set_solver|change (length (str " ")) with 1%nat; lia|].
    rewrite Hb'. run. rewrite (holds_text _ _ Hh'). run. by eexists. }
  destruct Hstart as (b & -> & Hb). run. pose proof (sent_params_nul_free params) as Hsn. unfold args_of. cbv zeta.
  set (a := command_prefix ev) in *. set (q := sent_params w params) in *. destruct (ev_params ev) as [p|].
  - destruct (cookies_fit p ARGS_LEN) as [Ht _]; [unfold ARGS_LEN; lia|]. set (t := cookies w p ARGS_LEN) in *. destruct (chop_nul_free t Ht) as [Hcn Hcl].
    destruct (write_holds b a t (holds_starts _ _ Hb) Hnf Ht) as (b1 & -> & Hb1); [lia|]. run.
    assert (Hs1 : starts b1 a) by (destruct (holds_starts _ _ Hb1) as (tl & -> & Hl); exists (t ++ tl); by rewrite app_assoc).
    destruct (write_holds b1 a (chop t) Hs1 Hnf Hcn) as (b2 & -> & Hb2); [lia|]. run. destruct params as [p'|].
    + destruct (strcat_holds b2 (a ++ chop t) (str " ") Hb2) as (b3 & -> & Hb3); [by vm_compute; set_solver|rewrite length_app; change (length (str " ")) with 1%nat; lia|]. run.
      destruct (strcat_holds b3 ((a ++ chop t) ++ str " ") q Hb3 Hsn) as (b4 & -> & Hb4); [rewrite !length_app; change (length (str " ")) with 1%nat; lia|]. run.
      rewrite (holds_text _ _ Hb4). by rewrite app_assoc.
    + run. by rewrite (holds_text _ _ Hb2).
  - destruct params as [p'|]; [|run; by rewrite (holds_text _ _ Hb)]. run. rewrite (holds_text _ _ Hb). run.
    assert (Hsp : ∃ b', (if bool_decide (a = []) then Val b else strcat b (str " ")) = Val b' ∧ holds b' (a ++ if bool_decide (a = []) then [] else str " ")).
    { case_bool_decide as He; [exists b; split; [done|by rewrite app_nil_r]|]. apply strcat_holds; [done|by vm_compute; set_solver|change (length (str " ")) with 1%nat; lia]. }
    destruct Hsp as (b' & -> & Hb'). run.
    destruct (strcat_holds b' _ q Hb' Hsn) as (b4 & -> & Hb4); [|run; by rewrite (holds_text _ _ Hb4)].
    assert (Hl1 : (length (if bool_decide (a = []) then [] else str " ") ≤ 1)%nat) by (case_bool_decide; cbn; lia).
    rewrite length_app. lia.
Qed.

(** ** Sending *)

(** The calls made for events connected to functions, and what they answer when the
    [k]th is made. *)
Definition called (params : option bytes) (ev : wzd_event_t) : action :=
  Callback (default 0%nat (ev_callback ev)) (args_of ev params).
Definition answer (params : option bytes) (h : list action) (l : list wzd_event_t) (k : nat) (ev : wzd_event_t) : Z :=
  callback w (h ++ map (called params) (take k l)) (default 0%nat (ev_callback ev)) (args_of ev params).

Definition matching (event_id : Z) (mgr : list wzd_event_t) : list wzd_event_t := filter (λ ev, Z.land (ev_id ev) event_id ≠ 0) mgr.

Lemma send_loop_calls mgr event_id fixed params ret h :
  length fixed = ARGS_LEN →
  Forall (λ ev, is_Some (ev_callback ev) ∧ args_fit ev params) (matching event_id mgr) →
  ∃ n ret', send_loop w mgr event_id fixed params ret h = Val (ret', h ++ map (called params) (take n (matching event_id mgr))) ∧
    (n ≤ length (matching event_id mgr))%nat ∧
    (∀ k ev, (S k < n)%nat → matching event_id mgr !! k = Some ev → answer params h (matching event_id mgr) k ev = 0) ∧
    (n = 0%nat → ret' = ret) ∧
    (∀ k ev, n = S k → matching event_id mgr !! k = Some ev → answer params h (matching event_id mgr) k ev = ret') ∧
    (n = length (matching event_id mgr) ∨ ret' ≠ 0).
Proof using cookies_fit.
  intros Hf. revert ret h. induction mgr as [|ev mgr IH]; intros ret h Hm.
  { exists 0%nat, ret. cbn. rewrite app_nil_r. split_and!; [done|lia|lia|done|lia|by left]. }
  unfold matching in *. cbn [send_loop]. destruct (Z.eqb_spec (Z.land (ev_id ev) event_id) 0) as [E|E].
  { rewrite filter_cons_False in * by naive_solver. by apply IH. }
  rewrite filter_cons_True in * by done. apply Forall_cons in Hm as [[[f Hc] Hfit] Hm].
  rewrite (event_args_fit fixed ev params Hf Hfit), Hc.
  set (r := callback w h f (args_of ev params)). set (h' := h ++ [called params ev]).
  assert (Hcall : Callback f (args_of ev params) = called params ev) by (unfold called; by rewrite Hc).
  assert (Hr : answer params h (ev :: matching event_id mgr) 0 ev = r) by (unfold answer, r; cbn [take map]; by rewrite Hc, app_nil_r).
  unfold mbind, E_bind, must, asks, act, mret, E_ret. run. fold r. rewrite Hcall. fold h'. destruct (Z.eqb_spec r EVENT_OK) as [Er|Er]; cbn [negb].
  - destruct (IH r h' Hm) as (n & ret' & Hs & Hn & Hz & H0 & Hl & Hend). exists (S n), ret'. rewrite Hs. cbn [take map]. unfold h' in *. rewrite <- app_assoc.
    assert (Hsh : ∀ k e, answer params h (ev :: matching event_id mgr) (S k) e = answer params (h ++ [called params ev]) (matching event_id mgr) k e)
      by (intros k e; unfold answer; cbn [take map]; by rewrite <- app_assoc).
    unfold matching in *. split_and!; [done|cbn [length]; lia| |done| |].
    + intros [|k] e Hk He; [injection He as <-; by rewrite Hr|]. rewrite Hsh. apply Hz; [lia|done].
    + intros k e [= ->] He. destruct k as [|k]; [injection He as <-; rewrite Hr; by rewrite H0|]. rewrite Hsh. by apply (Hl k).
    + destruct Hend as [->|]; [by left|by right].
  - exists 1%nat, r. cbn [take map]. rewrite take_0. cbn [map]. split_and!; [done|cbn [length]; lia|lia|done| |by right].
    intros k e [= <-] He. injection He as <-. done.
Qed.
End delivery.

(** The first [k] of the functions are called in order and answer [EVENT_OK]. *)
Definition all_ok (w : world) (params : option bytes) (h : list action) (l : list wzd_event_t) (k : nat) : Prop :=
  ∀ j ev, (j < k)%nat → l !! j = Some ev → answer w params h l j ev = EVENT_OK.

(** C11. [event_send] answers -1 and calls nothing when the user of the context is
    not there. Otherwise it calls the functions connected to the event in the order
    they were connected, each once and with the command, its own parameters and those of
    the event as its argument: either all of them answer [EVENT_OK] and so does
    [event_send], or those before one do, that one is the last to be called, and
    its answer, another one, is returned. The events are connected to functions,
    and the texts fit the arrays. *)
Theorem events_in_order w mgr event_id params h :
  (∀ t n, (0 < n)%nat → nul_free (cookies w t n) ∧ (length (cookies w t n) < n)%nat) →
  Forall (λ ev, is_Some (ev_callback ev) ∧ args_fit w ev params) (matching event_id mgr) →
  (context_user w = false → event_send w mgr event_id params h = Val (-1, h)) ∧
  (context_user w = true → ∃ n ret,
     event_send w mgr event_id params h = Val (ret, h ++ map (called w params) (take n (matching event_id mgr))) ∧
     (ret = EVENT_OK ∧ n = length (matching event_id mgr) ∧ all_ok w params h (matching event_id mgr) n ∨
      ret ≠ EVENT_OK ∧ ∃ k ev, n = S k ∧ all_ok w params h (matching event_id mgr) k ∧ matching event_id mgr !! k = Some ev ∧
        answer w params h (matching event_id mgr) k ev = ret)).
Proof.
  intros Hc Hm. unfold event_send. split; intros ->; [done|]. cbn [negb].
  destruct (send_loop_calls w Hc mgr event_id (take ARGS_LEN (stack w ++ replicate ARGS_LEN NUL)) params EVENT_OK h) as (n & ret & H1 & H2 & H3 & H4 & H5 & H6).
  { rewrite length_take, length_app, length_replicate. lia. }
  { done. }
  exists n, ret. split; [done|]. destruct (decide (ret = EVENT_OK)) as [E|E]; [left|right].
  - split_and!; [done|by destruct H6 as [H6|[]]|]. intros j ev Hj Hev. destruct (decide (n = S j)) as [->|]; [|apply H3; [lia|done]].
    by rewrite (H5 j ev).
  - split; [done|]. destruct n as [|k]; [by destruct E; apply H4|]. destruct (lookup_lt_is_Some_2 (matching event_id mgr) k) as [ev Hev]; [lia|].
    exists k, ev. split_and!; [done| |done|by apply H5]. intros j e Hj He. apply H3; [lia|done].
Qed.

Definition demo_world : world :=
  mkWorld (λ h f _, if (f =? 2)%nat then 2 else 0) (λ _ _ _ _, 0) (λ _, true) (λ _ _, ([], 0)) (λ _ _, None)
    (λ t n, take (n - 1) (cstring t)) (λ _, None) true [] [].

Lemma demo_cookies t n : (0 < n)%nat → nul_free (cookies demo_world t n) ∧ (length (cookies demo_world t n) < n)%nat.
Proof.
  intros Hn. cbn [cookies demo_world]. split; [|rewrite length_take; lia].
  pose proof (cstring_nul_free t) as Ht. rewrite <- (take_drop (n - 1) (cstring t)) in Ht. unfold nul_free in *. set_solver.
Qed.

Definition demo_events : list wzd_event_t :=
  event_connect_function (event_connect_function (event_connect_function event_mgr_init 0x20 (Some 1%nat) (Some (str "up"))) 0x21 (Some 2%nat) None) 0x20 (Some 3%nat) None.

Lemma events_in_order_witness :
  ∃ n ret, event_send demo_world demo_events 0x20 (Some (str "file")) [] =
      Val (ret, [] ++ map (called demo_world (Some (str "file"))) (take n (matching 0x20 demo_events))) ∧
    (ret = EVENT_OK ∧ n = length (matching 0x20 demo_events) ∧ all_ok demo_world (Some (str "file")) [] (matching 0x20 demo_events) n ∨
     ret ≠ EVENT_OK ∧ ∃ k ev, n = S k ∧ all_ok demo_world (Some (str "file")) [] (matching 0x20 demo_events) k ∧
       matching 0x20 demo_events !! k = Some ev ∧ answer demo_world (Some (str "file")) [] (matching 0x20 demo_events) k ev = ret).
Proof.
  apply (events_in_order demo_world demo_events 0x20 (Some (str "file")) []); [exact demo_cookies| |reflexivity].
  apply (bool_decide_unpack _). by vm_compute.
Defined.

(** The second function denies: the third is not called. *)
Example denied : event_send demo_world demo_events 0x20 (Some (str "file")) [] = Val (2, [Callback 1 (str "up file"); Callback 2 (str "file")]).
Proof. by vm_compute. Qed.

(** Parameters of 4095 characters after a command overrun the array. *)
Example args_overrun : event_args demo_world (replicate 4096 NUL) (mkEvent 1 None (Some (str "cmd")) (Some (replicate 4095 "a"%char))) None = Crash.
Proof. by vm_compute. Qed.
