(* ===== verification/Vars.v ===== *)
(** * Variables: libwzd-core/wzd_vars.c

    Reading and changing the variables of the server, of users and of groups, which
    the SITE commands and the modules do by name, and the table of variables that
    modules share. *)
From S2P Require Import Prelude CList Ip Registry Users Backend Str Config Session SiteUser SiteGroup.

(** ** Variables of the server *)

(** The fields of [wzd_config_t] that are used. *)
Record wzd_config_t := mkConfig {
  cfg_file : option configfile;
  max_threads : Z;
  max_users : Z;
  server_opts : Z;
  loglevel : Z;
  port : Z;
  pasv_low_range : Z;
  pasv_high_range : Z;
  dl_maxspeed : Z;
  ul_maxspeed : Z;
  server_start : Z }.

Definition set_opts (c : wzd_config_t) (o : Z) : wzd_config_t :=
  mkConfig (cfg_file c) (max_threads c) (max_users c) o (loglevel c) (port c) (pasv_low_range c) (pasv_high_range c) (dl_maxspeed c) (ul_maxspeed c) (server_start c).
Definition set_loglevel (c : wzd_config_t) (l : Z) : wzd_config_t :=
  mkConfig (cfg_file c) (max_threads c) (max_users c) (server_opts c) l (port c) (pasv_low_range c) (pasv_high_range c) (dl_maxspeed c) (ul_maxspeed c) (server_start c).
Definition set_limits (c : wzd_config_t) (threads users : Z) : wzd_config_t :=
  mkConfig (cfg_file c) threads users (server_opts c) (loglevel c) (port c) (pasv_low_range c) (pasv_high_range c) (dl_maxspeed c) (ul_maxspeed c) (server_start c).
Definition set_range (c : wzd_config_t) (low high : Z) : wzd_config_t :=
  mkConfig (cfg_file c) (max_threads c) (max_users c) (server_opts c) (loglevel c) (port c) low high (dl_maxspeed c) (ul_maxspeed c) (server_start c).
Definition set_maxspeeds (c : wzd_config_t) (dl ul : Z) : wzd_config_t :=
  mkConfig (cfg_file c) (max_threads c) (max_users c) (server_opts c) (loglevel c) (port c) (pasv_low_range c) (pasv_high_range c) dl ul (server_start c).

Definition CFG_OPT_DENY_ACCESS_FILES_UPLOADED : Z := 0x1.
Definition CFG_OPT_HIDE_DOTTED_FILES : Z := 0x2.
Definition CFG_SET_OPTION (c : wzd_config_t) (opt : Z) : wzd_config_t := set_opts c (Z.lor (server_opts c) opt).
Definition CFG_CLR_OPTION (c : wzd_config_t) (opt : Z) : wzd_config_t := set_opts c (Z.land (server_opts c) (Z.lnot opt)).

(** [%u] and [%d] of 32 bits, and the value of an [int]. *)
Definition s32 (z : Z) : Z := if u32 z <? 2 ^ 31 then u32 z else u32 z - 2 ^ 32.
Definition udec (z : Z) : list ascii := decimal (u32 z).
Definition sdec (z : Z) : list ascii := if z <? 0 then "-"%char :: decimal (- z) else decimal z.

(** [snprintf(data,datalength,...)]: what [data] holds. *)
Definition snprintf (datalength : nat) (text : list ascii) : list ascii := take (datalength - 1) text.

Definition levels : list (list ascii * Z) :=
  [(str "lowest", 0); (str "flood", 1); (str "info", 3); (str "normal", 5); (str "high", 7); (str "critical", 9)].

Definition str2loglevel (s : list ascii) : Z :=
  match list_find (λ l, strcaseeq s l.1) levels with Some (_, (_, l)) => l | None => -1 end.
Definition loglevel2str (l : Z) : list ascii :=
  match list_find (λ x, l = x.2) levels with Some (_, (s, _)) => s | None => [] end.

(** [bandwidth] is what [get_bandwidth] gives, [now] the time. *)
Definition vars_get (bandwidth now : Z) (varname : list ascii) (datalength : nat) (config : option wzd_config_t) : Z * option (list ascii) :=
  match config with
  | None => (1, None)
  | Some c =>
    let eq name := strcaseeq varname (str name) in
    let same name := streq varname (str name) in
    let value text := (0, Some (snprintf datalength text)) in
    if eq "bw" then value (decimal (u64 bandwidth))
    else if same "loglevel" then
      match config_get_value (cfg_file c) (Some (str "GLOBAL")) (Some (str "loglevel")) with
      | Some s => value s | None => value (loglevel2str (loglevel c))
      end
    else if eq "max_users" then value (udec (max_users c))
    else if eq "max_dl" then value (udec (dl_maxspeed c))
    else if eq "max_threads" then value (sdec (max_threads c))
    else if eq "max_ul" then value (udec (ul_maxspeed c))
    else if eq "pasv_low" then value (udec (pasv_low_range c))
    else if eq "pasv_high" then value (udec (pasv_high_range c))
    else if same "port" then
      match config_get_value (cfg_file c) (Some (str "GLOBAL")) (Some (str "port")) with
      | Some s => value s | None => value (udec (port c))
      end
    else if same "uptime" then value (decimal (u64 (now - server_start c)))
    else (1, None)
  end.

Definition vars_set (varname : list ascii) (data : option (list ascii)) (config : option wzd_config_t) : Z * option wzd_config_t :=
  match data, config with
  | Some data, Some c =>
    let eq name := strcaseeq varname (str name) in
    let ok c := (0, Some c) in
    let fails := (1, Some c) in
    let option opt :=
      let ul := (strtoul0 data).1 in
      if ul =? 1 then ok (CFG_SET_OPTION c opt) else if ul =? 0 then ok (CFG_CLR_OPTION c opt) else fails in
    let number (set : Z → wzd_config_t) := match whole_number data with Some ul => ok (set ul) | None => fails end in
    if eq "deny_access_files_uploaded" then option CFG_OPT_DENY_ACCESS_FILES_UPLOADED
    else if eq "hide_dotted_files" then option CFG_OPT_HIDE_DOTTED_FILES
    else if eq "loglevel" then let i := str2loglevel data in if i =? -1 then fails else ok (set_loglevel c i)
    else if eq "max_users" then number (λ ul, set_limits c (max_threads c) (s32 ul))
    else if eq "max_dl" then number (λ ul, set_maxspeeds c (u32 ul) (ul_maxspeed c))
    else if eq "max_threads" then number (λ ul, set_limits c (s32 ul) (max_users c))
    else if eq "max_ul" then number (λ ul, set_maxspeeds c (dl_maxspeed c) (u32 ul))
    else if eq "pasv_low" then
      let ul := (strtoul0 data).1 in
      if (ul <? 65535) && (ul <? pasv_high_range c) then ok (set_range c ul (pasv_high_range c)) else fails
    else if eq "pasv_high" then
      let ul := (strtoul0 data).1 in
      if (ul <? 65535) && (pasv_low_range c <? ul) then ok (set_range c (pasv_low_range c) ul) else fails
    else fails
  | _, _ => (1, config)
  end.

(** ** Variables of users and groups *)

Section accounts.
  Context (b : option wzd_backend_t) (is_dir : list ascii → bool)
    (getipbyname gethostbyaddr : list ascii → option (list ascii)).

Definition vars_user_get (username varname : option (list ascii)) (datalength : nat) : M (Z * option (list ascii)) :=
  match username, varname with
  | Some _, Some varname =>
    p ← getUserByName b username;
    match p with None => mret (1, None) | Some user =>
    u ← user_at user;
    let eq name := strcaseeq varname (str name) in
    let value (text : M (list ascii)) : M (Z * option (list ascii)) := t ← text; mret (0, Some (snprintf datalength t)) in
    if eq "group" then
      value (if 0 <? group_num u then
               g0 ← lift (deref (head (groups u)));
               g ← getGroupByID b g0;
               ga ← lift (deref g);
               gr ← group_at ga;
               lift (buf_str (groupname gr))
             else mret (str "no group"))
    else if eq "home" then value (lift (buf_str (rootpath u)))
    else if eq "max_dl" then value (mret (udec (u_max_dl_speed u)))
    else if eq "max_ul" then value (mret (udec (u_max_ul_speed u)))
    else if eq "credits" then value (mret (decimal (credits u)))
    else if eq "name" then value (lift (buf_str (Users.username u)))
    else if eq "tag" then value (t ← lift (buf_str (u_tagline u)); mret (if bool_decide (t = []) then str "no tagline set" else t))
    else mret (1, None)
    end
  | _, _ => mret (1, None)
  end.

Definition vars_user_addip (username ip : option (list ascii)) : M Z :=
  match username, ip with
  | Some _, Some ip =>
    p ← getUserByName b username;
    match p with None => mret (-1) | Some user =>
    u ← user_at user;
    if negb (ip_inlist getipbyname gethostbyaddr (u_ip_list u) ip =? 0) then mret 1 else
    user_put user (set_u_ip_list u (ip_add_check (u_ip_list u) ip 1).2);;
    modUser b (uid u) (Some user) (2 ^ _USER_IP)
    end
  | _, _ => mret 1
  end.

Definition vars_user_delip (username ip : option (list ascii)) : M Z :=
  match username, ip with
  | Some _, Some ip =>
    p ← getUserByName b username;
    match p with None => mret (-1) | Some user =>
    u ← user_at user;
    r ← match whole_number ip with
        | Some ul =>
          match ip_slot (u_ip_list u) ul with
          | None => mret 2
          | Some e =>
            let '(ret, l) := ip_remove (u_ip_list u) (regexp e) in
            user_put user (set_u_ip_list u l);; mret (if ret =? 0 then 0 else -1)
          end
        | None =>
          let '(ret, l) := ip_remove (u_ip_list u) ip in
          user_put user (set_u_ip_list u l);; mret (if ret =? 0 then 0 else 3)
        end;
    if negb (r =? 0) then mret r else modUser b (uid u) (Some user) (2 ^ _USER_IP)
    end
  | _, _ => mret 1
  end.

(** The change of one field: the kind of modification, or the error. *)
Definition var_text (user : addr) (get : wzd_user_t → list ascii) (set : wzd_user_t → list ascii → wzd_user_t)
    (n : nat) (data : list ascii) (bit : Z) : M (Z + Z) :=
  u ← user_at user; f ← lift (field_strncpy (get u) data n); user_put user (set u f);; mret (inr (2 ^ bit)).

Definition var_number (user : addr) (set : wzd_user_t → Z → wzd_user_t) (data : list ascii) (bit : Z) : M (Z + Z) :=
  match whole_number data with
  | None => mret (inl (-1))
  | Some ul => user_upd user (λ u, set u ul);; mret (inr (2 ^ bit))
  end.

(** The name of the limit of logins per address is misspelt, and a name that is
    unknown changes nothing. *)
Definition user_field (user : addr) (varname data : list ascii) : M (Z + Z) :=
  let same name := streq varname (str name) in
  if same "credits" then
    if negb (starts_with_digit data) then mret (inl (-1)) else var_number user set_credits data _USER_CREDITS
  else if same "flags" then var_text user flags set_flags (MAX_FLAGS_NUM - 1) data _USER_FLAGS
  else if same "home" then
    if negb (is_dir data) then mret (inl 1) else var_text user rootpath set_rootpath WZD_MAX_PATH data _USER_ROOTPATH
  else if same "leech_slots" then var_number user (λ u n, set_leech_slots u (u16 n)) data _USER_LEECHSLOTS
  else if same "max_dl" then var_number user (λ u n, set_max_dl_speed u (u32 n)) data _USER_MAX_DLS
  else if same "max_idle" then var_number user (λ u n, set_max_idle_time u (u32 n)) data _USER_IDLE
  else if same "max_ul" then var_number user (λ u n, set_max_ul_speed u (u32 n)) data _USER_MAX_ULS
  else if same "num_logins" then var_number user (λ u n, set_num_logins u (u16 n)) data _USER_NUMLOGINS
  else if same "logins_per_ip)" then var_number user (λ u n, set_logins_per_ip u (u16 n)) data _USER_LOGINSPERIP
  else if same "pass" then var_text user userpass set_userpass MAX_PASS_LENGTH data _USER_USERPASS
  else if same "perms" then var_number user set_userperms data _USER_PERMS
  else if same "ratio" then var_number user (λ u n, set_ratio u (u32 n)) data _USER_RATIO
  else if same "tag" then var_text user u_tagline set_u_tagline MAX_TAGLINE_LENGTH data _USER_TAGLINE
  else if same "name" then var_text user Users.username set_username HARD_USERNAME_LENGTH data _USER_USERNAME
  else if same "creator" then
    p ← getUserByName b (Some data);
    match p with
    | Some creator => c ← user_at creator; user_upd user (λ u, set_creator u (uid c));; mret (inr (2 ^ _USER_CREATOR))
    | None => mret (inl (-1))
    end
  else if same "user_slots" then var_number user (λ u n, set_user_slots u (u16 n)) data _USER_USERSLOTS
  else mret (inr 0).

Definition vars_user_set (username varname : option (list ascii)) (data : list ascii) : M Z :=
  match username, varname with
  | Some _, Some varname =>
    p ← getUserByName b username;
    match p with None => mret (-1) | Some user =>
    if streq varname (str "addip") then vars_user_addip username (Some data)
    else if streq varname (str "delip") then vars_user_delip username (Some data)
    else
      r ← user_field user varname data;
      match r with
      | inl err => mret err
      | inr mod_type => u ← user_at user; modUser b (uid u) (Some user) mod_type
      end
    end
  | _, _ => mret 1
  end.

(** The error of [user_create], or 0 or 1. *)
Definition vars_user_new (username pass groupname : option (list ascii)) (has_config : bool) : M (wzd_errno_t + Z) :=
  match username, groupname, has_config with
  | Some _, Some _, true =>
    r ← ask (user_create b username pass groupname);
    match r with
    | inl err => mret (inl err)
    | inr u =>
      newuser ← alloc_user u;
      err ← modUser b 0 (Some newuser) _USER_CREATE;
      if negb (err =? 0) then user_free newuser;; mret (inr 1) else mret (inr 0)
    end
  | _, _, _ => mret (inr (-1))
  end.

Definition vars_group_get (groupname varname : option (list ascii)) (datalength : nat) : M (Z * option (list ascii)) :=
  match groupname, varname with
  | Some _, Some varname =>
    p ← getGroupByName b groupname;
    match p with None => mret (1, None) | Some group =>
    g ← group_at group;
    let eq name := strcaseeq varname (str name) in
    let value (text : M (list ascii)) : M (Z * option (list ascii)) := t ← text; mret (0, Some (snprintf datalength t)) in
    if eq "home" then value (lift (buf_str (defaultpath g)))
    else if eq "max_dl" then value (mret (udec (g_max_dl_speed g)))
    else if eq "max_ul" then value (mret (udec (g_max_ul_speed g)))
    else if eq "name" then value (lift (buf_str (Users.groupname g)))
    else if eq "tag" then value (t ← lift (buf_str (g_tagline g)); mret (if bool_decide (t = []) then str "no tagline set" else t))
    else mret (1, None)
    end
  | _, _ => mret (1, None)
  end.

Definition gvar_text (group : addr) (get : wzd_group_t → list ascii) (set : wzd_group_t → list ascii → wzd_group_t)
    (n : nat) (data : list ascii) (bit : Z) : M (option Z) :=
  g ← group_at group; f ← lift (field_strncpy (get g) data n); group_put group (set g f);; mret (Some (2 ^ bit)).

(** A value that is not a number changes nothing, and is no error. *)
Definition gvar_number (group : addr) (set : wzd_group_t → Z → wzd_group_t) (data : list ascii) (bit : Z) : M (option Z) :=
  match whole_number data with
  | None => mret (Some 0)
  | Some ul => group_upd group (λ g, set g ul);; mret (Some (2 ^ bit))
  end.

Definition group_field (group : addr) (varname data : list ascii) : M (option Z) :=
  let same name := streq varname (str name) in
  if same "name" then gvar_text group Users.groupname set_groupname HARD_GROUPNAME_LENGTH data _GROUP_GROUPNAME
  else if same "tag" then gvar_text group g_tagline set_g_tagline MAX_TAGLINE_LENGTH data _GROUP_TAGLINE
  else if same "home" then
    if negb (is_dir data) then mret None else gvar_text group defaultpath set_defaultpath WZD_MAX_PATH data _GROUP_DEFAULTPATH
  else if same "max_idle" then gvar_number group (λ g n, set_g_idle g (u32 n)) data _GROUP_IDLE
  else if same "perms" then gvar_number group set_groupperms data _GROUP_GROUPPERMS
  else if same "flags" then gvar_text group g_flags set_g_flags (MAX_FLAGS_NUM - 1) data _GROUP_FLAGS
  else if same "max_ul" then gvar_number group (λ g n, set_g_max_ul g (u32 n)) data _GROUP_MAX_ULS
  else if same "max_dl" then gvar_number group (λ g n, set_g_max_dl g (u32 n)) data _GROUP_MAX_DLS
  else if same "num_logins" then gvar_number group (λ g n, set_g_num_logins g (u16 n)) data _GROUP_NUMLOGINS
  else if same "ratio" then gvar_number group (λ g n, set_g_ratio g (u32 n)) data _GROUP_RATIO
  else mret (Some 0).

Definition vars_group_set (groupname varname : option (list ascii)) (data : list ascii) : M Z :=
  match groupname, varname with
  | Some _, Some varname =>
    p ← getGroupByName b groupname;
    match p with None => mret (-1) | Some group =>
    r ← group_field group varname data;
    match r with
    | None => mret 2
    | Some mod_type => g ← group_at group; modGroup b (gid g) (Some group) mod_type
    end
    end
  | _, _ => mret 1
  end.

Definition vars_group_new (groupname : option (list ascii)) : M (wzd_errno_t + Z) :=
  r ← ask (group_create b groupname None);
  match r with
  | inl err => mret (inl err)
  | inr g =>
    newgroup ← alloc_group g;
    err ← modGroup b 0 (Some newgroup) _GROUP_CREATE;
    if negb (err =? 0) then group_free newgroup;; mret (inr 1) else mret (inr 0)
  end.
End accounts.

(** ** The table of shared variables *)

Record wzd_shm_vars_t := mkVar { v_key : list ascii; v_data : list ascii }.

(** 32 chains. *)
Abbreviation shm_table := (list (list wzd_shm_vars_t)).
Definition vars_shm_init : shm_table := replicate 32 [].
Definition vars_shm_free (t : shm_table) : shm_table := replicate 32 [].

(** A [char] is signed. *)
Definition _str_hash (key : list ascii) : Z :=
  match key with
  | [] => 0
  | c :: key => fold_left (λ h c, u32 (u32 (u32 (h * 32) - h) + scode c)) key (u32 (scode c))
  end.

Definition shm_index (varname : list ascii) : nat := Z.to_nat (Z.land (Z.shiftr (_str_hash varname) 7) 31).

(** The loop does not go on to the next variable: [None] is no result. *)
Fixpoint shm_find_loop (fuel : nat) (var : list wzd_shm_vars_t) (varname : list ascii) : option (option wzd_shm_vars_t) :=
  match fuel with
  | O => None
  | S fuel =>
    match var with
    | [] => Some None
    | v :: _ => if streq (v_key v) varname then Some (Some v) else shm_find_loop fuel var varname
    end
  end.
Definition vars_shm_find (fuel : nat) (t : shm_table) (varname : list ascii) : option (option wzd_shm_vars_t) :=
  shm_find_loop fuel (nth (shm_index varname) t []) varname.

(** [data] keeps what was in it after the length of the variable. *)
Definition vars_shm_get (fuel : nat) (t : shm_table) (varname data : list ascii) : option (Z * list ascii) :=
  var ← vars_shm_find fuel t varname;
  match var with
  | None => Some (1, data)
  | Some v => let n := Nat.min (length data) (length (v_data v)) in Some (0, take n (v_data v) ++ drop n data)
  end.

(** A shorter value leaves the end of the older one. The variable that is found is
    the first of its chain. *)
Definition vars_shm_set (fuel : nat) (t : shm_table) (varname data : list ascii) : option (Z * shm_table) :=
  var ← vars_shm_find fuel t varname;
  let i := shm_index varname in
  let chain := nth i t [] in
  match var with
  | None => Some (0, <[i := mkVar varname data :: chain]> t)
  | Some v =>
    let d := if (length data <? length (v_data v))%nat then data ++ drop (length data) (v_data v) else data in
    Some (0, <[i := mkVar (v_key v) d :: tail chain]> t)
  end.
