(* ===== verification/VarsProps.v ===== *)
(** * What changing variables does ([Vars])

    Numbers set are the numbers read back, the range of passive ports stays a range,
    and the table of shared variables only works with one variable in each chain. *)
From S2P Require Import Prelude CList Ip Registry Users Backend Str Config Session SiteUser SiteGroup UsersFile UsersFileProps Vars.

Lemma whole_number_decimal n : 0 ≤ n < 2 ^ 64 → whole_number (decimal n) = Some n.
Proof. intros Hn. unfold whole_number. change (decimal n) with (dec n). by rewrite (proj1 (strtoul0_dec n Hn)). Qed.

(** The variables of the server that hold a number. *)
Definition number_vars : list (list ascii) := [str "max_users"; str "max_dl"; str "max_threads"; str "max_ul"].

(** A number below 2^31 that [vars_set] gives to a limit of the server, [vars_get]
    prints again, and the other limits, the range of passive ports and the options
    keep their values. *)
Theorem vars_set_get bandwidth now varname n c :
  varname ∈ number_vars → 0 ≤ n < 2 ^ 31 →
  ∃ c', vars_set varname (Some (decimal n)) (Some c) = (0, Some c') ∧
    vars_get bandwidth now varname 32 (Some c') = (0, Some (decimal n)) ∧
    (∀ v len, v ≠ varname → v ∈ number_vars → vars_get bandwidth now v len (Some c') = vars_get bandwidth now v len (Some c)) ∧
    pasv_low_range c' = pasv_low_range c ∧ pasv_high_range c' = pasv_high_range c ∧ server_opts c' = server_opts c.
Proof.
  intros Hv Hn. pose proof (whole_number_decimal n ltac:(lia)) as Hw.
  assert (Hu : u32 n = n) by (apply u32_small; lia).
  assert (Hs : s32 n = n) by (unfold s32; rewrite Hu; by rewrite (proj2 (Z.ltb_lt _ _)) by lia).
  assert (Hlen : snprintf 32 (decimal n) = decimal n) by (unfold snprintf; apply take_ge; pose proof (proj2 (dec_fits n)); change (decimal n) with (dec n); lia).
  unfold vars_set. rewrite Hw.
  repeat (apply elem_of_cons in Hv as [->|Hv]; [
    eexists; split; [reflexivity|]; split_and!; [cbn -[snprintf decimal udec sdec]; unfold udec, sdec; rewrite ?Hs, ?Hu, ?(proj2 (Z.ltb_ge n 0)) by lia; by rewrite Hlen| |done..];
    intros v len Hne Hin; repeat (apply elem_of_cons in Hin as [->|Hin]; [done|]); by apply elem_of_nil in Hin|]).
  by apply elem_of_nil in Hv.
Qed.

Definition demo_config : wzd_config_t := mkConfig None 64 100 0 5 21 1024 65534 0 0 0.

Lemma vars_set_get_witness :
  ∃ c', vars_set (str "max_dl") (Some (decimal 4096)) (Some demo_config) = (0, Some c') ∧
    vars_get 0 0 (str "max_dl") 32 (Some c') = (0, Some (decimal 4096)) ∧
    (∀ v len, v ≠ str "max_dl" → v ∈ number_vars → vars_get 0 0 v len (Some c') = vars_get 0 0 v len (Some demo_config)) ∧
    pasv_low_range c' = pasv_low_range demo_config ∧ pasv_high_range c' = pasv_high_range demo_config ∧ server_opts c' = server_opts demo_config.
Proof. apply (vars_set_get 0 0 (str "max_dl") 4096 demo_config); [|lia]. unfold number_vars. set_solver. Defined.

(** The range of passive ports stays below 65535, and is never empty. *)
Lemma vars_set_range varname data c r c' :
  vars_set varname data (Some c) = (r, Some c') →
  pasv_low_range c < pasv_high_range c < 65535 → pasv_low_range c' < pasv_high_range c' < 65535.
Proof.
  unfold vars_set. destruct data as [data|]; [|by intros [= <- <-]]. intros H Hr.
  repeat match type of H with
  | (if ?x then _ else _) = _ => destruct x eqn:?
  | (match ?x with Some _ => _ | None => _ end) = _ => destruct x
  end; simplify_eq; try done; cbn;
  match goal with E : _ && _ = true |- _ => apply andb_prop in E as [?%Z.ltb_lt ?%Z.ltb_lt]; lia end.
Qed.

(** The value in the configuration file hides the one that was set. *)
Example level_hidden :
  let c := mkConfig (Some (CFile [CGroup (Some (str "GLOBAL")) None [KV (Some (str "loglevel")) (str "high")]] None None 0)) 64 100 0 5 21 1024 65534 0 0 0 in
  match vars_set (str "loglevel") (Some (str "flood")) (Some c) with
  | (0, c') => vars_get 0 0 (str "loglevel") 32 c' = (0, Some (str "high"))
  | _ => False
  end.
Proof. by vm_compute. Qed.

(** ** The shared variables *)

(** The search returns exactly when the chain of the name is empty or begins with
    the variable of that name. *)
Lemma shm_find_returns t name :
  (∃ fuel r, vars_shm_find fuel t name = Some r) ↔ match nth (shm_index name) t [] with [] => True | v :: _ => v_key v = name end.
Proof.
  unfold vars_shm_find. destruct (nth (shm_index name) t []) as [|v l]; [split; [done|by exists 1%nat, None]|]. split.
  - intros (fuel & r & H). destruct (decide (v_key v = name)) as [|Hne]; [done|exfalso].
    induction fuel as [|fuel IH]; [done|]. cbn [shm_find_loop] in H. rewrite (proj2 (streq_false _ _) Hne) in H. by apply IH.
  - intros Hk. exists 1%nat, (Some v). cbn. by rewrite (proj2 (streq_true _ _) Hk).
Qed.

Lemma shm_find_value fuel t name r :
  vars_shm_find fuel t name = Some r → r = head (nth (shm_index name) t []) ∧ ∀ v, r = Some v → v_key v = name.
Proof.
  unfold vars_shm_find. generalize (nth (shm_index name) t []). intros l. revert r. induction fuel as [|fuel IH]; intros r H; [done|]. cbn [shm_find_loop] in H.
  destruct l as [|v l]; [by injection H as <-|]. destruct (streq (v_key v) name) eqn:E; [|by apply IH].
  injection H as <-. split; [done|]. intros ? [= <-]. by apply streq_true.
Qed.

(** Tables made by calls of [vars_shm_set] that return. *)
Inductive shm_reachable : shm_table → Prop :=
  | shm_start : shm_reachable vars_shm_init
  | shm_next t fuel name data r t' : shm_reachable t → vars_shm_set fuel t name data = Some (r, t') → shm_reachable t'.

(** The variable [v] is alone in the chain of its name. *)
Definition one_each (t : shm_table) : Prop :=
  length t = 32%nat ∧ Forall (λ l, (length l ≤ 1)%nat) t ∧
  ∀ i v, In v (nth i t []) → shm_index (v_key v) = i.

Lemma shm_index_bound name : (shm_index name < 32)%nat.
Proof.
  unfold shm_index. change 31 with (Z.ones 5). rewrite Z.land_ones by lia.
  pose proof (Z.mod_pos_bound (Z.shiftr (_str_hash name) 7) (2 ^ 5) ltac:(lia)). lia.
Qed.

Lemma nth_insert_chain (t : shm_table) i j l : (i < length t)%nat → nth j (<[i := l]> t) [] = if decide (i = j) then l else nth j t [].
Proof.
  intros Hi. rewrite !nth_lookup. case_decide as E; [subst; by rewrite list_lookup_insert_eq|by rewrite list_lookup_insert_ne].
Qed.

Lemma shm_set_one t fuel name data r t' :
  one_each t → vars_shm_set fuel t name data = Some (r, t') →
  r = 0 ∧ one_each t' ∧
  ∃ v, nth (shm_index name) t' [] = [v] ∧ v_key v = name ∧ take (length data) (v_data v) = data ∧
    (∀ j, j ≠ shm_index name → nth j t' [] = nth j t []).
Proof.
  intros (Hl & Hone & Hkey) H. unfold vars_shm_set in H. pose proof (shm_index_bound name) as Hi.
  destruct (vars_shm_find fuel t name) as [var|] eqn:Ef; [|done]. cbn [mbind option_bind] in H.
  destruct (shm_find_value _ _ _ _ Ef) as [Hhd Hk]. set (i := shm_index name) in *.
  assert (Hc : (length (nth i t []) ≤ 1)%nat).
  { rewrite Forall_forall in Hone. apply Hone. rewrite list_elem_of_In. apply nth_In. lia. }
  assert (Hnew : ∃ v, t' = <[i := [v]]> t ∧ r = 0 ∧ v_key v = name ∧ take (length data) (v_data v) = data).
  { destruct (nth i t []) as [|v l] eqn:En.
    - subst var. cbn in H. injection H as <- <-. eexists. split_and!; [done..|]. cbn. by rewrite take_ge.
    - assert (l = []) as -> by (destruct l; [done|cbn in Hc; lia]). subst var. cbn [head tail] in H. injection H as <- <-.
      eexists. split_and!; [done|done|by apply (Hk v eq_refl)|]. cbn [v_data]. destruct (_ <? _)%nat; [by rewrite take_app_length|by rewrite take_ge]. }
  destruct Hnew as (v & -> & -> & Hvk & Hvd). split; [done|]. split; [split_and!|].
  - by rewrite length_insert.
  - apply Forall_insert; [done|cbn; lia].
  - intros j w. rewrite nth_insert_chain by lia. case_decide as E; [|by apply Hkey].
    intros [<-|[]]. rewrite Hvk. exact E.
  - exists v. rewrite nth_insert_chain by lia. rewrite decide_True by done. split_and!; [done..|].
    intros j Hj. rewrite nth_insert_chain by lia. by rewrite decide_False.
Qed.

Lemma shm_reachable_one t : shm_reachable t → one_each t.
Proof.
  induction 1 as [|t fuel name data r t' _ IH H]; [|by apply (shm_set_one _ _ _ _ _ _ IH H)].
  split_and!; [done|by repeat constructor|]. intros i v Hin. unfold vars_shm_init in Hin. exfalso.
  do 32 (destruct i as [|i]; [done|]). by destruct i.
Qed.

(** C39. The search for a shared variable does not go on along its chain. Whatever
    calls of [vars_shm_set] were made before, no chain has two variables; an access
    to a name returns exactly when its chain is empty or holds that name, and for
    another name no amount of time is enough; a value that was set is read back, and
    the variables of the other chains keep theirs. *)
Theorem shm_access_returns t name :
  shm_reachable t →
  ((∃ fuel r, vars_shm_find fuel t name = Some r) ↔ ∀ v, v ∈ nth (shm_index name) t [] → v_key v = name) ∧
  (length (nth (shm_index name) t []) ≤ 1)%nat ∧
  (∀ fuel data r t', vars_shm_set fuel t name data = Some (r, t') →
    r = 0 ∧ (∀ buf, length buf = length data → vars_shm_get 1 t' name buf = Some (0, data)) ∧
    ∀ fuel' other buf, shm_index other ≠ shm_index name → vars_shm_get fuel' t' other buf = vars_shm_get fuel' t other buf).
Proof.
  intros Ht. apply shm_reachable_one in Ht as Hone. pose proof Hone as (Hl & Hle & _). split_and!.
  - rewrite shm_find_returns. assert (Hc : (length (nth (shm_index name) t []) ≤ 1)%nat).
    { rewrite Forall_forall in Hle. apply Hle. rewrite list_elem_of_In. apply nth_In. pose proof (shm_index_bound name). lia. }
    destruct (nth (shm_index name) t []) as [|v [|w l]]; [split; [intros _ v Hv; by apply elem_of_nil in Hv|done]| |cbn in Hc; lia].
    split; [intros Hv w Hw; by apply list_elem_of_singleton in Hw as ->|intros Hv; apply Hv; set_solver].
  - rewrite Forall_forall in Hle. apply Hle. rewrite list_elem_of_In. apply nth_In. pose proof (shm_index_bound name). lia.
  - intros fuel data r t' H. destruct (shm_set_one _ _ _ _ _ _ Hone H) as (-> & _ & v & Hv & Hk & Hd & Hoth). split_and!; [done| |].
    + intros buf Hb. unfold vars_shm_get, vars_shm_find. rewrite Hv. cbn [shm_find_loop]. rewrite (proj2 (streq_true _ _) Hk). cbn [mbind option_bind].
      assert (Hle' : (length data ≤ length (v_data v))%nat) by (rewrite <- Hd at 1; rewrite length_take; lia).
      rewrite Nat.min_l by lia. rewrite Hb, Hd, <- Hb, drop_all, app_nil_r. done.
    + intros fuel' other buf Hne. unfold vars_shm_get, vars_shm_find. by rewrite Hoth.
Qed.

Lemma shm_access_returns_witness :
  ((∃ fuel r, vars_shm_find fuel vars_shm_init (str "tls") = Some r) ↔ ∀ v, v ∈ nth (shm_index (str "tls")) vars_shm_init [] → v_key v = str "tls") ∧
  (length (nth (shm_index (str "tls")) vars_shm_init []) ≤ 1)%nat ∧
  (∀ fuel data r t', vars_shm_set fuel vars_shm_init (str "tls") data = Some (r, t') →
    r = 0 ∧ (∀ buf, length buf = length data → vars_shm_get 1 t' (str "tls") buf = Some (0, data)) ∧
    ∀ fuel' other buf, shm_index other ≠ shm_index (str "tls") → vars_shm_get fuel' t' other buf = vars_shm_get fuel' vars_shm_init other buf).
Proof. apply (shm_access_returns vars_shm_init (str "tls") shm_start). Defined.

(** Two variables of one letter: the second access never returns. *)
Example shm_hangs : ∃ t, vars_shm_set 1 vars_shm_init (str "a") (str "1") = Some (0, t) ∧ ∀ fuel buf, vars_shm_get fuel t (str "b") buf = None.
Proof.
  eexists. split; [reflexivity|]. intros fuel buf. unfold vars_shm_get, vars_shm_find.
  change (nth (shm_index (str "b")) _ []) with [mkVar (str "a") (str "1")].
  assert (H : shm_find_loop fuel [mkVar (str "a") (str "1")] (str "b") = None) by (induction fuel as [|fuel IH]; [done|exact IH]).
  by rewrite H.
Qed.
