(* ===== verification/Listing.v ===== *)
(** * Directory listings: libwzd-core/wzd_dir.c, wzd_list.c

    What a directory shows ([dir_open]): the names in it with what its permission
    file says of them, the virtual directories below it and the links recorded in
    the permission file. Its lines in the formats of LIST, NLST and MLSD, put
    together in a buffer before they are sent; the handlers LIST, NLST, STAT, MLSD
    and MLST of wzd_ClientThread.c. On Unix. Files are directories, links or regular
    files. The text of dates and the conversion of character sets are parameters. *)
From S2P Require Import Prelude Inet Utf8 CList Registry Users Backend Perm Path PermFile Vfs Session Commands Chdir Login Sections FileOps Transfer Handlers Digests.

Definition HARD_LS_BUFFERSIZE : nat := 4096.
Definition MAX_DIRECTORY_ENTRIES : Z := 65535.
Definition LIST_TYPE_SHORT : Z := 1.
Definition LIST_TYPE_LONG : Z := 2.
Definition LIST_SHOW_HIDDEN : Z := 4.

(** ** Masks *)

Definition STAR : ascii := "*".
Definition QUESTION : ascii := "?".

(** The loop of [list_match] from a position on; [star] is what a star gives. *)
Fixpoint match_chars (mask s : bytes) (star : unit → outcome bool) : outcome bool :=
  match mask with
  | [] => Val (bool_decide (s = []))
  | c :: mask =>
    if bool_decide (c = STAR) then star tt else
    match s with
    | [] => Val false
    | d :: s => if bool_decide (c = QUESTION) || bool_decide (c = d) then match_chars mask s star else Val false
    end
  end.

(** The loop of [guess_star]: the ends of the string that are not empty. *)
Fixpoint any_end (f : bytes → outcome bool) (s : bytes) : outcome bool :=
  match s with
  | [] => Val false
  | _ :: s' => r ← f s; if (r : bool) then Val true else any_end f s'
  end.

Definition guess_star (list_match : bytes → outcome bool) (mask s : bytes) : outcome bool :=
  match mask with [] => Val true | _ => any_end list_match s end.

(** At a star, the string and the mask without its first character are given to
    [guess_star], wherever the star is. The loop tests the mask after it has moved
    in it, which an empty mask does not allow. *)
Fixpoint list_match (mask s : bytes) : outcome bool :=
  match mask with
  | [] => match s with [] => Crash | _ => Val false end
  | _ :: mask' => match_chars mask s (λ _, guess_star (list_match mask') mask' s)
  end.

(** ** Lines in a buffer *)

Section listing.
  Context {F : Type}.

(** What [send_buffer] holds, and [send_buffer_len]. The result tells whether the
    callback failed. *)
Definition list_call_wrapper (callback : bytes → H F bool) (send : bytes * nat) (line : option bytes) : H F (bool * (bytes * nat)) :=
  let '(buffer, buffer_len) := send in
  match line with
  | None =>
    match buffer with
    | [] => mret (false, send)
    | _ => ok ← callback buffer; mret (negb ok, send)
    end
  | Some line =>
    if (HARD_LS_BUFFERSIZE - 1 <=? buffer_len + length line)%nat then
      ok ← callback buffer;
      if negb ok then mret (true, (buffer, 0%nat)) else
      if (HARD_LS_BUFFERSIZE <=? length line)%nat then must Crash else mret (false, (line, length line))
    else mret (false, (take buffer_len buffer ++ line, (buffer_len + length line)%nat))
  end.
End listing.

(** ** What is in a directory *)

(** The rest of [lstat], and [readlink]. *)
Class ListSystem (F : Type) := {
  sys_nlink : F → bytes → Z;
  sys_mtime : F → bytes → Z;
  sys_ctime : F → bytes → Z;
  sys_readlink : F → bytes → option bytes }.

Section directories.
  Context (b : option wzd_backend_t) (umask : Z) (hide_dotted : bool).

(** A name put after a directory in an array of 1025 bytes, at most up to the byte
    1023. *)
Definition path_in (dir name : bytes) : outcome bytes :=
  if (MAXPATH <=? length dir)%nat then Val dir else
  if (MAXPATH <=? length dir + length name)%nat then Crash else Val (dir ++ name).

Definition with_last_slash (dir : bytes) : bytes := if ends_with_slash dir then dir else dir ++ [SLASH].

(** A structure whose name and rights are set to default values. *)
Definition bare_file (name : bytes) : wzd_file_t :=
  mkFile (wzd_strncpy (replicate 256 NUL) name 256) (replicate 256 NUL) (replicate 256 NUL) umask [] FILE_NOTSET None.

Definition set_name (f : wzd_file_t) (name : bytes) : wzd_file_t :=
  mkFile (wzd_strncpy (filename f) name 256) (owner f) (group f) (permissions f) (acl f) (kind f) (data f).
Definition set_vfs (f : wzd_file_t) (physical : bytes) : wzd_file_t :=
  mkFile (filename f) (owner f) (group f) (permissions f) (acl f) FILE_VFS (Some physical).

Definition not_shown (name : bytes) : bool := streq name (str ".") || streq name (str "..") || is_hidden_file hide_dotted name.

Section open.
  Context {F : Type} `{!FileSystem F}.
  Context (vfs : list wzd_vfs_t) (fs : F) (w : world) (user : wzd_user_t).

Definition stat_file (name : bytes) : outcome (option wzd_file_t) := file_stat b umask vfs (S (length vfs)) fs w user name.

(** The structure of a name: the one of the permission file, which leaves the list,
    or a new one; nothing when the file cannot be described. *)
Definition dir_entry (dir name : bytes) (perm_list : list wzd_file_t) : outcome (option wzd_file_t * list wzd_file_t) :=
  '(found, rest) ← remove_file name perm_list;
  match found with
  | Some entry => Val (Some entry, rest)
  | None =>
    path ← path_in dir name;
    match lstat_kind fs path with
    | None => Val (None, perm_list)
    | Some k =>
      entry ← (if bool_decide (k = FK_DIR) then stat_file path else Val None);
      Val (Some (match entry with Some e => set_name e name | None => bare_file name end), perm_list)
    end
  end.

(** The entries in order, what is left of the permission file, and the count that
    may not be over [MAX_DIRECTORY_ENTRIES]. *)
Fixpoint dir_entries (dir : bytes) (names : list bytes) (watchdog : Z) (perm_list : list wzd_file_t)
    : outcome (option (list wzd_file_t * list wzd_file_t * Z)) :=
  match names with
  | [] => Val (Some ([], perm_list, watchdog))
  | name :: names =>
    if MAX_DIRECTORY_ENTRIES <? watchdog then Val None else
    if not_shown name then dir_entries dir names (watchdog + 1) perm_list else
    '(entry, perm_list) ← dir_entry dir name perm_list;
    r ← dir_entries dir names (watchdog + 1) perm_list;
    Val (match r, entry with Some (l, p, n), Some e => Some (e :: l, p, n) | _, _ => r end)
  end.

(** The virtual directories whose path begins with the name of the directory, and
    has no slash once a character is left out for the slash that the name does not
    have. *)
Definition vfs_entry (dirname : bytes) (v : wzd_vfs_t) : outcome (option wzd_file_t) :=
  out ← vfs_replace_cookies b w (virtual_dir v) user;
  match out with
  | None => Val None
  | Some buffer_vfs =>
    if (MAXPATH <=? length buffer_vfs)%nat then Crash else
    if negb (starts_with dirname buffer_vfs) then Val None else
    ok ← vfs_match_perm b w (vfs_target v) user;
    if negb ok then Val None else
    let vfs_pad := if ends_with_slash dirname then 0%nat else 1%nat in
    if (length buffer_vfs <? length dirname + vfs_pad)%nat then Crash else
    let ptr := drop (length dirname + vfs_pad) buffer_vfs in
    if strchr ptr SLASH then Val None else
    entry ← stat_file (physical_dir v);
    Val (Some (set_vfs (match entry with Some e => set_name e ptr | None => bare_file ptr end) (physical_dir v)))
  end.

Fixpoint vfs_entries (dirname : bytes) (l : list wzd_vfs_t) (watchdog : Z) : outcome (option (list wzd_file_t * Z)) :=
  match l with
  | [] => Val (Some ([], watchdog))
  | v :: l =>
    if MAX_DIRECTORY_ENTRIES <? watchdog then Val None else
    entry ← vfs_entry dirname v;
    r ← vfs_entries dirname l (watchdog + 1);
    Val (match r, entry with Some (l, n), Some e => Some (e :: l, n) | _, _ => r end)
  end.

(** The links that are left in the permission file. [before] is the number of
    entries that stay before the current one: when a link is taken after the first
    one, the loop turns once more on the first. *)
Fixpoint link_entries (before : nat) (watchdog : Z) (l : list wzd_file_t) : option (list wzd_file_t) :=
  match l with
  | [] => Some []
  | f :: l =>
    if MAX_DIRECTORY_ENTRIES <? watchdog then None else
    if bool_decide (kind f = FILE_LNK) then
      if (before =? 1)%nat then
        if MAX_DIRECTORY_ENTRIES <? watchdog + 1 then None
        else r ← link_entries before (watchdog + 2) l; Some (f :: r)
      else r ← link_entries before (watchdog + 1) l; Some (f :: r)
    else link_entries (S before) (watchdog + 1) l
  end.

(** [dir_open] and the entries that [dir_read] gives one after the other. *)
Definition dir_open (name : bytes) : outcome (option (list wzd_file_t)) :=
  match name with [] => Crash | _ =>
  '(ret, perm_list) ← readPermFile umask (sys_perms fs) (with_last_slash name ++ HARD_PERMFILE) [];
  if (MAXPATH <=? length name)%nat then Crash else
  let dir := if (1 <? length name)%nat then with_last_slash name else name in
  r ← dir_entries dir (fs_dir_names fs name) 0 perm_list;
  match r with
  | None => Val None
  | Some (entries, perm_list, watchdog) =>
    r ← vfs_entries name vfs watchdog;
    match r with
    | None => Val None
    | Some (virtual, watchdog) =>
      Val (links ← link_entries 0 watchdog perm_list; Some (entries ++ virtual ++ links))
    end
  end end.
End open.
End directories.

(** ** The formats *)

Section formats.
  Context (b : option wzd_backend_t) (umask : Z) (hide_dotted : bool) (vfs : list wzd_vfs_t).
  (** [ctime], [time(NULL)], [gmtime] with [strftime], what [local_charset_to_utf8]
      leaves in its buffer, and what a fresh MD5 context holds. *)
  Context (ctime : Z → bytes) (now : Z) (gmtime : Z → bytes) (to_utf8 : bytes → bytes) (junk : list Z).
  Context {F : Type} `{!FileSystem F, !ListSystem F}.

Definition YEARSEC : Z := 365 * 24 * 60 * 60.

Definition _format_date (t : Z) : bytes :=
  let date := ctime t in
  take 7 (drop 4 date) ++ (if now <? t + YEARSEC then take 5 (drop 11 date) else " "%char :: take 4 (drop 20 date)).

(** [fs_filestat_t] *)
Record filestat := mkStat { st_kind : fkind; st_size : Z; st_nlink : Z; st_mtime : Z; st_ctime : Z }.

Definition fs_file_lstat (fs : F) (path : bytes) : option filestat :=
  '(k, size) ← sys_lstat fs path;
  Some (mkStat k size (sys_nlink fs path) (sys_mtime fs path) (sys_ctime fs path)).

Definition pad_left (w : nat) (s : bytes) : bytes := replicate (w - length s) " "%char ++ s.
Definition bit_char (perms bit : Z) (c : ascii) : ascii := if Z.land perms bit =? 0 then "-"%char else c.
Definition mode_chars (perms : Z) : bytes :=
  [bit_char perms 0x100 "r"; bit_char perms 0x80 "w"; bit_char perms 0x40 "x"; bit_char perms 0x20 "r"; bit_char perms 0x10 "w";
   bit_char perms 0x08 "x"; bit_char perms 0x04 "r"; bit_char perms 0x02 "w"; bit_char perms 0x01 "x"]%char.

Definition is_link (k : wzd_file_kind_t) : bool := bool_decide (k = FILE_LNK).

(** The place that is described: for links and virtual directories, where they
    lead. *)
Definition described (dir : bytes) (f : wzd_file_t) (name : bytes) (follow : wzd_file_kind_t → bool) : outcome bytes :=
  if follow (kind f) then deref (data f) else path_in dir name.
Definition follow_both (k : wzd_file_kind_t) : bool := match k with FILE_LNK | FILE_VFS => true | _ => false end.
Definition follow_vfs (k : wzd_file_kind_t) : bool := match k with FILE_VFS => true | _ => false end.

(** The name in a long line, in an array of 256 bytes. *)
Definition long_name (fs : F) (f : wzd_file_t) (name path : bytes) (st : filestat) : outcome bytes :=
  if bool_decide (st_kind st = FK_LNK) then
    match sys_readlink fs path with
    | Some ((_ :: _) as linkbuf) => Val (take 254 (name ++ str " -> " ++ take 255 linkbuf))
    | _ => Val (take 254 (name ++ str " -> (INEXISTANT FILE)"))
    end
  else if is_link (kind f) then
    data ← deref (data f);
    Val (take 254 (name ++ (if negb (st_ctime st =? 0) then str " -> " else str " -> (INEXISTANT FILE) ") ++ data))
  else Val (take 255 name).

Definition converted (cn_flags : Z) (name : bytes) : outcome bytes :=
  if negb (Z.land cn_flags CONNECTION_UTF8 =? 0) && negb (utf8_valid name) then
    let line := to_utf8 name in if (256 <=? length line)%nat then Crash else Val line
  else Val name.

Definition or_unknown (s : bytes) : bytes := match s with [] => str "unknown" | _ => s end.

Definition kind_char (f : wzd_file_t) (st : filestat) : ascii :=
  if bool_decide (st_kind st = FK_LNK) || is_link (kind f) then "l" else if bool_decide (st_kind st = FK_DIR) then "d" else "-".

(** A file that cannot be described is shown as an empty regular file. *)
Definition long_line (fs : F) (cn_flags : Z) (dir : bytes) (f : wzd_file_t) (name : bytes) : outcome bytes :=
  path ← described dir f name follow_both;
  let st := default (mkStat FK_REG 0 0 0 0) (fs_file_lstat fs path) in
  shown ← long_name fs f name path st;
  shown ← converted cn_flags shown;
  own ← buf_str (owner f);
  grp ← buf_str (group f);
  Val (take (MAXPATH + 79)
    (kind_char f st :: mode_chars (permissions f) ++ str " " ++ pad_left 3 (num (st_nlink st)) ++ str " " ++ or_unknown own ++ str " " ++ or_unknown grp ++ str " "
     ++ pad_left 13 (num (st_size st)) ++ str " " ++ _format_date (st_mtime st) ++ str " " ++ shown ++ eol)).

(** The line of a file in a listing, or nothing when it is passed over. *)
Definition list_line (fs : F) (cn_flags format : Z) (mask : option bytes) (dir : bytes) (f : wzd_file_t) : outcome (option bytes) :=
  name ← buf_str (filename f);
  if starts_with (str ".") name && (Z.land format LIST_SHOW_HIDDEN =? 0) then Val None else
  ok ← match mask with None => Val true | Some m => list_match m name end;
  if negb ok then Val None else
  if negb (Z.land format LIST_TYPE_SHORT =? 0) then Val (Some (name ++ eol)) else
  line ← long_line fs cn_flags dir f name; Val (Some line).

(** The loop of [list]: what [send_buffer] holds at its end. *)
Fixpoint list_loop (callback : bytes → H F bool) (cn_flags format : Z) (mask : option bytes) (dir : bytes) (files : list wzd_file_t)
    (watchdog : Z) (send : bytes * nat) : H F (bytes * nat) :=
  match files with
  | [] => mret send
  | f :: files =>
    if 65535 <? watchdog then mret send else
    h ← get;
    line ← must (list_line (h_fs h) cn_flags format mask dir f);
    match line with
    | None => list_loop callback cn_flags format mask dir files (watchdog + 1) send
    | Some line =>
      '(failed, send) ← list_call_wrapper callback send (Some line);
      if (failed : bool) then mret send else list_loop callback cn_flags format mask dir files (watchdog + 1) send
    end
  end.

(** [list]. The lines are given to the callback; [false] when the directory is not read. *)
Definition list_ (callback : bytes → H F bool) (format : Z) (directory : bytes) (mask : option bytes) : H F bool :=
  match directory with [] => mret false | _ =>
  if (MAXPATH <=? length directory)%nat then must Crash else
  let dirname := remove_trailing_slash directory in
  h ← get;
  user ← sess (context_user b);
  c ← sess my_context;
  dir ← must (dir_open b umask hide_dotted vfs (h_fs h) (ss_world (h_s h)) user dirname);
  match dir with
  | None => mret false
  | Some files =>
    send ← list_loop callback (cn_flags (c_conn c)) format mask (with_last_slash directory) files 0 ([], 0%nat);
    list_call_wrapper callback send None;;
    mret true
  end end.

(** *** Facts: MLST, MLSD *)

Definition type_of_kind (k : fkind) (name : bytes) : bytes :=
  match k with
  | FK_REG => str "file"
  | FK_DIR => if streq name (str ".") then str "cdir" else if streq name (str "..") then str "pdir" else str "dir"
  | FK_LNK => str "OS.unix=slink"
  end.

Definition type_fact (f : wzd_file_t) (name : bytes) (st : filestat) : bytes :=
  match kind f with
  | FILE_NOTSET => type_of_kind (st_kind st) name
  | FILE_REG => type_of_kind FK_REG name
  | FILE_DIR => type_of_kind FK_DIR name
  | FILE_LNK => type_of_kind FK_LNK name
  | FILE_VFS => if bool_decide (st_kind st = FK_DIR) then str "dir;OS.wzdftpd=vfs" else str "file;OS.wzdftpd=vfs"
  end.

Definition has (perms right : Z) (c : ascii) : bytes := if Z.land perms right =? 0 then [] else [c].

Definition perm_fact (k : wzd_file_kind_t) (perms : Z) : bytes :=
  (match k with
   | FILE_REG => has perms RIGHT_STOR "a" ++ has perms RIGHT_RETR "r" ++ has perms RIGHT_STOR "w"
   | FILE_DIR => has perms RIGHT_STOR "c" ++ has perms RIGHT_CWD "e" ++ has perms RIGHT_LIST "l" ++ has perms RIGHT_MKDIR "m" ++ has perms RIGHT_STOR "p"
   | _ => []
   end ++ has perms RIGHT_DELE "d" ++ has perms RIGHT_RNFR "f")%char.

(** The name, made 33 bytes long at least, in an array of 128. *)
Definition unique_fact (name : bytes) : outcome bytes :=
  if (128 <=? length name)%nat then Crash else
  let input := name ++ replicate (33 - length name) "B"%char in
  Val (default [] (md5_hash_r junk (Some input) (Z.of_nat (length input)))).

Definition mlst_format_line (f : wzd_file_t) (st : filestat) (cn_flags : Z) (user : option wzd_user_t) (w : world) : outcome bytes :=
  name ← buf_str (filename f);
  perms ← file_getperms b (Some f) user w;
  unique ← unique_fact name;
  let shown := if negb (Z.land cn_flags CONNECTION_UTF8 =? 0) && negb (utf8_valid name) then to_utf8 name else name in
  Val (str "Type=" ++ type_fact f name st ++ str ";Size=" ++ num (st_size st) ++ str ";Modify=" ++ gmtime (st_mtime st) ++ str ";Perm="
       ++ perm_fact (kind f) perms ++ str ";Unique=" ++ unique ++ str "; " ++ shown).

Definition kind_known (f : wzd_file_t) (st : filestat) : wzd_file_t :=
  if bool_decide (kind f = FILE_NOTSET) then set_kind f (kind_of (st_kind st)) else f.

(** The name in the line is the whole path, in an array of 256 bytes. *)
Definition mlst_single_file (filename : bytes) : H F (option bytes) :=
  h ← get;
  c ← sess my_context;
  user ← sess (context_user b);
  if negb (strchr filename SLASH) then mret None else
  file ← must (stat_file b umask vfs (h_fs h) (ss_world (h_s h)) user filename);
  match file, fs_file_lstat (h_fs h) filename with
  | Some f, Some st =>
    line ← must (mlst_format_line (kind_known (set_name f filename) st) st (cn_flags (c_conn c)) (Some user) (ss_world (h_s h)));
    mret (Some line)
  | _, _ => mret None
  end.

(** A line that is not sent is only logged. *)
Fixpoint mlsd_loop (callback : bytes → H F bool) (cn_flags : Z) (user : wzd_user_t) (dir : bytes) (files : list wzd_file_t)
    (send : bytes * nat) : H F (bytes * nat) :=
  match files with
  | [] => mret send
  | f :: files =>
    h ← get;
    name ← must (buf_str (filename f));
    path ← must (described dir f name follow_vfs);
    match fs_file_lstat (h_fs h) path with
    | None => mlsd_loop callback cn_flags user dir files send
    | Some st =>
      line ← must (mlst_format_line (kind_known f st) st cn_flags (Some user) (ss_world (h_s h)));
      '(_, send) ← list_call_wrapper callback send (Some (line ++ eol));
      mlsd_loop callback cn_flags user dir files send
    end
  end.

(** 0, or an error. *)
Definition mlsd_directory (callback : bytes → H F bool) (dirname : bytes) : H F bool :=
  match dirname with [] => mret false | _ =>
  h ← get;
  user ← sess (context_user b);
  c ← sess my_context;
  dir ← must (dir_open b umask hide_dotted vfs (h_fs h) (ss_world (h_s h)) user dirname);
  match dir with
  | None => mret false
  | Some files =>
    send ← mlsd_loop callback (cn_flags (c_conn c)) user (with_last_slash dirname) files ([], 0%nat);
    list_call_wrapper callback send None;;
    mret true
  end end.
End formats.

(** ** LIST, NLST, STAT, MLSD, MLST *)

(** The options before the path: words that begin with a dash. A turn takes one
    off. *)
Fixpoint strip_options (fuel : nat) (listtype : Z) (param : bytes) : Z * bytes :=
  match fuel, param with
  | S fuel, c :: word =>
    if bool_decide (c = "-"%char) then
      let '(opt, rest) := take_until (λ d, bool_decide (d = " "%char)) word in
      strip_options fuel (if strchr opt "a" then Z.lor listtype LIST_SHOW_HIDDEN else listtype) rest
    else (listtype, param)
  | _, _ => (listtype, param)
  end.

Definition wild (s : bytes) : bool := strchr s STAR || strchr s QUESTION.

(** What the client asks for: the format, the path and the mask; or the error. In
    STAT, [cmd[strlen(cmd)-1]] is read even when nothing is left after the options.
    A mask after a directory does not get there: what comes after the last slash
    is copied over the path, which is cut where the slash was. *)
Definition list_args (is_stat : bool) (listtype : Z) (arg : bytes) : outcome (wzd_errno_t * string + Z * bytes * bytes) :=
  let '(listtype, param) := strip_options (length arg) listtype arg in
  if is_stat && (length param =? 0)%nat then Crash else
  let cmd := cut_slash param in
  let middle := "You can't put wildcards in the middle of path, only in the last part."%string in
  let '(refused, cmd, mask) :=
    if wild cmd then
      match strrchr_slash cmd with
      | Some (dir, base) => if negb (strchr base STAR) then (true, cmd, []) else (false, take (length dir) base, [])
      | None => (false, [], cmd)
      end
    else (false, cmd, []) in
  if refused : bool then Val (inl (E_NO_DATA_CTX, middle)) else
  if wild cmd then Val (inl (E_PARAM_INVALID, middle)) else
  if starts_with [SLASH; SLASH] param then Val (inl (E_PARAM_INVALID, "Too many / in the path - is it a joke?"%string)) else
  let '(cmd, mask) := match strrchr_slash mask with Some (dir, _) => (take (MAXPATH - 1) (cmd ++ SLASH :: dir), []) | None => (cmd, mask) end in
  Val (inr (listtype, cmd, mask)).

Section handlers.
  Context {F R : Type} `{!FileSystem F, !ListSystem F}.
  Context (b : option wzd_backend_t) (sv : server R) (nt : network).
  Context (ctime : Z → bytes) (gmtime : Z → bytes) (to_utf8 : bytes → bytes) (junk : Datatypes.list Z).

(** What is written on the data connection, or on the control connection. *)
Definition list_callback (line : bytes) : H F bool := call (SysSend line) (λ f, (tt, f));; mret true.
Definition control_callback (line : bytes) : H F bool := sess (emit (Raw line));; mret true.

Definition run_list (callback : bytes → H F bool) (format : Z) (path mask : bytes) : H F bool :=
  list_ b (sv_umask sv) (sv_hide_dotted sv) (sv_vfs sv) ctime (nt_now nt) to_utf8 callback format path
    (Some (match mask with [] => [STAR] | _ => mask end)).

Definition list_denied (command : string) : H F wzd_errno_t := sess (reply2 550 (str command) (str "No access"));; mret E_NOPERM.

(** The reply to a path that is refused. *)
Definition path_error (command : string) (ret : wzd_errno_t) : H F wzd_errno_t :=
  (match ret with
   | E_NOTDIR => answer 501 "Not a directory"
   | E_WRONGPATH => sess (reply2 550 (str command) (str "Invalid path"))
   | E_FILE_NOEXIST => sess (reply2 550 (str command) (str "No such file or directory (no access?)"))
   | E_FILE_FORBIDDEN | E_NOPERM => sess (reply2 550 (str command) (str "Negative on that, Houston (access denied)"))
   | _ => answer 501 (command ++ " failed (syntax error?)")
   end);;
  mret E_PARAM_INVALID.

Definition no_connection (x : transfer) : bool := (x_pasv x =? -1) && (x_port x =? 0).

(** Sending a listing: the data connection is opened, used and closed. *)
Definition send_listing (send : H F bool) : H F wzd_errno_t :=
  x ← xfer;
  sock ← open_data b nt;
  if sock =? -1 then mret (data_error x) else
  (if x_pasv x =? -1 then mret tt else upd_x (λ x, set_sockets x (-1) (x_data x)));;
  sess (upd_conn (λ cn, set_state cn STATE_XFER));;
  ok ← send;
  (if ok : bool then answer 226 "" else answer 501 "Error processing list");;
  upd_x (λ x, set_sockets x (x_pasv x) (-1));;
  idle_now nt;;
  sess (upd_conn (λ cn, set_state cn STATE_UNKNOWN));;
  mret E_OK.

Definition max_arg (lo : nat) (arg : option bytes) : option bytes :=
  match arg with
  | Some s => if (lo <=? length s)%nat && (length s <=? MAXPATH - 10)%nat then Some s else None
  | None => None
  end.

(** The path of a listing, once the right of the user to list it is checked. *)
Definition listed_path (command : string) (user : wzd_user_t) (mask : bytes) (error : wzd_errno_t → H F wzd_errno_t) (cmd : bytes)
    (go : bytes → H F wzd_errno_t) : H F wzd_errno_t :=
  r ← checkpath b sv cmd;
  if negb (bool_decide (r.1 = E_OK)) || starts_with (str "..") mask then error r.1 else
  path ← must (deref r.2);
  let path := remove_trailing_slash path in
  ret ← checkPerm b (sv_umask sv) path RIGHT_LIST user;
  if negb (ret =? 0) then list_denied command else go path.

Definition do_list (name : bytes) (arg : option bytes) : H F wzd_errno_t :=
  user ← sess (context_user b);
  if Z.land (userperms user) RIGHT_LIST =? 0 then list_denied "LIST" else
  match max_arg 0 arg with None => ends 501 "Argument or parameter too big." E_PARAM_BIG | Some arg =>
  x ← xfer;
  if no_connection x then ends 501 "No data connection available." E_NO_DATA_CTX else
  c ← sess my_context;
  if bool_decide (cn_state (c_conn c) = STATE_XFER) then ends 491 "" E_XFER_PROGRESS else
  upd_x (λ x, set_resume x 0);;
  a ← must (list_args false (if strcaseeq name (str "nlst") then LIST_TYPE_SHORT else LIST_TYPE_LONG) arg);
  match a with
  | inl (e, text) => ends 501 text e
  | inr (listtype, cmd, mask) =>
    listed_path "LIST" user mask (path_error "LIST") cmd (λ path, send_listing (run_list list_callback listtype path mask))
  end end.

(** The status is written on the control connection, in clear when it is not
    encrypted. *)
Definition do_stat (arg : option bytes) : H F wzd_errno_t :=
  user ← sess (context_user b);
  if Z.land (userperms user) RIGHT_LIST =? 0 then list_denied "LIST" else
  match max_arg 1 arg with None => ends 501 "Argument or parameter too big." E_PARAM_BIG | Some arg =>
  upd_x (λ x, set_resume x 0);;
  sess (upd_conn (λ cn, set_state cn STATE_COMMAND));;
  a ← must (list_args true LIST_TYPE_LONG arg);
  match a with
  | inl (e, text) => ends 501 text e
  | inr (listtype, cmd, mask) =>
    listed_path "STAT" user mask (λ _, ends 501 "Invalid filter/path" E_PARAM_INVALID) cmd (λ path,
      c ← sess my_context;
      sess (upd_conn (λ cn, set_data_mode cn (if Z.land (cn_flags cn) CONNECTION_TLS =? 0 then TLS_CLEAR else TLS_PRIV)));;
      sess (raw "213-Status of .:");;
      sess (raw "total 0");;
      ok ← run_list control_callback listtype path mask;
      sess (raw (if ok : bool then "213 End of Status" else "213 Error processing list"));;
      idle_now nt;;
      sess (upd_conn (λ cn, set_data_mode (set_state cn STATE_UNKNOWN) (cn_tls_data_mode (c_conn c))));;
      mret E_OK)
  end end.

Definition do_mlsd (param : option bytes) : H F wzd_errno_t :=
  user ← sess (context_user b);
  if Z.land (userperms user) RIGHT_LIST =? 0 then list_denied "MLSD" else
  x ← xfer;
  if no_connection x then ends 501 "No data connection available." E_NO_DATA_CTX else
  c ← sess my_context;
  if bool_decide (cn_state (c_conn c) = STATE_XFER) then ends 491 "" E_XFER_PROGRESS else
  match param with None => path_error "MLSD" E_PARAM_NULL | Some param =>
    listed_path "LIST" user [] (path_error "MLSD") param (λ path,
      send_listing (mlsd_directory b (sv_umask sv) (sv_hide_dotted sv) (sv_vfs sv) gmtime to_utf8 junk list_callback path))
  end.

(** No right on the file is asked for. *)
Definition do_mlst (param : option bytes) : H F wzd_errno_t :=
  user ← sess (context_user b);
  if Z.land (userperms user) RIGHT_LIST =? 0 then list_denied "MLST" else
  match param with
  | None | Some [] => ends 501 "Usage: MLST filename" E_PARAM_BIG
  | Some param =>
    match max_arg 1 (Some param) with None => ends 501 "Argument or parameter too big." E_PARAM_BIG | Some _ =>
    sess (upd_conn (λ cn, set_state cn STATE_COMMAND));;
    r ← checkpath b sv param;
    if negb (bool_decide (r.1 = E_OK)) then path_error "MLST" r.1 else
    path ← must (deref r.2);
    line ← mlst_single_file b (sv_umask sv) (sv_vfs sv) gmtime to_utf8 junk (remove_trailing_slash path);
    match line with
    | None => ends 501 "Error occurred" E_PARAM_INVALID
    | Some line =>
      sess (emit (Raw (str "250- Listing " ++ param ++ eol)));;
      sess (emit (Raw (line ++ eol)));;
      sess (raw "250 End");;
      idle_now nt;;
      sess (upd_conn (λ cn, set_state cn STATE_UNKNOWN));;
      mret E_OK
    end end
  end.
End handlers.
