(* ===== verification/SiteFiles.v ===== *)
(** * SITE commands on files: libwzd-core/wzd_site.c

    Permission files (CHACL, CHGRP, CHMOD, CHOWN, CHECKPERM), links, locks, times,
    directory messages, recursive deletion, in the state of FileOps.v; the deprecated
    [checkpath] of wzd_vfs.c that some of them use. On Unix. The value a handler
    returns is its result. *)
From S2P Require Import Prelude CList Ip Registry Users Backend Str Perm Path PermFile Vfs Session SiteUser Commands Chdir Login Sections FileOps Transfer Handlers.

(** ** The system calls that only these commands make *)

(** [sys_force_unlock] is [fcntl] with [F_SETLK] and [F_UNLCK]; [sys_text] is what
    reading a file that can be opened gives. *)
Class SiteSystem (F : Type) := {
  sys_symlink : F → bytes → bytes → Z * F;
  sys_utime : F → bytes → Z → Z → Z * F;
  sys_force_unlock : F → Z → Z * F;
  sys_text : F → bytes → option bytes }.

Definition O_RDWR : Z := 2.
Definition O_TRUNC : Z := 0x200.
Definition O_APPEND : Z := 0x400.
Definition EVENT_PREWIPE : Z := 0x4000.
Definition EVENT_WIPE : Z := 0x8000.

(** ** Words of the line *)

(** [str_read_token] on the line of the command. After a quoted word, the line is
    what comes before the closing quote. *)
Definition read_line_token (line : bytes) : outcome (option (option bytes) * bytes) :=
  let s := skip_spaces line in
  match s with
  | [] => Val (None, line)
  | _ =>
    match strpbrk (λ c, is_delim c || is_quote c) s with
    | None => Val (Some (Some line), [])
    | Some [] => Crash
    | Some (q :: after) =>
      if is_quote q then
        if bool_decide (q ∈ after) then
          match strtok (λ c, bool_decide (c = q)) (q :: after) with
          | (None, _) => Val (Some None, line)
          | (Some t, _) =>
            let first := (length line - length (q :: after)
                          + (length (q :: after) - length (skip_while (λ c, bool_decide (c = q)) (q :: after))))%nat in
            Val (Some (Some t), take (first + length t) line)
          end
        else Val (None, line)
      else Val (tok_line ws line)
    end
  end.

Definition read_tok : M (option (option bytes)) := λ s,
  '(t, l) ← read_line_token (ss_line s); Val (t, set_line s l).

Section handlers.
  Context {F R : Type} `{!FileSystem F, !SiteSystem F}.
  Context (b : option wzd_backend_t) (sv : server R) (nt : network).

Definition line_fuel : H F nat := λ h, Val (S (length (ss_line (h_s h))), h).
Definition help (site_command : string) (ret : Z) : H F Z := sess (do_site_help site_command);; mret ret.
Definition done (code : Z) (text : bytes) (ret : Z) : H F Z := say code text;; mret ret.

(** [checkpath_new(str_tochar(filename),buffer,context)] *)
Definition checkpath_tok (filename : option bytes) : H F (wzd_errno_t * option bytes) :=
  match filename with None => mret (E_PARAM_NULL, None) | Some p => checkpath b sv p end.

(** *** checkpath of wzd_vfs.c *)

(** The virtual directories whose path begins the buffer, of [size] bytes, are
    replaced one after the other. *)
Fixpoint vfs_replace (l : list wzd_vfs_t) (w : world) (user : wzd_user_t) (size : nat) (buffer : bytes) : outcome bytes :=
  match l with
  | [] => Val buffer
  | v :: l =>
    out ← vfs_replace_cookies b w (virtual_dir v) user;
    match out with
    | None => vfs_replace l w user size buffer
    | Some ptr_out =>
      if (2 * MAXPATH <=? length ptr_out)%nat then Crash else
      if starts_with ptr_out buffer && (starts_with [SLASH] (drop (length ptr_out) buffer) || (length buffer =? length ptr_out)%nat) then
        ok ← match vfs_target v with Some _ => vfs_match_perm b w (vfs_target v) user | None => Val true end;
        if negb ok then vfs_replace l w user size buffer else
        let buf := physical_dir v ++ drop (length ptr_out) buffer in
        if (2 * MAXPATH <=? length buf)%nat || (size <=? length buf)%nat then Crash else vfs_replace l w user size buf
      else vfs_replace l w user size buffer
    end
  end.

(** The path, in an array of [size] bytes, or [None] when it is refused. The path
    of the client begins with a slash. *)
Definition old_checkpath (outle : Z → bool) (getcwd : option bytes) (size : nat) (wanted_path : option bytes) (user : wzd_user_t)
    (currentpath : bytes) (w : world) : outcome (option bytes) :=
  root ← buf_str (rootpath user);
  let allowed := take (MAXPATH - 1) (root ++ [SLASH]) in
  let allowed := if streq allowed [SLASH; SLASH] then [SLASH] else allowed in
  let cmd := take (MAXPATH - 1) (root ++ currentpath) in
  cmd ← add_slash cmd;
  let cmd := match wanted_path with
             | None => cmd
             | Some (c :: s) => take (MAXPATH - 1) (if bool_decide (c = SLASH) then allowed ++ s else cmd ++ c :: s)
             | Some [] => cmd
             end in
  '(ok, buf) ← stripdir outle getcwd cmd (replicate size NUL) (Z.of_nat MAXPATH);
  if negb ok then Val None else
  path ← buf_str buf;
  path ← add_slash path;
  cmd ← add_slash (take (length allowed) path);
  if negb (starts_with allowed cmd) then Val None else
  path ← vfs_replace (sv_vfs sv) w user size path;
  Val (Some (remove_trailing_slash path)).

(** [checkpath(filename,buffer,context)]: 0 and the path, or nothing. *)
Definition checkpath_into (outle : Z → bool) (getcwd : option bytes) (size : nat) (filename : option bytes) : H F (option bytes) :=
  user ← sess (context_user b);
  c ← sess my_context;
  h ← get;
  must (old_checkpath outle getcwd size filename user (cn_path (c_conn c)) (ss_world (h_s h))).

(** *** Permission files *)

(** [_setPerm(buffer,granted_user,owner,group,rights,perms,context)] *)
Definition setPerm (buffer : bytes) (granted_user own grp rights : option bytes) (perms : Z) : H F Z :=
  on_perms (λ fs, _setPerm (sv_umask sv) (stat_kind fs) (sys_writable fs) (sys_perms fs) buffer granted_user own grp rights perms).

(** [while ( (filename = str_tok(command_line," \t\r\n")) ) ...]: a turn takes a
    word off the line. *)
Fixpoint each_file (fuel : nat) (act : option bytes → H F unit) : H F unit :=
  match fuel with
  | O => must Crash
  | S fuel =>
    t ← sess (tok ws);
    match t with
    | None => mret tt
    | Some filename => act filename;; each_file fuel act
    end
  end.

(** What the loops do with a file whose path [checkpath] or [checkpath_new] gives. *)
Definition with_old_path (outle : Z → bool) (getcwd : option bytes) (size : nat) (act : bytes → H F Z) (filename : option bytes) : H F unit :=
  p ← checkpath_into outle getcwd size filename;
  match p with Some buffer => act buffer;; mret tt | None => mret tt end.
Definition with_path (act : bytes → H F Z) (filename : option bytes) : H F unit :=
  r ← checkpath_tok filename;
  if bool_decide (r.1 = E_OK) then buffer ← must (deref r.2); act buffer;; mret tt else mret tt.

Definition letter (perms bit : Z) (c : ascii) : ascii := if Z.land perms bit =? 0 then "-"%char else c.

(** The rights of an access line: in octal, where read is 1, write 2 and execute 4,
    or as they are written. *)
Definition acl_rights (mode : bytes) : bytes :=
  let '(long_perms, endptr) := strtoul_in 8 mode in
  if bool_decide (endptr = mode) then mode
  else [letter long_perms 1 "r"; letter long_perms 2 "w"; letter long_perms 4 "x"]%char.

Definition do_site_chacl (outle : Z → bool) (getcwd : option bytes) : H F Z :=
  t ← sess (tok ws);
  match t with None => help "chacl" 1 | Some name =>
  p ← sess (getUserByName b name);
  match p with None => done 501 (str "User does not exist") 1 | Some user =>
  t ← sess (tok ws);
  match t with None => help "chacl" 1 | Some mode =>
  mode ← must (deref mode);
  if (15 <? length mode)%nat then help "chacl" 1 else
  let act buffer :=
    u ← sess (user_at user);
    n ← must (buf_str (username u));
    setPerm buffer (Some n) None None (Some (acl_rights mode)) no_perms in
  fuel ← line_fuel;
  each_file fuel (with_old_path outle getcwd BUFFER_LEN act);;
  done 200 (str "acl successfully set") 0
  end end end.

Definition do_site_chgrp (outle : Z → bool) (getcwd : option bytes) : H F Z :=
  t ← sess (tok ws);
  match t with None => help "chgrp" 1 | Some groupname =>
  g ← sess (getGroupByName b groupname);
  match g with None => done 501 (str "Group does not exist") 1 | Some _ =>
  fuel ← line_fuel;
  each_file fuel (with_old_path outle getcwd (S MAXPATH) (λ buffer, setPerm buffer None None groupname None no_perms));;
  groupname ← must (deref groupname);
  done 200 (take (MAXPATH - 1) (str "group changed to '" ++ groupname ++ str "'")) 0
  end end.

(** The mode in letters: nine of them, what follows is not read. *)
Fixpoint text_mode (letters : bytes) (mask : Z) (mode : bytes) (long_perms : Z) : option Z :=
  match letters with
  | [] => Some long_perms
  | l :: letters =>
    match mode with
    | [] => None
    | c :: mode =>
      if bool_decide (c = l) then text_mode letters (Z.shiftr mask 1) mode (long_perms + mask)
      else if bool_decide (c = "-"%char) then text_mode letters (Z.shiftr mask 1) mode long_perms
      else None
    end
  end.

Definition read_mode (mode : bytes) : option Z :=
  let '(long_perms, endptr) := strtoul_in 8 mode in
  if bool_decide (endptr = mode) then text_mode (str "rwxrwxrwx") 0x100 mode 0 else Some long_perms.

Definition do_site_chmod : H F Z :=
  t ← sess (tok ws);
  match t with None => help "chmod" 1 | Some mode =>
  mode ← must (deref mode);
  if (15 <? length mode)%nat then help "chmod" 1 else
  match read_mode mode with
  | None => done 501 (str "Invalid permission") 0
  | Some long_perms =>
    fuel ← line_fuel;
    each_file fuel (with_path (λ buffer, setPerm buffer None None None None long_perms));;
    done 200 (take (MAXPATH - 1) (str "mode changed to '" ++ octal long_perms ++ str "'")) 0
  end end.

Definition do_site_chown : H F Z :=
  t ← sess (tok ws);
  match t with None => help "chown" 1 | Some username =>
  p ← sess (getUserByName b username);
  match p with None => done 501 (str "User does not exist") 1 | Some _ =>
  fuel ← line_fuel;
  each_file fuel (with_path (λ buffer, setPerm buffer None username None None no_perms));;
  username ← must (deref username);
  done 200 (take (MAXPATH - 1) (str "owner changed to '" ++ username ++ str "'")) 0
  end end.

(** [right_text2word] of wzd_misc.c. A turn reads a right or ends. *)
Definition right_names : list (bytes * Z) :=
  [(str "RIGHT_LIST", RIGHT_LIST); (str "RIGHT_RETR", RIGHT_RETR); (str "RIGHT_STOR", RIGHT_STOR); (str "RIGHT_CWD", RIGHT_CWD);
   (str "RIGHT_RNFR", RIGHT_RNFR)].

Definition is_right_sep (c : ascii) : bool := bool_decide (c ∈ [" "; TAB; "+"; "|"]%char).

Fixpoint right_words (fuel : nat) (ptr : bytes) (word : Z) : Z :=
  match fuel with
  | O => 0
  | S fuel =>
    let ptr := skip_while is_right_sep ptr in
    match ptr with
    | [] => word
    | c :: _ =>
      if bool_decide (c ∈ eol) then word else
      match list_find (λ r, strcaseeq (take (length r.1) ptr) r.1) right_names with
      | None => 0
      | Some (_, (name, bit)) =>
        match drop (length name) ptr with [] => word + bit | ptr => right_words fuel ptr (word + bit) end
      end
    end
  end.

Definition right_text2word (text : bytes) : Z := right_words (S (length text)) text 0.

Definition do_site_checkperm (outle : Z → bool) (getcwd : option bytes) : H F Z :=
  t ← sess (tok ws);
  match t with None => help "checkperm" 1 | Some name =>
  t ← sess (tok ws);
  match t with None => help "checkperm" 1 | Some filename =>
  t ← sess (tok eol);
  match t with None => help "checkperm" 1 | Some perms =>
  perms ← must (deref perms);
  let word := right_text2word perms in
  if word =? 0 then done 501 (str "Invalid permission") 1 else
  p ← sess (getUserByName b name);
  match p with None => done 501 (str "User does not exist") 1 | Some user =>
  p ← checkpath_into outle getcwd (S MAXPATH) filename;
  match p with None => done 501 (str "File does not exist") 1 | Some buffer =>
  u ← sess (user_at user);
  r ← checkPerm b (sv_umask sv) buffer word u;
  done 200 (str (if r =? 0 then "Right okay" else "Refused")) 0
  end end end end end.

(** *** Links and locks *)

Definition symlink (existing link : bytes) : H F Z := call (SysSymlink existing link) (λ f, sys_symlink f existing link).

Definition symlink_create (existing link : bytes) : H F Z := symlink existing link.

(** The errors are numbers of [wzd_errno_t]. *)
Definition symlink_remove (link : bytes) : H F Z :=
  h ← get;
  match lstat_kind (h_fs h) link with
  | None => mret (errno_num E_FILE_NOEXIST)
  | Some FK_LNK => unlink link
  | Some _ => mret (errno_num E_FILE_TYPE)
  end.

Definition link_done (ret : Z) : H F Z :=
  if negb (ret =? 0) then done 501 (str "Command failed") 0 else done 200 (str "Command okay") 0.

Definition do_site_link : H F Z :=
  t ← sess read_tok;
  match t with None => help "link" 1 | Some command =>
  t ← sess read_tok;
  match t with None => help "link" 1 | Some dirname =>
  r ← checkpath_tok dirname;
  if negb (bool_decide (r.1 = E_OK)) then done 501 (str "Dirname is invalid") 0 else
  buffer_dir ← must (deref r.2);
  let buffer_dir := cut_slash buffer_dir in
  command ← must (deref command);
  if strcaseeq command (str "CREATE") then
    t ← sess read_tok;
    match t with None => help "link" 1 | Some linkname =>
    r ← checkpath_tok linkname;
    if negb (bool_decide (r.1 = E_OK)) && negb (bool_decide (r.1 = E_FILE_NOEXIST)) then done 501 (str "Linkname is invalid") 0 else
    buffer_link ← must (deref r.2);
    ret ← symlink_create buffer_dir (cut_slash buffer_link);
    link_done ret
    end
  else if strcaseeq command (str "REMOVE") then ret ← symlink_remove buffer_dir; link_done ret
  else help "link" 1
  end end.

(** [fcntl] on the whole file. *)
Definition file_force_unlock (filename : bytes) : H F Z :=
  file ← fs_open filename O_RDWR;
  if file <? 0 then mret (-1) else
  h ← get;
  let '(r, fs) := sys_force_unlock (h_fs h) file in
  put_fs (sys_close fs file);;
  mret (if r <? 0 then -1 else 0).

(** The loop: 0, or what makes the reply negative. A path that is refused does not
    end it. *)
Fixpoint unlock_files (fuel : nat) (filename : option bytes) : H F bool :=
  match fuel with
  | O => must Crash
  | S fuel =>
    r ← checkpath_tok filename;
    ret ← (if bool_decide (r.1 = E_OK) then buffer ← must (deref r.2); file_force_unlock buffer else mret 1);
    if ret <? 0 then mret false else
    t ← sess (tok ws);
    match t with None => mret (ret =? 0) | Some filename => unlock_files fuel filename end
  end.

Definition do_site_unlock : H F Z :=
  t ← sess (tok ws);
  match t with None => help "unlock" 1 | Some filename =>
  fuel ← line_fuel;
  ok ← unlock_files fuel filename;
  if (ok : bool) then done 200 (str "File(s) unlocked") 0 else done 501 (str "UNLOCK FAILED") 0
  end.

(** *** Times *)

(** [strptime] with the format YYYYMMDDhhmmss, and [mktime]: the time when the whole
    word is one. *)
Definition do_site_utime (parse_time : bytes → option Z) (outle : Z → bool) (getcwd : option bytes) : H F Z :=
  user ← sess (context_user b);
  t ← sess (tok ws);
  match t with None => help "utime" 1 | Some filename =>
  t ← sess (tok ws);
  match t with None => help "utime" 1 | Some new_atime =>
  t ← sess (tok ws);
  match t with None => help "utime" 1 | Some new_mtime =>
  t ← sess (tok ws);
  match t with None => help "utime" 1 | Some new_ctime =>
  t ← sess (tok ws);
  match t with None => help "utime" 1 | Some _ =>
  a ← must (deref new_atime);
  match parse_time a with None => help "utime" 1 | Some actime =>
  m ← must (deref new_mtime);
  match parse_time m with None => help "utime" 1 | Some modtime =>
  c ← must (deref new_ctime);
  match parse_time c with None => help "utime" 1 | Some _ =>
  p ← checkpath_into outle getcwd BUFFER_LEN filename;
  match p with None => done 501 (str "File does not exist") 1 | Some buffer =>
  ret ← checkPerm b (sv_umask sv) buffer RIGHT_RNFR user;
  if negb (ret =? 0) then done 501 (str "Access denied") 1 else
  call (SysUtime buffer actime modtime) (λ f, sys_utime f buffer actime modtime);;
  done 200 (str "UTIME command okay") 0
  end end end end end end end end end.

(** *** Directory messages *)

(** The lines are read into an array of 1016 bytes after [200-]. *)
Fixpoint print_lines (fuel : nat) (text : bytes) : M unit :=
  match fuel with
  | O => lift Crash
  | S fuel =>
    match wzd_cache_gets text 1016 with
    | None => mret tt
    | Some (line, text) => emit (Raw (chop (str "200-" ++ cstring line) ++ eol));; print_lines fuel text
    end
  end.

Definition do_site_print_file_raw (filename : bytes) : H F unit :=
  h ← get;
  match sys_text (h_fs h) filename with
  | None => say 501 (str "Inexistant file")
  | Some text => sess (raw "200--");; sess (print_lines (S (length text)) text);; sess (raw "200 -")
  end.

(** [fopen], [fwrite], [fclose]. *)
Definition write_message (mode : Z) (msg_file : bytes) : H F Z :=
  fp ← fs_open msg_file mode;
  if fp =? -1 then done 501 (str "Unable to open message file for writing") 1 else
  t ← sess (tok eol);
  h ← get;
  match t with None => put_fs (sys_close (h_fs h) fp);; help "msg" 1 | Some buf =>
  buf ← must (deref buf);
  let '(n, fs) := sys_write (h_fs h) fp buf in
  put_fs (sys_close fs fp);;
  if negb (n =? Z.of_nat (length buf)) then done 501 (str "Unable to write message") 1
  else done 200 (str "Message file written") 0
  end.

(** [dir_message] is the name in the configuration. The argument of [convert] goes
    after the directory as it is. *)
Definition do_site_msg (dir_message : option bytes) : H F Z :=
  match dir_message with None => done 501 (str "No dir_message defined in config") 1 | Some dir_message =>
  r ← checkpath b sv (str ".");
  if negb (bool_decide (r.1 = E_OK)) then done 501 (str ". does not exist?!") 1 else
  dir ← must (deref r.2);
  let dir := if ends_with_slash dir then dir else dir ++ [SLASH] in
  let msg_file := dir ++ dir_message in
  if (2047 <=? length msg_file)%nat then must Crash else
  t ← sess (tok ws);
  match t with None => help "msg" 1 | Some command =>
  command ← must (deref command);
  let eq name := strcaseeq command (str name) in
  if eq "show" then do_site_print_file_raw msg_file;; mret 0
  else if eq "convert" then
    t ← sess (tok eol);
    match t with None => help "msg" 1 | Some filename =>
    filename ← must (deref filename);
    let other_file := take 2047 (dir ++ filename) in
    h ← get;
    if negb (bool_decide (stat_kind (h_fs h) other_file = Some FK_REG)) then done 501 (str "Inexistant file, or not a regular file") (-1) else
    unlink msg_file;;
    r ← safe_rename other_file msg_file;
    if r =? 0 then done 200 (str "Message file loaded") 0 else done 501 (str "Error while renaming file") (-1)
    end
  else if eq "delete" then unlink msg_file;; done 200 (str "Message file deleted") 0
  else if eq "new" then write_message (Z.lor O_WRONLY (Z.lor O_CREAT O_TRUNC)) msg_file
  else if eq "append" then write_message (Z.lor O_WRONLY (Z.lor O_CREAT O_APPEND)) msg_file
  else help "msg" 0
  end end.

(** *** Recursive deletion *)

(** The loop over the names of a directory: [buffer] is what the array of 1024 bytes
    holds, of which [strncpy] fills 256 after the directory. *)
Fixpoint wipe_entries (wipe : bytes → H F Z) (dir buffer : bytes) (names : list bytes) : H F Z :=
  match names with
  | [] => mret 0
  | name :: names =>
    if streq name (str ".") || streq name (str "..") then wipe_entries wipe dir buffer names else
    if (1024 <=? length buffer)%nat then must Crash else
    if (1024 <=? length buffer + length name)%nat then mret 1 else
    if (1024 <? length dir + 1 + 256)%nat || (256 <=? length name)%nat then must Crash else
    let buffer := dir ++ SLASH :: name in
    h ← get;
    ret ← match lstat_kind (h_fs h) buffer with
          | None => mret 0
          | Some FK_DIR => wipe buffer
          | Some _ => unlink buffer
          end;
    if negb (ret =? 0) then mret 1 else wipe_entries wipe dir buffer names
  end.

Fixpoint do_internal_wipe (fuel : nat) (filename : bytes) : H F Z :=
  match fuel with
  | O => must Crash
  | S fuel =>
    h ← get;
    match lstat_kind (h_fs h) filename with
    | None => mret (-1)
    | Some FK_DIR =>
      if (1024 <=? length filename)%nat then must Crash else
      ret ← wipe_entries (do_internal_wipe fuel) filename (filename ++ [SLASH]) (fs_dir_names (h_fs h) filename);
      if negb (ret =? 0) then mret 1 else
      ret ← rmdir filename;
      mret (if ret =? 0 then 0 else 1)
    | Some _ =>
      ret ← file_remove b (sv_umask sv) (sv_vfs sv) (sv_commands sv) filename;
      mret (if ret =? 0 then 0 else 1)
    end
  end.

(** The arguments of the two events. *)
Definition wipe_args (filename : bytes) : M (list bytes) :=
  a ← get_me b; u ← user_at a; n ← lift (buf_str (username u)); mret [n; filename].

(** Each level of directories adds a character to a path of less than 1024. *)
Fixpoint wipe_files (fuel : nat) (filename : option bytes) : H F wzd_errno_t :=
  match fuel with
  | O => must Crash
  | S fuel =>
    r ← checkpath_tok filename;
    if negb (bool_decide (r.1 = E_OK)) then done 501 (str "File does not exist") 0;; mret E_FILE_NOEXIST else
    buffer ← must (deref r.2);
    filename ← must (deref filename);
    args ← sess (wipe_args filename);
    if negb (allows (hook nt EVENT_PREWIPE args)) then done 501 (str "WIPE denied") 0;; mret E_COMMAND_FAILED else
    ret ← do_internal_wipe 1024 buffer;
    if negb (ret =? 0) then done 501 (str "WIPE failed") 0;; mret E_COMMAND_FAILED else
    sess (wipe_args filename);;
    t ← sess read_tok;
    match t with
    | None => done 200 (str "File(s) wiped") 0;; mret E_OK
    | Some filename => wipe_files fuel filename
    end
  end.

Definition do_site_wipe : H F wzd_errno_t :=
  t ← sess read_tok;
  match t with None => sess (do_site_help "wipe");; mret E_PARAM_NULL | Some firstarg =>
  first ← must (deref firstarg);
  fuel ← line_fuel;
  if strcaseeq first (str "-r") then
    t ← sess read_tok;
    match t with None => sess (do_site_help "wipe");; mret E_PARAM_INVALID | Some filename => wipe_files fuel filename end
  else wipe_files fuel firstarg
  end.

End handlers.
