(* ===== verification/Extensions.v ===== *)
(** * Extensions of FTP: libwzd-core/wzd_ClientThread.c

    Checksums of files (XCRC, XMD5), the times of files (MODA), passive mode without
    an address (EPSV), and the commands that only reply. In the configuration
    without [IPV6_SUPPORT]. *)
From S2P Require Import Prelude Inet CList Registry Users Backend Str Codec Perm Path PermFile Vfs Session Commands Chdir Login Sections FileOps Transfer Handlers Digests SiteFiles.

(** [strtoul(s,&end,16)] *)
Definition strtoul16 (s : bytes) : Z * bytes :=
  let s1 := skip_spaces s in
  let '(neg, s2) := match s1 with
                    | c :: s' => if bool_decide (c = "-"%char) then (true, s') else if bool_decide (c = "+"%char) then (false, s') else (false, s1)
                    | [] => (false, [])
                    end in
  let s3 := match s2 with
            | "0"%char :: x :: ((d :: _) as s') =>
              if (bool_decide (x = "x"%char) || bool_decide (x = "X"%char)) && (xdigit d <? 16) then s' else s2
            | _ => s2
            end in
  match s3 with
  | c :: _ =>
    if xdigit c <? 16 then
      let '(v, rest) := digits0 16 0 s3 in
      (if ULONG_MAX <? v then ULONG_MAX else if neg : bool then u64 (- v) else v, rest)
    else (0, s)
  | [] => (0, s)
  end.

(** [%lX] *)
Definition upper_digit (d : Z) : ascii := chr (if d <? 10 then 48 + d else 55 + d).
Fixpoint upper_in (n : nat) (v : Z) (acc : bytes) : bytes :=
  match n with
  | O => acc
  | S n => let acc := upper_digit (v mod 16) :: acc in if v / 16 =? 0 then acc else upper_in n (v / 16) acc
  end.
Definition hex_upper (v : Z) : bytes := upper_in 16 v [].

Definition DOUBLE_QUOTE : ascii := "034".

(** The arguments of XCRC and XMD5: the name, between quotes when there is more; the
    first byte and the length; what follows them, where a checksum to start from may
    be. [None] is an error of syntax. *)
Definition checksum_args (param : bytes) : option (bytes * Z * Z * bytes) :=
  match param with
  | c :: s =>
    if bool_decide (c = DOUBLE_QUOTE) then
      if negb (strchr s DOUBLE_QUOTE) then None else
      let '(name, ptr) := take_until (λ d, bool_decide (d = DOUBLE_QUOTE)) s in
      let '(startpos, rest) := strtoul0 ptr in
      if bool_decide (rest = ptr) then Some (name, 0, ULONG_MAX, []) else
      let '(len, rest') := strtoul0 rest in
      if bool_decide (rest' = rest) then None else Some (name, startpos, len, rest')
    else Some (param, 0, ULONG_MAX, [])
  | [] => Some (param, 0, ULONG_MAX, [])
  end.

Section handlers.
  Context {F R : Type} `{!FileSystem F, !SiteSystem F}.
  Context (b : option wzd_backend_t) (sv : server R) (nt : network).
  (** The size of the buffers of the C library, what a fresh MD5 context holds, and
      the reading of a time. *)
  Context (BUFSIZ : nat) (junk : list Z) (parse_time : bytes → option Z).

Definition file_data (fs : F) (path : bytes) : option (list Z) := map code <$> sys_text fs path.

(** Where [fseek] leaves a file just opened; a negative position is refused. *)
Definition seek_from (startpos size : Z) : Z := if 2 ^ 63 <=? startpos then 0 else Z.min startpos size.

(** What both commands do once their arguments are read: [checksum] of the path. *)
Definition with_file (command : string) (name : bytes) (checksum : bytes → H F bytes) : H F wzd_errno_t :=
  let missing : H F wzd_errno_t := sess (reply2 550 (str command) (str "File inexistent or no access?"));; mret E_FILE_NOEXIST in
  r ← checkpath b sv name;
  if negb (bool_decide (r.1 = E_OK)) then missing else
  path ← must (deref r.2);
  let path := cut_slash path in
  if hidden sv path then ends 501 "Forbidden" E_FILE_FORBIDDEN else
  h ← get;
  match sys_stat (h_fs h) path with
  | Some _ => text ← checksum path; sess (reply2 250 text []);; mret E_OK
  | None => missing
  end.

(** The length is cut to what the file has, which reads as much. *)
Definition do_xcrc (arg : option bytes) : H F wzd_errno_t :=
  match checklength arg ≫= checksum_args with
  | None => ends 501 "Syntax error" E_PARAM_INVALID
  | Some (name, startpos, len, rest) =>
    with_file "XCRC" name (λ path,
      h ← get;
      let data := file_data (h_fs h) path in
      let size := Z.of_nat (length (default [] data)) in
      mret (hex_upper (calc_crc32 BUFSIZ data (strtoul16 rest).1 (Z.to_nat (seek_from startpos size)) (Z.to_nat (Z.min len size))).2))
  end.

(** A checksum to start from that is not complete counts as none; it is only seen
    when the file can not be read. *)
Definition do_xmd5 (arg : option bytes) : H F wzd_errno_t :=
  match checklength arg ≫= checksum_args with
  | None => ends 501 "Syntax error" E_PARAM_INVALID
  | Some (name, startpos, len, rest) =>
    '(crc, end_) ← must (match rest with [] => Val (replicate 16 0, None) | _ => strtomd5 rest (replicate 16 0) end);
    let crc := match end_ with Some e => if bool_decide (e = rest) then replicate 16 0 else crc | None => replicate 16 0 end in
    with_file "XMD5" name (λ path,
      h ← get;
      let data := file_data (h_fs h) path in
      let size := Z.of_nat (length (default [] data)) in
      mret (hex_text (default crc (calc_md5 (Z.of_nat BUFSIZ) junk data (seek_from startpos size) (Z.min len size)))))
  end.

(** *** MODA *)

(** [strstr(facts,"; ")]: the facts, with their last semicolon, and the name. *)
Fixpoint split_facts (s : bytes) : option (bytes * bytes) :=
  match s with
  | [] => None
  | c :: s =>
    if bool_decide (c = ";"%char) && starts_with (str " ") s then Some ([c], tail s)
    else '(facts, name) ← split_facts s; Some (c :: facts, name)
  end.

Definition strtok_char (c : ascii) (s : bytes) : option bytes * bytes := strtok (λ d, bool_decide (d = c)) s.

Definition moda_fails (text : bytes) : H F wzd_errno_t := say 501 (take (MAXPATH - 1) text);; mret E_PARAM_INVALID.

(** The times of a file are both set for one fact: the one that no fact gave before
    is 0. The pointer of [strtok_r] is the one that [strptime] left at the end of
    the value, so that nothing is left for another turn. *)
Definition set_times (path fact value : bytes) (actime modtime : Z) (next : H F wzd_errno_t) : H F wzd_errno_t :=
  ret ← call (SysUtime path actime modtime) (λ f, sys_utime f path actime modtime);
  if negb (ret =? 0) then moda_fails (str "Error in fact " ++ fact ++ str ": '" ++ value ++ str "', aborting") else next.

Fixpoint moda_loop (fuel : nat) (path : bytes) (fact : option bytes) (ptr : bytes) (actime modtime command_ok : Z) : H F wzd_errno_t :=
  match fuel with
  | O => must Crash
  | S fuel =>
    match fact with
    | None => if command_ok =? 0 then ends 501 "Not yet implemented" E_PARAM_INVALID else ends 200 "Command okay" E_PARAM_INVALID
    | Some fact =>
      let '(value, _) := strtok_char ";" ptr in
      match value with None => ends 501 "Invalid syntax" E_PARAM_INVALID | Some value =>
      let again actime modtime := let '(fact, ptr) := strtok_char "=" [] in moda_loop fuel path fact ptr actime modtime (command_ok + 1) in
      let bad := moda_fails (str "Invalid value for fact '" ++ fact ++ str "', aborting") in
      if streq fact (str "accessed") then
        match parse_time value with None => bad | Some t => set_times path fact value t modtime (again t modtime) end
      else if streq fact (str "modify") then
        match parse_time value with None => bad | Some t => set_times path fact value actime t (again actime t) end
      else moda_fails (str "Unsupported fact '" ++ fact ++ str "', aborting")
      end
    end
  end.

(** The loop turns once for a fact and once to end. No right on the file is asked
    for. *)
Definition do_moda (param : option bytes) : H F wzd_errno_t :=
  match param ≫= split_facts with
  | None => ends 501 "Invalid syntax" E_PARAM_INVALID
  | Some (facts, filename) =>
    r ← checkpath b sv filename;
    if negb (bool_decide (r.1 = E_OK)) then ends 501 "Invalid filename" E_PARAM_INVALID else
    path ← must (deref r.2);
    let '(fact, ptr) := strtok_char "=" facts in
    match fact with
    | None => ends 501 "Invalid syntax" E_PARAM_INVALID
    | Some _ => moda_loop 2 (cut_slash path) fact ptr 0 0 0
    end
  end.

(** *** EPSV, and commands that only reply *)

(** The first free port of the range. *)
Fixpoint first_port (count : nat) (port : Z) : option Z :=
  match count with
  | O => None
  | S count => if nt_bind nt (u16 port) then Some port else first_port count (port + 1)
  end.

(** The reply is the one of PASV. *)
Definition do_epsv : H F wzd_errno_t :=
  c ← sess my_context;
  upd_x (λ x, set_sockets x (nt_socket nt) (x_data x));;
  if nt_socket nt =? -1 then no_pasv else
  match first_port (Z.to_nat (sv_pasv_high sv - sv_pasv_low sv + 1)) (sv_pasv_low sv) with
  | None => no_pasv
  | Some port =>
    if 65536 <=? port then no_pasv else
    if negb (nt_listen nt) then no_pasv else
    upd_x (λ x, set_peer x WZD_INET4 (x_port x) (x_ip x));;
    say 227 (numbers (pasv_address sv nt c ++ [Z.land (Z.shiftr port 8) 0xff; Z.land port 0xff]));;
    mret E_OK
  end.

Definition do_eprt : H F wzd_errno_t := ends 502 "" E_OK.
Definition do_pret : H F wzd_errno_t := ends 200 "Command okay" E_OK.
Definition do_help : H F wzd_errno_t := ends 214 "" E_OK.
End handlers.
