(* ===== verification/SiteAdmin.v ===== *)
(** * SITE commands on the server: libwzd-core/wzd_site.c

    Permissions of commands (PERM), variables (VARS, VARS_USER, VARS_GROUP), virtual
    directories (VFSADD, VFSDEL), the last messages of the log (SHOWLOG), sections,
    and [do_site], which answers the commands that have no function. A handler
    gets the part of the configuration it works on, and returns it with its
    result. *)
From S2P Require Import Prelude CList Hash Ip Registry Users Backend Str Config Perm PermFile Vfs Session SiteUser SiteGroup Commands Chdir Sections Vars.

Abbreviation bytes := (list ascii).

Definition say (code : Z) (text : bytes) : M unit := emit (Reply code text).
Definition done {A} (code : Z) (text : bytes) (ret : A) : M A := say code text;; mret ret.
Definition help {A} (site_command : string) (ret : A) : M A := do_site_help site_command;; mret ret.

(** ** Virtual directories *)

(** The characters up to the separator: what is copied and what is left, of which
    the separator is the first. *)
Fixpoint until_sep (sep : ascii) (room : nat) (ptr : bytes) {struct ptr} : option (bytes * bytes) :=
  match ptr with
  | [] => None
  | c :: ptr' =>
    if bool_decide (c = sep) then Some ([], ptr) else
    match room with
    | O => None
    | S room => '(dst, rest) ← until_sep sep room ptr'; Some (c :: dst, rest)
    end
  end.

Definition is_blank (c : ascii) : bool := bool_decide (c = " "%char) || bool_decide (c = TAB).

Definition vfs_syntax : bytes := str "site vfsadd |/home/vfsroot|/physical/path| [PERM]".

(** The line is copied into an array of 1024 bytes. [exists_] tells which paths
    exist. *)
Definition do_site_vfsadd (exists_ : bytes → bool) (command_line : bytes) (vfs : list wzd_vfs_t) : M (Z * list wzd_vfs_t) :=
  if (1024 <=? length command_line)%nat then lift Crash else
  let length := length command_line in
  let sep := default NUL (head command_line) in
  match until_sep sep (length - 1) (tail command_line) with
  | None => done 501 vfs_syntax (1, vfs)
  | Some (vpath, rest) =>
    match until_sep sep (length - 1) (tail rest) with
    | None => done 501 vfs_syntax (1, vfs)
    | Some (ppath, rest) =>
      let target := match skip_while is_blank (tail rest) with [] => None | t => Some t end in
      let '(ret, l) := vfs_add_restricted vfs vpath ppath target (exists_ ppath) in
      if ret =? 1 then done 501 vfs_syntax (0, l)
      else if ret =? 2 then done 501 (take 79 (str "vfs " ++ vpath ++ str " already set")) (0, l)
      else done 200 (str "VFSADD command okay") (0, l)
    end
  end.

Definition do_site_vfsdel (command_line : option bytes) (vfs : list wzd_vfs_t) : M (Z * list wzd_vfs_t) :=
  match command_line with
  | Some (c :: s) =>
    let '(ret, l) := vfs_remove vfs (c :: s) in
    if ret =? 2 then done 501 (take 79 (str "vfs " ++ (c :: s) ++ str " does not exist")) (0, l)
    else done 200 (str "VFSDEL command okay") (0, l)
  | _ => done 501 (str "site vfsdel /home/vfsroot") (0, vfs)
  end.

(** ** Permissions of commands *)

(** [perm_buffer] is the array of 256 bytes, used again for each command. *)
Fixpoint show_perms (ct : ctable) (l : list (option addr)) (perm_buffer : bytes) : M unit :=
  match l with
  | [] => mret tt
  | None :: l => show_perms ct l perm_buffer
  | Some a :: l =>
    command ← lift (deref (ct_heap ct !! a));
    '(r, perm_buffer) ← lift (perm2str (head (cm_perms command)) perm_buffer 256);
    (if r =? 0 then
       text ← lift (buf_str perm_buffer);
       emit (Raw (take 2047 (str " " ++ cm_name command ++ text ++ eol)))
     else mret tt);;
    show_perms ct l perm_buffer
  end.

(** [subcmp] on the names of commands: 0 when the name begins with the text. *)
Definition subcmp (substring : bytes) (key : option bytes) : Z :=
  match key with Some string => if strcaseeq (take (length substring) string) substring then 0 else 1 | None => 1 end.

Definition show_list (ct : ctable) (perm_name : option bytes) (stack : bytes) : M unit :=
  raw "200-";;
  (match perm_name with
   | None => show_perms ct (chtbl_extract (ct_table ct) None (Some str_match)) stack
   | Some name =>
     let l := chtbl_extract (ct_table ct) (Some (subcmp name)) (Some str_match) in
     show_perms ct l stack;;
     match l with [] => raw " permission not found" | _ => mret tt end
   end);;
  raw "200 ".

(** [stack] is what the array of 256 bytes holds at first. *)
Definition do_site_perm (stack : bytes) (ct : ctable) : M (Z * ctable) :=
  t ← tok ws;
  match t with None => help "perm" (1, ct) | Some command_name =>
  perm_name ← tok ws;
  command_name ← lift (deref command_name);
  let eq name := strcaseeq command_name (str name) in
  if eq "show" then
    match perm_name with
    | None => show_list ct None stack;; mret (0, ct)
    | Some name => name ← lift (deref name); show_list ct (Some name) stack;; mret (0, ct)
    end
  else if eq "change" then
    ptr ← tok eol;
    match perm_name, ptr with
    | Some name, Some line =>
      name ← lift (deref name);
      '(ret, ct) ← lift (commands_set_permission name line ct);
      if negb (ret =? 0) then done 501 (str "Error changing permission") (1, ct)
      else done 200 (str "Command okay, permission changed") (-1, ct)
    | _, _ => help "perm" (1, ct)
    end
  else if eq "remove" then
    match perm_name with None => help "perm" (1, ct) | Some _ =>
    '(ret, ct) ← lift (commands_delete_permission perm_name ct);
    if negb (ret =? 0) then done 501 (str "Error, permission NOT deleted") (0, ct)
    else done 200 (str "Command okay, permission deleted") (0, ct)
    end
  else if eq "add" then
    ptr ← tok eol;
    match perm_name, ptr with
    | Some name, Some line =>
      name ← lift (deref name);
      '(ret, ct) ← lift (commands_add_permission name line ct);
      if negb (ret =? 0) then done 501 (str "Error adding permission") (1, ct)
      else done 200 (str "Command okay, permission changed") (0, ct)
    | _, _ => help "perm" (1, ct)
    end
  else help "perm" (0, ct)
  end.

(** ** Variables *)

Definition lower_word (t : option bytes) : outcome bytes := s ← deref t; Val (lower s).

(** The buffer of 1024 bytes is not set when nothing is found. *)
Definition got (function : string) (r : Z * option bytes) : M Z :=
  if negb (r.1 =? 0) then done 200 (str ("An error occurred inside " ++ function)) 0
  else t ← lift (deref r.2); done 200 t 0.
Definition was_set (function : string) (ret : Z) : M Z :=
  if negb (ret =? 0) then done 200 (str ("An error occurred inside " ++ function)) 0 else done 200 (str "Command okay") 0.

Definition do_site_vars (bandwidth now : Z) (config : wzd_config_t) : M (Z * wzd_config_t) :=
  t ← tok ws;
  match t with None => help "vars" (1, config) | Some command =>
  command ← lift (lower_word command);
  t ← tok ws;
  match t with None => help "vars" (1, config) | Some varname =>
  if streq command (str "get") then
    varname ← lift (deref varname);
    ret ← got "vars_get" (vars_get bandwidth now varname 1024 (Some config)); mret (ret, config)
  else if streq command (str "set") then
    t ← tok ws;
    match t with None => help "vars" (1, config) | Some value =>
    varname ← lift (deref varname);
    value ← lift (deref value);
    let '(r, c) := vars_set varname (Some value) (Some config) in
    ret ← was_set "vars_set" r; mret (ret, default config c)
    end
  else done 200 (str "Command okay") (0, config)
  end end.

Section accounts.
  Context (b : option wzd_backend_t) (is_dir : bytes → bool) (getipbyname gethostbyaddr : bytes → option bytes).

Definition do_site_vars_group : M Z :=
  t ← tok ws;
  match t with None => help "vars_group" 1 | Some command =>
  command ← lift (lower_word command);
  t ← tok ws;
  match t with None => help "vars_group" 1 | Some name =>
  p ← getGroupByName b name;
  match p with None => done 501 (str "Group does not exist") 1 | Some group =>
  t ← tok ws;
  match t with None => help "vars_group" 1 | Some varname =>
  if streq command (str "get") then
    g ← group_at group;
    n ← lift (buf_str (groupname g));
    r ← vars_group_get b (Some n) varname 1024; got "vars_group_get" r
  else if streq command (str "set") then
    t ← tok ws;
    match t with None => help "vars_group" 1 | Some value =>
    g ← group_at group;
    n ← lift (buf_str (groupname g));
    value ← lift (deref value);
    r ← vars_group_set b is_dir (Some n) varname value; was_set "vars_group_set" r
    end
  else done 200 (str "Command okay") 0
  end end end end.

Definition do_site_vars_user : M Z :=
  t ← tok ws;
  match t with None => help "vars_user" 1 | Some command =>
  command ← lift (lower_word command);
  t ← tok ws;
  match t with None => help "vars_user" 1 | Some name =>
  p ← getUserByName b name;
  match p with None => done 501 (str "User does not exist") 1 | Some user =>
  t ← tok ws;
  match t with None => help "vars_user" 1 | Some varname =>
  if streq command (str "get") then
    u ← user_at user;
    n ← lift (buf_str (username u));
    r ← vars_user_get b (Some n) varname 1024; got "vars_user_get" r
  else if streq command (str "set") then
    t ← tok ws;
    match t with None => help "vars_user" 1 | Some value =>
    u ← user_at user;
    n ← lift (buf_str (username u));
    value ← lift (deref value);
    r ← vars_user_set b is_dir getipbyname gethostbyaddr (Some n) varname value; was_set "vars_user_set" r
    end
  else done 200 (str "Command okay") 0
  end end end end.
End accounts.

(** ** The log and the sections *)

(** [_buffer_push] of wzd_log.c: the first free place, or the end of the array once
    the oldest message is dropped. *)
Definition buffer_push (log : list (option bytes)) (s : bytes) : list (option bytes) :=
  match list_find (λ d, d = None) log with
  | Some (i, _) => <[i := Some s]> log
  | None => match log with [] => [] | _ :: rest => rest ++ [Some s] end
  end.

(** The last place of the array that is used, or 0. *)
Definition last_used (log : list (option bytes)) : nat :=
  match list_find is_Some (reverse log) with Some (k, _) => length log - 1 - k | None => 0 end.

Fixpoint show_lines (n : nat) (i : nat) (log : list (option bytes)) : M unit :=
  match n with
  | O => mret tt
  | S n =>
    d ← lift (deref (log !! i));
    (match d with Some s => emit (Raw (str " " ++ s)) | None => mret tt end);;
    show_lines n (S i) log
  end.

(** The first place and the number of places that are shown. *)
Definition log_window (command_line : bytes) (log : list (option bytes)) : nat * nat :=
  match command_line with
  | [] => (0, 10)%nat
  | _ =>
    let '(ul, ptr) := strtoul command_line in
    if bool_decide (ptr = []) && (ul <? Z.of_nat (length log)) then ((last_used log - Z.to_nat ul)%nat, Z.to_nat ul)
    else (0%nat, length log)
  end.

Definition do_site_showlog (log : option (list (option bytes))) (command_line : bytes) : M Z :=
  match log with
  | None => done 501 (str "Static log buffer not enabled") (-1)
  | Some log =>
    let '(offset, lines_to_show) := log_window command_line log in
    raw "200-";; show_lines lines_to_show offset log;; raw "200 ";; mret 0
  end.

Fixpoint section_lines {R} (l : list (wzd_section_t R)) : M unit :=
  match l with
  | [] => mret tt
  | s :: l => emit (Raw (str " " ++ sectionname s ++ str "  " ++ sectionmask s ++ str "  " ++ sectionre s ++ eol));; section_lines l
  end.

Definition do_site_sections {R} (section_list : list (wzd_section_t R)) : M Z :=
  raw "200-";; raw " NAME  MASK  REGEX";; section_lines section_list;; raw "200 ";; mret 0.

(** ** do_site *)

(** [time_to_str] of wzd_misc.c. [hours] and [mins] are what [days] leaves; the
    seconds are those of the low 16 bits. *)
Definition time_to_str (time : Z) : bytes :=
  let days := u16 (time ÷ 86400) in
  let hours := u16 ((time - days * 86400) ÷ 3600) in
  let mins := u16 ((time - days * 86400 - hours * 3600) ÷ 60) in
  let secs := u16 time mod 60 in
  let n := decimal in
  if negb (days =? 0) then n days ++ str "d " ++ n hours ++ str "h " ++ n mins ++ str "m " ++ n secs ++ str "s"
  else if negb (hours =? 0) then n hours ++ str "h " ++ n mins ++ str "m " ++ n secs ++ str "s"
  else if negb (mins =? 0) then n mins ++ str "m " ++ n secs ++ str "s"
  else if negb (secs =? 0) then n secs ++ str "s"
  else str "0 seconds".

(** The flags of the server; [serverstop] ends it. *)
Record site_flags := mkFlags { site_closed : bool; serverstop : bool }.

(** [uptime] is [time(NULL)] less the time of the start. With threads. A command
    that is not registered is not refused here. The text of the message 502 takes no
    argument. *)
Definition do_site (b : option wzd_backend_t) (ct : ctable) (uptime : Z) (command : option (option bytes)) (flags : site_flags)
    : M (Z * site_flags) :=
  match command with
  | None => done 501 (str "SITE command failed") (1, flags)
  | Some _ =>
    c ← my_context;
    found ← lift (commands_find ct command);
    denied ← (match found.1 with
              | None => mret 0
              | Some a => com ← lift (deref (ct_heap ct !! a)); ask (commands_check_permission b (Some com) (c_userid c))
              end);
    if negb (denied =? 0) then done 501 (str "Permission Denied") (1, flags) else
    s_token ← lift (default Crash (Val <$> mjoin found.2));
    let eq name := streq s_token (str name) in
    if eq "site_close" then done 250 (str "SITE: server is now closed") (0, mkFlags true (serverstop flags))
    else if eq "site_reopen" then done 250 (str "SITE: server is now opened") (0, mkFlags false (serverstop flags))
    else if eq "site_uptime" then done 200 (str "Uptime: " ++ time_to_str uptime) (0, flags)
    else if eq "site_shutdown" then done 250 (str "SITE: server will shutdown NOW") (0, mkFlags (site_closed flags) true)
    else done 502 [] (0, flags)
  end.
