(* ===== verification/SiteFilesProps.v ===== *)
(** * What the SITE commands on files do

    Recursive deletion removes exactly what is below a directory; modes are read as
    they are written; the permission files that CHMOD changes; paths that escape. *)
From S2P Require Import Prelude CList Ip Registry Users Backend Str Perm Path PermFile Vfs Session SiteUser SiteUserProps Commands Chdir Login Sections FileOps Posix Transfer TransferProps FileOpsProps Handlers HandlersProps SiteFiles.

(** ** Recursive deletion *)

(** The paths that names of files, without dots, lead to. *)
Inductive beneath (p : bytes) : bytes → Prop :=
  | beneath_self : beneath p p
  | beneath_in q n : beneath p q → no_dots n → SLASH ∉ n → beneath p (q ++ SLASH :: n).

Lemma beneath_trans p q r : beneath p q → beneath q r → beneath p r.
Proof. intros Hpq Hqr. induction Hqr; [done|by constructor]. Qed.

#[global] Instance no_dots_dec n : Decision (no_dots n).
Proof. unfold no_dots. apply _. Defined.

Lemma no_dots_names name : streq name (str ".") || streq name (str "..") = false ↔ no_dots name.
Proof. unfold no_dots. rewrite orb_false_iff. unfold streq. by rewrite !bool_decide_eq_false. Qed.

Lemma kept_name n : Path.kept n → no_dots n ∧ (SLASH ∉ n) ∧ n ≠ [].
Proof. by intros ((? & ?) & ? & ? & ?). Qed.

(** A path that ends with a name is no longer when its slashes are cut. *)
Lemma strip_name p n : Path.kept n → strip (p ++ SLASH :: n) = p ++ SLASH :: n.
Proof.
  intros (_ & Hs & Hne)%kept_name. destruct n as [|c n _] using rev_ind; [done|]. unfold strip.
  replace (p ++ SLASH :: n ++ [c]) with ((p ++ SLASH :: n) ++ [c]) by by rewrite <- app_assoc.
  rewrite rev_unit. cbn [drop_slashes]. rewrite bool_decide_eq_false_2 by set_solver. cbn [rev]. by rewrite rev_involutive.
Qed.

Definition below_call (p : bytes) (c : syscall) : Prop :=
  match c with SysUnlink q | SysRmdir q => beneath p q | _ => False end.

Section wipe_runs.
  Context {F R : Type} `{!FileSystem F, !Posix F, !PosixLaws F}.
  Context (b : option wzd_backend_t) (sv : server R).

(** [p] is a name of the directory at [d], and does not go through what is in
    it. *)
Record leads (fs : F) (p : bytes) (d : loc) : Prop := {
  ld_names : names_dir fs p d;
  ld_trail t : t ∈ trail fs p ++ trail fs (strip p) → d `prefix_of` t → t = d }.

(** The paths of the directories in [d], as the code makes them from [p], and the
    names in them are short enough for the arrays of the code. *)
Definition short (fs : F) (p : bytes) (d : loc) : Prop := ∀ ns, at_ fs (d ++ ns) ≠ None →
  (at_ fs (d ++ ns) = Some FK_DIR → (length (p ++ tail_str ns) ≤ 512)%nat) ∧ Forall (λ n, (length n < 256)%nat) ns.

Lemma gone_less (S : loc → Prop) (fs fs' : F) l : (∀ l, Decision (S l)) → gone S fs fs' → at_ fs' l ≠ None → at_ fs' l = at_ fs l.
Proof. intros D G H. destruct (D l) as [Hs|Hs]; [by rewrite (gn_gone _ _ _ G) in H|by apply (gn_rest _ _ _ G)]. Qed.

Lemma short_gone (S : loc → Prop) fs fs' p d : (∀ l, Decision (S l)) → gone S fs fs' → short fs p d → short fs' p d.
Proof. intros D G H ns Hns. pose proof (gone_less S fs fs' _ D G Hns) as E. rewrite E in *. by apply H. Qed.

Lemma short_length fs p d : at_ fs d = Some FK_DIR → short fs p d → (length p ≤ 512)%nat.
Proof. intros Hd Hs. destruct (Hs []) as [Hl _]; rewrite !app_nil_r in *; [by rewrite Hd|auto]. Qed.

Lemma short_in fs p d n : short fs p d → short fs (p ++ SLASH :: n) (d ++ [n]).
Proof.
  intros H ns. rewrite <- app_assoc. intros Hns. destruct (H (n :: ns) Hns) as [Hl Hf]. split; [|by apply Forall_cons in Hf as [_ ?]].
  intros Hd. specialize (Hl Hd). unfold tail_str in *. cbn [map concat] in Hl. by rewrite <- app_assoc.
Qed.

(** What is removed inside of [d] leaves the path of [d] as it is. *)
Lemma leads_gone (S : loc → Prop) fs fs' p d : (∀ l, S l → d `prefix_of` l ∧ l ≠ d) → gone S fs fs' → leads fs p d → leads fs' p d.
Proof.
  intros HS [_ _ G] [[Hp Hs Hn] Ht].
  destruct (G p) as [Er Et]; [intros t Hin [Hb Hne]%HS; apply Hne, Ht; [apply elem_of_app; by left|done]|].
  destruct (G (strip p)) as [Er' Et']; [intros t Hin [Hb Hne]%HS; apply Hne, Ht; [apply elem_of_app; by right|done]|].
  split; [by split; congruence|]. by rewrite Et, Et'.
Qed.

Lemma prefix_snoc_ne (d : loc) n l : d ++ [n] `prefix_of` l → d `prefix_of` l ∧ l ≠ d.
Proof. intros [k ->]. rewrite <- app_assoc. split; [by eexists|]. intros E%(f_equal length). rewrite length_app in E. simpl in E. lia. Qed.

(** The path of a directory in [d]. *)
Lemma leads_in fs p d n : leads fs p d → at_ fs d = Some FK_DIR → Path.kept n → leads fs (p ++ SLASH :: n) (d ++ [n]).
Proof.
  intros [[Hp Hs Hl] Ht] Hd Hn. destruct (px_name fs p d n Hp Hd Hn) as [Hr Htr]. pose proof (strip_name p n Hn) as Es.
  split; rewrite ?Es.
  - split; rewrite ?Es; [done..|]. exists n. split; [|done]. rewrite components_name by (by apply kept_name). by rewrite last_snoc.
  - intros t Hin [Hb Hne]%prefix_snoc_ne. exfalso. apply Hne.
    assert (Ht' : t ∈ d :: trail fs p) by (apply elem_of_app in Hin as [Hin|Hin]; by apply Htr). apply elem_of_cons in Ht' as [->|Hin']; [done|].
    apply Ht; [apply elem_of_app; by left|done].
Qed.

Lemma leads_kind fs p d : leads fs p d → lstat_kind fs p = at_ fs d.
Proof. intros [[Hp _ _] _]. by rewrite px_lstat, Hp. Qed.

Lemma name_kind fs p d n : leads fs p d → at_ fs d = Some FK_DIR → Path.kept n → lstat_kind fs (p ++ SLASH :: n) = at_ fs (d ++ [n]).
Proof. intros [[Hp _ _] _] Hd Hn. rewrite px_lstat. by destruct (px_name fs p d n Hp Hd Hn) as [-> _]. Qed.

(** A leaf that is gone, or was not there, is gone with what is below it. *)
Lemma gone_leaf fs fs' d : gone (eq d) fs fs' → (∀ n, at_ fs (d ++ [n]) = None) → gone (prefix d) fs fs'.
Proof.
  intros [G Rr P] Hn. split.
  - intros l [[|n s] ->]; [apply G; by rewrite app_nil_r|]. rewrite Rr by (intros E%(f_equal length); rewrite length_app in E; simpl in E; lia).
    replace (d ++ n :: s) with ((d ++ [n]) ++ s) by by rewrite <- app_assoc. by apply tree_below.
  - intros l Hl. apply Rr. by intros ->.
  - intros p Hp. apply P. intros t Ht ->. by apply (Hp t Ht).
Qed.

Lemma gone_none (fs : F) l : at_ fs l = None → gone (prefix l) fs fs.
Proof. intros H. split; [|done..]. intros l' [s ->]. by apply tree_below. Qed.

(** A run that returns 0 and wipes the directory at [d]. *)
Definition wipes (m : H F Z) (p : bytes) (d : loc) (h : hstate F) : Prop :=
  ∃ h', m h = Val (0, h') ∧ only (below_call p) h h' ∧ gone (prefix d) (h_fs h) (h_fs h').

Lemma run_unlink p d (h : hstate F) k : resolve_path (h_fs h) p = Some d → at_ (h_fs h) d = Some k → k ≠ FK_DIR → wipes (unlink p) p d h.
Proof.
  intros Hp Hk Hd. destruct (px_unlink (h_fs h) p d k Hp Hk Hd) as (fs' & Hu & Hg). unfold wipes, unlink, call. rewrite Hu.
  eexists. split; [reflexivity|]. split; [eapply only_one; [reflexivity|apply beneath_self]|]. apply gone_leaf; [done|].
  intros n. destruct (at_ (h_fs h) (d ++ [n])) eqn:E; [|done]. destruct (px_tree (h_fs h) d n) as [E' _]; [by rewrite E|congruence].
Qed.

Lemma only_below p q (h h1 h' : hstate F) : beneath p q → only (below_call q) h h1 → only (below_call p) h1 h' → only (below_call p) h h'.
Proof.
  intros Hpq (l & Hc & Hall) Ho. eapply only_trans; [|exact Ho]. exists l. split; [done|]. eapply Forall_impl; [exact Hall|].
  intros [] Hx; try done; by eapply beneath_trans.
Qed.

(** What the loop over [names] takes away. *)
Definition listed (d : loc) (names : list bytes) (l : loc) : Prop := Exists (λ n, no_dots n ∧ d ++ [n] `prefix_of` l) names.

Lemma listed_below d names l : listed d names l → d `prefix_of` l ∧ l ≠ d.
Proof. intros (n & _ & _ & ?)%Exists_exists. by eapply prefix_snoc_ne. Qed.

(** The loop over the names, when each directory among them can be wiped. *)
Lemma wipe_entries_spec wipe p d names buffer h :
  (∀ n h1, leads (h_fs h1) (p ++ SLASH :: n) (d ++ [n]) → at_ (h_fs h1) (d ++ [n]) = Some FK_DIR →
    short (h_fs h1) (p ++ SLASH :: n) (d ++ [n]) → n ≠ [] → wipes (wipe (p ++ SLASH :: n)) (p ++ SLASH :: n) (d ++ [n]) h1) →
  Forall (λ n, no_dots n → Path.kept n ∧ (length n < 256)%nat) names → (length p ≤ 512)%nat → (length buffer ≤ length p + 256)%nat →
  leads (h_fs h) p d → at_ (h_fs h) d = Some FK_DIR → short (h_fs h) p d →
  ∃ h', wipe_entries wipe p buffer names h = Val (0, h') ∧ only (below_call p) h h' ∧ gone (listed d names) (h_fs h) (h_fs h').
Proof.
  intros Hw. revert buffer h. induction names as [|n names IH]; intros buffer h Hf Hp Hb Hld Hd Hs; cbn [wipe_entries].
  { exists h. split; [done|]. split; [by apply only_refl|]. eapply gone_iff; [|apply gone_refl]. intros l. unfold listed. by rewrite Exists_nil. }
  apply Forall_cons in Hf as [Hn Hf].
  destruct (streq n (str ".") || streq n (str "..")) eqn:Edots.
  { destruct (IH buffer h Hf Hp Hb Hld Hd Hs) as (h' & -> & Ho & Hg). exists h'. split_and!; [done..|]. eapply gone_iff; [|exact Hg].
    intros l. unfold listed. rewrite Exists_cons. split; [by right|]. intros [[Hnd%no_dots_names _]|?]; [congruence|done]. }
  apply no_dots_names in Edots. destruct (Hn Edots) as [Hk Hnl]. rewrite !(proj2 (Nat.leb_gt _ _)), (proj2 (Nat.ltb_ge _ _)) by lia. cbn [orb].
  pose proof (kept_name n Hk) as (_ & Hsl & Hne). set (q := p ++ SLASH :: n).
  pose proof (leads_in _ _ _ _ Hld Hd Hk) as Hlq. pose proof (name_kind _ _ _ _ Hld Hd Hk) as Hq. fold q in Hlq, Hq.
  assert (Hstep : wipes (match lstat_kind (h_fs h) q with None => mret 0 | Some FK_DIR => wipe q | Some _ => unlink q end) q (d ++ [n]) h).
  { rewrite Hq. destruct (at_ (h_fs h) (d ++ [n])) as [k|] eqn:Ek.
    - destruct k; [|by eapply run_unlink; [apply Hlq|exact Ek|]..]. apply Hw; [done..|by apply short_in|done].
    - exists h. split; [done|]. split; [by apply only_refl|]. by apply gone_none. }
  destruct Hstep as (h1 & Hrun & Ho1 & Hg1).
  destruct (IH q h1 Hf Hp) as (h' & Hloop & Ho & Hg); [unfold q; rewrite length_app; simpl; lia| | |apply (short_gone (prefix (d ++ [n])) (h_fs h)); [apply _|done..]|].
  { eapply leads_gone; [|exact Hg1|done]. intros l. apply prefix_snoc_ne. }
  { rewrite (gn_rest _ _ _ Hg1); [done|]. intros [_ E]%prefix_snoc_ne. by apply E. }
  exists h'. split.
  { rewrite (hbind _ _ h h h) by done. by rewrite (hbind _ _ h 0 h1 Hrun). }
  split; [eapply only_below; [|exact Ho1|exact Ho]; by constructor; [constructor|..]|].
  eapply gone_iff; [|eapply gone_trans; [..|exact Hg1|exact Hg]; [apply _|intros l; apply Exists_dec; apply _]].
  intros l. unfold listed. rewrite Exists_cons. naive_solver.
Qed.

Lemma wipe_dir fuel p d h :
  leads (h_fs h) p d → at_ (h_fs h) d = Some FK_DIR → short (h_fs h) p d → (513 ≤ fuel + length p)%nat →
  wipes (do_internal_wipe b sv fuel p) p d h.
Proof.
  revert p d h. induction fuel as [|fuel IH]; intros p d h Hld Hd Hs Hfuel.
  { pose proof (short_length _ _ _ Hd Hs). lia. }
  pose proof (short_length _ _ _ Hd Hs) as Hpl.
  destruct (px_readdir (h_fs h) p d) as (names & Hr & Hnames); [apply Hld|done|].
  assert (Hin : ∀ n, at_ (h_fs h) (d ++ [n]) ≠ None → no_dots n ∧ n ∈ names).
  { intros n Hn. destruct (px_tree _ _ _ Hn) as [_ Hk]. pose proof (kept_name n Hk) as (Hnd & _). split; [done|]. by apply Hnames. }
  destruct (wipe_entries_spec (do_internal_wipe b sv fuel) p d names (p ++ [SLASH]) h) as (h1 & Hrun & Ho & Hg); [| |done| |done..|].
  { intros n h1 Hl1 Hd1 Hs1 Hne. apply IH; [done..|]. rewrite length_app. destruct n; [done|]. simpl. lia. }
  { apply Forall_forall. intros n Hn Hnd. apply Hnames in Hn; [|done]. destruct (px_tree _ _ _ Hn) as [_ Hk]. split; [done|].
    destruct (Hs [n] Hn) as [_ Hf]. by apply Forall_cons in Hf as [? _]. }
  { rewrite length_app. simpl. lia. }
  assert (Dl : ∀ l, Decision (listed d names l)) by (intros l; apply Exists_dec; apply _).
  assert (Hempty : ∀ n, at_ (h_fs h1) (d ++ [n]) = None).
  { intros n. destruct (at_ (h_fs h1) (d ++ [n])) eqn:E; [|done]. exfalso. pose proof (gone_less _ _ _ (d ++ [n]) Dl Hg ltac:(by rewrite E)) as Eq.
    destruct (Hin n) as [Hnd Hn]; [by rewrite <- Eq, E|]. rewrite (gn_gone _ _ _ Hg) in E; [done|]. apply Exists_exists. by exists n. }
  pose proof (leads_gone _ _ _ _ _ (listed_below d names) Hg Hld) as Hld1.
  assert (Hd1 : at_ (h_fs h1) d = Some FK_DIR) by (rewrite (gn_rest _ _ _ Hg); [done|]; by intros [_ ?]%listed_below).
  destruct (px_rmdir (h_fs h1) p d (ld_names _ _ _ Hld1) Hd1 Hempty) as (fs2 & Hrm & Hg2).
  eexists. split.
  { cbn [do_internal_wipe]. rewrite (hbind _ _ h h h) by done. unfold fs_dir_names. rewrite (leads_kind _ _ _ Hld), Hd, (proj2 (Nat.leb_gt _ _)), Hr by lia.
    cbn [default from_option id]. rewrite (hbind _ _ h 0 h1 Hrun). cbn [negb Z.eqb]. unfold rmdir.
    rewrite (hbind _ _ h1 0 (mkH (h_s h1) (h_x h1) fs2 (h_calls h1 ++ [SysRmdir p]))); [reflexivity|]. unfold call. by rewrite Hrm. }
  split; [eapply only_trans; [exact Ho|]; eapply only_one; [reflexivity|apply beneath_self]|]. cbn [h_fs].
  pose proof (gone_trans _ (eq d) _ _ _ Dl (λ l, decide (d = l)) Hg Hg2) as [G Rr P]. split.
  - intros l Hl. destruct (Dl l) as [Hx|Hx]; [apply G; by left|]. destruct (decide (d = l)) as [Hdl|Hdl]; [apply G; by right|].
    rewrite Rr by tauto. destruct Hl as [[|n s] ->]; [by rewrite app_nil_r in Hdl|].
    replace (d ++ n :: s) with ((d ++ [n]) ++ s) in * by by rewrite <- app_assoc. apply tree_below.
    destruct (at_ (h_fs h) (d ++ [n])) eqn:E; [|done]. destruct (Hin n) as [Hnd Hn]; [by rewrite E|].
    destruct Hx. apply Exists_exists. exists n. split_and!; [done..|by eexists].
  - intros l Hl. apply Rr. intros [[Hx _]%listed_below| ->]; [done|by apply Hl].
  - intros q Hq. apply P. intros t Ht [[Hx _]%listed_below| ->]; by apply (Hq _ Ht).
Qed.

End wipe_runs.

(** *** A tree *)

(** Under /data: a directory with a file, a directory with a file, and a link to
    the file next to it; /pub is a link to /data. *)
Definition wipe_tree : tree := list_to_map
  [([str "data"], NDir); ([str "data"; str "old"], NDir); ([str "data"; str "old"; str "a"], NReg);
   ([str "data"; str "old"; str "sub"], NDir); ([str "data"; str "old"; str "sub"; str "b"], NReg);
   ([str "data"; str "old"; str "link"], NLnk (str "../keep")); ([str "data"; str "keep"], NReg); ([str "pub"], NLnk (str "/data"))].
Definition wipe_state : hstate tree := mkH cw_session hw_xfer wipe_tree [].
Definition old_dir : loc := [str "data"; str "old"].

Lemma node_at_in (m : tree) l k : node_at m l = Some k → l = [] ∨ m !! l = Some k.
Proof.
  destruct l as [|n l _] using rev_ind; [by left|]. rewrite node_at_snoc. destruct (_ && _); [|done]. by right.
Qed.

Lemma wipe_short : short wipe_tree (str "/pub/./old/") old_dir.
Proof.
  assert (Hall : map_Forall (λ l (k : node), (length (tail_str l) ≤ 400)%nat ∧ Forall (λ n, (length n < 256)%nat) l) wipe_tree).
  { apply (bool_decide_unpack _). by vm_compute. }
  intros ns Hns. cbn [at_ tree_Posix] in Hns. destruct (node_at wipe_tree (old_dir ++ ns)) as [k|] eqn:E; [|done].
  apply node_at_in in E as [E|E]; [done|]. destruct (Hall _ _ E) as [Hl Hf]. apply Forall_app in Hf as [_ Hf]. split; [|done].
  intros _. unfold tail_str in *. rewrite map_app, concat_app, length_app in Hl. rewrite length_app. change (length (str "/pub/./old/")) with 11%nat. lia.
Qed.


(** What is left. *)
Example wipe_left :
  match do_internal_wipe su_backend hw_server 1024 (str "/pub/./old/") wipe_state with
  | Val (ret, h') => Some (ret, map (lstat_kind (h_fs h')) [str "/data/old"; str "/data/./old/a"; str "//pub/keep"; str "/data/old/../keep"])
  | Crash => None
  end = Some (0, [None; None; Some FK_REG; None]).
Proof. by vm_compute. Qed.

(** ** Modes *)

(** A mode in letters. *)
Definition mode_letters (m : Z) : bytes :=
  zip_with (λ bit c, letter m bit c) [0x100; 0x80; 0x40; 0x20; 0x10; 8; 4; 2; 1] (str "rwxrwxrwx").

Lemma read_mode_print m : 0 ≤ m < 512 →
  read_mode (octal m) = Some m ∧ read_mode (mode_letters m) = Some m ∧ (length (octal m) ≤ 15)%nat ∧ (length (mode_letters m) ≤ 15)%nat.
Proof.
  intros Hm. assert (H : Forall (λ n, read_mode (octal (Z.of_nat n)) = Some (Z.of_nat n) ∧ read_mode (mode_letters (Z.of_nat n)) = Some (Z.of_nat n) ∧
      (length (octal (Z.of_nat n)) ≤ 15)%nat ∧ (length (mode_letters (Z.of_nat n)) ≤ 15)%nat) (seq 0 512)).
  { apply (bool_decide_unpack _). by vm_compute. }
  rewrite Forall_forall in H. specialize (H (Z.to_nat m)). rewrite Z2Nat.id in H by lia. apply H, elem_of_seq. lia.
Qed.

(** A file that has an owner and a group keeps those that are not given. *)
Lemma set_owner_group_as d own grp :
  word (d_owner d) → (length (d_owner d) < 256)%nat → word (d_group d) → (length (d_group d) < 256)%nat →
  set_owner_group own grp (repr d) = set_owner_group (Some (default (d_owner d) own)) (Some (default (d_group d) grp)) (repr d).
Proof.
  intros Ho Hlo Hg Hlg. pose proof Ho as [Hno _]. pose proof Hg as [Hng _].
  assert (Eo : set_owner (repr d) (d_owner d) = repr d) by (unfold set_owner, repr; cbn; by (rewrite strncpy_padded by (rewrite ?length_padded; lia))).
  assert (Eg : ∀ f, group f = padded 256 (d_group d) → set_group f (d_group d) = f).
  { intros f Hf. unfold set_group. rewrite Hf, strncpy_padded by (rewrite ?length_padded; lia). rewrite <- Hf. by destruct f. }
  assert (Do : default_field (padded 256 (d_owner d)) (str "nobody") = padded 256 (d_owner d)) by (apply default_field_set; eauto with cstr).
  assert (Dg : default_field (padded 256 (d_group d)) (str "nogroup") = padded 256 (d_group d)) by (apply default_field_set; eauto with cstr).
  destruct own as [o|], grp as [g|]; cbn [default from_option id set_owner_group]; [done|by rewrite Eg|by rewrite Eo|].
  rewrite Eo, Eg by done. cbn [owner group repr]. rewrite Do, Dg. done.
Qed.

Lemma setPerm_as umask fs writable disk dir base l i d granted own grp rights perms :
  fs (dir ++ SLASH :: base) = Some FK_REG → dir ≠ [] → SLASH ∉ base → (length dir + 1 + length HARD_PERMFILE < MAXPATH)%nat →
  holds umask disk (permfile_of dir) l → by_name base l = Some (i, d) → word (d_owner d) → word (d_group d) →
  _setPerm umask fs writable disk (dir ++ SLASH :: base) granted own grp rights perms =
  _setPerm umask fs writable disk (dir ++ SLASH :: base) granted (Some (default (d_owner d) own)) (Some (default (d_group d) grp)) rights perms.
Proof.
  intros Hfs Hne Hsl Hlen Hh Hd Ho Hg. destruct (holds_read _ _ _ _ Hh) as (ret & Hr & Hret). destruct Hh as (Hok & _ & _).
  unfold _setPerm. destruct (dir ++ SLASH :: base) as [|c fn] eqn:Hfn; [done|]. rewrite <- Hfn, Hfs in *.
  destruct (MAXPATH <=? _)%nat; [done|]. rewrite strrchr_slash_app by done. run.
  rewrite add_slash_fits by (done || unfold MAXPATH in *; lia). run. destruct (MAXPATH <=? _)%nat; [done|].
  fold (permfile_of dir). rewrite Hr. run. unfold find_or_add. case_bool_decide as Hret'; cbn [negb]; [|by rewrite (Hret Hret') in Hd].
  unfold find_file. rewrite (find_file_repr umask) by done. run. rewrite Hd. cbn [fmap option_fmap option_map fst Nat.add]. run.
  apply list_find_Some in Hd as (Hi & _). pose proof (proj1 (Forall_lookup _ _) Hok _ _ Hi) as [_ Hlo Hlg _ _ _ _].
  rewrite list_lookup_fmap, Hi. cbn [fmap option_fmap option_map]. run. by rewrite (set_owner_group_as d own grp Ho Hlo Hg Hlg).
Qed.

(** ** CHMOD *)

Section chmod.
  Context {F R : Type} `{!FileSystem F, !SiteSystem F}.
  Context (ch : list ascii → list ascii → list ascii → nat → Z * list ascii) (ca : list ascii → list ascii → list ascii → Z) (sv : server R).
  #[local] Abbreviation pb := (Some (plaintext ch ca)).
  #[local] Abbreviation umask := (sv_umask sv).

(** A regular file in its directory, where the permission file of the directory
    lists it with an owner and a group. *)
Record listed_file (fs : F) (dir base : bytes) (l : list dfile) (i : nat) (d : dfile) : Prop := {
  lf_kind : stat_kind fs (dir ++ SLASH :: base) = Some FK_REG;
  lf_dir : dir ≠ [] ∧ (length dir + 1 + length HARD_PERMFILE < MAXPATH)%nat;
  lf_base : (SLASH ∉ base) ∧ spaced base ∧ (length base < 256)%nat ∧ (length dir + 1 + length base < MAXPATH)%nat;
  lf_writable : sys_writable fs (permfile_of dir) = true;
  lf_holds : holds umask (sys_perms fs) (permfile_of dir) l;
  lf_file : by_name base l = Some (i, d) ∧ d_link d = None ∧ word (d_owner d) ∧ word (d_group d) }.

Lemma setPerm_listed fs dir base l i d granted own grp perms :
  listed_file fs dir base l i d → 0 ≤ umask < 2 ^ 64 →
  from_option word True own ∧ (length (default [] own) < 256)%nat → from_option word True grp ∧ (length (default [] grp) < 256)%nat →
  from_option acl_ok True granted → (perms = no_perms ∨ 0 ≤ perms < 2 ^ 64) →
  ∃ disk', _setPerm umask (stat_kind fs) (sys_writable fs) (sys_perms fs) (dir ++ SLASH :: base) (fst <$> granted) own grp (snd <$> granted) perms
      = Val (0, disk') ∧
    holds umask disk' (permfile_of dir)
      (map flip (<[i := changed (default (d_owner d) own) (default (d_group d) grp) granted perms d]> l)) ∧
    (∀ q, q ≠ permfile_of dir → disk' !! q = sys_perms fs !! q).
Proof.
  intros [Hk [Hne Hld] (Hsl & Hsp & Hlb & Hl2) Hw Hh (Hd & Hlk & Ho & Hg)] Hum [Hown Hlo] [Hgrp Hlg] Hgr Hp.
  pose proof (proj1 (list_find_Some _ _ _ _) Hd) as (Hi & _).
  pose proof (proj1 (Forall_lookup _ _) (proj1 Hh) _ _ Hi) as [_ Hlo' Hlg' _ _ _ _].
  rewrite (setPerm_as umask _ _ _ _ _ l i d) by done.
  destruct (setPerm_spec umask (stat_kind fs) (sys_writable fs) (sys_perms fs) dir base l (default (d_owner d) own) (default (d_group d) grp) granted perms)
    as (disk' & Hset & Hh' & Hrest); try done; [by destruct own|by destruct own|by destruct grp|by destruct grp| |].
  { intros j d' E. rewrite Hd in E. by injection E as <- <-. }
  exists disk'. split; [exact Hset|]. unfold set_dfile in Hh'. by rewrite Hd in Hh'.
Qed.

(** What is used of the file system: a permission file that is written is there. *)
Context (Hperms : ∀ (fs : F) d, sys_perms (sys_set_perms fs d) = d).

Lemma checkpath_line p (h : hstate F) r s :
  checkpath pb sv p h = Val (r, h) → checkpath pb sv p (with_s h (set_line (h_s h) s)) = Val (r, with_s h (set_line (h_s h) s)).
Proof.
  unfold checkpath. intros H. apply outcome_bind_Val in H as ([c s1] & Hc & H). apply outcome_bind_Val in H as ([u s2] & Hu & H).
  apply outcome_bind_Val in H as (r' & Hr & H). injection H as ->. unfold my_context in *. cbn [h_s with_s ss_world ss_ctx set_line].
  apply outcome_bind_Val in Hc as (c' & Hc & E). injection E as <- <-. rewrite Hc. run.
  assert (Hu' : ∃ s3, context_userp pb (set_line (h_s h) s) = Val (u, s3)).
  { clear - Hu. unfold context_userp, mbind, M_bind, my_context in *. cbn [ss_world ss_ctx set_line].
    destruct (deref _) as [c|]; [|done]. run in Hu. run. unfold getUserByID, ask in *. cbn [ss_world set_line].
    destruct (GetUserByID _ _ _ ≫= _) as [a|] eqn:Ea; [|done]. run in Hu. run.
    destruct a as [a|]; [|by injection Hu as <- _; eexists]. unfold user_at, ask in *. cbn [ss_world set_line].
    destruct (_ !! a); [|done]. run in Hu. run. injection Hu as <- _. by eexists. }
  destruct Hu' as [s3 ->]. run. cbn [h_fs with_s]. rewrite Hr. by run.
Qed.

Lemma sess_tok d (h : hstate F) t l : tok_line d (ss_line (h_s h)) = (t, l) → sess (tok d) h = Val (t, with_s h (set_line (h_s h) l)).
Proof. intros Ht. unfold sess, tok. by rewrite Ht. Qed.

(** The last word of the line. *)
Lemma each_file_last act n (h h1 : hstate F) t :
  tok_line ws (ss_line (h_s h)) = (Some t, []) → act t (with_s h (set_line (h_s h) [])) = Val (tt, h1) → ss_line (h_s h1) = [] →
  each_file (S (S n)) act h = Val (tt, h1).
Proof.
  intros Ht Ha Hl. cbn [each_file]. rewrite (hbind _ _ _ _ _ (sess_tok _ _ _ _ Ht)). rewrite (hbind _ _ _ _ _ Ha).
  rewrite (hbind _ _ h1 None (with_s h1 (set_line (h_s h1) []))); [|apply sess_tok; by rewrite Hl].
  destruct h1 as [[]]. cbn in Hl. by subst.
Qed.

End chmod.

(** ** Concrete states *)

#[global] Instance memfs_SiteSystem : SiteSystem memfs := {|
  sys_symlink fs _ link := (0, mkMem (kind_at (mf_kind fs) link (Some FK_LNK)) (mf_data fs) (mf_fds fs) (mf_perms fs));
  sys_utime fs _ _ _ := (0, fs);
  sys_force_unlock fs _ := (0, fs);
  sys_text fs q := if bool_decide (mf_kind fs q = Some FK_REG) then Some (mf_data fs q) else None |}.

Definition sf_dir : list dfile := [mkD (str "song") (str "bob") (str "staff") 416 [(str "eve", str "r--")] None].
Definition sf_disk : permdisk := {[demo_permfile := match write_files (map repr sf_dir) with Val s => s | Crash => [] end]}.
Definition sf_passwd : bytes := str "/home/bob/../../etc/passwd".
Definition sf_fs : memfs :=
  mkMem (λ q, if streq q (str "/home/bob/song") || streq q sf_passwd then Some FK_REG else mf_kind hw_fs q)
    (λ q, if streq q sf_passwd then str "root:x:0" else []) (λ _, None) sf_disk.
Definition sf_state (line : string) : hstate memfs := mkH (set_line cw_session (str line)) hw_xfer sf_fs [].

Lemma sf_holds : holds 509 sf_disk demo_permfile sf_dir.
Proof.
  split; [constructor; [split; by_decision|constructor]|]. split; [by_decision|]. unfold sf_disk. rewrite lookup_singleton_eq.
  unfold readPermFile. rewrite lookup_singleton_eq. by vm_compute.
Qed.

Lemma sf_perms (fs : memfs) d : sys_perms (sys_set_perms fs d) = d.
Proof. reflexivity. Qed.


Definition answers (m : outcome (Z * hstate memfs)) : option (Z * list syscall * list event) :=
  match m with Val (r, h) => Some (r, h_calls h, ss_out (h_s h)) | Crash => None end.

(** A mode in octal whose digits stop early, and one that is no mode; a success is
    announced whatever the file. *)
Example chmod_partial : read_mode (str "6rw") = Some 6 ∧ read_mode (str "-1") = Some no_perms ∧ read_mode (str "888") = None ∧
  answers (do_site_chmod su_backend hw_server (sf_state "640 nothing")) = Some (0, [], [Reply 200 (str "mode changed to '640'")]).
Proof. by vm_compute. Qed.

(** The bits of CHACL are in the other order. *)
Example chacl_reversed : acl_rights (str "4") = str "--x" ∧ acl_rights (str "1") = str "r--" ∧ read_mode (str "400") = Some 0x100 ∧
  mode_letters 0x100 = str "r--------".
Proof. by vm_compute. Qed.

(** The argument of [SITE MSG CONVERT] may lead out of the root of the user: the file
    becomes the message of the directory, which the client may read. *)
Example msg_convert_escapes :
  answers (do_site_msg su_backend hw_server (Some (str ".message")) (sf_state "convert ../../etc/passwd"))
    = Some (0, [SysUnlink (str "/home/bob/.message"); SysRename sf_passwd (str "/home/bob/.message")], [Reply 200 (str "Message file loaded")]).
Proof. by vm_compute. Qed.

(** A directory whose path has 768 characters: filling the name overflows the
    array. *)
Example wipe_overflow (h : hstate memfs) :
  wipe_entries (λ _, mret 0) (replicate 768 "d"%char) (replicate 768 "d"%char ++ [SLASH]) [str "f"] h = Crash.
Proof. reflexivity. Qed.
