(* ===== verification/SiteAdminProps.v ===== *)
(** * What the SITE commands on the server do

    PERM refines the table of commands as a finite map; VFSADD reads its line as it is
    written; the log keeps the last messages, and what SHOWLOG shows of it; the time
    of UPTIME. *)
From S2P Require Import Prelude CList Hash Ip Registry Users Backend Str Perm Vfs Session SiteUser Commands SiteUserProps SiteAdmin Vars.

(** ** PERM *)

(** The forms of the command that change permissions, and what they make of the
    permissions of the command they name. *)
Inductive perm_verb := PermChange | PermRemove | PermAdd.
Definition verb_name (v : perm_verb) : bytes :=
  match v with PermChange => str "change" | PermRemove => str "remove" | PermAdd => str "add" end.
Definition perm_change (v : perm_verb) (name : bytes) (ps : list (wzd_cp_t * bytes)) (l : list abs_perm) : list abs_perm :=
  match v with PermChange => grant name ps [] | PermRemove => [] | PermAdd => grant name ps l end.

(** A run that ends in the map [m'] with one reply, and keeps the users and the
    clients. *)
Definition tells (o : outcome (Z * gmap bytes wzd_command_t)) (r : outcome ((Z * ctable) * session)) (s : session) : Prop :=
  match o with
  | Crash => r = Crash
  | Val (n, m') => ∃ ret ct' s' text, r = Val ((ret, ct'), s') ∧ holds_commands ct' m' ∧ ss_world s' = ss_world s ∧
      ss_out s' = ss_out s ++ [Reply (if n =? 0 then 200 else 501) text]
  end.

Lemma run_word d s t l : tok_line d (ss_line s) = (t, l) → tok d s = Val (t, set_line s l).
Proof. intros Ht. unfold tok. by rewrite Ht. Qed.

Lemma tells_op op ct m (ok bad : string) (a b : Z) s :
  holds_commands ct m →
  tells (spec_op op m)
    ((r ← lift (run_op op ct);
      let '(ret, ct') := r in if negb (ret =? 0) then done 501 (str bad) (b, ct') else done 200 (str ok) (a, ct')) s) s.
Proof.
  intros Hr. pose proof (run_op_matches op ct m Hr) as H. unfold mbind, M_bind, lift. unfold matches, tells in *.
  destruct (spec_op op m) as [[n m']|]; [|by rewrite H].
  destruct H as (ct' & -> & Hr'). run. destruct (n =? 0); cbn [negb]; eexists _, ct', _, _; (split; [reflexivity|]); (split; [done|]); (split; [done|]);
    cbn [ss_out add_event]; done.
Qed.

(** The word in any case is none of the other words. *)
Lemma verb_is word v x : strcaseeq word (verb_name v) = true → strcaseeq word x = strcaseeq (verb_name v) x.
Proof. unfold strcaseeq. intros H%bool_decide_eq_true. by rewrite H. Qed.

(** Which branch of the command a form takes. *)
Ltac eval_verbs :=
  repeat match goal with
  | |- context [strcaseeq (verb_name ?v) ?x] => let b := eval vm_compute in (strcaseeq (verb_name v) x) in change (strcaseeq (verb_name v) x) with b
  end; cbv iota.

Lemma tells_perm stack ct m s word v name args l1 l2 l3 :
  holds_commands ct m → strcaseeq word (verb_name v) = true →
  tok_line ws (ss_line s) = (Some (Some word), l1) → tok_line ws l1 = (Some (Some name), l2) → tok_line eol l2 = (Some <$> args, l3) →
  (v ≠ PermRemove → is_Some args) →
  tells (spec_op (match v with PermChange => SetPermission name args | PermRemove => DeletePermission name | PermAdd => AddPermission name args end) m)
    (do_site_perm stack ct s) s.
Proof.
  intros Hr Hv H1 H2 H3 Hargs. unfold do_site_perm.
  rewrite (bind_run _ _ s _ _ (run_word _ _ _ _ H1)). rewrite (bind_run _ _ _ _ _ (run_word ws (set_line s l1) _ _ H2)).
  rewrite (bind_run _ _ _ word _ eq_refl). rewrite !(verb_is word v) by done. pose proof (run_word eol (set_line (set_line s l1) l2) _ _ H3) as Hw.
  destruct v; eval_verbs; (try (destruct Hargs as [a ->]; [done|]; rewrite (bind_run _ _ _ _ _ Hw))).
  - exact (tells_op (SetPermission name (Some a)) ct m "Command okay, permission changed" "Error changing permission" (-1) 1 (set_line (set_line (set_line s l1) l2) l3) Hr).
  - exact (tells_op (DeletePermission name) ct m "Command okay, permission deleted" "Error, permission NOT deleted" 0 0 (set_line (set_line s l1) l2) Hr).
  - exact (tells_op (AddPermission name (Some a)) ct m "Command okay, permission changed" "Error adding permission" 0 1 (set_line (set_line (set_line s l1) l2) l3) Hr).
Qed.

(** C32. [SITE PERM] with CHANGE, ADD or REMOVE, the name of a command and, for the
    first two, a line of well-formed entries: for an unknown command the reply is
    501 and nothing changes. For a command that is there the reply is 200 and the
    permissions of that command alone change: REMOVE leaves none; CHANGE leaves
    one, of that name, with the entries of the line, each once; ADD puts those that
    are not there yet at the end of the permission of exactly that name, or of a
    new one after the others. Users and clients stay as they are. A permission
    that ADD makes under a name in another case is listed but never consulted
    ([perm_added_in_vain]). *)
Theorem site_perm_refines stack ct m s word v name args l1 l2 l3 ps l :
  holds_commands ct m → strcaseeq word (verb_name v) = true →
  tok_line ws (ss_line s) = (Some (Some word), l1) → tok_line ws l1 = (Some (Some name), l2) → tok_line eol l2 = (Some <$> args, l3) →
  (v ≠ PermRemove → ∃ a, args = Some a ∧ line_grants a ps) → nul_free name → name ≠ [] → (length name < 256)%nat →
  (∀ com, m !! lower name = Some com → cm_perms com = map perm_repr l ∧ Forall abs_ok l) →
  ∃ ret ct' s' code text, do_site_perm stack ct s ⇓ ((ret, ct'), s') ∧ ss_world s' = ss_world s ∧ ss_out s' = ss_out s ++ [Reply code text] ∧
    match m !! lower name with
    | None => code = 501 ∧ holds_commands ct' m
    | Some com => code = 200 ∧ holds_commands ct' (<[lower name := with_perms com (map perm_repr (perm_change v name ps l))]> m)
    end.
Proof.
  intros Hr Hv H1 H2 H3 Hargs Hn Hne Hl Hm. assert (Hsome : v ≠ PermRemove → is_Some args) by (intros [a [-> _]]%Hargs; by eexists).
  pose proof (tells_perm stack ct m s word v name args l1 l2 l3 Hr Hv H1 H2 H3 Hsome) as H.
  assert (Hop : spec_op (match v with PermChange => SetPermission name args | PermRemove => DeletePermission name | PermAdd => AddPermission name args end) m =
    match m !! lower name with
    | None => Val (match v with PermRemove => 1 | _ => -1 end, m)
    | Some com => Val (0, <[lower name := with_perms com (map perm_repr (perm_change v name ps l))]> m)
    end).
  { destruct v; cbn [spec_op]; unfold spec_perms; (destruct (m !! lower name) as [com|]; [|done]); destruct (Hm com eq_refl) as [Hp Hok].
    - destruct Hargs as (a & -> & Ha); [done|]. pose proof (perm_add_perm_grants name a ps []) as Hg. cbn [map] in Hg. rewrite Hg by done. done.
    - done.
    - destruct Hargs as (a & -> & Ha); [done|]. rewrite Hp, (perm_add_perm_grants name a ps l) by done. done. }
  rewrite Hop in H. destruct (m !! lower name) as [com|]; destruct H as (ret & ct' & s' & text & Hrun & Hh & Hw & Ho);
    (eexists ret, ct', s', _, text; split_and!; [exact Hrun|done|exact Ho| |done]); [done|by destruct v].
Qed.

Lemma site_perm_refines_witness :
  ∃ ct m com, holds_commands ct m ∧ m !! str "site_kick" = Some com ∧
    ∃ ret ct' s' code text, do_site_perm (replicate 256 NUL) ct (su_session 0 "Add site_kick =bob +O") = Val ((ret, ct'), s') ∧
      ss_world s' = su_world ∧ ss_out s' = [Reply code text] ∧
      code = 200 ∧ holds_commands ct' (<[str "site_kick" := with_perms com (map perm_repr [(str "site_kick", [(CPERM_USER, str "bob"); (CPERM_FLAG, str "O")])])]> m).
Proof.
  destruct demo_table as (ct & m & Hr & [_ Hkick]). exists ct, m. eexists. split; [done|]. split; [exact Hkick|].
  pose proof (site_perm_refines (replicate 256 NUL) ct m (su_session 0 "Add site_kick =bob +O") (str "Add") PermAdd (str "site_kick") (Some (str "=bob +O"))
    (str "site_kick =bob +O") (str "=bob +O") [] [(CPERM_USER, str "bob"); (CPERM_FLAG, str "O")] [] Hr) as H.
  change (lower (str "site_kick")) with (str "site_kick") in H. rewrite Hkick in H. apply H; try by vm_compute.
  - intros _. eexists. split; [done|]. split; [by_vm|]. split; [done|]. split; [apply Nat.ltb_lt; by vm_compute|]. split; [by vm_compute|].
    repeat constructor; try by_vm; apply Nat.ltb_lt; by vm_compute.
  - by_vm.
  - apply Nat.ltb_lt. by vm_compute.
  - intros com [= <-]. split; [done|constructor].
Defined.

(** ADD with a command name in another case replies 200, but makes a second
    permission after the one that is consulted: bob is still refused. *)
Example perm_added_in_vain :
  let run (line : string) (ct : ctable) := match do_site_perm (replicate 256 NUL) ct (su_session 0 line) with Val ((_, ct'), s') => Some (ct', ss_out s') | Crash => None end in
  match default_table ≫= run "change site_kick =ann"%string with
  | Some (ct, _) =>
    match run "add SITE_KICK =bob"%string ct with
    | Some (ct', out) =>
      out = [Reply 200 (str "Command okay, permission changed")] ∧
      match client_line su_backend ct' su_world 2 (str "SITE KICK ann" ++ [CR; LF]) 15 with Val Denied => True | _ => False end
    | None => False
    end
  | None => False
  end.
Proof. by vm_compute. Qed.

(** ** VFSADD *)

Lemma until_sep_app sep room v rest : sep ∉ v → (length v ≤ room)%nat → until_sep sep room (v ++ sep :: rest) = Some (v, sep :: rest).
Proof.
  revert room. induction v as [|c v IH]; intros room Hv Hl; cbn [app until_sep].
  - by rewrite bool_decide_eq_true_2.
  - apply not_elem_of_cons in Hv as [Hc Hv]. rewrite bool_decide_eq_false_2 by congruence.
    destruct room as [|room]; simpl in Hl; [lia|]. rewrite IH by (done || lia). done.
Qed.

(** [SITE VFSADD] reads its line as it is written: any separator, a virtual path
    and a physical path without it, blanks, and the rest as the permission when there
    is a rest; what it adds is what [vfs_add_restricted] adds for them, or nothing
    when the physical path is missing or the virtual one is taken. *)
Theorem site_vfsadd_parses exists_ vfs s sep vpath ppath blanks t :
  sep ∉ vpath → sep ∉ ppath → Forall (λ c, is_blank c = true) blanks → from_option (λ c, is_blank c = false) True (head t) →
  let line := sep :: vpath ++ sep :: ppath ++ sep :: blanks ++ t in
  (length line < 1024)%nat →
  let '(ret, l) := vfs_add_restricted vfs vpath ppath (match t with [] => None | _ => Some t end) (exists_ ppath) in
  ∃ text, do_site_vfsadd exists_ line vfs s ⇓ ((0, l), add_event s (Reply (if ret =? 0 then 200 else 501) text)).
Proof.
  intros Hv Hp Hb Ht line Hl. assert (Hlen : length line = (S (length vpath + S (length ppath + S (length blanks + length t))))%nat).
  { unfold line. repeat (rewrite length_app || cbn [length]). lia. }
  unfold do_site_vfsadd. rewrite (proj2 (Nat.leb_gt _ _)) by lia. cbv zeta. remember (length line) as n. clear Heqn. unfold line.
  cbn [head tail default from_option id]. rewrite until_sep_app by (done || lia). cbn [tail].
  rewrite until_sep_app by (done || lia). cbn [tail].
  assert (Hskip : skip_while is_blank (blanks ++ t) = t).
  { clear -Hb Ht. induction Hb as [|c l Hc Hb IH]; cbn [app skip_while]; [|by rewrite Hc]. destruct t as [|c t]; [done|]. cbn [head from_option] in Ht. cbn [skip_while]. by rewrite Ht. }
  rewrite Hskip. unfold vfs_add_restricted. destruct (existsb _ _); [by eexists|]. destruct (exists_ ppath), t; cbn [negb]; eexists; reflexivity.
Qed.

Lemma site_vfsadd_parses_witness :
  ∃ text, do_site_vfsadd (λ p, streq p (str "/data/b c")) (str "|/home/v|/data/b c|  =bob") [] (su_session 0 "") =
    Val ((0, [mkVfs (str "/home/v") (str "/data/b c") (Some (str "=bob"))]), add_event (su_session 0 "") (Reply 200 text)).
Proof.
  apply (site_vfsadd_parses (λ p, streq p (str "/data/b c")) [] (su_session 0 "") "|" (str "/home/v") (str "/data/b c") (str "  ") (str "=bob"));
    [by_vm|by_vm|by_vm|done|apply Nat.ltb_lt; by vm_compute].
Defined.

(** ** The log *)

(** The [n] last elements. *)
Definition last_n {A} (n : nat) (l : list A) : list A := drop (length l - n) l.

(** What the array holds after some messages. *)
Definition log_of (n : nat) (msgs : list bytes) : list (option bytes) :=
  map Some (last_n n msgs) ++ replicate (n - length msgs) None.

Lemma find_free (l : list bytes) k : list_find (λ d, d = None) (map Some l ++ replicate k None) = if decide (k = 0%nat) then None else Some (length l, None).
Proof.
  induction l as [|x l IH]; cbn [map app length].
  - destruct k; done.
  - cbn [list_find]. rewrite IH. repeat case_decide; done.
Qed.

(** After any sequence of messages, an array of [n] places holds the [n] last ones in
    order, followed by empty places when there are fewer. *)
Lemma log_keeps_last n msgs :
  (0 < n)%nat → fold_left buffer_push msgs (replicate n None) = log_of n msgs.
Proof.
  intros Hn. induction msgs as [|s msgs IH] using rev_ind.
  - unfold log_of, last_n. by rewrite Nat.sub_0_r.
  - rewrite fold_left_app, IH. cbn [fold_left]. unfold buffer_push, log_of. rewrite find_free, length_app. cbn [length].
    case_decide as Hfull.
    + replace (n - (length msgs + 1))%nat with 0%nat by lia. rewrite Hfull. cbn [replicate]. rewrite !app_nil_r.
      unfold last_n. rewrite length_app. cbn [length]. rewrite drop_app_le by lia.
      replace (length msgs + 1 - n)%nat with (S (length msgs - n)) by lia.
      destruct (drop (length msgs - n) msgs) as [|x l] eqn:E.
      { apply (f_equal length) in E. rewrite length_drop in E. simpl in E. lia. }
      cbn [map]. rewrite map_app. cbn [map]. f_equal. f_equal.
      assert (E' : drop (S (length msgs - n)) msgs = l); [|by rewrite E'].
      replace (S (length msgs - n)) with (length msgs - n + 1)%nat by lia. rewrite <- drop_drop, E. done.
    + assert (Hlast : ∀ l : list bytes, (length l ≤ n)%nat → last_n n l = l) by (intros l Hl; unfold last_n; by replace (length l - n)%nat with 0%nat by lia).
      rewrite !Hlast by (rewrite ?length_app; simpl; lia). destruct (n - length msgs)%nat as [|k] eqn:Ek; [lia|].
      replace (n - (length msgs + 1))%nat with k by lia. cbn [replicate].
      rewrite insert_app_r_alt by (rewrite length_map; lia). rewrite length_map, Nat.sub_diag. cbn. by rewrite map_app, <- app_assoc.
Qed.

Definition with_out (s : session) (l : list event) : session := mkSession (ss_world s) (ss_ctx s) (ss_line s) (ss_out s ++ l).

Definition message (m : bytes) : event := Raw (str " " ++ m).

Lemma show_lines_run n i log s :
  (i + n ≤ length log)%nat → show_lines n i log s = Val (tt, with_out s (omap (option_map message) (take n (drop i log)))).
Proof.
  revert i s. induction n as [|n IH]; intros i s Hn; cbn [show_lines].
  - cbn. unfold with_out. rewrite app_nil_r. by destruct s.
  - destruct (log !! i) as [d|] eqn:Hd; [|apply lookup_ge_None in Hd; lia]. rewrite (drop_S _ _ _ Hd). cbn [take omap list_omap].
    destruct d as [m|]; cbn [option_map].
    + rewrite (bind_run _ _ s (Some m) s eq_refl). rewrite (bind_run _ _ s tt (add_event s (message m)) eq_refl).
      rewrite IH by lia. unfold with_out, add_event. cbn [ss_out ss_world ss_ctx ss_line]. by rewrite <- app_assoc.
    + rewrite (bind_run _ _ s None s eq_refl). rewrite (bind_run _ _ s tt s eq_refl). by apply IH; lia.
Qed.

Lemma length_log_of n msgs : length (log_of n msgs) = n.
Proof. unfold log_of, last_n. rewrite length_app, length_map, length_drop, length_replicate. lia. Qed.

Lemma omap_messages l k : omap (option_map message) (map Some l ++ replicate k None) = map message l.
Proof. induction l as [|m l IH]; cbn [map app omap list_omap option_map]; [|by rewrite <- IH]. by induction k. Qed.

Lemma find_used k (m : bytes) rest : list_find is_Some (replicate k None ++ Some m :: rest) = Some (k, Some m).
Proof.
  induction k as [|k IH]; cbn [replicate app list_find].
  - rewrite decide_True; [done|by exists m].
  - rewrite decide_False by by intros []. by rewrite IH.
Qed.

Lemma find_unused k : list_find is_Some (replicate k (None : option bytes)) = None.
Proof. induction k as [|k IH]; cbn [replicate list_find]; [done|]. rewrite decide_False by by intros []. by rewrite IH. Qed.

Lemma last_used_of n msgs : last_used (log_of n msgs) = (length (last_n n msgs) - 1)%nat.
Proof.
  unfold last_used. pose proof (length_log_of n msgs) as Hl. unfold log_of in *. set (k := (n - length msgs)%nat) in *.
  rewrite Hl. rewrite length_app, length_map, length_replicate in Hl. rewrite reverse_app, reverse_replicate.
  destruct (last_n n msgs) as [|m l _] using rev_ind.
  - cbn [map]. change (reverse []) with ([] : list (option bytes)). by rewrite app_nil_r, find_unused.
  - rewrite map_app, reverse_app. cbn [map]. change (reverse [Some m]) with [Some m]. cbn [app]. rewrite find_used.
    rewrite length_app in *. simpl in *. lia.
Qed.

(** What [SITE SHOWLOG] shows with a number [v] below the size of the log: all the
    messages kept when there are at most [v], and otherwise [v] of them in order, which
    end before the last one. No place out of the array is read. *)
Theorem showlog_shows n msgs line v s :
  (0 < n)%nat → line ≠ [] → strtoul line = (Z.of_nat v, []) → (v < n)%nat →
  let l := last_n n msgs in
  let shown := if (v <? length l)%nat then take v (drop (length l - 1 - v) l) else l in
  do_site_showlog (Some (fold_left buffer_push msgs (replicate n None))) line s ⇓
    (0, with_out s ([Raw (str "200-" ++ eol)] ++ map message shown ++ [Raw (str "200 " ++ eol)])).
Proof.
  intros Hn Hne Hst Hv l shown. rewrite log_keeps_last by done. unfold do_site_showlog, log_window. destruct line as [|c line]; [done|].
  rewrite Hst, length_log_of, last_used_of. rewrite bool_decide_eq_true_2 by done.
  rewrite (proj2 (Z.ltb_lt (Z.of_nat v) (Z.of_nat n))) by lia. cbn [andb]. rewrite Nat2Z.id. fold l.
  assert (Hfit : (length l - 1 - v + v ≤ length (log_of n msgs))%nat) by (rewrite length_log_of; unfold l, last_n; rewrite length_drop; lia).
  rewrite (bind_run _ _ s tt (add_event s (Raw (str "200-" ++ eol))) eq_refl).
  rewrite (bind_run _ _ _ _ _ (show_lines_run v (length l - 1 - v) (log_of n msgs) _ Hfit)).
  assert (Hshown : omap (option_map message) (take v (drop (length l - 1 - v) (log_of n msgs))) = map message shown).
  { unfold log_of, shown. fold l. destruct (Nat.ltb_spec v (length l)) as [Hlt|Hge].
    - rewrite drop_app_le, take_app_le by (rewrite ?length_drop, length_map; lia).
      rewrite <- (omap_messages _ 0), app_nil_r. f_equal. change (map Some ?x) with (Some <$> x). by rewrite fmap_take, fmap_drop.
    - replace (length l - 1 - v)%nat with 0%nat by lia. rewrite drop_0, take_app_ge by (rewrite length_map; lia).
      rewrite take_replicate. by rewrite omap_messages. }
  rewrite Hshown. rewrite (bind_run _ _ _ tt _ eq_refl). unfold with_out, add_event. cbn [ss_out ss_world ss_ctx ss_line].
  by rewrite <- !app_assoc.
Qed.

Lemma showlog_shows_witness :
  do_site_showlog (Some (fold_left buffer_push [str "a"; str "b"; str "c"; str "d"] (replicate 3 None))) (str "2") (su_session 0 "") =
    Val (0, with_out (su_session 0 "") ([Raw (str "200-" ++ eol)] ++ map message [str "b"; str "c"] ++ [Raw (str "200 " ++ eol)])).
Proof. apply (showlog_shows 3 [str "a"; str "b"; str "c"; str "d"] (str "2") 2 (su_session 0 "")); [lia|done|by vm_compute|lia]. Defined.

(** Without a number the first ten places are shown, the oldest messages. *)
Example showlog_oldest :
  option_map (λ m, omap (λ e, match e with Raw t => Some t | _ => None end) (ss_out m.2))
    (match do_site_showlog (Some (fold_left buffer_push (map (λ n, [ascii_of_nat (97 + n)]) (seq 0 12)) (replicate 12 None))) [] (su_session 0 "") with
     | Val r => Some r | Crash => None end)
  = Some ([str "200-" ++ eol] ++ map (λ n, " "%char :: [ascii_of_nat (97 + n)]) (seq 0 10) ++ [str "200 " ++ eol]).
Proof. by vm_compute. Qed.

(** ** UPTIME *)

(** Days, hours, minutes and seconds, from the first that is not 0. *)
Definition uptime_text (days hours mins secs : Z) : bytes :=
  let part n unit := decimal n ++ str unit in
  if negb (days =? 0) then part days "d " ++ part hours "h " ++ part mins "m " ++ part secs "s"
  else if negb (hours =? 0) then part hours "h " ++ part mins "m " ++ part secs "s"
  else if negb (mins =? 0) then part mins "m " ++ part secs "s"
  else if negb (secs =? 0) then part secs "s"
  else str "0 seconds".

(** The time is shown as it is except for the seconds, which are those of the time
    modulo 65536. *)
Lemma time_to_str_text t : 0 ≤ t < 65536 * 86400 →
  time_to_str t = uptime_text (t / 86400) (t / 3600 mod 24) (t / 60 mod 60) (t mod 65536 mod 60).
Proof.
  intros Ht. unfold time_to_str, uptime_text, u16. change (2 ^ 16) with 65536.
  assert (Hd : (t ÷ 86400) mod 65536 = t / 86400).
  { rewrite Z.quot_div_nonneg by lia. apply Z.mod_small. split; [apply Z.div_pos; lia|apply Z.div_lt_upper_bound; lia]. }
  rewrite Hd. pose proof (Z.div_mod t 86400 ltac:(lia)) as E. pose proof (Z.mod_pos_bound t 86400 ltac:(lia)) as B.
  replace (t - t / 86400 * 86400) with (t mod 86400) by lia. set (r := t mod 86400) in *.
  assert (Hh : (r ÷ 3600) mod 65536 = t / 3600 mod 24).
  { rewrite Z.quot_div_nonneg by lia. rewrite Z.mod_small by (split; [apply Z.div_pos|apply Z.div_lt_upper_bound]; lia).
    unfold r. Z.div_mod_to_equations. lia. }
  rewrite Hh. assert (Hm : ((r - t / 3600 mod 24 * 3600) ÷ 60) mod 65536 = t / 60 mod 60).
  { assert (0 ≤ r - t / 3600 mod 24 * 3600 < 3600) by (unfold r; Z.div_mod_to_equations; lia).
    rewrite Z.quot_div_nonneg by lia. rewrite Z.mod_small by (split; [apply Z.div_pos|apply Z.div_lt_upper_bound]; lia).
    unfold r. Z.div_mod_to_equations. lia. }
  rewrite Hm. cbv zeta. by rewrite <- !app_assoc.
Qed.

(** Up to 18 hours the text is right. *)
Lemma time_to_str_right t : 0 ≤ t < 65536 → time_to_str t = uptime_text (t / 86400) (t / 3600 mod 24) (t / 60 mod 60) (t mod 60).
Proof. intros Ht. rewrite time_to_str_text by lia. by rewrite (Z.mod_small t 65536). Qed.

Example uptime_wrong : time_to_str 86400 = str "1d 0h 0m 44s" ∧ time_to_str 65535 = str "18h 12m 15s" ∧ time_to_str 65536 = str "18h 12m 0s".
Proof. by vm_compute. Qed.

