(* ===== verification/ListingProps.v ===== *)
(** * What a listing shows

    Masks select the names they should in the forms clients use; the lines of a
    listing are sent in order, none lost or cut, whatever the size of the buffer; a
    directory shows its visible files and the links of its permission file. *)
From S2P Require Import Prelude Inet CList Registry Users Backend Ip Perm Path PermFile Vfs Session SiteUserProps Commands Chdir Login LoginProps Sections FileOps Transfer TransferProps FileOpsProps Handlers HandlersProps Listing.

(** ** Masks *)

(** A star stands for any text, a question mark for any character. *)
Inductive glob : bytes → bytes → Prop :=
  | glob_nil : glob [] []
  | glob_any m d s : glob m s → glob (QUESTION :: m) (d :: s)
  | glob_char c m s : c ≠ STAR → c ≠ QUESTION → glob m s → glob (c :: m) (c :: s)
  | glob_star m s t : glob m t → glob (STAR :: m) (s ++ t).

(** No two stars follow each other. *)
Fixpoint single_stars (m : bytes) : bool :=
  match m with
  | [] => true
  | c :: m => negb (bool_decide (c = STAR) && bool_decide (head m = Some STAR)) && single_stars m
  end.

(** The forms [name], [*name], [name*] and [*name*]. *)
Definition stars_at_ends (mask : bytes) : Prop :=
  ∃ a m z, mask = a ++ m ++ z ∧ (STAR ∉ m) ∧ (a = [] ∨ a = [STAR]) ∧ (z = [] ∨ z = [STAR]).

Lemma match_chars_total mask s star : (∃ r, star tt = Val r) → ∃ r, match_chars mask s star = Val r.
Proof.
  intros Hs. revert s. induction mask as [|c mask IH]; intros s; cbn [match_chars]; [by eexists|].
  case_bool_decide; [done|]. destruct s as [|d s]; [by eexists|]. case_match; [apply IH|by eexists].
Qed.

Lemma any_end_total f s : (∀ t, ∃ r, f t = Val r) → ∃ r, any_end f s = Val r.
Proof.
  intros Hf. induction s as [|d s [r IH]]; cbn [any_end]; [by eexists|]. destruct (Hf (d :: s)) as [[] ->]; run; by eexists.
Qed.

Lemma list_match_total mask s : mask ≠ [] → ∃ r, list_match mask s = Val r.
Proof.
  revert s. induction mask as [|c mask IH]; intros s Hne; [done|]. cbn [list_match]. apply match_chars_total. unfold guess_star.
  destruct mask as [|c' mask]; [by eexists|]. apply any_end_total. intros t. by apply IH.
Qed.

Lemma any_end_true f s : (∀ t, ∃ r, f t = Val r) → any_end f s = Val true ↔ ∃ p t, s = p ++ t ∧ t ≠ [] ∧ f t = Val true.
Proof.
  intros Hf. induction s as [|d s IH]; cbn [any_end].
  - split; [done|]. intros (p & t & E & Ht & _). symmetry in E. by apply app_eq_nil in E as [_ ->].
  - destruct (Hf (d :: s)) as [r Hr]. rewrite Hr. run. destruct r.
    + split; [|done]. intros _. by exists [], (d :: s).
    + rewrite IH. split.
      * intros (p & t & -> & Ht). by exists (d :: p), t.
      * intros (p & t & E & Ht & Hft). destruct p as [|x p]; simpl in E; [subst t; congruence|]. injection E as <- ->. by exists p, t.
Qed.

Lemma any_end_match mask s : mask ≠ [] → any_end (list_match mask) s = Val true ↔ ∃ p t, s = p ++ t ∧ t ≠ [] ∧ list_match mask t = Val true.
Proof. intros Hm. apply any_end_true. intros t. by apply list_match_total. Qed.

(** A text that fits the mask is read up to the first star, if there is one. *)
Lemma match_chars_glob mask s star : glob mask s → match_chars mask s star = Val true ∨ match_chars mask s star = star tt ∧ STAR ∈ mask.
Proof.
  induction 1 as [|m d s _ IH|c m s Hc Hq _ IH|m s t _ _]; cbn [match_chars].
  - by left.
  - rewrite bool_decide_eq_false_2 by done. rewrite bool_decide_eq_true_2 by done. cbn [orb]. destruct IH as [|[? ?]]; [by left|right]. split; [done|by right].
  - rewrite bool_decide_eq_false_2 by done. rewrite (bool_decide_eq_true_2 (c = c)), orb_true_r by done.
    destruct IH as [|[? ?]]; [by left|right]. split; [done|by right].
  - right. rewrite bool_decide_eq_true_2 by done. split; [done|by left].
Qed.

Lemma glob_nil_inv m : glob m [] → single_stars m = true → m = [] ∨ m = [STAR].
Proof.
  remember [] as s eqn:E. intros H. revert E. induction H as [| | |m s t H IH]; try done; [by left|]. intros E Hs.
  apply app_eq_nil in E as [-> ->]. right. f_equal. cbn [single_stars] in Hs. apply andb_true_iff in Hs as [H1 H2].
  rewrite (bool_decide_eq_true_2 (STAR = STAR)) in H1 by done. destruct (IH eq_refl H2) as [->| ->]; done.
Qed.

Lemma glob_found mask s : mask ≠ [] → single_stars mask = true → glob mask s → list_match mask s = Val true.
Proof.
  revert s. induction mask as [|c mask IH]; intros s Hne Hss Hg; [done|]. cbn [list_match].
  destruct (match_chars_glob _ _ (λ _, guess_star (list_match mask) mask s) Hg) as [|[-> Hin]]; [done|]. unfold guess_star.
  destruct mask as [|c' mask]; [done|]. cbn [single_stars] in Hss. apply andb_true_iff in Hss as [Hd Hss]. fold (single_stars (c' :: mask)) in Hss.
  apply any_end_match; [done|]. inversion Hg as [|m' d s0 H3|c0 m' s0 Hc Hq H4|m' s0 t H2]; subst.
  - destruct s0 as [|e s0].
    + destruct (glob_nil_inv _ H3 Hss) as [|E]; [done|]. injection E as -> ->. by exists [], [d].
    + exists [d], (e :: s0). split; [done|]. split; [done|]. by apply IH.
  - destruct s0 as [|e s0].
    + destruct (glob_nil_inv _ H4 Hss) as [|E]; [done|]. injection E as -> ->. by exists [], [c].
    + exists [c], (e :: s0). split; [done|]. split; [done|]. by apply IH.
  - exists s0, t. split; [done|]. split; [|by apply IH]. intros ->.
    destruct (glob_nil_inv _ H2 Hss) as [|E]; [done|]. injection E as -> ->. done.
Qed.

Lemma match_chars_plain m s star : STAR ∉ m → match_chars m s star = Val true → glob m s.
Proof.
  revert s. induction m as [|c m IH]; intros s Hm; cbn [match_chars].
  - intros E. injection E as E. apply bool_decide_eq_true in E as ->. constructor.
  - apply not_elem_of_cons in Hm as [Hc Hm]. rewrite bool_decide_eq_false_2 by done. destruct s as [|d s]; [done|].
    destruct (decide (c = QUESTION)) as [->|Hq]; [intros H; constructor; by apply IH|].
    rewrite (bool_decide_eq_false_2 (c = QUESTION)) by done. cbn [orb]. case_bool_decide as Hd; [|done]. subst d.
    intros H. constructor; [done|done|by apply IH].
Qed.

Lemma match_chars_star m s star : STAR ∉ m → match_chars (m ++ [STAR]) s star = Val true → glob (m ++ [STAR]) s.
Proof.
  revert s. induction m as [|c m IH]; intros s Hm; cbn [match_chars app].
  - intros _. rewrite <- (app_nil_r s). repeat constructor.
  - apply not_elem_of_cons in Hm as [Hc Hm]. rewrite bool_decide_eq_false_2 by done. destruct s as [|d s]; [done|].
    destruct (decide (c = QUESTION)) as [->|Hq]; [intros H; constructor; by apply IH|].
    rewrite (bool_decide_eq_false_2 (c = QUESTION)) by done. cbn [orb]. case_bool_decide as Hd; [|done]. subst d.
    intros H. constructor; [done|done|by apply IH].
Qed.

Lemma tail_sound m z s : STAR ∉ m → z = [] ∨ z = [STAR] → m ++ z ≠ [] → list_match (m ++ z) s = Val true → glob (m ++ z) s.
Proof.
  intros Hm Hz Hne H. destruct (m ++ z) as [|c l] eqn:E; [done|]. cbn [list_match] in H. rewrite <- E in *.
  destruct Hz as [->| ->].
  - rewrite app_nil_r in *. by eapply match_chars_plain.
  - by eapply match_chars_star.
Qed.

(** C25. Masks: every name that a mask without adjacent stars stands for is
    selected, and when the stars are at the ends of the mask ([name], [*name],
    [name*], [*name*]) no other name is. *)
Theorem list_match_glob mask s :
  mask ≠ [] → single_stars mask = true →
  (glob mask s → list_match mask s = Val true) ∧ (stars_at_ends mask → list_match mask s = Val true → glob mask s).
Proof.
  intros Hne Hss. split; [by apply glob_found|]. intros (a & m & z & -> & Hm & Ha & Hz) H.
  destruct Ha as [->| ->]; [cbn [app] in *; by apply tail_sound|]. cbn [app list_match match_chars] in *.
  rewrite bool_decide_eq_true_2 in H by done. unfold guess_star in H. destruct (m ++ z) as [|c l] eqn:E.
  - rewrite <- (app_nil_r s). repeat constructor.
  - rewrite <- E in H. apply any_end_match in H as (p & t & -> & _ & Ht); [|by rewrite E]. rewrite <- E. constructor.
    apply tail_sound; [done..|by rewrite E|done].
Qed.

Lemma list_match_glob_witness : list_match (str "*.c") (str "a.c") = Val true ∧ glob (str "*.c") (str "a.c").
Proof.
  assert (H : glob (str "*.c") (str "a.c")).
  { apply (proj2 (list_match_glob (str "*.c") (str "a.c") ltac:(done) ltac:(by vm_compute))); [|by vm_compute].
    exists [STAR], (str ".c"), []. split_and!; [done|by_decision|by right|by left]. }
  split; [|done]. apply (proj1 (list_match_glob (str "*.c") (str "a.c") ltac:(done) ltac:(by vm_compute)) H).
Defined.

(** A star in the middle may stand for less than nothing. *)
Example star_overlaps : list_match (str "a*a") (str "a") = Val true ∧ ¬ glob (str "a*a") (str "a").
Proof.
  split; [by vm_compute|]. intros H.
  assert (Ht : glob (str "*a") []) by (inversion H; subst; done). apply glob_nil_inv in Ht; [|done]. by destruct Ht.
Qed.

(** Two stars are not the same as one. *)
Example two_stars : list_match (str "a**") (str "a") = Val true ∧ list_match (str "**") [] = Val false.
Proof. by vm_compute. Qed.

(** ** Lines on the data connection *)

Section sending.
  Context {F : Type} `{!FileSystem F}.

Definition sent (h : hstate F) (chunks : list bytes) : hstate F := mkH (h_s h) (h_x h) (h_fs h) (h_calls h ++ map SysSend chunks).

Lemma sent_nil h : sent h [] = h.
Proof. unfold sent. rewrite app_nil_r. by destruct h. Qed.
Lemma sent_sent h a b : sent (sent h a) b = sent h (a ++ b).
Proof. unfold sent. cbn [h_s h_x h_fs h_calls]. by rewrite map_app, app_assoc. Qed.
Lemma run_list_callback (h : hstate F) line : list_callback line h = Val (true, sent h [line]).
Proof. reflexivity. Qed.

(** The buffer holds what was not sent yet. *)
Definition fits (s : bytes) : Prop := (length s < HARD_LS_BUFFERSIZE - 1)%nat.

Lemma wrapper_add (h : hstate F) buf line :
  fits buf → fits line → ∃ chunks buf',
    list_call_wrapper list_callback (buf, length buf) (Some line) h = Val ((false, (buf', length buf')), sent h chunks) ∧
    concat chunks ++ buf' = buf ++ line ∧ fits buf' ∧ Forall fits chunks.
Proof.
  intros Hb Hl. unfold list_call_wrapper. destruct (Nat.leb_spec (HARD_LS_BUFFERSIZE - 1) (length buf + length line)).
  - exists [buf], line. rewrite (hbind _ _ h true (sent h [buf])) by apply run_list_callback. cbn [negb].
    rewrite (proj2 (Nat.leb_gt _ _)) by (unfold fits in Hl; lia). split; [done|]. cbn [concat]. rewrite app_nil_r. split; [done|]. split; [done|by constructor].
  - exists [], (buf ++ line). rewrite take_ge by done. rewrite sent_nil, length_app. split; [done|]. split; [done|]. split; [unfold fits; rewrite length_app; lia|constructor].
Qed.

Lemma wrapper_flush (h : hstate F) buf : ∃ chunks r, list_call_wrapper list_callback (buf, length buf) None h = Val (r, sent h chunks) ∧ concat chunks = buf ∧
  (fits buf → Forall fits chunks).
Proof.
  unfold list_call_wrapper. destruct buf as [|c buf].
  - exists []. rewrite sent_nil. eexists. split; [reflexivity|]. split; [done|constructor].
  - exists [c :: buf]. rewrite (hbind _ _ h true (sent h [c :: buf])) by apply run_list_callback. eexists. split; [reflexivity|].
    cbn [concat]. rewrite app_nil_r. split; [done|]. by constructor.
Qed.

Context `{!ListSystem F}.
Context (ctime : Z → bytes) (now : Z) (to_utf8 : bytes → bytes).
Context (flags format : Z) (mask : option bytes) (dir : bytes).

(** The lines of the files that are shown. *)
Definition lines_of (fs : F) (files : list wzd_file_t) (lines : list (option bytes)) : Prop :=
  Forall2 (λ f l, list_line ctime now to_utf8 fs flags format mask dir f = Val l) files lines.

Lemma list_loop_sends files lines (h : hstate F) watchdog buf :
  lines_of (h_fs h) files lines → Forall fits (omap id lines) → fits buf → watchdog + Z.of_nat (length files) ≤ 65536 →
  ∃ chunks buf', list_loop ctime now to_utf8 list_callback flags format mask dir files watchdog (buf, length buf) h
      = Val ((buf', length buf'), sent h chunks) ∧
    concat chunks ++ buf' = buf ++ concat (omap id lines) ∧ fits buf' ∧ Forall fits chunks.
Proof.
  revert lines watchdog buf h. induction files as [|f files IH]; intros lines watchdog buf h Hl Hf Hb Hw.
  - inversion Hl; subst. exists [], buf. rewrite sent_nil. cbn [omap list_omap concat]. rewrite app_nil_r. by repeat split.
  - inversion Hl as [|? l ? lines' Hline Hl']; subst. cbn [length list_loop] in *. rewrite (proj2 (Z.ltb_ge 65535 watchdog)) by lia.
    rewrite (hbind _ _ h h h) by done. rewrite (step_must _ l) by done. clear Hline. destruct l as [line|]; cbn [omap list_omap id] in *.
    + apply Forall_cons in Hf as [Hfl Hf]. destruct (wrapper_add h buf line Hb Hfl) as (c1 & buf1 & Hrun & Hc1 & Hb1 & Hfc1).
      rewrite (hbind _ _ _ _ _ Hrun). destruct (IH lines' (watchdog + 1) buf1 (sent h c1)) as (c2 & buf2 & Hrun2 & Hc2 & Hb2 & Hfc2); [done..|lia|].
      exists (c1 ++ c2), buf2. rewrite <- sent_sent. split; [exact Hrun2|]. split; [|by split; [|apply Forall_app]].
      rewrite concat_app, <- app_assoc, Hc2, app_assoc, Hc1. by rewrite <- app_assoc.
    + apply IH; [done..|lia].
Qed.
End sending.

(** ** What a directory shows *)

Definition named (f : wzd_file_t) (n : bytes) : Prop := buf_str (filename f) = Val n.
Definition name_ok (n : bytes) : Prop := nul_free n ∧ (length n < 256)%nat.

Lemma named_copy dst n : name_ok n → buf_str (wzd_strncpy dst n 256) = Val n.
Proof.
  intros [Hn Hl]. unfold buf_str. rewrite wzd_strncpy_fits by done. rewrite bool_decide_eq_true_2; [done|].
  unfold wzd_strncpy. rewrite take_ge by (rewrite length_app; simpl; lia). set_solver.
Qed.

Lemma remove_repr umask name l : Forall (dfile_ok umask) l →
  remove_file name (map repr l) = Val (match by_name name l with Some (i, d) => (Some (repr d), map repr (delete i l)) | None => (None, map repr l) end).
Proof.
  intros Hl. unfold remove_file, find_file. rewrite (find_file_repr umask) by done. run. destruct (by_name name l) as [[i d]|] eqn:E; cbn [fmap option_fmap option_map fst]; [|done].
  unfold by_name in E. apply list_find_Some in E as (Hi & _ & _). change (0 + i)%nat with i. do 2 f_equal.
  - change (map repr l) with (repr <$> l). by rewrite list_lookup_fmap, Hi.
  - change (map repr l) with (repr <$> l). change (map repr (delete i l)) with (repr <$> delete i l). by rewrite list_fmap_delete.
Qed.

Lemma filter_all {A} (P : A → Prop) `{!∀ x, Decision (P x)} l : Forall P l → filter P l = l.
Proof. induction 1; [done|]. rewrite filter_cons_True by done. by f_equal. Qed.

Lemma delete_named name l i d : NoDup (d_name <$> l) → by_name name l = Some (i, d) → delete i l = filter (λ d, d_name d ≠ name) l.
Proof.
  unfold by_name. revert i. induction l as [|e l IH]; intros i Hnd; cbn [list_find]; [done|]. cbn in Hnd. apply NoDup_cons in Hnd as [Hn Hnd].
  case_decide as He.
  - intros [= <- <-]. rewrite filter_cons_False by (by intros H; apply H). rewrite filter_all; [done|].
    apply Forall_forall. intros x Hx Hxn. apply Hn. rewrite <- He in Hxn. rewrite <- Hxn. apply list_elem_of_fmap. by exists x.
  - intros H. destruct (list_find _ l) as [[j e']|] eqn:E; [|done]. injection H as <- <-. rewrite filter_cons_True by done. cbn [delete list_delete fst]. f_equal. by apply IH.
Qed.

Section directory.
  Context {F : Type} `{!FileSystem F}.
  Context (b : option wzd_backend_t) (umask : Z) (hide_dotted : bool) (vfs : list wzd_vfs_t) (fs : F) (w : world) (user : wzd_user_t).

Definition shown (names : list bytes) : list bytes := filter (λ n, not_shown hide_dotted n = false) names.

(** A name that the permission file does not list can be described. *)
Definition describable (dir n : bytes) : Prop :=
  ∃ k, lstat_kind fs (dir ++ n) = Some k ∧ (k = FK_DIR → ∃ e, stat_file b umask vfs fs w user (dir ++ n) = Val e).

(** The entry of a name, as the permission file lists it if it does. *)
Definition entry_of (dl : list dfile) (e : wzd_file_t) (n : bytes) : Prop := named e n ∧ ∀ d, d ∈ dl → d_name d = n → e = repr d.

Lemma dir_entry_of dir dl n :
  Forall (dfile_ok umask) dl → NoDup (d_name <$> dl) → name_ok n → (length dir + 256 ≤ MAXPATH)%nat →
  (n ∉ d_name <$> dl → describable dir n) →
  ∃ e, dir_entry b umask vfs fs w user dir n (map repr dl) = Val (Some e, map repr (filter (λ d, d_name d ≠ n) dl)) ∧ entry_of dl e n.
Proof.
  intros Hdl Hnd Hn Hlen Hd. unfold dir_entry. rewrite (remove_repr umask) by done. destruct (by_name n dl) as [[i d]|] eqn:E.
  - run. pose proof E as E'. unfold by_name in E'. apply list_find_Some in E' as (Hi & Hdn & _). rewrite (delete_named _ _ _ _ Hnd E).
    exists (repr d). split; [done|]. assert (Hin : d ∈ dl) by (by eapply list_elem_of_lookup_2). split.
    + unfold named. cbn [filename repr]. subst n. destruct Hn. by apply buf_str_padded.
    + intros d' Hd' E'. f_equal. apply list_elem_of_lookup in Hd' as [j Hj]. assert (i = j) as ->; [|congruence].
      eapply NoDup_lookup; [exact Hnd|by rewrite list_lookup_fmap, Hi|]. rewrite list_lookup_fmap, Hj. cbn. congruence.
  - run. unfold by_name in E. apply list_find_None in E.
    assert (Hni : n ∉ d_name <$> dl).
    { intros (d & -> & Hin)%list_elem_of_fmap. rewrite Forall_forall in E. by apply (E d). }
    destruct (Hd Hni) as (k & Hk & Hdir). unfold path_in. destruct Hn as [Hnn Hnl].
    rewrite (proj2 (Nat.leb_gt _ _)), (proj2 (Nat.leb_gt _ _)) by lia. run. rewrite Hk.
    assert (Hrest : filter (λ d, d_name d ≠ n) dl = dl) by (by apply filter_all).
    case_bool_decide as Hkd.
    + destruct (Hdir Hkd) as [e ->]. run. rewrite Hrest. eexists. split; [reflexivity|]. split.
      * destruct e; unfold named; cbn [filename set_name bare_file]; by apply named_copy.
      * intros d Hin Hdn. destruct Hni. rewrite <- Hdn. apply list_elem_of_fmap. by exists d.
    + run. rewrite Hrest. eexists. split; [reflexivity|]. split; [unfold named; cbn [filename bare_file]; by apply named_copy|].
      intros d Hin Hdn. destruct Hni. rewrite <- Hdn. apply list_elem_of_fmap. by exists d.
Qed.

Lemma entry_of_less dl (P : dfile → Prop) `{!∀ d, Decision (P d)} e n :
  (∀ d, d ∈ dl → d_name d = n → P d) → entry_of (filter P dl) e n → entry_of dl e n.
Proof. intros HP [Hn He]. split; [done|]. intros d Hd Hdn. apply He; [|done]. apply list_elem_of_filter. split; [by apply HP|done]. Qed.

Lemma dir_entries_of dir names watchdog dl :
  Forall (dfile_ok umask) dl → NoDup (d_name <$> dl) → NoDup names → Forall name_ok names → (length dir + 256 ≤ MAXPATH)%nat →
  (∀ n, n ∈ shown names → n ∉ d_name <$> dl → describable dir n) → watchdog + Z.of_nat (length names) ≤ 65536 →
  ∃ entries, dir_entries b umask hide_dotted vfs fs w user dir names watchdog (map repr dl)
      = Val (Some (entries, map repr (filter (λ d, d_name d ∉ shown names) dl), watchdog + Z.of_nat (length names))) ∧
    Forall2 (entry_of dl) entries (shown names).
Proof.
  intros Hdl Hnd Hns Hnames Hlen. revert watchdog dl Hdl Hnd. induction names as [|n names IH]; intros watchdog dl Hdl Hnd Hd Hw.
  - exists []. cbn [dir_entries length shown]. rewrite Z.add_0_r. split; [|constructor]. do 3 f_equal. rewrite filter_all; [done|].
    apply Forall_forall. intros x _ Hx. by apply elem_of_nil in Hx.
  - apply NoDup_cons in Hns as [Hn Hns]. apply Forall_cons in Hnames as [Hok Hnames]. cbn [dir_entries length] in *.
    unfold MAX_DIRECTORY_ENTRIES in *. rewrite (proj2 (Z.ltb_ge 65535 watchdog)) by lia. destruct (not_shown hide_dotted n) eqn:Hs.
    + assert (Es : shown (n :: names) = shown names) by (unfold shown; apply filter_cons_False; by rewrite Hs).
      rewrite Es in *. destruct (IH Hns Hnames (watchdog + 1) dl) as (entries & Hrun & He); [done..|lia|]. exists entries. split; [|done].
      replace (watchdog + Z.of_nat (S (length names))) with (watchdog + 1 + Z.of_nat (length names)) by lia. exact Hrun.
    + assert (Es : shown (n :: names) = n :: shown names) by (unfold shown; by apply filter_cons_True).
      rewrite Es in *. destruct (dir_entry_of dir dl n) as (e & He & Hof); [done..| |].
      { apply Hd. by left. }
      rewrite He. run. set (dl1 := filter (λ d, d_name d ≠ n) dl).
      assert (Hsub : d_name <$> dl1 ⊆ d_name <$> dl).
      { intros x (d & -> & [_ Hd1]%list_elem_of_filter)%list_elem_of_fmap. apply list_elem_of_fmap. by exists d. }
      destruct (IH Hns Hnames (watchdog + 1) dl1) as (entries & Hrun & Hes).
      { apply Forall_forall. intros d [_ Hin]%list_elem_of_filter. rewrite Forall_forall in Hdl. by apply Hdl. }
      { eapply sublist_NoDup; [exact Hnd|]. apply fmap_sublist, sublist_filter. }
      { intros m Hm Hmn. apply Hd; [by right|]. intros (d & -> & Hin)%list_elem_of_fmap. apply Hmn. apply list_elem_of_fmap. exists d. split; [done|].
        apply list_elem_of_filter. split; [|done]. intros E. apply Hn. rewrite <- E. by apply list_elem_of_filter in Hm as [_ Hm]. }
      { lia. }
      rewrite Hrun. run. exists (e :: entries). split.
      * replace (watchdog + 1 + Z.of_nat (length names)) with (watchdog + Z.of_nat (S (length names))) by lia.
        assert (Ef : filter (λ d, d_name d ∉ shown names) dl1 = filter (λ d, d_name d ∉ n :: shown names) dl).
        { unfold dl1. rewrite list_filter_filter. apply list_filter_iff. intros d. rewrite not_elem_of_cons. tauto. }
        by rewrite Ef.
      * constructor; [done|]. apply Forall2_same_length_lookup. split; [by eapply Forall2_length|]. intros i x y Hx Hy.
        apply (entry_of_less dl (λ d, d_name d ≠ n)); [|by eapply Forall2_lookup_lr]. intros d _ <- E. apply Hn. rewrite <- E.
        apply list_elem_of_lookup_2 in Hy. by apply list_elem_of_filter in Hy as [_ Hy].
Qed.
Lemma vfs_entries_count dirname l watchdog vs n : vfs_entries b umask vfs fs w user dirname l watchdog = Val (Some (vs, n)) →
  n = watchdog + Z.of_nat (length l) ∧ (length vs ≤ length l)%nat.
Proof.
  revert watchdog vs n. induction l as [|v l IH]; intros watchdog vs n; cbn [vfs_entries length]; [intros [= <- <-]; simpl; lia|].
  destruct (MAX_DIRECTORY_ENTRIES <? watchdog); [done|]. intros (e & _ & H)%outcome_bind_Val. apply outcome_bind_Val in H as (r & Hr & H).
  destruct r as [[l' n']|]; [|by destruct e]. apply IH in Hr. destruct e; injection H as <- <-; simpl; lia.
Qed.

Lemma link_entries_all before watchdog l : watchdog + 2 * Z.of_nat (length l) ≤ 65536 → link_entries before watchdog l = Some (filter (λ f, kind f = FILE_LNK) l).
Proof.
  revert before watchdog. induction l as [|f l IH]; intros before watchdog Hw; [done|]. cbn [link_entries length] in *. unfold MAX_DIRECTORY_ENTRIES in *.
  rewrite (proj2 (Z.ltb_ge 65535 watchdog)) by lia. case_bool_decide as Hk.
  - rewrite filter_cons_True by done. rewrite (proj2 (Z.ltb_ge 65535 (watchdog + 1))) by lia.
    destruct (before =? 1)%nat; rewrite IH by lia; done.
  - rewrite filter_cons_False by done. apply IH. lia.
Qed.

(** The links of a permission file that are not among the names. *)
Definition links (names : list bytes) (dl : list dfile) : list dfile := filter (λ d, d_link d ≠ None ∧ d_name d ∉ shown names) dl.

Lemma filter_links (l : list dfile) : filter (λ f, kind f = FILE_LNK) (map repr l) = map repr (filter (λ d, d_link d ≠ None) l).
Proof.
  induction l as [|d l IH]; [done|]. cbn [map]. destruct (d_link d) as [t|] eqn:E.
  - rewrite filter_cons_True by (cbn [kind repr]; by rewrite E). rewrite filter_cons_True by congruence. cbn [map]. by rewrite IH.
  - rewrite filter_cons_False by (cbn [kind repr]; by rewrite E). by rewrite filter_cons_False by congruence.
Qed.

(** The name a virtual directory has in the directory [dirname]: its path, with
    the cookies replaced, is [dirname], a slash and that name, and the user may see
    it. *)
Definition virtual_name (dirname : bytes) (v : wzd_vfs_t) : option bytes :=
  match vfs_replace_cookies b w (virtual_dir v) user, vfs_match_perm b w (vfs_target v) user with
  | Val (Some s), Val true =>
    if starts_with (with_last_slash dirname) s && negb (bool_decide (SLASH ∈ drop (length (with_last_slash dirname)) s))
    then Some (drop (length (with_last_slash dirname)) s) else None
  | _, _ => None
  end.

(** A virtual directory that can be evaluated, and whose path, when it begins with
    [dirname], goes on with a slash and a name: next to /home/bob there is no
    virtual directory /home/bobby, which the code would list as y. *)
Definition vfs_listable (dirname : bytes) (v : wzd_vfs_t) : Prop :=
  (∃ o, vfs_replace_cookies b w (virtual_dir v) user = Val o ∧
     ∀ s, o = Some s → (length s < MAXPATH)%nat ∧ (starts_with dirname s = true → starts_with (with_last_slash dirname) s = true)) ∧
  (∃ m, vfs_match_perm b w (vfs_target v) user = Val m) ∧ ∃ e, stat_file b umask vfs fs w user (physical_dir v) = Val e.

Lemma vfs_entry_of dirname v : vfs_listable dirname v → from_option name_ok True (virtual_name dirname v) →
  ∃ o, vfs_entry b umask vfs fs w user dirname v = Val o ∧
    match o, virtual_name dirname v with Some f, Some n => named f n | None, None => True | _, _ => False end.
Proof.
  intros ((o & Ho & Hs) & (m & Hm) & (e & He)). unfold vfs_entry, virtual_name. rewrite Ho, Hm. run.
  destruct o as [s|]; [|by exists None]. destruct (Hs s eq_refl) as [Hl Hp]. rewrite (proj2 (Nat.leb_gt _ _)) by done.
  destruct (starts_with dirname s) eqn:Hd; cbn [negb].
  2: { assert (E : starts_with (with_last_slash dirname) s = false).
       { apply not_true_iff_false. intros [k ->]%starts_with_true. apply not_true_iff_false in Hd. apply Hd, starts_with_true.
         unfold with_last_slash. destruct (ends_with_slash dirname); [by eexists|]. exists (SLASH :: k). by rewrite <- app_assoc. }
       rewrite E. destruct m; by exists None. }
  destruct m; cbn [negb]; [|by exists None]. rewrite (Hp eq_refl). cbn [andb]. specialize (Hp eq_refl). apply starts_with_true in Hp as [n ->].
  assert (Ew : (length dirname + (if ends_with_slash dirname then 0 else 1))%nat = length (with_last_slash dirname)).
  { unfold with_last_slash. destruct (ends_with_slash dirname); rewrite ?length_app; simpl; lia. }
  rewrite Ew, (proj2 (Nat.ltb_ge _ _)), drop_app_length by (rewrite length_app; lia). rewrite strchr_elem by done.
  case_bool_decide as Hsl; cbn [negb]; [by exists None|]. rewrite He. run. intros Hn. eexists. split; [done|].
  unfold named, set_vfs. cbn [filename]. destruct e; cbn [filename set_name bare_file]; by apply named_copy.
Qed.

Lemma vfs_entries_of dirname l watchdog : Forall (vfs_listable dirname) l → Forall name_ok (omap (virtual_name dirname) l) →
  watchdog + Z.of_nat (length l) ≤ 65536 →
  ∃ vs n, vfs_entries b umask vfs fs w user dirname l watchdog = Val (Some (vs, n)) ∧ Forall2 named vs (omap (virtual_name dirname) l).
Proof.
  intros Hl. revert watchdog. induction Hl as [|v l Hv Hl IH]; intros watchdog Hok Hw; cbn [vfs_entries length] in *; [by exists [], watchdog; split|].
  unfold MAX_DIRECTORY_ENTRIES in *. rewrite (proj2 (Z.ltb_ge 65535 watchdog)) by lia.
  assert (Hv1 : from_option name_ok True (virtual_name dirname v) ∧ Forall name_ok (omap (virtual_name dirname) l)).
  { cbn [omap list_omap] in Hok. destruct (virtual_name dirname v); [by apply Forall_cons in Hok|done]. }
  destruct Hv1 as [Hn Hok']. destruct (vfs_entry_of dirname v Hv Hn) as (o & -> & Ho). run.
  destruct (IH (watchdog + 1) Hok') as (vs & n & -> & Hvs); [lia|]. run. cbn [omap list_omap].
  destruct o as [f|], (virtual_name dirname v) as [x|]; try done; [exists (f :: vs), n|exists vs, n]; (split; [done|]); [by constructor|done].
Qed.

(** A directory that can be shown: its names, what its permission file holds, and
    the virtual directories in it. *)
Record folder (dirname : bytes) (names : list bytes) (dl : list dfile) (virtual : list bytes) : Prop := {
  fo_length : (1 < length dirname ∨ dirname = [SLASH])%nat;
  fo_short : (length dirname + 257 ≤ MAXPATH)%nat;
  fo_names : fs_dir_names fs dirname = names;
  fo_distinct : NoDup names;
  fo_ok : Forall name_ok names;
  fo_perms : holds umask (sys_perms fs) (permfile_of dirname) dl;
  fo_kinds : ∀ n, n ∈ shown names → n ∉ d_name <$> dl → describable (with_last_slash dirname) n;
  fo_virtual : virtual = omap (virtual_name dirname) vfs ∧ Forall (vfs_listable dirname) vfs ∧ Forall name_ok virtual;
  fo_count : Z.of_nat (length names) + Z.of_nat (length vfs) + 2 * Z.of_nat (length dl) ≤ 65536 }.

Lemma dir_open_shows dirname names dl virtual : folder dirname names dl virtual →
  ∃ es vs, (length vs ≤ length vfs)%nat ∧ dir_open b umask hide_dotted vfs fs w user dirname = Val (Some (es ++ vs ++ map repr (links names dl))) ∧
    Forall2 (entry_of dl) es (shown names) ∧ Forall2 named vs virtual.
Proof.
  intros [Hlen Hshort Hnames Hdist Hok Hperms Hkinds (-> & Hvl0 & Hvok) Hcount].
  destruct (vfs_entries_of dirname vfs (Z.of_nat (length names)) Hvl0 Hvok ltac:(lia)) as (vs & n & Hvs & Hnv).
  destruct (holds_read _ _ _ _ Hperms) as (ret & Hread & _). destruct Hperms as (Hdl & Hnd & _).
  assert (Hdir : (if (1 <? length dirname)%nat then with_last_slash dirname else dirname) = with_last_slash dirname).
  { destruct (Nat.ltb_spec 1 (length dirname)); [done|]. destruct Hlen as [|E]; [lia|]. by rewrite E. }
  destruct (dir_entries_of (with_last_slash dirname) names 0 dl Hdl Hnd Hdist Hok) as (es & Hes & Hof);
    [unfold with_last_slash; destruct (ends_with_slash dirname); rewrite ?length_app; simpl; lia|done|lia|].
  apply vfs_entries_count in Hvs as Hcnt. destruct Hcnt as [-> Hvl]. exists es, vs. split; [done|]. split; [|done]. unfold dir_open. destruct dirname as [|c s] eqn:Ed; [destruct Hlen as [|E]; [simpl in *; lia|done]|]. rewrite <- Ed in *. clear Ed.
  change (with_last_slash dirname ++ HARD_PERMFILE) with (permfile_of dirname). rewrite Hread. run.
  rewrite (proj2 (Nat.leb_gt _ _)) by lia. rewrite Hdir, Hnames, Hes. run. change (0 + Z.of_nat (length names)) with (Z.of_nat (length names)). rewrite Hvs. run.
  rewrite link_entries_all.
  - cbn [mbind option_bind]. rewrite filter_links, list_filter_filter. do 4 f_equal.
  - rewrite length_map. pose proof (length_filter (λ d, d_name d ∉ shown names) dl). lia.
Qed.
End directory.

(** ** NLST *)

Section nlst.
  Context {F R : Type} `{!FileSystem F, !ListSystem F}.
  Context (changepass : bytes → bytes → bytes → nat → Z * bytes) (check_auth : bytes → bytes → bytes → Z).
  Context (sv : server R) (nt : network) (ctime : Z → bytes) (to_utf8 : bytes → bytes).
  Local Abbreviation pb := (Some (plaintext changepass check_auth)).

Definition dotted (n : bytes) : bool := starts_with (str ".") n.
Definition name_line (n : bytes) : option bytes := if dotted n then None else Some (n ++ eol).

Lemma short_lines fs flags dir files ns :
  Forall2 named files ns → lines_of ctime (nt_now nt) to_utf8 flags LIST_TYPE_SHORT (Some [STAR]) dir fs files (map name_line ns).
Proof.
  induction 1 as [|f n files ns Hn _ IH]; [constructor|]. constructor; [|done]. unfold list_line, name_line. rewrite Hn. run.
  change (Z.land LIST_TYPE_SHORT LIST_SHOW_HIDDEN =? 0) with true. rewrite andb_true_r. fold (dotted n). by destruct (dotted n).
Qed.

Lemma omap_name_line ns : omap id (map name_line ns) = map (λ n, n ++ eol) (filter (λ n, dotted n = false) ns).
Proof.
  induction ns as [|n ns IH]; [done|]. cbn [map]. unfold name_line at 1. destruct (dotted n) eqn:E.
  - rewrite filter_cons_False by congruence. exact IH.
  - rewrite filter_cons_True by done. cbn [omap list_omap id map]. f_equal. exact IH.
Qed.

(** The names that a listing shows. *)
Definition listed_names (names : list bytes) (dl : list dfile) (virtual : list bytes) : list bytes :=
  shown (sv_hide_dotted sv) names ++ virtual ++ map d_name (links (sv_hide_dotted sv) names dl).

Lemma links_named (names : list bytes) (dl : list dfile) : Forall (dfile_ok (sv_umask sv)) dl →
  Forall2 named (map repr (links (sv_hide_dotted sv) names dl)) (map d_name (links (sv_hide_dotted sv) names dl)).
Proof.
  intros Hdl. apply Forall2_same_length_lookup. split; [by rewrite !length_map|]. intros i f d Hi Hj.
  change (map repr ?l) with (repr <$> l) in Hi. change (map d_name ?l) with (d_name <$> l) in Hj.
  rewrite list_lookup_fmap in Hi. rewrite list_lookup_fmap in Hj. destruct (links _ names dl !! i) as [d'|] eqn:El; [|done]. injection Hi as <-. injection Hj as <-.
  apply list_elem_of_lookup_2, list_elem_of_filter in El as [_ El]. rewrite Forall_forall in Hdl. specialize (Hdl _ El).
  unfold named. cbn [filename repr]. apply buf_str_padded; [by eapply dfile_ok_nul_free|by eapply do_name].
Qed.

Lemma listed_names_ok names dl virtual : Forall name_ok names → Forall name_ok virtual → Forall (dfile_ok (sv_umask sv)) dl → Forall name_ok (listed_names names dl virtual).
Proof.
  intros Hok Hvok Hdl. apply Forall_app. split; [|apply Forall_app; split; [done|]].
  - apply Forall_forall. intros y [_ Hy]%list_elem_of_filter. rewrite Forall_forall in Hok. by apply Hok.
  - apply Forall_forall. intros y (d & -> & [_ Hd]%list_elem_of_filter)%list_elem_of_fmap. rewrite Forall_forall in Hdl. specialize (Hdl _ Hd).
    split; [by eapply dfile_ok_nul_free|by eapply do_name].
Qed.

Lemma name_lines_fit ns : Forall name_ok ns → Forall fits (omap id (map name_line ns)).
Proof.
  intros Hns. rewrite omap_name_line. apply Forall_forall. intros y (d & -> & [_ Hd]%list_elem_of_filter)%list_elem_of_fmap. rewrite Forall_forall in Hns.
  destruct (Hns _ Hd). unfold fits. rewrite length_app. unfold HARD_LS_BUFFERSIZE. simpl. lia.
Qed.

(** What [dir_open] gives for a directory that can be shown. *)
Lemma dir_open_named fs w user path names dl virtual :
  folder pb (sv_umask sv) (sv_hide_dotted sv) (sv_vfs sv) fs w user path names dl virtual →
  ∃ files, dir_open pb (sv_umask sv) (sv_hide_dotted sv) (sv_vfs sv) fs w user path = Val (Some files) ∧
    Forall2 named files (listed_names names dl virtual) ∧ Forall fits (omap id (map name_line (listed_names names dl virtual))) ∧
    Z.of_nat (length files) ≤ 65536.
Proof.
  intros Hf. destruct (dir_open_shows _ _ _ _ _ _ _ _ _ _ _ Hf) as (es & vs & Hvl & Hopen & Hes & Hvs).
  destruct Hf as [_ _ _ _ Hok (Hdl & _ & _) _ (_ & _ & Hvok) Hcount]. eexists. split; [exact Hopen|]. split_and!.
  - apply Forall2_app; [eapply Forall2_impl; [exact Hes|by intros ?? []]|]. apply Forall2_app; [done|by apply links_named].
  - by apply name_lines_fit, listed_names_ok.
  - rewrite !length_app, length_map. apply Forall2_length in Hes. rewrite Hes.
    assert (length (shown (sv_hide_dotted sv) names) ≤ length names)%nat by apply length_filter.
    assert (length (links (sv_hide_dotted sv) names dl) ≤ length dl)%nat by apply length_filter. lia.
Qed.

End nlst.

(** ** Concrete states *)

(** Files by name, and the names in each directory; nothing changes. *)
Record lsfs := mkLs { ls_kind : bytes → option fkind; ls_names : bytes → list bytes; ls_perms : permdisk }.

#[global] Instance lsfs_FileSystem : FileSystem lsfs := {|
  sys_lstat fs q := (λ k, (k, 0)) <$> ls_kind fs q;
  sys_stat fs q := (λ k, (k, 0)) <$> ls_kind fs q;
  sys_perms := ls_perms;
  sys_set_perms fs d := mkLs (ls_kind fs) (ls_names fs) d;
  sys_writable _ _ := false;
  sys_readdir fs q := Some (ls_names fs q);
  sys_mkdir fs _ _ := (-1, fs); sys_rmdir fs _ := (-1, fs); sys_unlink fs _ := (-1, fs); sys_rename fs _ _ := (-1, fs);
  sys_open fs _ _ := (-1, fs); sys_close fs _ := fs; sys_islocked _ _ := 0; sys_lock fs _ := fs; sys_unlock fs _ := fs;
  sys_lseek fs _ _ _ := (-1, fs); sys_read fs _ _ := (None, fs); sys_write fs _ _ := (-1, fs); sys_ftruncate fs _ _ := fs |}.
#[global] Instance lsfs_ListSystem : ListSystem lsfs := {| sys_nlink _ _ := 1; sys_mtime _ _ := 0; sys_ctime _ _ := 1; sys_readlink _ _ := None |}.

Definition lw_home : bytes := str "/home/bob".
Definition lw_names : list bytes := [str "."; str ".."; str ".dirinfo"; str "song"; str "pub"; str ".login"].
Definition lw_dl : list dfile :=
  [mkD (str "song") (str "bob") (str "staff") 416 [] None; mkD (str "music") (str "bob") (str "staff") 511 [] (Some (str "/srv/music"))].
Definition lw_disk : permdisk := {[permfile_of lw_home := match write_files (map repr lw_dl) with Val s => s | Crash => [] end]}.
Definition lw_kind (q : bytes) : option fkind :=
  if existsb (streq q) [str "/home/bob"; str "/home/bob/pub"; str "/data/shared"; str "/data"] then Some FK_DIR
  else if existsb (streq q) [str "/home/bob/song"; str "/home/bob/.login"] then Some FK_REG else None.
Definition lw_fs : lsfs := mkLs lw_kind (λ q, if streq q lw_home then lw_names else []) lw_disk.
Definition lw_state : hstate lsfs := mkH cw_session hw_xfer lw_fs [].

Lemma lw_holds : holds 509 lw_disk (permfile_of lw_home) lw_dl.
Proof.
  split; [repeat constructor; by_decision|]. split; [by_decision|]. unfold lw_disk. rewrite lookup_singleton_eq.
  unfold readPermFile. rewrite lookup_singleton_eq. by vm_compute.
Qed.


(** *** Requests *)

(** A mask after a directory is copied over the path, cut where the slash was; a
    question mark is refused there; STAT with options only reads before its
    argument. *)
Example mask_after_directory : list_args false LIST_TYPE_LONG (str "pub/file*") = Val (inr (LIST_TYPE_LONG, str "fil", [])).
Proof. by vm_compute. Qed.
Example question_after_directory :
  list_args false LIST_TYPE_LONG (str "pub/f?") = Val (inl (E_NO_DATA_CTX, "You can't put wildcards in the middle of path, only in the last part."%string)).
Proof. by vm_compute. Qed.
Example stat_options_only : list_args true LIST_TYPE_LONG (str "-a") = Crash.
Proof. by vm_compute. Qed.

(** A virtual directory is shown in any directory whose path its own begins with,
    slash or not: /home/bobby is shown as y in /home/bob. *)
Example virtual_by_prefix :
  (entry ← vfs_entry su_backend 509 [] lw_fs (ss_world cw_session) cw_me lw_home (mkVfs (str "/home/bobby") (str "/data/shared") None);
   match entry with Some e => buf_str (filename e) | None => Crash end) = Val (str "y").
Proof. by vm_compute. Qed.

(** The unique fact is made in an array of 128 bytes. *)
Lemma unique_long junk name : (128 ≤ length name)%nat → unique_fact junk name = Crash.
Proof. intros H. unfold unique_fact. by rewrite (proj2 (Nat.leb_le _ _) H). Qed.
