(* ===== verification/ExtensionsProps.v ===== *)
(** * Checksums given in parts, and what MODA does

    The numbers in the requests and the replies of XCRC are read back as they are
    printed, so that the checksum of a file can be asked for in parts, each from the
    reply to the one before. *)
From S2P Require Import Prelude Inet CList Registry Users Backend Str Codec Perm Path PermFile UsersFile UsersFileProps Vfs Session SiteUserProps Commands Chdir Login LoginProps Sections FileOps Transfer TransferProps FileOpsProps Handlers HandlersProps Digests Crypt Auth SiteFiles SiteFilesProps Extensions.

(** ** Numbers *)

Lemma upper_digit_facts d : 0 ≤ d < 16 →
  xdigit (upper_digit d) = d ∧ isspace (upper_digit d) = false ∧ upper_digit d ∉ str "xX+-".
Proof.
  intros Hd. assert (H : Forall (λ i, xdigit (upper_digit (Z.of_nat i)) = Z.of_nat i ∧ isspace (upper_digit (Z.of_nat i)) = false ∧ upper_digit (Z.of_nat i) ∉ str "xX+-") (seq 0 16))
    by (repeat constructor; by_decision).
  rewrite Forall_forall in H. specialize (H (Z.to_nat d)). rewrite Z2Nat.id in H by lia. apply H, elem_of_seq. lia.
Qed.

Definition plain_digit (c : ascii) : Prop := (xdigit c < 16) ∧ isspace c = false ∧ c ∉ str "xX+-".

Lemma upper_in_plain k v acc : 0 ≤ v → Forall plain_digit acc → Forall plain_digit (upper_in k v acc).
Proof.
  revert v acc. induction k as [|k IH]; intros v acc Hv Hacc; [done|]. cbn [upper_in].
  pose proof (Z.mod_pos_bound v 16 ltac:(lia)) as Hm. destruct (upper_digit_facts (v mod 16) Hm) as (Hx & Hs & Hc).
  assert (Forall plain_digit (upper_digit (v mod 16) :: acc)) by (constructor; [split; [lia|done]|done]).
  case_match; [done|]. apply IH; [apply Z.div_pos; lia|done].
Qed.

Lemma upper_in_cons k v acc : upper_in k v acc = [] → acc = [] ∧ k = O.
Proof.
  revert v acc. induction k as [|k IH]; intros v acc; [done|]. cbn [upper_in]. case_match; [done|]. by intros [? _]%IH.
Qed.

Lemma digits0_upper k v acc : 0 ≤ v < 16 ^ Z.of_nat k → digits0 16 0 (upper_in k v acc) = digits0 16 v acc.
Proof.
  revert v acc. induction k as [|k IH]; intros v acc Hv; [simpl in Hv; by replace v with 0 by lia|]. cbn [upper_in].
  pose proof (Z.mod_pos_bound v 16 ltac:(lia)) as Hm. pose proof (Z.div_mod v 16 ltac:(lia)) as Hd.
  destruct (upper_digit_facts (v mod 16) Hm) as [Hx _]. assert (Hlt : (xdigit (upper_digit (v mod 16)) <? 16) = true) by (rewrite Hx; lia).
  destruct (Z.eqb_spec (v / 16) 0) as [Hz|Hz].
  - cbn [digits0]. rewrite Hlt, Hx. f_equal. lia.
  - rewrite IH; [cbn [digits0]; rewrite Hlt, Hx; f_equal; lia|].
    rewrite Nat2Z.inj_succ, Z.pow_succ_r in Hv by lia. split; [apply Z.div_pos; lia|apply Z.div_lt_upper_bound; lia].
Qed.

(** [strtoul] in base 16 reads what [%lX] prints, after a blank. *)
Lemma strtoul16_upper v : 0 ≤ v < 2 ^ 64 → strtoul16 (" "%char :: hex_upper v) = (v, []).
Proof.
  intros Hv. pose proof (upper_in_plain 16 v [] ltac:(lia) ltac:(constructor)) as Hp.
  pose proof (digits0_upper 16 v [] ltac:(change (Z.of_nat 16) with 16; lia)) as Hd. cbn [digits0] in Hd.
  unfold hex_upper, strtoul16. destruct (upper_in 16 v []) as [|c s] eqn:E; [by apply upper_in_cons in E as [_ ?]|].
  apply Forall_cons in Hp as [(Hx & Hsp & Hc) Hp]. change (skip_spaces (" "%char :: c :: s)) with (skip_spaces (c :: s)).
  cbn [skip_spaces]. rewrite Hsp. cbv beta iota zeta.
  rewrite (bool_decide_eq_false_2 (c = "-"%char)), (bool_decide_eq_false_2 (c = "+"%char)) by (intros ->; apply Hc; by_decision).
  assert (E3 : match c :: s with
            | "0"%char :: x :: ((d :: _) as s') =>
              if (bool_decide (x = "x"%char) || bool_decide (x = "X"%char)) && (xdigit d <? 16) then s' else c :: s
            | _ => c :: s
            end = c :: s).
  { destruct s as [|x [|d s]]; [by destruct c as [[] [] [] [] [] [] [] []]..|]. apply Forall_cons in Hp as [(_ & _ & Hx') _].
    rewrite (bool_decide_eq_false_2 (x = "x"%char)), (bool_decide_eq_false_2 (x = "X"%char)) by (intros ->; apply Hx'; by_decision).
    cbn [orb andb]. by destruct c as [[] [] [] [] [] [] [] []]. }
  rewrite E3, (proj2 (Z.ltb_lt _ _)), Hd by done. rewrite (proj2 (Z.ltb_ge _ _)); [done|unfold ULONG_MAX; lia].
Qed.

(** [strtoul] in base 0 reads a decimal number after a blank, up to another blank. *)
Lemma strtoul0_word n rest : 0 ≤ n < 2 ^ 64 → strtoul0 (" "%char :: dec n ++ " "%char :: rest) = (n, " "%char :: rest).
Proof.
  intros Hn. destruct (decide (n = 0)) as [->|Hz]; [by destruct rest|].
  destruct (print_head 20 n [] ltac:(change (Z.of_nat 20) with 20; lia)) as (c & s & E & Hc0 & Hd).
  assert (Hs : Forall (λ c, isdigit_in 10 c = true) (c :: s)).
  { destruct (dec_digits n) as (t & Ht & _ & Hf & _). unfold dec in Ht. rewrite E in Ht. by subst t. }
  assert (Hv : digits0 10 0 (c :: s) = (n, [])).
  { rewrite digits0_dec by done. pose proof (digits_print 10 20 n [] ltac:(lia) ltac:(change (Z.of_nat 20) with 20; lia)) as H. by rewrite E in H. }
  destruct (isdigit_in_facts 10 c Hd) as (Hi & Hsp & Hm & Hp & _). assert (Ed : dec n = c :: s) by exact E. rewrite Ed.
  unfold strtoul0. change (skip_spaces (" "%char :: (c :: s) ++ " "%char :: rest)) with (skip_spaces (c :: (s ++ " "%char :: rest))).
  cbn [skip_spaces]. rewrite Hsp. cbv beta iota zeta. rewrite !bool_decide_eq_false_2 by done.
  assert (Eb : base_of (c :: s ++ " "%char :: rest) = (10, c :: s ++ " "%char :: rest)).
  { unfold base_of. by destruct c as [[] [] [] [] [] [] [] []]. }
  rewrite Eb. destruct (xdigit_dec c Hd) as [_ ->]. change (c :: s ++ " "%char :: rest) with ((c :: s) ++ " "%char :: rest).
  rewrite (digits0_app 0 (c :: s) n) by done. cbn [digits0]. change (xdigit " "%char <? 10) with false. cbv iota.
  rewrite (proj2 (Z.ltb_ge _ _)); [done|unfold ULONG_MAX; lia].
Qed.

(** ** XCRC *)

(** The request for a part of a file, from a checksum. *)
Definition xcrc_request (name : bytes) (start n : Z) (crc : bytes) : bytes :=
  DOUBLE_QUOTE :: name ++ DOUBLE_QUOTE :: " "%char :: dec start ++ " "%char :: dec n ++ " "%char :: crc.

Lemma checksum_args_request name start n crc :
  DOUBLE_QUOTE ∉ name → 0 ≤ start < 2 ^ 64 → 0 ≤ n < 2 ^ 64 → checksum_args (xcrc_request name start n crc) = Some (name, start, n, " "%char :: crc).
Proof.
  intros Hq Hs Hn. unfold checksum_args, xcrc_request. rewrite bool_decide_eq_true_2 by done.
  rewrite strchr_elem by by_decision. rewrite (bool_decide_eq_true_2 (DOUBLE_QUOTE ∈ _)) by (apply elem_of_app; right; left). cbn [negb].
  rewrite take_until_app.
  - rewrite strtoul0_word by done. rewrite bool_decide_eq_false_2.
    + pose proof (strtoul0_word n crc Hn) as E. rewrite E. rewrite bool_decide_eq_false_2; [done|]. intros H%(f_equal length).
      rewrite !length_cons, length_app in H. simpl in H. lia.
    + intros H%(f_equal length). simpl in H. rewrite !length_app in H. simpl in H. rewrite !length_app in H. simpl in H. lia.
  - apply Forall_forall. intros c Hc. apply bool_decide_eq_false_2. by intros ->.
  - by apply bool_decide_eq_true_2.
Qed.

Lemma upper_in_length k v acc : (length (upper_in k v acc) ≤ k + length acc)%nat.
Proof.
  revert v acc. induction k as [|k IH]; intros v acc; [simpl; lia|]. cbn [upper_in]. case_match; [simpl; lia|].
  specialize (IH (v / 16) (upper_digit (v mod 16) :: acc)). simpl in IH. lia.
Qed.

Lemma request_length name start n v : (length name ≤ 900)%nat → checklength (Some (xcrc_request name start n (hex_upper v))) = Some (xcrc_request name start n (hex_upper v)).
Proof.
  intros Hl. destruct (dec_digits start) as (s1 & E1 & _ & _ & H1). destruct (dec_digits n) as (s2 & E2 & _ & _ & H2).
  pose proof (upper_in_length 16 v []) as H3. fold (hex_upper v) in H3. unfold checklength.
  assert (Hlen : (1 ≤ length (xcrc_request name start n (hex_upper v)) ≤ MAXPATH - 1)%nat).
  { unfold xcrc_request. rewrite E1, E2. repeat (rewrite length_app || cbn [length]). unfold MAXPATH. cbn [length] in H3. lia. }
  by rewrite (proj2 (Nat.leb_le _ _) (proj1 Hlen)), (proj2 (Nat.leb_le _ _) (proj2 Hlen)).
Qed.

(** The checksum of bytes after others whose checksum is [v], bit by bit. *)
Definition crc_bits (v : Z) (data : list Z) : Z := Codec.not32 (foldl crc_byte (Codec.not32 v) data).

Lemma crc_bits_steps v data : Forall is_byte data → crc_bits v data = Codec.not32 (foldl crc_step (Codec.not32 v) data).
Proof.
  intros Hb. unfold crc_bits. f_equal. generalize (not32_range v). generalize (Codec.not32 v) as t.
  induction Hb as [|x bs Hx Hbs IH]; intros t Ht; cbn [foldl]; [done|]. rewrite <- crc_step_byte by done. apply IH, crc_step_range.
Qed.

Lemma crc_bits_range v data : 0 ≤ crc_bits v data < 2 ^ 32.
Proof. apply not32_range. Qed.

Lemma crc_bits_app v d1 d2 : Forall is_byte d1 → crc_bits (crc_bits v d1) d2 = crc_bits v (d1 ++ d2).
Proof.
  intros Hb. unfold crc_bits at 1 3. rewrite crc_bits_steps by done. rewrite not32_invol by apply foldl_crc_range, not32_range.
  rewrite foldl_app. do 2 f_equal. generalize (not32_range v). generalize (Codec.not32 v) as t.
  induction Hb as [|x bs Hx Hbs IH]; intros t Ht; cbn [foldl]; [done|]. rewrite <- crc_step_byte by done. apply IH, crc_step_range.
Qed.

Definition part (start n : Z) (data : list Z) : list Z := take (Z.to_nat n) (drop (Z.to_nat start) data).

Lemma part_app start n m data : 0 ≤ start → 0 ≤ n → 0 ≤ m → part start n data ++ part (start + n) m data = part start (n + m) data.
Proof.
  intros. unfold part. rewrite !Z2Nat.inj_add by lia. rewrite <- drop_drop. rewrite take_take_drop. done.
Qed.

Section xcrc.
  Context {F R : Type} `{!FileSystem F, !SiteSystem F}.
  Context (b : option wzd_backend_t) (sv : server R) (BUFSIZ : nat).

(** A name that leads to a file that can be read. *)
Record readable (h : hstate F) (name text : bytes) : Prop := {
  rd_name : DOUBLE_QUOTE ∉ name;
  rd_length : (length name ≤ 900)%nat;
  rd_path : ∃ path, checkpath b sv name h = Val ((E_OK, Some path), h) ∧ hidden sv (cut_slash path) = false ∧
    sys_text (h_fs h) (cut_slash path) = Some text ∧ is_Some (sys_stat (h_fs h) (cut_slash path)) }.

Definition replied (h : hstate F) (text : bytes) : hstate F := with_s h (add_event (h_s h) (Reply 250 (text ++ str ": "))).

Lemma bytes_code (text : bytes) : Forall is_byte (map code text).
Proof. apply Forall_map, Forall_true. intros c. unfold is_byte. pose proof (code_range c). simpl. lia. Qed.

Lemma part_bytes start n (text : bytes) : Forall is_byte (part start n (map code text)).
Proof. apply Forall_take, Forall_drop, bytes_code. Qed.

(** What is computed once the bounds are cut to the size of the file. *)
Lemma calc_crc32_part text start n v :
  (0 < BUFSIZ)%nat → 0 ≤ start < 2 ^ 63 → 0 ≤ n →
  (calc_crc32 BUFSIZ (Some (map code text)) v (Z.to_nat (seek_from start (Z.of_nat (length (map code text))))) (Z.to_nat (Z.min n (Z.of_nat (length (map code text)))))).2
  = crc_bits v (part start n (map code text)).
Proof.
  intros HB Hs Hn. set (data := map code text). unfold calc_crc32, seek_from. rewrite (proj2 (Z.leb_gt _ _)) by lia.
  rewrite crc_loop_spec by lia. cbn [snd]. rewrite crc_bits_steps by apply part_bytes. do 2 f_equal. unfold part. fold data.
  assert (Hd : drop (Z.to_nat (Z.min start (Z.of_nat (length data)))) data = drop (Z.to_nat start) data).
  { destruct (Z.min_spec start (Z.of_nat (length data))) as [[_ ->]|[? ->]]; [done|]. rewrite !drop_ge by lia. done. }
  rewrite Hd. destruct (Z.min_spec n (Z.of_nat (length data))) as [[_ ->]|[? ->]]; [done|].
  rewrite !take_ge; [done|rewrite length_drop; lia..].
Qed.

Lemma run_xcrc h name text start n v :
  (0 < BUFSIZ)%nat → readable h name text → 0 ≤ start < 2 ^ 63 → 0 ≤ n < 2 ^ 64 → 0 ≤ v < 2 ^ 32 →
  do_xcrc b sv BUFSIZ (Some (xcrc_request name start n (hex_upper v))) h =
    Val (E_OK, replied h (hex_upper (crc_bits v (part start n (map code text))))).
Proof.
  intros HB [Hq Hl (path & Hp & Hh & Ht & [st Hst])] Hs Hn Hv. unfold do_xcrc. rewrite request_length by done. cbn [mbind option_bind].
  rewrite checksum_args_request by (done || lia). rewrite strtoul16_upper by lia. cbn [fst]. unfold with_file.
  rewrite (hbind _ _ _ _ _ Hp). cbn [fst snd]. rewrite bool_decide_eq_true_2 by done. cbn [negb deref]. rewrite (step_must _ path) by done.
  rewrite Hh, step_get, Hst. rewrite step_bind, step_get. unfold file_data. rewrite Ht. cbn [fmap option_fmap option_map default from_option id].
  unfold id. rewrite step_ret, calc_crc32_part by (done || lia). reflexivity.
Qed.

(** C26. The checksum of a part of a file that can be read, given back with a request
    for the part that follows, gives the checksum of both parts, the same as one
    request for both: the CRC-32 of the bytes, computed bit by bit. *)
Theorem xcrc_in_parts h name text start n m :
  (0 < BUFSIZ)%nat → readable h name text → 0 ≤ start → 0 ≤ n → 0 ≤ m → start + n < 2 ^ 63 → n + m < 2 ^ 64 →
  ∃ sum, do_xcrc b sv BUFSIZ (Some (xcrc_request name start n (str "0"))) h = Val (E_OK, replied h sum) ∧
    ∀ h', readable h' name text →
      ∃ whole, whole = hex_upper (crc_bits 0 (part start (n + m) (map code text))) ∧
        do_xcrc b sv BUFSIZ (Some (xcrc_request name (start + n) m sum)) h' = Val (E_OK, replied h' whole) ∧
        do_xcrc b sv BUFSIZ (Some (xcrc_request name start (n + m) (str "0"))) h' = Val (E_OK, replied h' whole).
Proof.
  intros HB Hr Hs Hn Hm Hsn Hnm. change (str "0") with (hex_upper 0). eexists. split; [apply (run_xcrc _ _ text); (done || lia)|].
  intros h' Hr'. eexists. split; [reflexivity|]. split.
  - rewrite (run_xcrc _ _ text) by (done || lia || apply crc_bits_range). rewrite crc_bits_app by apply part_bytes. rewrite part_app by done. done.
  - apply (run_xcrc _ _ text); (done || lia).
Qed.
End xcrc.

(** ** Concrete requests *)

Definition xs_fs : memfs := mkMem (mf_kind sf_fs) (λ q, if streq q (str "/home/bob/song") then str "123456789" else []) (λ _, None) sf_disk.
Definition xs_state : hstate memfs := mkH cw_session hw_xfer xs_fs [].

Lemma xs_readable : readable su_backend hw_server xs_state (str "song") (str "123456789").
Proof.
  split; [by_decision|apply Nat.leb_le; by vm_compute|]. exists (str "/home/bob/song"). split_and!; [by vm_compute..|]. eexists. by vm_compute.
Qed.

Lemma xcrc_in_parts_witness :
  ∃ sum, do_xcrc su_backend hw_server 4 (Some (xcrc_request (str "song") 2 3 (str "0"))) xs_state = Val (E_OK, replied xs_state sum) ∧
    ∀ h', readable su_backend hw_server h' (str "song") (str "123456789") →
      ∃ whole, whole = hex_upper (crc_bits 0 (part 2 (3 + 9) (map code (str "123456789")))) ∧
        do_xcrc su_backend hw_server 4 (Some (xcrc_request (str "song") (2 + 3) 9 sum)) h' = Val (E_OK, replied h' whole) ∧
        do_xcrc su_backend hw_server 4 (Some (xcrc_request (str "song") 2 (3 + 9) (str "0"))) h' = Val (E_OK, replied h' whole).
Proof. apply (xcrc_in_parts su_backend hw_server 4 xs_state (str "song") (str "123456789") 2 3 9); [lia|exact xs_readable|lia..]. Defined.

Definition ends_with (m : outcome (wzd_errno_t * hstate memfs)) : option (wzd_errno_t * list syscall * list event) :=
  match m with Val (r, h) => Some (r, h_calls h, ss_out (h_s h)) | Crash => None end.

(** The checksum of the whole file, and of a part without quotes around the name,
    which is then no name of a file. *)
Example xcrc_check :
  ends_with (do_xcrc su_backend hw_server 4 (Some (str "song")) xs_state) = Some (E_OK, [], [Reply 250 (str "CBF43926: ")]) ∧
  ends_with (do_xcrc su_backend hw_server 4 (Some (str "song 0 3")) xs_state) =
    Some (E_FILE_NOEXIST, [], [Reply 550 (str "XCRC: File inexistent or no access?")]).
Proof. by vm_compute. Qed.

(** A checksum to start from of more than sixteen bytes is written past its array. *)
Example xmd5_overflow :
  do_xmd5 su_backend hw_server 4 [] (Some (DOUBLE_QUOTE :: str "song" ++ DOUBLE_QUOTE :: str " 0 9 " ++ replicate 34 "0"%char)) xs_state = Crash.
Proof. by vm_compute. Qed.

(** Of two facts MODA applies the first, sets the other time to 0, and ends with an
    error though it replies that the command is right. *)
Example moda_one_fact :
  ends_with (do_moda su_backend hw_server (λ s, if streq s (str "20060101") then Some 1136073600 else None)
    (Some (str "modify=20060101;accessed=20060101; song")) xs_state) =
  Some (E_PARAM_INVALID, [SysUtime (str "/home/bob/song") 0 1136073600], [Reply 200 (str "Command okay")]).
Proof. by vm_compute. Qed.

(** EPSV replies as PASV does. *)
Example epsv_replies_227 : ∃ text, ends_with (do_epsv hw_server hw_network xs_state) = Some (E_OK, [], [Reply 227 text]).
Proof. eexists. by vm_compute. Qed.
